(* ===== verification/_CoqProject ===== *)
-Q . S2P
Prelude.v
GoUtf8.v
GoStrings.v
GoPath.v
GoNet.v
GoNetPrint.v
Body.v
GoHttp.v
GoJson.v
HostMatch.v
Transform.v
DnsGuard.v
Allowlist.v
PrivateConn.v
GoJsonParse.v
GoEncoding.v
GoRawEncoding.v
GoTime.v
GoMime.v
GoRegexp.v
SecretSources.v
ScrubPairs.v
McpRpc.v
AuditLog.v
ControlPlane.v
McpTrace.v
McpPolicy.v
McpSse.v
McpIntercept.v
PgSql.v
PgSafety.v
PgCache.v
PgPolicy.v
Headers.v
Secrets.v
SecretsSafety.v
ProxySend.v
Utf8Codec.v
GoJsonRoundtrip.v
ScrubMatch.v
ScrubStream.v
ScrubTables.v
ScrubReader.v
ScrubSafety.v
ScrubResponse.v
GoUrl.v
GoQuery.v
McpGateway.v
RetryHandler.v
ProxyHttp.v
Proxy.v
ProxySafety.v
ProxyTunnel.v
Observers.v
OAuth.v
GcpAuth.v
Signing.v
SshWebsocket.v
SshProxy.v
SshServe.v
OtelAudit.v
CertCache.v
GrpcTransform.v
PgConfig.v
Config.v
DnsServer.v
PgSession.v
PgServer.v
Managed.v
Management.v
JudgeBreaker.v
Judge.v
LlmClients.v
Dialing.v
Lifecycle.v
Serving.v
