(* ===== verification/Prelude.v ===== *)
(** * iron-proxy: a verification development

    iron-proxy is an egress proxy: requests of an untrusted workload pass a
    pipeline of transforms that may refuse them, change them, swap placeholders
    for real secrets or sign them, before they are dialled under a deny list;
    MCP, Postgres and SSH traffic is inspected by policies of its own.  This
    library models the program as executable definitions over the bytes the Go
    code sees, and proves what they guarantee.  File names below are under
    src/internal unless they start with cmd/.

    ** How the program is put together

    - [main] (cmd/iron-proxy/main.go) loads and validates a configuration, builds
      the pipeline and the other parts from it or from what the control plane
      syncs, and starts the servers.  A poller (controlplane) or the management
      API replaces the parts while they serve.
    - The proxy handler (proxy/proxy.go) takes direct and tunnelled requests,
      CONNECT and SOCKS5 tunnels (tunnel.go), WebSocket upgrades and, in
      sni-only mode, TLS connections it only peeks at.  It terminates TLS with
      leaves of the certificate cache, runs the pipeline, sends, retries a
      refused response when a handler authorizes it, runs the pipeline back and
      writes one audit record.
    - A request runs through [Pipeline.ProcessRequest]; every transform sees it
      through a [BufferedBody] it can re-read, returns continue, reject or stub,
      and leaves a trace.
    - The transforms: allowlist (rules of hostmatch), secrets with its response
      scrub and its sources, header allowlist, annotate, body capture, the judge
      that asks a language model, gRPC services, oauth, Google, AWS and HMAC
      credentials.
    - [RoundTrip] rechecks the destination of redeemed secrets; dials go
      through the deny list (dnsguard) unless the pipeline consents to the
      address; connections so made are fenced when a reload withdraws consent.
    - MCP requests are judged by [EvaluateRequest] and their responses filtered,
      also as event streams; the MCP gateway routes named servers.  Postgres
      sessions are relayed with their texts judged by [ClassifyClientStatement]
      on syntax trees.  The SSH proxy logs in upstream with granted credentials
      and relays only what its policy forwards.  The DNS server answers with
      the address of the proxy.

    ** Files

    Go's language and standard library, as far as the sources use them:
    - [Prelude]: results, tactics, the hint database [go], shared lemmas.
    - [GoUtf8], [Utf8Codec], [GoStrings], [GoPath]: bytes and runes, [strings],
      [bytes], [strconv.Quote], [path.Clean], [path.Match].  Facts about Unicode
      beyond ASCII come from the class [UnicodeTables].
    - [GoNet], [GoNetPrint]: addresses, prefixes and CIDRs of [net] and
      [net/netip], and that an address is what its text says.
    - [GoHttp], [GoUrl], [GoQuery]: header maps, URLs and queries, requests and
      responses.  Go's unspecified map order is the class [MapRange]; theorems hold for
      every order.
    - [GoJson], [GoJsonParse], [GoJsonRoundtrip]: [any] values, float64 (as
      [spec_float]), the scanner, decoder and encoder of [encoding/json], and that
      encoded texts read back.
    - [GoEncoding], [GoRawEncoding]: base64, base32, hex.  [GoTime]: durations.
      [GoMime]: [mime.ParseMediaType].  [GoRegexp]: the interface to [regexp].

    The program:
    - [Body], [Transform], [AuditLog], [OtelAudit]: transform/body.go,
      transform.go, pipeline.go, registry.go, audit.go, otelaudit.go and
      otel/provider.go.
    - [HostMatch], [Allowlist]: hostmatch, transform/allowlist.  [DnsGuard],
      [PrivateConn], [ProxySend]: dnsguard, transform/private_ips.go, holder.go
      and proxy/private_ip.go, the reload as a step relation.
    - [Headers]: headers.  [Secrets], [SecretsSafety], [SecretSources]:
      transform/secrets/secrets.go, canonical.go, pending.go and the resolvers.
      transform/secrets/scrub.go: [ScrubPairs], [ScrubMatch], [ScrubStream],
      [ScrubTables], [ScrubReader], [ScrubSafety], [ScrubResponse].
    - [Observers]: transform/headerallowlist, annotate, bodycapture.
      [JudgeBreaker], [Judge], [LlmClients]: transform/judge and judge/llm.
      [GrpcTransform]: transform/grpc.  [OAuth], [GcpAuth], [Signing]:
      transform/oauth, gcpjwt, gcpauth, gcpidtoken, hmacsign, awsauth.
    - [McpRpc], [McpTrace], [McpPolicy], [McpSse], [McpIntercept]: mcp.
      [McpGateway]: mcpgateway.  [RetryHandler]: responseretry.
    - [ProxyHttp], [Proxy], [ProxySafety]: the handler of proxy/proxy.go and
      websocket.go with its theorems.  [ProxyTunnel]: tunnel.go,
      sni_passthrough.go, snipeek.go.  [Dialing]: the transport, its dials and
      pooled connections, as a step relation.  [CertCache]: certcache, cagen and
      cmd/iron-proxy/generate_ca.go.
    - [PgSql], [PgSafety], [PgCache], [PgPolicy]: postgres/sql.go and policy.go.
      [PgConfig], [PgSession], [PgServer]: postgres/config.go, session.go,
      auth.go, server.go, manager.go; the relay as interleaved steps.
    - [SshWebsocket], [SshProxy], [SshServe]: sshproxy; the goroutines of a
      session, the detached ones too, and the channels as step relations, the
      WebSocket headers by RFC 6455.  [DnsServer]: dns.
    - [Config]: config.  [ControlPlane]: controlplane, the poller as a step
      relation.  [Managed], [Management], [Lifecycle]: cmd/iron-proxy/main.go,
      the start interleaved with the poller it has running, management, metrics, and the serving loops of proxy.go and tunnel.go.
      [Serving]: the command line, [proxy.New], [ListenAndServe], what is served
      in a tunnel, and [proxyBidi].

    Each component is a Module or Section whose Record is the state the Go
    struct holds and whose Definitions have the names of the Go functions; a
    handler returns its result and the state it leaves, errors are values.

    ** What the theorems show

    - Gates: the handler sends only what the pipeline admitted, as it left it,
      WebSocket upgrades, gateway routes and replays included;
      the allowlist passes exactly what a configured rule denotes, and a path
      rule admits no path that leaves it; the MCP gate forwards exactly the
      messages whose tool calls the configuration permits; the Postgres gate
      allows exactly the texts no part of which changes the role or a pinned
      setting; the judge and the gRPC transform fail closed and decide on the
      very request; tunnels and SSH requests are admitted or refused as configured.
    - Secrets: values of secrets that do not apply to a request cannot
      influence it; a redeemed canonical secret is only sent home, whatever
      later transforms do; responses are scrubbed of the secrets the request
      remembered, streamed or not; minted tokens belong to current credentials,
      but for a collision of their digest, and signatures to what is sent.
    - Connections: over any history of sends and reloads a request travels
      only on a connection the deny list or the consent of the pipeline of that
      moment admits,
      a reload fences what it no longer allows; replays are authorized and
      happen once; certificates are for the name asked; SSH logins follow the
      grant and end with its last renewal; DNS answers are what the
      configuration says.
    - State machines: the Postgres relay and the WebSocket stream refine
      reference definitions for every interleaving and cut; the poller reports
      what it applied; the circuit breaker recovers; reloads are all or
      nothing, alone; a tunnelled connection is served to its end; an SSH
      session ends with nothing left running, and its client gets the exit
      status before the close; a relayed connection is passed on as it is; the
      error channels have room; a cached secret source refines its history.
    - Composition: a tunnelled request is judged with its tunnel and by
      itself, whatever was reloaded between; the audit line and the telemetry agree; the management API changes the proxy only with its key;
      [main] runs only what was validated, and audits it unless an update of
      the poller is under way at that moment; a generated CA is accepted; the
      question the judge puts arrives at the model intact.
    - Some theorems record where the code differs from its comments or
      intent, among them: a JSON member of another case that hides a tool call
      ([mcp_gate_member_case]), null members that wipe the pipeline
      ([null_members_wipe_pipeline]), a token source bound to a finished request
      ([expired_token_never_refreshed]), reloads that mix
      ([concurrent_reloads_mix]), a token sent to a foreign collector
      ([ingest_token_leaves]), a CA pair that never mints
      ([failed_generation_breaks_tls]), a body read after it was sent
      ([streamed_body_panics]), bytes lost after a SOCKS5 negotiation
      ([socks_early_bytes_lost]), loopback reached through an unspecified
      address ([unspecified_reaches_loopback]).

    ** Bounds and fuel

    Machine integers are [Z] with their ranges checked where the code checks
    them (ports, prefix lengths, [Atoi] at 64 bits) and wrapped where it does
    not ([CaGen.int64], [Grpc.int32]).  Fuel is shown to suffice: the JSON
    parser's is twice the length of the text plus two, as at most two calls nest
    per byte ([reads_json_parse] for every encoded text); [readSSEEvent] needs one unit
    per byte ([read_event_spec]); [Classify] one unit per byte of the text
    on a parser whose routine bodies lie inside the statement ([Classify_total]);
    durations are parsed with their length; the frames of a WebSocket read with
    one unit per byte and one more ([websocket_read_refines]).  The scan and the matcher
    of the scrub recurse on the data.

    ** Not modelled

    Generated protobuf code; signals and log lines; the passing of time under
    the timeouts of dials and transports, whose values are carried.  Addresses
    of a host are tried one after the other, in an order the resolver gives.
    Timers are idealised to steps that may happen when they are
    due; a single mint, classification or request is not interleaved with
    itself.  The members of the JSON object of a PL/pgSQL body are scanned in
    the order of the text, which matters only for the statement kind reported.  Third-party code and services are parameters with their documented
    behaviour as laws: the SQL parser, LRU caches, x/oauth2, Google and AWS
    SDKs, x/crypto/ssh, crypto/x509, the WebSocket library, gRPC services, YAML
    decoding, [text/template], regular expressions, secret stores, the upstream
    servers and clocks. *)
From stdpp Require Import base gmap strings list option sets relations.
From Stdlib Require Import ZArith Lia Ascii.

(** ** Scopes and shared notation *)

Declare Scope go_scope.
Delimit Scope go_scope with go.
Open Scope go_scope.

(** ** Results: Go's [(value, error)] pairs

    A Go function that returns [(T, error)] and whose callers never look at
    the value when the error is non-nil is modelled by [result E T]. *)
Inductive result (E A : Type) : Type :=
  | Ok (a : A)
  | Err (e : E).
Arguments Ok {E A} _.
Arguments Err {E A} _.

Definition rbind {E A B} (m : result E A) (k : A -> result E B) : result E B :=
  match m with
  | Ok a => k a
  | Err e => Err e
  end.

Notation "'let*' x := m 'in' k" := (rbind m (fun x => k))
  (at level 10, x pattern, m at level 100, k at level 200) : go_scope.

Definition is_Ok {E A} (m : result E A) : bool :=
  match m with Ok _ => true | Err _ => false end.

(** [mapM]: run a fallible step on each element and stop at the first error,
    as a Go loop with an early [return nil, err] does. *)
Fixpoint rmap {E A B} (f : A -> result E B) (l : list A) : result E (list B) :=
  match l with
  | [] => Ok []
  | x :: l' => let* y := f x in let* ys := rmap f l' in Ok (y :: ys)
  end.

(** The same with the loop index, counted from [i]. *)
Fixpoint rmapi {E A B} (f : nat -> A -> result E B) (i : nat) (l : list A) : result E (list B) :=
  match l with
  | [] => Ok []
  | x :: l' => let* y := f i x in let* ys := rmapi f (S i) l' in Ok (y :: ys)
  end.

Lemma rbind_Ok_inv {E A B} (m : result E A) (k : A -> result E B) b :
  rbind m k = Ok b -> exists a, m = Ok a /\ k a = Ok b.
Proof. destruct m; simpl; [eauto | done]. Qed.

Section results.
Context {E A B : Type}.
Implicit Types (f : A -> result E B).

Lemma rmap_Ok f l ys : rmap f l = Ok ys <-> Forall2 (fun x y => f x = Ok y) l ys.
Proof.
  revert ys. induction l as [|x l IH]; intros ys; simpl.
  - split; [intros [= <-]; constructor | by inversion 1].
  - split.
    + intros (y & Hy & (ys' & Hys & [= <-])%rbind_Ok_inv)%rbind_Ok_inv.
      constructor; [done | by apply IH].
    + inversion 1 as [|x' y l' ys' Hx Hl]; subst. by rewrite Hx, (proj2 (IH ys') Hl).
Qed.

Lemma rmap_app f l1 l2 :
  rmap f (l1 ++ l2) = (let* y1 := rmap f l1 in let* y2 := rmap f l2 in Ok (y1 ++ y2)).
Proof.
  induction l1 as [|x l1 IH]; simpl.
  - by destruct (rmap f l2).
  - destruct (f x); simpl; [|done]. rewrite IH.
    destruct (rmap f l1); simpl; [|done]. by destruct (rmap f l2).
Qed.

Lemma rmapi_Ok (g : nat -> A -> result E B) i l ys :
  rmapi g i l = Ok ys <->
  length ys = length l /\
  forall k x, l !! k = Some x -> exists y, ys !! k = Some y /\ g (i + k) x = Ok y.
Proof.
  revert i ys. induction l as [|x l IH]; intros i ys; simpl.
  - split.
    + intros [= <-]. split; [done|]. intros k x. by rewrite lookup_nil.
    + by intros [->%nil_length_inv _].
  - split.
    + intros (y & Hy & (ys' & Hys & [= <-])%rbind_Ok_inv)%rbind_Ok_inv.
      apply IH in Hys as [Hlen Hall]. split; [simpl; lia|].
      intros [|k] z; simpl.
      * intros [= <-]. exists y. by rewrite Nat.add_0_r.
      * intros Hz. destruct (Hall k z Hz) as (w & ? & ?). exists w. split; [done|].
        by replace (i + S k) with (S i + k) by lia.
    + intros [Hlen Hall]. destruct ys as [|y ys]; [done|].
      destruct (Hall 0 x eq_refl) as (y' & [= <-] & Hy). rewrite Nat.add_0_r in Hy.
      rewrite Hy. simpl. rewrite (proj2 (IH (S i) ys)); [done|].
      split; [simpl in Hlen; lia|]. intros k z Hz.
      destruct (Hall (S k) z Hz) as (w & ? & ?). exists w. split; [done|].
      by replace (S i + k) with (i + S k) by lia.
Qed.
End results.

(** ** Tactics of the development *)

(** Turn boolean tests in the context and the goal into propositions. *)
Ltac bool_prop :=
  repeat match goal with
  | H : (_ && _) = true |- _ => apply andb_true_iff in H as [? ?]
  | H : (_ && _) = false |- _ => apply andb_false_iff in H
  | H : (_ || _) = true |- _ => apply orb_true_iff in H
  | H : (_ || _) = false |- _ => apply orb_false_iff in H as [? ?]
  | H : negb _ = true |- _ => apply negb_true_iff in H
  | H : negb _ = false |- _ => apply negb_false_iff in H
  | H : bool_decide _ = true |- _ => apply bool_decide_eq_true in H
  | H : bool_decide _ = false |- _ => apply bool_decide_eq_false in H
  | H : (_ <? _)%Z = true |- _ => apply Z.ltb_lt in H
  | H : (_ <? _)%Z = false |- _ => apply Z.ltb_ge in H
  | H : (_ <=? _)%Z = true |- _ => apply Z.leb_le in H
  | H : (_ <=? _)%Z = false |- _ => apply Z.leb_gt in H
  | H : (_ =? _)%Z = true |- _ => apply Z.eqb_eq in H
  | H : (_ =? _)%Z = false |- _ => apply Z.eqb_neq in H
  | H : (_ <? _)%nat = true |- _ => apply Nat.ltb_lt in H
  | H : (_ <? _)%nat = false |- _ => apply Nat.ltb_ge in H
  | H : (_ <=? _)%nat = true |- _ => apply Nat.leb_le in H
  | H : (_ <=? _)%nat = false |- _ => apply Nat.leb_gt in H
  | H : (_ =? _)%nat = true |- _ => apply Nat.eqb_eq in H
  | H : (_ =? _)%nat = false |- _ => apply Nat.eqb_neq in H
  end.

(** Split on every [if] and [match] of the goal, keeping the equations. *)
Ltac split_code :=
  intros; repeat (case_match; simplify_eq/=; bool_prop).

(** Decide the integer tests of a goal, innermost first, and finish with [lia]. *)
Ltac z_cases :=
  repeat (match goal with
          | |- context [(?a <=? ?b)%Z] =>
            lazymatch a with context [if _ then _ else _] => fail | _ => idtac end;
            lazymatch b with context [if _ then _ else _] => fail | _ => idtac end;
            destruct (Z.leb_spec a b)
          | |- context [(?a <? ?b)%Z] =>
            lazymatch a with context [if _ then _ else _] => fail | _ => idtac end;
            lazymatch b with context [if _ then _ else _] => fail | _ => idtac end;
            destruct (Z.ltb_spec a b)
          | |- context [(?a =? ?b)%Z] =>
            lazymatch a with context [if _ then _ else _] => fail | _ => idtac end;
            lazymatch b with context [if _ then _ else _] => fail | _ => idtac end;
            destruct (Z.eqb_spec a b)
          end; cbn [andb orb negb]);
  try done; try lia.

(** Invert a chain of monadic successes. *)
Ltac rinv :=
  repeat match goal with
  | H : rbind _ _ = Ok _ |- _ => apply rbind_Ok_inv in H as (? & ? & ?)
  | H : Ok _ = Ok _ |- _ => injection H as H
  | H : Err _ = Ok _ |- _ => discriminate H
  end.

Create HintDb go.

(** Strings are reasoned about by structural recursion here. *)
#[global] Arguments String.append : simpl nomatch.

#[export] Set Warnings "-clear-no-such-hyp,-register-all".

(** ** Invariants of a step relation *)

Lemma rtc_invariant {A} (R : relation A) (P : A -> Prop) :
  (forall x y, P x -> R x y -> P y) -> forall x y, rtc R x y -> P x -> P y.
Proof. intros HP x y Hr. induction Hr as [|x y z Hxy _ IH]; eauto. Qed.

(** ** Membership through pointwise-related lists *)
Section forall2.
Context {A B : Type} (R : A -> B -> Prop).

Lemma Forall2_elem_l l k x : Forall2 R l k -> x ∈ l -> exists y, y ∈ k /\ R x y.
Proof.
  induction 1 as [|a b l k Hab _ IH]; rewrite ?elem_of_nil, ?elem_of_cons; [done|].
  intros [-> | (y & ? & ?)%IH]; [exists b | exists y]; rewrite elem_of_cons; auto.
Qed.

Lemma Forall2_elem_r l k y : Forall2 R l k -> y ∈ k -> exists x, x ∈ l /\ R x y.
Proof.
  induction 1 as [|a b l k Hab _ IH]; rewrite ?elem_of_nil, ?elem_of_cons; [done|].
  intros [-> | (x & ? & ?)%IH]; [exists a | exists x]; rewrite elem_of_cons; auto.
Qed.
End forall2.

Lemma existsb_elem {A} (f : A -> bool) l : existsb f l = true <-> exists x, x ∈ l /\ f x = true.
Proof. rewrite existsb_exists. by setoid_rewrite list_elem_of_In. Qed.
