(* ===== verification/GoUtf8.v ===== *)
(** * Bytes, runes and UTF-8

    What the sources use of Go's [unicode/utf8], [unicode] and the rune loops
    of [strings].  A Go string is a byte sequence; it is modelled by Rocq's
    [string] (a list of 8-bit characters) and, where the code works on
    [[]byte], by a [list Z] of byte values. *)
From stdpp Require Import base gmap strings list option.
From Stdlib Require Import ZArith Lia Ascii.
From S2P Require Import Prelude.
Open Scope Z_scope.

(** ** Bytes of a string *)

Definition byte_of_ascii (c : ascii) : Z := Z.of_N (N_of_ascii c).
Definition ascii_of_byte (b : Z) : ascii := ascii_of_N (Z.to_N b).

Fixpoint bytes_of_string (s : string) : list Z :=
  match s with
  | EmptyString => []
  | String c s' => byte_of_ascii c :: bytes_of_string s'
  end.

Fixpoint string_of_bytes (b : list Z) : string :=
  match b with
  | [] => EmptyString
  | x :: b' => String (ascii_of_byte x) (string_of_bytes b')
  end.

Definition is_byte (b : Z) : Prop := 0 <= b < 256.

Lemma byte_of_ascii_range c : is_byte (byte_of_ascii c).
Proof. unfold is_byte, byte_of_ascii. pose proof (N_ascii_bounded c). lia. Qed.

Lemma ascii_of_byte_of_ascii c : ascii_of_byte (byte_of_ascii c) = c.
Proof. unfold ascii_of_byte, byte_of_ascii. by rewrite N2Z.id, ascii_N_embedding. Qed.

Lemma byte_of_ascii_of_byte b : is_byte b -> byte_of_ascii (ascii_of_byte b) = b.
Proof.
  unfold is_byte, byte_of_ascii, ascii_of_byte. intros Hb.
  rewrite N_ascii_embedding by lia. lia.
Qed.

Lemma string_of_bytes_of_string s : string_of_bytes (bytes_of_string s) = s.
Proof. induction s; simpl; [done|]. by rewrite ascii_of_byte_of_ascii, IHs. Qed.

Lemma bytes_of_string_of_bytes b :
  Forall is_byte b -> bytes_of_string (string_of_bytes b) = b.
Proof. induction 1; simpl; [done|]. by rewrite byte_of_ascii_of_byte, IHForall. Qed.

Lemma bytes_of_string_range s : Forall is_byte (bytes_of_string s).
Proof. induction s; simpl; constructor; auto using byte_of_ascii_range. Qed.

Lemma bytes_of_string_app s t :
  bytes_of_string (s +:+ t) = bytes_of_string s ++ bytes_of_string t.
Proof. induction s; simpl; by f_equal. Qed.

Lemma length_bytes_of_string s : length (bytes_of_string s) = String.length s.
Proof. induction s; simpl; by f_equal. Qed.

#[global] Instance bytes_of_string_inj : Inj (=) (=) bytes_of_string.
Proof.
  intros s t H. rewrite <- (string_of_bytes_of_string s), H.
  apply string_of_bytes_of_string.
Qed.

(** ** unicode/utf8 *)

Definition RuneError : Z := 0xFFFD.
Definition RuneSelf : Z := 0x80.
Definition MaxRune : Z := 0x10FFFF.
Definition UTFMax : nat := 4.

Definition in_range (lo hi b : Z) : bool := (lo <=? b) && (b <=? hi).
Definition is_cont (b : Z) : bool := in_range 0x80 0xBF b.

(** The number of bytes a leading byte announces and the range its second
    byte must lie in: Go's [first] and [acceptRanges] tables.  [None] marks a
    byte that cannot start a sequence. *)
Definition utf8_lead (b : Z) : option (nat * Z * Z) :=
  if b <? 0x80 then Some (1%nat, 0x80, 0xBF)
  else if in_range 0xC2 0xDF b then Some (2%nat, 0x80, 0xBF)
  else if b =? 0xE0 then Some (3%nat, 0xA0, 0xBF)
  else if in_range 0xE1 0xEC b then Some (3%nat, 0x80, 0xBF)
  else if b =? 0xED then Some (3%nat, 0x80, 0x9F)
  else if in_range 0xEE 0xEF b then Some (3%nat, 0x80, 0xBF)
  else if b =? 0xF0 then Some (4%nat, 0x90, 0xBF)
  else if in_range 0xF1 0xF3 b then Some (4%nat, 0x80, 0xBF)
  else if b =? 0xF4 then Some (4%nat, 0x80, 0x8F)
  else None.

(** [utf8.DecodeRune]: the first rune and its width; [(RuneError, 0)] on an
    empty input and [(RuneError, 1)] on an invalid encoding. *)
Definition DecodeRune (p : list Z) : Z * nat :=
  match p with
  | [] => (RuneError, 0%nat)
  | b0 :: p1 =>
    match utf8_lead b0 with
    | None => (RuneError, 1%nat)
    | Some (n, lo, hi) =>
      match n, p1 with
      | 1%nat, _ => (b0, 1%nat)
      | 2%nat, b1 :: _ =>
        if in_range lo hi b1
        then (Z.lor (Z.shiftl (Z.land b0 0x1F) 6) (Z.land b1 0x3F), 2%nat)
        else (RuneError, 1%nat)
      | 3%nat, b1 :: b2 :: _ =>
        if in_range lo hi b1 && is_cont b2
        then (Z.lor (Z.shiftl (Z.land b0 0x0F) 12)
                (Z.lor (Z.shiftl (Z.land b1 0x3F) 6) (Z.land b2 0x3F)), 3%nat)
        else (RuneError, 1%nat)
      | 4%nat, b1 :: b2 :: b3 :: _ =>
        if in_range lo hi b1 && is_cont b2 && is_cont b3
        then (Z.lor (Z.shiftl (Z.land b0 0x07) 18)
                (Z.lor (Z.shiftl (Z.land b1 0x3F) 12)
                  (Z.lor (Z.shiftl (Z.land b2 0x3F) 6) (Z.land b3 0x3F))), 4%nat)
        else (RuneError, 1%nat)
      | _, _ => (RuneError, 1%nat)
      end
    end
  end.

(** [utf8.FullRune]: whether the bytes begin with a full encoding of a rune;
    an invalid encoding counts as full. *)
Definition FullRune (p : list Z) : bool :=
  match p with
  | [] => false
  | b0 :: p1 =>
    match utf8_lead b0 with
    | None => true
    | Some (n, lo, hi) =>
      if (n <=? length p)%nat then true
      else match p1 with
           | [] => false
           | b1 :: p2 =>
             if negb (in_range lo hi b1) then true
             else match p2 with
                  | [] => false
                  | b2 :: _ => negb (is_cont b2)
                  end
           end
    end
  end.

(** [utf8.AppendRune(nil, r)]: surrogates and values out of range are written
    as [RuneError]. *)
Definition EncodeRune (r : Z) : list Z :=
  let cont s := Z.lor 0x80 (Z.land (Z.shiftr r s) 0x3F) in
  if (0 <=? r) && (r <=? 0x7F) then [r]
  else if (0 <=? r) && (r <=? 0x7FF) then [Z.lor 0xC0 (Z.shiftr r 6); cont 0]
  else if (r <? 0) || (MaxRune <? r) || in_range 0xD800 0xDFFF r then [0xEF; 0xBF; 0xBD]
  else if r <=? 0xFFFF then [Z.lor 0xE0 (Z.shiftr r 12); cont 6; cont 0]
  else [Z.lor 0xF0 (Z.shiftr r 18); cont 12; cont 6; cont 0].

(** The runes of a byte string, as [for _, r := range s] yields them: an
    invalid byte yields [RuneError] and is passed over alone.  [skip] counts
    the bytes of the current rune still to pass. *)
Fixpoint runes_skip (skip : nat) (b : list Z) : list Z :=
  match b with
  | [] => []
  | _ :: b' =>
    match skip with
    | S k => runes_skip k b'
    | O => let '(r, w) := DecodeRune b in r :: runes_skip (w - 1) b'
    end
  end.
Definition runes (b : list Z) : list Z := runes_skip 0 b.
Definition encode_runes (l : list Z) : list Z := concat (map EncodeRune l).

(** [utf8.Valid]. *)
Fixpoint valid_utf8 (skip : nat) (b : list Z) : bool :=
  match b with
  | [] => true
  | _ :: b' =>
    match skip with
    | S k => valid_utf8 k b'
    | O => let '(r, w) := DecodeRune b in
           negb ((r =? RuneError) && (w <=? 1)%nat) && valid_utf8 (w - 1) b'
    end
  end.
Definition utf8_Valid (b : list Z) : bool := valid_utf8 0 b.

(** ** unicode

    The tables of package [unicode] for code points outside ASCII are data the
    model does not reproduce: they are a parameter.  On ASCII the functions
    below are exact. *)
Class UnicodeTables := {
  uni_lower : Z -> Z;
  uni_upper : Z -> Z;
  uni_letter : Z -> bool;
  uni_digit : Z -> bool;
  uni_format : Z -> bool;     (* category Cf *)
  uni_print : Z -> bool;      (* unicode.IsPrint outside ASCII *)
  uni_fold_eq : Z -> Z -> bool; (* same SimpleFold orbit, not both ASCII *)
}.

(** The tables restricted to ASCII, for evaluating the model on examples. *)
Definition ascii_tables : UnicodeTables := {|
  uni_lower r := r; uni_upper r := r; uni_letter _ := false; uni_digit _ := false; uni_print _ := false;
  uni_format r := (r =? 0xAD) || in_range 0x200B 0x200F r || (r =? 0xFEFF);
  uni_fold_eq a b := a =? b
|}.

Definition is_upper_ascii (r : Z) : bool := in_range 65 90 r.
Definition is_lower_ascii (r : Z) : bool := in_range 97 122 r.
Definition is_digit_ascii (r : Z) : bool := in_range 48 57 r.

Section unicode.
Context `{UnicodeTables}.

(** [unicode.ToLower], [unicode.ToUpper], [unicode.IsLetter], [unicode.IsDigit]. *)
Definition unicode_ToLower (r : Z) : Z :=
  if r <? RuneSelf then (if is_upper_ascii r then r + 32 else r) else uni_lower r.
Definition unicode_ToUpper (r : Z) : Z :=
  if r <? RuneSelf then (if is_lower_ascii r then r - 32 else r) else uni_upper r.
Definition unicode_IsLetter (r : Z) : bool :=
  if r <? RuneSelf then is_upper_ascii r || is_lower_ascii r else uni_letter r.
Definition unicode_IsDigit (r : Z) : bool :=
  if r <? RuneSelf then is_digit_ascii r else uni_digit r.

(** The comparison of two runes in [strings.EqualFold]. *)
Definition rune_fold_eq (a b : Z) : bool :=
  (a =? b) ||
  (if (a <? RuneSelf) && (b <? RuneSelf)
   then unicode_ToLower a =? unicode_ToLower b
   else uni_fold_eq a b).
End unicode.

(** [unicode.IsSpace]. *)
Definition unicode_IsSpace (r : Z) : bool :=
  in_range 9 13 r || (r =? 32) || (r =? 0x85) || (r =? 0xA0) || (r =? 0x1680)
  || in_range 0x2000 0x200A r || (r =? 0x2028) || (r =? 0x2029) || (r =? 0x202F)
  || (r =? 0x205F) || (r =? 0x3000).

(** ** Facts *)

Lemma DecodeRune_ascii b0 p : 0 <= b0 < 0x80 -> DecodeRune (b0 :: p) = (b0, 1%nat).
Proof. intros Hb. simpl. unfold utf8_lead. by rewrite (proj2 (Z.ltb_lt _ _)) by lia. Qed.

Lemma utf8_lead_width b n lo hi : utf8_lead b = Some (n, lo, hi) -> (1 <= n <= 4)%nat.
Proof. unfold utf8_lead. split_code; lia. Qed.

Lemma DecodeRune_width b0 p :
  let w := snd (DecodeRune (b0 :: p)) in
  (1 <= w <= 4)%nat /\ (w <= length (b0 :: p))%nat.
Proof. simpl. split_code; simpl; lia. Qed.

Lemma runes_ascii_cons b0 p : 0 <= b0 < 0x80 -> runes (b0 :: p) = b0 :: runes p.
Proof. intros Hb. unfold runes. cbn [runes_skip]. by rewrite DecodeRune_ascii. Qed.

Lemma runes_ascii p : Forall (fun b => 0 <= b < 0x80) p -> runes p = p.
Proof. induction 1; [done|]. rewrite runes_ascii_cons by done. by f_equal. Qed.

Lemma EncodeRune_ascii r : 0 <= r < 0x80 -> EncodeRune r = [r].
Proof.
  intros Hr. unfold EncodeRune.
  by rewrite (proj2 (Z.leb_le 0 r)), (proj2 (Z.leb_le r 0x7F)) by lia.
Qed.

Lemma EncodeRune_nonempty r : EncodeRune r <> [].
Proof. unfold EncodeRune. split_code; done. Qed.
