(* ===== verification/GoStrings.v ===== *)
(** * Go's [strings], [bytes] and [path] packages

    The functions of the standard library the modelled sources call, on the
    byte strings of [GoUtf8]. *)
From stdpp Require Import base gmap strings list option.
From Stdlib Require Import ZArith Lia Ascii.
From S2P Require Import Prelude GoUtf8.

Local Open Scope string_scope.
Local Open Scope list_scope.
Local Open Scope nat_scope.

(** ** Slices *)

Fixpoint sdrop (n : nat) (s : string) : string :=
  match n, s with
  | O, _ => s
  | S _, EmptyString => EmptyString
  | S n', String _ s' => sdrop n' s'
  end.

Fixpoint stake (n : nat) (s : string) : string :=
  match n, s with
  | O, _ | S _, EmptyString => EmptyString
  | S n', String c s' => String c (stake n' s')
  end.

(** [s[i]] where the code has established [i < len(s)]. *)
Definition sbyte (i : nat) (s : string) : option ascii := String.get i s.

Definition str_eqb (a b : string) : bool := bool_decide (a = b).
Definition is_empty (s : string) : bool := str_eqb s "".

(** ** Prefixes, suffixes and substrings *)

Definition HasPrefix (s p : string) : bool := String.prefix p s.
Definition HasSuffix (s t : string) : bool :=
  (String.length t <=? String.length s)
  && str_eqb (sdrop (String.length s - String.length t) s) t.
Definition CutPrefix (s p : string) : option string :=
  if HasPrefix s p then Some (sdrop (String.length p) s) else None.
Definition TrimSuffix (s t : string) : string :=
  if HasSuffix s t then stake (String.length s - String.length t) s else s.

(** [strings.Index]; [None] is Go's -1. *)
Fixpoint Index (s sub : string) : option nat :=
  if String.prefix sub s then Some 0
  else match s with
       | EmptyString => None
       | String _ s' => S <$> Index s' sub
       end.
Definition Contains (s sub : string) : bool := bool_decide (is_Some (Index s sub)).

Fixpoint IndexByte (s : string) (c : ascii) : option nat :=
  match s with
  | EmptyString => None
  | String c' s' => if bool_decide (c' = c) then Some 0 else S <$> IndexByte s' c
  end.

Fixpoint LastIndexByte (s : string) (c : ascii) : option nat :=
  match s with
  | EmptyString => None
  | String c' s' =>
    match LastIndexByte s' c with
    | Some i => Some (S i)
    | None => if bool_decide (c' = c) then Some 0 else None
    end
  end.

(** [strings.Cut]. *)
Definition Cut (s sep : string) : option (string * string) :=
  match Index s sep with
  | Some i => Some (stake i s, sdrop (i + String.length sep) s)
  | None => None
  end.

Fixpoint string_in (c : ascii) (s : string) : bool :=
  match s with
  | EmptyString => false
  | String c' s' => bool_decide (c = c') || string_in c s'
  end.

(** [strings.ContainsAny] for an ASCII set of characters. *)
Fixpoint ContainsAny (s chars : string) : bool :=
  match s with
  | EmptyString => false
  | String c s' => string_in c chars || ContainsAny s' chars
  end.

(** [strings.Trim] for an ASCII cutset. *)
Fixpoint TrimLeft (s cutset : string) : string :=
  match s with
  | EmptyString => EmptyString
  | String c s' => if string_in c cutset then TrimLeft s' cutset else s
  end.
Fixpoint TrimRight (s cutset : string) : string :=
  match s with
  | EmptyString => EmptyString
  | String c s' =>
    match TrimRight s' cutset with
    | EmptyString => if string_in c cutset then EmptyString else String c EmptyString
    | t => String c t
    end
  end.
Definition Trim (s cutset : string) : string := TrimRight (TrimLeft s cutset) cutset.

(** [strings.Split] on a one-byte separator: always at least one part. *)
Fixpoint Split (s : string) (sep : ascii) : list string :=
  match s with
  | EmptyString => [""]
  | String c s' =>
    if bool_decide (c = sep) then "" :: Split s' sep
    else match Split s' sep with
         | [] => [String c ""]
         | p :: ps => String c p :: ps
         end
  end.

Fixpoint Join (l : list string) (sep : string) : string :=
  match l with
  | [] => ""
  | [x] => x
  | x :: l' => x +:+ sep +:+ Join l' sep
  end.

(** [strings.ReplaceAll] with a non-empty [old]: the leftmost occurrence is
    replaced and the scan goes on after it. [skip] counts the bytes of the
    current occurrence still to pass. *)
Fixpoint replace_skip (old new : string) (skip : nat) (s : string) : string :=
  match s with
  | EmptyString => EmptyString
  | String c s' =>
    match skip with
    | S k => replace_skip old new k s'
    | O => if String.prefix old s
           then new +:+ replace_skip old new (String.length old - 1) s'
           else String c (replace_skip old new 0 s')
    end
  end.

(** With an empty [old], Go writes [new] before every UTF-8 sequence and at
    the end. *)
Fixpoint interleave_skip (new : string) (skip : nat) (s : string) : string :=
  match s with
  | EmptyString => EmptyString
  | String c s' =>
    match skip with
    | S k => String c (interleave_skip new k s')
    | O => new +:+ String c (interleave_skip new (snd (DecodeRune (bytes_of_string s)) - 1) s')
    end
  end.
Definition ReplaceAll (s old new : string) : string :=
  if is_empty old then interleave_skip new 0 s +:+ new
  else replace_skip old new 0 s.

(** ** Case *)

Definition is_ascii_string (s : string) : bool :=
  forallb (fun b => (b <? RuneSelf)%Z) (bytes_of_string s).

Section case.
Context `{UnicodeTables}.

Definition map_string (f : Z -> Z) (s : string) : string :=
  string_of_bytes (encode_runes (map f (runes (bytes_of_string s)))).

Definition ToLower (s : string) : string := map_string unicode_ToLower s.
Definition ToUpper (s : string) : string := map_string unicode_ToUpper s.

Fixpoint runes_fold_eq (a b : list Z) : bool :=
  match a, b with
  | [], [] => true
  | x :: a', y :: b' => rune_fold_eq x y && runes_fold_eq a' b'
  | _, _ => false
  end.
Definition EqualFold (s t : string) : bool :=
  runes_fold_eq (runes (bytes_of_string s)) (runes (bytes_of_string t)).
End case.

(** ** [strconv.Quote] *)

Definition hex_digits (n : nat) (r : Z) : list Z :=
  map (fun i => let d := Z.land (Z.shiftr r (4 * Z.of_nat i)) 15 in if (d <? 10)%Z then (48 + d)%Z else (87 + d)%Z)
      (List.rev (seq 0 n)).
Section quote.
Context `{UnicodeTables}.
Definition quote_rune (r : Z) : list Z :=
  if ((r =? 34) || (r =? 92))%Z then [92; r]%Z
  else if ((32 <=? r) && (r <? 127))%Z || ((RuneSelf <=? r)%Z && uni_print r) then EncodeRune r
  else if (r =? 7)%Z then [92; 97]%Z else if (r =? 8)%Z then [92; 98]%Z
  else if (r =? 12)%Z then [92; 102]%Z else if (r =? 10)%Z then [92; 110]%Z
  else if (r =? 13)%Z then [92; 114]%Z else if (r =? 9)%Z then [92; 116]%Z
  else if (r =? 11)%Z then [92; 118]%Z
  else if ((r <? 32) || (r =? 127))%Z then [92; 120]%Z ++ hex_digits 2 r
  else if (r <? 0x10000)%Z then [92; 117]%Z ++ hex_digits 4 r
  else [92; 85]%Z ++ hex_digits 8 r.
Fixpoint quote_skip (skip : nat) (b : list Z) : list Z :=
  match b with
  | [] => []
  | c :: b' =>
    match skip with
    | S k => quote_skip k b'
    | O => let '(r, w) := DecodeRune b in
           (if (r =? RuneError)%Z && (w =? 1) then [92; 120]%Z ++ hex_digits 2 c else quote_rune r)
           ++ quote_skip (w - 1) b'
    end
  end.
Definition strconv_Quote (s : string) : string :=
  string_of_bytes ([34]%Z ++ quote_skip 0 (bytes_of_string s) ++ [34]%Z).
End quote.

(** ** TrimSpace *)

Fixpoint trim_left_space (skip : nat) (b : list Z) : list Z :=
  match b with
  | [] => []
  | _ :: b' =>
    match skip with
    | S k => trim_left_space k b'
    | O => let '(r, w) := DecodeRune b in
           if unicode_IsSpace r then trim_left_space (w - 1) b' else b
    end
  end.

(** The longest prefix that ends in a rune that is not a space: [end] is the
    length kept so far, [pos] the bytes read. *)
Fixpoint kept_length (skip pos end_ : nat) (b : list Z) : nat :=
  match b with
  | [] => end_
  | _ :: b' =>
    match skip with
    | S k => kept_length k (S pos) end_ b'
    | O => let '(r, w) := DecodeRune b in
           kept_length (w - 1) (S pos) (if unicode_IsSpace r then end_ else pos + w) b'
    end
  end.
Definition trim_right_space (b : list Z) : list Z := take (kept_length 0 0 0 b) b.

(** [bytes.TrimSpace] and [strings.TrimSpace]. *)
Definition bytes_TrimSpace (b : list Z) : list Z := trim_right_space (trim_left_space 0 b).
Definition TrimSpace (s : string) : string :=
  string_of_bytes (bytes_TrimSpace (bytes_of_string s)).

(** ** path.Clean

    The result of [path.Clean], by its documented rules: repeated slashes are
    one slash, [.] elements go, an inner [..] goes with the element before it,
    and a [..] at the start of a rooted path goes.  [out] is the stack of
    elements kept, the last one first. *)
Fixpoint clean_elems (rooted : bool) (out elems : list string) : list string :=
  match elems with
  | [] => rev out
  | e :: es =>
    if is_empty e || str_eqb e "." then clean_elems rooted out es
    else if str_eqb e ".." then
      match out with
      | [] => if rooted then clean_elems rooted [] es else clean_elems rooted [".."] es
      | o :: out' =>
        if str_eqb o ".." then clean_elems rooted (".." :: out) es
        else clean_elems rooted out' es
      end
    else clean_elems rooted (e :: out) es
  end.

Definition path_Clean (p : string) : string :=
  if is_empty p then "."
  else
    let rooted := HasPrefix p "/" in
    let body := Join (clean_elems rooted [] (Split p "/")) "/" in
    if rooted then "/" +:+ body
    else if is_empty body then "." else body.

(** ** Facts: appending and slicing *)

Lemma str_eqb_eq a b : str_eqb a b = true <-> a = b.
Proof. unfold str_eqb. apply bool_decide_eq_true. Qed.
Lemma str_eqb_neq a b : str_eqb a b = false <-> a <> b.
Proof. unfold str_eqb. apply bool_decide_eq_false. Qed.
Lemma str_eqb_refl a : str_eqb a a = true.
Proof. by apply str_eqb_eq. Qed.
Lemma is_empty_true s : is_empty s = true <-> s = "".
Proof. apply str_eqb_eq. Qed.
Lemma is_empty_false s : is_empty s = false <-> s <> "".
Proof. apply str_eqb_neq. Qed.

Lemma app_empty_r s : s +:+ "" = s.
Proof. induction s; simpl; congruence. Qed.
Lemma app_assoc_str a b c : a +:+ (b +:+ c) = (a +:+ b) +:+ c.
Proof. induction a; simpl; congruence. Qed.
Lemma length_app_str a b : String.length (a +:+ b) = String.length a + String.length b.
Proof. induction a; simpl; congruence. Qed.
Lemma app_inv_tail_str a b c : a +:+ c = b +:+ c -> a = b.
Proof.
  revert b. induction a as [|x a IH]; intros [|y b] E; simpl in *; [done| | |].
  - apply (f_equal String.length) in E. simpl in E. rewrite length_app_str in E. lia.
  - apply (f_equal String.length) in E. simpl in E. rewrite length_app_str in E. lia.
  - injection E as -> E. by rewrite (IH b).
Qed.

Lemma sdrop_app_length a b : sdrop (String.length a) (a +:+ b) = b.
Proof. by induction a. Qed.
Lemma stake_app_length a b : stake (String.length a) (a +:+ b) = a.
Proof. induction a; simpl; [by destruct b | by f_equal]. Qed.
Lemma stake_full s : stake (String.length s) s = s.
Proof. induction s; simpl; congruence. Qed.
Lemma sdrop_full s : sdrop (String.length s) s = "".
Proof. by induction s. Qed.
Lemma stake_sdrop n s : stake n s +:+ sdrop n s = s.
Proof.
  revert s. induction n as [|n IH]; intros s; simpl; [by destruct s|].
  destruct s; simpl; [done|]. by rewrite IH.
Qed.
Lemma length_sdrop n s : String.length (sdrop n s) = String.length s - n.
Proof. revert s. induction n; intros [|c s]; simpl; auto. Qed.
Lemma length_stake_le n s : String.length (stake n s) <= n.
Proof. revert s. induction n as [|n IH]; intros [|c s]; simpl; [lia..|]. specialize (IH s). lia. Qed.
Lemma length_stake_min n s : String.length (stake n s) <= String.length s.
Proof. revert s. induction n as [|n IH]; intros [|c s]; simpl; [lia..|]. specialize (IH s). lia. Qed.
Lemma length_zero s : String.length s = 0 -> s = "".
Proof. by destruct s. Qed.

Lemma HasPrefix_spec s p : HasPrefix s p = true <-> exists t, s = p +:+ t.
Proof.
  unfold HasPrefix. revert s. induction p as [|c p IH]; intros s; simpl.
  - split; [by exists s | by destruct s].
  - destruct s as [|d s]; simpl.
    + split; [done | by intros [t [=]]].
    + destruct (ascii_dec c d) as [->|Hne].
      * rewrite IH. split; intros [t Ht]; exists t; congruence.
      * split; [done | intros [t [=]]; congruence].
Qed.

Lemma HasPrefix_app p t : HasPrefix (p +:+ t) p = true.
Proof. apply HasPrefix_spec. eauto. Qed.

Lemma HasSuffix_spec s t : HasSuffix s t = true <-> exists p, s = p +:+ t.
Proof.
  unfold HasSuffix. rewrite andb_true_iff, Nat.leb_le, str_eqb_eq. split.
  - intros [_ E]. exists (stake (String.length s - String.length t) s).
    by rewrite <- E at 2; rewrite stake_sdrop.
  - intros [p ->]. rewrite length_app_str. split; [lia|].
    replace (_ - _) with (String.length p) by lia. apply sdrop_app_length.
Qed.

Lemma TrimSuffix_spec s t :
  (exists p, s = p +:+ t /\ TrimSuffix s t = p) \/
  (HasSuffix s t = false /\ TrimSuffix s t = s).
Proof.
  unfold TrimSuffix. destruct (HasSuffix s t) eqn:E; [left | by right].
  apply HasSuffix_spec in E as [p ->]. exists p. split; [done|].
  rewrite length_app_str. replace (_ - _) with (String.length p) by lia.
  apply stake_app_length.
Qed.

Lemma string_in_app c a b : string_in c (a +:+ b) = string_in c a || string_in c b.
Proof. induction a; simpl; [done|]. by rewrite IHa, orb_assoc. Qed.
Lemma string_in_sdrop c n s : string_in c s = false -> string_in c (sdrop n s) = false.
Proof. rewrite <- (stake_sdrop n s) at 1. rewrite string_in_app. by intros [_ ?]%orb_false_iff. Qed.
Lemma string_in_stake c n s : string_in c s = false -> string_in c (stake n s) = false.
Proof. rewrite <- (stake_sdrop n s) at 1. rewrite string_in_app. by intros [? _]%orb_false_iff. Qed.

(** ** Facts: Split and Join *)

Lemma Split_cons s c : exists p ps, Split s c = p :: ps.
Proof.
  destruct s; simpl; [eauto|]. case_bool_decide; [eauto|].
  destruct (Split s c); eauto.
Qed.

Lemma Join_cons2 x y l c :
  Join (x :: y :: l) (String c "") = x +:+ String c (Join (y :: l) (String c "")).
Proof. done. Qed.

(** Splitting and joining again gives the string back. *)
Lemma Join_Split s c : Join (Split s c) (String c "") = s.
Proof.
  induction s as [|d s IH]; simpl Split; [done|].
  destruct (Split_cons s c) as (p & ps & E). rewrite E in IH |- *.
  case_bool_decide as Hc.
  - subst d. by rewrite Join_cons2, IH.
  - destruct ps as [|q ps]; [simpl in *; by rewrite IH|].
    rewrite Join_cons2 in IH |- *. exact (f_equal (String d) IH).
Qed.

Lemma Split_no_sep s c : string_in c s = false -> Split s c = [s].
Proof.
  induction s as [|d s IH]; simpl; [done|]. intros H. bool_prop.
  case_bool_decide; [congruence|]. by rewrite IH.
Qed.

Lemma Split_app_sep p s c :
  string_in c p = false -> Split (p +:+ String c s) c = p :: Split s c.
Proof.
  induction p as [|d p IH]; simpl.
  - by rewrite bool_decide_eq_true_2.
  - intros H. bool_prop. case_bool_decide; [congruence|]. by rewrite IH.
Qed.

(** Joining parts that do not hold the separator, then splitting, gives the
    parts back. *)
Lemma Split_Join l c :
  l <> [] -> Forall (fun p => string_in c p = false) l -> Split (Join l (String c "")) c = l.
Proof.
  intros Hne Hall. induction Hall as [|p l Hp Hl IH]; [done|].
  destruct l as [|q l]; [by apply Split_no_sep|].
  rewrite Join_cons2, Split_app_sep by done. f_equal. by apply IH.
Qed.

Lemma Split_parts_no_sep s c : Forall (fun p => string_in c p = false) (Split s c).
Proof.
  induction s as [|d s IH]; simpl; [by repeat constructor|].
  case_bool_decide as Hd; [by constructor|].
  destruct (Split_cons s c) as (p & ps & E). rewrite E in *.
  inversion_clear IH as [|? ? Hp Hps]. constructor; [|done]. simpl.
  rewrite Hp, orb_false_r. apply bool_decide_eq_false. congruence.
Qed.

(** ** Facts: replacement *)

Lemma Contains_spec s sub : Contains s sub = true <-> exists a b, s = a +:+ sub +:+ b.
Proof.
  unfold Contains. rewrite bool_decide_eq_true.
  induction s as [|c s IH].
  - cbn [Index]. destruct (String.prefix sub "") eqn:E.
    + split; [intros _ | intros _; by eexists]. exists "". by apply (HasPrefix_spec "" sub) in E.
    + split; [by intros [??]|]. intros (a & b & Hab).
      destruct a; [|done]. simpl in Hab. rewrite Hab in E.
      by rewrite (HasPrefix_app sub b : String.prefix sub _ = true) in E.
  - cbn [Index]. destruct (String.prefix sub (String c s)) eqn:E.
    + split; [intros _ | intros _; by eexists]. exists "". by apply (HasPrefix_spec (String c s) sub) in E.
    + rewrite fmap_is_Some, IH. split.
      * intros (a & b & ->). by exists (String c a), b.
      * intros ([|d a] & b & Hab); simpl in Hab.
        -- rewrite Hab in E. by rewrite (HasPrefix_app sub b : String.prefix sub _ = true) in E.
        -- injection Hab as -> ->. eauto.
Qed.

Lemma replace_skip_none old new s :
  Index s old = None -> replace_skip old new 0 s = s.
Proof.
  induction s as [|c s IH]; [done|]. cbn [Index]. intros H.
  cbn [replace_skip]. destruct (String.prefix old (String c s)); [done|].
  f_equal. apply IH. by destruct (Index s old).
Qed.

(** A string without the placeholder is left as it is. *)
Lemma ReplaceAll_absent s old new : Contains s old = false -> ReplaceAll s old new = s.
Proof.
  unfold ReplaceAll. intros Hc. destruct (is_empty old) eqn:E.
  - apply is_empty_true in E as ->. apply not_true_iff_false in Hc. destruct Hc.
    apply Contains_spec. by exists "", s.
  - apply replace_skip_none. unfold Contains in Hc. bool_prop.
    by destruct (Index s old); [exfalso; eauto|].
Qed.

Lemma replace_skip_drop old new k s : replace_skip old new k s = replace_skip old new 0 (sdrop k s).
Proof. revert k. induction s as [|c s IH]; intros [|k]; simpl; auto. Qed.

(** The leftmost occurrence is replaced and the scan goes on behind it. *)
Lemma ReplaceAll_first a old new b :
  old <> "" -> Index (a +:+ old +:+ b) old = Some (String.length a) ->
  ReplaceAll (a +:+ old +:+ b) old new = a +:+ new +:+ ReplaceAll b old new.
Proof.
  intros Hne. unfold ReplaceAll. rewrite (proj2 (is_empty_false old) Hne).
  induction a as [|c a IH]; intros Hi.
  - simpl in *. destruct old as [|o old]; [done|]. cbn [String.append].
    cbn [replace_skip]. change (String o (old +:+ b)) with (String o old +:+ b).
    rewrite (HasPrefix_app (String o old) b : String.prefix _ _ = true). f_equal. simpl.
    rewrite replace_skip_drop, Nat.sub_0_r. by rewrite sdrop_app_length.
  - cbn [String.append] in *. cbn [Index] in Hi. cbn [replace_skip].
    destruct (String.prefix old (String c (a +:+ old +:+ b))) eqn:E; [done|].
    f_equal. apply IH. destruct (Index (a +:+ old +:+ b) old); simplify_eq/=. done.
Qed.

(** ** Facts: cleaned paths *)

(** A path element that is neither empty nor a dot element. *)
Definition good_segment (e : string) : Prop :=
  e <> "" /\ e <> "." /\ e <> ".." /\ string_in "/" e = false.

#[global] Instance good_segment_dec e : Decision (good_segment e).
Proof. unfold good_segment. apply _. Defined.

(** Cleaning a rooted path leaves only ordinary elements: no [..] survives. *)
Lemma clean_elems_good out elems :
  Forall good_segment out -> Forall (fun e => string_in "/" e = false) elems ->
  Forall good_segment (clean_elems true out elems).
Proof.
  intros Hout Helems. revert out Hout.
  induction Helems as [|e es He Hes IH]; intros out Hout; simpl; [by apply Forall_rev|].
  destruct (is_empty e || str_eqb e ".") eqn:E1; [by apply IH|]. bool_prop.
  destruct (str_eqb e "..") eqn:E2.
  - destruct out as [|o out]; [by apply IH|]. inversion_clear Hout as [|? ? Ho Hout'].
    destruct (str_eqb o "..") eqn:E3; [|by apply IH].
    apply str_eqb_eq in E3 as ->. by destruct Ho as (? & ? & ? & ?).
  - apply IH. constructor; [|done]. apply is_empty_false in H. apply str_eqb_neq in H0, E2.
    by repeat split.
Qed.

Lemma path_Clean_rooted p :
  HasPrefix p "/" = true ->
  exists es, path_Clean p = "/" +:+ Join es "/" /\ Forall good_segment es.
Proof.
  intros Hp. exists (clean_elems true [] (Split p "/")). split.
  - unfold path_Clean. rewrite Hp.
    destruct (is_empty p) eqn:E; [|done]. apply is_empty_true in E as ->. done.
  - apply clean_elems_good; [constructor | apply Split_parts_no_sep].
Qed.

Lemma Split_rooted_segments bs t :
  Forall good_segment bs ->
  Split ("/" +:+ Join bs "/" +:+ String "/" t) "/" =
    (if bool_decide (bs = []) then [""; ""] else "" :: bs) ++ Split t "/".
Proof.
  intros Hbs. change ("/" +:+ ?x) with ("" +:+ String "/" x). rewrite Split_app_sep by done.
  case_bool_decide as Hnil; [by subst|].
  simpl. f_equal. induction Hbs as [|b bs Hb Hbs IH]; [done|].
  destruct Hb as (_ & _ & _ & Hsep). destruct bs as [|b' bs].
  - simpl. by rewrite Split_app_sep.
  - rewrite Join_cons2. rewrite <- app_assoc_str. cbn [String.append].
    rewrite Split_app_sep by done. simpl. f_equal. by apply IH.
Qed.

Lemma good_segments_no_sep es :
  Forall good_segment es -> Forall (fun p => string_in "/" p = false) es.
Proof. apply Forall_impl. by intros ? (_ & _ & _ & ?). Qed.
