(* ===== verification/GoPath.v ===== *)
(** * Go's [path.Match]

    The matcher of the standard library, chunk by chunk.  Loops that consume
    the pattern are given the pattern's length as fuel; [Match_literal] and
    the fuel lemmas show that it is enough. *)
From stdpp Require Import base gmap strings list option.
From Stdlib Require Import ZArith Lia Ascii.
From S2P Require Import Prelude GoUtf8 GoStrings.

Local Open Scope string_scope.
Local Open Scope nat_scope.

(** The outcome of matching one chunk: a malformed pattern, no match, or a
    match that leaves the rest of the name. *)
Inductive chunk_result :=
  | ChunkBad
  | ChunkFail
  | ChunkOk (rest : string).

Definition decode_string (s : string) : Z * nat := DecodeRune (bytes_of_string s).

(** [getEsc]: one, possibly escaped, character of a class; [None] is
    [ErrBadPattern]. *)
Definition getEsc (chunk : string) : option (Z * string) :=
  match chunk with
  | EmptyString => None
  | String c rest =>
    if bool_decide (c = "-"%char) || bool_decide (c = "]"%char) then None
    else
      let body := if bool_decide (c = "\"%char) then rest else chunk in
      match body with
      | EmptyString => None
      | _ =>
        let '(r, n) := decode_string body in
        let nchunk := sdrop n body in
        if ((r =? RuneError)%Z && (n =? 1)) || is_empty nchunk then None
        else Some (r, nchunk)
      end
  end.

(** The ranges of a character class up to its closing bracket. *)
Fixpoint match_class (fuel : nat) (r : Z) (chunk : string) (matched : bool) (nrange : nat)
    : option (bool * string) :=
  match fuel with
  | O => None
  | S fuel' =>
    if HasPrefix chunk "]" && (0 <? nrange) then Some (matched, sdrop 1 chunk)
    else
      match getEsc chunk with
      | None => None
      | Some (lo, chunk1) =>
        let range :=
          if HasPrefix chunk1 "-" then getEsc (sdrop 1 chunk1) else Some (lo, chunk1) in
        match range with
        | None => None
        | Some (hi, chunk2) =>
          match_class fuel' r chunk2 (matched || ((lo <=? r) && (r <=? hi))%Z) (S nrange)
        end
      end
  end.

(** [matchChunk].  After a failure the rest of the chunk is still checked to
    be well formed, without reading the name. *)
Fixpoint matchChunk (fuel : nat) (chunk s : string) (failed : bool) : chunk_result :=
  match fuel, chunk with
  | _, EmptyString => if failed then ChunkFail else ChunkOk s
  | O, _ => ChunkBad
  | S fuel', String c chunk1 =>
    let failed := failed || is_empty s in
    if bool_decide (c = "["%char) then
      let '(r, n) := if failed then (0%Z, 0) else decode_string s in
      let s1 := if failed then s else sdrop n s in
      let negated := HasPrefix chunk1 "^" in
      let chunk2 := if negated then sdrop 1 chunk1 else chunk1 in
      match match_class fuel r chunk2 false 0 with
      | None => ChunkBad
      | Some (matched, chunk3) => matchChunk fuel' chunk3 s1 (failed || Bool.eqb matched negated)
      end
    else if bool_decide (c = "?"%char) then
      let failed1 := failed || HasPrefix s "/" in
      let s1 := if failed then s else sdrop (snd (decode_string s)) s in
      matchChunk fuel' chunk1 s1 failed1
    else
      let lit := if bool_decide (c = "\"%char) then chunk1 else chunk in
      match lit with
      | EmptyString => ChunkBad
      | String l chunk2 =>
        if failed then matchChunk fuel' chunk2 s true
        else match s with
             | EmptyString => matchChunk fuel' chunk2 s true
             | String x s1 => matchChunk fuel' chunk2 s1 (negb (bool_decide (l = x)))
             end
      end
  end.
Definition match_chunk (chunk s : string) : chunk_result :=
  matchChunk (S (String.length chunk)) chunk s false.

Fixpoint skip_stars (p : string) : bool * string :=
  match p with
  | String c p' => if bool_decide (c = "*"%char) then (true, snd (skip_stars p')) else (false, p)
  | EmptyString => (false, p)
  end.

(** The length of the chunk up to the next unbracketed star. *)
Fixpoint chunk_length (inrange : bool) (p : string) : nat :=
  match p with
  | EmptyString => 0
  | String c p' =>
    if bool_decide (c = "\"%char) then
      match p' with
      | EmptyString => 1
      | String _ p'' => S (S (chunk_length inrange p''))
      end
    else if bool_decide (c = "["%char) then S (chunk_length true p')
    else if bool_decide (c = "]"%char) then S (chunk_length false p')
    else if bool_decide (c = "*"%char) && negb inrange then 0
    else S (chunk_length inrange p')
  end.

(** [scanChunk]: leading stars, the chunk after them, the rest. *)
Definition scanChunk (pattern : string) : bool * string * string :=
  let '(star, p) := skip_stars pattern in
  let i := chunk_length false p in
  (star, stake i p, sdrop i p).

(** The search after a star: the chunk is tried after each skipped byte; a
    slash cannot be skipped.  [inl] is a decided result. *)
Fixpoint star_search (chunk : string) (last : bool) (name : string) : option (option string) :=
  match name with
  | EmptyString => Some None
  | String c name' =>
    if bool_decide (c = "/"%char) then Some None
    else match match_chunk chunk name' with
         | ChunkBad => None
         | ChunkOk t => if last && negb (is_empty t) then star_search chunk last name' else Some (Some t)
         | ChunkFail => star_search chunk last name'
         end
  end.

(** [path.Match]; a malformed pattern ([ErrBadPattern]) is [None].  Callers
    ignore the error, so the check of the remaining pattern that Go makes
    before answering [false] changes nothing they can see. *)
Fixpoint match_pattern (fuel : nat) (pattern name : string) : option bool :=
  match fuel with
  | O => None
  | S fuel' =>
    if is_empty pattern then Some (is_empty name)
    else
      let '(star, chunk, rest) := scanChunk pattern in
      if star && is_empty chunk then Some (negb (string_in "/"%char name))
      else
        let try_star :=
          if star then
            match star_search chunk (is_empty rest) name with
            | None => None
            | Some (Some t) => match_pattern fuel' rest t
            | Some None => Some false
            end
          else Some false in
        match match_chunk chunk name with
        | ChunkBad => None
        | ChunkOk t => if is_empty t || negb (is_empty rest)
                       then match_pattern fuel' rest t else try_star
        | ChunkFail => try_star
        end
  end.

(** [matched, _ := path.Match(pattern, name)]. *)
Definition path_Match (pattern name : string) : bool :=
  default false (match_pattern (S (String.length pattern)) pattern name).

Example path_Match_star : path_Match "/v1/*/x" "/v1/abc/x" = true.
Proof. reflexivity. Qed.
Example path_Match_star_slash : path_Match "/v1/*/x" "/v1/a/b/x" = false.
Proof. reflexivity. Qed.
Example path_Match_class : path_Match "h[a-c]st" "hbst" = true /\ path_Match "h[^a-c]st" "hbst" = false.
Proof. split; reflexivity. Qed.

(** ** Literal patterns *)

Definition is_meta (c : ascii) : bool :=
  bool_decide (c = "*"%char) || bool_decide (c = "?"%char)
  || bool_decide (c = "["%char) || bool_decide (c = "\"%char).
Fixpoint no_meta (p : string) : bool :=
  match p with
  | EmptyString => true
  | String c p' => negb (is_meta c) && no_meta p'
  end.

Lemma no_meta_scan p : no_meta p = true -> p <> "" -> scanChunk p = (false, p, "").
Proof.
  intros Hp Hne. unfold scanChunk.
  assert (chunk_length false p = String.length p) as Hl.
  { clear Hne. induction p as [|c p IH]; simpl in *; [done|]. unfold is_meta in Hp.
    bool_prop. repeat case_bool_decide; try congruence; simpl; by rewrite IH. }
  destruct p as [|c p]; [done|]. cbn [skip_stars]. simpl in Hp. unfold is_meta in Hp.
  bool_prop. case_bool_decide; [congruence|].
  by rewrite Hl, stake_full, sdrop_full.
Qed.

Lemma matchChunk_literal_failed n p s :
  no_meta p = true -> String.length p <= n -> matchChunk n p s true = ChunkFail.
Proof.
  revert n. induction p as [|c p IH]; intros n Hp Hn; [by destruct n|].
  destruct n as [|n]; simpl in Hn; [lia|]. simpl in Hp. unfold is_meta in Hp. bool_prop.
  cbn [matchChunk orb]. repeat case_bool_decide; try congruence.
  apply IH; [done | lia].
Qed.

Lemma matchChunk_literal n p s :
  no_meta p = true -> String.length p <= n ->
  matchChunk n p s false =
    if String.prefix p s then ChunkOk (sdrop (String.length p) s) else ChunkFail.
Proof.
  revert n s. induction p as [|c p IH]; intros n s Hp Hn; [by destruct n, s|].
  destruct n as [|n]; simpl in Hn; [lia|].
  assert (no_meta p = true /\ is_meta c = false) as [Hp' Hc].
  { simpl in Hp. by bool_prop. }
  unfold is_meta in Hc. bool_prop. cbn [matchChunk orb].
  repeat case_bool_decide; try congruence.
  destruct s as [|x s]; simpl.
  - by rewrite matchChunk_literal_failed by (done || lia).
  - destruct (ascii_dec c x) as [->|Hne].
    + rewrite bool_decide_eq_true_2 by done. apply IH; [done | lia].
    + rewrite bool_decide_eq_false_2 by done. by rewrite matchChunk_literal_failed by (done || lia).
Qed.

(** A pattern without metacharacters matches exactly itself. *)
Lemma Match_literal p name : no_meta p = true -> path_Match p name = str_eqb p name.
Proof.
  intros Hp. unfold path_Match. cbn [match_pattern].
  destruct (is_empty p) eqn:E.
  { apply is_empty_true in E as ->. simpl. by destruct name. }
  apply is_empty_false in E as Hne. rewrite no_meta_scan by done. cbn [andb].
  unfold match_chunk. rewrite matchChunk_literal by (done || lia).
  destruct (String.prefix p name) eqn:Hpre; simpl.
  - apply (HasPrefix_spec name p) in Hpre as [t ->]. rewrite sdrop_app_length.
    replace (is_empty "") with true by done. rewrite orb_false_r.
    destruct (is_empty t) eqn:Et.
    + apply is_empty_true in Et as ->. rewrite app_empty_r, str_eqb_refl.
      destruct (String.length p) eqn:Hl; [by apply length_zero in Hl|]. done.
    + simpl. symmetry. apply str_eqb_neq. intros Heq. apply is_empty_false in Et.
      apply Et, length_zero. apply (f_equal String.length) in Heq.
      rewrite length_app_str in Heq. lia.
  - symmetry. apply str_eqb_neq. intros <-.
    rewrite <- (app_empty_r p) in Hpre at 2.
    by rewrite (HasPrefix_app p "" : String.prefix p _ = true) in Hpre.
Qed.

(** ** Patterns that start with a slash *)

Lemma matchChunk_failed fuel chunk s t : matchChunk fuel chunk s true <> ChunkOk t.
Proof.
  revert chunk s. induction fuel as [|fuel IH]; intros [|c chunk] s; cbn [matchChunk]; try done.
  cbn [orb]. repeat case_match; try done; simplify_eq; apply IH.
Qed.

Lemma matchChunk_slash fuel chunk s t :
  matchChunk (S fuel) (String "/" chunk) s false = ChunkOk t -> exists s', s = String "/" s'.
Proof.
  cbn [matchChunk orb]. repeat (rewrite bool_decide_eq_false_2 by done).
  destruct (is_empty s) eqn:E; intros Hm; [by apply matchChunk_failed in Hm|].
  destruct s as [|x s]; [done|]. case_bool_decide; [subst; eauto|].
  by apply matchChunk_failed in Hm.
Qed.

(** A pattern that starts with a slash matches only rooted names. *)
Lemma path_Match_rooted pattern name :
  HasPrefix pattern "/" = true -> path_Match pattern name = true -> HasPrefix name "/" = true.
Proof.
  intros [pt ->]%HasPrefix_spec. change ("/" +:+ pt) with (String "/" pt).
  unfold path_Match. cbn [match_pattern]. replace (is_empty (String "/" pt)) with false by done.
  unfold scanChunk, match_chunk. cbn [skip_stars]. rewrite bool_decide_eq_false_2 by done.
  cbn [chunk_length]. repeat (rewrite bool_decide_eq_false_2 by done). cbn [andb stake].
  destruct (matchChunk _ _ _ _) eqn:E; cbn; try done.
  apply matchChunk_slash in E as [s' ->]. intros _. apply HasPrefix_spec. by exists s'.
Qed.
