(* ===== verification/GoNet.v ===== *)
(** * Go's [net] and [net/netip]

    Host/port splitting, address and prefix parsing and containment, as the
    network policies of iron-proxy use them.  An address is its numeric value
    at its width: 32 bits for IPv4, 128 bits plus a zone for IPv6. *)
From stdpp Require Import base gmap strings list option.
From Stdlib Require Import ZArith Lia Ascii.
From S2P Require Import Prelude GoUtf8 GoStrings.

Local Open Scope string_scope.
Local Open Scope list_scope.
Local Open Scope Z_scope.

(** ** net.SplitHostPort *)

(** [None] is any of the address errors: the sources only test for one. *)
Definition SplitHostPort (hostport : string) : option (string * string) :=
  match LastIndexByte hostport ":"%char with
  | None => None
  | Some i =>
    let port := sdrop (i + 1) hostport in
    if HasPrefix hostport "[" then
      match IndexByte hostport "]"%char with
      | None => None
      | Some e =>
        if ((e + 1 =? i)%nat)
           && negb (string_in "["%char (sdrop 1 hostport))
           && negb (string_in "]"%char (sdrop (e + 1) hostport))
        then Some (stake (e - 1) (sdrop 1 hostport), port)
        else None
      end
    else
      let host := stake i hostport in
      if string_in ":"%char host || string_in "["%char hostport || string_in "]"%char hostport
      then None
      else Some (host, port)
  end.

(** [net.JoinHostPort]. *)
Definition JoinHostPort (host port : string) : string :=
  if string_in ":"%char host then "[" +:+ host +:+ "]:" +:+ port else host +:+ ":" +:+ port.

(** ** Decimal fields *)

Definition digit_of (c : ascii) : option Z :=
  let b := byte_of_ascii c in if is_digit_ascii b then Some (b - 48) else None.

Definition hex_digit_of (c : ascii) : option Z :=
  let b := byte_of_ascii c in
  if is_digit_ascii b then Some (b - 48)
  else if in_range 97 102 b then Some (b - 97 + 10)
  else if in_range 65 70 b then Some (b - 65 + 10)
  else None.

Fixpoint decimal_acc (s : string) (acc : Z) : option Z :=
  match s with
  | EmptyString => Some acc
  | String c s' => match digit_of c with
                   | Some d => decimal_acc s' (acc * 10 + d)
                   | None => None
                   end
  end.

(** A non-empty run of decimal digits. *)
Definition decimal (s : string) : option Z :=
  if is_empty s then None else decimal_acc s 0.

(** [strconv.Atoi] at 64 bits: an optional sign, at least one digit, and a
    value that fits. *)
Definition max_int64 : Z := 2 ^ 63 - 1.
Definition bounded (max : Z) (v : option Z) : option Z :=
  match v with
  | Some n => if n <=? max then Some n else None
  | None => None
  end.
Definition Atoi (s : string) : option Z :=
  if HasPrefix s "-" then Z.opp <$> bounded (max_int64 + 1) (decimal (sdrop 1 s))
  else if HasPrefix s "+" then bounded max_int64 (decimal (sdrop 1 s))
  else bounded max_int64 (decimal s).

(** ** netip.Addr *)

Inductive Addr :=
  | Addr4 (a : Z)
  | Addr6 (a : Z) (zone : string).

#[global] Instance Addr_eq_dec : EqDecision Addr.
Proof. solve_decision. Defined.

Definition addr_wf (a : Addr) : Prop :=
  match a with
  | Addr4 v => 0 <= v < 2 ^ 32
  | Addr6 v _ => 0 <= v < 2 ^ 128
  end.

Definition Is4 (a : Addr) : bool := match a with Addr4 _ => true | _ => false end.
Definition Is6 (a : Addr) : bool := match a with Addr6 _ _ => true | _ => false end.
Definition BitLen (a : Addr) : Z := if Is4 a then 32 else 128.
Definition addr_value (a : Addr) : Z := match a with Addr4 v => v | Addr6 v _ => v end.
Definition Zone (a : Addr) : string := match a with Addr4 _ => "" | Addr6 _ z => z end.

(** [::ffff:a.b.c.d]. *)
Definition Is4In6 (a : Addr) : bool :=
  match a with
  | Addr6 v _ => Z.shiftr v 32 =? 0xFFFF
  | Addr4 _ => false
  end.

(** [Addr.Unmap] and [Addr.WithZone]. *)
Definition Unmap (a : Addr) : Addr :=
  if Is4In6 a then Addr4 (Z.land (addr_value a) (Z.ones 32)) else a.
Definition WithZone (a : Addr) (z : string) : Addr :=
  match a with
  | Addr4 _ => a
  | Addr6 v _ => Addr6 v z
  end.

Definition IsLoopback (a : Addr) : bool :=
  match Unmap a with
  | Addr4 v => Z.shiftr v 24 =? 127
  | Addr6 v _ => v =? 1
  end.

(** *** ParseAddr *)

(** One octet: one to three digits, no leading zero, at most 255. *)
Definition octet (s : string) : option Z :=
  if HasPrefix s "0" && (1 <? String.length s)%nat then None else bounded 255 (decimal s).

(** Dotted decimal: exactly four octets. *)
Definition parseIPv4Fields (s : string) : option Z :=
  match Split s "."%char with
  | [a; b; c; d] =>
    match octet a, octet b, octet c, octet d with
    | Some a, Some b, Some c, Some d => Some (((a * 256 + b) * 256 + c) * 256 + d)
    | _, _, _, _ => None
    end
  | _ => None
  end.

(** The leading hex digits of [s]: their value, their number and the rest. *)
Fixpoint hex_run (s : string) (acc : Z) (n : nat) : Z * nat * string :=
  match s with
  | EmptyString => (acc, n, s)
  | String c s' => match hex_digit_of c with
                   | Some d => hex_run s' (acc * 16 + d) (S n)
                   | None => (acc, n, s)
                   end
  end.

(** The loop of [parseIPv6]: [groups] holds the 16-bit groups read so far, in
    order, and [ellipsis] the number of groups before a [::].  A trailing
    dotted IPv4 address gives two groups.  At most eight groups are read. *)
Fixpoint parse_groups (fuel : nat) (s : string) (groups : list Z) (ellipsis : option nat)
    : option (list Z * option nat * string) :=
  match fuel with
  | O => Some (groups, ellipsis, s)
  | S fuel' =>
    let '(acc, off, rest) := hex_run s 0 0 in
    if (off =? 0)%nat || (4 <? off)%nat then None
    else if HasPrefix rest "." then
      if bool_decide (ellipsis = None) && negb (length groups =? 6)%nat then None
      else if (6 <? length groups)%nat then None
      else match parseIPv4Fields s with
           | Some v => Some (groups ++ [Z.shiftr v 16; Z.land v 0xFFFF], ellipsis, "")
           | None => None
           end
    else
      let groups := groups ++ [acc] in
      match rest with
      | EmptyString => Some (groups, ellipsis, "")
      | String c s1 =>
        if negb (bool_decide (c = ":"%char)) || is_empty s1 then None
        else if HasPrefix s1 ":" then
          if bool_decide (is_Some ellipsis) then None
          else
            let s2 := sdrop 1 s1 in
            if is_empty s2 then Some (groups, Some (length groups), "")
            else parse_groups fuel' s2 groups (Some (length groups))
        else parse_groups fuel' s1 groups ellipsis
      end
  end.

Definition groups_value (groups : list Z) : Z := foldl (fun v g => v * 65536 + g) 0 groups.

Definition parseIPv6 (s : string) : option Addr :=
  let '(body, zone) :=
    match IndexByte s "%"%char with
    | Some i => (stake i s, Some (sdrop (i + 1) s))
    | None => (s, None)
    end in
  if bool_decide (zone = Some "") then None
  else
    let zone := default "" zone in
    let lead := HasPrefix body "::" in
    let start := if lead then sdrop 2 body else body in
    if lead && is_empty start then Some (Addr6 0 zone)
    else
      match parse_groups 8 start [] (if lead then Some 0%nat else None) with
      | Some (groups, ellipsis, rest) =>
        if negb (is_empty rest) then None
        else if (length groups <? 8)%nat then
          match ellipsis with
          | None => None
          | Some e =>
            Some (Addr6 (groups_value
              (take e groups ++ replicate (8 - length groups) 0 ++ drop e groups)) zone)
          end
        else if bool_decide (is_Some ellipsis) then None
        else Some (Addr6 (groups_value groups) zone)
      | None => None
      end.

(** [netip.ParseAddr]: the first of [.], [:] or [%] decides the family. *)
Fixpoint addr_family (s : string) : option ascii :=
  match s with
  | EmptyString => None
  | String c s' => if string_in c ".:%" then Some c else addr_family s'
  end.
Definition ParseAddr (s : string) : option Addr :=
  match addr_family s with
  | Some "."%char => Addr4 <$> parseIPv4Fields s
  | Some ":"%char => parseIPv6 s
  | _ => None
  end.

(** ** netip.Prefix *)

Record Prefix := mkPrefix { pfx_addr : Addr; pfx_bits : Z }.

#[global] Instance Prefix_eq_dec : EqDecision Prefix.
Proof. solve_decision. Defined.

Definition prefix_valid (p : Prefix) : bool :=
  (0 <=? pfx_bits p) && (pfx_bits p <=? BitLen (pfx_addr p)).
(** [netip.PrefixFrom]: the zone is dropped and an out-of-range length makes
    the prefix invalid (length -1). *)
Definition PrefixFrom (ip : Addr) (bits : Z) : Prefix :=
  let ok := (0 <=? bits) && (bits <=? BitLen ip) in
  mkPrefix (WithZone ip "") (if ok then bits else -1).

Definition ParsePrefix (s : string) : option Prefix :=
  match LastIndexByte s "/"%char with
  | None => None
  | Some i =>
    match ParseAddr (stake i s) with
    | None => None
    | Some ip =>
      if negb (is_empty (Zone ip)) then None
      else
        let bitsStr := sdrop (i + 1) s in
        let lead_ok :=
          match bitsStr with
          | String c (String _ _) => in_range 49 57 (byte_of_ascii c)
          | _ => true
          end in
        if negb lead_ok then None
        else match Atoi bitsStr with
             | None => None
             | Some bits =>
               if (bits <? 0) || (BitLen ip <? bits) then None else Some (PrefixFrom ip bits)
             end
    end
  end.

(** [Prefix.Masked]: the host bits cleared. *)
Definition mask_low (width bits v : Z) : Z :=
  Z.shiftl (Z.shiftr v (width - bits)) (width - bits).
Definition Masked (p : Prefix) : Prefix :=
  if prefix_valid p then
    match pfx_addr p with
    | Addr4 v => mkPrefix (Addr4 (mask_low 32 (pfx_bits p) v)) (pfx_bits p)
    | Addr6 v z => mkPrefix (Addr6 (mask_low 128 (pfx_bits p) v) z) (pfx_bits p)
    end
  else mkPrefix (Addr6 0 "") (-1).

(** [Prefix.Contains]: same family, no zone, equal leading bits. *)
Definition prefix_contains (p : Prefix) (ip : Addr) : bool :=
  prefix_valid p && is_empty (Zone ip)
  && match pfx_addr p, ip with
     | Addr4 n, Addr4 v => Z.shiftr (Z.lxor v n) (32 - pfx_bits p) =? 0
     | Addr6 n _, Addr6 v _ => Z.shiftr (Z.lxor v n) (128 - pfx_bits p) =? 0
     | _, _ => false
     end.

(** ** net.IP and net.IPNet

    [net.ParseIP] and [net.ParseCIDR] work on 16-byte values, in which an IPv4
    address and its IPv4-mapped IPv6 form are the same. *)
Definition v4_in_6 : Z := Z.shiftl 0xFFFF 32.
Definition As16 (a : Addr) : Z :=
  match a with Addr4 v => Z.lor v4_in_6 v | Addr6 v _ => v end.

Definition ParseIP (s : string) : option Z :=
  match ParseAddr s with
  | Some a => if is_empty (Zone a) then Some (As16 a) else None
  | None => None
  end.

(** An [IPNet]: its 16-byte or 4-byte network number and its mask length at
    the width the mask was written for. *)
Record IPNet := mkIPNet { net_v4 : bool; net_ip : Z; net_bits : Z }.

#[global] Instance IPNet_eq_dec : EqDecision IPNet.
Proof. solve_decision. Defined.

(** [net.dtoi] stops at the first byte that is not a digit, and the caller
    requires that it read everything; a value of 2^24-1 or more fails. *)
Definition dtoi (s : string) : option Z :=
  match decimal s with
  | Some v => if v <? 0xFFFFFF then Some v else None
  | None => None
  end.

Definition ParseCIDR (s : string) : option IPNet :=
  match Cut s "/" with
  | None => None
  | Some (addr, mask) =>
    match ParseAddr addr, dtoi mask with
    | Some ip, Some n =>
      if negb (is_empty (Zone ip)) || (BitLen ip <? n) then None
      else match ip with
           | Addr4 v => Some (mkIPNet true (mask_low 32 n v) n)
           | Addr6 v _ => Some (mkIPNet false (mask_low 128 n v) n)
           end
    | _, _ => None
    end
  end.

(** [IP.To4] on a 16-byte value. *)
Definition To4 (v : Z) : option Z :=
  if Z.shiftr v 32 =? 0xFFFF then Some (Z.land v (Z.ones 32)) else None.

(** [IPNet.Contains].  A 16-byte network number in the IPv4-mapped range is
    compared as IPv4, with the last 32 bits of its mask. *)
Definition ipnet_contains (n : IPNet) (ip : Z) : bool :=
  let nn := if net_v4 n then Some (net_ip n) else To4 (net_ip n) in
  match nn, To4 ip with
  | Some nip, Some v =>
    let bits := if net_v4 n then net_bits n else Z.max 0 (net_bits n - 96) in
    mask_low 32 bits nip =? mask_low 32 bits v
  | None, None => mask_low 128 (net_bits n) (net_ip n) =? mask_low 128 (net_bits n) ip
  | _, _ => false
  end.

Example ParseAddr_v4 : ParseAddr "169.254.169.254" = Some (Addr4 0xA9FEA9FE).
Proof. reflexivity. Qed.
Example ParseAddr_v6 : ParseAddr "fd00:ec2::254" = Some (Addr6 0xfd000ec2000000000000000000000254 "").
Proof. vm_compute. reflexivity. Qed.
Example ParseAddr_mapped :
  option_map Unmap (ParseAddr "::ffff:127.0.0.1") = ParseAddr "127.0.0.1".
Proof. vm_compute. reflexivity. Qed.
Example ParseAddr_bad : map ParseAddr ["1.2.3"; "1.2.3.04"; ":::"; "1:2:3:4:5:6:7:8:9"; "1::2::3"; "::1%"] = replicate 6 None.
Proof. vm_compute. reflexivity. Qed.
Example ParsePrefix_ok : ParsePrefix "10.0.0.0/8" = Some (mkPrefix (Addr4 0x0A000000) 8).
Proof. vm_compute. reflexivity. Qed.
Example SplitHostPort_ex :
  SplitHostPort "[::1]:443" = Some ("::1", "443") /\ SplitHostPort "h:80" = Some ("h", "80")
  /\ SplitHostPort "::1" = None /\ SplitHostPort "h" = None.
Proof. vm_compute. repeat split. Qed.

(** ** Facts: prefixes *)

Lemma shiftr_lxor_zero a b k :
  Z.shiftr (Z.lxor a b) k = 0 <-> Z.shiftr a k = Z.shiftr b k.
Proof. rewrite Z.shiftr_lxor. apply Z.lxor_eq_0_iff. Qed.

Lemma shiftr_mask_low width bits v :
  bits <= width -> Z.shiftr (mask_low width bits v) (width - bits) = Z.shiftr v (width - bits).
Proof.
  intros Hb. unfold mask_low. rewrite Z.shiftr_shiftl_l by lia.
  rewrite Z.sub_diag. apply Z.shiftl_0_r.
Qed.

(** The leading bits of an address under a prefix length. *)
Definition network_of (bits : Z) (a : Addr) : Z := Z.shiftr (addr_value a) (BitLen a - bits).

(** [Contains] holds exactly when the families agree, the address has no zone
    and the leading bits are those of the prefix. *)
Lemma prefix_contains_spec p ip :
  prefix_contains p ip = true <->
  prefix_valid p = true /\ Zone ip = "" /\ BitLen (pfx_addr p) = BitLen ip /\
  network_of (pfx_bits p) ip = network_of (pfx_bits p) (pfx_addr p).
Proof.
  unfold prefix_contains, network_of. rewrite !andb_true_iff, is_empty_true.
  destruct p as [[n|n zn] bits], ip as [v|v zv]; cbn [pfx_addr pfx_bits addr_value Zone BitLen Is4];
    rewrite ?Z.eqb_eq, ?shiftr_lxor_zero; intuition congruence.
Qed.

Lemma Masked_bits p : prefix_valid p = true -> pfx_bits (Masked p) = pfx_bits p.
Proof. unfold Masked. intros ->. by destruct (pfx_addr p). Qed.

Lemma Masked_family p : prefix_valid p = true -> Is4 (pfx_addr (Masked p)) = Is4 (pfx_addr p).
Proof. unfold Masked. intros ->. by destruct (pfx_addr p). Qed.

Lemma Masked_valid p : prefix_valid p = true -> prefix_valid (Masked p) = true.
Proof.
  intros Hv. unfold prefix_valid, BitLen in *. by rewrite Masked_bits, Masked_family.
Qed.

Lemma network_of_Masked p :
  prefix_valid p = true ->
  network_of (pfx_bits p) (pfx_addr (Masked p)) = network_of (pfx_bits p) (pfx_addr p).
Proof.
  intros Hv. unfold network_of, Masked. rewrite Hv. unfold prefix_valid in Hv. bool_prop.
  destruct p as [[n|n zn] bits]; cbn in *; by apply shiftr_mask_low.
Qed.

(** Clearing the host bits does not change what a prefix contains. *)
Lemma prefix_contains_Masked p ip :
  prefix_valid p = true -> prefix_contains (Masked p) ip = prefix_contains p ip.
Proof.
  intros Hv. apply eq_true_iff_eq. rewrite !prefix_contains_spec, Masked_valid, Hv by done.
  rewrite Masked_bits, network_of_Masked by done.
  assert (BitLen (pfx_addr (Masked p)) = BitLen (pfx_addr p)) as ->; [|done].
  unfold BitLen. by rewrite Masked_family.
Qed.

Lemma PrefixFrom_valid ip bits :
  0 <= bits <= BitLen ip -> prefix_valid (PrefixFrom ip bits) = true.
Proof.
  intros Hb. unfold PrefixFrom, prefix_valid. cbn [pfx_addr pfx_bits].
  assert (BitLen (WithZone ip "") = BitLen ip) as -> by (by destruct ip).
  rewrite (proj2 (Z.leb_le 0 bits)), (proj2 (Z.leb_le bits (BitLen ip))) by lia.
  cbn [andb]. apply andb_true_iff. rewrite !Z.leb_le. lia.
Qed.

Lemma ParsePrefix_valid s p : ParsePrefix s = Some p -> prefix_valid p = true.
Proof.
  unfold ParsePrefix. destruct (LastIndexByte s "/"); [|done].
  destruct (ParseAddr _) as [ip|]; [|done]. destruct (negb (is_empty _)); [done|].
  destruct (negb _); [done|]. destruct (Atoi _) as [bits|]; [|done].
  destruct ((bits <? 0) || (BitLen ip <? bits)) eqn:E; [done|]. intros [= <-]. bool_prop.
  by apply PrefixFrom_valid.
Qed.

(** A prefix that holds every address under a shorter one of the same family
    is nested in it. *)
Lemma prefix_contains_nested p q ip :
  prefix_contains p ip = true -> prefix_valid q = true ->
  pfx_bits q <= pfx_bits p -> prefix_contains q (pfx_addr p) = true ->
  prefix_contains q ip = true.
Proof.
  rewrite !prefix_contains_spec. intros (Hvp & Hz & Hl & Hn) Hvq Hb (_ & _ & Hl2 & Hn2).
  unfold network_of in *. repeat split; [done..| congruence|].
  rewrite Hl2 in Hn2 |- *. rewrite Hl in *. rewrite <- Hn2.
  unfold prefix_valid in *. bool_prop. rewrite Hl in *.
  replace (BitLen ip - pfx_bits q)
    with ((BitLen ip - pfx_bits p) + (pfx_bits p - pfx_bits q)) by lia.
  rewrite <- !Z.shiftr_shiftr by lia. by f_equal.
Qed.

(** ** Facts: host and port *)

Lemma LastIndexByte_None s c : LastIndexByte s c = None <-> string_in c s = false.
Proof.
  induction s as [|d s IH]; simpl; [done|]. destruct (LastIndexByte s c).
  - split; [done|]. intros H. bool_prop. by apply IH in H0.
  - rewrite (proj1 IH) by done. rewrite orb_false_r.
    repeat case_bool_decide; split; congruence.
Qed.

Lemma LastIndexByte_app_sep a b c :
  string_in c b = false -> LastIndexByte (a +:+ String c b) c = Some (String.length a).
Proof.
  intros Hb. induction a as [|d a IH]; simpl.
  - rewrite (proj2 (LastIndexByte_None b c)) by done. by rewrite bool_decide_eq_true_2.
  - by rewrite IH.
Qed.

Definition has_bracket (s : string) : bool := string_in "["%char s || string_in "]"%char s.

Lemma no_bracket_prefix h t : string_in "["%char (h +:+ t) = false -> HasPrefix (h +:+ t) "[" = false.
Proof.
  intros H. apply not_true_iff_false. intros [u E]%HasPrefix_spec. rewrite E in H. done.
Qed.

Lemma SplitHostPort_plain h p :
  string_in ":"%char h = false -> string_in ":"%char p = false ->
  has_bracket h = false -> has_bracket p = false ->
  SplitHostPort (h +:+ ":" +:+ p) = Some (h, p).
Proof.
  unfold has_bracket, SplitHostPort. intros Hh Hp [Hl Hr]%orb_false_iff [Hl' Hr']%orb_false_iff.
  change (":" +:+ p) with (String ":" p).
  rewrite LastIndexByte_app_sep, stake_app_length by done.
  assert (forall c, c <> ":"%char -> string_in c h = false -> string_in c p = false ->
                    string_in c (h +:+ String ":" p) = false) as Hin.
  { intros c Hc H1 H2. rewrite string_in_app. simpl. by rewrite H1, H2, bool_decide_eq_false_2. }
  rewrite no_bracket_prefix by (by apply Hin). rewrite Hh, !Hin by done.
  change (h +:+ String ":" p) with (h +:+ (":" +:+ p)). rewrite app_assoc_str.
  replace (String.length h + 1)%nat with (String.length (h +:+ ":"))
    by (rewrite length_app_str; done).
  by rewrite sdrop_app_length.
Qed.

Lemma SplitHostPort_no_colon h : string_in ":"%char h = false -> SplitHostPort h = None.
Proof. unfold SplitHostPort. intros H. by rewrite (proj2 (LastIndexByte_None h _) H). Qed.

(** ** Printing addresses and prefixes *)

Fixpoint digits_acc (fuel : nat) (base : Z) (hex : bool) (n : Z) (acc : string) : string :=
  let d := n mod base in
  let acc := String (ascii_of_byte (if d <? 10 then 48 + d else 87 + d)) acc in
  match fuel with
  | O => acc
  | S fuel' => if n <? base then acc else digits_acc fuel' base hex (n / base) acc
  end.
(** [strconv.Itoa] and lower-case hexadecimal for a non-negative number; the
    fuel is the number of binary digits. *)
Definition Itoa (n : Z) : string :=
  if n <? 0 then "-" +:+ digits_acc (Z.to_nat (Z.log2_up (- n))) 10 false (- n) ""
  else digits_acc (Z.to_nat (Z.log2_up n)) 10 false n "".
Definition hex_string (n : Z) : string := digits_acc (Z.to_nat (Z.log2_up n)) 16 true n "".

Definition groups_of (v : Z) : list Z :=
  map (fun i => Z.land (Z.shiftr v (16 * (7 - Z.of_nat i))) 0xFFFF) (seq 0 8).

Fixpoint zero_run (g : list Z) : nat :=
  match g with
  | 0 :: g' => S (zero_run g')
  | _ => 0%nat
  end.
(** The first longest run of zero groups: its start and length. *)
Fixpoint longest_zero_run (i : nat) (g : list Z) (best : nat * nat) : nat * nat :=
  match g with
  | [] => best
  | _ :: g' =>
    let n := zero_run g in
    longest_zero_run (S i) g' (if (snd best <? n)%nat then (i, n) else best)
  end.

(** [Addr.String]: dotted decimal, or colon-separated hex with the first
    longest run of two or more zero groups written [::]. *)
Definition Addr_String (a : Addr) : string :=
  match a with
  | Addr4 v =>
    Join (map (fun s => Itoa (Z.land (Z.shiftr v s) 255)) [24; 16; 8; 0]) "."
  | Addr6 v zone =>
    let tail := if is_empty zone then "" else "%" +:+ zone in
    if Is4In6 a then
      "::ffff:" +:+ Join (map (fun s => Itoa (Z.land (Z.shiftr v s) 255)) [24; 16; 8; 0]) "." +:+ tail
    else
      let g := groups_of v in
      let '(start, n) := longest_zero_run 0 g (0%nat, 0%nat) in
      if (1 <? n)%nat then
        Join (map hex_string (take start g)) ":" +:+ "::" +:+ Join (map hex_string (drop (start + n) g)) ":" +:+ tail
      else Join (map hex_string g) ":" +:+ tail
  end.
Definition Prefix_String (p : Prefix) : string :=
  if prefix_valid p then Addr_String (pfx_addr p) +:+ "/" +:+ Itoa (pfx_bits p) else "invalid Prefix".

Example Addr_String_ex :
  map Addr_String [Addr4 0xA9FEA9FE; Addr6 0xfd000ec2000000000000000000000254 ""; Addr6 1 ""; Addr6 0 "eth0"]
  = ["169.254.169.254"; "fd00:ec2::254"; "::1"; "::%eth0"].
Proof. vm_compute. reflexivity. Qed.

(** ** netip.ParseAddrPort *)

(** The port of an address: a decimal of 16 bits. *)
Definition ParsePort (s : string) : option Z := bounded 65535 (decimal s).

Definition strip_brackets (s : string) : option (string * bool) :=
  if HasPrefix s "[" then
    if HasSuffix s "]" && (1 <? String.length s)%nat
    then Some (stake (String.length s - 2) (sdrop 1 s), true) else None
  else Some (s, false).

(** [netip.ParseAddrPort], keeping the address. *)
Definition ParseAddrPort (s : string) : option Addr :=
  match LastIndexByte s ":"%char with
  | None => None
  | Some i =>
    match strip_brackets (stake i s), ParsePort (sdrop (i + 1) s) with
    | Some (ip, v6), Some _ =>
      match ParseAddr ip with
      | Some a => if Bool.eqb v6 (Is6 a) then Some a else None
      | None => None
      end
    | _, _ => None
    end
  end.

Lemma Unmap_idem a : Unmap (Unmap a) = Unmap a.
Proof. unfold Unmap at 2 3. destruct (Is4In6 a) eqn:Hi; [done|]. unfold Unmap. by rewrite Hi. Qed.
