(* ===== verification/GoNetPrint.v ===== *)
(** * Addresses as text and back (Go's [net] and [net/netip])

    What a dialer prints of the address it is about to connect to is what the
    deny list reads: [netip.ParseAddr] of [Addr.String] gives the address
    back, and so does splitting it from its port. *)
From stdpp Require Import base gmap strings list option.
From Stdlib Require Import ZArith Lia Ascii.
From S2P Require Import Prelude GoUtf8 GoStrings GoNet.
Local Open Scope string_scope.
Local Open Scope list_scope.
Local Open Scope Z_scope.

(** ** Hexadecimal groups *)

(** [ds] is read by the digit loop as the number [n], whatever follows. *)
Definition hex_reads (ds : string) (n : Z) : Prop :=
  forall rest a k, hex_run (ds +:+ rest) a k = hex_run rest (a * 16 ^ Z.of_nat (String.length ds) + n) (k + String.length ds)%nat.
(** Every byte of a text is a hexadecimal digit. *)
Definition hex_text (s : string) : Prop := forall c, string_in c s = true -> is_Some (hex_digit_of c).

Lemma digits_acc_app f b h n acc : digits_acc f b h n acc = digits_acc f b h n "" +:+ acc.
Proof.
  revert n acc. induction f as [|f IH]; intros n acc; cbn [digits_acc]; [done|]. destruct (n <? b); [done|].
  rewrite IH, (IH _ (String _ "")), <- app_assoc_str. done.
Qed.

Lemma hex_digit_printed d : 0 <= d < 16 -> hex_digit_of (ascii_of_byte (if d <? 10 then 48 + d else 87 + d)) = Some d.
Proof.
  intros Hd. assert (d ∈ seqZ 0 16) as Hin by (apply elem_of_seqZ; lia).
  assert (forallb (fun d => bool_decide (hex_digit_of (ascii_of_byte (if d <? 10 then 48 + d else 87 + d)) = Some d)) (seqZ 0 16) = true) as Hall by (vm_compute; reflexivity).
  rewrite forallb_forall in Hall. apply list_elem_of_In, Hall in Hin. by apply bool_decide_eq_true in Hin.
Qed.

Lemma hex_reads_digit d : 0 <= d < 16 -> hex_reads (String (ascii_of_byte (if d <? 10 then 48 + d else 87 + d)) "") d.
Proof.
  intros Hd rest a k. change (String ?c "" +:+ rest) with (String c rest). cbn [hex_run]. rewrite hex_digit_printed by done.
  cbn [String.length]. change (16 ^ Z.of_nat 1) with 16. by rewrite Nat.add_1_r.
Qed.
Lemma hex_reads_app s t m n : hex_reads s m -> hex_reads t n -> hex_reads (s +:+ t) (m * 16 ^ Z.of_nat (String.length t) + n).
Proof.
  intros Hs Ht rest a k. rewrite <- app_assoc_str, Hs, Ht, length_app_str, Nat2Z.inj_add, Z.pow_add_r by lia. f_equal; lia.
Qed.
Lemma hex_text_app s t : hex_text s -> hex_text t -> hex_text (s +:+ t).
Proof. intros Hs Ht c. rewrite string_in_app. intros [?|?]%orb_true_iff; auto. Qed.
Lemma hex_text_digit d : 0 <= d < 16 -> hex_text (String (ascii_of_byte (if d <? 10 then 48 + d else 87 + d)) "").
Proof.
  intros Hd c Hc. cbn [string_in] in Hc. rewrite orb_false_r in Hc. apply bool_decide_eq_true in Hc as ->. by rewrite hex_digit_printed.
Qed.

Lemma digits_hex f n m : 0 <= n < 16 ^ (Z.of_nat f + 1) -> (0 < m)%nat -> n < 16 ^ Z.of_nat m ->
  let ds := digits_acc f 16 true n "" in hex_reads ds n /\ hex_text ds /\ (1 <= String.length ds <= m)%nat.
Proof.
  revert n m. induction f as [|f IH]; intros n m Hn Hm Hlt; cbn [digits_acc]; pose proof (Z.mod_pos_bound n 16 ltac:(lia)) as Hd.
  - change (16 ^ (Z.of_nat 0 + 1)) with 16 in Hn. rewrite Z.mod_small in * by lia. split_and!; [by apply hex_reads_digit | by apply hex_text_digit | cbn; lia..].
  - destruct (n <? 16) eqn:E; bool_prop.
    { rewrite Z.mod_small in * by lia. split_and!; [by apply hex_reads_digit | by apply hex_text_digit | cbn; lia..]. }
    destruct m as [|[|m]]; [lia | change (16 ^ Z.of_nat 1) with 16 in Hlt; lia |].
    rewrite digits_acc_app. rewrite Nat2Z.inj_succ in Hn. replace (Z.succ (Z.of_nat f) + 1) with (Z.succ (Z.of_nat f + 1)) in Hn by lia.
    rewrite (Nat2Z.inj_succ (S m)) in Hlt. rewrite Z.pow_succ_r in Hn, Hlt by lia.
    destruct (IH (n / 16) (S m)) as (Hr & Ht & Hl); [split; [apply Z.div_pos; lia | apply Z.div_lt_upper_bound; lia] | lia | apply Z.div_lt_upper_bound; lia |].
    split_and!.
    + pose proof (hex_reads_app _ _ _ _ Hr (hex_reads_digit _ Hd)) as Hra. cbn [String.length] in Hra. change (16 ^ Z.of_nat 1) with 16 in Hra.
      replace (n / 16 * 16 + n mod 16) with n in Hra by (rewrite (Z.mul_comm _ 16); apply Z.div_mod; lia). exact Hra.
    + apply hex_text_app; [done | by apply hex_text_digit].
    + rewrite length_app_str. lia.
    + rewrite length_app_str. cbn [String.length]. lia.
Qed.

Lemma hex_string_spec v : 0 <= v < 65536 ->
  hex_reads (hex_string v) v /\ hex_text (hex_string v) /\ (1 <= String.length (hex_string v) <= 4)%nat.
Proof.
  intros Hv. apply digits_hex; [|lia | change (16 ^ Z.of_nat 4) with 65536; lia]. split; [lia|]. rewrite Z2Nat.id by apply Z.log2_up_nonneg.
  destruct (Z.eq_dec v 0) as [->|]; [by apply Z.pow_pos_nonneg|]. destruct (Z.eq_dec v 1) as [->|]; [done|].
  apply (Z.le_lt_trans _ (2 ^ Z.log2_up v)); [apply Z.log2_up_spec; lia|].
  apply (Z.lt_le_trans _ (2 ^ (Z.log2_up v + 1))); [apply Z.pow_lt_mono_r; pose proof (Z.log2_up_nonneg v); lia|].
  apply Z.pow_le_mono_l. lia.
Qed.

Lemma hex_text_no c s : hex_text s -> hex_digit_of c = None -> string_in c s = false.
Proof. intros Hs Hc. destruct (string_in c s) eqn:E; [|done]. destruct (Hs c E) as [d Hd]. by rewrite Hc in Hd. Qed.

(** The loop stops at the byte after a printed group. *)
Lemma hex_run_group v rest : 0 <= v < 65536 -> (forall c t, rest = String c t -> hex_digit_of c = None) ->
  hex_run (hex_string v +:+ rest) 0 0 = (v, String.length (hex_string v), rest).
Proof.
  intros Hv Hrest. destruct (hex_string_spec v Hv) as (Hr & _ & _). rewrite Hr, Z.mul_0_l, Z.add_0_l, Nat.add_0_l.
  destruct rest as [|c t]; [done|]. cbn [hex_run]. by rewrite (Hrest c t).
Qed.

Definition in_group (v : Z) : Prop := 0 <= v < 65536.
Definition hex_groups (gs : list Z) : string := Join (map hex_string gs) ":".

Lemma hex_groups_cons v w gs : hex_groups (v :: w :: gs) = hex_string v +:+ String ":" (hex_groups (w :: gs)).
Proof. done. Qed.
Lemma hex_string_starts v rest : in_group v -> exists c t, hex_string v +:+ rest = String c t /\ is_Some (hex_digit_of c).
Proof.
  intros Hv. destruct (hex_string_spec v Hv) as (_ & Ht & Hl). destruct (hex_string v) as [|c t] eqn:E; [cbn in Hl; lia|].
  exists c, (t +:+ rest). split; [done|]. apply Ht. cbn [string_in]. by rewrite bool_decide_eq_true_2.
Qed.
Lemma hex_groups_starts v gs rest : in_group v -> exists c t, hex_groups (v :: gs) +:+ rest = String c t /\ is_Some (hex_digit_of c).
Proof. intros Hv. destruct gs as [|w gs]; [by apply hex_string_starts|]. rewrite hex_groups_cons, <- app_assoc_str. by apply hex_string_starts. Qed.

(** What one turn of the loop does with a printed group. *)
Lemma parse_group_last fuel v pre e : in_group v -> parse_groups (S fuel) (hex_string v) pre e = Some (pre ++ [v], e, "").
Proof.
  intros Hv. destruct (hex_string_spec v Hv) as (_ & _ & Hl). cbn [parse_groups].
  pose proof (hex_run_group v "" Hv ltac:(done)) as Hrun. rewrite app_empty_r in Hrun. rewrite Hrun.
  rewrite (proj2 (Nat.eqb_neq _ 0)), (proj2 (Nat.ltb_ge 4 _)) by lia. done.
Qed.
Lemma parse_group_next fuel v s pre e : in_group v ->
  parse_groups (S fuel) (hex_string v +:+ String ":" s) pre e =
    if is_empty s then None
    else if HasPrefix s ":" then
      if bool_decide (is_Some e) then None
      else if is_empty (sdrop 1 s) then Some (pre ++ [v], Some (length (pre ++ [v])), "")
      else parse_groups fuel (sdrop 1 s) (pre ++ [v]) (Some (length (pre ++ [v])))
    else parse_groups fuel s (pre ++ [v]) e.
Proof.
  intros Hv. destruct (hex_string_spec v Hv) as (_ & _ & Hl). cbn [parse_groups].
  rewrite hex_run_group; [|done|by intros c t [= <- <-]]. rewrite (proj2 (Nat.eqb_neq _ 0)), (proj2 (Nat.ltb_ge 4 _)) by lia. done.
Qed.

Lemma hex_colon_no : hex_digit_of ":" = None. Proof. reflexivity. Qed.
Lemma hex_groups_proper v gs rest : in_group v ->
  is_empty (hex_groups (v :: gs) +:+ rest) = false /\ HasPrefix (hex_groups (v :: gs) +:+ rest) ":" = false.
Proof.
  intros Hv. destruct (hex_groups_starts v gs rest Hv) as (c & t & -> & [d Hd]). split; [done|].
  apply not_true_iff_false. intros [u [= -> _]]%HasPrefix_spec. by rewrite hex_colon_no in Hd.
Qed.

(** A run of groups, and a run followed by the ellipsis. *)
Lemma parse_groups_run gs : forall fuel pre e, Forall in_group gs -> gs <> [] -> (length gs <= fuel)%nat ->
  parse_groups fuel (hex_groups gs) pre e = Some (pre ++ gs, e, "").
Proof.
  induction gs as [|v gs IH]; intros [|fuel] pre e Hg Hne Hf; cbn [length] in Hf; try done; try lia.
  apply list.Forall_cons in Hg as [Hv Hg]. destruct gs as [|w gs]; [by apply parse_group_last|].
  rewrite hex_groups_cons, parse_group_next by done. assert (in_group w) as Hw by (by apply list.Forall_cons in Hg as [? _]).
  destruct (hex_groups_proper w gs "" Hw) as [He Hp]. rewrite app_empty_r in He, Hp. rewrite He, Hp, IH by (done || (cbn in *; lia)).
  by rewrite <- app_assoc.
Qed.
Lemma parse_groups_ellipsis gs : forall fuel pre ys, Forall in_group gs -> gs <> [] -> Forall in_group ys -> (length gs + length ys <= fuel)%nat ->
  parse_groups fuel (hex_groups gs +:+ "::" +:+ hex_groups ys) pre None = Some (pre ++ gs ++ ys, Some (length (pre ++ gs)), "").
Proof.
  induction gs as [|v gs IH]; intros [|fuel] pre ys Hg Hne Hy Hf; cbn [length] in Hf; try done; try lia.
  apply list.Forall_cons in Hg as [Hv Hg]. destruct gs as [|w gs].
  - change (hex_groups [v] +:+ "::" +:+ hex_groups ys) with (hex_string v +:+ String ":" (String ":" (hex_groups ys))).
    rewrite parse_group_next by done. cbn [sdrop]. change (is_empty (String ":" (hex_groups ys))) with false.
    assert (HasPrefix (String ":" (hex_groups ys)) ":" = true) as -> by exact (HasPrefix_app ":" (hex_groups ys)). rewrite bool_decide_eq_false_2 by (by intros []). destruct ys as [|y ys]; [by rewrite app_nil_r|].
    assert (in_group y) as Hyy by (by apply list.Forall_cons in Hy as [? _]). destruct (hex_groups_proper y ys "" Hyy) as [He _]. rewrite app_empty_r in He.
    cbn iota. rewrite He, parse_groups_run by (done || (cbn in *; lia)). by rewrite <- app_assoc.
  - rewrite hex_groups_cons, <- app_assoc_str. change (String ":" ?a +:+ ?b) with (String ":" (a +:+ b)). rewrite parse_group_next by done.
    assert (in_group w) as Hw by (by apply list.Forall_cons in Hg as [? _]).
    destruct (hex_groups_proper w gs ("::" +:+ hex_groups ys) Hw) as [He Hp]. rewrite He, Hp, IH by (done || (cbn in *; lia)).
    by rewrite <- !app_assoc.
Qed.

(** ** Groups and their zero run *)

Lemma groups_of_range v : Forall in_group (groups_of v).
Proof.
  unfold groups_of. apply list.Forall_fmap, list.Forall_forall. intros i _. unfold in_group, compose. change 65535 with (Z.ones 16).
  rewrite Z.land_ones by lia. apply Z.mod_pos_bound. lia.
Qed.
Lemma group_step v k k' : 0 <= k -> k' = k + 16 -> Z.shiftr v k' * 65536 + Z.land (Z.shiftr v k) 65535 = Z.shiftr v k.
Proof.
  intros Hk ->. rewrite <- Z.shiftr_shiftr by lia. change 65535 with (Z.ones 16). rewrite Z.land_ones, (Z.shiftr_div_pow2 _ 16) by lia.
  rewrite Z.mul_comm. symmetry. apply Z.div_mod. lia.
Qed.
Lemma groups_value_of v : 0 <= v < 2 ^ 128 -> groups_value (groups_of v) = v.
Proof.
  intros Hv. change (groups_of v) with (map (fun k => Z.land (Z.shiftr v k) 65535) [112; 96; 80; 64; 48; 32; 16; 0]).
  unfold groups_value. cbn [map foldl]. assert (Z.shiftr v 128 = 0) as H0 by (rewrite Z.shiftr_div_pow2 by lia; by apply Z.div_small).
  rewrite <- H0 at 1. rewrite !group_step by lia.
  apply Z.shiftr_0_r.
Qed.

Lemma zero_run_spec g : take (zero_run g) g = replicate (zero_run g) 0 /\ (zero_run g <= length g)%nat.
Proof. induction g as [|[|p|p] g [IH Hl]]; cbn; [done | | (split; [done | lia])..]. split; [by rewrite IH | lia]. Qed.

(** [n] zero groups start at [s]. *)
Definition zeros_at (g : list Z) (r : nat * nat) : Prop := take r.2 (drop r.1 g) = replicate r.2 0 /\ (r.1 + r.2 <= length g)%nat.
Lemma longest_zero_run_spec g0 g : forall i best, drop i g0 = g -> zeros_at g0 best -> zeros_at g0 (longest_zero_run i g best).
Proof.
  induction g as [|x g IH]; intros i best Hd Hb; cbn [longest_zero_run]; [done|]. apply IH.
  - replace (S i) with (i + 1)%nat by lia. by rewrite <- drop_drop, Hd.
  - destruct (snd best <? _)%nat; [|done]. destruct (zero_run_spec (x :: g)) as [Ht Hl]. unfold zeros_at. cbn [fst snd]. rewrite Hd. split; [done|].
    apply (f_equal length) in Hd. rewrite length_drop in Hd. cbn [length] in Hd, Hl |- *. lia.
Qed.
Lemma zeros_split g s n : zeros_at g (s, n) -> g = take s g ++ replicate n 0 ++ drop (s + n) g.
Proof. intros [Hz _]. cbn [fst snd] in Hz. by rewrite <- Hz, <- drop_drop, take_drop, take_drop. Qed.

(** ** Dotted decimal *)

Definition dotted (v : Z) : string := Join (map (fun s => Itoa (Z.land (Z.shiftr v s) 255)) [24; 16; 8; 0]) ".".

Definition hex_textb (s : string) : bool := forallb (fun c => bool_decide (is_Some (hex_digit_of c))) (String.list_ascii_of_string s).
Lemma hex_textb_spec s : hex_textb s = true -> hex_text s.
Proof.
  unfold hex_textb. induction s as [|d s IH]; intros Hs c; cbn in *; [done|]. apply andb_true_iff in Hs as [Hd Hs].
  intros [->%bool_decide_eq_true | Hc]%orb_true_iff; [by apply bool_decide_eq_true in Hd | by apply IH].
Qed.
Lemma hex_run_text s rest : hex_text s -> (forall c t, rest = String c t -> hex_digit_of c = None) ->
  forall a k, exists x, hex_run (s +:+ rest) a k = (x, (k + String.length s)%nat, rest).
Proof.
  intros Hs Hrest. induction s as [|c s IH]; intros a k.
  - exists a. cbn. rewrite Nat.add_0_r. destruct rest as [|c t]; [done|]. cbn. by rewrite (Hrest c t).
  - destruct (Hs c) as [d Hd]; [cbn; by rewrite bool_decide_eq_true_2|]. change (String c s +:+ rest) with (String c (s +:+ rest)). cbn [hex_run]. rewrite Hd.
    destruct (IH ltac:(intros e He; apply Hs; cbn; by rewrite He, orb_true_r) (a * 16 + d) (S k)) as [x Hx]. exists x. rewrite Hx. cbn [String.length]. do 2 f_equal. lia.
Qed.

Lemma octet_spec b : 0 <= b < 256 -> octet (Itoa b) = Some b /\ hex_text (Itoa b) /\ (1 <= String.length (Itoa b) <= 3)%nat.
Proof.
  intros Hb. assert (b ∈ seqZ 0 256) as Hin by (apply elem_of_seqZ; lia).
  assert (forallb (fun b => bool_decide (octet (Itoa b) = Some b) && hex_textb (Itoa b) && (1 <=? String.length (Itoa b))%nat && (String.length (Itoa b) <=? 3)%nat) (seqZ 0 256) = true)
    as Hall by (vm_compute; reflexivity).
  rewrite forallb_forall in Hall. apply list_elem_of_In, Hall in Hin. rewrite !andb_true_iff in Hin. destruct Hin as [[[Ho Ht] H1] H3].
  apply bool_decide_eq_true in Ho. apply Nat.leb_le in H1, H3. split_and!; [done | by apply hex_textb_spec | done | done].
Qed.
Lemma byte_at v s : 0 <= Z.land (Z.shiftr v s) 255 < 256.
Proof. change 255 with (Z.ones 8). rewrite Z.land_ones by lia. apply Z.mod_pos_bound. lia. Qed.
Lemma byte_step v k k' : 0 <= k -> k' = k + 8 -> Z.shiftr v k' * 256 + Z.land (Z.shiftr v k) 255 = Z.shiftr v k.
Proof.
  intros Hk ->. rewrite <- Z.shiftr_shiftr by lia. change 255 with (Z.ones 8). rewrite Z.land_ones, (Z.shiftr_div_pow2 _ 8) by lia.
  rewrite Z.mul_comm. symmetry. apply Z.div_mod. lia.
Qed.
Lemma hex_dot_no : hex_digit_of "." = None. Proof. reflexivity. Qed.

Lemma dotted_parses v : 0 <= v < 2 ^ 32 -> parseIPv4Fields (dotted v) = Some v.
Proof.
  intros Hv. unfold parseIPv4Fields, dotted. rewrite Split_Join; [|done|].
  - cbn [map]. rewrite !(proj1 (octet_spec _ (byte_at v _))). f_equal.
    assert (Z.shiftr v 32 = 0) as H0 by (rewrite Z.shiftr_div_pow2 by lia; by rewrite Z.div_small).
    pose proof (byte_step v 24 32 ltac:(lia) ltac:(lia)) as H24. rewrite H0, Z.mul_0_l, Z.add_0_l in H24. rewrite H24, !byte_step by lia. apply Z.shiftr_0_r.
  - apply list.Forall_fmap, list.Forall_forall. intros s _. unfold compose. apply hex_text_no; [apply octet_spec, byte_at | reflexivity].
Qed.
(** The first octet, then a dot. *)
Lemma dotted_starts v : exists t, dotted v = Itoa (Z.land (Z.shiftr v 24) 255) +:+ String "." t.
Proof. eexists. reflexivity. Qed.
Lemma dotted_no c v : hex_digit_of c = None -> c <> "."%char -> string_in c (dotted v) = false.
Proof.
  intros Hc Hd. unfold dotted. cbn [map]. rewrite !Join_cons2. cbn [Join].
  repeat (rewrite string_in_app; cbn [string_in]; rewrite (bool_decide_eq_false_2 (c = "."%char)) by done).
  by rewrite !(hex_text_no c) by (done || apply octet_spec, byte_at).
Qed.

(** ** The round trip *)

Lemma addr_family_app s c t : hex_text s -> string_in c ".:%" = true -> addr_family (s +:+ String c t) = Some c.
Proof.
  intros Hs Hc. induction s as [|d s IH]; [change ("" +:+ String c t) with (String c t); cbn [addr_family]; by rewrite Hc|].
  destruct (Hs d) as [x Hx]; [cbn; by rewrite bool_decide_eq_true_2|]. change (String d s +:+ String c t) with (String d (s +:+ String c t)). cbn [addr_family].
  destruct (string_in d ".:%") eqn:E.
  - cbn [string_in] in E. rewrite orb_false_r, !orb_true_iff, !bool_decide_eq_true in E. by destruct E as [-> | [-> | ->]].
  - apply IH. intros e He. apply Hs. cbn. by rewrite He, orb_true_r.
Qed.

(** What [parseIPv6] makes of a text without a zone. *)
Definition parse_body (body zone : string) : option Addr :=
  let lead := HasPrefix body "::" in
  let start := if lead then sdrop 2 body else body in
  if lead && is_empty start then Some (Addr6 0 zone)
  else match parse_groups 8 start [] (if lead then Some 0%nat else None) with
       | Some (groups, ellipsis, rest) =>
         if negb (is_empty rest) then None
         else if (length groups <? 8)%nat then
           match ellipsis with
           | None => None
           | Some e => Some (Addr6 (groups_value (take e groups ++ replicate (8 - length groups) 0 ++ drop e groups)) zone)
           end
         else if bool_decide (is_Some ellipsis) then None
         else Some (Addr6 (groups_value groups) zone)
       | None => None
       end.
Lemma IndexByte_absent s c : string_in c s = false -> IndexByte s c = None.
Proof. induction s as [|d s IH]; cbn; [done|]. intros [Hd Hs]%orb_false_iff. rewrite IH by done. apply bool_decide_eq_false in Hd. by rewrite bool_decide_eq_false_2. Qed.
Lemma IndexByte_first s c t : string_in c s = false -> IndexByte (s +:+ String c t) c = Some (String.length s).
Proof.
  induction s as [|d s IH]; cbn; [by rewrite bool_decide_eq_true_2|]. intros [Hd Hs]%orb_false_iff. rewrite IH by done.
  apply bool_decide_eq_false in Hd. by rewrite bool_decide_eq_false_2.
Qed.
Lemma parseIPv6_zone body zone : string_in "%" body = false ->
  parseIPv6 (body +:+ (if is_empty zone then "" else "%" +:+ zone)) = parse_body body zone.
Proof.
  intros Hb. unfold parseIPv6. destruct (is_empty zone) eqn:E.
  - apply is_empty_true in E as ->. by rewrite app_empty_r, IndexByte_absent.
  - change ("%" +:+ zone) with (String "%" zone). rewrite IndexByte_first by done. rewrite stake_app_length.
    replace (String.length body + 1)%nat with (String.length (body +:+ "%")) by (by rewrite length_app_str).
    change (String "%" zone) with ("%" +:+ zone). rewrite app_assoc_str, sdrop_app_length.
    apply is_empty_false in E. by rewrite bool_decide_eq_false_2 by (by intros [= ->]).
Qed.

Lemma hex_groups_no c gs : hex_digit_of c = None -> c <> ":"%char -> Forall in_group gs -> string_in c (hex_groups gs) = false.
Proof.
  intros Hc Hd. induction gs as [|v gs IH]; [done|]. intros [Hv Hg]%list.Forall_cons. pose proof (hex_text_no c _ (proj1 (proj2 (hex_string_spec v Hv))) Hc) as Hh.
  destruct gs as [|w gs]; [done|]. rewrite hex_groups_cons, string_in_app, Hh. cbn [string_in]. rewrite bool_decide_eq_false_2 by done. by apply IH.
Qed.
Lemma not_lead v gs rest : in_group v -> HasPrefix (hex_groups (v :: gs) +:+ rest) "::" = false.
Proof.
  intros Hv. destruct (hex_groups_starts v gs rest Hv) as (c & t & -> & [d Hd]). apply not_true_iff_false.
  intros [u [= -> _]]%HasPrefix_spec. by rewrite hex_colon_no in Hd.
Qed.

Lemma parse_body_full gs zone : Forall in_group gs -> length gs = 8%nat -> parse_body (hex_groups gs) zone = Some (Addr6 (groups_value gs) zone).
Proof.
  intros Hg Hl. destruct gs as [|v gs]; [done|]. assert (in_group v) as Hv by (by apply list.Forall_cons in Hg as [? _]).
  unfold parse_body. pose proof (not_lead v gs "" Hv) as Hn. rewrite app_empty_r in Hn. rewrite Hn. cbn [andb].
  rewrite parse_groups_run by (done || lia). rewrite app_nil_l, Hl. done.
Qed.
Lemma parse_body_ellipsis g s n zone : Forall in_group g -> length g = 8%nat -> zeros_at g (s, n) -> (1 < n)%nat ->
  parse_body (hex_groups (take s g) +:+ "::" +:+ hex_groups (drop (s + n) g)) zone = Some (Addr6 (groups_value g) zone).
Proof.
  intros Hg Hl Hz Hn. pose proof (zeros_split _ _ _ Hz) as Hs. destruct Hz as [_ Hb]. cbn [fst snd] in Hb.
  set (xs := take s g) in *. set (ys := drop (s + n) g) in *.
  assert (length xs = s) as Hx by (unfold xs; rewrite length_take; lia). assert (length ys = (8 - s - n)%nat) as Hy by (unfold ys; rewrite length_drop; lia).
  assert (Forall in_group xs) as Hgx by (by apply Forall_take). assert (Forall in_group ys) as Hgy by (by apply Forall_drop).
  assert (forall e, e = s -> groups_value (take e (xs ++ ys) ++ replicate (8 - length (xs ++ ys)) 0 ++ drop e (xs ++ ys)) = groups_value g) as Hv.
  { intros e ->. rewrite length_app, Hx, Hy, take_app_length', drop_app_length' by done. replace (8 - (s + (8 - s - n)))%nat with n by lia. by rewrite <- Hs. }
  assert ((length (xs ++ ys) <? 8)%nat = true) as Hlt by (apply Nat.ltb_lt; rewrite length_app; lia).
  unfold parse_body. destruct xs as [|x xs'] eqn:Ex.
  - cbn in Hx. subst s. change (hex_groups [] +:+ "::" +:+ hex_groups ys) with ("::" +:+ hex_groups ys). rewrite HasPrefix_app.
    change (sdrop 2 ("::" +:+ hex_groups ys)) with (hex_groups ys). destruct ys as [|y ys'] eqn:Ey.
    + cbn in Hy. assert (n = 8%nat) as -> by lia. by rewrite Hs.
    + assert (in_group y) as Hyy by (by apply list.Forall_cons in Hgy as [? _]). destruct (hex_groups_proper y ys' "" Hyy) as [He _]. rewrite app_empty_r in He.
      rewrite He. cbn [andb]. rewrite parse_groups_run by (done || (cbn in *; lia)). rewrite app_nil_l in *. rewrite Hlt. cbn [negb is_empty str_eqb]. by rewrite (Hv 0%nat).
  - rewrite not_lead by (by apply list.Forall_cons in Hgx as [? _]). cbn [andb]. rewrite parse_groups_ellipsis by (done || (rewrite Hx, Hy; lia)).
    rewrite !app_nil_l, Hlt. cbn [negb is_empty str_eqb]. by rewrite (Hv (length (x :: xs'))).
Qed.
Lemma dotted_run v : exists x off t, hex_run (dotted v) 0 0 = (x, off, String "." t) /\ (1 <= off <= 3)%nat.
Proof.
  destruct (octet_spec _ (byte_at v 24)) as (_ & Ht & Hl). destruct (dotted_starts v) as [t Hd].
  destruct (hex_run_text _ (String "." t) Ht ltac:(by intros c u [= <- <-]) 0 0%nat) as [x Hrun]. rewrite <- Hd in Hrun. by exists x, (0 + String.length (Itoa (Z.land (Z.shiftr v 24) 255)))%nat, t.
Qed.
Lemma dotted_proper v : is_empty (dotted v) = false /\ HasPrefix (dotted v) ":" = false.
Proof.
  destruct (octet_spec _ (byte_at v 24)) as (_ & Ht & Hl). destruct (dotted_starts v) as [t ->].
  destruct (Itoa _) as [|c u] eqn:Ei; [cbn in Hl; lia|]. split; [done|]. apply not_true_iff_false. intros [w [= -> _]]%HasPrefix_spec.
  destruct (Ht ":"%char) as [d Hc]; [reflexivity|]. by rewrite hex_colon_no in Hc.
Qed.
Lemma parse_group_dotted fuel v pre e : 0 <= v < 2 ^ 32 -> is_Some e -> (length pre <= 6)%nat ->
  parse_groups (S fuel) (dotted v) pre e = Some (pre ++ [Z.shiftr v 16; Z.land v 65535], e, "").
Proof.
  intros Hv [k ->] Hl. destruct (dotted_run v) as (x & off & t & Hrun & Ho). cbn [parse_groups]. rewrite Hrun.
  rewrite (proj2 (Nat.eqb_neq off 0)), (proj2 (Nat.ltb_ge 4 off)) by lia. assert (HasPrefix (String "." t) "." = true) as -> by exact (HasPrefix_app "." t).
  rewrite bool_decide_eq_false_2, (proj2 (Nat.ltb_ge 6 (length pre))), dotted_parses by done. done.
Qed.
Lemma parse_body_mapped v zone : 0 <= v < 2 ^ 32 -> parse_body ("::ffff:" +:+ dotted v) zone = Some (Addr6 (Z.shiftl 65535 32 + v) zone).
Proof.
  intros Hv. unfold parse_body. change ("::ffff:" +:+ dotted v) with ("::" +:+ ("ffff:" +:+ dotted v)). rewrite HasPrefix_app.
  change (sdrop 2 ("::" +:+ ("ffff:" +:+ dotted v))) with (hex_string 65535 +:+ String ":" (dotted v)). cbn [andb].
  assert (is_empty (hex_string 65535 +:+ String ":" (dotted v)) = false) as -> by reflexivity. rewrite parse_group_next by (unfold in_group; lia).
  destruct (dotted_proper v) as [-> ->]. rewrite parse_group_dotted by (done || cbn; lia).
  cbn [app length negb is_empty str_eqb take drop replicate Nat.sub Nat.ltb Nat.leb]. do 2 f_equal. unfold groups_value. cbn [foldl].
  pose proof (group_step v 0 16 ltac:(lia) ltac:(lia)) as Hs. rewrite Z.shiftr_0_r in Hs. change (Z.shiftl 65535 32) with (65535 * 65536 * 65536). lia.
Qed.

Lemma dotted_low v : dotted (Z.land v (Z.ones 32)) = dotted v.
Proof.
  unfold dotted. f_equal. apply map_ext_in. intros s Hs. f_equal. rewrite Z.shiftr_land, <- Z.land_assoc. f_equal.
  destruct Hs as [<- | [<- | [<- | [<- | []]]]]; reflexivity.
Qed.
Lemma land_ones32 v : 0 <= Z.land v (Z.ones 32) < 2 ^ 32.
Proof. rewrite Z.land_ones by lia. apply Z.mod_pos_bound. lia. Qed.
Lemma split_mapped v : Z.shiftr v 32 = 65535 -> Z.shiftl 65535 32 + Z.land v (Z.ones 32) = v.
Proof. intros Hs. rewrite <- Hs, Z.land_ones, Z.shiftr_div_pow2, Z.shiftl_mul_pow2 by lia. rewrite Z.mul_comm. symmetry. by apply Z.div_mod. Qed.

(** The text of an IPv6 address without its zone. *)
Definition body6 (v : Z) : string :=
  if Is4In6 (Addr6 v "") then "::ffff:" +:+ dotted v
  else let g := groups_of v in
       let '(start, n) := longest_zero_run 0 g (0%nat, 0%nat) in
       if (1 <? n)%nat then hex_groups (take start g) +:+ "::" +:+ hex_groups (drop (start + n) g) else hex_groups g.
Lemma Addr6_String v zone : Addr_String (Addr6 v zone) = body6 v +:+ (if is_empty zone then "" else "%" +:+ zone).
Proof.
  unfold Addr_String, body6, hex_groups. change (Is4In6 (Addr6 v zone)) with (Is4In6 (Addr6 v "")). destruct (Is4In6 _); [by rewrite <- app_assoc_str|].
  cbv zeta. destruct (longest_zero_run 0 _ _) as [start n]. destruct (1 <? n)%nat; [|done]. by rewrite <- !app_assoc_str.
Qed.
Lemma zeros_of v : zeros_at (groups_of v) (longest_zero_run 0 (groups_of v) (0%nat, 0%nat)).
Proof. apply longest_zero_run_spec; [done|]. split; [done | cbn; lia]. Qed.

Lemma body6_parses v zone : 0 <= v < 2 ^ 128 -> parse_body (body6 v) zone = Some (Addr6 v zone).
Proof.
  intros Hv. unfold body6. destruct (Is4In6 (Addr6 v "")) eqn:E.
  - apply Z.eqb_eq in E. rewrite <- dotted_low, parse_body_mapped by apply land_ones32. by rewrite split_mapped.
  - cbv zeta. pose proof (zeros_of v) as Hz. destruct (longest_zero_run 0 _ _) as [start n]. rewrite <- (groups_value_of v Hv) at 4.
    destruct (1 <? n)%nat eqn:En; [apply Nat.ltb_lt in En; apply parse_body_ellipsis | apply parse_body_full]; done || apply groups_of_range.
Qed.
(** It has a colon and, of the other bytes that are not digits, at most dots. *)
Lemma body6_no c v : hex_digit_of c = None -> c <> ":"%char -> c <> "."%char -> string_in c (body6 v) = false.
Proof.
  intros Hc Hd Hp. unfold body6. destruct (Is4In6 (Addr6 v "")).
  - rewrite string_in_app, dotted_no by done. rewrite orb_false_r. cbn [string_in]. rewrite !(bool_decide_eq_false_2 (c = _)); [done|intros -> ..]; done.
  - cbv zeta. pose proof (groups_of_range v) as Hg. destruct (longest_zero_run 0 _ _) as [start n]. destruct (1 <? n)%nat; [|by apply hex_groups_no].
    rewrite !string_in_app, !hex_groups_no by (done || by apply Forall_take || by apply Forall_drop). cbn [string_in]. by rewrite !(bool_decide_eq_false_2 (c = _)).
Qed.
Lemma body6_family v rest : addr_family (body6 v +:+ rest) = Some ":"%char.
Proof.
  assert (forall x gs, in_group x -> forall t, addr_family ((hex_groups (x :: gs) +:+ String ":" t) +:+ rest) = Some ":"%char) as Hg.
  { intros x gs Hx t. destruct (hex_string_spec x Hx) as (_ & Ht & _). destruct gs as [|y gs]; [|rewrite hex_groups_cons]; rewrite <- ?app_assoc_str; by apply addr_family_app. }
  unfold body6. destruct (Is4In6 (Addr6 v "")); [done|]. cbv zeta. pose proof (groups_of_range v) as Hr. destruct (longest_zero_run 0 _ _) as [start n].
  destruct (1 <? n)%nat.
  - destruct (take start (groups_of v)) as [|x gs] eqn:Et; [done|]. apply Hg. pose proof (Forall_take _ start _ Hr) as Hr'. rewrite Et in Hr'. by apply list.Forall_cons in Hr' as [? _].
  - destruct (groups_of v) as [|x [|y gs]] eqn:Eg; [discriminate | discriminate |]. rewrite hex_groups_cons, <- app_assoc_str.
    apply list.Forall_cons in Hr as [Hx _]. destruct (hex_string_spec x Hx) as (_ & Ht & _). by apply addr_family_app.
Qed.

(** An address is what its text says. *)
Theorem ParseAddr_String a : addr_wf a -> ParseAddr (Addr_String a) = Some a.
Proof.
  destruct a as [v|v zone]; cbn [addr_wf]; intros Hv.
  - change (Addr_String (Addr4 v)) with (dotted v). unfold ParseAddr. destruct (dotted_starts v) as [t Hd].
    rewrite Hd, addr_family_app, <- Hd, dotted_parses by (done || apply octet_spec, byte_at). done.
  - rewrite Addr6_String. unfold ParseAddr. rewrite body6_family, parseIPv6_zone by (by apply body6_no). by apply body6_parses.
Qed.

(** ** What parses is an address *)

Lemma digit_of_range c d : digit_of c = Some d -> 0 <= d < 10.
Proof. unfold digit_of, is_digit_ascii, in_range. destruct (_ && _) eqn:E; [|done]. intros [= <-]. bool_prop. lia. Qed.
Lemma hex_digit_range c d : hex_digit_of c = Some d -> 0 <= d < 16.
Proof.
  unfold hex_digit_of, is_digit_ascii, in_range. repeat case_match; try done; intros [= <-]; bool_prop; lia.
Qed.
Lemma hex_run_range s : forall a k x n rest, hex_run s a k = (x, n, rest) -> 0 <= a < 16 ^ Z.of_nat k -> 0 <= x < 16 ^ Z.of_nat n.
Proof.
  induction s as [|c s IH]; intros a k x n rest; cbn [hex_run]; [by intros [= <- <- <-]|]. destruct (hex_digit_of c) as [d|] eqn:Ed; [|by intros [= <- <- <-]].
  intros Hr Ha. apply hex_digit_range in Ed. apply (IH _ _ _ _ _ Hr). rewrite Nat2Z.inj_succ, Z.pow_succ_r by lia. lia.
Qed.
Lemma decimal_acc_range s : forall a v, decimal_acc s a = Some v -> 0 <= a -> 0 <= v.
Proof.
  induction s as [|c s IH]; intros a v; cbn; [by intros [= <-]|]. destruct (digit_of c) as [d|] eqn:Ed; [|done]. apply digit_of_range in Ed. intros Hv Ha. apply (IH _ _ Hv). lia.
Qed.
Lemma octet_range s v : octet s = Some v -> 0 <= v < 256.
Proof.
  unfold octet, bounded, decimal. destruct (_ && _); [done|]. destruct (is_empty s); [done|]. destruct (decimal_acc s 0) as [n|] eqn:E; [|done].
  destruct (n <=? 255) eqn:El; [|done]. intros [= <-]. apply decimal_acc_range in E; [|lia]. bool_prop. lia.
Qed.
Lemma parseIPv4_range s v : parseIPv4Fields s = Some v -> 0 <= v < 2 ^ 32.
Proof.
  unfold parseIPv4Fields. destruct (Split s ".") as [|a [|b [|c [|d [|]]]]]; try done.
  destruct (octet a) eqn:Ea, (octet b) eqn:Eb, (octet c) eqn:Ec, (octet d) eqn:Ed; try done. intros [= <-].
  apply octet_range in Ea, Eb, Ec, Ed. lia.
Qed.
Lemma parse_groups_range fuel : forall s pre e gs e' rest, parse_groups fuel s pre e = Some (gs, e', rest) ->
  Forall in_group pre -> (length pre + fuel <= 8)%nat -> Forall in_group gs /\ (length gs <= 8)%nat.
Proof.
  induction fuel as [|fuel IH]; intros s pre e gs e' rest; cbn [parse_groups]; [intros [= <- <- <-]; split; [done | lia]|].
  destruct (hex_run s 0 0) as [[x off] r] eqn:Er. destruct ((off =? 0)%nat || (4 <? off)%nat) eqn:Eo; [done|].
  assert (in_group x) as Hx.
  { apply hex_run_range in Er; [|cbn; lia]. apply orb_false_iff in Eo as [_ E4]. apply Nat.ltb_ge in E4. unfold in_group. split; [lia|].
    apply (Z.lt_le_trans _ (16 ^ Z.of_nat off)); [lia|]. change 65536 with (16 ^ 4). apply Z.pow_le_mono_r; lia. }
  intros Hp Hf Hl. assert (Forall in_group (pre ++ [x]) /\ length (pre ++ [x]) = S (length pre)) as [Hpx Hlx].
  { split; [by apply list.Forall_app; split; [|constructor] | rewrite length_app; cbn; lia]. }
  destruct (HasPrefix r ".").
  - destruct (_ && negb _); [done|]. destruct (6 <? length pre)%nat eqn:E6; [done|]. apply Nat.ltb_ge in E6. destruct (parseIPv4Fields s) as [v|] eqn:Ev; [|done].
    injection Hp as <- <- <-. apply parseIPv4_range in Ev. split; [|rewrite length_app; cbn; lia]. apply list.Forall_app. split; [done|].
    repeat constructor; unfold in_group; rewrite ?Z.shiftr_div_pow2 by lia; change 65535 with (Z.ones 16); rewrite ?Z.land_ones by lia;
      [apply Z.div_pos; lia | apply Z.div_lt_upper_bound; lia | apply Z.mod_pos_bound; lia..].
  - destruct r as [|c s1]; [injection Hp as <- <- <-; split; [done | lia]|]. destruct (_ || is_empty s1); [done|]. destruct (HasPrefix s1 ":").
    + destruct (bool_decide _); [done|]. destruct (is_empty _); [injection Hp as <- <- <-; split; [done | lia]|]. eapply IH; [exact Hp | done | lia].
    + eapply IH; [exact Hp | done | lia].
Qed.
Lemma groups_value_range gs : Forall in_group gs -> 0 <= groups_value gs < 65536 ^ Z.of_nat (length gs).
Proof.
  unfold groups_value. assert (forall a k, Forall in_group gs -> 0 <= k -> 0 <= a < 65536 ^ k -> 0 <= foldl (fun v g => v * 65536 + g) a gs < 65536 ^ (k + Z.of_nat (length gs))) as Hgen.
  { induction gs as [|g gs IH]; intros a k Hg Hk Ha; cbn [foldl length]; [by rewrite Z.add_0_r|]. apply list.Forall_cons in Hg as [Hg1 Hg]. unfold in_group in Hg1.
    rewrite Nat2Z.inj_succ. replace (k + Z.succ (Z.of_nat (length gs))) with (Z.succ k + Z.of_nat (length gs)) by lia. apply IH; [done | lia|].
    rewrite Z.pow_succ_r by lia. lia. }
  intros Hg. apply (Hgen 0 0 Hg); lia.
Qed.
Lemma ParseAddr_wf s a : ParseAddr s = Some a -> addr_wf a.
Proof.
  assert (forall gs zone, Forall in_group gs -> length gs = 8%nat -> addr_wf (Addr6 (groups_value gs) zone)) as Hgs.
  { intros gs zone Hg Hl. cbn [addr_wf]. apply groups_value_range in Hg. rewrite Hl in Hg. change (65536 ^ Z.of_nat 8) with (2 ^ 128) in Hg. done. }
  unfold ParseAddr. destruct (addr_family s) as [c|]; [|done]. destruct (decide (c = "."%char)) as [->|Hd].
  { intros (v & Hv & ->)%fmap_Some. by apply parseIPv4_range in Hv. }
  destruct (decide (c = ":"%char)) as [->|Hc]; [|intros Hn; exfalso; destruct c as [[] [] [] [] [] [] [] []]; done].
  unfold parseIPv6. destruct (match IndexByte s "%" with Some i => _ | None => _ end) as [body zone]. destruct (bool_decide (zone = Some "")); [done|]. cbv zeta.
  destruct (HasPrefix body "::" && _); [intros [= <-]; cbn; lia|]. destruct (parse_groups 8 _ [] _) as [[[gs e] rest]|] eqn:Ep; [|done].
  apply parse_groups_range in Ep as [Hg Hl]; [|constructor | cbn; lia]. destruct (negb _); [done|]. destruct (length gs <? 8)%nat eqn:E8.
  - apply Nat.ltb_lt in E8. destruct e as [k|]; [|done]. intros [= <-]. apply Hgs.
    + rewrite !list.Forall_app. split_and!; [by apply Forall_take | apply Forall_replicate; unfold in_group; lia | by apply Forall_drop].
    + rewrite !length_app, length_take, length_replicate, length_drop. lia.
  - apply Nat.ltb_ge in E8. destruct (bool_decide _); [done|]. intros [= <-]. apply Hgs; [done | lia].
Qed.

(** ** Decimal numbers *)

Definition dec_reads (ds : string) (n : Z) : Prop := forall rest a, decimal_acc (ds +:+ rest) a = decimal_acc rest (a * 10 ^ Z.of_nat (String.length ds) + n).
Lemma dec_digit_printed d : 0 <= d < 10 -> digit_of (ascii_of_byte (if d <? 10 then 48 + d else 87 + d)) = Some d.
Proof.
  intros Hd. assert (d ∈ seqZ 0 10) as Hin by (apply elem_of_seqZ; lia).
  assert (forallb (fun d => bool_decide (digit_of (ascii_of_byte (if d <? 10 then 48 + d else 87 + d)) = Some d)) (seqZ 0 10) = true) as Hall by (vm_compute; reflexivity).
  rewrite forallb_forall in Hall. apply list_elem_of_In, Hall in Hin. by apply bool_decide_eq_true in Hin.
Qed.
Lemma dec_reads_digit d : 0 <= d < 10 -> dec_reads (String (ascii_of_byte (if d <? 10 then 48 + d else 87 + d)) "") d.
Proof.
  intros Hd rest a. change (String ?c "" +:+ rest) with (String c rest). cbn [decimal_acc]. rewrite dec_digit_printed by done.
  cbn [String.length]. by change (10 ^ Z.of_nat 1) with 10.
Qed.
Lemma dec_reads_app s t m n : dec_reads s m -> dec_reads t n -> dec_reads (s +:+ t) (m * 10 ^ Z.of_nat (String.length t) + n).
Proof. intros Hs Ht rest a. rewrite <- app_assoc_str, Hs, Ht, length_app_str, Nat2Z.inj_add, Z.pow_add_r by lia. f_equal. lia. Qed.
Lemma digits_dec f n : 0 <= n < 10 ^ (Z.of_nat f + 1) ->
  let ds := digits_acc f 10 false n "" in dec_reads ds n /\ hex_text ds /\ ds <> "".
Proof.
  revert n. induction f as [|f IH]; intros n Hn; cbn [digits_acc]; pose proof (Z.mod_pos_bound n 10 ltac:(lia)) as Hd.
  - change (10 ^ (Z.of_nat 0 + 1)) with 10 in Hn. rewrite Z.mod_small in * by lia. split_and!; [by apply dec_reads_digit | apply hex_text_digit; lia | done].
  - destruct (n <? 10) eqn:E; bool_prop.
    { rewrite Z.mod_small in * by lia. split_and!; [by apply dec_reads_digit | apply hex_text_digit; lia | done]. }
    rewrite digits_acc_app. rewrite Nat2Z.inj_succ in Hn. replace (Z.succ (Z.of_nat f) + 1) with (Z.succ (Z.of_nat f + 1)) in Hn by lia. rewrite Z.pow_succ_r in Hn by lia.
    destruct (IH (n / 10)) as (Hr & Ht & Hl); [split; [apply Z.div_pos; lia | apply Z.div_lt_upper_bound; lia] |]. split_and!.
    + pose proof (dec_reads_app _ _ _ _ Hr (dec_reads_digit _ Hd)) as Hra. cbn [String.length] in Hra. change (10 ^ Z.of_nat 1) with 10 in Hra.
      replace (n / 10 * 10 + n mod 10) with n in Hra by (rewrite (Z.mul_comm _ 10); apply Z.div_mod; lia). exact Hra.
    + apply hex_text_app; [done | apply hex_text_digit; lia].
    + by destruct (digits_acc f 10 false (n / 10) "").
Qed.
Lemma Itoa_spec n : 0 <= n -> dec_reads (Itoa n) n /\ hex_text (Itoa n) /\ Itoa n <> "".
Proof.
  intros Hn. unfold Itoa. rewrite (proj2 (Z.ltb_ge n 0)) by lia. apply digits_dec. split; [lia|]. rewrite Z2Nat.id by apply Z.log2_up_nonneg.
  destruct (Z.eq_dec n 0) as [->|]; [by apply Z.pow_pos_nonneg|]. destruct (Z.eq_dec n 1) as [->|]; [done|].
  apply (Z.le_lt_trans _ (2 ^ Z.log2_up n)); [apply Z.log2_up_spec; lia|].
  apply (Z.lt_le_trans _ (2 ^ (Z.log2_up n + 1))); [apply Z.pow_lt_mono_r; pose proof (Z.log2_up_nonneg n); lia|]. apply Z.pow_le_mono_l. lia.
Qed.
Lemma ParsePort_Itoa n : 0 <= n <= 65535 -> ParsePort (Itoa n) = Some n.
Proof.
  intros Hn. destruct (Itoa_spec n ltac:(lia)) as (Hr & _ & Hne). unfold ParsePort, decimal. apply is_empty_false in Hne. rewrite Hne.
  pose proof (Hr "" 0) as Hd. rewrite app_empty_r in Hd. rewrite Hd. cbn [decimal_acc bounded]. rewrite Z.mul_0_l, Z.add_0_l. by rewrite (proj2 (Z.leb_le n 65535)) by lia.
Qed.
Lemma Itoa_no c n : 0 <= n -> hex_digit_of c = None -> string_in c (Itoa n) = false.
Proof. intros Hn Hc. apply hex_text_no; [by apply Itoa_spec | done]. Qed.

(** ** Host and port *)

Lemma IndexByte_before s c i : IndexByte s c = Some i -> string_in c (stake i s) = false.
Proof.
  revert i. induction s as [|d s IH]; intros i; cbn; [done|]. case_bool_decide as Hd; [by intros [= <-]|].
  intros (j & Hj & ->)%fmap_Some. cbn. rewrite (IH j Hj). by rewrite bool_decide_eq_false_2.
Qed.

(** The host that is split off has no bracket. *)
Lemma SplitHostPort_host hostport h p : SplitHostPort hostport = Some (h, p) -> has_bracket h = false.
Proof.
  unfold SplitHostPort, has_bracket. destruct (LastIndexByte hostport ":") as [i|]; [|done]. destruct (HasPrefix hostport "[") eqn:Ep.
  - apply HasPrefix_spec in Ep as [t ->]. change ("[" +:+ t) with (String "[" t). change (sdrop 1 (String "[" t)) with t. cbn [IndexByte]. rewrite bool_decide_eq_false_2 by done.
    destruct (IndexByte t "]") as [e|] eqn:Ee; [|done]. cbn [fmap option_fmap option_map]. destruct (_ && negb (string_in "[" t) && _) eqn:E; [|done].
    intros [= <- _]. rewrite !andb_true_iff, !negb_true_iff in E. destruct E as [[_ Hl] _]. rewrite Nat.sub_0_r.
    by rewrite (string_in_stake _ e t Hl), (IndexByte_before _ _ _ Ee).
  - destruct (_ || string_in "]" hostport) eqn:E; [done|]. intros [= <- _]. apply orb_false_iff in E as [[_ Hl]%orb_false_iff Hr]. by rewrite !string_in_stake.
Qed.
Lemma SplitHostPort_brackets h p : has_bracket h = false -> string_in ":" p = false -> has_bracket p = false ->
  SplitHostPort ("[" +:+ h +:+ "]:" +:+ p) = Some (h, p).
Proof.
  unfold has_bracket, SplitHostPort. intros [Hl Hr]%orb_false_iff Hp [Hl' Hr']%orb_false_iff.
  change ("]:" +:+ p) with (("]" +:+ String ":" p)). rewrite !app_assoc_str. set (a := ("[" +:+ h) +:+ "]").
  rewrite LastIndexByte_app_sep by done. assert (HasPrefix (a +:+ String ":" p) "[" = true) as ->.
  { unfold a. rewrite <- !app_assoc_str. apply HasPrefix_app. }
  assert (IndexByte (a +:+ String ":" p) "]" = Some (S (String.length h))) as ->.
  { unfold a. rewrite <- app_assoc_str. change ("]" +:+ String ":" p) with (String "]" (String ":" p)). rewrite IndexByte_first; [done|]. cbn. by rewrite Hr. }
  assert (String.length a = S (S (String.length h))) as Hla by (unfold a; rewrite length_app_str, length_app_str; cbn; lia). rewrite Hla.
  assert (sdrop 1 (a +:+ String ":" p) = h +:+ ("]" +:+ String ":" p)) as -> by (unfold a; by rewrite <- !app_assoc_str).
  assert (sdrop (S (String.length h) + 1) (a +:+ String ":" p) = String ":" p) as ->.
  { replace (S (String.length h) + 1)%nat with (String.length a) by lia. apply sdrop_app_length. }
  replace (S (String.length h) + 1 =? S (S (String.length h)))%nat with true by (symmetry; apply Nat.eqb_eq; lia).
  rewrite string_in_app, Hl. change ("]" +:+ String ":" p) with (String "]" (String ":" p)). cbn [string_in orb]. rewrite Hl', Hr'.
  assert (forall (X : option (string * string)), (if true && negb (bool_decide ("["%char = "]"%char) || (bool_decide ("["%char = ":"%char) || false)) &&
    negb (bool_decide ("]"%char = ":"%char) || false) then X else None) = X) as -> by done.
  change (S (String.length h) - 1)%nat with (String.length h - 0)%nat. rewrite Nat.sub_0_r, stake_app_length.
  replace (S (S (String.length h)) + 1)%nat with (String.length (a +:+ ":")) by (rewrite length_app_str, Hla; done).
  change (String ":" p) with (":" +:+ p). by rewrite app_assoc_str, sdrop_app_length.
Qed.

(** [net.TCPAddr.String]: an IPv4-mapped address prints as IPv4. *)
Definition TCPAddr_String (ip : Addr) (port : Z) : string := JoinHostPort (Addr_String (Unmap ip)) (Itoa port).

Definition plain_zone (a : Addr) : Prop := has_bracket (Zone a) = false.
Lemma Unmap_wf a : addr_wf a -> addr_wf (Unmap a).
Proof. unfold Unmap. destruct (Is4In6 a); [|done]. intros _. apply land_ones32. Qed.
Lemma Unmap_zone a : plain_zone a -> plain_zone (Unmap a).
Proof. unfold Unmap, plain_zone. by destruct (Is4In6 a). Qed.
Lemma Addr_String_shape a : plain_zone a ->
  has_bracket (Addr_String a) = false /\ string_in ":" (Addr_String a) = Is6 a.
Proof.
  destruct a as [v|v zone]; cbn [Is6]; intros Hz.
  - change (Addr_String (Addr4 v)) with (dotted v). unfold has_bracket. by rewrite !dotted_no.
  - rewrite Addr6_String. unfold plain_zone, has_bracket in *. cbn [Zone] in Hz. apply orb_false_iff in Hz as [Hl Hr]. rewrite !string_in_app. split.
    + rewrite !body6_no by done. cbn [orb]. destruct (is_empty zone); [done|]. change ("%" +:+ zone) with (String "%" zone). cbn [string_in]. by rewrite Hl, Hr.
    + assert (string_in ":" (body6 v) = true) as ->; [|done]. destruct (string_in ":" (body6 v)) eqn:E; [done|].
      pose proof (body6_family v "") as Hf. rewrite app_empty_r in Hf. exfalso. clear -E Hf. induction (body6 v) as [|c s IH]; [done|].
      cbn in E. apply orb_false_iff in E as [Hc Hs]. apply bool_decide_eq_false in Hc. cbn [addr_family] in Hf. destruct (string_in c ".:%"); [congruence|]. by apply IH.
Qed.
Lemma SplitHostPort_JoinHostPort h p : has_bracket h = false -> string_in ":" p = false -> has_bracket p = false -> SplitHostPort (JoinHostPort h p) = Some (h, p).
Proof.
  intros Hh Hc Hp. unfold JoinHostPort. destruct (string_in ":" h) eqn:E; [by apply SplitHostPort_brackets | by apply SplitHostPort_plain].
Qed.
Lemma Itoa_plain n : 0 <= n -> string_in ":" (Itoa n) = false /\ has_bracket (Itoa n) = false.
Proof. intros Hn. unfold has_bracket. by rewrite !Itoa_no. Qed.

(** The address in the text a dialer hands to its control function is the
    address it connects to. *)
Lemma TCPAddr_host ip port : addr_wf ip -> plain_zone ip -> 0 <= port ->
  exists h p, SplitHostPort (TCPAddr_String ip port) = Some (h, p) /\ ParseAddr h = Some (Unmap ip).
Proof.
  intros Hw Hz Hp. destruct (Addr_String_shape _ (Unmap_zone _ Hz)) as [Hb _]. destruct (Itoa_plain port Hp) as [Hc Hb'].
  exists (Addr_String (Unmap ip)), (Itoa port). split; [by apply SplitHostPort_JoinHostPort|]. by apply ParseAddr_String, Unmap_wf.
Qed.
Lemma TCPAddr_ParseAddrPort ip port : addr_wf ip -> plain_zone ip -> 0 <= port <= 65535 ->
  ParseAddrPort (TCPAddr_String ip port) = Some (Unmap ip).
Proof.
  intros Hw Hz Hp. destruct (Addr_String_shape _ (Unmap_zone _ Hz)) as [Hb Hc]. destruct (Itoa_plain port ltac:(lia)) as [Hcp _].
  pose proof (ParseAddr_String _ (Unmap_wf _ Hw)) as Hparse. unfold ParseAddrPort, TCPAddr_String, JoinHostPort. rewrite Hc.
  set (h := Addr_String (Unmap ip)) in *.
  assert (forall a, LastIndexByte (a +:+ ":" +:+ Itoa port) ":" = Some (String.length a) /\ stake (String.length a) (a +:+ ":" +:+ Itoa port) = a /\
                    sdrop (String.length a + 1) (a +:+ ":" +:+ Itoa port) = Itoa port) as Ha.
  { intros a. split_and!; [by apply LastIndexByte_app_sep | apply stake_app_length |].
    replace (String.length a + 1)%nat with (String.length (a +:+ ":")) by (rewrite length_app_str; done). by rewrite app_assoc_str, sdrop_app_length. }
  destruct (Is6 (Unmap ip)) eqn:E6.
  - change ("]:" +:+ Itoa port) with ("]" +:+ (":" +:+ Itoa port)). rewrite !app_assoc_str, <- (app_assoc_str _ ":").
    destruct (Ha (("[" +:+ h) +:+ "]")) as (-> & -> & ->). rewrite ParsePort_Itoa by done. unfold strip_brackets.
    assert (HasPrefix (("[" +:+ h) +:+ "]") "[" = true) as -> by (rewrite <- app_assoc_str; apply HasPrefix_app).
    assert (HasSuffix (("[" +:+ h) +:+ "]") "]" = true) as -> by (apply HasSuffix_spec; by exists ("[" +:+ h)).
    rewrite !length_app_str. cbn [String.length]. replace (1 <? 1 + String.length h + 1)%nat with true by (symmetry; apply Nat.ltb_lt; lia). cbn [andb].
    assert (sdrop 1 (("[" +:+ h) +:+ "]") = h +:+ "]") as -> by done. replace (1 + String.length h + 1 - 2)%nat with (String.length h) by lia.
    rewrite stake_app_length, Hparse, E6. done.
  - destruct (Ha h) as (-> & -> & ->). rewrite ParsePort_Itoa by done. unfold strip_brackets.
    assert (HasPrefix h "[" = false) as ->; [|by rewrite Hparse, E6].
    unfold has_bracket in Hb. apply orb_false_iff in Hb as [Hl _]. apply not_true_iff_false. intros [u ->]%HasPrefix_spec. done.
Qed.
