(* ===== verification/Body.v ===== *)
(** * Buffered bodies (internal/transform/body.go)

    [BufferedBody] wraps an upstream reader with lazy, all-or-nothing
    buffering.  The proxy relies on it twice: every transform re-reads the
    same bytes after a [Reset], and a body no transform reads is streamed
    without a copy. *)
From stdpp Require Import base gmap strings list option.
From Stdlib Require Import ZArith Lia.
From S2P Require Import Prelude GoUtf8.
Local Open Scope Z_scope.

(** An upstream [io.ReadCloser]: the bytes it still delivers, and the error it
    ends with ([None] is a clean end of file). *)
Record Reader := mkReader { rd_data : list Z; rd_err : option string }.

#[global] Instance Reader_eq_dec : EqDecision Reader.
Proof. solve_decision. Defined.

Definition empty_reader : Reader := mkReader [] None.

(** [io.ReadAll(io.LimitReader(r, n))]: an error behind the limit is not
    reached. *)
Definition limit_reader (n : Z) (r : Reader) : Reader :=
  if Z.of_nat (length (rd_data r)) <? n then r
  else mkReader (take (Z.to_nat n) (rd_data r)) None.

Module BufferedBody.

Record t := mk {
  once : bool;               (* the sync.Once has fired *)
  original : option Reader;  (* nil once consumed or handed out *)
  data : list Z;
  pos : nat;
  maxBytes : Z;
}.

#[global] Instance eq_dec : EqDecision t.
Proof. solve_decision. Defined.

(** [NewBufferedBody]; a nil body is an empty one. *)
Definition NewBufferedBody (body : option Reader) (maxBytes : Z) : t :=
  mk false (Some (default empty_reader body)) [] 0 maxBytes.

Definition NewBufferedBodyFromBytes (data : list Z) : t :=
  mk true None data 0 0.

(** What reading can give: bytes, the end of the body, the error of the
    upstream reader, or the run-time panic of reading through a nil reader. *)
Inductive outcome :=
  | GotBytes (b : list Z)
  | GotEOF
  | GotErr (e : string)
  | Panics.

(** [buffer]: runs once; reads the original through the limit and drops it.
    [None] is the panic of [io.ReadAll] on a nil reader. *)
Definition buffer (b : t) : option (option string * t) :=
  if once b then Some (None, b)
  else match original b with
       | None => None
       | Some r =>
         let r := if 0 <? maxBytes b then limit_reader (maxBytes b) r else r in
         Some (rd_err r, mk true None (rd_data r) (pos b) (maxBytes b))
       end.

(** [Read] into a buffer of [n] bytes. *)
Definition Read (n : nat) (b : t) : outcome * t :=
  match buffer b with
  | None => (Panics, b)
  | Some (Some e, b') => (GotErr e, b')
  | Some (None, b') =>
    if (length (data b') <=? pos b')%nat then (GotEOF, b')
    else
      let out := take n (drop (pos b') (data b')) in
      (GotBytes out, mk (once b') (original b') (data b') (pos b' + length out) (maxBytes b'))
  end.

(** [io.ReadAll(b)]: the bytes up to the end, or the error. *)
Definition ReadAll (b : t) : outcome * t :=
  match buffer b with
  | None => (Panics, b)
  | Some (Some e, b') => (GotErr e, b')
  | Some (None, b') =>
    (GotBytes (drop (pos b') (data b')),
     mk (once b') (original b') (data b') (Nat.max (pos b') (length (data b'))) (maxBytes b'))
  end.

Definition Reset (b : t) : t := mk (once b) (original b) (data b) 0 (maxBytes b).

(** [StreamingReader]: the original when it is still there, else a reader over
    the buffer from the current position. *)
Definition StreamingReader (b : t) : Reader * t :=
  match original b with
  | Some r => (r, mk (once b) None (data b) (pos b) (maxBytes b))
  | None => (mkReader (drop (pos b) (data b)) None, b)
  end.

(** [Len]: -1 when the body is not buffered. *)
Definition Len (b : t) : Z :=
  match original b with
  | Some _ => -1
  | None => Z.of_nat (length (data b))
  end.

Definition Close (b : t) : t :=
  match original b with
  | Some _ => mk (once b) None (data b) (pos b) (maxBytes b)
  | None => b
  end.

(** ** Invariant

    Before the buffer is filled nothing was read, and once it is filled the
    original is gone; the position never passes the end of the data. *)
Definition wf (b : t) : Prop :=
  (pos b <= length (data b))%nat /\
  if once b then original b = None else data b = [].

(** The bytes a transform can see: what is buffered, or what buffering will
    give; [None] when the original was handed out unread. *)
Definition limited (max : Z) (r : Reader) : Reader :=
  if 0 <? max then limit_reader max r else r.
Definition view (b : t) : option (list Z * option string) :=
  if once b then Some (data b, None)
  else match original b with
       | Some r => Some (rd_data (limited (maxBytes b) r), rd_err (limited (maxBytes b) r))
       | None => None
       end.

Lemma wf_New body max : wf (NewBufferedBody body max).
Proof. done. Qed.
Lemma wf_FromBytes d : wf (NewBufferedBodyFromBytes d).
Proof. split; simpl; [lia | done]. Qed.

Lemma buffer_wf b e b' : wf b -> buffer b = Some (e, b') -> wf b' /\ once b' = true.
Proof.
  intros [Hp Ho] Hb. unfold buffer in Hb.
  destruct (once b) eqn:E; simplify_eq; [unfold wf; by rewrite E|].
  destruct (original b); simplify_eq. rewrite Ho in Hp. simpl in Hp.
  by split; [split; simpl; [lia|]|].
Qed.

Lemma Read_wf n b : wf b -> wf (Read n b).2.
Proof.
  intros Hwf. unfold Read. destruct (buffer b) as [[[e|] b']|] eqn:E; try done.
  - by eapply buffer_wf.
  - apply buffer_wf in E as [Hwf' E]; [|done].
    case_match; [done|]. destruct Hwf' as [Hp Ho]. bool_prop. split; simpl; [|done].
    rewrite length_take, length_drop. lia.
Qed.

Lemma Reset_wf b : wf b -> wf (Reset b).
Proof. intros [? ?]. split; simpl; [lia | done]. Qed.

Lemma StreamingReader_wf b : wf b -> wf (StreamingReader b).2.
Proof.
  intros Hwf. unfold StreamingReader. destruct (original b) eqn:E; [|done].
  destruct Hwf as [? ?]. split; simpl; [done|]. by destruct (once b).
Qed.

(** ** Reading and replaying *)

Lemma buffer_view b d :
  view b = Some (d, None) ->
  exists b', buffer b = Some (None, b') /\ data b' = d /\ pos b' = pos b /\
             once b' = true /\ view b' = Some (d, None).
Proof.
  unfold view, buffer. destruct (once b) eqn:E.
  - intros [= <-]. exists b. by rewrite E.
  - destruct (original b) as [r|]; [|done]. fold (limited (maxBytes b) r).
    intros [= Hd He]. rewrite He. eexists. split; [done|]. simpl. by rewrite Hd.
Qed.

(** What a transform may do to a body while it only reads it. *)
Inductive op := ORead (n : nat) | OReadAll | OReset.
Definition step (b : t) (o : op) : t :=
  match o with
  | ORead n => (Read n b).2
  | OReadAll => (ReadAll b).2
  | OReset => Reset b
  end.
Definition run (b : t) (ops : list op) : t := foldl step b ops.

Lemma step_view b o d : view b = Some (d, None) -> view (step b o) = Some (d, None).
Proof.
  intros Hv. destruct o as [n| |]; simpl; [| |done];
    destruct (buffer_view b d Hv) as (b' & Hb & Hd & Hp & Ho & Hv');
    unfold Read, ReadAll; rewrite Hb; [case_match; [done|]|];
    unfold view in *; simpl; by rewrite Ho in *.
Qed.

Lemma step_wf b o : wf b -> wf (step b o).
Proof.
  intros Hwf. destruct o as [n| |]; simpl; [by apply Read_wf| |by apply Reset_wf].
  unfold ReadAll. destruct (buffer b) as [[[e|] b']|] eqn:E; simpl; [by eapply buffer_wf| |done].
  apply buffer_wf in E as [[Hp Ho] E]; [|done]. split; simpl; [lia|done].
Qed.

Lemma step_once b o : once b = true -> once (step b o) = true.
Proof.
  intros Ho. destruct o as [n| |]; simpl; [| |done];
    unfold Read, ReadAll, buffer; rewrite Ho; simpl; [by case_match|done].
Qed.

Lemma step_buffers b o d :
  view b = Some (d, None) -> o <> OReset -> once (step b o) = true.
Proof.
  intros Hv Hne. destruct (buffer_view b d Hv) as (b' & Hb & Hd & Hp & Ho & _).
  destruct o as [n| |]; [| |done]; simpl; unfold Read, ReadAll; rewrite Hb; [by case_match|done].
Qed.

Lemma run_view b ops d : view b = Some (d, None) -> view (run b ops) = Some (d, None).
Proof. revert b. induction ops as [|o ops IH]; intros b Hv; simpl; auto using step_view. Qed.

Lemma ReadAll_view b d :
  view b = Some (d, None) -> (ReadAll b).1 = GotBytes (drop (pos b) d).
Proof.
  intros Hv. destruct (buffer_view b d Hv) as (b' & Hb & Hd & Hp & _).
  unfold ReadAll. rewrite Hb. simpl. by rewrite Hd, Hp.
Qed.

(** The loop a caller of [Read] runs with buffers of [n] bytes. *)
Fixpoint read_loop (fuel n : nat) (b : t) : option (list Z) :=
  match fuel with
  | O => None
  | S fuel' =>
    match Read n b with
    | (GotEOF, _) => Some []
    | (GotBytes out, b') => (out ++.) <$> read_loop fuel' n b'
    | _ => None
    end
  end.

Lemma Read_view n b d :
  view b = Some (d, None) ->
  (length d <= pos b)%nat /\ (Read n b).1 = GotEOF \/
  (pos b < length d)%nat /\ exists b', Read n b = (GotBytes (take n (drop (pos b) d)), b') /\
    view b' = Some (d, None) /\ pos b' = (pos b + length (take n (drop (pos b) d)))%nat.
Proof.
  intros Hv. destruct (buffer_view b d Hv) as (b' & Hb & Hd & Hp & Ho & Hv').
  unfold Read. rewrite Hb, Hd, Hp. destruct (length d <=? pos b)%nat eqn:E; bool_prop.
  - by left.
  - right. split; [done|]. eexists. split; [done|]. simpl. split; [|done].
    unfold view. simpl. by rewrite Ho.
Qed.

Lemma read_loop_view fuel n b d :
  (0 < n)%nat -> view b = Some (d, None) -> (length d - pos b < fuel)%nat ->
  read_loop fuel n b = Some (drop (pos b) d).
Proof.
  intros Hn. revert b. induction fuel as [|fuel IH]; intros b Hv Hf; [lia|].
  simpl. destruct (Read_view n b d Hv) as [[Hl HR]|(Hl & b' & HR & Hv' & Hp')].
  - destruct (Read n b). simpl in HR. subst. by rewrite drop_ge.
  - rewrite HR. rewrite length_take, length_drop in Hp'. rewrite IH by (done || lia).
    simpl. f_equal. rewrite <- (take_drop n (drop (pos b) d)) at 2. f_equal.
    rewrite drop_drop, Hp'. destruct (decide (n <= length d - pos b)%nat).
    + f_equal. lia.
    + rewrite !drop_ge by lia. done.
Qed.

End BufferedBody.

(** Reading never loses or reorders bytes.  Whatever mixture of partial
    reads, full reads and resets the transforms before it performed, a reader
    that starts after a [Reset] and reads with any non-empty buffer until end
    of file obtains exactly the bytes of the body, cut at [maxBytes] when a
    limit is set. *)
Theorem buffered_body_replay r max ops n :
  rd_err r = None -> (0 < n)%nat ->
  let b := BufferedBody.NewBufferedBody (Some r) max in
  let b' := BufferedBody.Reset (BufferedBody.run b ops) in
  BufferedBody.read_loop (S (length (rd_data r))) n b' = Some (rd_data (BufferedBody.limited max r))
  /\ fst (BufferedBody.ReadAll b') = BufferedBody.GotBytes (rd_data (BufferedBody.limited max r)).
Proof.
  intros He Hn b b'.
  set (d := rd_data (BufferedBody.limited max r)).
  assert (length d <= length (rd_data r))%nat as Hlen.
  { subst d. unfold BufferedBody.limited, limit_reader. repeat case_match; simpl; [lia| |lia].
    rewrite length_take. lia. }
  assert (BufferedBody.view b' = Some (d, None)) as Hv.
  { subst b'. change (BufferedBody.Reset ?x) with (BufferedBody.step x BufferedBody.OReset).
    apply BufferedBody.step_view, BufferedBody.run_view. subst b d. unfold BufferedBody.view. simpl.
    do 2 f_equal. unfold BufferedBody.limited, limit_reader. by repeat case_match. }
  split.
  - rewrite (BufferedBody.read_loop_view _ _ _ d) by (done || simpl; lia). by rewrite drop_0.
  - rewrite (BufferedBody.ReadAll_view _ d) by done. by rewrite drop_0.
Qed.

Lemma buffered_body_replay_witness :
  let b := BufferedBody.NewBufferedBody (Some (mkReader [1; 2; 3; 4; 5] None)) 4 in
  let ops := [BufferedBody.ORead 3; BufferedBody.OReadAll; BufferedBody.OReset; BufferedBody.ORead 1] in
  BufferedBody.read_loop 6 2 (BufferedBody.Reset (BufferedBody.run b ops)) = Some [1; 2; 3; 4].
Proof.
  exact (proj1 (buffered_body_replay (mkReader [1; 2; 3; 4; 5] None) 4
    [BufferedBody.ORead 3; BufferedBody.OReadAll; BufferedBody.OReset; BufferedBody.ORead 1] 2
    eq_refl ltac:(lia))).
Defined.

(** What is forwarded.  A body no transform read is streamed from the
    upstream reader itself, whole, whatever the limit; a body some transform
    read (and the pipeline rewound) is forwarded from the buffer, so it is cut
    at [maxBytes]. *)
Theorem streaming_reader_forwards r max ops :
  rd_err r = None ->
  let b := BufferedBody.NewBufferedBody (Some r) max in
  fst (BufferedBody.StreamingReader (BufferedBody.Reset b)) = r /\
  (Exists (fun o => o <> BufferedBody.OReset) ops ->
   fst (BufferedBody.StreamingReader (BufferedBody.Reset (BufferedBody.run b ops)))
   = mkReader (rd_data (BufferedBody.limited max r)) None).
Proof.
  intros He b. split; [done|]. intros Hex.
  assert (rd_err (BufferedBody.limited max r) = None) as Hle.
  { unfold BufferedBody.limited, limit_reader. by repeat case_match. }
  assert (BufferedBody.view b = Some (rd_data (BufferedBody.limited max r), None)) as Hv.
  { unfold BufferedBody.view. simpl. by rewrite Hle. }
  assert (forall b0, BufferedBody.wf b0 -> BufferedBody.view b0 = BufferedBody.view b ->
            BufferedBody.once b0 = true \/ Exists (fun o => o <> BufferedBody.OReset) ops ->
            let b1 := BufferedBody.run b0 ops in
            BufferedBody.once b1 = true /\ BufferedBody.original b1 = None /\
            BufferedBody.data b1 = rd_data (BufferedBody.limited max r)) as Hrun.
  { clear Hex. induction ops as [|o ops IH]; intros b0 Hwf Hv0 Hor.
    - destruct Hor as [Ho|Ho]; [|by inversion Ho]. destruct Hwf as [_ Hwf].
      rewrite Ho in Hwf. rewrite Hv in Hv0. unfold BufferedBody.view in Hv0.
      rewrite Ho in Hv0. by simplify_eq.
    - simpl. apply IH.
      + by apply BufferedBody.step_wf.
      + rewrite Hv in *. by apply BufferedBody.step_view.
      + destruct Hor as [Ho|Ho]; [left; by apply BufferedBody.step_once|].
        inversion Ho as [? ? Hne|]; subst; [left | by right].
        rewrite Hv in Hv0. by apply (BufferedBody.step_buffers b0 o _ Hv0). }
  destruct (Hrun b) as (H1 & H2 & H3); [done|done|by right|].
  unfold BufferedBody.StreamingReader. simpl. by rewrite H2, drop_0, H3.
Qed.

Lemma streaming_reader_forwards_witness :
  let b := BufferedBody.NewBufferedBody (Some (mkReader [1; 2; 3] None)) 2 in
  fst (BufferedBody.StreamingReader (BufferedBody.Reset b)) = mkReader [1; 2; 3] None.
Proof. exact (proj1 (streaming_reader_forwards (mkReader [1; 2; 3] None) 2 [] eq_refl)). Defined.

(** A read error surfaces exactly once.  The first read of a body whose
    upstream fails reports the error; after the pipeline's [Reset], the next
    reader and the forwarded stream see the bytes read so far as a complete
    body. *)
Theorem read_error_reported_once r e n :
  rd_err r = Some e -> (0 < n)%nat ->
  let b := BufferedBody.NewBufferedBody (Some r) 0 in
  let b' := BufferedBody.Reset (snd (BufferedBody.Read n b)) in
  fst (BufferedBody.Read n b) = BufferedBody.GotErr e /\
  fst (BufferedBody.ReadAll b') = BufferedBody.GotBytes (rd_data r) /\
  fst (BufferedBody.StreamingReader b') = mkReader (rd_data r) None.
Proof.
  intros He Hn b b'. subst b b'. unfold BufferedBody.Read, BufferedBody.buffer. simpl.
  rewrite He. simpl. repeat split; by rewrite ?drop_0.
Qed.

Lemma read_error_reported_once_witness :
  let b := BufferedBody.NewBufferedBody (Some (mkReader [7; 8] (Some "reset"%string))) 0 in
  fst (BufferedBody.StreamingReader (BufferedBody.Reset (snd (BufferedBody.Read 4 b))))
  = mkReader [7; 8] None.
Proof.
  exact (proj2 (proj2 (read_error_reported_once (mkReader [7; 8] (Some "reset"%string))
    "reset"%string 4 eq_refl ltac:(lia)))).
Defined.
