(* ===== verification/GoHttp.v ===== *)
(** * Go's [net/http] and [net/url] as the sources use them

    Header maps with their canonical keys, URL paths and queries, and the
    request and response records the components pass around. *)
From stdpp Require Import base gmap strings list option sorting.
From Stdlib Require Import ZArith Lia Ascii.
From S2P Require Import Prelude GoUtf8 GoStrings GoNet Body.
Local Open Scope string_scope.
Local Open Scope list_scope.
Local Open Scope Z_scope.

(** ** Iteration over maps

    Go visits the entries of a map in an unspecified order.  Code that ranges
    over a map is modelled with an order it does not choose: any instance of
    [MapRange] is one, and theorems hold for all of them. *)
Class MapRange := {
  map_range : forall V : Type, gmap string V -> list (string * V);
  map_range_perm : forall (V : Type) (m : gmap string V), map_range V m ≡ₚ map_to_list m;
}.
Arguments map_range {_ V} m.
Arguments map_range_perm {_ V} m.

Definition default_range : MapRange := {|
  map_range V m := map_to_list m;
  map_range_perm V m := Permutation_refl (map_to_list m);
|}.

Lemma map_range_lookup `{MapRange} {V} (m : gmap string V) k v :
  (k, v) ∈ map_range m <-> m !! k = Some v.
Proof. rewrite map_range_perm. apply elem_of_map_to_list. Qed.

(** ** Header keys *)

(** [httpguts]/[textproto] token bytes. *)
Definition is_token_byte (b : Z) : bool :=
  is_digit_ascii b || is_upper_ascii b || is_lower_ascii b
  || string_in (ascii_of_byte b) "!#$%&'*+-.^_`|~".

(** [httpguts.ValidHeaderFieldName]. *)
Definition ValidHeaderFieldName (s : string) : bool :=
  negb (is_empty s) && forallb is_token_byte (bytes_of_string s).

(** [httpguts.ValidHeaderFieldValue]: no control byte except tab. *)
Definition ValidHeaderFieldValue (s : string) : bool :=
  forallb (fun b => negb (((b <? 32) && negb (b =? 9)) || (b =? 127))) (bytes_of_string s).

Definition lower_byte (b : Z) : Z := if is_upper_ascii b then b + 32 else b.
Definition upper_byte (b : Z) : Z := if is_lower_ascii b then b - 32 else b.

Fixpoint canonical_bytes (upper : bool) (s : list Z) : list Z :=
  match s with
  | [] => []
  | b :: s' => (if upper then upper_byte b else lower_byte b) :: canonical_bytes (b =? 45) s'
  end.

(** [http.CanonicalHeaderKey]: a key with a byte outside the token set is left
    as it is. *)
Definition CanonicalHeaderKey (s : string) : string :=
  if forallb is_token_byte (bytes_of_string s)
  then string_of_bytes (canonical_bytes true (bytes_of_string s))
  else s.

(** ** http.Header *)

Abbreviation Header := (gmap string (list string)).

Definition raw_values (h : Header) (k : string) : list string := default [] (h !! k).
Definition header_Values (h : Header) (k : string) : list string := raw_values h (CanonicalHeaderKey k).
Definition header_Get (h : Header) (k : string) : string := default "" (head (header_Values h k)).
Definition header_Set (h : Header) (k v : string) : Header := <[CanonicalHeaderKey k := [v]]> h.
Definition header_Del (h : Header) (k : string) : Header := delete (CanonicalHeaderKey k) h.

(** ** net/url *)

Definition hex_upper (d : Z) : Z := if d <? 10 then 48 + d else 55 + d.
Definition percent (b : Z) : list Z := [37; hex_upper (Z.shiftr b 4); hex_upper (Z.land b 15)].

Definition is_unreserved (b : Z) : bool :=
  is_digit_ascii b || is_upper_ascii b || is_lower_ascii b || string_in (ascii_of_byte b) "-_.~".

(** [shouldEscape] for a path and for a query component. *)
Definition should_escape_path (b : Z) : bool :=
  negb (is_unreserved b || string_in (ascii_of_byte b) "$&+,/:;=@").
Definition should_escape_query (b : Z) : bool := negb (is_unreserved b).

Definition escape_path (s : string) : string :=
  string_of_bytes (concat (map (fun b => if should_escape_path b then percent b else [b])
                               (bytes_of_string s))).
Definition QueryEscape (s : string) : string :=
  string_of_bytes (concat (map (fun b => if b =? 32 then [43]
                                         else if should_escape_query b then percent b else [b])
                               (bytes_of_string s))).

Definition hex_byte_value (b : Z) : option Z := hex_digit_of (ascii_of_byte b).

(** [unescape]: [None] is a malformed escape.  [plus] turns [+] into a space,
    as query components do. *)
Fixpoint unescape_bytes (plus : bool) (s : list Z) : option (list Z) :=
  match s with
  | [] => Some []
  | b :: s1 =>
    if b =? 37 then
      match s1 with
      | h :: l :: s2 =>
        match hex_byte_value h, hex_byte_value l with
        | Some x, Some y => (cons (x * 16 + y)) <$> unescape_bytes plus s2
        | _, _ => None
        end
      | _ => None
      end
    else (cons (if plus && (b =? 43) then 32 else b)) <$> unescape_bytes plus s1
  end.
Definition QueryUnescape (s : string) : option string :=
  string_of_bytes <$> unescape_bytes true (bytes_of_string s).
Definition PathUnescape (s : string) : option string :=
  string_of_bytes <$> unescape_bytes false (bytes_of_string s).

Definition validEncoded (s : string) : bool :=
  forallb (fun b => string_in (ascii_of_byte b) "!$&'()*+,;=:@[]%" || negb (should_escape_path b))
          (bytes_of_string s).

Record URL := mkURL {
  Scheme : string;
  UserInfo : option string;
  URLHost : string;
  Path : string;
  RawPath : string;
  RawQuery : string;
}.

#[global] Instance URL_eq_dec : EqDecision URL.
Proof. solve_decision. Defined.

(** [URL.EscapedPath]. *)
Definition EscapedPath (u : URL) : string :=
  if negb (is_empty (RawPath u)) && validEncoded (RawPath u)
     && bool_decide (PathUnescape (RawPath u) = Some (Path u))
  then RawPath u
  else if str_eqb (Path u) "*" then "*"
  else escape_path (Path u).

(** [url.ParseQuery]: the values per key and whether a part was malformed. *)
Definition cut_or (s sep : string) : string * string := default (s, "") (Cut s sep).
Definition parse_query_part (m : gmap string (list string) * bool) (part : string)
    : gmap string (list string) * bool :=
  let '(vals, bad) := m in
  if string_in ";"%char part then (vals, true)
  else if is_empty part then m
  else
    let '(k, v) := cut_or part "=" in
    match QueryUnescape k, QueryUnescape v with
    | Some k, Some v => (<[k := default [] (vals !! k) ++ [v]]> vals, bad)
    | _, _ => (vals, true)
    end.
Definition ParseQuery (q : string) : gmap string (list string) * bool :=
  if is_empty q then (∅, false) else foldl parse_query_part (∅, false) (Split q "&"%char).

(** [Values.Encode]: sorted by key. *)
Definition sorted_keys {V} (m : gmap string V) : list string :=
  merge_sort String.le (map fst (map_to_list m)).
Definition EncodeValues (m : gmap string (list string)) : string :=
  Join (concat (map (fun k => map (fun v => QueryEscape k +:+ "=" +:+ QueryEscape v)
                                  (default [] (m !! k))) (sorted_keys m))) "&".

(** ** Requests and responses *)

Record Request := mkRequest {
  Method : string;
  ReqHost : string;
  ReqURL : URL;
  ReqHeader : Header;
  ReqBody : BufferedBody.t;
  ReqContentLength : Z;
  ReqTLS : bool;          (* req.TLS != nil *)
}.

Record Response := mkResponse {
  StatusCode : Z;
  RespHeader : Header;
  RespBody : BufferedBody.t;
  RespContentLength : Z;
}.

Definition set_ReqHeader (r : Request) (h : Header) : Request :=
  mkRequest (Method r) (ReqHost r) (ReqURL r) h (ReqBody r) (ReqContentLength r) (ReqTLS r).
Definition set_ReqBody (r : Request) (b : BufferedBody.t) : Request :=
  mkRequest (Method r) (ReqHost r) (ReqURL r) (ReqHeader r) b (ReqContentLength r) (ReqTLS r).
Definition set_ReqURL (r : Request) (u : URL) : Request :=
  mkRequest (Method r) (ReqHost r) u (ReqHeader r) (ReqBody r) (ReqContentLength r) (ReqTLS r).
Definition set_RespBody (r : Response) (b : BufferedBody.t) : Response :=
  mkResponse (StatusCode r) (RespHeader r) b (RespContentLength r).

Example CanonicalHeaderKey_ex :
  CanonicalHeaderKey "x-api-KEY" = "X-Api-Key" /\ CanonicalHeaderKey "x api" = "x api".
Proof. vm_compute. done. Qed.
Example EscapedPath_ex :
  EscapedPath (mkURL "" None "" "/a b;c" "" "") = "/a%20b;c"
  /\ EscapedPath (mkURL "" None "" "/a/b" "/a%2Fb" "") = "/a%2Fb".
Proof. vm_compute. done. Qed.
Example Query_ex :
  EncodeValues (fst (ParseQuery "b=2&a=x+y&b=%26")) = "a=x+y&b=2&b=%26".
Proof. vm_compute. done. Qed.

(** ** Facts *)

Lemma lower_upper_byte b : lower_byte (upper_byte b) = lower_byte b.
Proof.
  unfold lower_byte, upper_byte, is_lower_ascii, is_upper_ascii, in_range. z_cases.
Qed.
Lemma upper_lower_byte b : upper_byte (lower_byte b) = upper_byte b.
Proof.
  unfold lower_byte, upper_byte, is_lower_ascii, is_upper_ascii, in_range. z_cases.
Qed.
Lemma lower_lower_byte b : lower_byte (lower_byte b) = lower_byte b.
Proof.
  unfold lower_byte, is_upper_ascii, in_range. z_cases.
Qed.
Lemma upper_upper_byte b : upper_byte (upper_byte b) = upper_byte b.
Proof.
  unfold upper_byte, is_lower_ascii, in_range. z_cases.
Qed.

Lemma canonical_bytes_idem up s : canonical_bytes up (canonical_bytes up s) = canonical_bytes up s.
Proof.
  revert up. induction s as [|b s IH]; intros up; simpl; [done|].
  assert (forall f, f = upper_byte \/ f = lower_byte -> (f b =? 45) = (b =? 45)) as Hdash.
  { intros f [-> | ->]; unfold upper_byte, lower_byte, is_upper_ascii, is_lower_ascii, in_range; z_cases. }
  destruct up; rewrite Hdash by auto; rewrite IH; f_equal;
    [apply upper_upper_byte | apply lower_lower_byte].
Qed.

Lemma token_case b : is_token_byte b = true -> is_token_byte (upper_byte b) = true /\ is_token_byte (lower_byte b) = true.
Proof.
  intros Hb. unfold upper_byte, lower_byte. split.
  - destruct (is_lower_ascii b) eqn:Hl; [|done]. unfold is_token_byte. replace (is_upper_ascii (b - 32)) with true; [by rewrite orb_true_r|].
    symmetry. unfold is_lower_ascii, is_upper_ascii, in_range in *. apply andb_true_iff in Hl as [H1%Z.leb_le H2%Z.leb_le].
    apply andb_true_iff. rewrite !Z.leb_le. lia.
  - destruct (is_upper_ascii b) eqn:Hl; [|done]. unfold is_token_byte. replace (is_lower_ascii (b + 32)) with true; [by rewrite !orb_true_r|].
    symmetry. unfold is_lower_ascii, is_upper_ascii, in_range in *. apply andb_true_iff in Hl as [H1%Z.leb_le H2%Z.leb_le].
    apply andb_true_iff. rewrite !Z.leb_le. lia.
Qed.

Lemma canonical_bytes_token up l : forallb is_token_byte l = true -> forallb is_token_byte (canonical_bytes up l) = true.
Proof.
  revert up. induction l as [|b l IH]; intros up; [done|]. cbn [forallb canonical_bytes]. rewrite !andb_true_iff.
  intros [Hb Hl]. split; [destruct up; by apply token_case | by apply IH].
Qed.

Lemma canonical_bytes_range up l : Forall is_byte l -> Forall is_byte (canonical_bytes up l).
Proof.
  intros Hl. revert up. induction Hl as [|b l Hb _ IH]; intros up; [constructor|]. cbn [canonical_bytes]. constructor; [|apply IH].
  destruct Hb as [? ?]. unfold is_byte, upper_byte, lower_byte, is_lower_ascii, is_upper_ascii, in_range.
  destruct up; destruct (_ && _) eqn:Hc; try lia; apply andb_true_iff in Hc as [H1%Z.leb_le H2%Z.leb_le]; lia.
Qed.

(** Canonical keys are canonical. *)
Lemma CanonicalHeaderKey_idem s : CanonicalHeaderKey (CanonicalHeaderKey s) = CanonicalHeaderKey s.
Proof.
  unfold CanonicalHeaderKey at 2 3. destruct (forallb is_token_byte (bytes_of_string s)) eqn:Ht.
  - unfold CanonicalHeaderKey. rewrite bytes_of_string_of_bytes by (apply canonical_bytes_range, bytes_of_string_range).
    by rewrite canonical_bytes_token, canonical_bytes_idem.
  - unfold CanonicalHeaderKey. by rewrite Ht.
Qed.
