(* ===== verification/GoJson.v ===== *)
(** * Dynamic values and [encoding/json]

    Go's [any] as the sources use it (YAML- and JSON-decoded values and audit
    annotations), float64 numbers, and the string encoder of
    [encoding/json]. *)
From stdpp Require Import base gmap strings list option.
From Stdlib Require Import ZArith Lia Ascii.
From Stdlib Require Import SpecFloat.
From S2P Require Import Prelude GoUtf8 GoStrings GoNet.
Local Open Scope string_scope.
Local Open Scope list_scope.
Local Open Scope Z_scope.

(** ** float64 *)

Definition float64 := spec_float.
(** [float64(n)] for an integer: rounded to 53 bits, to nearest even. *)
Definition float64_of_Z (n : Z) : float64 := binary_normalize 53 1024 n 0 false.
Definition float64_eqb (a b : float64) : bool := SFeqb a b.
Definition float64_leb (a b : float64) : bool := SFleb a b.

(** ** Dynamic values

    A value of type [any].  The integer kinds are those YAML decodes to; JSON
    decodes every number to a float64.  A map is its list of entries, each key
    once. *)
Inductive any :=
  | ANil
  | ABool (b : bool)
  | AInt (n : Z)
  | AFloat (f : float64)
  | AStr (s : string)
  | AList (l : list any)
  | AMap (m : list (string * any)).

Definition map_get (m : list (string * any)) (k : string) : option any :=
  snd <$> List.find (fun e => str_eqb (fst e) k) m.

(** The induction principle that reaches into lists and maps. *)
Section any_ind.
Variable P : any -> Prop.
Hypothesis Hnil : P ANil.
Hypothesis Hbool : forall b, P (ABool b).
Hypothesis Hint : forall n, P (AInt n).
Hypothesis Hfloat : forall f, P (AFloat f).
Hypothesis Hstr : forall s, P (AStr s).
Hypothesis Hlist : forall l, Forall P l -> P (AList l).
Hypothesis Hmap : forall m, Forall (fun e => P (snd e)) m -> P (AMap m).

Fixpoint any_ind' (v : any) : P v :=
  match v with
  | ANil => Hnil
  | ABool b => Hbool b
  | AInt n => Hint n
  | AFloat f => Hfloat f
  | AStr s => Hstr s
  | AList l =>
    Hlist l ((fix go l : Forall P l :=
                match l with
                | [] => List.Forall_nil P
                | x :: l' => List.Forall_cons P x l' (any_ind' x) (go l')
                end) l)
  | AMap m =>
    Hmap m ((fix go m : Forall (fun e => P (snd e)) m :=
               match m with
               | [] => List.Forall_nil _
               | e :: m' => List.Forall_cons (fun e => P (snd e)) e m' (any_ind' (snd e)) (go m')
               end) m)
  end.
End any_ind.

(** ** Encoding strings *)

Definition hex_lower (d : Z) : Z := if d <? 10 then 48 + d else 87 + d.

(** The escape [encoding/json] writes for a rune, with its HTML escaping on:
    control characters, quotes, backslashes, [<], [>], [&] and the line
    separators are escaped. *)
Definition json_escape_rune (r : Z) : list Z :=
  let u := [92; 117; hex_lower (Z.land (Z.shiftr r 12) 15); hex_lower (Z.land (Z.shiftr r 8) 15);
            hex_lower (Z.land (Z.shiftr r 4) 15); hex_lower (Z.land r 15)] in
  if (r =? 34) || (r =? 92) then [92; r]
  else if r =? 8 then [92; 98]
  else if r =? 12 then [92; 102]
  else if r =? 10 then [92; 110]
  else if r =? 13 then [92; 114]
  else if r =? 9 then [92; 116]
  else if (r <? 32) || (r =? 60) || (r =? 62) || (r =? 38) || (r =? 0x2028) || (r =? 0x2029) then u
  else EncodeRune r.

(** A byte that is not UTF-8 is written as the escape of the replacement
    character. *)
Fixpoint json_string_skip (skip : nat) (b : list Z) : list Z :=
  match b with
  | [] => []
  | _ :: b' =>
    match skip with
    | S k => json_string_skip k b'
    | O => let '(r, w) := DecodeRune b in
           (if (r =? RuneError) && (w =? 1)%nat then bytes_of_string "\ufffd" else json_escape_rune r)
           ++ json_string_skip (w - 1) b'
    end
  end.
Definition json_string (s : string) : string :=
  String (ascii_of_byte 34)
    (string_of_bytes (json_string_skip 0 (bytes_of_string s)) +:+ String (ascii_of_byte 34) "").

(** [json.Marshal] of a [map[string]string]: the entries sorted by key, which
    the caller lists in that order. *)
Definition json_string_map (entries : list (string * string)) : string :=
  "{" +:+ Join (map (fun e => json_string (fst e) +:+ ":" +:+ json_string (snd e)) entries) ","
  +:+ "}".

(** Any value but nil or a failed conversion: what a type switch sees. *)
Definition is_AMap (v : any) : option (list (string * any)) :=
  match v with AMap m => Some m | _ => None end.
Definition is_AStr (v : any) : option string :=
  match v with AStr s => Some s | _ => None end.
Definition is_AFloat (v : any) : option float64 :=
  match v with AFloat f => Some f | _ => None end.
