(* ===== verification/HostMatch.v ===== *)
(** * Host, method and path rules (internal/hostmatch)

    The matching rules shared by the allowlist, the secrets transform and the
    MCP policy: [path.go], [hostmatch.go] and [rule.go]. *)
From stdpp Require Import base gmap strings list option.
From Stdlib Require Import ZArith Lia Ascii.
From S2P Require Import Prelude GoUtf8 GoStrings GoPath GoNet Body GoHttp.
Local Open Scope string_scope.
Local Open Scope list_scope.
Local Open Scope nat_scope.

(** ** path.go *)

Definition MatchPath (pattern reqPath : string) : bool :=
  if negb (str_eqb reqPath "/") && negb (str_eqb (path_Clean reqPath) (TrimSuffix reqPath "/"))
  then false
  else if HasSuffix pattern "/*" then
    let prefix := stake (String.length pattern - 1) pattern in
    let base := stake (String.length pattern - 2) pattern in
    HasPrefix reqPath prefix || str_eqb reqPath base
  else path_Match pattern reqPath.

Definition MatchAnyPath (patterns : list string) (reqPath : string) : bool :=
  existsb (fun p => MatchPath p reqPath) patterns.

(** ** hostmatch.go *)

Record Matcher := mkMatcher { domains : list string; cidrs : list IPNet }.

Inductive match_error :=
  | ErrCIDR (cidr : string).

(** [New]: parses every CIDR and stops at the first bad one. *)
Definition NewMatcher (domains cidrs : list string) : result match_error Matcher :=
  let* nets := rmap (fun c => match ParseCIDR c with
                              | Some n => Ok n
                              | None => Err (ErrCIDR c)
                              end) cidrs in
  Ok (mkMatcher domains nets).

(** [StripPort]. *)
Definition StripPort (host : string) : string :=
  match SplitHostPort host with
  | Some (h, _) => Trim h "[]"
  | None => Trim host "[]"
  end.

Section hostmatch.
Context `{UnicodeTables}.

Definition MatchGlob (pattern name : string) : bool :=
  let pattern := ToLower pattern in
  let name := ToLower name in
  if str_eqb pattern "*" then true
  else if HasPrefix pattern "*." then
    HasSuffix name (sdrop 1 pattern) || str_eqb name (sdrop 2 pattern)
  else path_Match pattern name.

(** [Matcher.Matches]: a domain glob, or, for a literal IP, a CIDR. *)
Definition Matcher_Matches (m : Matcher) (host : string) : bool :=
  existsb (fun p => MatchGlob p host) (domains m)
  || (negb (length (cidrs m) =? 0)
      && match ParseIP host with
         | Some ip => existsb (fun c => ipnet_contains c ip) (cidrs m)
         | None => false
         end).

(** ** rule.go *)

Record RuleConfig := mkRuleConfig {
  rc_Host : string;
  rc_CIDR : string;
  rc_Methods : list string;
  rc_Paths : list string;
  rc_AllowPrivateIPs : list string;
}.

(** A compiled rule: [None] methods are all methods, and no paths are all
    paths (an empty slice copied with [append] is nil). *)
Record Rule := mkRule {
  r_Matcher : Matcher;
  r_Methods : option (gset string);
  r_Paths : list string;
}.

Definition MatchesHost (r : Rule) (host : string) : bool := Matcher_Matches (r_Matcher r) host.

Definition Rule_Matches (r : Rule) (host method path : string) : bool :=
  if negb (MatchesHost r host) then false
  else if match r_Methods r with
          | Some ms => negb (bool_decide (method ∈ ms))
          | None => false
          end then false
  else if bool_decide (r_Paths r <> []) && negb (MatchAnyPath (r_Paths r) path) then false
  else true.

Inductive rule_error :=
  | ErrHostAndCIDR
  | ErrHostOrCIDR
  | ErrMatcher (e : match_error)
  | ErrPath (p : string).

Definition isWildcard (methods : list string) : bool :=
  match methods with
  | [] => true
  | [m] => str_eqb m "*"
  | _ => false
  end.

(** One turn of the loop of [CompileRules]. *)
Definition compile_rule (rc : RuleConfig) : result rule_error Rule :=
  if negb (is_empty (rc_Host rc)) && negb (is_empty (rc_CIDR rc)) then Err ErrHostAndCIDR
  else if is_empty (rc_Host rc) && is_empty (rc_CIDR rc) then Err ErrHostOrCIDR
  else
    let ds := if is_empty (rc_Host rc) then [] else [rc_Host rc] in
    let cs := if is_empty (rc_CIDR rc) then [] else [rc_CIDR rc] in
    match NewMatcher ds cs with
    | Err e => Err (ErrMatcher e)
    | Ok m =>
      match List.find (fun p => negb (HasPrefix p "/")) (rc_Paths rc) with
      | Some p => Err (ErrPath p)
      | None =>
        Ok (mkRule m
              (if isWildcard (rc_Methods rc) then None
               else Some (list_to_set (map ToUpper (rc_Methods rc))))
              (rc_Paths rc))
      end
    end.

(** [CompileRules]: an error carries the index of the rule it is about. *)
Definition CompileRules (configs : list RuleConfig) : result (nat * rule_error) (list Rule) :=
  rmapi (fun i rc => match compile_rule rc with
                     | Ok r => Ok r
                     | Err e => Err (i, e)
                     end) 0 configs.

Definition MatchAnyRule (rules : list Rule) (req : Request) : bool :=
  let host := StripPort (ReqHost req) in
  existsb (fun r => Rule_Matches r host (Method req) (Path (ReqURL req))) rules.
End hostmatch.

Arguments mkRuleConfig _ _ _ _ _ : assert.

(** ** Path scopes *)

(** The request paths [MatchPath] admits: the root (also written [//]), or a
    rooted path of ordinary elements with at most one trailing slash. *)
Definition canonical_path (p : string) : Prop :=
  p = "/" \/ p = "//" \/
  exists es, es <> [] /\ Forall good_segment es /\
             (p = "/" +:+ Join es "/" \/ p = "/" +:+ Join es "/" +:+ "/").

Lemma clean_guard_canonical p :
  HasPrefix p "/" = true ->
  (p = "/" \/ path_Clean p = TrimSuffix p "/") -> canonical_path p.
Proof.
  intros Hr [-> | Hc]; [by left|]. destruct (path_Clean_rooted p Hr) as (es & He & Hes).
  rewrite He in Hc. destruct es as [|e es].
  - simpl in Hc. destruct (TrimSuffix_spec p "/") as [(q & -> & Hq)|[_ Hq]]; rewrite Hq in Hc.
    + right. left. by rewrite <- Hc.
    + by left.
  - right. right. exists (e :: es). split; [done|]. split; [done|].
    destruct (TrimSuffix_spec p "/") as [(q & -> & Hq)|[_ Hq]]; rewrite Hq in Hc.
    + right. rewrite <- Hc. by rewrite app_assoc_str.
    + by left.
Qed.

Lemma MatchPath_guard pattern p :
  MatchPath pattern p = true -> p = "/" \/ path_Clean p = TrimSuffix p "/".
Proof.
  unfold MatchPath. destruct (_ && _) eqn:E; [done|]. intros _. bool_prop.
  destruct E as [E|E]; bool_prop; apply str_eqb_eq in E; auto.
Qed.

Lemma MatchPath_rooted pattern p :
  HasPrefix pattern "/" = true -> MatchPath pattern p = true -> HasPrefix p "/" = true.
Proof.
  intros Hp Hm. assert (Hg := MatchPath_guard _ _ Hm). unfold MatchPath in Hm.
  destruct (_ && _) in Hm; [done|]. destruct (HasSuffix pattern "/*") eqn:Hs.
  - apply HasSuffix_spec in Hs as [base ->]. rewrite length_app_str in Hm.
    replace (_ - 1) with (String.length (base +:+ "/")) in Hm by (rewrite length_app_str; simpl; lia).
    replace (_ - 2) with (String.length base) in Hm by (simpl; lia).
    change (base +:+ "/*") with (base +:+ ("/" +:+ "*")) in Hm.
    rewrite stake_app_length, app_assoc_str, stake_app_length in Hm.
    apply orb_true_iff in Hm as [[t ->]%HasPrefix_spec | ->%str_eqb_eq].
    + destruct base as [|c base]; [apply HasPrefix_app|].
      apply HasPrefix_spec in Hp as [u [= -> _]]. apply HasPrefix_spec. by eexists.
    + destruct base as [|c base]; [by destruct Hg|].
      apply HasPrefix_spec in Hp as [u [= -> _]]. apply HasPrefix_spec. by exists base.
  - by eapply path_Match_rooted.
Qed.

Lemma MatchPath_canonical pattern p :
  HasPrefix pattern "/" = true -> MatchPath pattern p = true -> canonical_path p.
Proof. eauto using clean_guard_canonical, MatchPath_guard, MatchPath_rooted. Qed.

(** The elements of an admitted path. *)
Lemma canonical_path_split p :
  canonical_path p ->
  exists es tl, Split p "/" = "" :: es ++ tl /\ Forall good_segment es /\
    (tl = [] /\ es <> [] /\ p = "/" +:+ Join es "/" \/
     tl = [""] /\ p = "/" +:+ Join es "/" +:+ (if bool_decide (es = []) then "" else "/") \/
     tl = [""; ""] /\ es = [] /\ p = "//").
Proof.
  intros [-> | [-> | (es & Hne & Hes & [-> | ->])]].
  - exists [], [""]. repeat split; [constructor|]. right. left. done.
  - exists [], [""; ""]. repeat split; [constructor|]. by right; right.
  - exists es, []. rewrite app_nil_r. split; [|split; [done | by left]].
    change ("/" +:+ ?x) with ("" +:+ String "/" x). rewrite Split_app_sep by done.
    f_equal. by apply Split_Join, good_segments_no_sep.
  - exists es, [""]. rewrite (bool_decide_eq_false_2 (es = [])) by done.
    split; [|split; [done | right; by left]].
    rewrite (Split_rooted_segments es "") by done. by rewrite bool_decide_eq_false_2.
Qed.

(** C11: A prefix rule cannot be escaped.  When a rule scopes a host to
    [/b1/.../bn/*], every request path it admits is [/b1/.../bn] followed by
    ordinary path elements: no element is empty, [.] or [..], so no
    normalization by the upstream leaves the scope. *)
Theorem MatchPath_scoped bs p :
  bs <> [] -> Forall good_segment bs ->
  MatchPath ("/" +:+ Join bs "/" +:+ "/*") p = true ->
  exists rest (slash : bool), Forall good_segment rest /\
    p = "/" +:+ Join (bs ++ rest) "/" +:+ (if slash then "/" else "").
Proof.
  intros Hne Hbs Hm.
  assert (HasPrefix ("/" +:+ Join bs "/" +:+ "/*") "/" = true) as Hroot by apply HasPrefix_app.
  pose proof (MatchPath_canonical _ _ Hroot Hm) as Hcan.
  assert (p = "/" +:+ Join bs "/" \/ exists t, p = "/" +:+ Join bs "/" +:+ String "/" t) as Hp.
  { unfold MatchPath in Hm. destruct (_ && _) in Hm; [done|].
    change ("/" +:+ Join bs "/" +:+ "/*") with (("/" +:+ Join bs "/") +:+ "/*") in Hm.
    set (base := "/" +:+ Join bs "/") in *.
    rewrite (proj2 (HasSuffix_spec (base +:+ "/*") "/*")) in Hm by eauto.
    rewrite length_app_str in Hm.
    replace (_ - 1) with (String.length (base +:+ "/")) in Hm by (rewrite length_app_str; simpl; lia).
    replace (_ - 2) with (String.length base) in Hm by (simpl; lia).
    change (base +:+ "/*") with (base +:+ ("/" +:+ "*")) in Hm.
    rewrite stake_app_length, app_assoc_str, stake_app_length in Hm.
    apply orb_true_iff in Hm as [[t ->]%HasPrefix_spec | ->%str_eqb_eq]; [|by left].
    right. exists t. by rewrite <- app_assoc_str. }
  destruct Hp as [-> | [t Ht]].
  { exists [], false. split; [constructor|]. by rewrite app_nil_r, app_empty_r. }
  destruct (canonical_path_split p Hcan) as (es & tl & Hsplit & Hes & Htl).
  rewrite Ht, Split_rooted_segments, bool_decide_eq_false_2 in Hsplit by done.
  injection Hsplit as Hsplit.
  destruct Htl as [(-> & _ & Hp)|[(-> & Hp)|(-> & -> & Hp)]].
  - rewrite app_nil_r in Hsplit. exists (Split t "/"), false. subst es.
    apply Forall_app in Hes as [_ Hrest]. by rewrite app_empty_r.
  - destruct (exists_last (l := Split t "/")) as (rest & x & Hlast).
    { by destruct (Split_cons t "/") as (? & ? & ->). }
    rewrite Hlast, app_assoc in Hsplit. apply app_inj_tail in Hsplit as [<- _].
    apply Forall_app in Hes as [_ Hrest]. exists rest, true. split; [done|].
    rewrite Hp. rewrite bool_decide_eq_false_2; [done|]. by destruct bs.
  - destruct bs as [|b bs]; [done|]. injection Hsplit as -> _.
    inversion_clear Hbs as [|? ? Hb]. by destruct Hb.
Qed.

Lemma MatchPath_scoped_witness :
  MatchPath "/v1/models/*" "/v1/models/a/b/" = true /\
  exists rest (slash : bool), Forall good_segment rest /\
    "/v1/models/a/b/" = "/" +:+ Join (["v1"; "models"] ++ rest) "/" +:+ (if slash then "/" else "").
Proof.
  assert (MatchPath "/v1/models/*" "/v1/models/a/b/" = true) as H by (vm_compute; reflexivity).
  split; [exact H|].
  refine (MatchPath_scoped ["v1"; "models"] "/v1/models/a/b/" _ _ H); [discriminate|].
  apply (bool_decide_unpack _). vm_compute. exact I.
Defined.

(** Traversal attempts the guard refuses. *)
Example MatchPath_traversal :
  map (MatchPath "/v1/*") ["/v1/../admin"; "/v1//x"; "/v1/./x"; "/v1/.."; "/v1x"; ""]
  = replicate 6 false.
Proof. vm_compute. reflexivity. Qed.

(** ** Domain globs *)

Section globs.
Context `{UnicodeTables}.

Lemma map_string_ascii_cons f c s :
  (byte_of_ascii c < 0x80)%Z -> (0 <= f (byte_of_ascii c) < 0x80)%Z ->
  map_string f (String c s) = String (ascii_of_byte (f (byte_of_ascii c))) (map_string f s).
Proof.
  intros Hc Hf. pose proof (byte_of_ascii_range c) as Hr. unfold is_byte in Hr.
  unfold map_string. cbn [bytes_of_string]. rewrite runes_ascii_cons by lia.
  unfold encode_runes. cbn [map concat]. rewrite EncodeRune_ascii by done. done.
Qed.

Lemma ToLower_wild d : ToLower ("*." +:+ d) = "*." +:+ ToLower d.
Proof.
  change ("*." +:+ d) with (String "*" (String "." d)). unfold ToLower.
  rewrite !map_string_ascii_cons by (vm_compute; try done; split; done). done.
Qed.

(** A wildcard domain matches the domain itself and its subdomains, at a
    label boundary only: [*.example.com] admits a name exactly when it is,
    ignoring case, [example.com] or ends in [.example.com]. *)
Theorem MatchGlob_wildcard d name :
  MatchGlob ("*." +:+ d) name = true <->
  ToLower name = ToLower d \/ exists sub, ToLower name = sub +:+ "." +:+ ToLower d.
Proof.
  unfold MatchGlob. rewrite ToLower_wild.
  replace (str_eqb _ "*") with false by (symmetry; by apply str_eqb_neq).
  rewrite HasPrefix_app, orb_true_iff, str_eqb_eq, HasSuffix_spec.
  cbn [String.append sdrop]. tauto.
Qed.

(** A literal domain matches only itself, ignoring case: no suffix, prefix
    or substring of it is admitted. *)
Theorem MatchGlob_literal p name :
  no_meta (ToLower p) = true -> MatchGlob p name = str_eqb (ToLower p) (ToLower name).
Proof.
  intros Hp. unfold MatchGlob.
  destruct (str_eqb (ToLower p) "*") eqn:E1.
  { apply str_eqb_eq in E1. by rewrite E1 in Hp. }
  destruct (HasPrefix (ToLower p) "*.") eqn:E2.
  { apply HasPrefix_spec in E2 as [t E2]. by rewrite E2 in Hp. }
  by apply Match_literal.
Qed.

End globs.

Lemma MatchGlob_literal_witness :
  let _ := ascii_tables in
  MatchGlob "API.Example.com" "api.example.COM" = true /\
  MatchGlob "API.Example.com" "api.example.com.evil.net" = false.
Proof.
  cbv zeta. split.
  - rewrite (@MatchGlob_literal ascii_tables "API.Example.com" "api.example.COM") by (vm_compute; reflexivity).
    vm_compute. reflexivity.
  - vm_compute. reflexivity.
Defined.

(** ** Compiled rules and their configuration *)

Section rules.
Context `{UnicodeTables}.

(** What a rule's YAML says, without compilation. *)
Definition host_denotes (rc : RuleConfig) (host : string) : Prop :=
  if is_empty (rc_Host rc)
  then exists n ip, ParseCIDR (rc_CIDR rc) = Some n /\ ParseIP host = Some ip /\
                    ipnet_contains n ip = true
  else MatchGlob (rc_Host rc) host = true.
Definition rule_denotes (rc : RuleConfig) (host method path : string) : Prop :=
  host_denotes rc host /\
  (isWildcard (rc_Methods rc) = false -> method ∈ map ToUpper (rc_Methods rc)) /\
  (rc_Paths rc <> [] -> exists p, p ∈ rc_Paths rc /\ MatchPath p path = true).

(** Which configurations are accepted. *)
Definition rule_config_ok (rc : RuleConfig) : bool :=
  xorb (is_empty (rc_Host rc)) (is_empty (rc_CIDR rc))
  && (is_empty (rc_CIDR rc) || bool_decide (is_Some (ParseCIDR (rc_CIDR rc))))
  && forallb (fun p => HasPrefix p "/") (rc_Paths rc).

Lemma find_not_forallb {A} (f : A -> bool) l :
  (List.find (fun x => negb (f x)) l = None) <-> forallb f l = true.
Proof.
  induction l as [|x l IH]; simpl; [done|]. destruct (f x); simpl; [done|]. split; discriminate.
Qed.

Lemma MatchAnyPath_spec patterns path :
  MatchAnyPath patterns path = true <-> exists p, p ∈ patterns /\ MatchPath p path = true.
Proof. apply existsb_elem. Qed.

Lemma compile_rule_ok rc : is_Ok (compile_rule rc) = rule_config_ok rc.
Proof.
  unfold compile_rule, rule_config_ok, NewMatcher.
  pose proof (find_not_forallb (fun p => HasPrefix p "/") (rc_Paths rc)) as Hf.
  destruct (is_empty (rc_Host rc)), (is_empty (rc_CIDR rc)); simpl; try done.
  - destruct (ParseCIDR (rc_CIDR rc)); simpl; [|done].
    destruct (List.find _ _), (forallb _ _); naive_solver.
  - destruct (List.find _ _), (forallb _ _); naive_solver.
Qed.

Lemma compile_rule_matches rc r host method path :
  compile_rule rc = Ok r ->
  Rule_Matches r host method path = true <-> rule_denotes rc host method path.
Proof.
  unfold compile_rule, rule_denotes, NewMatcher.
  destruct (negb (is_empty _) && _) eqn:Hboth; [done|].
  destruct (is_empty (rc_Host rc) && _) eqn:Hnone; [done|].
  destruct (rbind _ _) as [m|] eqn:Hm; [|done]. destruct (List.find _ _); [done|].
  intros [= <-]. unfold Rule_Matches, MatchesHost, Matcher_Matches. cbn [r_Matcher r_Methods r_Paths].
  apply rbind_Ok_inv in Hm as (nets & Hnets & [= <-]). cbn [domains cidrs].
  match goal with |- context [negb ?b] => assert (b = true <-> host_denotes rc host) as Hhost end.
  { unfold host_denotes. destruct (is_empty (rc_Host rc)), (is_empty (rc_CIDR rc)); simpl in *; try done.
    - destruct (ParseCIDR (rc_CIDR rc)) as [n|]; simplify_eq/=.
      destruct (ParseIP host); [|naive_solver]. rewrite orb_false_r. naive_solver.
    - simplify_eq/=. rewrite !orb_false_r. done. }
  destruct (isWildcard (rc_Methods rc)); simpl;
    (destruct (_ || _); [rewrite <- Hhost | split; [done | intros [?%Hhost _]; done]]); simpl.
  - rewrite <- MatchAnyPath_spec. case_bool_decide; destruct (MatchAnyPath _ _); naive_solver.
  - rewrite <- MatchAnyPath_spec, <- (elem_of_list_to_set (C := gset string)).
    repeat case_bool_decide; destruct (MatchAnyPath _ _); naive_solver.
Qed.

Lemma compile_rule_paths rc r : compile_rule rc = Ok r -> r_Paths r = rc_Paths rc.
Proof.
  unfold compile_rule. destruct (negb (is_empty _) && _); [done|]. destruct (is_empty _ && _); [done|].
  destruct (NewMatcher _ _); [|done]. destruct (List.find _ _); [done|]. by intros [= <-].
Qed.

(** Compiling a rule list keeps its meaning.  [CompileRules] succeeds
    exactly when every rule names one of host and cidr, its cidr parses and its
    paths are rooted; and then rule [i] matches a request exactly when the
    configuration of rule [i] says so. *)
Theorem CompileRules_refines configs :
  is_Ok (CompileRules configs) = forallb rule_config_ok configs /\
  forall rules, CompileRules configs = Ok rules ->
    length rules = length configs /\
    forall i rc, configs !! i = Some rc -> exists r, rules !! i = Some r /\
      forall host method path,
        Rule_Matches r host method path = true <-> rule_denotes rc host method path.
Proof.
  split.
  - unfold CompileRules. generalize 0 at 1. induction configs as [|rc cs IH]; intros n; simpl; [done|].
    rewrite <- (compile_rule_ok rc), <- (IH (S n)).
    destruct (compile_rule rc); simpl; [|done]. by destruct (rmapi _ _ _).
  - intros rules [Hlen Hall]%rmapi_Ok. split; [done|]. intros i rc Hi.
    destruct (Hall i rc Hi) as (r & Hr & Hc). exists r. split; [done|]. intros host method path.
    apply compile_rule_matches. by destruct (compile_rule rc); simplify_eq.
Qed.

(** A compiled list matches what one of its configured rules denotes. *)
Lemma CompileRules_matches configs rules host method path :
  CompileRules configs = Ok rules ->
  existsb (fun r => Rule_Matches r host method path) rules = true <->
  exists rc, rc ∈ configs /\ rule_denotes rc host method path.
Proof.
  intros [Hlen Hall]%rmapi_Ok. rewrite existsb_elem. split.
  - intros (r & [i Hi]%list_elem_of_lookup & Hm). destruct (configs !! i) as [rc|] eqn:Hrc.
    + destruct (Hall i rc Hrc) as (r' & Hr' & Hc). simplify_eq. exists rc. split; [by eapply list_elem_of_lookup_2|].
      destruct (compile_rule rc) eqn:Hcr; simplify_eq. by apply (compile_rule_matches rc r).
    + apply lookup_ge_None in Hrc. apply lookup_lt_Some in Hi. lia.
  - intros (rc & [i Hi]%list_elem_of_lookup & Hd). destruct (Hall i rc Hi) as (r & Hr & Hc).
    exists r. split; [by eapply list_elem_of_lookup_2|].
    destruct (compile_rule rc) eqn:Hcr; simplify_eq. by apply (compile_rule_matches rc r).
Qed.

Lemma MatchAnyRule_spec rules req :
  MatchAnyRule rules req = true <->
  exists r, r ∈ rules /\ Rule_Matches r (StripPort (ReqHost req)) (Method req) (Path (ReqURL req)) = true.
Proof. apply existsb_elem. Qed.

End rules.
