(* ===== verification/Transform.v ===== *)
(** * The transform pipeline (internal/transform)

    [transform.go], [pipeline.go] and [registry.go]: the interface every
    request and response transform implements, and the pipeline that runs
    them. *)
From stdpp Require Import base gmap strings list option.
From Stdlib Require Import ZArith Lia Ascii.
From S2P Require Import Prelude GoUtf8 GoStrings GoNet Body GoHttp GoJson.
Local Open Scope string_scope.
Local Open Scope list_scope.
Local Open Scope Z_scope.

(** ** transform.go *)

Inductive TransformAction := ActionContinue | ActionReject | ActionStub.

#[global] Instance TransformAction_eq_dec : EqDecision TransformAction.
Proof. solve_decision. Defined.

Inductive TransformMode := ModeMITM | ModeSNIOnly | ModeSSH.

Definition Mode_String (m : TransformMode) : string :=
  match m with
  | ModeMITM => "mitm"
  | ModeSNIOnly => "sni-only"
  | ModeSSH => "ssh"
  end.

Abbreviation Annotations := (gmap string any).

Record TransformTrace := mkTrace {
  tr_Name : string;
  tr_Action : TransformAction;
  tr_Duration : Z;                  (* nanoseconds *)
  tr_Err : option string;
  tr_Annotations : option Annotations;
}.

Record TunnelInfo := mkTunnel {
  Target : string;
  TunnelTransforms : list TransformTrace;
}.

(** A captured request body and whether it was truncated. *)
Record BodyCaptureData := mkCapture { cap_RequestBody : string; cap_Truncated : bool }.

Record TransformContext := mkContext {
  SNI : string;
  CtxMode : TransformMode;
  Tunnel : option TunnelInfo;
  TunnelAdmission : bool;
  BodyCapture : option BodyCaptureData;
  annotations : option Annotations;     (* nil until the first Annotate *)
}.

Definition set_annotations (t : TransformContext) (a : option Annotations) : TransformContext :=
  mkContext (SNI t) (CtxMode t) (Tunnel t) (TunnelAdmission t) (BodyCapture t) a.

Definition Annotate (t : TransformContext) (key : string) (value : any) : TransformContext :=
  set_annotations t (Some (<[key := value]> (default ∅ (annotations t)))).

Definition DrainAnnotations (t : TransformContext) : option Annotations * TransformContext :=
  (annotations t, set_annotations t None).

(** [ShortCircuitAction]: the action of the last trace when it stopped the
    pipeline. *)
Definition ShortCircuitAction (traces : list TransformTrace) : TransformAction :=
  match traces !! (length traces - 1)%nat with
  | Some tr => match tr_Action tr with
               | ActionReject => ActionReject
               | ActionStub => ActionStub
               | ActionContinue => ActionContinue
               end
  | None => ActionContinue
  end.

Record TransformResult := mkResult { res_Action : TransformAction; res_Response : option Response }.

Definition continue_result : TransformResult := mkResult ActionContinue None.
Definition reject_result : TransformResult := mkResult ActionReject None.

(** The request a transform works on: the [http.Request] and the values its
    context carries, of a type the components that use it choose. *)
Record ReqState (C : Type) := mkReqState { rq : Request; rctx : C }.
Arguments mkReqState {C} _ _.
Arguments rq {C} _.
Arguments rctx {C} _.

Definition with_req {C} (s : ReqState C) (r : Request) : ReqState C := mkReqState r (rctx s).

(** The [Transformer] interface.  A transform may change the context, the
    request and, on the way back, the response; the two optional interfaces
    the pipeline tests for are [io.Closer] and [PrivateIPs]. *)
Record Transformer (C : Type) := mkTransformer {
  Name : string;
  TransformRequest : TransformContext -> ReqState C ->
    result string TransformResult * TransformContext * ReqState C;
  TransformResponse : TransformContext -> ReqState C -> Response ->
    result string TransformResult * TransformContext * ReqState C * Response;
  Closer : option (option string);                       (* Close and what it returns *)
  PrivateIPs : option (ReqState C -> list Prefix);
}.
Arguments mkTransformer {C} _ _ _ _ _.
Arguments Name {C} _.
Arguments TransformRequest {C} _ _ _.
Arguments TransformResponse {C} _ _ _ _.
Arguments Closer {C} _.
Arguments PrivateIPs {C} _.

(** ** pipeline.go *)

Record BodyLimits := mkLimits { MaxRequestBodyBytes : Z; MaxResponseBodyBytes : Z }.

Record Pipeline (C : Type) := mkPipeline {
  transforms : list (Transformer C);
  bodyLimits : BodyLimits;
}.
Arguments mkPipeline {C} _ _.
Arguments transforms {C} _.
Arguments bodyLimits {C} _.

(** [forbiddenResponse]: a 403 that names the refused host and the refusing
    transform.  Its plain body reads like one nothing has buffered. *)
Definition forbiddenResponse (host0 policy : string) : Response :=
  let host := match SplitHostPort host0 with Some (h, _) => h | None => host0 end in
  let '(code, nextStep) :=
    if str_eqb policy "allowlist" then
      ("EGRESS_DOMAIN_NOT_ALLOWED",
       "Add " +:+ host +:+ " to egressPolicy.allowDomains (box.egress.update); a listed host is refused only for a method or path outside its rule.")
    else
      ("EGRESS_REQUEST_REFUSED",
       "The " +:+ policy +:+ " policy refused this request; box.egress.denials() lists every refusal.") in
  let body := json_string_map
    [("code", code); ("host", host); ("nextStep", nextStep); ("policy", policy)] in
  mkResponse 403 {["Content-Type" := ["application/json"]]}
    (BufferedBody.NewBufferedBody (Some (mkReader (bytes_of_string body) None)) 0)
    (Z.of_nat (String.length body)).

Section pipeline.
Context {C : Type}.

(** The durations the pipeline measures, one per transform. *)
Variable elapsed : nat -> Z.

Definition reset_body (s : ReqState C) : ReqState C :=
  with_req s (set_ReqBody (rq s) (BufferedBody.Reset (ReqBody (rq s)))).

Definition reset_response (r : Response) : Response :=
  set_RespBody r (BufferedBody.Reset (RespBody r)).

(** What [ProcessRequest] leaves behind: the response of a short circuit, or
    an error with the transform it came from, and the mutated arguments. *)
Record Processed (A : Type) := mkProcessed {
  pr_outcome : result (string * string) A;
  pr_ctx : TransformContext;
  pr_req : ReqState C;
  pr_traces : list TransformTrace;
}.
Arguments mkProcessed {A} _ _ _ _.
Arguments pr_outcome {A} _.
Arguments pr_ctx {A} _.
Arguments pr_req {A} _.
Arguments pr_traces {A} _.

Fixpoint process_request (i : nat) (ts : list (Transformer C)) (tctx : TransformContext)
    (req : ReqState C) (traces : list TransformTrace) : Processed (option Response) :=
  match ts with
  | [] => mkProcessed (Ok None) tctx req traces
  | t :: ts' =>
    let '(res, tctx, req) := TransformRequest t tctx req in
    let req := reset_body req in
    let '(ann, tctx) := DrainAnnotations tctx in
    match res with
    | Err e =>
      mkProcessed (Err (Name t, e)) tctx req
        (traces ++ [mkTrace (Name t) ActionContinue (elapsed i) (Some e) ann])
    | Ok result =>
      let traces := traces ++ [mkTrace (Name t) (res_Action result) (elapsed i) None ann] in
      match res_Action result with
      | ActionContinue => process_request (S i) ts' tctx req traces
      | ActionReject | ActionStub =>
        mkProcessed (Ok (Some (match res_Response result with
                               | Some r => r
                               | None => forbiddenResponse (ReqHost (rq req)) (Name t)
                               end))) tctx req traces
      end
    end
  end.

Definition ProcessRequest (p : Pipeline C) := process_request 0 (transforms p).

(** [ProcessResponse]: the response to send, the upstream one when no
    transform replaced it. *)
Fixpoint process_response (i : nat) (ts : list (Transformer C)) (tctx : TransformContext)
    (req : ReqState C) (resp : Response) (traces : list TransformTrace) : Processed Response :=
  match ts with
  | [] => mkProcessed (Ok resp) tctx req traces
  | t :: ts' =>
    let '(res, tctx, req, resp) := TransformResponse t tctx req resp in
    let req := reset_body req in
    let resp := reset_response resp in
    let '(ann, tctx) := DrainAnnotations tctx in
    match res with
    | Err e =>
      mkProcessed (Err (Name t, e)) tctx req
        (traces ++ [mkTrace (Name t) ActionContinue (elapsed i) (Some e) ann])
    | Ok result =>
      let traces := traces ++ [mkTrace (Name t) (res_Action result) (elapsed i) None ann] in
      match res_Action result with
      | ActionContinue => process_response (S i) ts' tctx req resp traces
      | ActionReject | ActionStub =>
        mkProcessed (Ok (match res_Response result with
                         | Some r => r
                         | None => forbiddenResponse (ReqHost (rq req)) (Name t)
                         end)) tctx req traces
      end
    end
  end.

Definition ProcessResponse (p : Pipeline C) := process_response 0 (transforms p).

Definition Pipeline_Empty (p : Pipeline C) : bool := (length (transforms p) =? 0)%nat.

(** [Close]: every closer runs; the first error is returned. *)
Definition Pipeline_Close (p : Pipeline C) : option string :=
  foldl (fun first t => match Closer t with
                        | Some (Some e) => match first with Some f => Some f | None => Some e end
                        | _ => first
                        end) None (transforms p).

Definition Names (p : Pipeline C) : string := Join (map Name (transforms p)) " → ".

End pipeline.

Arguments mkProcessed {C A} _ _ _ _.
Arguments pr_outcome {C A} _.
Arguments pr_ctx {C A} _.
Arguments pr_req {C A} _.
Arguments pr_traces {C A} _.

(** ** registry.go *)

(** The factory registry: [Register] overwrites, [Lookup] fails on an unknown
    name. *)
Definition Register {F : Type} (registry : gmap string F) (name : string) (f : F) : gmap string F :=
  <[name := f]> registry.
Definition Lookup {F : Type} (registry : gmap string F) (name : string) : result string F :=
  match registry !! name with
  | Some f => Ok f
  | None => Err ("unknown transform: " +:+ json_string name)
  end.

(** ** The pipeline's contract *)

Definition trace_continues (tr : TransformTrace) : Prop :=
  tr_Action tr = ActionContinue /\ tr_Err tr = None.

(** How the new traces of a run end, given its outcome: everything before the
    last trace continued without error; the last one says how the run ended. *)
Definition traces_explain {A} (short : A -> bool) (names : list string)
    (outcome : result (string * string) A) (new : list TransformTrace) : Prop :=
  map tr_Name new = take (length new) names /\
  match outcome with
  | Err (n, e) =>
    exists done_ tr, new = done_ ++ [tr] /\ Forall trace_continues done_ /\
      tr_Name tr = n /\ tr_Err tr = Some e /\ tr_Action tr = ActionContinue
  | Ok a =>
    if short a then
      exists done_ tr, new = done_ ++ [tr] /\ Forall trace_continues done_ /\
        tr_Err tr = None /\ tr_Action tr <> ActionContinue
    else length new = length names /\ Forall trace_continues new
  end.

Section contract.
Context {C : Type} (elapsed : nat -> Z).
Implicit Types (ts : list (Transformer C)) (req : ReqState C).

(** Running a concatenation is running the first part and, when it let the
    request through, the second part on what the first one left. *)
Lemma process_request_app i ts1 ts2 tctx req traces :
  process_request elapsed i (ts1 ++ ts2) tctx req traces =
    let r := process_request elapsed i ts1 tctx req traces in
    match pr_outcome r with
    | Ok None => process_request elapsed (i + length ts1) ts2 (pr_ctx r) (pr_req r) (pr_traces r)
    | _ => r
    end.
Proof.
  revert i tctx req traces. induction ts1 as [|t ts1 IH]; intros i tctx req traces; simpl.
  - by rewrite Nat.add_0_r.
  - destruct (TransformRequest t tctx req) as [[[res|e] tctx'] req']; simpl; [|done].
    destruct (res_Action res); simpl; [|done|done].
    rewrite IH. by replace (S i + length ts1)%nat with (i + S (length ts1))%nat by lia.
Qed.

Lemma process_request_traces i ts tctx req traces :
  exists new, pr_traces (process_request elapsed i ts tctx req traces) = traces ++ new /\
    traces_explain (fun o => bool_decide (is_Some o)) (map Name ts)
      (pr_outcome (process_request elapsed i ts tctx req traces)) new.
Proof.
  revert i tctx req traces. induction ts as [|t ts IH]; intros i tctx req traces; simpl.
  { exists []. rewrite app_nil_r. split; [done|]. split; [done|]. simpl. by split. }
  destruct (TransformRequest t tctx req) as [[[res|e] tctx'] req']; simpl.
  - destruct (res_Action res) eqn:Ha; simpl.
    + set (tr := mkTrace (Name t) ActionContinue (elapsed i) None (annotations tctx')).
      destruct (IH (S i) (set_annotations tctx' None) (reset_body req') (traces ++ [tr]))
        as (new & Hnew & Hn & Hexp).
      exists (tr :: new). rewrite Hnew, <- app_assoc. split; [done|]. split; [simpl; by rewrite Hn|].
      assert (trace_continues tr) as Htr by done.
      destruct (pr_outcome _) as [[resp|]|[n e]]; simpl in *.
      * destruct Hexp as (dn & x & -> & Hdn & Hx). exists (tr :: dn), x. split; [done|].
        split; [by constructor | done].
      * destruct Hexp as [Hlen Hall]. split; [simpl; lia | by constructor].
      * destruct Hexp as (dn & x & -> & Hdn & Hx). exists (tr :: dn), x. split; [done|].
        split; [by constructor | done].
    + eexists. split; [done|]. split; [done|]. exists [], (mkTrace (Name t) ActionReject (elapsed i) None (annotations tctx')).
      by repeat split.
    + eexists. split; [done|]. split; [done|]. exists [], (mkTrace (Name t) ActionStub (elapsed i) None (annotations tctx')).
      by repeat split.
  - eexists. split; [done|]. split; [done|].
    exists [], (mkTrace (Name t) ActionContinue (elapsed i) (Some e) (annotations tctx')). by repeat split.
Qed.

Lemma process_request_isolates i ts tctx req traces :
  ts <> [] ->
  let r := process_request elapsed i ts tctx req traces in
  BufferedBody.pos (ReqBody (rq (pr_req r))) = 0%nat /\ annotations (pr_ctx r) = None.
Proof.
  revert i tctx req traces. induction ts as [|t ts IH]; intros i tctx req traces Hne; [done|]. simpl.
  destruct (TransformRequest t tctx req) as [[[res|e] tctx'] req']; simpl; [|by split].
  destruct (res_Action res); simpl; [|by split|by split].
  destruct ts as [|t' ts]; [by split|]. by apply IH.
Qed.

Lemma lookup_last_snoc {A} (l : list A) x : (l ++ [x]) !! (length (l ++ [x]) - 1)%nat = Some x.
Proof. rewrite length_app. simpl. rewrite lookup_app_r by lia. by replace (_ - _)%nat with 0%nat by lia. Qed.

Lemma ShortCircuit_explained names (o : result (string * string) (option Response)) new :
  traces_explain (fun o => bool_decide (is_Some o)) names o new ->
  (ShortCircuitAction new <> ActionContinue <-> exists resp, o = Ok (Some resp)).
Proof.
  intros [_ Hexp]. unfold ShortCircuitAction. destruct o as [[resp|]|[n e]]; simpl in Hexp.
  - destruct Hexp as (dn & tr & -> & _ & _ & Ha). rewrite lookup_last_snoc.
    split; [eauto|]. intros _. by destruct (tr_Action tr).
  - destruct Hexp as [_ Hall]. destruct (new !! _) as [tr|] eqn:E; [|naive_solver].
    rewrite Forall_lookup in Hall. destruct (Hall _ _ E) as [-> _]. naive_solver.
  - destruct Hexp as (dn & tr & -> & _ & _ & _ & Ha). rewrite lookup_last_snoc, Ha. naive_solver.
Qed.

End contract.

(** The trace tells the truth about the request.  After [ProcessRequest],
    the traces name, in order, exactly the transforms that ran; every one
    before the last continued without error; and the caller's test
    [ShortCircuitAction(traces)] is reject or stub exactly when the pipeline
    returned a response in place of the request. *)
Theorem ProcessRequest_traces {C} elapsed (p : Pipeline C) tctx req :
  let r := ProcessRequest elapsed p tctx req [] in
  traces_explain (fun o => bool_decide (is_Some o)) (map Name (transforms p))
    (pr_outcome r) (pr_traces r) /\
  (ShortCircuitAction (pr_traces r) <> ActionContinue <-> exists resp, pr_outcome r = Ok (Some resp)).
Proof.
  intros r. destruct (process_request_traces elapsed 0 (transforms p) tctx req []) as (new & Hnew & Hexp).
  subst r. unfold ProcessRequest. rewrite Hnew. split; [done|]. by eapply ShortCircuit_explained.
Qed.

(** A refusal is final.  When a transform rejects (or stubs) or fails, what
    [ProcessRequest] returns, and the request it leaves, do not depend on the
    transforms after it: none of them runs. *)
Theorem ProcessRequest_stops {C} elapsed (ts1 ts2 : list (Transformer C)) lim tctx req traces :
  pr_outcome (ProcessRequest elapsed (mkPipeline ts1 lim) tctx req traces) <> Ok None ->
  ProcessRequest elapsed (mkPipeline (ts1 ++ ts2) lim) tctx req traces =
  ProcessRequest elapsed (mkPipeline ts1 lim) tctx req traces.
Proof.
  unfold ProcessRequest. cbn [transforms]. intros Hne. rewrite process_request_app. simpl.
  destruct (pr_outcome _) as [[resp|]|e] eqn:E; done.
Qed.

(** A transform that refuses everything, and one that would leak. *)
Definition refuse_all : Transformer unit :=
  mkTransformer "allowlist" (fun t s => (Ok reject_result, t, s))
    (fun t s r => (Ok continue_result, t, s, r)) None None.
Definition fail_all : Transformer unit :=
  mkTransformer "grpc" (fun t s => (Err "unreachable", t, s))
    (fun t s r => (Err "unreachable", t, s, r)) None None.
Definition example_ctx : TransformContext := mkContext "" ModeMITM None false None None.
Definition example_req : Request :=
  mkRequest "GET" "evil.test:443" (mkURL "https" None "evil.test" "/" "" "") ∅
    (BufferedBody.NewBufferedBody None 0) 0 true.

Lemma ProcessRequest_stops_witness :
  ProcessRequest (fun _ => 1) (mkPipeline ([refuse_all] ++ [fail_all]) (mkLimits 0 0)) example_ctx
    (mkReqState example_req ()) [] =
  ProcessRequest (fun _ => 1) (mkPipeline [refuse_all] (mkLimits 0 0)) example_ctx
    (mkReqState example_req ()) [].
Proof. apply (ProcessRequest_stops (fun _ => 1) [refuse_all] [fail_all]). simpl. discriminate. Defined.

(** Transforms are isolated from one another.  Whatever the transforms do
    to the body's read position and to the annotations, each next transform
    and the upstream send start at the beginning of the body, and the
    annotations of one transform never reach the trace of another. *)
Theorem ProcessRequest_isolates {C} elapsed (ts : list (Transformer C)) lim tctx req traces :
  ts <> [] ->
  let r := ProcessRequest elapsed (mkPipeline ts lim) tctx req traces in
  BufferedBody.pos (ReqBody (rq (pr_req r))) = 0%nat /\ annotations (pr_ctx r) = None.
Proof.
  intros Hne. by apply process_request_isolates.
Qed.

Lemma ProcessRequest_isolates_witness :
  let r := ProcessRequest (fun _ => 1) (mkPipeline [refuse_all; fail_all] (mkLimits 0 0)) example_ctx
    (mkReqState example_req ()) [] in
  BufferedBody.pos (ReqBody (rq (pr_req r))) = 0%nat /\ annotations (pr_ctx r) = None.
Proof. apply (ProcessRequest_isolates (fun _ => 1) [refuse_all; fail_all] (mkLimits 0 0)). discriminate. Defined.
