(* ===== verification/DnsGuard.v ===== *)
(** * Upstream deny list (internal/dnsguard)

    Connections are refused at dial time, after name resolution, when the
    address lies in a denied prefix. *)
From stdpp Require Import base gmap strings list option.
From Stdlib Require Import ZArith Lia Ascii.
From S2P Require Import Prelude GoUtf8 GoStrings GoNet.
Local Open Scope string_scope.
Local Open Scope list_scope.
Local Open Scope Z_scope.

(** [netip.MustParseAddr] of the three metadata addresses. *)
Definition metadataAddresses : list Addr :=
  [Addr4 0xA9FEA9FE; Addr6 0xfd000ec2000000000000000000000254 "";
   Addr6 0xfd2000ce000000000000000000000254 ""].

Definition defaultDenyCIDRs : list string :=
  map (fun a => Prefix_String (PrefixFrom a (BitLen a))) metadataAddresses
  ++ ["127.0.0.0/8"; "::1/128"].

Definition ContainsMetadataAddress (p : Prefix) : bool :=
  existsb (prefix_contains p) metadataAddresses.

Record DenyError := mkDenyError { de_Address : string; de_Prefix : Prefix }.

Record Guard := mkGuard { prefixes : list Prefix }.

Inductive cidr_error :=
  | EmptyCIDR
  | NotCIDR (raw : string)
  | InvalidCIDR (raw : string).

Definition parsePrefix (raw : string) : result cidr_error Prefix :=
  let s := TrimSpace raw in
  if is_empty s then Err EmptyCIDR
  else if negb (Contains s "/") then Err (NotCIDR raw)
  else match ParsePrefix s with
       | None => Err (InvalidCIDR raw)
       | Some p => Ok (Masked p)
       end.

Definition NewGuard (cidrs : list string) : result cidr_error Guard :=
  let* ps := rmap parsePrefix cidrs in Ok (mkGuard ps).

(** [ValidateCIDRs]: the first error, if any. *)
Fixpoint ValidateCIDRs (cidrs : list string) : option cidr_error :=
  match cidrs with
  | [] => None
  | raw :: cidrs' =>
    match parsePrefix raw with
    | Err e => Some e
    | Ok _ => ValidateCIDRs cidrs'
    end
  end.

(** The guard is a pointer: [None] is nil. *)
Definition guard_prefixes (g : option Guard) : list Prefix :=
  match g with Some g => prefixes g | None => [] end.

Definition IsDenied (g : option Guard) (ip : Addr) : bool :=
  match guard_prefixes g with
  | [] => false
  | ps => existsb (fun p => prefix_contains p (WithZone (Unmap ip) "")) ps
  end.

(** [DialControl]: the error it returns, if any. *)
Definition dial_host (address : string) : string :=
  match SplitHostPort address with Some (h, _) => h | None => address end.
Definition DialControl (g : option Guard) (address : string) : option DenyError :=
  match guard_prefixes g with
  | [] => None
  | ps =>
    let host := dial_host address in
    match ParseAddr host with
    | None => None
    | Some addr =>
      let addr := WithZone (Unmap addr) "" in
      match List.find (fun p => prefix_contains p addr) ps with
      | Some p => Some (mkDenyError host p)
      | None => None
      end
    end
  end.

(** ** Facts *)

Lemma IsDenied_spec g ip :
  IsDenied g ip = existsb (fun p => prefix_contains p (WithZone (Unmap ip) "")) (guard_prefixes g).
Proof. unfold IsDenied. by destruct (guard_prefixes g). Qed.
Lemma IsDenied_Unmap g a : IsDenied g (Unmap a) = IsDenied g a.
Proof. by rewrite !IsDenied_spec, Unmap_idem. Qed.

Lemma existsb_find {A} (f : A -> bool) l :
  existsb f l = true <-> is_Some (List.find f l).
Proof.
  induction l as [|x l IH]; simpl; [split; [done | by intros [??]]|].
  destruct (f x); simpl; [split; eauto | done].
Qed.

(** The dial hook and the address test agree.  A connect is refused exactly
    when the host of the address about to be dialled parses as an IP and that
    IP is denied; the refusal reports a prefix that holds the address. *)
Theorem DialControl_denies g address :
  is_Some (DialControl g address) <->
  exists addr, ParseAddr (dial_host address) = Some addr /\ IsDenied g addr = true.
Proof.
  setoid_rewrite IsDenied_spec. unfold DialControl.
  destruct (guard_prefixes g) as [|p ps].
  { split; [by intros [??] | by intros (? & _ & ?)]. }
  destruct (ParseAddr _) as [addr|]; [|split; [by intros [??] | by intros (? & ? & _)]].
  transitivity (is_Some (List.find (fun q => prefix_contains q (WithZone (Unmap addr) "")) (p :: ps))).
  - destruct (List.find _ _); split; by intros [??].
  - rewrite <- existsb_find. naive_solver.
Qed.

Lemma NewGuard_prefixes cidrs g :
  NewGuard cidrs = Ok g ->
  Forall2 (fun raw p => parsePrefix raw = Ok p) cidrs (prefixes g).
Proof. unfold NewGuard. intros (ps & Hps & [= <-])%rbind_Ok_inv. by apply rmap_Ok. Qed.

(** Building a guard and validating its CIDRs agree: [New] succeeds exactly
    when [ValidateCIDRs] finds nothing, fails with the error it reports, and
    every compiled prefix denies exactly the addresses of the CIDR as
    written. *)
Theorem NewGuard_spec cidrs :
  match NewGuard cidrs with
  | Ok g => ValidateCIDRs cidrs = None /\ length (prefixes g) = length cidrs /\
            forall i raw, cidrs !! i = Some raw ->
              exists p q, ParsePrefix (TrimSpace raw) = Some p /\ prefixes g !! i = Some q /\
                forall ip, prefix_contains q ip = prefix_contains p ip
  | Err e => ValidateCIDRs cidrs = Some e
  end.
Proof.
  destruct (NewGuard cidrs) as [g|e] eqn:E.
  - apply NewGuard_prefixes in E. split.
    { induction E as [|raw p l ps Hp]; simpl; [done|]. by rewrite Hp. }
    split; [by apply Forall2_length in E|]. intros i raw Hi.
    destruct (Forall2_lookup_l _ _ _ _ _ E Hi) as (q & Hq & Hparse).
    unfold parsePrefix in Hparse. destruct (is_empty _); [done|]. destruct (negb _); [done|].
    destruct (ParsePrefix _) as [p|] eqn:Hp; simplify_eq. exists p, (Masked p).
    repeat split; [done|]. intros ip.
    by apply prefix_contains_Masked, (ParsePrefix_valid (TrimSpace raw)).
  - unfold NewGuard in E. induction cidrs as [|raw cidrs IH]; simpl in *; [done|].
    destruct (parsePrefix raw); simpl in *; [|by simplify_eq].
    apply IH. by destruct (rmap parsePrefix cidrs).
Qed.

(** An address cannot be respelled around the deny list: its IPv4-mapped
    IPv6 form and any zone are denied exactly when the plain address is. *)
Theorem IsDenied_respelling g v zone :
  0 <= v < 2 ^ 32 ->
  IsDenied g (Addr6 (Z.lor v4_in_6 v) zone) = IsDenied g (Addr4 v).
Proof.
  intros Hv. rewrite !IsDenied_spec. do 2 f_equal.
  assert (Unmap (Addr6 (Z.lor v4_in_6 v) zone) = Addr4 v) as ->; [|done].
  assert (Z.shiftr v 32 = 0) as Hs by (rewrite Z.shiftr_div_pow2 by lia; apply Z.div_small; lia).
  unfold Unmap, Is4In6. cbn [addr_value]. rewrite Z.shiftr_lor, Hs.
  replace (Z.lor (Z.shiftr v4_in_6 32) 0 =? 65535) with true by (vm_compute; reflexivity).
  f_equal. rewrite Z.land_lor_distr_l. replace (Z.land v4_in_6 (Z.ones 32)) with 0 by (vm_compute; reflexivity).
  rewrite Z.lor_0_l, Z.land_ones by lia. by apply Z.mod_small.
Qed.

Lemma IsDenied_respelling_witness :
  let g := Some (mkGuard [mkPrefix (Addr4 0x7F000000) 8]) in
  IsDenied g (Addr6 (Z.lor v4_in_6 0x7F000001) "eth0") = true.
Proof.
  cbv zeta. rewrite (IsDenied_respelling (Some (mkGuard [mkPrefix (Addr4 0x7F000000) 8])) 0x7F000001 "eth0") by lia.
  vm_compute. reflexivity.
Defined.

(** The default deny list compiles and denies every cloud metadata address
    and every loopback address, IPv4 and IPv6. *)
Theorem default_guard_denies :
  exists g, NewGuard defaultDenyCIDRs = Ok g /\
    (forall a, a ∈ metadataAddresses -> IsDenied (Some g) a = true) /\
    (forall v, 0 <= v < 2 ^ 24 -> IsDenied (Some g) (Addr4 (Z.shiftl 127 24 + v)) = true) /\
    IsDenied (Some g) (Addr6 1 "") = true.
Proof.
  eexists. split; [vm_compute; reflexivity|]. repeat split.
  - intros a Ha. apply list_elem_of_In in Ha. simpl in Ha.
    destruct Ha as [<- | [<- | [<- | []]]]; vm_compute; reflexivity.
  - intros v Hv. rewrite IsDenied_spec. apply existsb_exists.
    exists (mkPrefix (Addr4 (Z.shiftl 127 24)) 8). split; [simpl; tauto|].
    apply prefix_contains_spec. repeat split. change (Z.shiftr (Z.shiftl 127 24 + v) 24 = 127).
    rewrite Z.shiftr_div_pow2, Z.shiftl_mul_pow2, Z.div_add_l, Z.div_small by lia. done.
Qed.
