(* ===== verification/Allowlist.v ===== *)
(** * Default-deny allowlist (internal/transform/allowlist)

    [allowlist.go] and [private_ips.go]: requests are admitted by host, method
    and path rules; a rule may also authorize private addresses for its host. *)
From stdpp Require Import base gmap strings list option.
From Stdlib Require Import ZArith Lia Ascii.
From S2P Require Import Prelude GoUtf8 GoStrings GoNet Body GoHttp GoJson HostMatch Transform.
Local Open Scope string_scope.
Local Open Scope list_scope.
Local Open Scope Z_scope.

(** ** private_ips.go *)

Record privateRule := mkPrivateRule { pr_Rule : Rule; privateIPs : list Prefix }.

Inductive allowlist_error :=
  | ErrRule (e : nat * rule_error)
  | ErrPrivateCIDR (raw : string).

(** One entry of [allow_private_ips]: masked, and an IPv4-mapped prefix
    rewritten as the IPv4 prefix it stands for. *)
Definition compile_private_prefix (host raw : string) : result allowlist_error Prefix :=
  match ParsePrefix raw with
  | None => Err (ErrPrivateCIDR raw)
  | Some ip =>
    if is_empty host then Err (ErrPrivateCIDR raw)
    else
      let ip := Masked ip in
      if Is4In6 (pfx_addr ip)
      then Ok (PrefixFrom (Unmap (pfx_addr ip)) (pfx_bits ip - 96))
      else Ok ip
  end.

Definition compilePrivateRule (compiled : Rule) (cfg : RuleConfig) : result allowlist_error privateRule :=
  let* ips := rmap (compile_private_prefix (rc_Host cfg)) (rc_AllowPrivateIPs cfg) in
  Ok (mkPrivateRule compiled ips).

(** ** allowlist.go *)

Record Allowlist := mkAllowlist { al_rules : list privateRule; al_warn : bool }.

Record allowlistConfig := mkAllowlistConfig {
  cfg_Domains : list string;
  cfg_CIDRs : list string;
  cfg_Rules : list RuleConfig;
  cfg_Warn : bool;
}.

(** The rules a configuration stands for: its own, then one per non-empty
    domain, then one per CIDR. *)
Definition effective_rules (cfg : allowlistConfig) : list RuleConfig :=
  cfg_Rules cfg
  ++ map (fun h => mkRuleConfig h "" [] [] []) (List.filter (fun h => negb (is_empty h)) (cfg_Domains cfg))
  ++ map (fun c => mkRuleConfig "" c [] [] []) (cfg_CIDRs cfg).

Section allowlist.
Context `{UnicodeTables}.

(** [matchesHTTP]: a rule with paths never matches an escaped path that holds
    a percent sign, a backslash or a semicolon. *)
Definition matchesHTTP (r : privateRule) (req : Request) (host : string) : bool :=
  (bool_decide (r_Paths (pr_Rule r) = []) || negb (ContainsAny (EscapedPath (ReqURL req)) "%\;"))
  && Rule_Matches (pr_Rule r) host (Method req) (Path (ReqURL req)).

Definition Allowlist_PrivateIPs (a : Allowlist) (req : Request) : list Prefix :=
  concat (map (fun rule =>
    if negb (al_warn a) && matchesHTTP rule req (StripPort (URLHost (ReqURL req)))
    then privateIPs rule else []) (al_rules a)).

Definition newFromConfig (cfg : allowlistConfig) : result allowlist_error Allowlist :=
  let* rules := rmap (fun rc =>
    match CompileRules [rc] with
    | Ok (r :: _) => compilePrivateRule r rc
    | Ok [] => Err (ErrPrivateCIDR "")      (* unreachable: one rule in, one rule out *)
    | Err e => Err (ErrRule e)
    end) (effective_rules cfg) in
  Ok (mkAllowlist rules (cfg_Warn cfg)).

Definition NewAllowlist (domains cidrs : list string) : result allowlist_error Allowlist :=
  newFromConfig (mkAllowlistConfig domains cidrs [] false).

(** [matchesTunnelAuthority]: the inner request goes to the tunnel's host and
    port, the port defaulting by scheme. *)
Definition matchesTunnelAuthority (target requestHost : string) (tls : bool) : bool :=
  match SplitHostPort target with
  | None => false
  | Some (targetHost, targetPort) =>
    let requestPort := if tls then "443" else "80" in
    let req := if Contains requestHost ":" then SplitHostPort requestHost
               else Some (requestHost, requestPort) in
    match req with
    | None => false
    | Some (h, p) => EqualFold targetHost h && str_eqb targetPort p
    end
  end.

(** The decision [TransformRequest] makes. *)
Definition allowed_by (a : Allowlist) (tctx : TransformContext) (req : Request) : bool :=
  let host := StripPort (ReqHost req) in
  let authority :=
    TunnelAdmission tctx
    || match Tunnel tctx with
       | None => true
       | Some t => matchesTunnelAuthority (Target t) (ReqHost req) (ReqTLS req)
       end in
  existsb (fun rule =>
    authority && ((TunnelAdmission tctx && MatchesHost (pr_Rule rule) host)
                  || (negb (TunnelAdmission tctx) && matchesHTTP rule req host)))
    (al_rules a).

Definition Allowlist_TransformRequest {C} (a : Allowlist) (tctx : TransformContext) (s : ReqState C)
    : result string TransformResult * TransformContext * ReqState C :=
  if allowed_by a tctx (rq s) then (Ok continue_result, tctx, s)
  else if al_warn a then (Ok continue_result, Annotate tctx "action" (AStr "warn"), s)
  else (Ok reject_result, tctx, s).

Definition Allowlist_TransformResponse {C} (tctx : TransformContext) (s : ReqState C) (resp : Response)
    : result string TransformResult * TransformContext * ReqState C * Response :=
  (Ok continue_result, tctx, s, resp).

(** The allowlist as a pipeline stage. *)
Definition allowlist_transformer {C} (a : Allowlist) : Transformer C :=
  mkTransformer "allowlist" (Allowlist_TransformRequest a) Allowlist_TransformResponse None
    (Some (fun s => Allowlist_PrivateIPs a (rq s))).

(** ** Facts *)

Lemma newFromConfig_rules cfg a :
  newFromConfig cfg = Ok a ->
  al_warn a = cfg_Warn cfg /\
  Forall2 (fun rc r => compile_rule rc = Ok (pr_Rule r) /\
             Forall2 (fun raw p => compile_private_prefix (rc_Host rc) raw = Ok p)
               (rc_AllowPrivateIPs rc) (privateIPs r))
    (effective_rules cfg) (al_rules a).
Proof.
  unfold newFromConfig. intros (rules & Hr & [= <-])%rbind_Ok_inv. split; [done|].
  apply rmap_Ok in Hr. simpl. eapply Forall2_impl; [|exact Hr]. simpl. intros rc r Hc.
  destruct (CompileRules [rc]) as [[|r' rs]|e] eqn:E; [done| |done].
  unfold compilePrivateRule in Hc. apply rbind_Ok_inv in Hc as (ips & Hips & [= <-]).
  unfold CompileRules in E. simpl in E. destruct (compile_rule rc); simplify_eq/=.
  split; [done|]. by apply rmap_Ok.
Qed.

Lemma allowed_by_spec cfg a tctx req :
  Forall2 (fun rc r => compile_rule rc = Ok (pr_Rule r) /\
             Forall2 (fun raw p => compile_private_prefix (rc_Host rc) raw = Ok p)
               (rc_AllowPrivateIPs rc) (privateIPs r)) (effective_rules cfg) (al_rules a) ->
  TunnelAdmission tctx = false ->
  allowed_by a tctx req = true <->
   (forall t, Tunnel tctx = Some t -> matchesTunnelAuthority (Target t) (ReqHost req) (ReqTLS req) = true) /\
   exists rc, rc ∈ effective_rules cfg /\
     rule_denotes rc (StripPort (ReqHost req)) (Method req) (Path (ReqURL req)) /\
     (rc_Paths rc <> [] -> ContainsAny (EscapedPath (ReqURL req)) "%\;" = false).
Proof.
  intros Hrules Hadm. unfold allowed_by. rewrite Hadm. cbn [negb andb orb]. rewrite existsb_elem.
  assert (forall rc rule, compile_rule rc = Ok (pr_Rule rule) ->
    matchesHTTP rule req (StripPort (ReqHost req)) = true <->
    rule_denotes rc (StripPort (ReqHost req)) (Method req) (Path (ReqURL req)) /\
    (rc_Paths rc <> [] -> ContainsAny (EscapedPath (ReqURL req)) "%\;" = false)) as Hm.
  { intros rc rule Hc. unfold matchesHTTP. rewrite andb_true_iff, (compile_rule_matches rc) by done.
    rewrite <- (compile_rule_paths rc (pr_Rule rule)) by done.
    case_bool_decide; destruct (ContainsAny _ _); naive_solver. }
  split.
  - intros (rule & Hin & [Ha Hmr]%andb_true_iff).
    destruct (Forall2_elem_r _ _ _ _ Hrules Hin) as (rc & Hrc & Hc & _).
    split; [by intros t Ht; rewrite Ht in Ha|]. exists rc. split; [done|]. by apply (Hm _ rule).
  - intros (Ha & rc & Hrc & Hd). destruct (Forall2_elem_l _ _ _ _ Hrules Hrc) as (rule & Hin & Hc & _).
    exists rule. split; [done|]. apply andb_true_iff. split; [destruct (Tunnel tctx); auto|].
    by apply (Hm rc).
Qed.

End allowlist.

(** C2: Default deny, end to end.  For an allowlist built from a configuration
    without [warn], a request outside tunnel admission is passed on only when
    some rule of the configuration (its own, or one per listed domain or CIDR)
    says so of its host, method and path, and, inside a tunnel, when the
    request goes to the tunnel's own host and port; otherwise it is rejected.
    Nothing else decides. *)
Theorem allowlist_default_deny `{UnicodeTables} {C} cfg a tctx (s : ReqState C) :
  newFromConfig cfg = Ok a -> cfg_Warn cfg = false -> TunnelAdmission tctx = false ->
  let req := rq s in
  let r := Allowlist_TransformRequest a tctx s in
  (r = (Ok continue_result, tctx, s) \/ r = (Ok reject_result, tctx, s)) /\
  (r = (Ok continue_result, tctx, s) <->
   (forall t, Tunnel tctx = Some t -> matchesTunnelAuthority (Target t) (ReqHost req) (ReqTLS req) = true) /\
   exists rc, rc ∈ effective_rules cfg /\
     rule_denotes rc (StripPort (ReqHost req)) (Method req) (Path (ReqURL req)) /\
     (rc_Paths rc <> [] -> ContainsAny (EscapedPath (ReqURL req)) "%\;" = false)).
Proof.
  intros Hnew Hwarn Hadm req r. apply newFromConfig_rules in Hnew as [Hw Hrules].
  rewrite Hwarn in Hw. subst r. unfold Allowlist_TransformRequest. rewrite Hw.
  change (rq s) with req. rewrite <- (allowed_by_spec cfg a tctx req Hrules Hadm).
  destruct (allowed_by a tctx req); split; auto; by split.
Qed.

Lemma allowlist_default_deny_witness :
  let _ := ascii_tables in
  exists a, NewAllowlist ["*.example.com"] [] = Ok a /\
    Allowlist_TransformRequest a example_ctx (mkReqState example_req ()) =
      (Ok reject_result, example_ctx, mkReqState example_req ()).
Proof.
  cbv zeta. eexists. split; [vm_compute; reflexivity|].
  match goal with |- Allowlist_TransformRequest ?a _ _ = _ =>
    destruct (proj1 (@allowlist_default_deny ascii_tables unit
      (mkAllowlistConfig ["*.example.com"] [] [] false) a example_ctx (mkReqState example_req ())
      ltac:(vm_compute; reflexivity) eq_refl eq_refl)) as [E|E]
  end.
  - vm_compute in E. discriminate E.
  - exact E.
Defined.

(** Private addresses are opt-in per host.  Every prefix the allowlist
    offers for a request was written, up to masking and IPv4 unmapping, in the
    [allow_private_ips] of a configured host rule that matches the request's
    destination, method and path; an allowlist that only warns offers none. *)
Theorem PrivateIPs_explicit `{UnicodeTables} cfg a req p :
  newFromConfig cfg = Ok a -> p ∈ Allowlist_PrivateIPs a req ->
  cfg_Warn cfg = false /\
  exists rc raw, rc ∈ effective_rules cfg /\ rc_Host rc <> "" /\
    rule_denotes rc (StripPort (URLHost (ReqURL req))) (Method req) (Path (ReqURL req)) /\
    raw ∈ rc_AllowPrivateIPs rc /\ compile_private_prefix (rc_Host rc) raw = Ok p.
Proof.
  intros [Hw Hrules]%newFromConfig_rules Hp. unfold Allowlist_PrivateIPs in Hp.
  apply list_elem_of_In, in_concat in Hp as (ips & (rule & <- & Hr)%in_map_iff & Hp).
  destruct (negb (al_warn a) && _) eqn:E; [|done]. bool_prop. split; [congruence|].
  apply list_elem_of_In in Hr. destruct (Forall2_elem_r _ _ _ _ Hrules Hr) as (rc & Hrc & Hc & Hips).
  apply list_elem_of_In in Hp. destruct (Forall2_elem_r _ _ _ _ Hips Hp) as (raw & Hraw & Hpre).
  exists rc, raw. split; [done|]. split.
  { unfold compile_private_prefix in Hpre. destruct (ParsePrefix raw); [|done].
    destruct (is_empty (rc_Host rc)) eqn:Eh; [done|]. by apply is_empty_false in Eh. }
  split; [|done]. eapply compile_rule_matches; [done|]. unfold matchesHTTP in H1. by bool_prop.
Qed.

Lemma PrivateIPs_explicit_witness :
  let _ := ascii_tables in
  let cfg := mkAllowlistConfig [] [] [mkRuleConfig "db.internal" "" [] [] ["10.1.2.3/16"]] false in
  let req := mkRequest "GET" "db.internal" (mkURL "https" None "db.internal:443" "/" "" "") ∅
               (BufferedBody.NewBufferedBody None 0) 0 true in
  exists a, newFromConfig cfg = Ok a /\
    exists rc raw, rc ∈ effective_rules cfg /\ raw ∈ rc_AllowPrivateIPs rc /\
      compile_private_prefix (rc_Host rc) raw = Ok (mkPrefix (Addr4 0x0A010000) 16).
Proof.
  cbv zeta. eexists. split; [vm_compute; reflexivity|].
  match goal with |- context [effective_rules ?cfg] =>
    destruct (proj2 (@PrivateIPs_explicit ascii_tables cfg _
      (mkRequest "GET" "db.internal" (mkURL "https" None "db.internal:443" "/" "" "") ∅
         (BufferedBody.NewBufferedBody None 0) 0 true) (mkPrefix (Addr4 0x0A010000) 16)
      ltac:(vm_compute; reflexivity) ltac:(vm_compute; apply list_elem_of_here)))
      as (rc & raw & H1 & _ & _ & H2 & H3)
  end.
  exact (ex_intro _ rc (ex_intro _ raw (conj H1 (conj H2 H3)))).
Defined.
