(* ===== verification/PrivateConn.v ===== *)
(** * Private connections and pipeline reloads

    [internal/transform/holder.go] and [private_ips.go], and the dial path of
    [internal/proxy/private_ip.go]: a connection to a denied address is opened
    only with the explicit consent of every allowlist, and a reload that
    withdraws the consent closes it. *)
From stdpp Require Import base gmap strings list option sets.
From Stdlib Require Import ZArith Lia Ascii.
From S2P Require Import Prelude GoUtf8 GoStrings GoNet Body GoHttp GoJson Transform DnsGuard.
Local Open Scope string_scope.
Local Open Scope list_scope.
Local Open Scope Z_scope.

Section private.
Context {C : Type}.

(** ** PrivateIPPermission *)

(** The prefixes each transform with a [PrivateIPs] method offers; [None] as
    soon as one offers nothing. *)
Fixpoint private_checks (ts : list (Transformer C)) (req : ReqState C) : option (list (list Prefix)) :=
  match ts with
  | [] => Some []
  | t :: ts' =>
    match PrivateIPs t with
    | None => private_checks ts' req
    | Some f => match f req with
                | [] => None
                | ps => (cons ps) <$> private_checks ts' req
                end
    end
  end.

(** [PrivateIPPermission]: [None] is the nil function. *)
Definition PrivateIPPermission (p : Pipeline C) (req : ReqState C) : option (Addr -> bool) :=
  match private_checks (transforms p) req with
  | None | Some [] => None
  | Some checks => Some (fun ip => forallb (fun ps => existsb (fun q => prefix_contains q ip) ps) checks)
  end.

(** ** PipelineHolder

    Pipelines and tracked connections are pointers: each carries an identity.
    A connection remembers the test that must hold of the current pipeline. *)
Record PipelinePtr := mkPtr { ptr_id : nat; ptr_pipeline : Pipeline C }.

Record Holder := mkHolder {
  current : option PipelinePtr;
  connections : gmap nat (Pipeline C -> bool);
  closed_conns : gset nat;          (* sockets that were closed *)
  closed_pipelines : list nat;      (* pipelines whose Close ran *)
}.

Definition NewPipelineHolder (initial : option PipelinePtr) : Holder := mkHolder initial ∅ ∅ [].

Definition revoked (next : option PipelinePtr) (c : nat * (Pipeline C -> bool)) : Prop :=
  match next with
  | None => True
  | Some p => snd c (ptr_pipeline p) = false
  end.
#[global] Instance revoked_dec next c : Decision (revoked next c).
Proof. destruct next; simpl; apply _. Defined.

(** [Store]: swap the pipeline and close every connection the next one does
    not allow, then close the old pipeline. *)
Definition Store (h : Holder) (next : option PipelinePtr) : Holder :=
  mkHolder next
    (filter (fun c => not (revoked next c)) (connections h))
    (closed_conns h ∪ dom (filter (fun c => revoked next c) (connections h)))
    (match current h with
     | Some old => if bool_decide (Some (ptr_id old) = ptr_id <$> next)
                   then closed_pipelines h else closed_pipelines h ++ [ptr_id old]
     | None => closed_pipelines h
     end).

(** [TrackPrivateConnection]: [conn] is a fresh socket. *)
Definition TrackPrivateConnection (h : Holder) (conn : nat) (allowed : Pipeline C -> bool)
    : result string Holder :=
  match current h with
  | None => Err "private IP policy was withdrawn"
  | Some p =>
    if allowed (ptr_pipeline p)
    then Ok (mkHolder (current h) (<[conn := allowed]> (connections h)) (closed_conns h) (closed_pipelines h))
    else Err "private IP policy was withdrawn"
  end.

(** [privateConnection.Close]. *)
Definition CloseConn (h : Holder) (conn : nat) : Holder :=
  mkHolder (current h) (delete conn (connections h)) ({[conn]} ∪ closed_conns h) (closed_pipelines h).

(** ** The dial path *)

(** The test a private dial installs: not denied, or permitted by the pipeline
    for the policy's view of the request. *)
Definition private_allowed (g : option Guard) (policy : ReqState C) (pipeline : Pipeline C)
    (address : string) : bool :=
  match ParseAddrPort address with
  | None => false
  | Some ip =>
    if negb (IsDenied g ip) then true
    else match PrivateIPPermission pipeline policy with
         | None => false
         | Some permit => permit (WithZone (Unmap ip) "")
         end
  end.

(** The dialer's [Control] hook. *)
Definition private_control (g : option Guard) (policy : ReqState C) (pipeline : Pipeline C)
    (address : string) : option DenyError :=
  match DialControl g address with
  | Some e => if private_allowed g policy pipeline address then None else Some e
  | None => None
  end.

(** [dialPrivate] once the dialer has a socket [conn] to [remote]: it is
    tracked, or closed when the policy was withdrawn meanwhile. *)
Definition dialPrivate (g : option Guard) (policy : ReqState C) (h : Holder) (conn : nat)
    (remote : string) : result string nat * Holder :=
  match TrackPrivateConnection h conn (fun p => private_allowed g policy p remote) with
  | Ok h' => (Ok conn, h')
  | Err e => (Err e, mkHolder (current h) (connections h) ({[conn]} ∪ closed_conns h) (closed_pipelines h))
  end.

(** ** Reachability

    The holder as a state machine: reloads, tracked dials and closes, in any
    order; a dial uses a socket that is neither tracked nor closed. *)
Inductive holder_step : Holder -> Holder -> Prop :=
  | step_store h next : holder_step h (Store h next)
  | step_track h conn allowed h' :
      connections h !! conn = None -> conn ∉ closed_conns h ->
      TrackPrivateConnection h conn allowed = Ok h' -> holder_step h h'
  | step_close h conn : is_Some (connections h !! conn) -> holder_step h (CloseConn h conn).

Inductive reachable (initial : option PipelinePtr) : Holder -> Prop :=
  | reach_init : reachable initial (NewPipelineHolder initial)
  | reach_step h h' : reachable initial h -> holder_step h h' -> reachable initial h'.

(** Every tracked connection is open and allowed by the current pipeline. *)
Definition holder_inv (h : Holder) : Prop :=
  forall conn allowed, connections h !! conn = Some allowed ->
    (conn ∉ closed_conns h) /\
    (exists p, current h = Some p /\ allowed (ptr_pipeline p) = true).

Lemma holder_inv_step h h' : holder_inv h -> holder_step h h' -> holder_inv h'.
Proof.
  intros Hinv Hs. destruct Hs as [h next|h conn allowed h' Hnew Hopen Ht|h conn _];
    intros c f Hc; simpl in *.
  - apply map_lookup_filter_Some in Hc as [Hc Hr]. destruct (Hinv _ _ Hc) as [Hcl _].
    split.
    + rewrite elem_of_union, elem_of_dom. intros [? | [f' Hf]]; [done|].
      apply map_lookup_filter_Some in Hf as [Hf Hrev]. simplify_eq. done.
    + unfold revoked in Hr. destruct next as [p|]; [|done]. exists p. split; [done|].
      simpl in Hr. by destruct (f (ptr_pipeline p)).
  - unfold TrackPrivateConnection in Ht. destruct (current h) as [p|] eqn:Ep; [|done].
    destruct (allowed (ptr_pipeline p)) eqn:Ea; simplify_eq. simpl in *.
    rewrite lookup_insert in Hc. case_decide; simplify_eq.
    + eauto.
    + destruct (Hinv _ _ Hc) as [? (q & ? & ?)]. rewrite Ep in *. simplify_eq. eauto.
  - rewrite lookup_delete in Hc. case_decide; [done|]. destruct (Hinv _ _ Hc) as [? ?].
    split; [|done]. set_solver.
Qed.

Lemma reachable_inv initial h : reachable initial h -> holder_inv h.
Proof.
  induction 1; [|by eapply holder_inv_step]. intros c f. simpl. by rewrite lookup_empty.
Qed.

End private.

Arguments PipelinePtr C : clear implicits.
Arguments Holder C : clear implicits.

(** C16: A reload fences revoked sockets.  In every state the holder can reach by
    reloads, dials and closes, each tracked private connection is still open
    and is allowed by the current pipeline; and a reload closes exactly the
    tracked connections the next pipeline does not allow, leaving the others
    tracked. *)
Theorem reload_fences {C} (initial : option (PipelinePtr C)) h next :
  reachable initial h ->
  holder_inv h /\ holder_inv (Store h next) /\
  forall conn allowed, connections h !! conn = Some allowed ->
    (conn ∈ closed_conns (Store h next) <->
     match next with None => True | Some p => allowed (ptr_pipeline p) = false end) /\
    (conn ∉ closed_conns (Store h next) <-> connections (Store h next) !! conn = Some allowed).
Proof.
  intros Hr. assert (Hinv := reachable_inv _ _ Hr). split; [done|].
  split; [by eapply holder_inv_step; [|constructor]|]. intros conn allowed Hc.
  destruct (Hinv _ _ Hc) as [Hopen _]. simpl.
  assert (conn ∈ closed_conns h ∪ dom (filter (fun c => revoked next c) (connections h))
          <-> revoked next (conn, allowed)) as Hcl.
  { rewrite elem_of_union, elem_of_dom. split.
    - intros [? | [f Hf]]; [done|]. apply map_lookup_filter_Some in Hf as [Hf Hrev]. by simplify_eq.
    - intros Hrev. right. exists allowed. by apply map_lookup_filter_Some. }
  split; [exact Hcl|]. rewrite Hcl, map_lookup_filter_Some. tauto.
Qed.

Section consent.
Context {C : Type}.
Implicit Types (ts : list (Transformer C)) (policy : ReqState C).

(** The checks collected for a request: one list of prefixes, never empty, per
    transform with a private-address policy. *)
Lemma private_checks_spec ts policy checks :
  private_checks ts policy = Some checks ->
  (forall t f, t ∈ ts -> PrivateIPs t = Some f -> f policy ∈ checks) /\
  (checks <> [] -> exists t f, t ∈ ts /\ PrivateIPs t = Some f).
Proof.
  revert checks. induction ts as [|t ts IH]; simpl; intros checks Hc.
  { simplify_eq. split; [|done]. intros t f Ht. by apply elem_of_nil in Ht. }
  destruct (PrivateIPs t) as [f|] eqn:Ef.
  - destruct (f policy) as [|q qs] eqn:Efp; [done|].
    destruct (private_checks ts policy) as [cs|] eqn:Ecs; simplify_eq/=.
    destruct (IH _ eq_refl) as [IH1 _]. split.
    + intros t' f' [-> | Ht']%elem_of_cons Hf'; rewrite elem_of_cons; [left; congruence|].
      right. by eapply IH1.
    + intros _. exists t, f. rewrite elem_of_cons. auto.
  - destruct (IH _ Hc) as [IH1 IH2]. split.
    + intros t' f' [-> | Ht']%elem_of_cons Hf'; [congruence | by eapply IH1].
    + intros (t' & f' & ? & ?)%IH2. exists t', f'. rewrite elem_of_cons. auto.
Qed.

End consent.

(** A denied address is dialled only by consent.  When the test a private
    dial installs (in its control hook and for the life of the connection)
    accepts an address the deny list refuses, at least one transform of the
    pipeline has a private-address policy, and every transform that has one
    offers, for this request, a prefix that contains the unmapped, zone-free
    address. *)
Theorem private_dial_needs_consent {C} g (policy : ReqState C) (p : Pipeline C) address ip :
  ParseAddrPort address = Some ip -> IsDenied g ip = true ->
  private_allowed g policy p address = true ->
  (exists t f, t ∈ transforms p /\ PrivateIPs t = Some f) /\
  forall t f, t ∈ transforms p -> PrivateIPs t = Some f ->
    exists q, q ∈ f policy /\ prefix_contains q (WithZone (Unmap ip) "") = true.
Proof.
  intros Hip Hden Ha. unfold private_allowed in Ha. rewrite Hip, Hden in Ha. simpl in Ha.
  unfold PrivateIPPermission in Ha.
  destruct (private_checks (transforms p) policy) as [checks|] eqn:Ec; [|done].
  destruct (private_checks_spec _ _ _ Ec) as [Hin Hex].
  assert (checks <> [] /\ forallb (fun ps => existsb (fun q => prefix_contains q (WithZone (Unmap ip) "")) ps) checks = true)
    as [Hne Hall] by (by destruct checks).
  split; [by apply Hex|]. intros t f Ht Hf. apply existsb_elem.
  rewrite forallb_forall in Hall. apply Hall, list_elem_of_In. by eapply Hin.
Qed.

(** An allowlist that offers 10.0.0.0/8 for every request. *)
Definition offers_ten : Transformer unit :=
  mkTransformer "allowlist" (fun t s => (Ok continue_result, t, s))
    (fun t s r => (Ok continue_result, t, s, r)) None
    (Some (fun _ => [mkPrefix (Addr4 0x0A000000) 8])).

Lemma private_dial_needs_consent_witness :
  let g := Some (mkGuard [mkPrefix (Addr4 0x0A000000) 8]) in
  let p := mkPipeline [offers_ten] (mkLimits 0 0) in
  private_allowed g (mkReqState example_req ()) p "10.1.2.3:443" = true /\
  forall t f, t ∈ transforms p -> PrivateIPs t = Some f ->
    exists q, q ∈ f (mkReqState example_req ()) /\ prefix_contains q (Addr4 0x0A010203) = true.
Proof.
  cbv zeta. split; [vm_compute; reflexivity|].
  exact (proj2 (private_dial_needs_consent (Some (mkGuard [mkPrefix (Addr4 0x0A000000) 8]))
    (mkReqState example_req ()) (mkPipeline [offers_ten] (mkLimits 0 0)) "10.1.2.3:443" (Addr4 0x0A010203)
    ltac:(vm_compute; reflexivity) ltac:(vm_compute; reflexivity) ltac:(vm_compute; reflexivity))).
Defined.

(** Two private connections are dialled under a pipeline that offers both
    ranges; the next one offers 10.0.0.0/8 only. *)
Definition offers_prefixes (ps : list Prefix) : Transformer unit :=
  mkTransformer "allowlist" (fun t s => (Ok continue_result, t, s))
    (fun t s r => (Ok continue_result, t, s, r)) None (Some (fun _ => ps)).
Definition both_ptr : PipelinePtr unit := mkPtr 1 (mkPipeline [offers_prefixes [mkPrefix (Addr4 0x0A000000) 8; mkPrefix (Addr4 0xC0A80000) 16]] (mkLimits 0 0)).
Definition ten_ptr : PipelinePtr unit := mkPtr 2 (mkPipeline [offers_ten] (mkLimits 0 0)).
Definition private_guard : option Guard := Some (mkGuard [mkPrefix (Addr4 0x0A000000) 8; mkPrefix (Addr4 0xC0A80000) 16]).
Definition remote_allowed (remote : string) (p : Pipeline unit) : bool := private_allowed private_guard (mkReqState example_req ()) p remote.
Definition two_dialled : Holder unit :=
  (dialPrivate private_guard (mkReqState example_req ())
     (dialPrivate private_guard (mkReqState example_req ()) (NewPipelineHolder (Some both_ptr)) 1 "10.1.2.3:443").2 2 "192.168.0.9:443").2.

Lemma two_dialled_reachable : reachable (Some both_ptr) two_dialled.
Proof.
  apply (reach_step _ (dialPrivate private_guard (mkReqState example_req ()) (NewPipelineHolder (Some both_ptr)) 1 "10.1.2.3:443").2).
  - apply (reach_step _ (NewPipelineHolder (Some both_ptr))); [constructor|].
    apply (step_track _ 1 (remote_allowed "10.1.2.3:443")); [reflexivity | apply not_elem_of_empty | vm_compute; reflexivity].
  - apply (step_track _ 2 (remote_allowed "192.168.0.9:443")); [reflexivity | apply not_elem_of_empty | vm_compute; reflexivity].
Qed.

(** The reload closes the connection it revokes and keeps the other. *)
Lemma reload_fences_witness :
  (2%nat ∈ closed_conns (Store two_dialled (Some ten_ptr))) /\
  (1%nat ∉ closed_conns (Store two_dialled (Some ten_ptr))) /\
  connections (Store two_dialled (Some ten_ptr)) !! 1%nat = Some (remote_allowed "10.1.2.3:443").
Proof.
  destruct (reload_fences (Some both_ptr) two_dialled (Some ten_ptr) two_dialled_reachable) as (_ & _ & Hf).
  destruct (Hf 1%nat (remote_allowed "10.1.2.3:443") ltac:(vm_compute; reflexivity)) as [Hc1 Hk1].
  destruct (Hf 2%nat (remote_allowed "192.168.0.9:443") ltac:(vm_compute; reflexivity)) as [Hc2 _].
  split; [apply Hc2; vm_compute; reflexivity|].
  assert (1%nat ∉ closed_conns (Store two_dialled (Some ten_ptr))) as Hn by (intros Hin; apply Hc1 in Hin; vm_compute in Hin; discriminate Hin).
  split; [exact Hn | by apply Hk1].
Defined.
