(* ===== verification/GoJsonParse.v ===== *)
(** * [encoding/json]: decoding and re-encoding

    The scanner of [encoding/json] as a recursive-descent parser over bytes.
    Every value of the tree keeps the text it was read from, which is what a
    [json.RawMessage] captures.  Numbers become the nearest float64 by exact
    integer arithmetic. *)
From stdpp Require Import base gmap strings list option sorting.
From Stdlib Require Import ZArith Lia Ascii SpecFloat.
From S2P Require Import Prelude GoUtf8 GoStrings GoNet Body GoHttp GoJson.
Local Open Scope string_scope.
Local Open Scope list_scope.
Local Open Scope Z_scope.

(** ** Syntax trees *)

Inductive json :=
  | JNull
  | JBool (b : bool)
  | JNum (lit : string)
  | JStr (raw s : string)
  | JArr (raw : string) (l : list json)
  | JObj (raw : string) (m : list (string * json)).

Definition json_raw (j : json) : string :=
  match j with
  | JNull => "null"
  | JBool b => if b then "true" else "false"
  | JNum lit => lit
  | JStr raw _ | JArr raw _ | JObj raw _ => raw
  end.

(** ** Strings *)

(** [getu4]: the four hex digits after [\u]. *)
Definition getu4 (s : list Z) : option (Z * list Z) :=
  match s with
  | a :: b :: c :: d :: s' =>
    match hex_byte_value a, hex_byte_value b, hex_byte_value c, hex_byte_value d with
    | Some a, Some b, Some c, Some d => Some (((a * 16 + b) * 16 + c) * 16 + d, s')
    | _, _, _, _ => None
    end
  | _ => None
  end.

Definition is_high_surrogate (r : Z) : bool := in_range 0xD800 0xDBFF r.
Definition is_low_surrogate (r : Z) : bool := in_range 0xDC00 0xDFFF r.

(** The byte an escape letter stands for. *)
Definition simple_escape (c : Z) : option Z :=
  if (c =? 34) || (c =? 92) || (c =? 47) then Some c
  else if c =? 98 then Some 8 else if c =? 102 then Some 12
  else if c =? 110 then Some 10 else if c =? 114 then Some 13
  else if c =? 116 then Some 9 else None.

(** The bytes of a string literal after its opening quote, decoded up to the
    closing quote.  A surrogate that is not followed by its partner, and a
    byte that is not UTF-8, decode to the replacement character. *)
Fixpoint scan_string (fuel : nat) (s : list Z) : option (list Z * list Z) :=
  match fuel with
  | O => None
  | S f =>
    match s with
    | [] => None
    | c :: s' =>
      if c =? 34 then Some ([], s')
      else if c <? 32 then None
      else if c =? 92 then
        match s' with
        | [] => None
        | e :: s1 =>
          if e =? 117 then
            match getu4 s1 with
            | None => None
            | Some (r, s2) =>
              let lone := (if is_high_surrogate r || is_low_surrogate r then RuneError else r, s2) in
              let '(r', s3) :=
                if is_high_surrogate r then
                  match s2 with
                  | 92 :: 117 :: s2' =>
                    match getu4 s2' with
                    | Some (lo, s3) =>
                      if is_low_surrogate lo
                      then ((r - 0xD800) * 1024 + (lo - 0xDC00) + 0x10000, s3)
                      else lone
                    | None => lone
                    end
                  | _ => lone
                  end
                else lone in
              match scan_string f s3 with
              | Some (out, rest) => Some (EncodeRune r' ++ out, rest)
              | None => None
              end
            end
          else match simple_escape e with
               | Some b => match scan_string f s1 with
                           | Some (out, rest) => Some (b :: out, rest)
                           | None => None
                           end
               | None => None
               end
        end
      else
        let '(r, w) := DecodeRune s in
        match scan_string f (drop w s) with
        | Some (out, rest) => Some (EncodeRune r ++ out, rest)
        | None => None
        end
    end
  end.

(** ** Numbers *)

Fixpoint span_digits (s : list Z) : list Z * list Z :=
  match s with
  | c :: s' => if is_digit_ascii c then let '(d, r) := span_digits s' in (c :: d, r) else ([], s)
  | [] => ([], [])
  end.

(** A number literal: sign, integer digits, fraction digits, exponent. *)
Record numlit := mkNum { n_neg : bool; n_int : list Z; n_frac : list Z; n_exp : Z }.

Definition digits_value (d : list Z) : Z := fold_left (fun acc c => acc * 10 + (c - 48)) d 0.

Definition scan_number (s : list Z) : option (numlit * list Z) :=
  let '(neg, s0) := match s with 45 :: s' => (true, s') | _ => (false, s) end in
  let '(ip, s1) := match s0 with 48 :: s' => ([48], s') | _ => span_digits s0 end in
  if bool_decide (ip = []) then None else
  match (match s1 with
         | 46 :: s' => let '(fp, s2) := span_digits s' in
                       if bool_decide (fp = []) then None else Some (fp, s2)
         | _ => Some ([], s1)
         end) with
  | None => None
  | Some (fp, s2) =>
    match s2 with
    | c :: s' =>
      if (c =? 101) || (c =? 69) then
        let '(eneg, s3) := match s' with
                           | 45 :: s3 => (true, s3)
                           | 43 :: s3 => (false, s3)
                           | _ => (false, s')
                           end in
        let '(ed, s4) := span_digits s3 in
        if bool_decide (ed = []) then None
        else Some (mkNum neg ip fp (if eneg then - digits_value ed else digits_value ed), s4)
      else Some (mkNum neg ip fp 0, s2)
    | [] => Some (mkNum neg ip fp 0, s2)
    end
  end.

(** ** Values *)

Fixpoint skip_ws (s : list Z) : list Z :=
  match s with
  | c :: s' => if (c =? 32) || (c =? 9) || (c =? 13) || (c =? 10) then skip_ws s' else s
  | [] => []
  end.

Fixpoint strip_bytes (p s : list Z) : option (list Z) :=
  match p, s with
  | [], _ => Some s
  | a :: p', b :: s' => if a =? b then strip_bytes p' s' else None
  | _ :: _, [] => None
  end.

(** The text between two positions of the input, given what is left at each. *)
Definition consumed (s rest : list Z) : string := string_of_bytes (take (length s - length rest) s).

Definition maxNestingDepth : Z := 10000.

Fixpoint parse_value (fuel : nat) (depth : Z) (s : list Z) : option (json * list Z) :=
  match fuel with
  | O => None
  | S f =>
    match s with
    | [] => None
    | c :: s' =>
      if c =? 34 then
        match scan_string (S (length s')) s' with
        | Some (out, rest) => Some (JStr (consumed s rest) (string_of_bytes out), rest)
        | None => None
        end
      else if c =? 91 then
        if maxNestingDepth <=? depth then None else
        match skip_ws s' with
        | 93 :: rest => Some (JArr (consumed s rest) [], rest)
        | s1 => match parse_elems f (depth + 1) s1 with
                | Some (l, rest) => Some (JArr (consumed s rest) l, rest)
                | None => None
                end
        end
      else if c =? 123 then
        if maxNestingDepth <=? depth then None else
        match skip_ws s' with
        | 125 :: rest => Some (JObj (consumed s rest) [], rest)
        | s1 => match parse_members f (depth + 1) s1 with
                | Some (m, rest) => Some (JObj (consumed s rest) m, rest)
                | None => None
                end
        end
      else match strip_bytes [110; 117; 108; 108] s with
           | Some rest => Some (JNull, rest)
           | None =>
             match strip_bytes [116; 114; 117; 101] s with
             | Some rest => Some (JBool true, rest)
             | None =>
               match strip_bytes [102; 97; 108; 115; 101] s with
               | Some rest => Some (JBool false, rest)
               | None =>
                 match scan_number s with
                 | Some (_, rest) => Some (JNum (consumed s rest), rest)
                 | None => None
                 end
               end
             end
           end
    end
  end
(** The elements of an array from the first one to the closing bracket. *)
with parse_elems (fuel : nat) (depth : Z) (s : list Z) : option (list json * list Z) :=
  match fuel with
  | O => None
  | S f =>
    match parse_value f depth (skip_ws s) with
    | None => None
    | Some (v, s1) =>
      match skip_ws s1 with
      | 44 :: s2 => match parse_elems f depth s2 with
                    | Some (l, rest) => Some (v :: l, rest)
                    | None => None
                    end
      | 93 :: rest => Some ([v], rest)
      | _ => None
      end
    end
  end
(** The members of an object from the first key to the closing brace. *)
with parse_members (fuel : nat) (depth : Z) (s : list Z) : option (list (string * json) * list Z) :=
  match fuel with
  | O => None
  | S f =>
    match skip_ws s with
    | 34 :: s1 =>
      match scan_string (S (length s1)) s1 with
      | None => None
      | Some (k, s2) =>
        match skip_ws s2 with
        | 58 :: s3 =>
          match parse_value f depth (skip_ws s3) with
          | None => None
          | Some (v, s4) =>
            match skip_ws s4 with
            | 44 :: s5 => match parse_members f depth s5 with
                          | Some (m, rest) => Some ((string_of_bytes k, v) :: m, rest)
                          | None => None
                          end
            | 125 :: rest => Some ([(string_of_bytes k, v)], rest)
            | _ => None
            end
          end
        | _ => None
        end
      end
    | _ => None
    end
  end.

(** A whole document: one value, white space around it.  Between two bytes
    that are consumed at most two calls nest, so twice the length is fuel
    enough. *)
Definition json_parse (text : string) : option json :=
  let s := bytes_of_string text in
  match parse_value (2 * length s + 2) 0 (skip_ws s) with
  | Some (v, rest) => if bool_decide (skip_ws rest = []) then Some v else None
  | None => None
  end.

(** ** float64 literals *)

(** The float64 nearest to [num / den], ties to even: enough quotient bits
    are kept that the sticky bit decides every rounding. *)
Definition float64_of_ratio (neg : bool) (num den : Z) : float64 :=
  let shift := Z.max 0 (1200 + Z.log2 den - Z.log2 num) in
  let q := Z.shiftl num shift / den in
  let r := Z.shiftl num shift mod den in
  let m := 2 * q + (if r =? 0 then 0 else 1) in
  binary_normalize 53 1024 (if neg then - m else m) (- shift - 1) neg.

Definition is_finite (f : float64) : bool :=
  match f with S754_infinity _ | S754_nan => false | _ => true end.

(** [strconv.ParseFloat] on a number literal; [None] is a value out of range.
    The bounds on the decimal exponent decide the extreme literals without
    computing the power of ten. *)
Definition float64_of_lit (n : numlit) : option float64 :=
  let m := digits_value (n_int n ++ n_frac n) in
  let e := n_exp n - Z.of_nat (length (n_frac n)) in
  let digits := Z.of_nat (length (n_int n ++ n_frac n)) in
  if m =? 0 then Some (S754_zero (n_neg n))
  else if 400 <? e then None
  else if e + digits <? -400 then Some (S754_zero (n_neg n))
  else
    let f := if 0 <=? e then float64_of_ratio (n_neg n) (m * 10 ^ e) 1
             else float64_of_ratio (n_neg n) m (10 ^ (- e)) in
    if is_finite f then Some f else None.

Definition float64_of_text (lit : string) : option float64 :=
  match scan_number (bytes_of_string lit) with
  | Some (n, []) => float64_of_lit n
  | _ => None
  end.

(** ** Decoding into [any] *)

(** Assigning a key of a Go map. *)
Fixpoint assoc_set {V} (m : list (string * V)) (k : string) (v : V) : list (string * V) :=
  match m with
  | [] => [(k, v)]
  | (k', v') :: m' => if str_eqb k' k then (k, v) :: m' else (k', v') :: assoc_set m' k v
  end.
Definition assoc_get {V} (m : list (string * V)) (k : string) : option V :=
  snd <$> List.find (fun e => str_eqb (fst e) k) m.

(** A literal out of range is the one value that parses and does not decode. *)
Fixpoint json_any (j : json) : option any :=
  match j with
  | JNull => Some ANil
  | JBool b => Some (ABool b)
  | JNum lit => AFloat <$> float64_of_text lit
  | JStr _ s => Some (AStr s)
  | JArr _ l =>
    AList <$> (fix go l := match l with
                           | [] => Some []
                           | v :: l' => match json_any v, go l' with
                                        | Some a, Some r => Some (a :: r)
                                        | _, _ => None
                                        end
                           end) l
  | JObj _ m =>
    AMap <$> (fix go (acc : list (string * any)) (m : list (string * json)) :=
                match m with
                | [] => Some acc
                | (k, v) :: m' => match json_any v with
                                  | Some a => go (assoc_set acc k a) m'
                                  | None => None
                                  end
                end) [] m
  end.

(** [json.Unmarshal(text, &v)] with [v] of type [any]. *)
Definition Unmarshal_any (text : string) : option any :=
  match json_parse text with Some j => json_any j | None => None end.

(** ** Re-encoding *)

(** [json.Compact] with HTML escaping, as [json.Marshal] writes a
    [json.RawMessage]: white space outside strings is dropped, and [<], [>],
    [&] and the two line separators are escaped wherever they stand. *)
Fixpoint compact_bytes (in_str esc : bool) (s : list Z) : list Z :=
  match s with
  | [] => []
  | c :: s' =>
    if (c =? 60) || (c =? 62) || (c =? 38) then json_escape_rune c ++ compact_bytes in_str false s'
    else match s with
         | 0xE2 :: 0x80 :: 0xA8 :: s3 => json_escape_rune 0x2028 ++ compact_bytes in_str false s3
         | 0xE2 :: 0x80 :: 0xA9 :: s3 => json_escape_rune 0x2029 ++ compact_bytes in_str false s3
         | _ =>
           if in_str then
             c :: compact_bytes (esc || negb (c =? 34)) (negb esc && (c =? 92)) s'
           else if (c =? 32) || (c =? 9) || (c =? 13) || (c =? 10) then compact_bytes false false s'
           else c :: compact_bytes (c =? 34) false s'
         end
  end.
Definition json_compact (raw : string) : string :=
  string_of_bytes (compact_bytes false false (bytes_of_string raw)).

(** ** Formatting float64 *)

(** The exact value of a finite number as a fraction. *)
Definition float64_ratio (f : float64) : Z * Z :=
  match f with
  | S754_finite _ m e => if 0 <=? e then (Z.pos m * 2 ^ e, 1) else (Z.pos m, 2 ^ (- e))
  | _ => (0, 1)
  end.

(** [10 ^ k <= num / den], for any integer [k]. *)
Definition ge_pow10 (num den k : Z) : bool :=
  if 0 <=? k then den * 10 ^ k <=? num else den <=? num * 10 ^ (- k).
(** The decimal exponent of a positive fraction, searched up from below. *)
Fixpoint decimal_exp (fuel : nat) (num den k : Z) : Z :=
  match fuel with
  | O => k
  | S f => if ge_pow10 num den (k + 1) then decimal_exp f num den (k + 1) else k
  end.

(** The two [n]-digit decimals around the value, and which of them reads back
    as the same float64; the nearer one when both do. *)
Definition digits_at (f : float64) (num den k : Z) (n : nat) : option Z :=
  let p := k - Z.of_nat n + 1 in
  let '(a, b) := if 0 <=? p then (num, den * 10 ^ p) else (num * 10 ^ (- p), den) in
  let q := a / b in
  let back d := let g := if 0 <=? p then float64_of_ratio false (d * 10 ^ p) 1
                         else float64_of_ratio false d (10 ^ (- p)) in float64_eqb g (SFabs f) in
  let lo := if back q then Some q else None in
  let hi := if back (q + 1) then Some (q + 1) else None in
  match lo, hi with
  | Some _, Some _ => if 2 * (a mod b) <=? b then lo else hi
  | Some _, None => lo
  | None, _ => hi
  end.
Fixpoint shortest_digits (f : float64) (num den k : Z) (n fuel : nat) : Z * nat :=
  match fuel with
  | O => (0, n)
  | S fl => match digits_at f num den k n with
            | Some d => (d, n)
            | None => shortest_digits f num den k (S n) fl
            end
  end.

Fixpoint trim_zeros (fuel : nat) (d : Z) : Z :=
  match fuel with
  | O => d
  | S f => if (d mod 10 =? 0) && negb (d =? 0) then trim_zeros f (d / 10) else d
  end.

Definition zeros (n : Z) : string := string_of_bytes (repeat 48 (Z.to_nat n)).

(** [json.Marshal] of a finite float64: the shortest digits that read back,
    in exponent form outside [1e-6 .. 1e21). *)
Definition json_float (f : float64) : string :=
  match f with
  | S754_zero s => if s then "-0" else "0"
  | S754_finite s _ _ =>
    let '(num, den) := float64_ratio f in
    let k := decimal_exp 640 num den (-330) in
    let '(d0, n0) := shortest_digits f num den k 1 17 in
    let k := if 10 ^ Z.of_nat n0 <=? d0 then k + 1 else k in
    let d := trim_zeros 20 d0 in
    let ds := Itoa d in
    let len := Z.of_nat (String.length ds) in
    let body :=
      if SFltb (SFabs f) (float64_of_ratio false 1 1000000)
         || SFleb (float64_of_ratio false (10 ^ 21) 1) (SFabs f) then
        stake 1 ds +:+ (if 1 <? len then "." +:+ sdrop 1 ds else "") +:+ "e"
        +:+ (if k <? 0 then "-" else "+") +:+ Itoa (Z.abs k)
      else if k <? 0 then "0." +:+ zeros (- k - 1) +:+ ds
      else if len <=? k + 1 then ds +:+ zeros (k + 1 - len)
      else stake (Z.to_nat (k + 1)) ds +:+ "." +:+ sdrop (Z.to_nat (k + 1)) ds in
    if s then "-" +:+ body else body
  | _ => ""
  end.

(** ** Encoding [any] *)

Fixpoint any_insert_sorted (e : string * string) (l : list (string * string)) : list (string * string) :=
  match l with
  | [] => [e]
  | e' :: l' => if bool_decide (String.le (fst e) (fst e')) then e :: l else e' :: any_insert_sorted e l'
  end.
(** The entries of a map in the order [json.Marshal] writes them. *)
Definition sort_entries (l : list (string * string)) : list (string * string) :=
  fold_right any_insert_sorted [] l.

Definition json_object (entries : list (string * string)) : string :=
  "{" +:+ Join (map (fun e => json_string (fst e) +:+ ":" +:+ snd e) entries) "," +:+ "}".
Definition json_array (items : list string) : string := "[" +:+ Join items "," +:+ "]".

(** [json.Marshal(v)] for a JSON-decoded [v]. *)
Fixpoint Marshal_any (v : any) : string :=
  match v with
  | ANil => "null"
  | ABool b => if b then "true" else "false"
  | AInt n => Itoa n
  | AFloat f => json_float f
  | AStr s => json_string s
  | AList l => json_array (map Marshal_any l)
  | AMap m => json_object (sort_entries (map (fun e => (fst e, Marshal_any (snd e))) m))
  end.

(** ** Decoding into structs

    A member is stored in the field with its exact name, or else in the field
    whose name it equals up to case folding; members are stored in the order
    of the text, so the last one wins. *)
Definition struct_field `{UnicodeTables} (fields : list string) (key : string) : option string :=
  match List.find (fun f => str_eqb f key) fields with
  | Some f => Some f
  | None => List.find (fun f => EqualFold f key) fields
  end.
