(* ===== verification/GoEncoding.v ===== *)
(** * [encoding/base64], [encoding/base32] and [encoding/hex]

    The encoders regroup bits: bytes are written as characters of 6, 5 or 4
    bits.  The decoder is that of [base64.StdEncoding], which skips line
    breaks, and its strict variant. *)
From stdpp Require Import base gmap strings list option.
From Stdlib Require Import ZArith Lia Ascii.
From S2P Require Import Prelude GoUtf8 GoStrings.
Local Open Scope string_scope.
Local Open Scope list_scope.
Local Open Scope Z_scope.

(** ** Alphabets *)

Definition alphabet_std : list Z := bytes_of_string "ABCDEFGHIJKLMNOPQRSTUVWXYZabcdefghijklmnopqrstuvwxyz0123456789+/".
Definition alphabet_url : list Z := bytes_of_string "ABCDEFGHIJKLMNOPQRSTUVWXYZabcdefghijklmnopqrstuvwxyz0123456789-_".
Definition alphabet32_std : list Z := bytes_of_string "ABCDEFGHIJKLMNOPQRSTUVWXYZ234567".
Definition alphabet32_hex : list Z := bytes_of_string "0123456789ABCDEFGHIJKLMNOPQRSTUV".
Definition alphabet16 : list Z := bytes_of_string "0123456789abcdef".

Definition digit (alphabet : list Z) (v : Z) : Z := default 0 (alphabet !! Z.to_nat v).

(** ** Encoding *)

(** [base64] of a group of one, two or three bytes, without padding. *)
Fixpoint base64_raw (alphabet : list Z) (b : list Z) : list Z :=
  match b with
  | x :: y :: z :: rest =>
    let n := x * 65536 + y * 256 + z in
    digit alphabet (Z.land (Z.shiftr n 18) 63) :: digit alphabet (Z.land (Z.shiftr n 12) 63)
    :: digit alphabet (Z.land (Z.shiftr n 6) 63) :: digit alphabet (Z.land n 63) :: base64_raw alphabet rest
  | [x; y] =>
    let n := x * 65536 + y * 256 in
    [digit alphabet (Z.land (Z.shiftr n 18) 63); digit alphabet (Z.land (Z.shiftr n 12) 63);
     digit alphabet (Z.land (Z.shiftr n 6) 63)]
  | [x] =>
    let n := x * 65536 in
    [digit alphabet (Z.land (Z.shiftr n 18) 63); digit alphabet (Z.land (Z.shiftr n 12) 63)]
  | [] => []
  end.

Definition PAD : Z := 61.
Definition padding64 (n : nat) : list Z :=
  match (n mod 3)%nat with 1%nat => [PAD; PAD] | 2%nat => [PAD] | _ => [] end.

(** [base64.StdEncoding.EncodeToString]. *)
Definition base64_encode (b : list Z) : list Z := base64_raw alphabet_std b ++ padding64 (length b).

(** Regrouping of bits from the most significant one, the last group filled
    with zeros. *)
Fixpoint bits_of_byte (k : nat) (b : Z) : list bool :=
  match k with O => [] | S k' => Z.testbit b (Z.of_nat k') :: bits_of_byte k' b end.
Definition value_of_bits (l : list bool) : Z := fold_left (fun acc (b : bool) => acc * 2 + (if b then 1 else 0)) l 0.
Fixpoint groups (fuel k : nat) (l : list bool) : list Z :=
  match fuel with
  | O => []
  | S f =>
    match l with
    | [] => []
    | _ => let g := take k l in
           value_of_bits (g ++ repeat false (k - length g)) :: groups f k (drop k l)
    end
  end.
Definition regroup (k : nat) (b : list Z) : list Z :=
  let bits := concat (map (bits_of_byte 8) b) in groups (length bits) k bits.

(** [base32] with its padding to eight characters, and [hex]. *)
Definition base32_encode (alphabet : list Z) (b : list Z) : list Z :=
  let out := map (digit alphabet) (regroup 5 b) in
  out ++ repeat PAD ((8 - length out mod 8) mod 8).
Definition hex_encode (b : list Z) : list Z :=
  concat (map (fun x => [digit alphabet16 (Z.shiftr x 4); digit alphabet16 (Z.land x 15)]) b).

(** ** Decoding base64 *)

Fixpoint index_of (v : Z) (l : list Z) (i : Z) : option Z :=
  match l with
  | [] => None
  | x :: l' => if x =? v then Some i else index_of v l' (i + 1)
  end.
Definition digit_value (c : Z) : option Z := index_of c alphabet_std 0.

Definition skip_breaks (s : list Z) : list Z := List.filter (fun c => negb ((c =? 10) || (c =? 13))) s.

(** The quanta of four characters; [strict] asks that the bits behind the
    last byte are zero. *)
Fixpoint decode_quanta (strict : bool) (s : list Z) : option (list Z) :=
  match s with
  | [] => Some []
  | a :: b :: c :: d :: rest =>
    match digit_value a, digit_value b with
    | Some va, Some vb =>
      if c =? PAD then
        if (d =? PAD) && bool_decide (rest = []) && (negb strict || (Z.land vb 15 =? 0))
        then Some [va * 4 + Z.shiftr vb 4] else None
      else
        match digit_value c with
        | None => None
        | Some vc =>
          if d =? PAD then
            if bool_decide (rest = []) && (negb strict || (Z.land vc 3 =? 0))
            then Some [va * 4 + Z.shiftr vb 4; Z.land vb 15 * 16 + Z.shiftr vc 2] else None
          else
            match digit_value d, decode_quanta strict rest with
            | Some vd, Some out =>
              Some (va * 4 + Z.shiftr vb 4 :: Z.land vb 15 * 16 + Z.shiftr vc 2 :: Z.land vc 3 * 64 + vd :: out)
            | _, _ => None
            end
        end
    | _, _ => None
    end
  | _ => None
  end.

(** [base64.StdEncoding.DecodeString], and with [Strict()]. *)
Definition base64_decode (strict : bool) (s : list Z) : option (list Z) := decode_quanta strict (skip_breaks s).

Definition base64_EncodeToString (s : string) : string := string_of_bytes (base64_encode (bytes_of_string s)).
Definition base64_DecodeString (strict : bool) (s : string) : option string :=
  string_of_bytes <$> base64_decode strict (bytes_of_string s).

Example base64_ex :
  base64_EncodeToString "user:tok" = "dXNlcjp0b2s=" /\ base64_DecodeString true "dXNlcjp0b2s=" = Some "user:tok"
  /\ base64_DecodeString false "dXNlcjp0b2t=" = Some "user:tok" /\ base64_DecodeString true "dXNlcjp0b2t=" = None
  /\ base64_DecodeString true "dXNlcjp0b2s" = None.
Proof. vm_compute. auto. Qed.
Example base32_ex :
  string_of_bytes (base32_encode alphabet32_std (bytes_of_string "foob")) = "MZXW6YQ="
  /\ string_of_bytes (base32_encode alphabet32_hex (bytes_of_string "foobar")) = "CPNMUOJ1E8======"
  /\ string_of_bytes (hex_encode (bytes_of_string "az")) = "617a".
Proof. vm_compute. auto. Qed.

(** ** Decoding what was encoded *)

Lemma digit_value_digit v : 0 <= v < 64 -> digit_value (digit alphabet_std v) = Some v /\
  digit alphabet_std v <> PAD /\ (digit alphabet_std v =? 10) || (digit alphabet_std v =? 13) = false.
Proof.
  intros Hv. assert (Hin : v ∈ map Z.of_nat (seq 0 64)).
  { apply list_elem_of_fmap. exists (Z.to_nat v). split; [lia|]. apply elem_of_seq. lia. }
  revert Hin. generalize v. clear. apply list.Forall_forall.
  assert (Hall : Forall (fun v => bool_decide (digit_value (digit alphabet_std v) = Some v) &&
    negb (digit alphabet_std v =? PAD) &&
    negb ((digit alphabet_std v =? 10) || (digit alphabet_std v =? 13)) = true) (map Z.of_nat (seq 0 64))).
  { apply Forall_forall. apply forallb_forall. vm_compute. reflexivity. }
  eapply Forall_impl; [|exact Hall].
  intros v H. apply andb_true_iff in H as [[H1%bool_decide_eq_true H2]%andb_true_iff H3].
  apply negb_true_iff in H2, H3. apply Z.eqb_neq in H2. auto.
Qed.

(** The fields of a quantum in arithmetic. *)
Lemma field6 n k : 0 <= k -> Z.land (Z.shiftr n k) 63 = (n / 2 ^ k) mod 64.
Proof. intros Hk. rewrite Z.shiftr_div_pow2 by done. exact (Z.land_ones _ 6 ltac:(lia)). Qed.
Lemma low_bits n k : 0 <= k -> Z.land n (2 ^ k - 1) = n mod 2 ^ k.
Proof. intros Hk. rewrite <- Z.land_ones by done. by rewrite Z.ones_equiv. Qed.


Definition d64 (v : Z) : Z := digit alphabet_std v.

Lemma decode_full strict va vb vc vd rest :
  0 <= va < 64 -> 0 <= vb < 64 -> 0 <= vc < 64 -> 0 <= vd < 64 ->
  decode_quanta strict (d64 va :: d64 vb :: d64 vc :: d64 vd :: rest) =
    match decode_quanta strict rest with
    | Some out => Some (va * 4 + Z.shiftr vb 4 :: Z.land vb 15 * 16 + Z.shiftr vc 2 :: Z.land vc 3 * 64 + vd :: out)
    | None => None
    end.
Proof.
  intros Ha Hb Hc Hd. cbn [decode_quanta]. unfold d64.
  rewrite (proj1 (digit_value_digit va Ha)), (proj1 (digit_value_digit vb Hb)).
  rewrite (proj2 (Z.eqb_neq _ _) (proj1 (proj2 (digit_value_digit vc Hc)))), (proj1 (digit_value_digit vc Hc)).
  by rewrite (proj2 (Z.eqb_neq _ _) (proj1 (proj2 (digit_value_digit vd Hd)))), (proj1 (digit_value_digit vd Hd)).
Qed.

Lemma decode_one strict va vb :
  0 <= va < 64 -> 0 <= vb < 64 -> Z.land vb 15 = 0 ->
  decode_quanta strict [d64 va; d64 vb; PAD; PAD] = Some [va * 4 + Z.shiftr vb 4].
Proof.
  intros Ha Hb Hl. cbn [decode_quanta]. unfold d64.
  rewrite (proj1 (digit_value_digit va Ha)), (proj1 (digit_value_digit vb Hb)), Hl.
  simpl. by destruct strict.
Qed.

Lemma decode_two strict va vb vc :
  0 <= va < 64 -> 0 <= vb < 64 -> 0 <= vc < 64 -> Z.land vc 3 = 0 ->
  decode_quanta strict [d64 va; d64 vb; d64 vc; PAD] =
    Some [va * 4 + Z.shiftr vb 4; Z.land vb 15 * 16 + Z.shiftr vc 2].
Proof.
  intros Ha Hb Hc Hl. cbn [decode_quanta]. unfold d64.
  rewrite (proj1 (digit_value_digit va Ha)), (proj1 (digit_value_digit vb Hb)).
  rewrite (proj2 (Z.eqb_neq _ _) (proj1 (proj2 (digit_value_digit vc Hc)))), (proj1 (digit_value_digit vc Hc)), Hl.
  simpl. by destruct strict.
Qed.

Ltac fields := rewrite ?field6, ?Z.shiftr_div_pow2, ?(low_bits _ 4), ?(low_bits _ 2), ?(low_bits _ 6) by lia;
  change (2 ^ 18) with 262144; change (2 ^ 12) with 4096; change (2 ^ 6) with 64; change (2 ^ 4) with 16;
  change (2 ^ 2) with 4; Z.to_euclidean_division_equations; lia.

Lemma base64_quanta_roundtrip strict b :
  Forall is_byte b -> decode_quanta strict (base64_encode b) = Some b.
Proof.
  intros Hb. remember (length b) as n eqn:Hn. revert b Hn Hb.
  induction n as [n IH] using lt_wf_ind. intros b -> Hb. unfold base64_encode, padding64.
  destruct b as [|x [|y [|z rest]]].
  - reflexivity.
  - apply Forall_inv in Hb. unfold is_byte in Hb. cbn [base64_raw length app]. change (1 mod 3)%nat with 1%nat.
    cbn [app]. fold (d64 (Z.land (Z.shiftr (x * 65536) 18) 63)). fold (d64 (Z.land (Z.shiftr (x * 65536) 12) 63)).
    rewrite decode_one; [f_equal; f_equal|..]; fields.
  - inversion Hb as [|? ? Hx Hy']; subst. apply Forall_inv in Hy'. unfold is_byte in *. cbn [base64_raw length app].
    change (2 mod 3)%nat with 2%nat. cbn [app]. set (n := x * 65536 + y * 256) in *.
    fold (d64 (Z.land (Z.shiftr n 18) 63)). fold (d64 (Z.land (Z.shiftr n 12) 63)). fold (d64 (Z.land (Z.shiftr n 6) 63)).
    rewrite decode_two; [f_equal; f_equal; [|f_equal]|..]; subst n; fields.
  - inversion Hb as [|? ? Hx Hb1]; subst. inversion Hb1 as [|? ? Hy Hb2]; subst. inversion Hb2 as [|? ? Hz Hb3]; subst.
    cbn [base64_raw app]. set (n := x * 65536 + y * 256 + z) in *.
    fold (d64 (Z.land (Z.shiftr n 18) 63)). fold (d64 (Z.land (Z.shiftr n 12) 63)).
    fold (d64 (Z.land (Z.shiftr n 6) 63)). fold (d64 (Z.land n 63)).
    assert (Hpad : (length (x :: y :: z :: rest) mod 3 = length rest mod 3)%nat).
    { cbn [length]. replace (S (S (S (length rest)))) with (length rest + 1 * 3)%nat by lia. apply Nat.Div0.mod_add. }
    rewrite Hpad. change (match (length rest mod 3)%nat with 1%nat => [PAD; PAD] | 2%nat => [PAD] | _ => [] end)
      with (padding64 (length rest)). fold (base64_encode rest).
    unfold is_byte in *. rewrite decode_full; [rewrite (IH (length rest)) by (cbn [length]; lia || done)|..];
      [f_equal; f_equal; [|f_equal; [|f_equal]]|..]; subst n; fields.
Qed.

(** No character of an encoding is a line break. *)
Lemma digit_plain v : 0 <= v < 64 -> negb ((d64 v =? 10) || (d64 v =? 13)) = true.
Proof. intros Hv. unfold d64. by rewrite (proj2 (proj2 (digit_value_digit v Hv))). Qed.

Lemma field6_range n k : 0 <= Z.land (Z.shiftr n k) 63 < 64.
Proof. change 63 with (Z.ones 6). rewrite Z.land_ones by lia. apply Z.mod_pos_bound. lia. Qed.

Lemma base64_raw_plain b : Forall (fun c => negb ((c =? 10) || (c =? 13)) = true) (base64_raw alphabet_std b).
Proof.
  remember (length b) as n eqn:Hn. revert b Hn. induction n as [n IH] using lt_wf_ind. intros b ->.
  assert (Hd : forall m k, negb ((digit alphabet_std (Z.land (Z.shiftr m k) 63) =? 10)
                              || (digit alphabet_std (Z.land (Z.shiftr m k) 63) =? 13)) = true)
    by (intros; apply (digit_plain (Z.land (Z.shiftr m k) 63)), field6_range).
  assert (Hd0 : forall m, negb ((digit alphabet_std (Z.land m 63) =? 10) || (digit alphabet_std (Z.land m 63) =? 13)) = true)
    by (intros m; rewrite <- (Z.shiftr_0_r m); apply Hd).
  destruct b as [|x [|y [|z rest]]]; cbn [base64_raw]; repeat constructor; auto.
  apply (IH (length rest)); [cbn [length]; lia|done].
Qed.

Lemma skip_breaks_encode b : skip_breaks (base64_encode b) = base64_encode b.
Proof.
  unfold skip_breaks, base64_encode. rewrite filter_app. f_equal.
  - pose proof (base64_raw_plain b) as Hp. induction Hp as [|c l Hc _ IHl]; [done|]. cbn [List.filter].
    by rewrite Hc, IHl.
  - unfold padding64. by destruct (length b mod 3)%nat as [|[|[|]]].
Qed.

Lemma digit_byte v : is_byte (digit alphabet_std v).
Proof.
  unfold digit. destruct (alphabet_std !! Z.to_nat v) as [c|] eqn:E; [|simpl; unfold is_byte; lia].
  eapply Forall_lookup_1; [|exact E]. apply bytes_of_string_range.
Qed.

Lemma base64_encode_bytes b : Forall is_byte (base64_encode b).
Proof.
  unfold base64_encode. apply Forall_app. split.
  - remember (length b) as n eqn:Hn. revert b Hn. induction n as [n IH] using lt_wf_ind. intros b ->.
    destruct b as [|x [|y [|z rest]]]; cbn [base64_raw];
      repeat first [apply digit_byte | apply List.Forall_cons | apply List.Forall_nil].
    apply (IH (length rest)); [cbn [length]; lia|done].
  - unfold padding64. destruct (length b mod 3)%nat as [|[|[|]]]; repeat constructor; unfold is_byte, PAD; lia.
Qed.

(** What [EncodeToString] writes decodes to what was encoded. *)
Lemma base64_roundtrip strict s : base64_DecodeString strict (base64_EncodeToString s) = Some s.
Proof.
  unfold base64_DecodeString, base64_EncodeToString, base64_decode.
  rewrite bytes_of_string_of_bytes.
  - rewrite skip_breaks_encode, base64_quanta_roundtrip by apply bytes_of_string_range. simpl.
    by rewrite string_of_bytes_of_string.
  - apply base64_encode_bytes.
Qed.
