(* ===== verification/GoRawEncoding.v ===== *)
(** * [base64.RawURLEncoding] and [hex.DecodeString]

    The unpadded base64 that JWTs and SSH routes are written in, and the
    decoder of hexadecimal text, with what was encoded decoded back. *)
From stdpp Require Import base gmap strings list option.
From Stdlib Require Import ZArith Lia Ascii.
From S2P Require Import Prelude GoUtf8 GoStrings GoEncoding.
Local Open Scope string_scope.
Local Open Scope list_scope.
Local Open Scope Z_scope.

(** ** base64 without padding *)

Definition raw_value (c : Z) : option Z := index_of c alphabet_url 0.

(** The quanta; the last one may have two or three characters. *)
Fixpoint decode_raw (s : list Z) : option (list Z) :=
  match s with
  | [] => Some []
  | [_] => None
  | [a; b] =>
    va ← raw_value a; vb ← raw_value b; Some [va * 4 + Z.shiftr vb 4]
  | [a; b; c] =>
    va ← raw_value a; vb ← raw_value b; vc ← raw_value c;
    Some [va * 4 + Z.shiftr vb 4; Z.land vb 15 * 16 + Z.shiftr vc 2]
  | a :: b :: c :: d :: rest =>
    va ← raw_value a; vb ← raw_value b; vc ← raw_value c; vd ← raw_value d; out ← decode_raw rest;
    Some (va * 4 + Z.shiftr vb 4 :: Z.land vb 15 * 16 + Z.shiftr vc 2 :: Z.land vc 3 * 64 + vd :: out)
  end.

Definition RawURL_EncodeToString (s : string) : string := string_of_bytes (base64_raw alphabet_url (bytes_of_string s)).
Definition RawURL_DecodeString (s : string) : option string :=
  string_of_bytes <$> decode_raw (skip_breaks (bytes_of_string s)).

Example raw_url_ex :
  RawURL_EncodeToString "a?>~b" = "YT8-fmI" /\ RawURL_DecodeString "YT8-fmI" = Some "a?>~b"
  /\ RawURL_DecodeString "YT8-fmI=" = None /\ RawURL_DecodeString "YT8-f" = None.
Proof. vm_compute. auto. Qed.

Lemma raw_digit v : 0 <= v < 64 ->
  raw_value (digit alphabet_url v) = Some v /\ negb ((digit alphabet_url v =? 10) || (digit alphabet_url v =? 13)) = true
  /\ is_byte (digit alphabet_url v) /\ digit alphabet_url v <> 46.
Proof.
  intros Hv. assert (Hin : v ∈ map Z.of_nat (seq 0 64)).
  { apply list_elem_of_fmap. exists (Z.to_nat v). split; [lia|]. apply elem_of_seq. lia. }
  revert Hin. generalize v. clear. apply list.Forall_forall.
  assert (Hall : Forall (fun v => bool_decide (raw_value (digit alphabet_url v) = Some v) &&
    negb ((digit alphabet_url v =? 10) || (digit alphabet_url v =? 13)) &&
    ((0 <=? digit alphabet_url v) && (digit alphabet_url v <? 256)) && negb (digit alphabet_url v =? 46) = true)
    (map Z.of_nat (seq 0 64))).
  { apply Forall_forall. apply forallb_forall. vm_compute. reflexivity. }
  eapply Forall_impl; [|exact Hall].
  intros v Hv. apply andb_true_iff in Hv as [[[H1%bool_decide_eq_true H2]%andb_true_iff H3]%andb_true_iff H4].
  apply andb_true_iff in H3 as [H3%Z.leb_le H5%Z.ltb_lt]. apply negb_true_iff, Z.eqb_neq in H4.
  unfold is_byte. repeat split; auto; lia.
Qed.

Lemma raw_field n k : let v := Z.land (Z.shiftr n k) 63 in 0 <= v < 64.
Proof. apply field6_range. Qed.
Lemma raw_field0 n : 0 <= Z.land n 63 < 64.
Proof. rewrite <- (Z.shiftr_0_r n) at 1 2. apply field6_range. Qed.

(** Every character of an encoding is a digit of the alphabet. *)
Lemma base64_raw_digits b :
  Forall (fun c => exists v, 0 <= v < 64 /\ c = digit alphabet_url v) (base64_raw alphabet_url b).
Proof.
  remember (length b) as n eqn:Hn. revert b Hn. induction n as [n IH] using lt_wf_ind. intros b ->.
  destruct b as [|x [|y [|z rest]]]; cbn [base64_raw];
    repeat first [apply List.Forall_nil | apply List.Forall_cons; [eexists; split; [|reflexivity]; (apply field6_range || apply raw_field0)|]].
  apply (IH (length rest)); [cbn [length]; lia|done].
Qed.

Lemma skip_breaks_raw b : skip_breaks (base64_raw alphabet_url b) = base64_raw alphabet_url b.
Proof.
  unfold skip_breaks. induction (base64_raw_digits b) as [|c l (v & Hv & ->) _ IHl]; [done|]. cbn [List.filter].
  by rewrite (proj1 (proj2 (raw_digit v Hv))), IHl.
Qed.

Lemma base64_raw_bytes b : Forall is_byte (base64_raw alphabet_url b).
Proof. eapply Forall_impl; [|apply base64_raw_digits]. intros c (v & Hv & ->). by apply raw_digit. Qed.

(** Nothing of an encoding is the dot that separates the parts of a JWT. *)
Lemma RawURL_no_dot s : ~ 46 ∈ base64_raw alphabet_url (bytes_of_string s).
Proof.
  intros Hin. pose proof (base64_raw_digits (bytes_of_string s)) as Hd. rewrite list.Forall_forall in Hd.
  destruct (Hd _ Hin) as (v & Hv & E). by destruct (raw_digit v Hv) as (_ & _ & _ & []).
Qed.

Lemma decode_raw_roundtrip b : Forall is_byte b -> decode_raw (base64_raw alphabet_url b) = Some b.
Proof.
  intros Hb. remember (length b) as n eqn:Hn. revert b Hn Hb.
  induction n as [n IH] using lt_wf_ind. intros b -> Hb.
  destruct b as [|x [|y [|z rest]]]; [reflexivity|..]; repeat (apply list.Forall_cons in Hb as [? Hb]);
    unfold is_byte in *; cbn [base64_raw].
  - set (m := x * 65536). cbn [decode_raw]. rewrite !(proj1 (raw_digit _ (field6_range _ _))). cbn [mbind option_bind].
    f_equal. f_equal. subst m. fields.
  - set (m := x * 65536 + y * 256). cbn [decode_raw]. rewrite !(proj1 (raw_digit _ (field6_range _ _))).
    cbn [mbind option_bind]. f_equal. f_equal; [|f_equal]; subst m; fields.
  - set (m := x * 65536 + y * 256 + z). cbn [decode_raw].
    rewrite !(proj1 (raw_digit _ (field6_range _ _))), (proj1 (raw_digit _ (raw_field0 _))). cbn [mbind option_bind].
    rewrite (IH (length rest)) by (cbn [length]; lia || done). cbn [mbind option_bind].
    f_equal. apply (f_equal2 cons); [|apply (f_equal2 cons); [|apply (f_equal2 cons); [|done]]]; subst m; fields.
Qed.

(** What [EncodeToString] writes, [DecodeString] reads back. *)
Lemma RawURL_roundtrip s : RawURL_DecodeString (RawURL_EncodeToString s) = Some s.
Proof.
  unfold RawURL_DecodeString, RawURL_EncodeToString. rewrite bytes_of_string_of_bytes by apply base64_raw_bytes.
  rewrite skip_breaks_raw, decode_raw_roundtrip by apply bytes_of_string_range. cbn [fmap option_fmap option_map].
  by rewrite string_of_bytes_of_string.
Qed.

(** ** Hexadecimal *)

Definition hex_value (c : Z) : option Z :=
  if (48 <=? c) && (c <=? 57) then Some (c - 48)
  else if (97 <=? c) && (c <=? 102) then Some (c - 87)
  else if (65 <=? c) && (c <=? 70) then Some (c - 55)
  else None.
Fixpoint decode_hex (s : list Z) : option (list Z) :=
  match s with
  | [] => Some []
  | [_] => None
  | a :: b :: rest => va ← hex_value a; vb ← hex_value b; out ← decode_hex rest; Some (va * 16 + vb :: out)
  end.
Definition hex_EncodeToString (s : string) : string := string_of_bytes (hex_encode (bytes_of_string s)).
Definition hex_DecodeString (s : string) : option string := string_of_bytes <$> decode_hex (bytes_of_string s).

Lemma hex_digit v : 0 <= v < 16 -> hex_value (digit alphabet16 v) = Some v /\ is_byte (digit alphabet16 v).
Proof.
  intros Hv. assert (Hin : v ∈ map Z.of_nat (seq 0 16)).
  { apply list_elem_of_fmap. exists (Z.to_nat v). split; [lia|]. apply elem_of_seq. lia. }
  revert Hin. generalize v. clear. apply list.Forall_forall.
  unfold is_byte. repeat (apply List.Forall_cons; [vm_compute; repeat split; congruence|]). apply List.Forall_nil.
Qed.

Lemma hex_nibbles x : is_byte x -> 0 <= Z.shiftr x 4 < 16 /\ 0 <= Z.land x 15 < 16 /\ Z.shiftr x 4 * 16 + Z.land x 15 = x.
Proof.
  unfold is_byte. intros Hx. rewrite Z.shiftr_div_pow2 by lia. change 15 with (2 ^ 4 - 1). rewrite (low_bits x 4) by lia. change (2 ^ 4) with 16.
  Z.to_euclidean_division_equations; lia.
Qed.

Lemma hex_roundtrip s : hex_DecodeString (hex_EncodeToString s) = Some s.
Proof.
  unfold hex_DecodeString, hex_EncodeToString.
  assert (Hb : forall b, Forall is_byte b -> Forall is_byte (hex_encode b) /\ decode_hex (hex_encode b) = Some b).
  { induction 1 as [|x l Hx Hl [IH1 IH2]]; [by repeat constructor|]. destruct (hex_nibbles x Hx) as (Hh & Hlo & E).
    unfold hex_encode in *. cbn [map concat app decode_hex]. split.
    - repeat (apply List.Forall_cons; [by apply hex_digit|]). done.
    - rewrite (proj1 (hex_digit _ Hh)), (proj1 (hex_digit _ Hlo)), IH2. cbn [mbind option_bind]. by rewrite E. }
  destruct (Hb (bytes_of_string s) (bytes_of_string_range s)) as [H1 H2].
  rewrite bytes_of_string_of_bytes by done. rewrite H2. cbn [fmap option_fmap option_map].
  by rewrite string_of_bytes_of_string.
Qed.
