(* ===== verification/GoTime.v ===== *)
(** * Go's [time] as the sources use it

    Durations are nanoseconds in an int64; [ParseDuration] reads them as the
    configuration writes them.  An instant is a number of nanoseconds. *)
From stdpp Require Import base strings list option.
From Stdlib Require Import ZArith Lia Ascii SpecFloat.
From S2P Require Import Prelude GoUtf8 GoStrings GoNet GoJson GoJsonParse.
Local Open Scope string_scope.
Local Open Scope list_scope.
Local Open Scope Z_scope.

Definition Millisecond : Z := 1000000.
Definition Second : Z := 1000 * Millisecond.
Definition Minute : Z := 60 * Second.
Definition Hour : Z := 60 * Minute.

Definition is_int64 (n : Z) : Prop := - 2 ^ 63 <= n <= max_int64.

(** The units by their bytes; the two spellings of micro are U+00B5 and U+03BC. *)
Definition unitMap : list (list Z * Z) :=
  [(bytes_of_string "ns", 1); (bytes_of_string "us", 1000); ([194; 181; 115], 1000); ([206; 188; 115], 1000);
   (bytes_of_string "ms", Millisecond); (bytes_of_string "s", Second); (bytes_of_string "m", Minute); (bytes_of_string "h", Hour)].
Definition unit_of (u : list Z) : option Z := snd <$> List.find (fun e => bool_decide (fst e = u)) unitMap.

Definition is_dec_digit (c : Z) : bool := (48 <=? c) && (c <=? 57).

(** [leadingInt]: the leading digits as a number of at most [2^63]. *)
Fixpoint leadingInt (x : Z) (s : list Z) : option (Z * list Z) :=
  match s with
  | c :: s' =>
    if negb (is_dec_digit c) then Some (x, s)
    else if 2 ^ 63 / 10 <? x then None
    else let y := x * 10 + (c - 48) in
         if 2 ^ 63 <? y then None else leadingInt y s'
  | [] => Some (x, [])
  end.

(** [leadingFraction]: digits beyond the precision are skipped.  The scale is
    a float64 in the code. *)
Fixpoint leadingFraction (overflow : bool) (x : Z) (scale : float64) (s : list Z) : Z * float64 * list Z :=
  match s with
  | c :: s' =>
    if negb (is_dec_digit c) then (x, scale, s)
    else if overflow then leadingFraction true x scale s'
    else if max_int64 / 10 <? x then leadingFraction true x scale s'
    else let y := x * 10 + (c - 48) in
         if 2 ^ 63 <? y then leadingFraction true x scale s'
         else leadingFraction false y (SFmul 53 1024 scale (float64_of_Z 10)) s'
  | [] => (x, scale, [])
  end.

(** [uint64(f)] of a non-negative float64 in range: the integer part. *)
Definition uint64_of_float (f : float64) : Z :=
  match f with S754_finite false m e => Z.shiftl (Zpos m) e | _ => 0 end.

Fixpoint take_unit (s : list Z) : list Z * list Z :=
  match s with
  | c :: s' => if (c =? 46) || is_dec_digit c then ([], s) else let '(u, r) := take_unit s' in (c :: u, r)
  | [] => ([], [])
  end.

(** One turn of the loop: a number, a fraction and a unit. *)
Definition duration_part (s : list Z) : option (Z * list Z) :=
  match s with
  | [] => None
  | c0 :: _ =>
    if negb ((c0 =? 46) || is_dec_digit c0) then None else
    match leadingInt 0 s with
    | None => None
    | Some (v, s1) =>
      let pre := negb (length s =? length s1)%nat in
      let '(f, scale, s2, post) :=
        match s1 with
        | 46 :: t => let '(f, scale, r) := leadingFraction false 0 (float64_of_Z 1) t in
                     (f, scale, r, negb (length t =? length r)%nat)
        | _ => (0, float64_of_Z 1, s1, false)
        end in
      if negb pre && negb post then None else
      let '(u, s3) := take_unit s2 in
      match u with
      | [] => None
      | _ =>
        match unit_of u with
        | None => None
        | Some unit =>
          if 2 ^ 63 / unit <? v then None else
          let v := v * unit in
          let v := if 0 <? f then v + uint64_of_float (SFmul 53 1024 (float64_of_Z f) (SFdiv 53 1024 (float64_of_Z unit) scale)) else v in
          if 2 ^ 63 <? v then None else Some (v, s3)
        end
      end
    end
  end.

Fixpoint duration_loop (fuel : nat) (d : Z) (s : list Z) : option Z :=
  match s, fuel with
  | [], _ => Some d
  | _, O => None
  | _, S fuel =>
    match duration_part s with
    | None => None
    | Some (v, s') => if 2 ^ 63 <? d + v then None else duration_loop fuel (d + v) s'
    end
  end.

(** [time.ParseDuration]; every turn of the loop takes a byte, so the length
    is fuel enough. *)
Definition ParseDuration (text : string) : option Z :=
  let s := bytes_of_string text in
  let '(neg, s) := match s with
                   | 45 :: s' => (true, s')
                   | 43 :: s' => (false, s')
                   | _ => (false, s)
                   end in
  if bool_decide (s = [48]) then Some 0
  else match s with
       | [] => None
       | _ => match duration_loop (length s) 0 s with
              | None => None
              | Some d => if neg then Some (- d) else if max_int64 <? d then None else Some d
              end
       end.

Example ParseDuration_mixed : ParseDuration "1h30m" = Some (90 * Minute).
Proof. vm_compute. reflexivity. Qed.
Example ParseDuration_fraction : ParseDuration "-1.5s" = Some (- 1500 * Millisecond).
Proof. vm_compute. reflexivity. Qed.
Example ParseDuration_errors : map ParseDuration ["10"; ""; "."; "1x"; "9223372036854775808ns"; "0"] = [None; None; None; None; None; Some 0].
Proof. vm_compute. reflexivity. Qed.

Lemma leadingInt_range x s v r : 0 <= x -> leadingInt x s = Some (v, r) -> x <= v.
Proof.
  revert x. induction s as [|c s IH]; intros x Hx; cbn [leadingInt]; [by intros [= <- <-]|].
  unfold is_dec_digit. destruct (48 <=? c) eqn:E1, (c <=? 57) eqn:E2; cbn [andb negb]; try (intros [= <- <-]; lia).
  bool_prop. destruct (_ <? x); [done|]. destruct (2 ^ 63 <? _); [done|]. intros H%IH; lia.
Qed.

Lemma uint64_of_float_nonneg f : 0 <= uint64_of_float f.
Proof. destruct f as [| | |[]]; cbn; try lia. apply Z.shiftl_nonneg. lia. Qed.

Lemma unit_of_pos u n : unit_of u = Some n -> 0 < n.
Proof.
  unfold unit_of. destruct (List.find _ _) as [[b m]|] eqn:E; [|done]. intros [= <-].
  apply List.find_some in E as [Hin _]. unfold unitMap in Hin.
  repeat (destruct Hin as [[= <- <-]|Hin]; [vm_compute; reflexivity|]). done.
Qed.

Lemma duration_part_nonneg s v r : duration_part s = Some (v, r) -> 0 <= v.
Proof.
  unfold duration_part. destruct s as [|c0 s0]; [done|]. destruct (negb _); [done|].
  destruct (leadingInt 0 (c0 :: s0)) as [[v0 s1]|] eqn:Ei; [|done]. apply leadingInt_range in Ei; [|lia].
  destruct (match s1 with 46 :: _ => _ | _ => _ end) as [[[f scale] s2] post]. destruct (_ && _); [done|].
  destruct (take_unit s2) as [u s3]. destruct u as [|c u]; [done|].
  destruct (unit_of (c :: u)) as [unit|] eqn:Eu; [|done]. apply unit_of_pos in Eu.
  destruct (_ / _ <? _); [done|]. pose proof (uint64_of_float_nonneg (SFmul 53 1024 (float64_of_Z f) (SFdiv 53 1024 (float64_of_Z unit) scale))).
  destruct (0 <? f), (2 ^ 63 <? _); try done; intros [= <- <-]; nia.
Qed.

Lemma duration_loop_range fuel d s n : 0 <= d <= 2 ^ 63 -> duration_loop fuel d s = Some n -> 0 <= n <= 2 ^ 63.
Proof.
  revert d s. induction fuel as [|fuel IH]; intros d [|c s] Hd; cbn [duration_loop]; try (by intros [= <-]); try done.
  destruct (duration_part (c :: s)) as [[v s']|] eqn:Ep; [|done]. apply duration_part_nonneg in Ep.
  destruct (2 ^ 63 <? d + v) eqn:E; [done|]. apply Z.ltb_ge in E. intros H%IH; lia.
Qed.

(** A parsed duration fits an int64. *)
Lemma ParseDuration_int64 text n : ParseDuration text = Some n -> is_int64 n.
Proof.
  unfold ParseDuration, is_int64, max_int64. destruct (match bytes_of_string text with [] => _ | _ => _ end) as [neg s].
  destruct (bool_decide _); [intros [= <-]; lia|]. destruct s as [|c s]; [done|].
  destruct (duration_loop _ _ _) as [d|] eqn:E; [|done]. apply duration_loop_range in E; [|lia].
  destruct neg; [intros [= <-]; lia|]. destruct (_ <? d) eqn:Ed; [done|]. apply Z.ltb_ge in Ed. intros [= <-]. lia.
Qed.
