(* ===== verification/GoMime.v ===== *)
(** * [mime.ParseMediaType]

    The media type of a Content-Type header and whether its parameters are
    well formed; the parameter values themselves are only compared. *)
From stdpp Require Import base gmap strings list option.
From Stdlib Require Import ZArith Lia Ascii.
From S2P Require Import Prelude GoUtf8 GoStrings.
Local Open Scope string_scope.
Local Open Scope list_scope.
Local Open Scope Z_scope.

(** RFC 2045's tspecials and token characters. *)
Definition isTSpecial (b : Z) : bool :=
  bool_decide (b ∈ [40; 41; 60; 62; 64; 44; 59; 58; 92; 34; 47; 91; 93; 63; 61]).
Definition isTokenChar (b : Z) : bool := (32 <? b) && (b <? 127) && negb (isTSpecial b).

Fixpoint consumeToken (v : list Z) : list Z * list Z :=
  match v with
  | b :: v' => if isTokenChar b then let '(t, r) := consumeToken v' in (b :: t, r) else ([], v)
  | [] => ([], [])
  end.

(** [checkMediaTypeDisposition]: a token, or two joined by a slash. *)
Definition check_media_type (s : list Z) : bool :=
  let '(typ, rest) := consumeToken s in
  if bool_decide (typ = []) then false
  else match rest with
       | [] => true
       | 47 :: rest' => let '(sub, rest'') := consumeToken rest' in
                        negb (bool_decide (sub = [])) && bool_decide (rest'' = [])
       | _ => false
       end.

(** The rest of a quoted string: the value and what follows; [None] when the
    closing quote is missing or a line break stands in it. *)
Fixpoint quoted_value (v : list Z) : option (list Z * list Z) :=
  match v with
  | [] => None
  | r :: v' =>
    if r =? 34 then Some ([], v')
    else match v' with
         | e :: v'' =>
           if (r =? 92) && isTSpecial e then
             match quoted_value v'' with Some (t, rest) => Some (e :: t, rest) | None => None end
           else if (r =? 13) || (r =? 10) then None
           else match quoted_value v' with Some (t, rest) => Some (r :: t, rest) | None => None end
         | [] => None
         end
  end.

(** [consumeValue]; [None] when nothing was consumed. *)
Definition consumeValue (v : list Z) : option (list Z * list Z) :=
  match v with
  | 34 :: v' => quoted_value v'
  | _ => let '(t, rest) := consumeToken v in if bool_decide (t = []) then None else Some (t, rest)
  end.

Section mime.
Context `{UnicodeTables}.

(** [consumeMediaParam]; [None] is its empty result. *)
Definition consumeMediaParam (v : list Z) : option (string * list Z * list Z) :=
  match trim_left_space 0 v with
  | 59 :: rest =>
    let '(param, rest) := consumeToken (trim_left_space 0 rest) in
    let param := ToLower (string_of_bytes param) in
    if is_empty param then None
    else match trim_left_space 0 rest with
         | 61 :: rest =>
           match consumeValue (trim_left_space 0 rest) with
           | Some (value, rest) => Some (param, value, rest)
           | None => None
           end
         | _ => None
         end
  | _ => None
  end.

(** The parameter loop: whether it ends without an error.  A name that is seen
    again must have the same value. *)
Fixpoint media_params_ok (fuel : nat) (seen : list (string * list Z)) (v : list Z) : bool :=
  match fuel with
  | O => false
  | S f =>
    match trim_left_space 0 v with
    | [] => true
    | v' =>
      match consumeMediaParam v' with
      | None => bool_decide (bytes_TrimSpace v' = [59])
      | Some (key, value, rest) =>
        if existsb (fun e => str_eqb (fst e) key && negb (bool_decide (snd e = value))) seen then false
        else media_params_ok f ((key, value) :: seen) rest
      end
    end
  end.

(** [mime.ParseMediaType]: the media type, [None] on an error. *)
Definition ParseMediaType (ct : string) : option string :=
  let base := match Cut ct ";" with Some (b, _) => b | None => ct end in
  let mediatype := TrimSpace (ToLower base) in
  let rest := bytes_of_string (sdrop (String.length base) ct) in
  if negb (check_media_type (bytes_of_string mediatype)) then None
  else if media_params_ok (S (length rest)) [] rest then Some mediatype else None.
End mime.

Example ParseMediaType_ex :
  map (@ParseMediaType ascii_tables)
    ["Application/JSON; charset=utf-8"; "text/event-stream"; "application/json;"; "application/json; charset";
     "application / json"; "text/plain; a=1; A=2"; ""]
  = [Some "application/json"; Some "text/event-stream"; Some "application/json"; None; None; None; None].
Proof. vm_compute. reflexivity. Qed.
