(* ===== verification/GoRegexp.v ===== *)
(** * Go's [regexp], as an interface

    Patterns that come from the configuration are compiled and matched by an
    engine the development does not look into. *)
From stdpp Require Import base strings list option.
From S2P Require Import Prelude GoUtf8 GoStrings.
Local Open Scope string_scope.

(** Go's [regexp] engine, as the transforms and the MCP policy use it. *)
Class Regexp := {
  regexp : Type;
  regexp_Compile : string -> option regexp;
  MatchString : regexp -> string -> bool;
}.

(** Substring search as a regular expression language of literals, for
    evaluating the model on examples. *)
Definition literal_regexp : Regexp := {|
  regexp := string; regexp_Compile s := Some s; MatchString re s := Contains s re |}.
