(* ===== verification/SecretSources.v ===== *)
(** * Secret sources (src/internal/transform/secrets/resolver.go,
      control_plane_resolver.go, op_resolver.go, op_connect_resolver.go,
      vault_kv_resolver.go, and [resolveSource] of secrets.go)

    Where a secret's value comes from: an environment variable, a file, a
    secret store, or the control plane itself, behind a cache that is lazy,
    remembers failures, and serves the last value it could fetch when a
    refresh fails.  The stores are reached through clients that are made once
    and kept. *)
From stdpp Require Import base gmap strings list option.
From Stdlib Require Import ZArith Lia Ascii.
From S2P Require Import Prelude GoUtf8 GoStrings GoNet GoJson GoJsonParse GoTime.
Local Open Scope string_scope.
Local Open Scope list_scope.
Local Open Scope Z_scope.

Module Sources.

(** What a fetch can fail with; the text of a backend's error is kept. *)
Inductive source_error :=
  | EnvUnset (var : string)
  | ReadFailed (path e : string) | FileEmpty (path : string)
  | BackendError (e : string) | ClientFailed (store : string) (e : source_error) | FetchFailed (id e : string)
  | ResolvedEmpty (id : string) | ResolvedWithout (id : string)
  | FieldNotFound (field section : string)
  | NotJSON | KeyNotFound (key : string) | KeyNotString (key : string)
  | ExtractFailed (key name : string) (e : source_error).

Abbreviation fetched := (result source_error string).

(** ** The cache *)

(** [expiresAt] is [None] for Go's zero time, which no clock reading is before. *)
Record cachedValue := mkCached {
  cv_name : string;
  successTTL : Z;
  failureTTL : Z;
  initialized : bool;
  value : string;
  lastErr : option source_error;
  expiresAt : option Z;
}.

Definition defaultFailureTTL : Z := Minute.
Definition newLazyValue (name : string) (success failure : Z) : cachedValue :=
  mkCached name success failure false "" None None.

Definition Before (now : Z) (t : option Z) : bool := match t with Some t => now <? t | None => false end.

(** The answer when nothing is fetched, if the cache has one. *)
Definition cached_answer (now : Z) (cv : cachedValue) : option fetched :=
  if initialized cv then
    if (successTTL cv =? 0) || Before now (expiresAt cv) then Some (Ok (value cv)) else None
  else if Before now (expiresAt cv) then Err <$> lastErr cv
  else None.

(** The rest of [Get], with what the fetch gave and the clock after it. *)
Definition absorb (after : Z) (out : fetched) (cv : cachedValue) : fetched * cachedValue :=
  match out with
  | Err e =>
    if initialized cv then
      (Ok (value cv), mkCached (cv_name cv) (successTTL cv) (failureTTL cv) true (value cv) (lastErr cv)
                               (Some (after + Z.quot (successTTL cv) 2)))
    else
      (Err e, mkCached (cv_name cv) (successTTL cv) (failureTTL cv) false (value cv) (Some e)
                       (Some (after + failureTTL cv)))
  | Ok v =>
    (Ok v, mkCached (cv_name cv) (successTTL cv) (failureTTL cv) true v None
                    (if 0 <? successTTL cv then Some (after + successTTL cv) else expiresAt cv))
  end.

(** [cachedValue.Get]; [fetch] works on the state the sources share. *)
Definition cv_Get {S} (now after : Z) (fetch : S -> fetched * S) (s : S) (cv : cachedValue) : fetched * cachedValue * S :=
  match cached_answer now cv with
  | Some r => (r, cv, s)
  | None => let '(out, s') := fetch s in let '(r, cv') := absorb after out cv in (r, cv', s')
  end.

(** [parseTTL] and [buildLazySource]. *)
Definition parseTTL (s : string) : option Z := if is_empty s then Some 0 else ParseDuration s.
Definition buildLazySource (name ttl failure : string) : option cachedValue :=
  match parseTTL ttl, parseTTL failure with
  | Some s, Some f => Some (newLazyValue name s (if f =? 0 then defaultFailureTTL else f))
  | _, _ => None
  end.

(** ** JSON fields *)

(** [extractJSONKey]: a [null] decodes to a nil map, which has no key. *)
Definition extractJSONKey (raw key : string) : fetched :=
  match json_parse raw with
  | Some JNull => Err (KeyNotFound key)
  | Some (JObj r m) =>
    match json_any (JObj r m) with
    | Some (AMap m) =>
      match map_get m key with
      | None => Err (KeyNotFound key)
      | Some (AStr s) => Ok s
      | Some _ => Err (KeyNotString key)
      end
    | _ => Err NotJSON
    end
  | _ => Err NotJSON
  end.

(** ** 1Password references *)

Record OPRef := mkOPRef { Vault : string; Item : string; Section_ : string; Field : string }.

Definition ParseOPRef (ref : string) : option OPRef :=
  match CutPrefix ref "op://" with
  | None => None
  | Some rest =>
    match Split rest "/" with
    | [v; i; f] => if existsb is_empty [v; i; f] then None else Some (mkOPRef v i "" f)
    | [v; i; s; f] => if existsb is_empty [v; i; s; f] then None else Some (mkOPRef v i s f)
    | _ => None
    end
  end.

(** A field of a Connect item, with its section's ID and label. *)
Record itemField := mkField { f_ID : string; f_Label : string; f_Section : option (string * string); f_Value : string }.

(** The tests of the loop in [SelectConnectField]. *)
Definition field_selected (ref : OPRef) (f : itemField) : bool :=
  (str_eqb (f_ID f) (Field ref) || str_eqb (f_Label f) (Field ref))
  && (is_empty (Section_ ref)
      || match f_Section f with
         | None => false
         | Some (id, label) => str_eqb id (Section_ ref) || str_eqb label (Section_ ref)
         end).
Definition SelectConnectField (fields : list (option itemField)) (ref : OPRef) : fetched :=
  match List.find (fun f => match f with Some f => field_selected ref f | None => false end) fields with
  | Some (Some f) => Ok (f_Value f)
  | _ => Err (FieldNotFound (Field ref) (Section_ ref))
  end.

(** ** The stores

    Environment, files and the store clients, as they answer in a state of
    the world.  [GetParameter] may leave out the output or its parameter. *)
Class Backends := {
  World : Type;
  getenv : World -> string -> string;
  readFile : World -> string -> result string string;
  SMClient : Type;
  newSMClient : World -> string -> result string SMClient;
  GetSecretValue : World -> SMClient -> string -> result string (option string);
  SSMClient : Type;
  newSSMClient : World -> string -> result string SSMClient;
  GetParameter : World -> SSMClient -> string -> bool -> result string (option (option string));
  OPClient : Type;
  newOPClient : World -> string -> result string OPClient;
  Resolve : World -> OPClient -> string -> result string string;
  ConnectClient : Type;
  newConnectClient : string -> string -> ConnectClient;
  GetVault : World -> ConnectClient -> string -> result string string;
  GetItem : World -> ConnectClient -> string -> string -> result string (list (option itemField));
  VaultClient : Type;
  newVaultClient : World -> result string VaultClient;
  KVv1_Get : World -> VaultClient -> string -> string -> result string (option (list (string * any)) * list string);
  KVv2_Get : World -> VaultClient -> string -> string -> result string (option (list (string * any)) * list string);
}.

Section sources.
Context `{Backends}.

(** The clients made so far: [awsClientCache] by region, and one of each of
    the others. *)
Record Clients := mkClients {
  sm_clients : gmap string SMClient;
  ssm_clients : gmap string SSMClient;
  op_client : option OPClient;
  connect_client : option ConnectClient;
  vault_client : option VaultClient;
}.
Definition noClients : Clients := mkClients ∅ ∅ None None None.

Definition sm_get (w : World) (region : string) (c : Clients) : result string SMClient * Clients :=
  match sm_clients c !! region with
  | Some client => (Ok client, c)
  | None =>
    match newSMClient w region with
    | Err e => (Err e, c)
    | Ok client => (Ok client, mkClients (<[region := client]> (sm_clients c)) (ssm_clients c) (op_client c) (connect_client c) (vault_client c))
    end
  end.
Definition ssm_get (w : World) (region : string) (c : Clients) : result string SSMClient * Clients :=
  match ssm_clients c !! region with
  | Some client => (Ok client, c)
  | None =>
    match newSSMClient w region with
    | Err e => (Err e, c)
    | Ok client => (Ok client, mkClients (sm_clients c) (<[region := client]> (ssm_clients c)) (op_client c) (connect_client c) (vault_client c))
    end
  end.

Definition opTokenEnv : string := "OP_SERVICE_ACCOUNT_TOKEN".
Definition opConnectHostEnv : string := "OP_CONNECT_HOST".
Definition opConnectTokenEnv : string := "OP_CONNECT_TOKEN".

Definition op_get (w : World) (c : Clients) : result source_error OPClient * Clients :=
  match op_client c with
  | Some client => (Ok client, c)
  | None =>
    if is_empty (getenv w opTokenEnv) then (Err (EnvUnset opTokenEnv), c)
    else match newOPClient w (getenv w opTokenEnv) with
         | Err e => (Err (BackendError e), c)
         | Ok client => (Ok client, mkClients (sm_clients c) (ssm_clients c) (Some client) (connect_client c) (vault_client c))
         end
  end.
Definition connect_get (w : World) (c : Clients) : result source_error ConnectClient * Clients :=
  match connect_client c with
  | Some client => (Ok client, c)
  | None =>
    if is_empty (getenv w opConnectHostEnv) then (Err (EnvUnset opConnectHostEnv), c)
    else if is_empty (getenv w opConnectTokenEnv) then (Err (EnvUnset opConnectTokenEnv), c)
    else let client := newConnectClient (getenv w opConnectHostEnv) (getenv w opConnectTokenEnv) in
         (Ok client, mkClients (sm_clients c) (ssm_clients c) (op_client c) (Some client) (vault_client c))
  end.
Definition vault_get (w : World) (c : Clients) : result string VaultClient * Clients :=
  match vault_client c with
  | Some client => (Ok client, c)
  | None =>
    match newVaultClient w with
    | Err e => (Err e, c)
    | Ok client => (Ok client, mkClients (sm_clients c) (ssm_clients c) (op_client c) (connect_client c) (Some client))
    end
  end.

(** [vaultAPIKVClient.ReadKV]. *)
Definition ReadKV (w : World) (client : VaultClient) (mount path : string) (version : Z) : result string (list (string * any)) :=
  let* (data, warnings) := (if version =? 1 then KVv1_Get w client mount path else KVv2_Get w client mount path) in
  match data, warnings with
  | Some d, _ => Ok d
  | None, [] => Err "secret resolved without data"
  | None, _ => Err ("secret resolved without data: " +:+ Join warnings "; ")
  end.

(** ** Fetching *)

(** What the closure a builder hands to [buildLazySource] fetches. *)
Inductive fetcher :=
  | FetchEnv (var : string)
  | FetchFile (path : string)
  | FetchSM (id region : string)
  | FetchSSM (name region : string) (decrypt : bool)
  | FetchOP (ref : string)
  | FetchConnect (ref : string) (parsed : OPRef)
  | FetchVault (mount path : string) (version : Z).

(** An empty value is an error for every store that has values. *)
Definition nonempty (id v : string) : fetched := if is_empty v then Err (ResolvedEmpty id) else Ok v.
Definition wrapped {E A} (f : E -> source_error) (m : result E A) : result source_error A :=
  match m with Ok a => Ok a | Err e => Err (f e) end.

Definition sm_fetchSecret (w : World) (id region : string) (c : Clients) : fetched * Clients :=
  let '(client, c') := sm_get w region c in
  (let* client := wrapped (fun e => ClientFailed "AWS SM" (BackendError e)) client in
   let* out := wrapped (FetchFailed id) (GetSecretValue w client id) in
   nonempty id (default "" out), c').
Definition ssm_fetchParameter (w : World) (name region : string) (decrypt : bool) (c : Clients) : fetched * Clients :=
  let '(client, c') := ssm_get w region c in
  (let* client := wrapped (fun e => ClientFailed "AWS SSM" (BackendError e)) client in
   let* out := wrapped (FetchFailed name) (GetParameter w client name decrypt) in
   match out with
   | None => Err (ResolvedWithout name)
   | Some v => nonempty name (default "" v)
   end, c').
Definition op_fetchSecret (w : World) (ref : string) (c : Clients) : fetched * Clients :=
  let '(client, c') := op_get w c in
  (let* client := wrapped (ClientFailed "1password") client in
   let* v := wrapped (FetchFailed ref) (Resolve w client ref) in
   nonempty ref v, c').
Definition connect_fetchSecret (w : World) (ref : string) (parsed : OPRef) (c : Clients) : fetched * Clients :=
  let '(client, c') := connect_get w c in
  (let* client := wrapped (ClientFailed "1password_connect") client in
   let* vault := wrapped (FetchFailed ref) (GetVault w client (Vault parsed)) in
   let* fields := wrapped (FetchFailed ref) (GetItem w client (Item parsed) vault) in
   let* v := SelectConnectField fields parsed in
   nonempty ref v, c').
Definition vault_fetch (w : World) (mount path : string) (version : Z) (c : Clients) : fetched * Clients :=
  let secretPath := mount +:+ "/" +:+ path in
  let '(client, c') := vault_get w c in
  (let* client := wrapped (fun e => ClientFailed "Vault" (BackendError e)) client in
   let* data := wrapped (FetchFailed secretPath) (ReadKV w client mount path version) in
   match data with
   | [] => Err (ResolvedWithout secretPath)
   | _ => Ok (Marshal_any (AMap data))
   end, c').

Definition fetch (w : World) (f : fetcher) (c : Clients) : fetched * Clients :=
  match f with
  | FetchEnv var => (if is_empty (getenv w var) then Err (EnvUnset var) else Ok (getenv w var), c)
  | FetchFile path =>
    (let* b := wrapped (ReadFailed path) (readFile w path) in
     if is_empty b then Err (FileEmpty path) else Ok b, c)
  | FetchSM id region => sm_fetchSecret w id region c
  | FetchSSM name region decrypt => ssm_fetchParameter w name region decrypt c
  | FetchOP ref => op_fetchSecret w ref c
  | FetchConnect ref parsed => connect_fetchSecret w ref parsed c
  | FetchVault mount path version => vault_fetch w mount path version c
  end.

(** ** Sources *)

Inductive Source :=
  | Cached (f : fetcher) (cv : cachedValue)
  | Static (name v : string)
  | JsonKey (inner : Source) (key : string).

Fixpoint SourceName (s : Source) : string :=
  match s with
  | Cached _ cv => cv_name cv
  | Static name _ => name
  | JsonKey inner _ => SourceName inner
  end.

(** [Get] with the clock before and after a fetch. *)
Fixpoint Get (w : World) (now after : Z) (s : Source) (c : Clients) : fetched * Source * Clients :=
  match s with
  | Cached f cv => let '(r, cv', c') := cv_Get now after (fetch w f) c cv in (r, Cached f cv', c')
  | Static name v => (Ok v, s, c)
  | JsonKey inner key =>
    let '(raw, inner', c') := Get w now after inner c in
    (let* raw := raw in
     match extractJSONKey raw key with
     | Ok v => Ok v
     | Err e => Err (ExtractFailed key (SourceName inner) e)
     end, JsonKey inner' key, c')
  end.

End sources.

(** ** Builders *)

Record envConfig := mkEnvConfig { env_Var : string }.
Record fileConfig := mkFileConfig { fc_Path : string; fc_TTL : string; fc_FailureTTL : string }.
Record awsSMConfig := mkSMConfig { smc_SecretID : string; smc_Region : string; smc_TTL : string; smc_FailureTTL : string }.
Record awsSSMConfig := mkSSMConfig {
  ssmc_Name : string; ssmc_Region : string; WithDecryption : option bool; ssmc_TTL : string; ssmc_FailureTTL : string }.
Record opConfig := mkOPConfig { opc_SecretRef : string; opc_TTL : string; opc_FailureTTL : string }.
Record vaultKVConfig := mkVaultConfig { vc_Mount : string; vc_Path : string; KVVersion : Z; vc_TTL : string; vc_FailureTTL : string }.

Definition decryptValue (cfg : awsSSMConfig) : bool := default true (WithDecryption cfg).
Definition version (cfg : vaultKVConfig) : Z := if KVVersion cfg =? 0 then 2 else KVVersion cfg.

(** A YAML block decoded into each builder's configuration; [None] is a block
    that does not decode. *)
Class SourceNode (Node : Type) := {
  decode_type : Node -> option string;
  decode_json_key : Node -> option string;
  decode_env : Node -> option envConfig;
  decode_file : Node -> option fileConfig;
  decode_control_plane : Node -> option string;
  decode_aws_sm : Node -> option awsSMConfig;
  decode_aws_ssm : Node -> option awsSSMConfig;
  decode_op : Node -> option opConfig;
  decode_vault : Node -> option vaultKVConfig;
}.

Section build.
Context {Node : Type} `{SourceNode Node}.

Definition lazy (f : fetcher) (name ttl failure : string) : option Source := Cached f <$> buildLazySource name ttl failure.

Definition env_Build (n : Node) : option Source :=
  cfg ← decode_env n; if is_empty (env_Var cfg) then None else lazy (FetchEnv (env_Var cfg)) (env_Var cfg) "" "".
Definition file_Build (n : Node) : option Source :=
  cfg ← decode_file n; if is_empty (fc_Path cfg) then None else lazy (FetchFile (fc_Path cfg)) (fc_Path cfg) (fc_TTL cfg) (fc_FailureTTL cfg).
Definition control_plane_Build (n : Node) : option Source :=
  v ← decode_control_plane n; if is_empty v then None else Some (Static "control_plane" v).
Definition aws_sm_Build (n : Node) : option Source :=
  cfg ← decode_aws_sm n;
  if is_empty (smc_SecretID cfg) then None
  else lazy (FetchSM (smc_SecretID cfg) (smc_Region cfg)) (smc_SecretID cfg) (smc_TTL cfg) (smc_FailureTTL cfg).
Definition aws_ssm_Build (n : Node) : option Source :=
  cfg ← decode_aws_ssm n;
  if is_empty (ssmc_Name cfg) then None
  else lazy (FetchSSM (ssmc_Name cfg) (ssmc_Region cfg) (decryptValue cfg)) (ssmc_Name cfg) (ssmc_TTL cfg) (ssmc_FailureTTL cfg).
Definition op_Build (n : Node) : option Source :=
  cfg ← decode_op n;
  if is_empty (opc_SecretRef cfg) then None
  else if negb (HasPrefix (opc_SecretRef cfg) "op://") then None
  else lazy (FetchOP (opc_SecretRef cfg)) (opc_SecretRef cfg) (opc_TTL cfg) (opc_FailureTTL cfg).
Definition op_connect_Build (n : Node) : option Source :=
  cfg ← decode_op n;
  if is_empty (opc_SecretRef cfg) then None
  else ref ← ParseOPRef (opc_SecretRef cfg);
       lazy (FetchConnect (opc_SecretRef cfg) ref) (opc_SecretRef cfg) (opc_TTL cfg) (opc_FailureTTL cfg).
Definition vault_Build (n : Node) : option Source :=
  cfg ← decode_vault n;
  if is_empty (vc_Mount cfg) || is_empty (vc_Path cfg) then None
  else if negb ((version cfg =? 1) || (version cfg =? 2)) then None
  else lazy (FetchVault (vc_Mount cfg) (vc_Path cfg) (version cfg))
            ("vault_kv:" +:+ vc_Mount cfg +:+ "/" +:+ vc_Path cfg) (vc_TTL cfg) (vc_FailureTTL cfg).

Definition defaultRegistry : list (string * (Node -> option Source)) :=
  [("env", env_Build); ("file", file_Build); ("control_plane", control_plane_Build); ("aws_sm", aws_sm_Build);
   ("aws_ssm", aws_ssm_Build); ("vault_kv", vault_Build); ("1password", op_Build); ("1password_connect", op_connect_Build)].

Definition resolveSource (registry : list (string * (Node -> option Source))) (n : Node) : option Source :=
  typ ← decode_type n;
  if is_empty typ then None
  else build ← assoc_get registry typ;
       src ← build n;
       key ← decode_json_key n;
       Some (if is_empty key then src else JsonKey src key).
Definition BuildSource (n : Node) : option Source := resolveSource defaultRegistry n.
End build.

(** ** The cache against its history

    A [Get] at a moment of the clock, with what the store would answer; the
    history is the fetches that were made. *)
Record moment := mkMoment { m_now : Z; m_after : Z; m_backend : fetched }.
Definition logged (m : moment) (log : list moment) : fetched * list moment := (m_backend m, log ++ [m]).

Fixpoint Gets (ms : list moment) (log : list moment) (cv : cachedValue) : list fetched * cachedValue * list moment :=
  match ms with
  | [] => ([], cv, log)
  | m :: ms =>
    let '(r, cv, log) := cv_Get (m_now m) (m_after m) (logged m) log cv in
    let '(rs, cv, log) := Gets ms log cv in (r :: rs, cv, log)
  end.

(** The clock does not run backwards. *)
Fixpoint ordered (t : Z) (ms : list moment) : Prop :=
  match ms with
  | [] => True
  | m :: ms => t <= m_now m <= m_after m /\ ordered (m_after m) ms
  end.

(** The specification: the last value fetched is served, or the last error
    when there never was one; a fetch is made when what the last one gave has
    been held for its time. *)
Definition last_value (log : list moment) : option string :=
  fold_left (fun acc m => match m_backend m with Ok v => Some v | Err _ => acc end) log None.
Definition answer (log : list moment) : option fetched :=
  match last_value log with Some v => Some (Ok v) | None => m_backend <$> list.last log end.
Definition due (success failure : Z) (log : list moment) (now : Z) : bool :=
  match list.last log with
  | None => true
  | Some m =>
    match m_backend m, last_value log with
    | Ok _, _ => negb ((success =? 0) || (now <? m_after m + success))
    | Err _, Some _ => negb ((success =? 0) || (now <? m_after m + Z.quot success 2))
    | Err _, None => negb (now <? m_after m + failure)
    end
  end.
Definition spec_Get (success failure : Z) (m : moment) (log : list moment) : option fetched * list moment :=
  let log' := if due success failure log (m_now m) then log ++ [m] else log in (answer log', log').
Fixpoint spec_Gets (success failure : Z) (ms log : list moment) : list (option fetched) * list moment :=
  match ms with
  | [] => ([], log)
  | m :: ms =>
    let '(r, log) := spec_Get success failure m log in
    let '(rs, log) := spec_Gets success failure ms log in (r :: rs, log)
  end.

Lemma last_value_snoc log m :
  last_value (log ++ [m]) = match m_backend m with Ok v => Some v | Err _ => last_value log end.
Proof. unfold last_value. rewrite fold_left_app. cbn. by destruct (m_backend m). Qed.

(** What the cache remembers of the history at time [t]. *)
Record remembers (success failure : Z) (log : list moment) (t : Z) (cv : cachedValue) : Prop := mkRemembers {
  rm_success : successTTL cv = success;
  rm_failure : failureTTL cv = failure;
  rm_value : if initialized cv then last_value log = Some (value cv) else last_value log = None;
  rm_expiry :
    match list.last log with
    | None => initialized cv = false /\ expiresAt cv = None
    | Some m =>
      match m_backend m, last_value log with
      | Ok _, _ => if 0 <? success then expiresAt cv = Some (m_after m + success)
                   else m_after m <= t /\ forall now, t <= now -> Before now (expiresAt cv) = false
      | Err e, Some _ => expiresAt cv = Some (m_after m + Z.quot success 2)
      | Err e, None => expiresAt cv = Some (m_after m + failure) /\ lastErr cv = Some e
      end
    end;
}.

Lemma remembers_later success failure log t t' cv :
  t <= t' -> remembers success failure log t cv -> remembers success failure log t' cv.
Proof.
  intros Ht [H1 H2 H3 H4]. split; [done..|]. destruct (list.last log) as [m|]; [|done].
  destruct (m_backend m), (last_value log), (0 <? success); try done; destruct H4 as [? H4]; (split; [lia|]); intros; apply H4; lia.
Qed.

(** The cache answers by itself exactly when no fetch is due. *)
Lemma cached_answer_spec success failure log t cv now :
  remembers success failure log t cv -> t <= now ->
  if due success failure log now then cached_answer now cv = None /\ Before now (expiresAt cv) = false
  else cached_answer now cv = answer log.
Proof.
  intros [H1 H2 H3 H4] Hnow. unfold due, cached_answer, answer. rewrite H1.
  destruct (list.last log) as [m|] eqn:El.
  2: { destruct H4 as [Hi He]. rewrite Hi, He. done. }
  destruct (initialized cv) eqn:Hi.
  - rewrite H3 in *. destruct (m_backend m) as [v|e].
    + destruct (0 <? success) eqn:Es.
      * rewrite H4. unfold Before. destruct (success =? 0) eqn:E0; bool_prop; [lia|]. cbn [orb]. by destruct (now <? _).
      * destruct H4 as [Ha Hb]. specialize (Hb now ltac:(lia)). rewrite Hb, orb_false_r. destruct (success =? 0) eqn:E0; [done|].
        cbn [orb]. bool_prop. rewrite (proj2 (Z.ltb_ge now (m_after m + success))) by lia. done.
    + rewrite H4. unfold Before. destruct (success =? 0) eqn:E0; [done|]. cbn [orb]. by destruct (now <? _).
  - rewrite H3 in *. destruct (m_backend m) as [v|e] eqn:Em.
    + exfalso. pose proof El as [log' ->]%last_Some. rewrite last_value_snoc, Em in H3. done.
    + destruct H4 as [-> ->]. unfold Before. destruct (now <? _); cbn; [by rewrite Em | done].
Qed.

Lemma absorb_remembers success failure log t cv m :
  remembers success failure log t cv -> t <= m_now m <= m_after m -> Before (m_now m) (expiresAt cv) = false ->
  Some (absorb (m_after m) (m_backend m) cv).1 = answer (log ++ [m]) /\
  remembers success failure (log ++ [m]) (m_after m) (absorb (m_after m) (m_backend m) cv).2.
Proof.
  intros [H1 H2 H3 H4] Ht Hb. unfold answer. rewrite last_value_snoc, last_snoc. cbn [fmap option_fmap option_map].
  destruct (m_backend m) as [v|e] eqn:Em; cbn [absorb fst snd].
  - split; [done|]. split; cbn [successTTL failureTTL initialized value expiresAt]; [done | done | by rewrite last_value_snoc, Em |].
    rewrite last_snoc, Em, H1. destruct (0 <? success); [done|]. split; [lia|]. intros now Hn.
    unfold Before in *. destruct (expiresAt cv); [|done]. bool_prop. apply Z.ltb_ge. lia.
  - destruct (initialized cv) eqn:Hi; rewrite H3; cbn [fst snd];
      (split; [done|]); (split; cbn [successTTL failureTTL initialized value expiresAt lastErr]; [done | done | by rewrite last_value_snoc, Em |]);
      rewrite last_snoc, Em, last_value_snoc, Em, H3, ?H1, ?H2; done.
Qed.

Lemma cv_Get_refines success failure log t cv m :
  remembers success failure log t cv -> t <= m_now m <= m_after m ->
  exists r cv' log', cv_Get (m_now m) (m_after m) (logged m) log cv = (r, cv', log') /\
    spec_Get success failure m log = (Some r, log') /\ remembers success failure log' (m_after m) cv'.
Proof.
  intros Hr Ht. pose proof (cached_answer_spec _ _ _ _ _ (m_now m) Hr ltac:(lia)) as Hc. unfold spec_Get, cv_Get.
  destruct (due success failure log (m_now m)) eqn:Ed.
  - destruct Hc as [-> Hb]. cbn [logged]. pose proof (absorb_remembers _ _ _ _ _ _ Hr Ht Hb) as [Ha Hr'].
    destruct (absorb _ _ cv) as [r cv']. cbn [fst snd] in *. eexists r, cv', _. by rewrite <- Ha.
  - rewrite Hc. assert (exists r, answer log = Some r) as [r Hans].
    { unfold answer, due in *. destruct (last_value log); [eauto|]. destruct (list.last log); cbn; [eauto | done]. }
    rewrite Hans. exists r, cv, log. split_and!; [done..|]. eapply remembers_later, Hr. lia.
Qed.

Lemma Gets_refines success failure ms log t cv :
  remembers success failure log t cv -> ordered t ms ->
  exists rs cv' log', Gets ms log cv = (rs, cv', log') /\ spec_Gets success failure ms log = (Some <$> rs, log').
Proof.
  revert log t cv. induction ms as [|m ms IH]; intros log t cv Hr; cbn [Gets spec_Gets ordered]; [by eexists [], cv, log|]. intros [Ht Ho].
  destruct (cv_Get_refines _ _ _ _ _ _ Hr Ht) as (r & cv1 & log1 & -> & -> & Hr1).
  destruct (IH _ _ _ Hr1 Ho) as (rs & cv2 & log2 & -> & ->). by eexists (r :: rs), cv2, log2.
Qed.

Lemma remembers_new name success failure t : remembers success failure [] t (newLazyValue name success failure).
Proof. done. Qed.

(** C25: The cache implements its history.  Whatever the lifetimes (zero and
    negative ones too), whenever it is asked on a clock that does not run
    backwards and whatever the store answers, a source gives the last value
    that was ever fetched, or the last error when there was none; and it
    fetches exactly when what the last fetch gave has been held for its time:
    the success lifetime for a value (for ever when it is zero), half of it
    for a failed refresh, the failure lifetime for an error. *)
Theorem cache_refines name success failure t ms :
  ordered t ms ->
  exists rs cv log, Gets ms [] (newLazyValue name success failure) = (rs, cv, log) /\
    spec_Gets success failure ms [] = (Some <$> rs, log).
Proof. intros Ho. eapply Gets_refines, Ho. apply remembers_new. Qed.

(** Every fetch of a history was due. *)
Lemma spec_Gets_due success failure ms log rs log' i m1 m2 :
  (forall i m1 m2, log !! i = Some m1 -> log !! S i = Some m2 -> due success failure (take (S i) log) (m_now m2) = true) ->
  spec_Gets success failure ms log = (rs, log') -> log' !! i = Some m1 -> log' !! S i = Some m2 ->
  due success failure (take (S i) log') (m_now m2) = true.
Proof.
  revert log rs. induction ms as [|m ms IH]; intros log rs Hlog; cbn [spec_Gets]; [intros [= <- <-]; apply Hlog|]. unfold spec_Get.
  destruct (spec_Gets success failure ms (if due success failure log (m_now m) then log ++ [m] else log)) as [rs1 log1] eqn:Es.
  intros [= <- <-]. revert Es. apply IH. destruct (due success failure log (m_now m)) eqn:Ed; [|done].
  intros j n1 n2 H1 H2. pose proof (lookup_lt_Some _ _ _ H2) as Hl. rewrite length_app in Hl. cbn in Hl.
  destruct (decide (S j = length log)) as [Hj|Hj].
  - rewrite Hj, take_app_length. rewrite Hj, lookup_app_r, Nat.sub_diag in H2 by lia. by injection H2 as <-.
  - rewrite lookup_app_l in H1, H2 by lia. rewrite take_app_le by lia. by apply (Hlog j n1 n2).
Qed.

Lemma due_pause success failure log m now :
  list.last log = Some m -> 0 <= success -> 0 <= failure -> due success failure log now = true ->
  m_after m + (if success =? 0 then failure else Z.min (Z.quot success 2) failure) <= now.
Proof.
  intros Hl Hs Hf. unfold due. rewrite Hl. pose proof (Z.quot_le_upper_bound success 2 success ltac:(lia) ltac:(lia)).
  destruct (m_backend m), (last_value log), (success =? 0); cbn [orb negb]; try done; intros Hd; bool_prop; lia.
Qed.

(** A struggling store is spared.  Between the end of one fetch and the
    next one lies at least the shorter of half the success lifetime and the
    failure lifetime; with no success lifetime only failures are fetched
    again, a failure lifetime apart. *)
Theorem cache_spares_backend name success failure t ms rs cv log i m1 m2 :
  ordered t ms -> 0 <= success -> 0 <= failure ->
  Gets ms [] (newLazyValue name success failure) = (rs, cv, log) ->
  log !! i = Some m1 -> log !! S i = Some m2 ->
  m_after m1 + (if success =? 0 then failure else Z.min (Z.quot success 2) failure) <= m_now m2.
Proof.
  intros Ho Hs Hf Hg H1 H2.
  destruct (Gets_refines success failure ms [] t _ (remembers_new name _ _ t) Ho) as (rs' & cv' & log' & Hg' & Hspec).
  rewrite Hg in Hg'. injection Hg' as <- <- <-. apply (due_pause _ _ (take (S i) log)); [|done..|].
  - rewrite (take_S_r _ _ _ H1). apply last_snoc.
  - eapply spec_Gets_due; [|exact Hspec|exact H1|exact H2]. intros ???. by rewrite lookup_nil.
Qed.

(** ** What sources give *)

(** The way a reference is written. *)
Definition OPRef_parts (r : OPRef) : list string :=
  if is_empty (Section_ r) then [Vault r; Item r; Field r] else [Vault r; Item r; Section_ r; Field r].
Definition OPRef_String (r : OPRef) : string := "op://" +:+ Join (OPRef_parts r) "/".
Definition segment (s : string) : Prop := s <> "" /\ string_in "/" s = false.

Lemma existsb_is_empty l : existsb is_empty l = false <-> Forall (fun s => s <> "") l.
Proof.
  induction l as [|s l IH]; cbn; [by split|]. rewrite orb_false_iff, IH, is_empty_false. by rewrite list.Forall_cons.
Qed.

(** A reference parses to what it was written from, and to nothing else. *)
Theorem ParseOPRef_roundtrip ref r :
  ParseOPRef ref = Some r <-> ref = OPRef_String r /\ Forall segment (OPRef_parts r).
Proof.
  unfold ParseOPRef, OPRef_String, CutPrefix. split.
  - destruct (HasPrefix ref "op://") eqn:Hp; [|done]. apply HasPrefix_spec in Hp as [rest ->].
    rewrite (sdrop_app_length "op://"). pose proof (Join_Split rest "/") as Hj. pose proof (Split_parts_no_sep rest "/") as Hn.
    destruct (Split rest "/") as [|v [|i [|x [|y [|? ?]]]]]; try done;
      (destruct (existsb is_empty _) eqn:Ee; [done|]); apply existsb_is_empty in Ee; intros [= <-];
      unfold OPRef_parts; cbn [Vault Item Section_ Field].
    + change (is_empty "") with true. cbv iota. rewrite Hj. split; [done|]. by apply list.Forall_and.
    + rewrite !list.Forall_cons in Ee. rewrite (proj2 (is_empty_false x)) by naive_solver. rewrite Hj. split; [done|].
      rewrite !list.Forall_cons in Hn |- *. unfold segment. naive_solver.
  - intros [-> Hs]. rewrite HasPrefix_app, (sdrop_app_length "op://"). rewrite Split_Join.
    + destruct r as [v i x f]. unfold OPRef_parts in *. cbn [Vault Item Section_ Field] in *.
      destruct (is_empty x) eqn:Ex.
      * apply is_empty_true in Ex as ->. rewrite (proj2 (existsb_is_empty _)); [done|]. eapply list.Forall_impl; [exact Hs|]. by intros ? [].
      * rewrite (proj2 (existsb_is_empty _)); [done|]. eapply list.Forall_impl; [exact Hs|]. by intros ? [].
    + unfold OPRef_parts. by destruct (is_empty _).
    + eapply list.Forall_impl; [exact Hs|]. by intros ? [].
Qed.

Section nonempty.
Context `{Backends}.

Lemma nonempty_Ok id s v : nonempty id s = Ok v -> v <> "".
Proof. unfold nonempty. destruct (is_empty s) eqn:E; [done|]. apply is_empty_false in E. by intros [= <-]. Qed.

(** No fetch gives an empty value. *)
Lemma fetch_nonempty w f c v c' : fetch w f c = (Ok v, c') -> v <> "".
Proof.
  destruct f as [var|path|id region|name region dec|ref|ref parsed|mount path ver]; cbn [fetch].
  - destruct (is_empty _) eqn:E; [done|]. apply is_empty_false in E. by intros [= <- _].
  - intros [= Hr _]. rinv. destruct (is_empty _) eqn:E; [done|]. apply is_empty_false in E. by simplify_eq.
  - unfold sm_fetchSecret. destruct (sm_get _ _ _). intros [= Hr _]. rinv. by eapply nonempty_Ok.
  - unfold ssm_fetchParameter. destruct (ssm_get _ _ _). intros [= Hr _]. rinv. case_match; [by eapply nonempty_Ok | done].
  - unfold op_fetchSecret. destruct (op_get _ _). intros [= Hr _]. rinv. by eapply nonempty_Ok.
  - unfold connect_fetchSecret. destruct (connect_get _ _). intros [= Hr _]. rinv. by eapply nonempty_Ok.
  - unfold vault_fetch. destruct (vault_get _ _). intros [= Hr _]. rinv. case_match; [done|]. simplify_eq. done.
Qed.

(** A source whose stored values are not empty. *)
Fixpoint source_ok (s : Source) : Prop :=
  match s with
  | Cached _ cv => initialized cv = true -> value cv <> ""
  | Static _ v => v <> ""
  | JsonKey inner _ => source_ok inner
  end.

Lemma Get_Cached_ok w now after f cv c r cv' c' :
  (initialized cv = true -> value cv <> "") -> cv_Get now after (fetch w f) c cv = (r, cv', c') ->
  (initialized cv' = true -> value cv' <> "") /\ forall v, r = Ok v -> v <> "".
Proof.
  intros Hok. unfold cv_Get, cached_answer. destruct (initialized cv) eqn:Ei.
  - destruct (_ || _); [intros [= <- <- <-]; split; [auto | intros v [= <-]; auto]|].
    destruct (fetch w f c) as [[v|e] c1] eqn:Ef; cbn; rewrite ?Ei; intros [= <- <- <-]; cbn.
    + apply fetch_nonempty in Ef. split; [auto | by intros ? [= <-]].
    + split; [auto | intros ? [= <-]; auto].
  - destruct (Before _ _), (lastErr cv); cbn; try (intros [= <- <- <-]; rewrite Ei; done);
      (destruct (fetch w f c) as [[v|e'] c1] eqn:Ef; cbn; rewrite ?Ei; intros [= <- <- <-]; cbn; [|done];
       apply fetch_nonempty in Ef; split; [auto | by intros ? [= <-]]).
Qed.

Lemma Get_ok w now after s c r s' c' :
  source_ok s -> Get w now after s c = (r, s', c') -> source_ok s'.
Proof.
  revert r s' c'. induction s as [f cv|name v|inner IH key]; intros r s' c' Hok; cbn [Get].
  - destruct (cv_Get _ _ _ _ _) as [[r1 cv1] c1] eqn:Eg. intros [= <- <- <-]. exact (proj1 (Get_Cached_ok _ _ _ _ _ _ _ _ _ Hok Eg)).
  - by intros [= <- <- <-].
  - destruct (Get w now after inner c) as [[raw inner1] c1] eqn:Eg. intros [= <- <- <-]. exact (IH _ _ _ Hok eq_refl).
Qed.

(** A run of reads, each in its own state of the world and clock. *)
Fixpoint reads (steps : list (World * Z * Z)) (s : Source) (c : Clients) : Source * Clients :=
  match steps with
  | [] => (s, c)
  | (w, now, after) :: steps => let '(_, s, c) := Get w now after s c in reads steps s c
  end.

Lemma reads_ok steps s c : source_ok s -> source_ok (reads steps s c).1.
Proof.
  revert s c. induction steps as [|[[w now] after] steps IH]; intros s c Hok; cbn; [done|].
  destruct (Get w now after s c) as [[r s1] c1] eqn:Eg. eapply IH, Get_ok; done.
Qed.
(** What a source gives: the stored values are not empty, and a JSON key
    selects a field of one. *)
Lemma Get_value w now after s c v s' c' :
  source_ok s -> Get w now after s c = (Ok v, s', c') ->
  match s with
  | JsonKey inner key => exists raw inner', Get w now after inner c = (Ok raw, inner', c') /\ extractJSONKey raw key = Ok v
  | _ => v <> ""
  end.
Proof.
  destruct s as [f cv|name v0|inner key]; intros Hok; cbn [Get].
  - destruct (cv_Get _ _ _ _ _) as [[r1 cv1] c1] eqn:Eg. intros [= -> <- <-].
    by apply (proj2 (Get_Cached_ok _ _ _ _ _ _ _ _ _ Hok Eg)).
  - by intros [= <- _ _].
  - destruct (Get w now after inner c) as [[raw inner1] c1] eqn:Eg. intros [= Hr <- <-]. rinv. subst.
    case_match; [|done]. simplify_eq. eauto.
Qed.

Context {Node : Type} `{SourceNode Node}.

Definition is_plain (s : Source) : bool := match s with JsonKey _ _ => false | _ => true end.

Lemma buildLazySource_fresh name ttl failure cv : buildLazySource name ttl failure = Some cv -> initialized cv = false.
Proof. unfold buildLazySource. destruct (parseTTL ttl), (parseTTL failure); try done. by intros [= <-]. Qed.
Lemma lazy_ok f name ttl failure s : lazy f name ttl failure = Some s -> source_ok s /\ is_plain s = true.
Proof.
  unfold lazy. destruct (buildLazySource _ _ _) as [cv|] eqn:E; [|done]. intros [= <-]. apply buildLazySource_fresh in E.
  cbn. by rewrite E.
Qed.

Lemma registry_ok typ build n s :
  assoc_get defaultRegistry typ = Some build -> build n = Some s -> source_ok s /\ is_plain s = true.
Proof.
  unfold assoc_get. destruct (List.find _ _) as [[k b]|] eqn:E; [|done]. intros [= <-].
  apply List.find_some in E as [Hin _]. cbn [snd].
  destruct Hin as [[= _ <-]|[[= _ <-]|[[= _ <-]|[[= _ <-]|[[= _ <-]|[[= _ <-]|[[= _ <-]|[[= _ <-]|[]]]]]]]]];
    unfold env_Build, file_Build, control_plane_Build, aws_sm_Build, aws_ssm_Build, vault_Build, op_Build, op_connect_Build;
    intros (cfg & _ & Hb)%bind_Some.
  1,2,4,5: destruct (is_empty _); [done|]; by apply lazy_ok in Hb.
  - destruct (is_empty cfg) eqn:Ec; [done|]. injection Hb as <-. by apply is_empty_false in Ec.
  - destruct (_ || _); [done|]. destruct (negb _); [done|]. by apply lazy_ok in Hb.
  - destruct (is_empty _); [done|]. destruct (negb _); [done|]. by apply lazy_ok in Hb.
  - destruct (is_empty _); [done|]. apply bind_Some in Hb as (ref & _ & Hb). by apply lazy_ok in Hb.
Qed.

Lemma BuildSource_shape n s :
  BuildSource n = Some s ->
  source_ok s /\ exists key, decode_json_key n = Some key /\
    if is_empty key then is_plain s = true else exists inner, s = JsonKey inner key /\ is_plain inner = true.
Proof.
  unfold BuildSource, resolveSource. intros (typ & _ & Hs)%bind_Some. destruct (is_empty typ); [done|].
  apply bind_Some in Hs as (build & Hbuild & (src & Hsrc & (key & Hkey & [= <-])%bind_Some)%bind_Some).
  destruct (registry_ok _ _ _ _ Hbuild Hsrc) as [Hok Hp].
  split; [by destruct (is_empty key)|]. exists key. split; [done|]. destruct (is_empty key); eauto.
Qed.

Lemma reads_shape steps s c : match s with
  | JsonKey inner key => exists inner' c', reads steps s c = (JsonKey inner' key, c') /\ is_plain inner' = is_plain inner
  | _ => is_plain (reads steps s c).1 = true
  end.
Proof.
  revert s c. induction steps as [|[[w now] after] steps IH]; intros s c; cbn [reads]; [destruct s; cbn; eauto|].
  destruct s as [f cv|name v|inner key]; cbn [Get].
  - destruct (cv_Get _ _ _ _ _) as [[r1 cv1] c1]. exact (IH (Cached f cv1) c1).
  - exact (IH (Static name v) c).
  - destruct (Get w now after inner c) as [[raw inner1] c1] eqn:Eg.
    destruct (IH (JsonKey inner1 key) c1) as (i & c' & Hr & Hp). exists i, c'. split; [done|]. rewrite Hp.
    destruct inner; cbn [Get] in Eg; [destruct (cv_Get _ _ _ _ _) as [[? ?] ?]| |destruct (Get _ _ _ inner _) as [[? ?] ?]];
      by injection Eg as <- <- <-.
Qed.

(** A source never gives an empty value, except through a JSON key.
    Whatever store a source block names, and whatever the store, the
    environment and the files did over any number of reads, a value it gives
    is not empty; with a [json_key] it is the string at that key of a JSON
    object, which may be empty. *)
Theorem source_values_nonempty n s0 steps s c w now after v s' c' :
  BuildSource n = Some s0 -> reads steps s0 noClients = (s, c) -> Get w now after s c = (Ok v, s', c') ->
  exists key, decode_json_key n = Some key /\
    if is_empty key then v <> "" else exists raw, raw <> "" /\ extractJSONKey raw key = Ok v.
Proof.
  intros (Hok & key & Hkey & Hshape)%BuildSource_shape Hr Hg. exists key. split; [done|].
  pose proof (reads_ok steps s0 noClients Hok) as Hok'. pose proof (reads_shape steps s0 noClients) as Hs.
  rewrite Hr in Hok', Hs. cbn [fst] in *. pose proof (Get_value _ _ _ _ _ _ _ _ Hok' Hg) as Hv. destruct (is_empty key).
  - destruct s0; cbn in *; try done; by destruct s.
  - destruct Hshape as (inner & -> & Hp). destruct Hs as (inner' & c1 & [= -> ->] & Hp').
    destruct Hv as (raw & inner2 & Hraw & He). exists raw. split; [|done].
    apply Get_value in Hraw; [|done]. rewrite Hp in Hp'. by destruct inner'.
Qed.
End nonempty.

(** ** Concrete runs *)

Section examples.

(** A world that is its environment, and stores that are all down. *)
Definition env_backends : Backends := {|
  World := gmap string string; getenv := fun w k => default "" (w !! k); readFile := fun _ _ => Err "no such file";
  SMClient := unit; newSMClient := fun _ _ => Err "down"; GetSecretValue := fun _ _ _ => Err "down";
  SSMClient := unit; newSSMClient := fun _ _ => Err "down"; GetParameter := fun _ _ _ _ => Err "down";
  OPClient := unit; newOPClient := fun _ _ => Err "down"; Resolve := fun _ _ _ => Err "down";
  ConnectClient := unit; newConnectClient := fun _ _ => (); GetVault := fun _ _ _ => Err "down"; GetItem := fun _ _ _ _ => Err "down";
  VaultClient := unit; newVaultClient := fun _ => Err "down"; KVv1_Get := fun _ _ _ _ => Err "down"; KVv2_Get := fun _ _ _ _ => Err "down" |}.
(** Blocks that are their fields. *)
Definition fields_node : SourceNode (gmap string string) := {|
  decode_type := fun n => Some (default "" (n !! "type"));
  decode_json_key := fun n => Some (default "" (n !! "json_key"));
  decode_env := fun n => Some (mkEnvConfig (default "" (n !! "var")));
  decode_file := fun n => Some (mkFileConfig (default "" (n !! "path")) (default "" (n !! "ttl")) "");
  decode_control_plane := fun n => Some (default "" (n !! "value"));
  decode_aws_sm := fun _ => None; decode_aws_ssm := fun _ => None; decode_op := fun _ => None; decode_vault := fun _ => None |}.
Local Existing Instances env_backends fields_node.

Definition env_block : gmap string string := {["type" := "env"; "var" := "API_KEY"]}.
Definition env_source : Source := Cached (FetchEnv "API_KEY") (newLazyValue "API_KEY" 0 Minute).

Lemma source_values_nonempty_witness : "hunter2" <> "" /\ BuildSource env_block = Some env_source.
Proof.
  split; [|vm_compute; reflexivity].
  destruct (source_values_nonempty env_block env_source [((∅ : World), 0, 1)]
              (reads [((∅ : World), 0, 1)] env_source noClients).1 noClients
              ({["API_KEY" := "hunter2"]} : World) (2 * Minute) (2 * Minute) "hunter2"
              (Cached (FetchEnv "API_KEY") (mkCached "API_KEY" 0 Minute true "hunter2" None (Some (1 + Minute)))) noClients) as (key & [= <-] & Hv);
    [vm_compute; reflexivity..|exact Hv].
Defined.

(** A value, a refresh that fails and one that succeeds. *)
Definition example_moments : list moment :=
  [mkMoment 0 1 (Err (EnvUnset "A")); mkMoment 30 31 (Ok "a"); mkMoment 70 71 (Ok "a"); mkMoment 172 173 (Err (EnvUnset "A"));
   mkMoment 200 201 (Ok "b"); mkMoment 230 231 (Ok "c")].
Lemma cache_refines_witness :
  exists rs cv log, Gets example_moments [] (newLazyValue "A" 100 60) = (rs, cv, log) /\
    spec_Gets 100 60 example_moments [] = (Some <$> rs, log).
Proof. apply (cache_refines "A" 100 60 0). cbn. repeat split; lia. Defined.

Example cache_example :
  (Gets example_moments [] (newLazyValue "A" 100 60)).1.1
  = [Err (EnvUnset "A"); Err (EnvUnset "A"); Ok "a"; Ok "a"; Ok "a"; Ok "c"].
Proof. vm_compute. reflexivity. Qed.

Lemma cache_spares_backend_witness : 1 + (if 100 =? 0 then 60 else Z.min (Z.quot 100 2) 60) <= 70.
Proof.
  apply (cache_spares_backend "A" 100 60 0 example_moments (Gets example_moments [] (newLazyValue "A" 100 60)).1.1
           (Gets example_moments [] (newLazyValue "A" 100 60)).1.2 (Gets example_moments [] (newLazyValue "A" 100 60)).2 0
           (mkMoment 0 1 (Err (EnvUnset "A"))) (mkMoment 70 71 (Ok "a"))); [cbn; repeat split; lia | lia | lia | vm_compute; reflexivity..].
Defined.

(** A field that is empty passes, where an empty secret does not. *)
Example empty_json_field : extractJSONKey (json_object [("key", json_string "")]) "key" = Ok "".
Proof. vm_compute. reflexivity. Qed.
End examples.

End Sources.
