(* ===== verification/ScrubPairs.v ===== *)
(** * What a response must not carry (src/internal/transform/secrets/scrub.go)

    The forms of one secret the response scrub looks for, each with the same
    form of its placeholder. *)
From stdpp Require Import base gmap strings list option.
From Stdlib Require Import ZArith Lia Ascii.
From S2P Require Import Prelude GoUtf8 GoStrings GoNet Body GoHttp GoEncoding.
Local Open Scope string_scope.
Local Open Scope list_scope.
Local Open Scope Z_scope.

Definition minFragment : nat := 8.

Record scrubPair := mkPair { sp_needle : list Z; sp_repl : list Z; sp_fold : bool }.
#[global] Instance scrubPair_eq_dec : EqDecision scrubPair.
Proof. solve_decision. Defined.

Definition encode_runes (rs : list Z) : list Z := concat (map EncodeRune rs).

(** [reverse] and [rot13]; a byte that is not UTF-8 becomes the replacement
    character. *)
Definition reverse_bytes (value : list Z) : list Z := encode_runes (List.rev (runes value)).
Definition rot13_rune (r : Z) : Z :=
  if is_lower_ascii r then 97 + (r - 97 + 13) mod 26
  else if is_upper_ascii r then 65 + (r - 65 + 13) mod 26
  else r.
Definition rot13 (value : list Z) : list Z := encode_runes (map rot13_rune (runes value)).

(** [fragment]: the characters of an encoding that depend on the value
    alone. *)
Definition fragment (encode : list Z -> list Z) (bits : nat) (value : list Z) (pad : nat) : list Z :=
  let encoded := encode (repeat 0 pad ++ value) in
  let start := ((8 * pad + bits - 1) / bits)%nat in
  let end_ := (8 * (pad + length value) / bits)%nat in
  if (end_ <=? start)%nat then [] else take (end_ - start) (drop start encoded).

(** The closure [derived] of [scrubPairsFor]: a form that is long enough, has
    a replacement and is not there yet. *)
Definition derived (realValue : list Z) (pairs : list scrubPair) (p : scrubPair) : list scrubPair :=
  if (length (runes (sp_needle p)) <? minFragment)%nat || bool_decide (sp_repl p = [])
     || bool_decide (sp_needle p = realValue) then pairs
  else if existsb (fun q => bool_decide (sp_needle q = sp_needle p)) pairs then pairs
  else pairs ++ [p].

Definition base32_lower (alphabet : list Z) (b : list Z) : list Z := map lower_byte (base32_encode alphabet b).

(** The derived forms in the order they are tried. *)
Definition scrub_forms (realValue placeholder : list Z) : list scrubPair :=
  let frag enc bits fold pad := mkPair (fragment enc bits realValue pad) (fragment enc bits placeholder pad) fold in
  [mkPair (hex_encode realValue) (hex_encode placeholder) true;
   mkPair (reverse_bytes realValue) (reverse_bytes placeholder) false;
   mkPair (rot13 realValue) (rot13 placeholder) false]
  ++ map (frag (base64_raw alphabet_std) 6%nat false) [0; 1; 2]%nat
  ++ map (frag (base64_raw alphabet_url) 6%nat false) [0; 1; 2]%nat
  ++ map (frag (base32_lower alphabet32_std) 5%nat true) [0; 1; 2; 3; 4]%nat
  ++ map (frag (base32_lower alphabet32_hex) 5%nat true) [0; 1; 2; 3; 4]%nat.

(** [scrubPairsFor]. *)
Definition scrubPairsFor (realValue placeholder : list Z) : list scrubPair :=
  match realValue with
  | [] => []
  | _ => fold_left (derived realValue) (scrub_forms realValue placeholder) [mkPair realValue placeholder false]
  end.
