(* ===== verification/McpRpc.v ===== *)
(** * MCP JSON-RPC messages and traces (src/internal/mcp/jsonrpc.go, audit.go)

    A [json.RawMessage] is the text it holds, the empty string when absent. *)
From stdpp Require Import base gmap strings list option.
From Stdlib Require Import ZArith Lia Ascii.
From S2P Require Import Prelude GoUtf8 GoStrings GoNet Body GoHttp GoJson GoJsonParse.
Local Open Scope string_scope.
Local Open Scope list_scope.
Local Open Scope Z_scope.

Definition MethodToolsCall : string := "tools/call".
Definition MethodToolsList : string := "tools/list".

Record rpcError := mkRpcError { err_Code : Z; err_Message : string; err_Data : string }.

Record rpcMessage := mkRpcMessage {
  rpc_JSONRPC : string;
  rpc_ID : string;
  rpc_Method : string;
  rpc_Params : string;
  rpc_Result : string;
  rpc_Error : option rpcError;
}.
Definition rpc_zero : rpcMessage := mkRpcMessage "" "" "" "" "" None.

Section decode.
Context `{UnicodeTables}.

(** ** Unmarshalling

    [None] is the error [json.Unmarshal] returns.  A [null] leaves a string or
    an integer as it is and clears a pointer. *)
Definition set_string (old : string) (j : json) : option string :=
  match j with JNull => Some old | JStr _ s => Some s | _ => None end.
Definition set_int (old : Z) (j : json) : option Z :=
  match j with JNull => Some old | JNum lit => Atoi lit | _ => None end.

Definition store_error_member (acc : option rpcError) (e : string * json) : option rpcError :=
  match acc with
  | None => None
  | Some r =>
    match struct_field ["code"; "message"; "data"] (fst e) with
    | Some "code" => (fun c => mkRpcError c (err_Message r) (err_Data r)) <$> set_int (err_Code r) (snd e)
    | Some "message" => (fun m => mkRpcError (err_Code r) m (err_Data r)) <$> set_string (err_Message r) (snd e)
    | Some _ => Some (mkRpcError (err_Code r) (err_Message r) (json_raw (snd e)))
    | None => Some r
    end
  end.
Definition set_error (old : option rpcError) (j : json) : option (option rpcError) :=
  match j with
  | JNull => Some None
  | JObj _ m => Some <$> fold_left store_error_member m (Some (default (mkRpcError 0 "" "") old))
  | _ => None
  end.

Definition rpc_fields : list string := ["jsonrpc"; "id"; "method"; "params"; "result"; "error"].
Definition store_rpc_member (acc : option rpcMessage) (e : string * json) : option rpcMessage :=
  match acc with
  | None => None
  | Some r =>
    let '(mkRpcMessage v id me pa re er) := r in
    match struct_field rpc_fields (fst e) with
    | Some "jsonrpc" => (fun v' => mkRpcMessage v' id me pa re er) <$> set_string v (snd e)
    | Some "id" => Some (mkRpcMessage v (json_raw (snd e)) me pa re er)
    | Some "method" => (fun me' => mkRpcMessage v id me' pa re er) <$> set_string me (snd e)
    | Some "params" => Some (mkRpcMessage v id me (json_raw (snd e)) re er)
    | Some "result" => Some (mkRpcMessage v id me pa (json_raw (snd e)) er)
    | Some _ => (fun er' => mkRpcMessage v id me pa re er') <$> set_error er (snd e)
    | None => Some r
    end
  end.
Definition rpc_of_json (j : json) : option rpcMessage :=
  match j with
  | JNull => Some rpc_zero
  | JObj _ m => fold_left store_rpc_member m (Some rpc_zero)
  | _ => None
  end.

(** [json.Unmarshal(text, &msg)] and [json.Unmarshal(text, &batch)]. *)
Definition Unmarshal_rpc (text : string) : option rpcMessage := json_parse text ≫= rpc_of_json.
Definition Unmarshal_rpc_batch (text : string) : option (list rpcMessage) :=
  match json_parse text with
  | Some (JArr _ l) => mapM rpc_of_json l
  | Some JNull => Some []
  | _ => None
  end.

(** [decodeJSONRPC]: the messages, or the error, and whether the body was a
    batch. *)
Definition decodeJSONRPC (body : string) : option (list rpcMessage) * bool :=
  let trimmed := TrimSpace body in
  if is_empty trimmed then (None, false)
  else if HasPrefix trimmed "[" then
    match Unmarshal_rpc_batch trimmed with
    | Some [] | None => (None, true)
    | Some batch => (Some batch, true)
    end
  else match Unmarshal_rpc trimmed with
       | Some single => (Some [single], false)
       | None => (None, false)
       end.

(** ** Marshalling *)

Definition omit_empty (name v : string) (enc : string -> string) : list (string * string) :=
  if is_empty v then [] else [(name, enc v)].
Definition marshal_error (e : rpcError) : string :=
  json_object ([("code", Itoa (err_Code e)); ("message", json_string (err_Message e))]
               ++ omit_empty "data" (err_Data e) json_compact).
Definition marshal_rpc (m : rpcMessage) : string :=
  json_object (omit_empty "jsonrpc" (rpc_JSONRPC m) json_string
               ++ omit_empty "id" (rpc_ID m) json_compact
               ++ omit_empty "method" (rpc_Method m) json_string
               ++ omit_empty "params" (rpc_Params m) json_compact
               ++ omit_empty "result" (rpc_Result m) json_compact
               ++ match rpc_Error m with Some e => [("error", marshal_error e)] | None => [] end).

(** [errorResponseBody]. *)
Definition error_message (id : string) (code : Z) (message : string) : rpcMessage :=
  mkRpcMessage "2.0" (if is_empty id then "null" else id) "" "" "" (Some (mkRpcError code message "")).
Definition errorResponseBody (id : string) (code : Z) (message : string) : string :=
  marshal_rpc (error_message id code message).
(** [batchErrorResponseBody]. *)
Definition batchErrorResponseBody (ids : list string) (code : Z) (message : string) : string :=
  json_array (map (fun id => marshal_rpc (error_message id code message)) ids).

(** ** Tool calls *)

Definition store_call_member (acc : option (string * string)) (e : string * json) : option (string * string) :=
  match acc with
  | None => None
  | Some (name, args) =>
    match struct_field ["name"; "arguments"] (fst e) with
    | Some "name" => (fun n => (n, args)) <$> set_string name (snd e)
    | Some _ => Some (name, json_raw (snd e))
    | None => Some (name, args)
    end
  end.
Definition call_of_json (j : json) : option (string * string) :=
  match j with
  | JNull => Some ("", "")
  | JObj _ m => fold_left store_call_member m (Some ("", ""))
  | _ => None
  end.

(** [extractToolCallName]: the tool name, the decoded arguments and their
    text; [None] is [ok = false]. *)
Definition extractToolCallName (params : string) : option (string * any * string) :=
  if is_empty params then None
  else match json_parse params ≫= call_of_json with
       | None => None
       | Some (name, args) =>
         if is_empty name then None
         else if is_empty args then Some (name, ANil, "")
         else match Unmarshal_any args with
              | None => Some (name, ANil, args)
              | Some v => Some (name, v, args)
              end
       end.

(** ** Filtering tool lists *)

(** A [map[string]json.RawMessage]; [None] is the unmarshal error. *)
Definition raw_map (j : json) : option (list (string * string)) :=
  match j with
  | JNull => Some []
  | JObj _ m => Some (fold_left (fun acc e => assoc_set acc (fst e) (json_raw (snd e))) m [])
  | _ => None
  end.
(** A nil map is marshalled as [null], a map with entries as an object. *)
Record rawMap := mkRawMap { rm_nil : bool; rm_entries : list (string * string) }.
Definition raw_map_of (j : json) : option rawMap := mkRawMap match j with JNull => true | _ => false end <$> raw_map j.
Definition marshal_raw_map (m : rawMap) : string :=
  if rm_nil m then "null"
  else json_object (sort_entries (map (fun e => (fst e, json_compact (snd e))) (rm_entries m))).

(** Whether the filter keeps a tool: no name, a name that is not a string, or
    an allowed name ([null] leaves the name empty). *)
Definition tool_kept (allowed : gset string) (t : rawMap) : bool :=
  match assoc_get (rm_entries t) "name" with
  | None => true
  | Some nameRaw =>
    match json_parse nameRaw ≫= set_string "" with
    | None => true
    | Some name => bool_decide (name ∈ allowed)
    end
  end.

(** [filterToolsListResult]: the result text and the number of removed
    entries. *)
Definition filterToolsListResult (result : string) (allowed : gset string) : string * nat :=
  if is_empty result then (result, 0%nat)
  else match json_parse result ≫= raw_map with
       | None => (result, 0%nat)
       | Some decoded =>
         match assoc_get decoded "tools" with
         | None => (result, 0%nat)
         | Some rawTools =>
           match json_parse rawTools with
           | Some (JArr _ l) =>
             match mapM raw_map_of l with
             | None => (result, 0%nat)
             | Some tools =>
               let kept := List.filter (tool_kept allowed) tools in
               let removed := (length tools - length kept)%nat in
               if bool_decide (removed = 0%nat) then (result, 0%nat)
               else
                 let newTools := json_array (map marshal_raw_map kept) in
                 (marshal_raw_map (mkRawMap false (assoc_set decoded "tools" newTools)), removed)
             end
           | _ => (result, 0%nat)
           end
         end
       end.
End decode.
