(* ===== verification/AuditLog.v ===== *)
(** * The audit log line (internal/transform/audit.go)

    Every request ends in one structured log line.  A line is its level and
    its attributes in order; a group is a nested list of attributes. *)
From stdpp Require Import base gmap strings list option.
From Stdlib Require Import ZArith Lia Ascii.
From Stdlib Require Import SpecFloat.
From S2P Require Import Prelude GoUtf8 GoStrings GoNet Body GoHttp GoJson Transform.
Local Open Scope string_scope.
Local Open Scope list_scope.
Local Open Scope Z_scope.

(** The MCP interceptor's view for the audit: the matched server, its messages
    and the gateway route. *)
Record MCPAudit := mkMCPAudit {
  MCPServer : string;
  MCPMessages : list any;
  MCPGateway : list (string * any);
}.

Record PipelineResult := mkPipelineResult {
  pres_Host : string;
  pres_Method : string;
  pres_Path : string;
  pres_RemoteAddr : string;
  pres_SNI : string;
  pres_Mode : TransformMode;
  pres_Duration : Z;                       (* nanoseconds *)
  pres_Action : TransformAction;
  pres_StatusCode : Z;
  pres_Tunnel : option TunnelInfo;
  pres_RequestTransforms : list TransformTrace;
  pres_ResponseTransforms : list TransformTrace;
  pres_MCP : option MCPAudit;
  pres_BodyCapture : option BodyCaptureData;
  pres_Err : option string;
  pres_ClientCanceled : bool;
}.

Definition actionString (a : TransformAction) : string :=
  match a with
  | ActionContinue => "allow"
  | ActionReject => "reject"
  | ActionStub => "stub"
  end.

Definition traceActionString (tr : TransformTrace) : string :=
  match tr_Err tr with
  | Some _ => "error"
  | None => actionString (tr_Action tr)
  end.

(** [float64(d.Microseconds()) / 1000.0]. *)
Definition duration_ms (d : Z) : float64 :=
  SFdiv 53 1024 (float64_of_Z (Z.quot d 1000)) (float64_of_Z 1000).

Record traceEntry := mkTraceEntry {
  te_Name : string;
  te_Action : string;
  te_DurationMS : float64;
  te_Error : string;
  te_Annotations : option Annotations;
}.

Definition buildTraceEntries (traces : list TransformTrace) : list traceEntry :=
  map (fun tr => mkTraceEntry (tr_Name tr) (traceActionString tr) (duration_ms (tr_Duration tr))
                   (default "" (tr_Err tr)) (tr_Annotations tr)) traces.

Inductive attr :=
  | AttrAny (key : string) (v : any)
  | AttrTraces (key : string) (l : list traceEntry)
  | AttrGroup (key : string) (l : list attr).

Inductive log_level := LevelInfo | LevelWarn | LevelError.

(** The first trace with the given action, as the [rejected_by] and
    [stubbed_by] loops find it. *)
Definition first_with (a : TransformAction) (traces : list TransformTrace) : option string :=
  tr_Name <$> List.find (fun tr => bool_decide (tr_Action tr = a)) traces.

(** [NewAuditLogger]: the level and attributes of the line for one result. *)
Definition audit_line (r : PipelineResult) : log_level * list attr :=
  let action := actionString (pres_Action r) in
  let action := match pres_Err r with Some _ => "error" | None => action end in
  let action := if pres_ClientCanceled r then "client_cancel" else action in
  let attrs :=
    [AttrGroup "audit"
       [AttrAny "host" (AStr (pres_Host r)); AttrAny "method" (AStr (pres_Method r));
        AttrAny "path" (AStr (pres_Path r)); AttrAny "remote_addr" (AStr (pres_RemoteAddr r));
        AttrAny "sni" (AStr (pres_SNI r)); AttrAny "mode" (AStr (Mode_String (pres_Mode r)));
        AttrAny "action" (AStr action); AttrAny "status_code" (AInt (pres_StatusCode r));
        AttrAny "duration_ms" (AFloat (duration_ms (pres_Duration r)))]]
    ++ match pres_Tunnel r with
       | None => []
       | Some t =>
         [AttrGroup "tunnel"
            (AttrAny "target" (AStr (Target t))
             :: if bool_decide (TunnelTransforms t = []) then []
                else [AttrTraces "request_transforms" (buildTraceEntries (TunnelTransforms t))])]
       end
    ++ (if bool_decide (pres_Action r = ActionReject) then
          match first_with ActionReject (pres_RequestTransforms r) with
          | Some n => [AttrAny "rejected_by" (AStr n)]
          | None => []
          end
        else [])
    ++ (if bool_decide (pres_Action r = ActionStub) then
          match first_with ActionStub (pres_RequestTransforms r) with
          | Some n => [AttrAny "stubbed_by" (AStr n)]
          | None => []
          end
        else [])
    ++ match pres_Err r with Some e => [AttrAny "error" (AStr e)] | None => [] end
    ++ (if bool_decide (pres_RequestTransforms r = []) then []
        else [AttrTraces "request_transforms" (buildTraceEntries (pres_RequestTransforms r))])
    ++ (if bool_decide (pres_ResponseTransforms r = []) then []
        else [AttrTraces "response_transforms" (buildTraceEntries (pres_ResponseTransforms r))])
    ++ match pres_MCP r with
       | Some m =>
         if is_empty (MCPServer m) then []
         else [AttrGroup "mcp"
                 ([AttrAny "server" (AStr (MCPServer m))]
                  ++ (if bool_decide (length (MCPMessages m) = 0%nat) then []
                      else [AttrAny "messages" (AList (MCPMessages m))])
                  ++ (if bool_decide (length (MCPGateway m) = 0%nat) then []
                      else [AttrAny "gateway" (AMap (MCPGateway m))]))]
       | None => []
       end
    ++ match pres_BodyCapture r with
       | Some c =>
         if is_empty (cap_RequestBody c) then []
         else [AttrGroup "body_capture"
                 [AttrAny "request_body" (AStr (cap_RequestBody c));
                  AttrAny "request_body_truncated" (ABool (cap_Truncated c))]]
       | None => []
       end in
  let level :=
    match pres_Err r with
    | Some _ => LevelError
    | None => if pres_ClientCanceled r then LevelInfo
              else if bool_decide (pres_Action r = ActionReject) then LevelWarn else LevelInfo
    end in
  (level, attrs).

(** ** The line names the transform that decided *)

Lemma first_with_last a done_ tr :
  a <> ActionContinue -> Forall trace_continues done_ -> tr_Action tr = a ->
  first_with a (done_ ++ [tr]) = Some (tr_Name tr).
Proof.
  intros Hne Hd Ha. unfold first_with. induction Hd as [|d ds [Hc _] _ IH]; simpl.
  - by rewrite bool_decide_eq_true_2.
  - rewrite bool_decide_eq_false_2 by congruence. apply IH.
Qed.

(** A line carries [rejected_by] exactly when the action is reject and some
    request transform rejected. *)
Lemma audit_rejected_by r n :
  AttrAny "rejected_by" (AStr n) ∈ snd (audit_line r) <->
  pres_Action r = ActionReject /\ first_with ActionReject (pres_RequestTransforms r) = Some n.
Proof.
  unfold audit_line. cbn [snd]. rewrite !elem_of_app. split.
  - intros Hin. destruct_or!; repeat case_match; rewrite ?elem_of_cons, ?elem_of_nil in Hin;
      rewrite ?bool_decide_eq_true in *; naive_solver.
  - intros [Ha Hf]. rewrite Ha, Hf. do 2 right. left. rewrite bool_decide_eq_true_2 by done.
    by apply list_elem_of_singleton.
Qed.

(** The audit line names the refuser.  When the proxy records a request
    with the traces [ProcessRequest] left and the action
    [ShortCircuitAction] reads from them, the line carries [rejected_by: n]
    exactly when the pipeline refused the request and [n] is the transform
    whose trace is the last one; and without a transport error or a client
    cancel the line is logged at WARN exactly then. *)
Theorem audit_names_refuser {C} elapsed (p : Pipeline C) tctx req res :
  let r := ProcessRequest elapsed p tctx req [] in
  pres_RequestTransforms res = pr_traces r ->
  pres_Action res = ShortCircuitAction (pr_traces r) ->
  (forall n, AttrAny "rejected_by" (AStr n) ∈ snd (audit_line res) <->
     exists resp done_ tr, pr_outcome r = Ok (Some resp) /\ pr_traces r = done_ ++ [tr] /\
       tr_Action tr = ActionReject /\ tr_Name tr = n) /\
  (pres_Err res = None -> pres_ClientCanceled res = false ->
   fst (audit_line res) = LevelWarn <->
     exists n, AttrAny "rejected_by" (AStr n) ∈ snd (audit_line res)).
Proof.
  intros r Htr Hact.
  destruct (process_request_traces elapsed 0 (transforms p) tctx req []) as (new & Hnew & Hexp).
  change (pr_traces r = new) in Hnew.
  change (process_request elapsed 0 (transforms p) tctx req []) with r in Hexp.
  rewrite Hnew in *.
  pose proof (ShortCircuit_explained _ _ _ Hexp) as Hsc.
  assert (forall n, AttrAny "rejected_by" (AStr n) ∈ snd (audit_line res) <->
     exists resp done_ tr, pr_outcome r = Ok (Some resp) /\ new = done_ ++ [tr] /\
       tr_Action tr = ActionReject /\ tr_Name tr = n) as Hby.
  { intros n. rewrite audit_rejected_by, Htr, Hact. split.
    - intros [Ha Hf]. destruct (proj1 Hsc) as [resp Hresp]; [by rewrite Ha|].
      rewrite Hresp in Hexp. destruct Hexp as [_ (dn & tr & -> & Hdn & _ & Hne)].
      unfold ShortCircuitAction in Ha. rewrite lookup_last_snoc in Ha.
      destruct (tr_Action tr) eqn:E; [done| |done].
      rewrite (first_with_last ActionReject) in Hf by done. by exists resp, dn, tr; simplify_eq.
    - intros (resp & dn & tr & Hresp & -> & Ha & <-). rewrite Hresp in Hexp.
      destruct Hexp as [_ (dn' & tr' & [-> [= ->]]%app_inj_tail & Hdn & _)].
      split; [unfold ShortCircuitAction; by rewrite lookup_last_snoc, Ha|].
      by apply first_with_last. }
  split; [exact Hby|]. intros He Hc. unfold audit_line at 1. cbn [fst]. rewrite He, Hc.
  case_bool_decide as Ha.
  - split; [intros _|done]. destruct (proj1 Hsc) as [resp Hresp]; [by rewrite <- Hact, Ha|].
    assert (Hexp' := Hexp). rewrite Hresp in Hexp'. destruct Hexp' as [_ (dn & tr & Hdt & _ & _ & Hne)].
    exists (tr_Name tr). apply Hby. exists resp, dn, tr. split; [done|]. split; [done|]. split; [|done].
    rewrite Hact, Hdt in Ha. unfold ShortCircuitAction in Ha. rewrite lookup_last_snoc in Ha.
    by destruct (tr_Action tr).
  - split; [done|]. intros [n [Hr _]%audit_rejected_by]. congruence.
Qed.

Definition example_result (traces : list TransformTrace) (a : TransformAction) : PipelineResult :=
  mkPipelineResult "evil.test" "GET" "/" "10.0.0.9:1" "" ModeMITM 0 a 403 None traces [] None None None false.

Definition example_run :=
  ProcessRequest (fun _ => 1) (mkPipeline [refuse_all] (mkLimits 0 0)) example_ctx (mkReqState example_req ()) [].

Lemma audit_names_refuser_witness :
  let res := example_result (pr_traces example_run) (ShortCircuitAction (pr_traces example_run)) in
  fst (audit_line res) = LevelWarn /\
  exists n, AttrAny "rejected_by" (AStr n) ∈ snd (audit_line res).
Proof.
  intros res.
  assert (Hw : fst (audit_line res) = LevelWarn) by (vm_compute; reflexivity).
  split; [exact Hw|].
  apply (audit_names_refuser (fun _ => 1) (mkPipeline [refuse_all] (mkLimits 0 0)) example_ctx
           (mkReqState example_req ()) res); [reflexivity..|exact Hw].
Defined.
