(* ===== verification/ControlPlane.v ===== *)
(** * The control plane client and its poller (src/internal/controlplane)

    The client asks the control plane for configuration with the hash of the
    one it has; the poller applies what comes back, remembers the hash only
    when it was applied, and stops when the proxy is revoked.  The HTTP
    exchange and the back-off library are parameters. *)
From stdpp Require Import base gmap strings list option relations.
From Stdlib Require Import ZArith Lia Ascii.
From S2P Require Import Prelude GoUtf8 GoStrings GoNet GoHttp GoJson GoJsonParse GoTime McpRpc.
Local Open Scope string_scope.
Local Open Scope list_scope.
Local Open Scope Z_scope.

Module ControlPlane.

(** ** errors.go *)

Definition ErrProxyRevoked : string := "proxy_revoked".
Record APIError := mkAPIError { StatusCode : Z; Code : string; Detail : string }.

(** [IsRetryable]. *)
Definition IsRetryable (e : APIError) : bool := (StatusCode e =? 429) || (500 <=? StatusCode e).

Inductive cp_error := API (e : APIError) | Transport (text : string) | Cancelled.

Definition isRevocationError (e : cp_error) : bool :=
  match e with API a => str_eqb (Code a) ErrProxyRevoked | _ => false end.

(** ** client.go *)

(** A [json.RawMessage] is its text, empty when the member is absent. *)
Record SyncResponse := mkSyncResponse {
  ConfigHash : string; Rules : string; Secrets : string; Transforms : string; MCP : string; Postgres : string;
  IngestToken : string; RespStatus : string; PrincipalID : string }.
Definition no_response : SyncResponse := mkSyncResponse "" "" "" "" "" "" "" "" "".

Section client.
Context `{UnicodeTables}.

Definition sync_fields : list string :=
  ["config_hash"; "rules"; "secrets"; "transforms"; "mcp"; "postgres"; "ingest_token"; "status"; "principal_id"].
Definition store_sync_member (acc : option SyncResponse) (e : string * json) : option SyncResponse :=
  match acc with
  | None => None
  | Some r =>
    let '(mkSyncResponse h ru se tr mc po it st pr) := r in
    match struct_field sync_fields (fst e) with
    | None => Some r
    | Some "config_hash" => (fun x => mkSyncResponse x ru se tr mc po it st pr) <$> set_string h (snd e)
    | Some "rules" => Some (mkSyncResponse h (json_raw (snd e)) se tr mc po it st pr)
    | Some "secrets" => Some (mkSyncResponse h ru (json_raw (snd e)) tr mc po it st pr)
    | Some "transforms" => Some (mkSyncResponse h ru se (json_raw (snd e)) mc po it st pr)
    | Some "mcp" => Some (mkSyncResponse h ru se tr (json_raw (snd e)) po it st pr)
    | Some "postgres" => Some (mkSyncResponse h ru se tr mc (json_raw (snd e)) it st pr)
    | Some "ingest_token" => (fun x => mkSyncResponse h ru se tr mc po x st pr) <$> set_string it (snd e)
    | Some "status" => (fun x => mkSyncResponse h ru se tr mc po it x pr) <$> set_string st (snd e)
    | Some _ => (fun x => mkSyncResponse h ru se tr mc po it st x) <$> set_string pr (snd e)
    end
  end.
Definition Unmarshal_sync (body : string) : option SyncResponse :=
  match json_parse body with
  | Some JNull => Some no_response
  | Some (JObj _ m) => fold_left store_sync_member m (Some no_response)
  | _ => None
  end.

(** [apiErrorResponse]: the code and the message of its error member. *)
Definition store_error_member (acc : option (string * string)) (e : string * json) : option (string * string) :=
  match acc with
  | None => None
  | Some (code, message) =>
    match struct_field ["code"; "message"] (fst e) with
    | Some "code" => (fun x => (x, message)) <$> set_string code (snd e)
    | Some _ => (fun x => (code, x)) <$> set_string message (snd e)
    | None => acc
    end
  end.
Definition store_api_error (acc : option (string * string)) (e : string * json) : option (string * string) :=
  match acc, struct_field ["error"] (fst e) with
  | Some _, Some _ =>
    match snd e with
    | JNull => acc
    | JObj _ m => fold_left store_error_member m acc
    | _ => None
    end
  | _, _ => acc
  end.
Definition Unmarshal_api_error (body : string) : option (string * string) :=
  match json_parse body with
  | Some JNull => Some ("", "")
  | Some (JObj _ m) => fold_left store_api_error m (Some ("", ""))
  | _ => None
  end.

Definition parseAPIError (statusCode : Z) (body : string) : APIError :=
  match Unmarshal_api_error body with
  | Some (code, message) =>
    if is_empty code then mkAPIError statusCode ("http_" +:+ Itoa statusCode) body
    else mkAPIError statusCode code message
  | None => mkAPIError statusCode ("http_" +:+ Itoa statusCode) body
  end.

(** The request of one attempt, as [bearerTransport] sends it. *)
Record sync_request := mkSyncRequest { sr_URL : string; sr_Authorization : string; sr_Body : string }.
Definition sync_request_for (baseURL token configHash : string) : sync_request :=
  mkSyncRequest (baseURL +:+ "/api/v1/proxy/sync") ("Bearer " +:+ token) (json_object [("config_hash", json_string configHash)]).

(** What comes back: a transport error, or a status and a body that may break off. *)
Inductive exchange := ExchangeFailed (e : string) | Answered (status : Z) (body : result string string).

(** [Client.sync] after the exchange. *)
Definition read_response (x : exchange) : result cp_error SyncResponse :=
  match x with
  | ExchangeFailed e => Err (Transport e)
  | Answered _ (Err e) => Err (Transport e)
  | Answered status (Ok body) =>
    if negb (status =? 200) then Err (API (parseAPIError status body))
    else match Unmarshal_sync body with
         | Some r => Ok r
         | None => Err (Transport "parsing sync response")
         end
  end.
End client.

(** ** retry.go *)

(** One call of the retried function: its value, an error to try again on,
    or one marked permanent. *)
Inductive attempt (T : Type) := Succeeds (v : T) | Retryable (e : cp_error) | Permanent (e : cp_error).
Arguments Succeeds {T} _.
Arguments Retryable {T} _.
Arguments Permanent {T} _.

(** [backoff.Retry] on the calls that are made before the context ends:
    it returns with the first one that succeeds or fails permanently, gives
    up with the last error after the allowed number of tries (0 is no
    limit), and otherwise ends with the context. *)
Class Backoff := {
  Retry : forall T, nat -> list (attempt T) -> result cp_error T;
  Retry_nil T n : Retry T n [] = Err Cancelled;
  Retry_Succeeds T n v l : Retry T n (Succeeds v :: l) = Ok v;
  Retry_Permanent T n e l : Retry T n (Permanent e :: l) = Err e;
  Retry_last T e l : Retry T 1 (Retryable e :: l) = Err e;
  Retry_again T n e l : n <> 1%nat -> Retry T n (Retryable e :: l) = Retry T (n - 1) l;
}.
Arguments Retry {_} [T] _ _.

(** The closure [WithRetry] hands over. *)
Definition classify {T} (r : result cp_error T) : attempt T :=
  match r with
  | Ok v => Succeeds v
  | Err (API a) => if IsRetryable a then Retryable (API a) else Permanent (API a)
  | Err e => Retryable e
  end.

Section retry.
Context `{UnicodeTables} `{Backoff}.
Definition WithRetry {T} (maxTries : nat) (calls : list (result cp_error T)) : result cp_error T := Retry maxTries (map classify calls).

(** [Client.Sync] on the exchanges its attempts make. *)
Definition Sync (xs : list exchange) : result cp_error SyncResponse := WithRetry 0 (map read_response xs).
End retry.

(** ** poller.go *)

Record SyncUpdate := mkUpdate { u_Rules : string; u_Secrets : string; u_Transforms : string; u_MCP : string; u_Postgres : string }.
Record Status := mkStatus {
  st_ConfigHash : string; st_PrincipalID : string; st_PrincipalStatus : string; SyncedOnce : bool; LastSyncAt : Z }.
Definition zero_status : Status := mkStatus "" "" "" false 0.

Record Poller := mkPoller { configHash : string; interval : Z; status : Status; poke : bool }.

Definition DefaultPollInterval : Z := 10 * Second.
Definition NewPollerWithInterval (initialConfigHash : string) (interval : Z) : Poller :=
  mkPoller initialConfigHash (if interval <=? 0 then DefaultPollInterval else interval) zero_status false.

Definition isNonNullJSON (data : string) : bool := negb (is_empty data) && negb (str_eqb data "null").

Definition set_status (p : Poller) (s : Status) : Poller := mkPoller (configHash p) (interval p) s (poke p).
Definition set_poke (p : Poller) (b : bool) : Poller := mkPoller (configHash p) (interval p) (status p) b.

(** [Poke]: the channel holds one at most. *)
Definition Poke (p : Poller) : Poller := set_poke p true.

Definition recordSync (now : Z) (resp : SyncResponse) (p : Poller) : Poller :=
  set_status p (mkStatus (ConfigHash resp)
    (if is_empty (PrincipalID resp) then st_PrincipalID (status p) else PrincipalID resp)
    (if is_empty (RespStatus resp) then st_PrincipalStatus (status p) else RespStatus resp) true now).
Definition SeedStatus (now : Z) (resp : option SyncResponse) (p : Poller) : Poller :=
  match resp with None => p | Some r => recordSync now r p end.

Definition update_of (resp : SyncResponse) : SyncUpdate := mkUpdate (Rules resp) (Secrets resp) (Transforms resp) (MCP resp) (Postgres resp).
Definition carries_update (resp : SyncResponse) : bool :=
  isNonNullJSON (Rules resp) || isNonNullJSON (Secrets resp) || isNonNullJSON (Transforms resp)
  || isNonNullJSON (MCP resp) || isNonNullJSON (Postgres resp).

Section poller.
Context {A : Type}.
(** [onUpdate] on the state of the proxy, which may be nil. *)
Variable onUpdate : option (SyncUpdate -> A -> option string * A).

(** [Poller.sync] with what [Client.Sync] returned for [configHash]. *)
Definition sync (now : Z) (got : result cp_error SyncResponse) (p : Poller) (a : A) : option cp_error * Poller * A :=
  match got with
  | Err e => (Some e, p, a)
  | Ok resp =>
    let '(err, a') := match onUpdate with
                      | Some f => if carries_update resp then f (update_of resp) a else (None, a)
                      | None => (None, a)
                      end in
    match err with
    | Some e => (Some (Transport e), p, a')
    | None => (None, recordSync now resp (mkPoller (ConfigHash resp) (interval p) (status p) (poke p)), a')
    end
  end.

(** Where [Run] is: about to sync, in its select, or returned. *)
Inductive phase := Syncing | Waiting | Returned (e : option cp_error).
(** A sync: the hash it was made with, the response if it was taken, and the
    proxy before and after it. *)
Record synced := mkSynced { sy_asked : string; sy_taken : option SyncResponse; sy_before : A; sy_after : A }.
Record run := mkRun { rn_phase : phase; rn_poller : Poller; rn_app : A; rn_syncs : list synced }.
Definition rn_asked (r : run) : list string := map sy_asked (rn_syncs r).
Definition rn_applied (r : run) : list SyncResponse := omap sy_taken (rn_syncs r).

(** [Run] next to the callers of [Poke], with a record of the syncs so far. *)
Inductive step : run -> run -> Prop :=
  | step_sync now got p a l err p' a' :
      sync now got p a = (err, p', a') ->
      step (mkRun Syncing p a l)
           (mkRun (match err with Some e => if isRevocationError e then Returned (Some e) else Waiting | None => Waiting end)
                  p' a' (l ++ [mkSynced (configHash p) (match err, got with None, Ok resp => Some resp | _, _ => None end) a a']))
  | step_timer p a l : step (mkRun Waiting p a l) (mkRun Syncing p a l)
  | step_poked p a l : poke p = true -> step (mkRun Waiting p a l) (mkRun Syncing (set_poke p false) a l)
  | step_done p a l : step (mkRun Waiting p a l) (mkRun (Returned None) p a l)
  | step_poke ph p a l : step (mkRun ph p a l) (mkRun ph (Poke p) a l).

Definition started (p : Poller) (a : A) : run := mkRun Syncing p a [].

(** ** What the poller knows and says *)

(** The hash of the configuration in force. *)
Definition applied_hash (h0 : string) (applied : list SyncResponse) : string := default h0 (ConfigHash <$> list.last applied).
(** The last assignment a response named. *)
Definition last_named (f : SyncResponse -> string) (v0 : string) (applied : list SyncResponse) : string :=
  fold_left (fun v r => if is_empty (f r) then v else f r) applied v0.

(** The response was applied: the proxy took its update, if it carries one. *)
Definition accepted (resp : SyncResponse) (a a' : A) : Prop :=
  match onUpdate with
  | Some f => if carries_update resp then f (update_of resp) a = (None, a') else a' = a
  | None => a' = a
  end.
(** Sync number [i] was made with the hash of the last response taken before
    it, on the proxy the one before left, and took only what was applied. *)
Definition syncs_ok (h0 : string) (a0 : A) (l : list synced) : Prop :=
  forall i e, l !! i = Some e ->
    sy_asked e = applied_hash h0 (omap sy_taken (take i l)) /\ sy_before e = default a0 (sy_after <$> list.last (take i l)) /\
    (forall resp, sy_taken e = Some resp -> accepted resp (sy_before e) (sy_after e)).

Record poller_inv (p0 : Poller) (a0 : A) (r : run) : Prop := mkPollerInv {
  pi_hash : configHash (rn_poller r) = applied_hash (configHash p0) (rn_applied r);
  pi_app : rn_app r = default a0 (sy_after <$> list.last (rn_syncs r));
  pi_syncs : syncs_ok (configHash p0) a0 (rn_syncs r);
  pi_status : rn_applied r = [] -> status (rn_poller r) = status p0;
  pi_said : rn_applied r <> [] -> st_ConfigHash (status (rn_poller r)) = configHash (rn_poller r) /\ SyncedOnce (status (rn_poller r)) = true;
  pi_principal : st_PrincipalID (status (rn_poller r)) = last_named PrincipalID (st_PrincipalID (status p0)) (rn_applied r);
}.

Lemma syncs_ok_snoc h0 a0 l e : syncs_ok h0 a0 l -> sy_asked e = applied_hash h0 (omap sy_taken l) -> sy_before e = default a0 (sy_after <$> list.last l) ->
  (forall resp, sy_taken e = Some resp -> accepted resp (sy_before e) (sy_after e)) -> syncs_ok h0 a0 (l ++ [e]).
Proof.
  intros Hl Ha Hb Ht i x Hx. apply lookup_app_Some in Hx as [Hx|[Hi Hx]].
  - pose proof (lookup_lt_Some _ _ _ Hx). rewrite take_app_le by lia. by apply Hl.
  - apply list_lookup_singleton_Some in Hx as [Hz <-]. replace i with (length l) by lia. by rewrite take_app_length.
Qed.

Lemma sync_cases now got p a err p' a' :
  sync now got p a = (err, p', a') ->
  (err <> None /\ p' = p) \/
  exists resp, got = Ok resp /\ err = None /\ p' = recordSync now resp (mkPoller (ConfigHash resp) (interval p) (status p) (poke p)) /\ accepted resp a a'.
Proof.
  unfold sync. destruct got as [resp|e]; [|intros [= <- <- <-]; by left].
  destruct (match onUpdate with Some _ => _ | None => _ end) as [[e|] a1] eqn:Eu; intros [= <- <- <-]; [by left|]. right. exists resp. split_and!; [done..|].
  unfold accepted. destruct onUpdate as [f|]; [|by injection Eu]. destruct (carries_update resp); [done | by injection Eu].
Qed.

Lemma poller_inv_step p0 a0 r r' : step r r' -> poller_inv p0 a0 r -> poller_inv p0 a0 r'.
Proof.
  intros Hs [Hh Happ Ha H0 Hsaid Hp].
  destruct Hs as [now got p a l err p' a' Hsync|p a l|p a l Hpoke|p a l|ph p a l]; unfold rn_applied in *; cbn [rn_poller rn_syncs rn_app] in *; try (by split).
  destruct (sync_cases _ _ _ _ _ _ _ Hsync) as [[He ->]|(resp & -> & -> & -> & Hacc)].
  - replace (match err, got with None, Ok resp => Some resp | _, _ => None end) with (@None SyncResponse) by (by destruct err).
    split; unfold rn_applied; cbn [rn_poller rn_syncs rn_app]; rewrite ?omap_app, ?last_snoc, ?app_nil_r; try done. by apply syncs_ok_snoc.
  - split; unfold rn_applied; cbn [rn_poller rn_syncs rn_app]; rewrite ?omap_app, ?last_snoc; cbn [recordSync set_status configHash status st_ConfigHash SyncedOnce st_PrincipalID].
    + unfold applied_hash. cbn [omap list_omap sy_taken]. by rewrite last_snoc.
    + done.
    + apply syncs_ok_snoc; [done..|]. cbn. by intros ? [= <-].
    + cbn. intros Hn. symmetry in Hn. by apply app_cons_not_nil in Hn.
    + done.
    + unfold last_named. rewrite fold_left_app. cbn. fold (last_named PrincipalID (st_PrincipalID (status p0)) (omap sy_taken l)). rewrite <- Hp. by destruct (is_empty _).
Qed.

Lemma poller_inv_steps p0 a0 r r' : rtc step r r' -> poller_inv p0 a0 r -> poller_inv p0 a0 r'.
Proof. apply rtc_invariant. eauto using poller_inv_step. Qed.
Lemma poller_inv_reachable p0 a0 r : rtc step (started p0 a0) r -> poller_inv p0 a0 r.
Proof. intros Hr. eapply poller_inv_steps; [exact Hr|]. split; try done. Qed.

(** C28: The poller says what it applied.  However syncs fail, updates are
    refused and callers poke, the hash it holds and reports is that of the
    last response it took, or, before the first, the one it was started with;
    every sync was made with the hash of the last response taken before that
    sync; a response is taken only when the proxy accepted its update, so a
    refused one is asked for again; and the principal it reports is the last
    one named.  What the hash it is started with stands for is the business
    of its caller. *)
Theorem poller_reports_applied p0 a0 r :
  rtc step (started p0 a0) r ->
  configHash (rn_poller r) = applied_hash (configHash p0) (rn_applied r) /\
  syncs_ok (configHash p0) a0 (rn_syncs r) /\
  rn_app r = default a0 (sy_after <$> list.last (rn_syncs r)) /\
  (rn_applied r = [] -> status (rn_poller r) = status p0) /\
  (rn_applied r <> [] -> st_ConfigHash (status (rn_poller r)) = configHash (rn_poller r) /\ SyncedOnce (status (rn_poller r)) = true) /\
  st_PrincipalID (status (rn_poller r)) = last_named PrincipalID (st_PrincipalID (status p0)) (rn_applied r).
Proof. by intros [Hh Happ Ha H0 Hs Hp]%poller_inv_reachable. Qed.

(** Syncs begun so far. *)
Definition begun (r : run) : nat := (length (rn_syncs r) + match rn_phase r with Syncing => 1 | _ => 0 end)%nat.

Lemma begun_step r r' : step r r' -> (begun r <= begun r')%nat /\ (poke (rn_poller r) = true -> poke (rn_poller r') = true \/ (begun r < begun r')%nat).
Proof.
  intros Hs. unfold begun.
  destruct Hs as [now got p a l err p' a' Hsync|p a l|p a l Hpoke|p a l|ph p a l];
    cbn [rn_poller rn_syncs rn_phase]; try (split; [lia | auto; right; lia]).
  - rewrite length_app. cbn [length]. split; [destruct err as [e|]; [destruct (isRevocationError e)|]; lia|].
    destruct (sync_cases _ _ _ _ _ _ _ Hsync) as [[He ->]|(resp & -> & -> & -> & _)]; auto.
Qed.

(** A poke is not lost.  Once [Poke] was called, and as long as the
    poller runs, the request is either still queued, where it wakes the
    select, or a sync was begun after it; a poke during a sync is kept for
    the next one. *)
Theorem poke_not_lost r r' :
  rtc step (mkRun (rn_phase r) (Poke (rn_poller r)) (rn_app r) (rn_syncs r)) r' ->
  (begun r < begun r')%nat \/
  (poke (rn_poller r') = true /\ (rn_phase r' = Waiting -> exists r2, step r' r2 /\ (begun r < begun r2)%nat)).
Proof.
  set (r1 := mkRun _ _ _ _). intros Hr.
  enough (poke (rn_poller r') = true /\ (begun r1 <= begun r')%nat \/ (begun r1 < begun r')%nat) as [[Hp Hb]|Hb]; [|by left|].
  - change (begun r1) with (begun r) in *. destruct (Nat.lt_ge_cases (begun r) (begun r')); [by left|]. right. split; [done|].
    destruct r' as [ph p a l]. cbn in *. intros ->. eexists. split; [by constructor 3|]. unfold begun in *. cbn in *. lia.
  - assert (poke (rn_poller r1) = true) as Hp1 by done. clearbody r1. induction Hr as [x|x y z Hxy Hyz IH]; [by left|].
    destruct (begun_step _ _ Hxy) as [Hle Hk]. destruct (Hk Hp1) as [Hp|Hlt].
    + destruct (IH Hp) as [[? ?]|?]; [left | right]; [split; [done | lia] | lia].
    + right. enough (begun y <= begun z)%nat by lia. clear -Hyz. induction Hyz as [|u v w Huv _ IHw]; [done|]. apply begun_step in Huv as [? _]. lia.
Qed.
End poller.

(** ** What a sync ends with *)

Section settled.
Context `{UnicodeTables} `{Backoff}.

Definition retried {T} (r : result cp_error T) : bool :=
  match r with Ok _ => false | Err (API a) => IsRetryable a | Err _ => true end.

(** A sync ends at the first answer that settles it.  Transport
    failures, answers that do not decode, 429 and 5xx are tried again for as
    long as it takes; the first configuration or other refusal of the control
    plane is returned as it is, so a revocation is never retried. *)
Theorem Sync_settles xs :
  (Forall (fun x => retried (read_response x) = true) xs /\ Sync xs = Err Cancelled) \/
  exists pre x post, xs = pre ++ x :: post /\ Forall (fun x => retried (read_response x) = true) pre /\
    retried (read_response x) = false /\ Sync xs = read_response x.
Proof.
  unfold Sync, WithRetry. induction xs as [|x xs IH]; [left; split; [by apply Forall_nil | apply Retry_nil]|]. cbn [map].
  destruct (retried (read_response x)) eqn:Ex.
  - assert (Retry 0 (classify (read_response x) :: map classify (map read_response xs)) = Retry 0 (map classify (map read_response xs))) as ->.
    { unfold classify at 1. unfold retried in Ex. destruct (read_response x) as [v|[a|e|]]; try done; rewrite ?Ex; by rewrite Retry_again by done. }
    destruct IH as [[Hf ->]|(pre & y & post & -> & Hf & Hy & ->)]; [left; split; [by apply list.Forall_cons | done]|].
    right. exists (x :: pre), y, post. split_and!; [done | by apply list.Forall_cons | done | done].
  - right. exists [], x, xs. split_and!; [done | by apply Forall_nil | done |]. unfold classify at 1. unfold retried in Ex.
    destruct (read_response x) as [v|[a|e|]]; try done; [apply Retry_Succeeds|]. rewrite Ex. apply Retry_Permanent.
Qed.
End settled.

(** ** Concrete runs *)

Section examples.
Local Existing Instance ascii_tables.
(** A member that is JSON null arrives as the text of it. *)
Example null_members : Unmarshal_sync (json_object [("config_hash", json_string "h2"); ("rules", "null"); ("mcp", "{}")])
  = Some (mkSyncResponse "h2" "null" "" "" "{}" "" "" "" "").
Proof. vm_compute. reflexivity. Qed.

(** Back-off as it is documented. *)
Fixpoint retry_loop {T} (n : nat) (l : list (attempt T)) : result cp_error T :=
  match l with
  | [] => Err Cancelled
  | Succeeds v :: _ => Ok v
  | Permanent e :: _ => Err e
  | Retryable e :: l => match n with 1%nat => Err e | _ => retry_loop (n - 1) l end
  end.
#[refine] Definition plain_backoff : Backoff := {| Retry T := retry_loop |}.
Proof. all: intros; try reflexivity. cbn. destruct n as [|[|n]]; [reflexivity | done | reflexivity]. Defined.

Definition keep_last (u : SyncUpdate) (a : string) : option string * string :=
  if str_eqb (u_Rules u) "bad" then (Some "invalid rules", a) else (None, u_Rules u).
Definition response (h rules : string) : SyncResponse := mkSyncResponse h rules "" "" "" "" "" "" "".

(** A configuration, then one that is refused. *)
Lemma poller_example_run :
  rtc (step (Some keep_last)) (started (NewPollerWithInterval "" 0) "none")
    (mkRun Waiting (recordSync 5 (response "h1" "good") (mkPoller "h1" DefaultPollInterval zero_status false)) "good"
       [mkSynced "" (Some (response "h1" "good")) "none" "good"; mkSynced "h1" None "good" "good"]).
Proof.
  eapply rtc_l; [eapply (step_sync _ 5 (Ok (response "h1" "good"))); reflexivity|].
  eapply rtc_l; [apply step_timer|]. eapply rtc_l; [eapply (step_sync _ 7 (Ok (response "h2" "bad"))); reflexivity|]. apply rtc_refl.
Qed.
Lemma poller_reports_applied_witness :
  let p := recordSync 5 (response "h1" "good") (mkPoller "h1" DefaultPollInterval zero_status false) in
  st_ConfigHash (status p) = "h1" /\ configHash p = applied_hash "" [response "h1" "good"] /\
  syncs_ok (Some keep_last) "" "none" [mkSynced "" (Some (response "h1" "good")) "none" "good"; mkSynced "h1" None "good" "good"].
Proof.
  destruct (poller_reports_applied (Some keep_last) (NewPollerWithInterval "" 0) "none" _ poller_example_run) as (Hh & Hl & _ & _ & Hs & _).
  split; [exact (proj1 (Hs ltac:(discriminate))) | split; [exact Hh | exact Hl]].
Defined.

(** A poke while the first sync is under way, which then fails. *)
Definition poked_run : run := mkRun Waiting (Poke (NewPollerWithInterval "" 0)) "none" [mkSynced "" None "none" "none"].
Lemma poke_not_lost_witness :
  let r := started (NewPollerWithInterval "" 0) "none" in
  (begun r < begun poked_run)%nat \/
  (poke (rn_poller poked_run) = true /\ (rn_phase poked_run = Waiting -> exists r2, step (Some keep_last) poked_run r2 /\ (begun r < begun r2)%nat)).
Proof.
  intros r. apply (poke_not_lost (Some keep_last) r poked_run). eapply rtc_l; [eapply (step_sync _ 1 (Err (Transport "down"))); reflexivity|].
  apply rtc_refl.
Defined.
End examples.
End ControlPlane.
