(* ===== verification/McpTrace.v ===== *)
(** * The per-request MCP trace (src/internal/mcp/audit.go)

    A trace is reached through a pointer that may be nil, so every operation
    takes an [option Trace]. *)
From stdpp Require Import base gmap strings list option.
From Stdlib Require Import ZArith Lia Ascii.
From S2P Require Import Prelude GoUtf8 GoStrings GoNet Body GoHttp GoJson GoJsonParse McpRpc Transform AuditLog.
Local Open Scope string_scope.
Local Open Scope list_scope.
Local Open Scope Z_scope.

(** [Message]; a zero [Filtered] means none. *)
Record Message := mkMessage {
  Direction : string;
  msg_Method : string;
  Tool : string;
  Decision_ : string;
  Reason : string;
  Arguments_ : any;
  RawArguments : string;
  Filtered : nat;
}.

Record Trace := mkTrace {
  trace_Server : string;
  Messages : list Message;
  Gateway : list (string * any);
  toolsListIDs : gset string;
}.

Definition AuditArgumentsMaxLen : nat := 64.

(** The loop of [encodeArguments] that keeps the cut off the middle of a
    rune. *)
Fixpoint rune_cut (raw : list Z) (cut : nat) : nat :=
  match cut with
  | O => O
  | S k => if Z.land (default 0 (raw !! cut)) 0xC0 =? 0x80 then rune_cut raw k else cut
  end.

(** [encodeArguments]. *)
Definition encodeArguments (raw : string) : any * string :=
  if is_empty raw then (ANil, "")
  else if (String.length raw <=? AuditArgumentsMaxLen)%nat then
    match Unmarshal_any raw with Some v => (v, "") | None => (ANil, raw) end
  else (ANil, stake (rune_cut (bytes_of_string raw) (AuditArgumentsMaxLen - 3)) raw +:+ "...").

(** [Trace.Append] and [Trace.SetGateway]. *)
Definition Append (t : option Trace) (m : Message) : option Trace :=
  (fun t => mkTrace (trace_Server t) (Messages t ++ [m]) (Gateway t) (toolsListIDs t)) <$> t.
Definition SetGateway (t : option Trace) (g : list (string * any)) : option Trace :=
  (fun t => mkTrace (trace_Server t) (Messages t) g (toolsListIDs t)) <$> t.

(** [canonicalIDKey]: the key of an id; [None] for an absent or null id. *)
Definition canonicalIDKey (raw : string) : option string :=
  if is_empty raw then None
  else match Unmarshal_any raw with
       | None => Some raw
       | Some ANil => None
       | Some v => Some (Marshal_any v)
       end.

(** [Trace.recordToolsListID] and [Trace.isToolsListResponse]. *)
Definition recordToolsListID (t : option Trace) (id : string) : option Trace :=
  match canonicalIDKey id with
  | None => t
  | Some key =>
    (fun t => mkTrace (trace_Server t) (Messages t) (Gateway t) ({[ key ]} ∪ toolsListIDs t)) <$> t
  end.
Definition isToolsListResponse (t : option Trace) (id : string) : bool :=
  match t, canonicalIDKey id with
  | Some t, Some key => bool_decide (key ∈ toolsListIDs t)
  | _, _ => false
  end.

(** The audit view: [MCPServer], [MCPMessages] and [MCPGateway]. *)
Definition attr_unless (empty : bool) (k : string) (v : any) : list (string * any) :=
  if empty then [] else [(k, v)].
Definition message_entry (m : Message) : any :=
  AMap ([("direction", AStr (Direction m)); ("decision", AStr (Decision_ m))]
        ++ attr_unless (is_empty (msg_Method m)) "method" (AStr (msg_Method m))
        ++ attr_unless (is_empty (Tool m)) "tool" (AStr (Tool m))
        ++ attr_unless (is_empty (Reason m)) "reason" (AStr (Reason m))
        ++ attr_unless match Arguments_ m with ANil => true | _ => false end "arguments" (Arguments_ m)
        ++ attr_unless (is_empty (RawArguments m)) "raw_arguments" (AStr (RawArguments m))
        ++ attr_unless (Filtered m =? 0)%nat "filtered" (AInt (Z.of_nat (Filtered m)))).
Definition MCP_view (t : option Trace) : MCPAudit :=
  match t with
  | None => mkMCPAudit "" [] []
  | Some t => mkMCPAudit (trace_Server t) (map message_entry (Messages t)) (Gateway t)
  end.

(** ** Properties *)

Lemma canonicalIDKey_null : canonicalIDKey "null" = None.
Proof. vm_compute. reflexivity. Qed.

(** Once recorded, an id is recognised for the rest of the request. *)
Lemma record_is_recorded t id :
  is_Some (canonicalIDKey id) -> is_Some t -> isToolsListResponse (recordToolsListID t id) id = true.
Proof.
  intros [k Hk] [t' ->]. unfold recordToolsListID, isToolsListResponse. rewrite Hk. simpl.
  apply bool_decide_eq_true_2. set_solver.
Qed.

Lemma record_mono t id id' :
  isToolsListResponse t id' = true -> isToolsListResponse (recordToolsListID t id) id' = true.
Proof.
  unfold recordToolsListID, isToolsListResponse. destruct (canonicalIDKey id), t as [t|]; simpl; try done.
  destruct (canonicalIDKey id') as [k|]; [|done]. rewrite !bool_decide_eq_true. set_solver.
Qed.

Lemma rune_cut_le raw cut : (rune_cut raw cut <= cut)%nat.
Proof. induction cut as [|k IH]; simpl; [lia|]. case_match; lia. Qed.

(** What is logged of a tool call's arguments is bounded. *)
Lemma encodeArguments_bound raw :
  (String.length (snd (encodeArguments raw)) <= AuditArgumentsMaxLen)%nat.
Proof.
  unfold encodeArguments. case_match; [cbn; lia|].
  destruct (String.length raw <=? AuditArgumentsMaxLen)%nat eqn:Hl.
  - apply Nat.leb_le in Hl. case_match; simpl; [lia|done].
  - cbn [snd]. rewrite length_app_str. change (String.length "...") with 3%nat.
    pose proof (length_stake_le (rune_cut (bytes_of_string raw) (AuditArgumentsMaxLen - 3)) raw).
    pose proof (rune_cut_le (bytes_of_string raw) (AuditArgumentsMaxLen - 3)).
    change (AuditArgumentsMaxLen - 3)%nat with 61%nat in *. change AuditArgumentsMaxLen with 64%nat. lia.
Qed.
