(* ===== verification/McpPolicy.v ===== *)
(** * The MCP tool policy (src/internal/mcp/argmatch.go, policy.go) *)
From stdpp Require Import base gmap strings list option.
From Stdlib Require Import ZArith Lia Ascii.
From S2P Require Import Prelude GoUtf8 GoStrings GoNet Body GoHttp GoJson GoRegexp HostMatch.
Local Open Scope string_scope.
Local Open Scope list_scope.
Local Open Scope Z_scope.

(** ** Scalars *)

(** [normalizeJSONScalar]: every integer kind becomes a float64. *)
Definition normalizeJSONScalar (v : any) : any :=
  match v with AInt n => AFloat (float64_of_Z n) | _ => v end.

(** [a == b] on interface values: [None] is the run-time panic on two values
    of the same uncomparable type. *)
Definition iface_eq (a b : any) : option bool :=
  match a, b with
  | ANil, ANil => Some true
  | ABool x, ABool y => Some (Bool.eqb x y)
  | AInt x, AInt y => Some (x =? y)
  | AFloat x, AFloat y => Some (float64_eqb x y)
  | AStr x, AStr y => Some (str_eqb x y)
  | AList _, AList _ | AMap _, AMap _ => None
  | _, _ => Some false
  end.

(** [jsonScalarEquals]. *)
Definition jsonScalarEquals (a b : any) : option bool :=
  iface_eq (normalizeJSONScalar a) (normalizeJSONScalar b).

(** ** Clauses *)

(** [resolvePath]; [None] is [ok = false]. *)
Fixpoint resolvePath (cur : any) (segments : list string) : option any :=
  match segments with
  | [] => Some cur
  | seg :: rest =>
    match cur with
    | AMap m => match map_get m seg with Some next => resolvePath next rest | None => None end
    | AList l =>
      match Atoi seg with
      | None => None
      | Some idx =>
        if (idx <? 0) || (Z.of_nat (length l) <=? idx) then None
        else match l !! Z.to_nat idx with Some v => resolvePath v rest | None => None end
      end
    | _ => None
    end
  end.

(** [splitPath]. *)
Definition splitPath (p : string) : list string := if is_empty p then [] else Split p ".".

Record ClauseConfig := mkClauseConfig {
  cc_Path : string;
  cc_Equals : any;
  cc_In : option (list any);
  cc_Matches : string;
}.

Inductive mcp_error :=
  | ErrClausePath (i : nat)
  | ErrClauseKinds (i : nat)
  | ErrClauseRegex (i : nat)
  | ErrServerName (i : nat)
  | ErrDuplicateServer (i : nat) (name : string)
  | ErrNoRules (name : string)
  | ErrServerRules (name : string) (e : nat * rule_error)
  | ErrToolName (server : string) (j : nat)
  | ErrDuplicateTool (server name : string)
  | ErrToolClauses (server tool : string) (e : mcp_error).

Section policy.
Context `{UnicodeTables} `{Regexp}.

Record clause := mkClause {
  c_path : list string;
  c_equals : any;
  c_hasEq : bool;
  c_in : option (list any);
  c_matches : option regexp;
}.

Definition count_true (l : list bool) : nat := length (List.filter id l).
Definition is_nil (v : any) : bool := match v with ANil => true | _ => false end.

(** The loop body of [compileClauses]. *)
Definition compile_clause (i : nat) (cc : ClauseConfig) : result mcp_error clause :=
  if is_empty (cc_Path cc) then Err (ErrClausePath i)
  else if negb (count_true [negb (is_nil (cc_Equals cc)); bool_decide (is_Some (cc_In cc));
                            negb (is_empty (cc_Matches cc))] =? 1)%nat
  then Err (ErrClauseKinds i)
  else
    let path := splitPath (cc_Path cc) in
    if negb (is_nil (cc_Equals cc)) then
      Ok (mkClause path (normalizeJSONScalar (cc_Equals cc)) true None None)
    else match cc_In cc with
         | Some l => Ok (mkClause path ANil false (Some (map normalizeJSONScalar l)) None)
         | None =>
           match regexp_Compile (cc_Matches cc) with
           | None => Err (ErrClauseRegex i)
           | Some re => Ok (mkClause path ANil false None (Some re))
           end
         end.
Definition compileClauses (configs : list ClauseConfig) : result mcp_error (list clause) :=
  rmapi compile_clause 0 configs.

(** The scan of an [in] list, left to right. *)
Fixpoint any_equal (v : any) (l : list any) : option bool :=
  match l with
  | [] => Some false
  | want :: l' => match jsonScalarEquals v want with
                  | None => None
                  | Some true => Some true
                  | Some false => any_equal v l'
                  end
  end.

(** [clause.evaluate]; [None] is a panic. *)
Definition evaluate (c : clause) (params : any) : option bool :=
  match resolvePath params (c_path c) with
  | None => Some false
  | Some v =>
    if c_hasEq c then jsonScalarEquals v (c_equals c)
    else match c_in c with
         | Some l => any_equal v l
         | None =>
           match c_matches c with
           | Some re => Some match is_AStr v with Some s => MatchString re s | None => false end
           | None => Some false
           end
         end
  end.

(** ** Policies *)

Record ToolConfig := mkToolConfig { tc_Name : string; tc_When : list ClauseConfig }.
Record ServerConfig := mkServerConfig { sc_Name : string; sc_Rules : list RuleConfig; sc_Tools : list ToolConfig }.
Record ErrorConfig := mkErrorConfig { ec_Code : option Z; ec_Message : option string }.
Record McpConfig := mkMcpConfig { mc_Error : ErrorConfig; mc_Servers : list ServerConfig }.

Record McpTool := mkTool { tool_Name : string; tool_clauses : list clause }.
Record Server := mkServer {
  srv_Name : string;
  srv_rules : list Rule;
  srv_tools : gmap string McpTool;
  allowedNames : gset string;
}.
Record Policy := mkPolicy { errorCode : Z; errorMessage : string; servers : list Server }.

Definition DefaultErrorCode : Z := -32001.
Definition DefaultErrorMessage : string := "blocked by iron-proxy policy".
Definition ReasonToolNotAllowed : string := "tool_not_allowed".
Definition ReasonArgumentConstraint : string := "argument_constraint".
Definition ReasonOversizeBody : string := "oversize_body".
Definition ReasonMalformedJSONRPC : string := "malformed_jsonrpc".

(** The inner loop of [Compile] over the tools of one server. *)
Fixpoint compile_tools (server : string) (j : nat) (s : Server) (tools : list ToolConfig)
    : result mcp_error Server :=
  match tools with
  | [] => Ok s
  | tc :: rest =>
    if is_empty (tc_Name tc) then Err (ErrToolName server j)
    else if bool_decide (is_Some (srv_tools s !! tc_Name tc)) then Err (ErrDuplicateTool server (tc_Name tc))
    else match compileClauses (tc_When tc) with
         | Err e => Err (ErrToolClauses server (tc_Name tc) e)
         | Ok cs =>
           compile_tools server (S j)
             (mkServer (srv_Name s) (srv_rules s) (<[tc_Name tc := mkTool (tc_Name tc) cs]> (srv_tools s))
                       ({[ tc_Name tc ]} ∪ allowedNames s)) rest
         end
  end.

(** The outer loop of [Compile]. *)
Fixpoint compile_servers (i : nat) (seen : gset string) (scs : list ServerConfig)
    : result mcp_error (list Server) :=
  match scs with
  | [] => Ok []
  | sc :: rest =>
    if is_empty (sc_Name sc) then Err (ErrServerName i)
    else if bool_decide (sc_Name sc ∈ seen) then Err (ErrDuplicateServer i (sc_Name sc))
    else if (length (sc_Rules sc) =? 0)%nat then Err (ErrNoRules (sc_Name sc))
    else match CompileRules (sc_Rules sc) with
         | Err e => Err (ErrServerRules (sc_Name sc) e)
         | Ok rules =>
           let* s := compile_tools (sc_Name sc) 0 (mkServer (sc_Name sc) rules ∅ ∅) (sc_Tools sc) in
           let* ss := compile_servers (S i) ({[ sc_Name sc ]} ∪ seen) rest in
           Ok (s :: ss)
         end
  end.

(** [Compile]: [Ok None] when there are no servers. *)
Definition Compile (c : McpConfig) : result mcp_error (option Policy) :=
  if (length (mc_Servers c) =? 0)%nat then Ok None
  else
    let* ss := compile_servers 0 ∅ (mc_Servers c) in
    Ok (Some (mkPolicy (default DefaultErrorCode (ec_Code (mc_Error c)))
                       (default DefaultErrorMessage (ec_Message (mc_Error c))) ss)).

(** [Policy.MatchServer] on a possibly nil policy. *)
Definition MatchServer (p : option Policy) (req : Request) : option Server :=
  match p with
  | None => None
  | Some p =>
    let host := StripPort (ReqHost req) in
    List.find (fun s => existsb (fun r => Rule_Matches r host (Method req) (Path (ReqURL req))) (srv_rules s))
              (servers p)
  end.

(** [Server.AllowedToolNames]. *)
Definition AllowedToolNames (s : Server) : gset string := allowedNames s.

Fixpoint evaluate_clauses (cs : list clause) (args : any) : option (bool * string) :=
  match cs with
  | [] => Some (true, "")
  | c :: cs' => match evaluate c args with
                | None => None
                | Some false => Some (false, ReasonArgumentConstraint)
                | Some true => evaluate_clauses cs' args
                end
  end.
(** [Server.EvaluateTool]; [None] is a panic. *)
Definition EvaluateTool (s : Server) (toolName : string) (args : any) : option (bool * string) :=
  match srv_tools s !! toolName with
  | None => Some (false, ReasonToolNotAllowed)
  | Some t => evaluate_clauses (tool_clauses t) args
  end.

(** ** What a configuration permits

    The meaning of a [when] clause and of a server's tool list, read off the
    configuration. *)
Definition clause_denotes (cc : ClauseConfig) (args : any) : Prop :=
  exists v, resolvePath args (splitPath (cc_Path cc)) = Some v /\
    match cc_Equals cc, cc_In cc with
    | ANil, Some l => exists want, want ∈ l /\ jsonScalarEquals v want = Some true
    | ANil, None => exists s re, v = AStr s /\ regexp_Compile (cc_Matches cc) = Some re /\ MatchString re s = true
    | want, _ => jsonScalarEquals v want = Some true
    end.

Definition tool_permitted (sc : ServerConfig) (name : string) (args : any) : Prop :=
  exists tc, tc ∈ sc_Tools sc /\ tc_Name tc = name /\ forall cc, cc ∈ tc_When tc -> clause_denotes cc args.

Lemma normalizeJSONScalar_idem v : normalizeJSONScalar (normalizeJSONScalar v) = normalizeJSONScalar v.
Proof. by destruct v. Qed.

Lemma jsonScalarEquals_normalize v w : jsonScalarEquals v (normalizeJSONScalar w) = jsonScalarEquals v w.
Proof. unfold jsonScalarEquals. by rewrite normalizeJSONScalar_idem. Qed.

Lemma any_equal_true v l : any_equal v l = Some true -> exists want, want ∈ l /\ jsonScalarEquals v want = Some true.
Proof.
  induction l as [|w l IH]; simpl; [done|].
  destruct (jsonScalarEquals v w) as [[]|] eqn:E; [|intros [x ?]%IH|done]; [exists w|exists x]; set_solver.
Qed.

Lemma compile_clause_sound i cc c args :
  compile_clause i cc = Ok c -> evaluate c args = Some true -> clause_denotes cc args.
Proof.
  unfold compile_clause. case_match; [done|]. case_match eqn:Hk; [done|].
  unfold evaluate, clause_denotes.
  destruct (is_nil (cc_Equals cc)) eqn:Hn; simpl.
  - destruct (cc_Equals cc); try done. destruct (cc_In cc) as [l|] eqn:Hin.
    + intros [= <-]. simpl. destruct (resolvePath args _) as [v|] eqn:Hr; [|done].
      intros (w & Hw & Heq)%any_equal_true. apply list_elem_of_fmap in Hw as (w' & -> & Hw').
      rewrite jsonScalarEquals_normalize in Heq. eauto.
    + destruct (regexp_Compile (cc_Matches cc)) as [re|] eqn:Hre; [|done]. intros [= <-]. simpl.
      destruct (resolvePath args _) as [v|] eqn:Hr; [|done]. intros Hm. exists v. split; [done|].
      destruct v; simpl in Hm; try done. injection Hm as Hm. eauto.
  - intros [= <-]. simpl. destruct (resolvePath args _) as [v|] eqn:Hr; [|done].
    rewrite jsonScalarEquals_normalize. intros Hm. exists v. split; [done|].
    by destruct (cc_Equals cc).
Qed.

Lemma evaluate_clauses_true cs args :
  evaluate_clauses cs args = Some (true, "") <-> Forall (fun c => evaluate c args = Some true) cs.
Proof.
  induction cs as [|c cs IH]; simpl; [by split; constructor|]. rewrite list.Forall_cons.
  destruct (evaluate c args) as [[]|]; [rewrite IH; naive_solver|naive_solver..].
Qed.

Lemma evaluate_clauses_reason cs args b reason :
  evaluate_clauses cs args = Some (b, reason) ->
  b = bool_decide (reason = "") /\ reason = (if b then "" else ReasonArgumentConstraint).
Proof.
  induction cs as [|c cs IH]; simpl; [by intros [= <- <-]|].
  destruct (evaluate c args) as [[]|]; [done|by intros [= <- <-]|done].
Qed.

Lemma any_equal_complete v l :
  (exists want, want ∈ l /\ jsonScalarEquals v want = Some true) -> any_equal v l <> None ->
  any_equal v l = Some true.
Proof.
  induction l as [|w l IH]; simpl; [set_solver|].
  intros (want & [->|Hin]%elem_of_cons & He) Hn; [by rewrite He|].
  destruct (jsonScalarEquals v w) as [[]|]; [done| |done]. eauto.
Qed.

Lemma compile_clause_complete i cc c args :
  compile_clause i cc = Ok c -> clause_denotes cc args -> evaluate c args <> None ->
  evaluate c args = Some true.
Proof.
  unfold compile_clause. case_match; [done|]. case_match eqn:Hk; [done|].
  unfold evaluate, clause_denotes.
  destruct (is_nil (cc_Equals cc)) eqn:Hn; simpl.
  - destruct (cc_Equals cc); try done. destruct (cc_In cc) as [l|] eqn:Hin.
    + intros [= <-]. simpl. intros (v & -> & w & Hw & Heq) Hne. apply any_equal_complete; [|done].
      exists (normalizeJSONScalar w). rewrite jsonScalarEquals_normalize. split; [|done].
      by apply list_elem_of_fmap_2.
    + destruct (regexp_Compile (cc_Matches cc)) as [re|] eqn:Hre; [|done]. intros [= <-]. simpl.
      intros (v & -> & s & re' & -> & [= <-] & Hm) _. simpl. by rewrite Hm.
  - intros [= <-]. simpl. intros (v & -> & Hv) _. rewrite jsonScalarEquals_normalize.
    by destruct (cc_Equals cc).
Qed.

Lemma compileClauses_spec configs cs args :
  compileClauses configs = Ok cs ->
  (evaluate_clauses cs args = Some (true, "") -> forall cc, cc ∈ configs -> clause_denotes cc args) /\
  ((forall cc, cc ∈ configs -> clause_denotes cc args) -> evaluate_clauses cs args <> None ->
   evaluate_clauses cs args = Some (true, "")).
Proof.
  unfold compileClauses. generalize 0%nat. revert cs.
  induction configs as [|cc configs IH]; intros cs n; simpl.
  - intros [= <-]. split; [set_solver|done].
  - intros [c [Hc Hrest]]%rbind_Ok_inv. apply rbind_Ok_inv in Hrest as [cs' [Hcs [= <-]]].
    destruct (IH _ _ Hcs) as [IH1 IH2]. split; simpl.
    + destruct (evaluate c args) as [[]|] eqn:He; try done. intros Hev cc' [->|Hin]%elem_of_cons; [|eauto].
      by eapply compile_clause_sound.
    + intros Hd Hne. destruct (evaluate c args) as [b|] eqn:He; [|done].
      assert (Hb : b = true).
      { pose proof (compile_clause_complete _ _ _ args Hc (Hd _ (list_elem_of_here _ _))) as Hcc.
        rewrite He in Hcc. specialize (Hcc ltac:(done)). congruence. }
      subst b. apply IH2; [|done]. set_solver.
Qed.

(** ** Compilation refines the configuration *)

Lemma compile_tools_spec server j s tools s' :
  compile_tools server j s tools = Ok s' ->
  srv_Name s' = srv_Name s /\ srv_rules s' = srv_rules s /\
  allowedNames s' = allowedNames s ∪ list_to_set (map tc_Name tools) /\
  (forall tc, tc ∈ tools -> exists cs, compileClauses (tc_When tc) = Ok cs) /\
  forall name t, srv_tools s' !! name = Some t <->
    srv_tools s !! name = Some t \/
    exists tc cs, tc ∈ tools /\ tc_Name tc = name /\ compileClauses (tc_When tc) = Ok cs /\ t = mkTool name cs.
Proof.
  revert j s. induction tools as [|tc tools IH]; intros j s; simpl.
  { intros [= <-]. repeat split; [set_solver|set_solver|naive_solver|intros [?|(?&?&?&_)]; [done|set_solver]]. }
  case_match; [done|]. case_bool_decide as Hdup; [done|].
  destruct (compileClauses (tc_When tc)) as [cs|] eqn:Hcs; [|done].
  intros (Hn & Hr & Ha & Hok & Ht)%IH. simpl in *. split; [done|]. split; [done|]. split; [set_solver|].
  split; [intros tc' [->|?]%elem_of_cons; eauto|].
  apply eq_None_not_Some in Hdup. intros name t. rewrite Ht, lookup_insert.
  case_decide as Hk; [subst name; rewrite Hdup|]; split.
  - intros [[= <-]|(tc' & cs' & ? & ?)]; right; [exists tc, cs|exists tc', cs']; set_solver.
  - intros [?|(tc' & cs' & [->|Hin]%elem_of_cons & Hname & Hcs' & ->)]; [done|left; congruence|].
    right. exists tc', cs'. auto.
  - intros [?|(tc' & cs' & ? & ?)]; [by left|]. right. exists tc', cs'. set_solver.
  - intros [?|(tc' & cs' & [->|Hin]%elem_of_cons & Hname & Hrest)]; [by left|done|].
    right. exists tc', cs'. auto.
Qed.

(** A compiled server stands for its configuration. *)
Definition server_refines (sc : ServerConfig) (s : Server) : Prop :=
  srv_Name s = sc_Name sc /\
  CompileRules (sc_Rules sc) = Ok (srv_rules s) /\
  AllowedToolNames s = list_to_set (map tc_Name (sc_Tools sc)) /\
  forall name args,
    (EvaluateTool s name args = Some (true, "") -> tool_permitted sc name args) /\
    (tool_permitted sc name args -> EvaluateTool s name args <> None ->
     EvaluateTool s name args = Some (true, "")).

Lemma compile_tools_refines sc rules s :
  CompileRules (sc_Rules sc) = Ok rules ->
  compile_tools (sc_Name sc) 0 (mkServer (sc_Name sc) rules ∅ ∅) (sc_Tools sc) = Ok s ->
  server_refines sc s.
Proof.
  intros Hr (Hn & Hrules & Ha & Hok & Ht)%compile_tools_spec. simpl in *. unfold server_refines.
  rewrite Hn, Hrules, Hr. split; [done|]. split; [done|]. split; [unfold AllowedToolNames; set_solver|].
  intros name args. unfold EvaluateTool, tool_permitted. split.
  - destruct (srv_tools s !! name) as [t|] eqn:E; [|done].
    apply Ht in E as [?|(tc & cs & Hin & Hname & Hcs & ->)]; [set_solver|]. simpl. intros Hev.
    exists tc. split; [done|]. split; [done|]. by apply (compileClauses_spec _ _ args Hcs).
  - intros (tc & Hin & Hname & Hd). destruct (Hok _ Hin) as [cs Hcs].
    rewrite (proj2 (Ht name (mkTool name cs))) by eauto 10. simpl. by apply (compileClauses_spec _ _ args Hcs).
Qed.

Lemma compile_servers_refines i seen scs ss :
  compile_servers i seen scs = Ok ss -> Forall2 server_refines scs ss.
Proof.
  revert i seen ss. induction scs as [|sc scs IH]; intros i seen ss; simpl.
  { intros [= <-]. constructor. }
  case_match; [done|]. case_bool_decide; [done|]. case_match; [done|].
  destruct (CompileRules (sc_Rules sc)) as [rules|] eqn:Hr; [|done].
  intros (s & Hs & (ss' & Hss & [= <-])%rbind_Ok_inv)%rbind_Ok_inv.
  constructor; [by eapply compile_tools_refines|by eapply IH].
Qed.
End policy.

(** The compiled MCP policy is the configured one.  [Compile] keeps the
    servers in order; each compiled server allows a tool call exactly when
    the configuration lists the tool and every [when] clause of that entry
    holds of the arguments (unless a clause panics), its tool names are the
    listed ones, and its routing rules are the compiled configured rules. *)
Theorem Compile_refines `{UnicodeTables} `{Regexp} c p :
  Compile c = Ok (Some p) ->
  Forall2 server_refines (mc_Servers c) (servers p) /\
  errorCode p = default DefaultErrorCode (ec_Code (mc_Error c)) /\
  errorMessage p = default DefaultErrorMessage (ec_Message (mc_Error c)).
Proof.
  unfold Compile. case_match; [done|]. intros (ss & Hss & [= <-])%rbind_Ok_inv. simpl.
  split; [by eapply compile_servers_refines|done].
Qed.

Definition example_tools : list ToolConfig :=
  [mkToolConfig "search" []; mkToolConfig "read" [mkClauseConfig "repo.name" (AStr "docs") None ""]].
Definition example_mcp : McpConfig :=
  mkMcpConfig (mkErrorConfig None None)
    [mkServerConfig "wiki" [mkRuleConfig "mcp.test" "" [] [] []] example_tools].

Lemma Compile_refines_witness :
  exists p, @Compile ascii_tables literal_regexp example_mcp = Ok (Some p) /\
    Forall2 (@server_refines ascii_tables literal_regexp) (mc_Servers example_mcp) (servers p).
Proof.
  destruct (@Compile ascii_tables literal_regexp example_mcp) as [[p|]|e] eqn:E;
    [|vm_compute in E; discriminate..].
  exists p. split; [reflexivity|].
  exact (proj1 (@Compile_refines ascii_tables literal_regexp example_mcp p E)).
Defined.

(** A list or an object as the expected value makes the check panic.  The
    configuration is accepted, and a call whose argument at that path has the
    same shape is compared with [==] on an uncomparable type, so
    [EvaluateTool] neither allows nor denies it. *)
Theorem uncomparable_clause_panics `{UnicodeTables} `{Regexp} path l l' :
  path <> "" -> splitPath path = [path] ->
  exists c, compile_clause 0 (mkClauseConfig path (AList l) None "") = Ok c /\
    evaluate c (AMap [(path, AList l')]) = None.
Proof.
  intros Hp Hs. unfold compile_clause, is_empty, str_eqb. simpl. rewrite bool_decide_eq_false_2 by done.
  eexists. split; [reflexivity|]. unfold evaluate. simpl. rewrite Hs. simpl. unfold map_get, str_eqb. simpl.
  by rewrite bool_decide_eq_true_2.
Qed.

Lemma uncomparable_clause_panics_witness :
  exists c, @compile_clause literal_regexp 0 (mkClauseConfig "tags" (AList [AStr "a"]) None "") = Ok c /\
    @evaluate literal_regexp c (AMap [("tags", AList [])]) = None.
Proof.
  apply (@uncomparable_clause_panics ascii_tables literal_regexp "tags" [AStr "a"] []); [discriminate|reflexivity].
Defined.
