(* ===== verification/McpSse.v ===== *)
(** * Server-sent events (src/internal/mcp/sse.go)

    A [bufio.Reader] is the upstream it reads from: [ReadBytes] sees the bytes
    still to come and the error behind them, whatever the chunks were. *)
From stdpp Require Import base gmap strings list option.
From Stdlib Require Import ZArith Lia.
From S2P Require Import Prelude GoUtf8 Body.
Local Open Scope list_scope.
Local Open Scope Z_scope.

Definition LF : Z := 10.
Definition CR : Z := 13.
Definition COLON : Z := 58.

Record sseEvent := mkEvent {
  raw : list Z;
  dataLines : list (list Z);
  other : list (list Z);
}.

(** [stripCRLF]. *)
Definition is_crlf (c : Z) : bool := (c =? LF) || (c =? CR).
Fixpoint stripCRLF (line : list Z) : list Z :=
  match line with
  | [] => []
  | c :: l => match stripCRLF l with
              | [] => if is_crlf c then [] else [c]
              | l' => c :: l'
              end
  end.

(** [splitField]: the key and the value of a line. *)
Fixpoint split_at (sep : Z) (line : list Z) : list Z * option (list Z) :=
  match line with
  | [] => ([], None)
  | c :: l => if c =? sep then ([], Some l)
              else let '(k, v) := split_at sep l in (c :: k, v)
  end.
Definition splitField (line : list Z) : list Z * list Z :=
  match split_at COLON line with
  | (k, None) => (k, [])
  | (k, Some (32 :: v)) => (k, v)
  | (k, Some v) => (k, v)
  end.
Definition data_key : list Z := [100; 97; 116; 97].

(** [ReadBytes('\n')]: the line, what follows, and whether the line is
    complete. *)
Fixpoint ReadBytes (s : list Z) : list Z * list Z * bool :=
  match s with
  | [] => ([], [], false)
  | c :: s' => if c =? LF then ([c], s', true)
               else let '(l, r, b) := ReadBytes s' in (c :: l, r, b)
  end.

(** What [readSSEEvent] returns, with the reader left behind. *)
Inductive sse_read :=
  | SseEvent (ev : sseEvent) (r : Reader)
  | SseEOF
  | SseErr (e : string).

(** One complete line added to an event: a comment or a field. *)
Definition add_line (ev : sseEvent) (line : list Z) : sseEvent :=
  let trimmed := stripCRLF line in
  match trimmed with
  | 58 :: _ => mkEvent (raw ev) (dataLines ev) (other ev ++ [line])
  | _ =>
    let '(key, value) := splitField trimmed in
    if bool_decide (key = data_key) then mkEvent (raw ev) (dataLines ev ++ [value]) (other ev)
    else mkEvent (raw ev) (dataLines ev) (other ev ++ [line])
  end.

(** The loop of [readSSEEvent]; every turn but the last consumes a line, so
    the number of bytes left is fuel enough. *)
Fixpoint read_event (fuel : nat) (r : Reader) (ev : sseEvent) (gotAny : bool) : sse_read :=
  match fuel with
  | O => SseEOF
  | S f =>
    let '(line, rest, complete) := ReadBytes (rd_data r) in
    let gotAny := gotAny || negb (bool_decide (line = [])) in
    let ev := mkEvent (raw ev ++ line) (dataLines ev) (other ev) in
    if negb complete then
      match rd_err r with
      | None => if gotAny then SseEvent ev (mkReader [] None) else SseEOF
      | Some e => SseErr e
      end
    else if bool_decide (stripCRLF line = []) then SseEvent ev (mkReader rest (rd_err r))
    else read_event f (mkReader rest (rd_err r)) (add_line ev line) gotAny
  end.
Definition empty_event : sseEvent := mkEvent [] [] [].
Definition readSSEEvent (r : Reader) : sse_read :=
  read_event (S (length (rd_data r))) r empty_event false.

(** [dataPayload]. *)
Fixpoint join_lines (ls : list (list Z)) : list Z :=
  match ls with
  | [] => []
  | [l] => l
  | l :: ls' => l ++ LF :: join_lines ls'
  end.
Definition dataPayload (ev : sseEvent) : list Z := join_lines (dataLines ev).

(** [bytes.Split(payload, "\n")]. *)
Fixpoint split_lines (s : list Z) : list (list Z) :=
  match s with
  | [] => [[]]
  | c :: s' => if c =? LF then [] :: split_lines s'
               else match split_lines s' with
                    | l :: ls => (c :: l) :: ls
                    | [] => [[c]]
                    end
  end.

(** [rewriteData]. *)
Definition with_newline (l : list Z) : list Z :=
  match List.rev l with c :: _ => if c =? LF then l else l ++ [LF] | [] => [LF] end.
Definition rewriteData (ev : sseEvent) (payload : list Z) : list Z :=
  concat (map with_newline (other ev))
  ++ (match payload with
      | [] => []
      | _ => concat (map (fun ln => bytes_of_string "data: " ++ ln ++ [LF]) (split_lines payload))
      end)
  ++ [LF].

(** ** Reading *)

Lemma ReadBytes_app s l r b : ReadBytes s = (l, r, b) -> s = l ++ r.
Proof.
  revert l r b. induction s as [|c s IH]; simpl; intros l r b; [by intros [= <- <- <-]|].
  destruct (c =? LF); [by intros [= <- <- <-]|].
  destruct (ReadBytes s) as [[l' r'] b']. intros [= <- <- <-]. by rewrite (IH l' r' b').
Qed.

Lemma ReadBytes_incomplete s l r : ReadBytes s = (l, r, false) -> r = [] /\ l = s.
Proof.
  revert l r. induction s as [|c s IH]; simpl; intros l r; [by intros [= <- <-]|].
  destruct (c =? LF); [done|]. destruct (ReadBytes s) as [[l' r'] b'].
  intros [= <- <- ->]. by destruct (IH l' r' eq_refl) as [-> ->].
Qed.

Lemma ReadBytes_complete s l r : ReadBytes s = (l, r, true) -> (length r < length s)%nat /\ l <> [].
Proof.
  revert l r. induction s as [|c s IH]; simpl; intros l r; [done|].
  destruct (c =? LF); [intros [= <- <-]; split; [lia|done]|].
  destruct (ReadBytes s) as [[l' r'] b']. intros [= <- <- ->].
  destruct (IH l' r' eq_refl). split; [lia|done].
Qed.

Lemma add_line_raw ev line : raw (add_line ev line) = raw ev.
Proof.
  unfold add_line. destruct (splitField _) as [k v].
  repeat (case_match; try done).
Qed.

(** With enough fuel the loop ends in an event that consumed exactly the bytes
    its [raw] gained, in the end of the file, or in the upstream's error. *)
Lemma read_event_spec f r ev got :
  (length (rd_data r) < f)%nat ->
  match read_event f r ev got with
  | SseEvent ev' r' => exists consumed, raw ev' = raw ev ++ consumed /\ rd_data r = consumed ++ rd_data r' /\
                         rd_err r' = rd_err r /\ (got = false -> consumed <> [])
  | SseEOF => rd_err r = None /\ got = false /\ rd_data r = []
  | SseErr e => rd_err r = Some e
  end.
Proof.
  revert r ev got. induction f as [|f IH]; intros r ev got Hf; [lia|]. simpl.
  destruct (ReadBytes (rd_data r)) as [[line rest] complete] eqn:Hl.
  destruct complete; simpl.
  - pose proof (ReadBytes_app _ _ _ _ Hl) as Happ. apply ReadBytes_complete in Hl as [Hlt Hne].
    case_bool_decide; simpl.
    + exists line. auto.
    + rewrite (bool_decide_eq_false_2 _ Hne). rewrite orb_true_r.
      specialize (IH (mkReader rest (rd_err r)) (add_line (mkEvent (raw ev ++ line) (dataLines ev) (other ev)) line) true).
      simpl in IH. specialize (IH ltac:(lia)). destruct (read_event f _ _ _) as [ev' r'| |e]; simpl in *.
      * destruct IH as (c & Hraw & Hc & He & _). exists (line ++ c). rewrite Hraw, add_line_raw. simpl.
        rewrite <- app_assoc. rewrite Happ, Hc, <- app_assoc. split; [done|]. split; [done|]. split; [done|].
        intros _ [? _]%app_eq_nil. done.
      * naive_solver.
      * done.
  - apply ReadBytes_incomplete in Hl as [-> ->]. destruct (rd_err r) as [e|]; [done|].
    case_bool_decide as Hd; simpl.
    + rewrite orb_false_r. destruct got; [|done]. exists []. rewrite Hd. auto.
    + rewrite orb_true_r. exists (rd_data r). rewrite app_nil_r. auto.
Qed.

Lemma readSSEEvent_spec r :
  match readSSEEvent r with
  | SseEvent ev r' => rd_data r = raw ev ++ rd_data r' /\ rd_err r' = rd_err r /\ raw ev <> []
  | SseEOF => rd_err r = None /\ rd_data r = []
  | SseErr e => rd_err r = Some e
  end.
Proof.
  pose proof (read_event_spec (S (length (rd_data r))) r empty_event false ltac:(lia)) as Hs.
  unfold readSSEEvent. destruct (read_event _ _ _ _) as [ev r'| |e]; [|naive_solver..].
  destruct Hs as (c & Hraw & Hc & He & Hne). simpl in Hraw. subst c. auto.
Qed.

Lemma join_split_lines s : join_lines (split_lines s) = s.
Proof.
  induction s as [|c s IH]; simpl; [done|]. destruct (split_lines s) as [|l ls] eqn:E.
  - destruct s as [|c' s']; simpl in E; [done|]. repeat case_match; done.
  - destruct (c =? LF) eqn:Hc.
    + apply Z.eqb_eq in Hc as ->. simpl in *. by rewrite IH.
    + simpl in *. destruct ls; simpl in *; by rewrite <- IH.
Qed.

(** ** Re-emitted events *)

(** A complete line that does not end the event. *)
Definition is_line (line : list Z) : Prop :=
  exists b, line = b ++ [LF] /\ (LF ∉ b) /\ stripCRLF line <> [].
Definition line_is_data (line : list Z) : bool :=
  match stripCRLF line with
  | 58 :: _ => false
  | trimmed => bool_decide (fst (splitField trimmed) = data_key)
  end.

Lemma ReadBytes_line b s : LF ∉ b -> ReadBytes (b ++ LF :: s) = (b ++ [LF], s, true).
Proof.
  induction b as [|c b IH]; simpl; [done|]. intros [Hc Hb]%not_elem_of_cons.
  destruct (c =? LF) eqn:E; [apply Z.eqb_eq in E; congruence|]. by rewrite IH.
Qed.

Lemma stripCRLF_snoc b : stripCRLF (b ++ [LF]) = stripCRLF b.
Proof. induction b as [|c b IH]; simpl; [done|]. by rewrite IH. Qed.

Lemma stripCRLF_plain b : Forall (fun c => is_crlf c = false) b -> stripCRLF b = b.
Proof.
  induction 1 as [|c b Hc _ IH]; simpl; [done|]. rewrite IH, Hc. by destruct b.
Qed.

(** Lines added one after the other. *)
Definition add_lines (ev : sseEvent) (ls : list (list Z)) : sseEvent :=
  fold_left (fun ev l => add_line (mkEvent (raw ev ++ l) (dataLines ev) (other ev)) l) ls ev.

Lemma read_event_lines ls ev got rest err fuel :
  Forall is_line ls -> (length ls < fuel)%nat ->
  exists ev', read_event fuel (mkReader (concat ls ++ LF :: rest) err) ev got = SseEvent ev' (mkReader rest err) /\
    dataLines ev' = dataLines (add_lines ev ls) /\ other ev' = other (add_lines ev ls).
Proof.
  intros Hls. revert ev got fuel. induction Hls as [|l ls (b & -> & Hb & Hne) _ IH];
    intros ev got [|f] Hf; simpl in Hf; try lia; cbn [read_event rd_data rd_err concat app].
  - change (ReadBytes (LF :: rest)) with ([LF], rest, true). simpl. eauto.
  - rewrite <- !app_assoc. cbn [app]. rewrite ReadBytes_line by done. cbn [negb].
    rewrite bool_decide_eq_false_2 by done.
    destruct (IH (add_line (mkEvent (raw ev ++ b ++ [LF]) (dataLines ev) (other ev)) (b ++ [LF]))
                 (got || negb (bool_decide (b ++ [LF] = []))) f ltac:(lia)) as (ev' & He & Hd & Ho).
    by exists ev'.
Qed.

Lemma add_line_other ev line : line_is_data line = false ->
  add_line ev line = mkEvent (raw ev) (dataLines ev) (other ev ++ [line]).
Proof.
  unfold line_is_data, add_line.
  destruct (stripCRLF line) as [|c t]; [|destruct (decide (c = 58)) as [->|Hc]; [done|]];
    (destruct (splitField _) as [k v] eqn:E; simpl; intros Hd; repeat case_match; simplify_eq; try done;
     rewrite ?E in *; simplify_eq/=; by rewrite ?Hd in *).
Qed.

Lemma add_lines_other ev ls :
  Forall (fun l => line_is_data l = false) ls ->
  dataLines (add_lines ev ls) = dataLines ev /\ other (add_lines ev ls) = other ev ++ ls.
Proof.
  intros Hls. revert ev. induction Hls as [|l ls Hl _ IH]; intros ev; simpl; [by rewrite app_nil_r|].
  rewrite add_line_other by done. destruct (IH (mkEvent (raw ev ++ l) (dataLines ev) (other ev ++ [l]))) as [Hd Ho].
  unfold add_lines in *. simpl in *. by rewrite Hd, Ho, <- app_assoc.
Qed.

Definition data_line (ln : list Z) : list Z := bytes_of_string "data: " ++ ln ++ [LF].
Definition plain_bytes (b : list Z) : Prop := Forall (fun c => is_crlf c = false) b.

Lemma data_line_strip ln : plain_bytes ln -> stripCRLF (data_line ln) = bytes_of_string "data: " ++ ln.
Proof.
  intros Hp. unfold data_line. rewrite app_assoc, stripCRLF_snoc. apply stripCRLF_plain.
  apply Forall_app. split; [by repeat constructor|done].
Qed.

Lemma data_line_is_line ln : plain_bytes ln -> is_line (data_line ln).
Proof.
  intros Hp. exists (bytes_of_string "data: " ++ ln). split; [unfold data_line; by rewrite app_assoc|].
  split; [|by rewrite data_line_strip].
  intros Hin. assert (Hall : plain_bytes (bytes_of_string "data: " ++ ln)).
  { apply Forall_app. split; [by repeat constructor|done]. }
  unfold plain_bytes in Hall. rewrite list.Forall_forall in Hall. by specialize (Hall _ Hin).
Qed.

Lemma add_lines_data ev lns :
  Forall plain_bytes lns ->
  dataLines (add_lines ev (map data_line lns)) = dataLines ev ++ lns /\
  other (add_lines ev (map data_line lns)) = other ev.
Proof.
  intros Hl. revert ev. induction Hl as [|ln lns Hln _ IH]; intros ev; simpl; [by rewrite app_nil_r|].
  unfold add_line. rewrite data_line_strip by done.
  change (splitField (bytes_of_string "data: " ++ ln)) with (data_key, ln).
  cbn [bytes_of_string app]. simpl.
  specialize (IH (mkEvent (raw ev ++ data_line ln) (dataLines ev ++ [ln]) (other ev))) as [Hd Ho].
  unfold add_lines in *. simpl in *. by rewrite Hd, Ho, <- app_assoc.
Qed.

(** The kept lines of an event that was read are complete non-data lines. *)
Definition other_ok (ev : sseEvent) : Prop :=
  Forall (fun l => is_line l /\ line_is_data l = false) (other ev).

Lemma ReadBytes_line_inv s l r : ReadBytes s = (l, r, true) -> exists b, l = b ++ [LF] /\ (LF ∉ b).
Proof.
  revert l r. induction s as [|c s IH]; simpl; intros l r; [done|].
  destruct (c =? LF) eqn:Hc; [apply Z.eqb_eq in Hc as ->; intros [= <- <-]; exists []; set_solver|].
  destruct (ReadBytes s) as [[l' r'] b']. intros [= <- <- ->].
  destruct (IH l' r' eq_refl) as (b & -> & Hb). exists (c :: b). split; [done|].
  apply not_elem_of_cons. apply Z.eqb_neq in Hc. auto.
Qed.

Lemma add_line_other_ok ev line : other_ok ev -> is_line line -> other_ok (add_line ev line).
Proof.
  intros Hev Hl. destruct (line_is_data line) eqn:Hd.
  - unfold add_line, line_is_data in *. destruct (splitField (stripCRLF line)) as [k v] eqn:E.
    repeat case_match; simplify_eq; rewrite ?E in *; simplify_eq/=; try done; congruence.
  - rewrite add_line_other by done. unfold other_ok. simpl. apply Forall_app. split; [done|].
    by repeat constructor.
Qed.

Lemma read_event_other_ok f r ev got ev' r' :
  other_ok ev -> read_event f r ev got = SseEvent ev' r' -> other_ok ev'.
Proof.
  revert r ev got. induction f as [|f IH]; intros r ev got Hev; [done|]. simpl.
  destruct (ReadBytes (rd_data r)) as [[line rest] complete] eqn:Hl. destruct complete; simpl.
  - case_bool_decide as Hs; [by intros [= <- _]|]. intros Hr. eapply IH, Hr.
    apply add_line_other_ok; [done|]. apply ReadBytes_line_inv in Hl as (b & -> & Hb). by exists b.
  - case_match; [done|]. case_match; [by intros [= <- _]|done].
Qed.

Lemma with_newline_line l : is_line l -> with_newline l = l.
Proof. intros (b & -> & _). unfold with_newline. by rewrite rev_app_distr. Qed.

Lemma split_lines_no_lf s : Forall (fun l => LF ∉ l) (split_lines s).
Proof.
  induction s as [|c s IH]; simpl; [by repeat constructor; set_solver|].
  destruct (c =? LF) eqn:Hc; [constructor; [set_solver|done]|]. apply Z.eqb_neq in Hc.
  destruct (split_lines s) as [|l ls]; [by repeat constructor; set_solver|].
  inversion IH; subst. constructor; [set_solver|done].
Qed.

Lemma split_lines_elem s l c : l ∈ split_lines s -> c ∈ l -> c ∈ s.
Proof.
  revert l. induction s as [|c' s IH]; simpl; intros l Hl Hc.
  { apply list_elem_of_singleton in Hl as ->. by apply elem_of_nil in Hc. }
  destruct (c' =? LF).
  { apply elem_of_cons in Hl as [->|Hl]; [by apply elem_of_nil in Hc|]. right. by apply (IH l). }
  destruct (split_lines s) as [|l' ls].
  { apply list_elem_of_singleton in Hl as ->. apply list_elem_of_singleton in Hc as ->. left. }
  apply elem_of_cons in Hl as [->|Hl]; [|right; apply (IH l); [by right|done]].
  apply elem_of_cons in Hc as [->|Hc]; [left|]. right. apply (IH l'); [left|done].
Qed.

Lemma is_line_length ls : Forall is_line ls -> (length ls <= length (concat ls))%nat.
Proof.
  induction 1 as [|l ls (b & -> & _) _ IH]; simpl; [lia|]. rewrite !length_app. simpl. lia.
Qed.

Lemma split_lines_plain s : CR ∉ s -> Forall plain_bytes (split_lines s).
Proof.
  intros Hcr. apply list.Forall_forall. intros l Hl. apply list.Forall_forall. intros c Hc.
  pose proof (split_lines_no_lf s) as Hlf. rewrite list.Forall_forall in Hlf. specialize (Hlf l Hl). simpl in Hlf.
  pose proof (split_lines_elem _ _ _ Hl Hc). unfold is_crlf.
  apply orb_false_iff. split; apply Z.eqb_neq; intros ->; done.
Qed.

(** A rewritten event reads back as the event with the new payload.  For
    any event read from a stream and any non-empty payload without carriage
    returns, the client that parses the rewritten bytes gets one event whose data is
    exactly the payload, line breaks included, and whose other lines ([event:], [id:],
    [retry:] and comments) are those of the original, and then the rest of the stream. *)
Theorem rewriteData_roundtrip r ev r' payload rest err :
  readSSEEvent r = SseEvent ev r' -> payload <> [] -> (CR ∉ payload) ->
  exists ev2, readSSEEvent (mkReader (rewriteData ev payload ++ rest) err) = SseEvent ev2 (mkReader rest err) /\
    dataPayload ev2 = payload /\ other ev2 = other ev.
Proof.
  intros Hr Hne Hcr. assert (Hok : other_ok ev) by (eapply read_event_other_ok; [|exact Hr]; constructor).
  assert (Hline : Forall is_line (other ev)) by (eapply Forall_impl; [|exact Hok]; by intros l [? _]).
  assert (Hnd : Forall (fun l => line_is_data l = false) (other ev))
    by (eapply Forall_impl; [|exact Hok]; by intros l [_ ?]).
  assert (Hlines : Forall is_line (other ev ++ map data_line (split_lines payload))).
  { apply Forall_app. split; [done|]. apply Forall_map. eapply Forall_impl; [|by apply split_lines_plain].
    intros l. apply data_line_is_line. }
  assert (Heq : rewriteData ev payload = concat (other ev ++ map data_line (split_lines payload)) ++ [LF]).
  { unfold rewriteData. rewrite concat_app, <- app_assoc. f_equal.
    - f_equal. clear -Hline. induction Hline; simpl; [done|]. by rewrite with_newline_line, IHHline.
    - by destruct payload. }
  rewrite Heq, <- app_assoc. unfold readSSEEvent.
  destruct (read_event_lines (other ev ++ map data_line (split_lines payload)) empty_event false rest err
              (S (length (rd_data (mkReader (concat (other ev ++ map data_line (split_lines payload)) ++ [LF] ++ rest) err)))))
    as (ev2 & He & Hd & Ho).
  - exact Hlines.
  - simpl. apply is_line_length in Hlines. rewrite (length_app (concat _)). lia.
  - exists ev2. split; [exact He|]. unfold add_lines in Hd, Ho. rewrite fold_left_app in Hd, Ho.
    fold (add_lines empty_event (other ev)) in Hd, Ho.
    fold (add_lines (add_lines empty_event (other ev)) (map data_line (split_lines payload))) in Hd, Ho.
    destruct (add_lines_data (add_lines empty_event (other ev)) (split_lines payload)) as [Hd1 Ho1];
      [by apply split_lines_plain|].
    destruct (add_lines_other empty_event (other ev) Hnd) as [Hd2 Ho2].
    rewrite Hd1, Hd2 in Hd. rewrite Ho1, Ho2 in Ho. unfold dataPayload. rewrite Hd, Ho. simpl.
    by rewrite join_split_lines.
Qed.

Definition example_stream : Reader :=
  mkReader (bytes_of_string "id: 7" ++ [LF] ++ bytes_of_string "data: old" ++ [LF; LF]) None.

Lemma rewriteData_roundtrip_witness :
  exists ev r ev2, readSSEEvent example_stream = SseEvent ev r /\
    readSSEEvent (mkReader (rewriteData ev (bytes_of_string "new") ++ []) None) = SseEvent ev2 (mkReader [] None) /\
    dataPayload ev2 = bytes_of_string "new" /\ other ev2 = other ev.
Proof.
  destruct (readSSEEvent example_stream) as [ev r| |e] eqn:E; [|vm_compute in E; discriminate..].
  destruct (rewriteData_roundtrip example_stream ev r (bytes_of_string "new") [] None E) as (ev2 & H1 & H2 & H3);
    [discriminate|vm_compute; set_solver|].
  exists ev, r, ev2. split; [reflexivity|]. split; [exact H1|]. split; [exact H2|exact H3].
Defined.
