(* ===== verification/McpIntercept.v ===== *)
(** * The MCP interceptor (src/internal/mcp/intercept.go)

    [EvaluateRequest] decides before a request is forwarded;
    [WrapResponseBody] filters tool lists on the way back, on whole JSON
    bodies and on event streams.  Bodies are the [BufferedBody]s the proxy
    passes, and the trace is threaded through. *)
From stdpp Require Import base gmap strings list option.
From Stdlib Require Import ZArith Lia Ascii.
From S2P Require Import Prelude GoUtf8 GoStrings GoNet Body GoHttp GoJson GoJsonParse GoMime GoRegexp HostMatch.
From S2P Require Import Transform AuditLog McpRpc McpTrace McpPolicy McpSse.
Local Open Scope string_scope.
Local Open Scope list_scope.
Local Open Scope Z_scope.

Definition mediaTypeJSON : string := "application/json".
Definition mediaTypeSSE : string := "text/event-stream".

Section intercept.
Context `{UnicodeTables} `{Regexp}.

Definition mediaTypeIs (ct want : string) : bool :=
  if is_empty ct then false
  else match ParseMediaType ct with Some mt => str_eqb mt want | None => false end.

(** [jsonRPCResponse]. *)
Definition jsonRPCResponse (body : string) : Response :=
  let hdr := header_Set (header_Set ∅ "Content-Type" mediaTypeJSON) "Content-Length"
               (Itoa (Z.of_nat (String.length body))) in
  mkResponse 200 hdr (BufferedBody.NewBufferedBodyFromBytes (bytes_of_string body))
    (Z.of_nat (String.length body)).

(** [Policy.policyErrorResponse]. *)
Definition policyErrorResponse (p : Policy) (ids : list string) (isBatch : bool) : Response :=
  jsonRPCResponse
    (if isBatch then
       batchErrorResponseBody (match ids with [] => [""] | _ => ids end) (errorCode p) (errorMessage p)
     else errorResponseBody (default "" (head ids)) (errorCode p) (errorMessage p)).

(** ** Requests *)

Inductive verdict :=
  | Forward
  | Refuse (resp : Response)
  | Failed (e : string)
  | Panicked.

Definition deny_entry (reason : string) : Message :=
  mkMessage "request" "" "" "deny" reason ANil "" 0.

(** One message of the loop of [EvaluateRequest]: whether it is denied
    ([None] is a panic of the policy), and the trace. *)
Definition judge_message (server : Server) (m : rpcMessage) (trace : option Trace)
    : option bool * option Trace :=
  let entry := mkMessage "request" (rpc_Method m) in
  if str_eqb (rpc_Method m) MethodToolsCall then
    match extractToolCallName (rpc_Params m) with
    | None => (Some true, Append trace (entry "" "deny" ReasonMalformedJSONRPC ANil "" 0%nat))
    | Some (name, args, rawArgs) =>
      let '(decoded, rawStr) := encodeArguments rawArgs in
      match EvaluateTool server name args with
      | None => (None, trace)
      | Some (true, _) => (Some false, Append trace (entry name "allow" "" decoded rawStr 0%nat))
      | Some (false, reason) => (Some true, Append trace (entry name "deny" reason decoded rawStr 0%nat))
      end
    end
  else
    let trace := if str_eqb (rpc_Method m) MethodToolsList then recordToolsListID trace (rpc_ID m) else trace in
    (Some false, Append trace (entry "" "allow" "" ANil "" 0%nat)).

Fixpoint judge_messages (server : Server) (msgs : list rpcMessage) (denyAny : bool) (trace : option Trace)
    : option bool * option Trace :=
  match msgs with
  | [] => (Some denyAny, trace)
  | m :: rest =>
    match judge_message server m trace with
    | (None, trace') => (None, trace')
    | (Some deny, trace') => judge_messages server rest (denyAny || deny) trace'
    end
  end.

(** [Policy.EvaluateRequest]: the verdict, the body as it is left, and the
    trace. *)
Definition EvaluateRequest (p : option Policy) (server : option Server) (req : Request)
    (trace : option Trace) : verdict * BufferedBody.t * option Trace :=
  match p, server with
  | Some p, Some server =>
    if negb (str_eqb (Method req) "POST") then (Forward, ReqBody req, trace)
    else match BufferedBody.ReadAll (ReqBody req) with
         | (BufferedBody.GotBytes body, bb) =>
           let bb := BufferedBody.Reset bb in
           if (0 <? ReqContentLength req) && (Z.of_nat (length body) <? ReqContentLength req) then
             (Refuse (policyErrorResponse p [] false), bb, Append trace (deny_entry ReasonOversizeBody))
           else match decodeJSONRPC (string_of_bytes body) with
                | (None, isBatch) =>
                  (Refuse (policyErrorResponse p [] isBatch), bb, Append trace (deny_entry ReasonMalformedJSONRPC))
                | (Some msgs, isBatch) =>
                  match judge_messages server msgs false trace with
                  | (None, trace') => (Panicked, bb, trace')
                  | (Some false, trace') => (Forward, bb, trace')
                  | (Some true, trace') =>
                    (Refuse (policyErrorResponse p (map rpc_ID msgs) isBatch), bb, trace')
                  end
                end
         | (BufferedBody.GotErr e, bb) => (Failed e, bb, trace)
         | (BufferedBody.GotEOF, bb) => (Failed "EOF", bb, trace)
         | (BufferedBody.Panics, bb) => (Panicked, bb, trace)
         end
  | _, _ => (Forward, ReqBody req, trace)
  end.

(** ** Responses *)

(** [filterMessageInPlace]. *)
Definition filterMessageInPlace (msg : rpcMessage) (allowed : gset string) : rpcMessage * nat :=
  if is_empty (rpc_Result msg) then (msg, 0%nat)
  else let '(newRes, removed) := filterToolsListResult (rpc_Result msg) allowed in
       if (removed =? 0)%nat then (msg, 0%nat)
       else (mkRpcMessage (rpc_JSONRPC msg) (rpc_ID msg) (rpc_Method msg) (rpc_Params msg) newRes (rpc_Error msg),
             removed).

(** [appendResponseAudit]. *)
Definition appendResponseAudit (trace : option Trace) (msg : rpcMessage) (filtered : nat) : option Trace :=
  Append trace
    (if (0 <? filtered)%nat then mkMessage "response" MethodToolsList "" "filtered" "" ANil "" filtered
     else mkMessage "response" (rpc_Method msg) "" "allow" "" ANil "" 0).

(** One response message: filtered when its id belongs to a tool list. *)
Definition filter_response (allowed : gset string) (trace : option Trace) (msg : rpcMessage)
    : rpcMessage * nat * option Trace :=
  let '(msg', removed) :=
    if isToolsListResponse trace (rpc_ID msg) then filterMessageInPlace msg allowed else (msg, 0%nat) in
  (msg', removed, appendResponseAudit trace msg' removed).

Fixpoint filter_batch (allowed : gset string) (trace : option Trace) (batch : list rpcMessage)
    : list rpcMessage * bool * option Trace :=
  match batch with
  | [] => ([], false, trace)
  | m :: rest =>
    let '(m', removed, trace1) := filter_response allowed trace m in
    let '(rest', changed, trace2) := filter_batch allowed trace1 rest in
    (m' :: rest', (0 <? removed)%nat || changed, trace2)
  end.

(** [filterJSONResponseBody]; [None] is its error. *)
Definition filterJSONResponseBody (raw : string) (allowed : gset string) (trace : option Trace)
    : option string * option Trace :=
  let trimmed := TrimSpace raw in
  if is_empty trimmed then (Some raw, trace)
  else if HasPrefix trimmed "[" then
    match Unmarshal_rpc_batch trimmed with
    | None => (None, trace)
    | Some batch =>
      let '(batch', changed, trace') := filter_batch allowed trace batch in
      (Some (if changed then json_array (map marshal_rpc batch') else raw), trace')
    end
  else match Unmarshal_rpc trimmed with
       | None => (None, trace)
       | Some single =>
         let '(single', removed, trace') := filter_response allowed trace single in
         (Some (if (removed =? 0)%nat then raw else marshal_rpc single'), trace')
       end.

(** [sseFilter.rewriteEvent]. *)
Definition rewriteEvent (allowed : gset string) (trace : option Trace) (ev : sseEvent)
    : list Z * option Trace :=
  let payload := dataPayload ev in
  let trimmed := TrimSpace (string_of_bytes payload) in
  if bool_decide (payload = []) then (McpSse.raw ev, trace)
  else if is_empty trimmed || negb (HasPrefix trimmed "{" || HasPrefix trimmed "[") then (McpSse.raw ev, trace)
  else match Unmarshal_rpc trimmed with
       | None => (McpSse.raw ev, trace)
       | Some msg =>
         let '(msg', removed, trace') := filter_response allowed trace msg in
         if (removed =? 0)%nat then (McpSse.raw ev, trace')
         else (rewriteData ev (bytes_of_string (marshal_rpc msg')), trace')
       end.

(** [sseFilter]. *)
Record sseFilter := mkSseFilter {
  f_br : Reader;
  f_pending : list Z;
  f_done : bool;
  f_trace : option Trace;
}.
Definition newSSEFilter (upstream : Reader) (trace : option Trace) : sseFilter :=
  mkSseFilter upstream [] false trace.

(** The loop of [sseFilter.Read]: [Ok] when there are pending bytes to hand
    out, [Err None] at the end of the file.  An event is never empty, so the
    second turn always leaves the loop. *)
Fixpoint fill_pending (turns : nat) (allowed : gset string) (f : sseFilter)
    : result (option string) () * sseFilter :=
  match turns with
  | O => (Err None, f)
  | S t =>
    match f_pending f with
    | _ :: _ => (Ok (), f)
    | [] =>
      if f_done f then (Err None, f)
      else match readSSEEvent (f_br f) with
           | SseEvent ev r =>
             let '(out, trace) := rewriteEvent allowed (f_trace f) ev in
             fill_pending t allowed (mkSseFilter r out false trace)
           | SseEOF => fill_pending t allowed (mkSseFilter (f_br f) [] true (f_trace f))
           | SseErr e => (Err (Some e), mkSseFilter (f_br f) [] true (f_trace f))
           end
    end
  end.

(** [sseFilter.Read] into a buffer of [n] bytes. *)
Definition sse_Read (allowed : gset string) (n : nat) (f : sseFilter)
    : result (option string) (list Z) * sseFilter :=
  match fill_pending 2 allowed f with
  | (Err e, f') => (Err e, f')
  | (Ok (), f') =>
    (Ok (take n (f_pending f')), mkSseFilter (f_br f') (drop n (f_pending f')) (f_done f') (f_trace f'))
  end.

(** What [WrapResponseBody] installs: a body, or a filter over the stream that
    was taken out of the body. *)
Inductive wrapped :=
  | Plain (b : BufferedBody.t)
  | Filtering (f : sseFilter)
  | WrapErr (e : string).

Definition WrapResponseBody (p : option Policy) (server : option Server) (contentType : string)
    (body : BufferedBody.t) (trace : option Trace) : wrapped * option Trace :=
  match p, server with
  | Some _, Some server =>
    let allowed := AllowedToolNames server in
    if mediaTypeIs contentType mediaTypeSSE then
      let '(inner, _) := BufferedBody.StreamingReader body in
      (Filtering (newSSEFilter inner trace), trace)
    else if negb (mediaTypeIs contentType mediaTypeJSON) then (Plain body, trace)
    else match BufferedBody.ReadAll body with
         | (BufferedBody.GotBytes raw, _) =>
           let '(filtered, trace') := filterJSONResponseBody (string_of_bytes raw) allowed trace in
           match filtered with
           | None => (Plain (BufferedBody.NewBufferedBodyFromBytes raw), trace')
           | Some out => (Plain (BufferedBody.NewBufferedBodyFromBytes (bytes_of_string out)), trace')
           end
         | (BufferedBody.GotErr e, _) => (WrapErr e, trace)
         | (_, _) => (WrapErr "EOF", trace)
         end
  | _, _ => (Plain body, trace)
  end.

(** ** The tool gate *)

Definition is_call (m : rpcMessage) : Prop := rpc_Method m = MethodToolsCall.
(** A message the configured server lets through. *)
Definition message_permitted (sc : ServerConfig) (m : rpcMessage) : Prop :=
  is_call m -> exists name args rawArgs,
    extractToolCallName (rpc_Params m) = Some (name, args, rawArgs) /\ tool_permitted sc name args.

Lemma judge_message_spec sc s m trace :
  server_refines sc s ->
  match judge_message s m trace with
  | (Some false, _) => message_permitted sc m
  | (Some true, _) => ~ message_permitted sc m
  | (None, _) => True
  end.
Proof.
  intros (_ & _ & _ & Hev). unfold judge_message, message_permitted, is_call, str_eqb.
  case_bool_decide as Hm; [|simpl; done].
  destruct (extractToolCallName (rpc_Params m)) as [[[name args] rawArgs]|]; [|naive_solver].
  destruct (encodeArguments rawArgs). destruct (Hev name args) as [H1 H2].
  destruct (EvaluateTool s name args) as [[[] reason]|] eqn:E; [| |done].
  - intros _. exists name, args, rawArgs. split; [done|]. apply H1.
    unfold EvaluateTool in E. destruct (srv_tools s !! name); [|done].
    by destruct (evaluate_clauses_reason _ _ _ _ E) as [_ ->].
  - intros Hp. destruct (Hp Hm) as (n' & a' & r' & [= <- <- <-] & Hperm).
    by specialize (H2 Hperm ltac:(done)).
Qed.

Lemma judge_messages_spec sc s msgs deny trace :
  server_refines sc s ->
  match judge_messages s msgs deny trace with
  | (Some b, _) => b = false <-> deny = false /\ Forall (message_permitted sc) msgs
  | (None, _) => True
  end.
Proof.
  intros Hs. revert deny trace. induction msgs as [|m msgs IH]; intros deny trace; simpl.
  { split; [by intros ->|by intros [-> _]]. }
  pose proof (judge_message_spec sc s m trace Hs) as Hm.
  destruct (judge_message s m trace) as [[d|] tr]; [|done]. specialize (IH (deny || d) tr).
  destruct (judge_messages s msgs (deny || d) tr) as [[b|] tr']; [|done].
  rewrite IH, list.Forall_cons, orb_false_iff. destruct d; naive_solver.
Qed.
End intercept.

(** Reading a body to the end and resetting it gives all its bytes and leaves
    it to be read again. *)
Lemma ReadAll_Reset b d :
  BufferedBody.pos b = 0%nat -> BufferedBody.view b = Some (d, None) ->
  exists b', BufferedBody.ReadAll b = (BufferedBody.GotBytes d, b') /\
    BufferedBody.view (BufferedBody.Reset b') = Some (d, None) /\
    BufferedBody.pos (BufferedBody.Reset b') = 0%nat.
Proof.
  intros Hp (b1 & Hb & Hd & Hp1 & Ho & Hv)%BufferedBody.buffer_view.
  unfold BufferedBody.ReadAll. rewrite Hb, Hd, Hp1, Hp. eexists. split; [done|].
  unfold BufferedBody.view in *. simpl. rewrite Ho in *. split; [|done]. congruence.
Qed.

(** C5: The MCP gate.  For a POST to a configured server whose body is [d],
    unless a clause panics: the request is forwarded exactly when the body is
    not cut short of its Content-Length, parses as a JSON-RPC message or
    batch, and every [tools/call] in it names a configured tool whose clauses
    hold of the arguments.  A forwarded body is left at its start with the
    same bytes, so the upstream receives what was judged. *)
Theorem EvaluateRequest_gate `{UnicodeTables} `{Regexp} sc s p req trace d v bb tr :
  server_refines sc s -> Method req = "POST" ->
  BufferedBody.pos (ReqBody req) = 0%nat -> BufferedBody.view (ReqBody req) = Some (d, None) ->
  EvaluateRequest (Some p) (Some s) req trace = (v, bb, tr) -> v <> Panicked ->
  (v = Forward <->
     ~ (0 < ReqContentLength req /\ Z.of_nat (length d) < ReqContentLength req) /\
     exists msgs isBatch, decodeJSONRPC (string_of_bytes d) = (Some msgs, isBatch) /\
       Forall (message_permitted sc) msgs) /\
  (v = Forward -> BufferedBody.view bb = Some (d, None) /\ BufferedBody.pos bb = 0%nat).
Proof.
  intros Hs Hm Hp Hv. unfold EvaluateRequest, str_eqb. rewrite Hm. simpl.
  destruct (ReadAll_Reset _ _ Hp Hv) as (b' & -> & Hv' & Hp').
  destruct ((0 <? ReqContentLength req) && (Z.of_nat (length d) <? ReqContentLength req)) eqn:Hlen.
  { intros [= <- <- <-] _. apply andb_true_iff in Hlen as [?%Z.ltb_lt ?%Z.ltb_lt]. naive_solver. }
  assert (Hn : ~ (0 < ReqContentLength req /\ Z.of_nat (length d) < ReqContentLength req)).
  { apply andb_false_iff in Hlen as [?%Z.ltb_ge|?%Z.ltb_ge]; lia. }
  destruct (decodeJSONRPC (string_of_bytes d)) as [[msgs|] isBatch] eqn:Hdec;
    [|intros [= <- <- <-] _; naive_solver].
  pose proof (judge_messages_spec sc s msgs false trace Hs) as Hj.
  destruct (judge_messages s msgs false trace) as [[[]|] tr']; intros [= <- <- <-] Hnp; [| |done].
  - split; [split; [done|]|done]. intros (_ & msgs' & b & [= <- <-] & Hf). naive_solver.
  - split; [|done]. split; [|done]. intros _. split; [done|]. exists msgs, isBatch. naive_solver.
Qed.

(** A request body over the wiki server of [example_mcp]. *)
Definition quoted (s : string) : string := String (ascii_of_byte 34) s +:+ String (ascii_of_byte 34) "".
Definition example_post (body : string) : Request :=
  mkRequest "POST" "mcp.test" (mkURL "https" None "mcp.test" "/rpc" "" "") ∅
    (BufferedBody.NewBufferedBody (Some (mkReader (bytes_of_string body) None)) 0)
    (Z.of_nat (String.length body)) true.
Definition call_body (method tool : string) : string :=
  "{" +:+ quoted "id" +:+ ": 1," +:+ quoted "method" +:+ ": " +:+ quoted method +:+ ", "
  +:+ quoted "params" +:+ ": {" +:+ quoted "name" +:+ ": " +:+ quoted tool +:+ "}}".

Section examples.
#[local] Existing Instance ascii_tables.
#[local] Existing Instance literal_regexp.

Definition wiki_config : ServerConfig :=
  mkServerConfig "wiki" [mkRuleConfig "mcp.test" "" [] [] []] example_tools.
Definition wiki_server : Server :=
  match compile_servers 0 ∅ [wiki_config] with
  | Ok (s :: _) => s
  | _ => mkServer "" [] ∅ ∅
  end.
Definition wiki_policy : Policy := mkPolicy DefaultErrorCode DefaultErrorMessage [wiki_server].

Lemma wiki_refines : server_refines wiki_config wiki_server.
Proof.
  unfold wiki_server. destruct (compile_servers 0 ∅ [wiki_config]) as [ss|] eqn:E;
    [|vm_compute in E; discriminate].
  apply compile_servers_refines in E. inversion E as [|? s ? ss' Hs Hss]; subst. exact Hs.
Qed.

Lemma EvaluateRequest_gate_witness :
  fst (fst (EvaluateRequest (Some wiki_policy) (Some wiki_server) (example_post (call_body "tools/call" "search")) None))
    = Forward /\
  exists msgs isBatch,
    decodeJSONRPC (string_of_bytes (bytes_of_string (call_body "tools/call" "search"))) = (Some msgs, isBatch) /\
    Forall (message_permitted wiki_config) msgs.
Proof.
  destruct (EvaluateRequest (Some wiki_policy) (Some wiki_server) (example_post (call_body "tools/call" "search")) None)
    as [[v bb] tr] eqn:E.
  assert (Hv : v = Forward) by (vm_compute in E; congruence).
  split; [exact Hv|].
  apply (EvaluateRequest_gate wiki_config wiki_server wiki_policy (example_post (call_body "tools/call" "search"))
           None (bytes_of_string (call_body "tools/call" "search")) v bb tr wiki_refines);
    [reflexivity|reflexivity|reflexivity|exact E|by rewrite Hv|exact Hv].
Defined.

(** A JSON member by its exact key, as a case-sensitive reader finds it. *)
Definition exact_member (text key : string) : option json :=
  match json_parse text with
  | Some (JObj _ m) => assoc_get m key
  | _ => None
  end.

(** A call of the tool [delete], which the wiki server does not list, with a
    second member [METHOD]. *)
Definition smuggled_body : string :=
  "{" +:+ quoted "id" +:+ ":1," +:+ quoted "method" +:+ ":" +:+ quoted "tools/call" +:+ ","
  +:+ quoted "params" +:+ ":{" +:+ quoted "name" +:+ ":" +:+ quoted "delete" +:+ "},"
  +:+ quoted "METHOD" +:+ ":" +:+ quoted "ping" +:+ "}".

(** A second spelling of a member hides a call from the gate.
    [encoding/json] matches field names up to case and keeps the last one, so
    a body whose member [method] is [tools/call] for a tool the server does not
    list is judged by its member [METHOD] and forwarded unchanged; a
    case-sensitive JSON-RPC server reads it as the forbidden call. *)
Theorem mcp_gate_member_case :
  exact_member smuggled_body "method" = Some (JStr (quoted "tools/call") "tools/call") /\
  (forall args, ~ tool_permitted wiki_config "delete" args) /\
  fst (fst (EvaluateRequest (Some wiki_policy) (Some wiki_server) (example_post smuggled_body) None)) = Forward /\
  exists resp, fst (fst (EvaluateRequest (Some wiki_policy) (Some wiki_server)
                           (example_post (call_body "tools/call" "delete")) None)) = Refuse resp.
Proof.
  split; [vm_compute; reflexivity|]. split; [|split; [vm_compute; reflexivity|eexists; vm_compute; reflexivity]].
  intros args (tc & Hin & Hn & _). simpl in Hin.
  repeat (apply elem_of_cons in Hin as [->|Hin]; [done|]). by apply elem_of_nil in Hin.
Qed.
End examples.

(** ** The event-stream filter as a function of the stream *)

Section stream.
Context `{UnicodeTables}.
Variable allowed : gset string.

(** The bytes the client should receive from a stream: every event in turn,
    rewritten or as it came.  Each event takes at least a byte, so the length
    of the stream is fuel enough. *)
Fixpoint stream_out (fuel : nat) (trace : option Trace) (r : Reader) : list Z :=
  match fuel with
  | O => []
  | S f => match readSSEEvent r with
           | SseEvent ev r' => let '(out, trace') := rewriteEvent allowed trace ev in out ++ stream_out f trace' r'
           | SseEOF | SseErr _ => []
           end
  end.
Definition filtered_stream (trace : option Trace) (r : Reader) : list Z :=
  stream_out (S (length (rd_data r))) trace r.

Lemma readSSEEvent_shrinks r ev r' :
  readSSEEvent r = SseEvent ev r' -> (length (rd_data r') < length (rd_data r))%nat.
Proof.
  intros E. pose proof (readSSEEvent_spec r) as Hs. rewrite E in Hs. destruct Hs as (-> & _ & Hne).
  rewrite length_app. destruct (McpSse.raw ev); [done|simpl; lia].
Qed.

Lemma stream_out_fuel f1 f2 trace r :
  (length (rd_data r) < f1)%nat -> (length (rd_data r) < f2)%nat ->
  stream_out f1 trace r = stream_out f2 trace r.
Proof.
  revert f2 trace r. induction f1 as [|f1 IH]; intros [|f2] trace r H1 H2; try lia. simpl.
  destruct (readSSEEvent r) as [ev r'| |] eqn:E; [|done..]. apply readSSEEvent_shrinks in E.
  destruct (rewriteEvent allowed trace ev). f_equal. apply IH; lia.
Qed.

Lemma filtered_stream_step trace r :
  filtered_stream trace r =
    match readSSEEvent r with
    | SseEvent ev r' => let '(out, trace') := rewriteEvent allowed trace ev in out ++ filtered_stream trace' r'
    | SseEOF | SseErr _ => []
    end.
Proof.
  unfold filtered_stream at 1. simpl. destruct (readSSEEvent r) as [ev r'| |] eqn:E; [|done..].
  apply readSSEEvent_shrinks in E. destruct (rewriteEvent allowed trace ev). f_equal.
  apply stream_out_fuel; lia.
Qed.

Lemma rewriteEvent_nonempty trace ev out trace' :
  McpSse.raw ev <> [] -> rewriteEvent allowed trace ev = (out, trace') -> out <> [].
Proof.
  intros Hne. unfold rewriteEvent. case_bool_decide; [naive_solver|]. case_match; [naive_solver|].
  destruct (Unmarshal_rpc _) as [msg|]; [|naive_solver].
  destruct (filter_response allowed trace msg) as [[msg' removed] tr]. case_match; [naive_solver|].
  intros [= <- _]. unfold rewriteData. intros [_ [_ ?]%app_eq_nil]%app_eq_nil. done.
Qed.

(** What a filter still has to deliver, and the error behind it. *)
Definition remaining (f : sseFilter) : list Z :=
  f_pending f ++ if f_done f then [] else filtered_stream (f_trace f) (f_br f).

(** Reading the event-stream filter.  Whatever the sizes of the client's
    reads, each read returns the next bytes of the filtered stream, never
    none (for a non-empty buffer); the end is reported exactly when everything was
    delivered, with the upstream's error if it had one; and no read needs more than one
    event, so a long-lived stream is never held back. *)
Theorem sse_Read_streams n f :
  (0 < n)%nat ->
  match sse_Read allowed n f with
  | (Ok out, f') => out <> [] /\ remaining f = out ++ remaining f'
  | (Err e, f') => remaining f = [] /\ remaining f' = [] /\
                   (f_done f = false -> e = rd_err (f_br f))
  end.
Proof.
  intros Hn. unfold sse_Read, remaining. cbn [fill_pending].
  destruct (f_pending f) as [|b p] eqn:Hp; cycle 1.
  { rewrite Hp. split; [destruct n; [lia|done]|]. cbn [f_pending f_done f_trace f_br].
    by rewrite app_assoc, take_drop. }
  destruct (f_done f) eqn:Hd; [rewrite Hp, Hd; done|].
  rewrite filtered_stream_step. pose proof (readSSEEvent_spec (f_br f)) as Hs.
  destruct (readSSEEvent (f_br f)) as [ev r| |e].
  - destruct (rewriteEvent allowed (f_trace f) ev) as [out tr] eqn:Hr. cbn [f_pending f_done f_trace f_br].
    destruct Hs as (_ & _ & Hraw). apply rewriteEvent_nonempty in Hr; [|done].
    destruct out as [|o out]; [done|]. cbn [f_pending f_done f_trace f_br].
    split; [destruct n; [lia|done]|]. simpl. by rewrite app_assoc, take_drop.
  - cbn. destruct Hs as [He _]. split; [done|]. split; [done|]. by rewrite He.
  - cbn. rewrite Hs. done.
Qed.

(** An event no tool list is expected in passes through, and the trace still
    expects none. *)
Definition expects_none (trace : option Trace) : Prop := forall id, isToolsListResponse trace id = false.

Lemma Append_expects_none trace m : expects_none trace -> expects_none (Append trace m).
Proof. intros Hn id. specialize (Hn id). by destruct trace. Qed.

Lemma rewriteEvent_passes trace ev :
  expects_none trace ->
  exists trace', rewriteEvent allowed trace ev = (McpSse.raw ev, trace') /\ expects_none trace'.
Proof.
  intros Hn. unfold rewriteEvent, filter_response. case_bool_decide; [by eauto|]. case_match; [by eauto|].
  destruct (Unmarshal_rpc _) as [msg|]; [|by eauto]. rewrite Hn. simpl. eexists. split; [done|].
  by apply Append_expects_none.
Qed.

Lemma stream_out_passes f trace r :
  expects_none trace -> rd_err r = None -> (length (rd_data r) < f)%nat -> stream_out f trace r = rd_data r.
Proof.
  revert trace r. induction f as [|f IH]; intros trace r Hn He Hf; [lia|]. simpl.
  pose proof (readSSEEvent_spec r) as Hs. destruct (readSSEEvent r) as [ev r'| |e] eqn:E.
  - destruct (rewriteEvent_passes trace ev Hn) as (tr' & -> & Hn').
    pose proof (readSSEEvent_shrinks _ _ _ E). destruct Hs as (-> & He' & _).
    f_equal. apply IH; [done|congruence|lia].
  - by destruct Hs as [_ ->].
  - congruence.
Qed.
End stream.

(** Streams without a tool list are untouched.  When the request asked for
    no tool list (or there is no trace), the client receives the upstream's
    stream byte for byte, comments, retries, unknown fields and unterminated last
    event included. *)
Theorem sse_filter_transparent `{UnicodeTables} allowed trace r :
  (forall id, isToolsListResponse trace id = false) -> rd_err r = None ->
  remaining allowed (newSSEFilter r trace) = rd_data r.
Proof. intros Hn He. apply stream_out_passes; [done|done|apply Nat.lt_succ_diag_r]. Qed.

Lemma sse_filter_transparent_witness :
  @remaining ascii_tables {["search"]}
    (newSSEFilter (mkReader (bytes_of_string ": hi") None) (Some (mkTrace "wiki" [] [] ∅)))
  = bytes_of_string ": hi".
Proof.
  apply (@sse_filter_transparent ascii_tables {["search"]} (Some (mkTrace "wiki" [] [] ∅))
           (mkReader (bytes_of_string ": hi") None)); [|reflexivity].
  intros id. unfold isToolsListResponse. destruct (canonicalIDKey id); [|reflexivity].
  by apply bool_decide_eq_false_2.
Defined.

Lemma sse_Read_streams_witness :
  let f := newSSEFilter (mkReader (bytes_of_string ": hi") None) None in
  match @sse_Read ascii_tables ∅ 3 f with
  | (Ok out, f') => out <> [] /\ @remaining ascii_tables ∅ f = out ++ @remaining ascii_tables ∅ f'
  | (Err _, _) => False
  end.
Proof. exact (@sse_Read_streams ascii_tables ∅ 3 (newSSEFilter (mkReader (bytes_of_string ": hi") None) None) ltac:(lia)). Defined.

(** ** Batches in event streams *)

Lemma skip_ws_bracket s : skip_ws (91 :: s) = 91 :: s.
Proof. reflexivity. Qed.

Lemma json_parse_bracket text j :
  HasPrefix text "[" = true -> json_parse text = Some j -> exists raw l, j = JArr raw l.
Proof.
  intros [rest ->]%HasPrefix_spec. unfold json_parse. cbn [String.append].
  change (bytes_of_string (String "[" rest)) with (91 :: bytes_of_string rest).
  rewrite skip_ws_bracket. cbn [Nat.mul Nat.add length parse_value]. rewrite Nat.add_succ_r. cbn [parse_value].
  change (91 =? 34) with false. change (91 =? 91) with true. cbn [negb].
  intros Hj. repeat case_match; simplify_eq; eauto.
Qed.

(** A batch in an event stream is not filtered.  [rewriteEvent] lets a
    payload that starts with a bracket through to the decoder, but decodes it
    as a single message, which an array never is: the event is passed on
    as it came, so a server that answers with a batch in an event stream shows the
    client tools the allowlist hides from the same batch in a JSON body. *)
Theorem sse_batch_unfiltered `{UnicodeTables} allowed trace ev :
  HasPrefix (TrimSpace (string_of_bytes (dataPayload ev))) "[" = true ->
  rewriteEvent allowed trace ev = (McpSse.raw ev, trace).
Proof.
  intros Hp. unfold rewriteEvent. case_bool_decide; [done|]. case_match; [done|].
  unfold Unmarshal_rpc. destruct (json_parse _) as [j|] eqn:Hj; [|done].
  destruct (json_parse_bracket _ _ Hp Hj) as (raw & l & ->). done.
Qed.

Definition batch_payload : string :=
  "[{" +:+ quoted "id" +:+ ":1," +:+ quoted "result" +:+ ":{" +:+ quoted "tools" +:+ ":[{"
  +:+ quoted "name" +:+ ":" +:+ quoted "delete" +:+ "}]}}]".
Definition batch_event : sseEvent :=
  mkEvent (data_line (bytes_of_string batch_payload) ++ [LF]) [bytes_of_string batch_payload] [].
Definition listing_trace : option Trace := recordToolsListID (Some (mkTrace "wiki" [] [] ∅)) "1".

(** The event passes unchanged; the same text as a JSON body loses its tool. *)
Lemma sse_batch_unfiltered_witness :
  @rewriteEvent ascii_tables {["search"]} listing_trace batch_event = (McpSse.raw batch_event, listing_trace) /\
  fst (@filterJSONResponseBody ascii_tables batch_payload {["search"]} listing_trace) <> Some batch_payload.
Proof.
  split; [|vm_compute; discriminate].
  apply (@sse_batch_unfiltered ascii_tables {["search"]} listing_trace batch_event). vm_compute. reflexivity.
Defined.
