(* ===== verification/PgSql.v ===== *)
(** * The Postgres statement classifier (src/internal/postgres/sql.go, policy.go)

    The parser (libpg_query) is a parameter: it returns protobuf messages,
    which are modelled as typed trees of named fields, the way
    [protoreflect] walks them.  The classifier is written once, over any
    monad: in [option] it is the classifier without its cache, in a state
    monad over the cache it is the code. *)
From stdpp Require Import base gmap strings list option.
From Stdlib Require Import ZArith Lia Ascii.
From S2P Require Import Prelude GoUtf8 GoStrings GoNet Body GoHttp GoJson GoJsonParse.
Local Open Scope string_scope.
Local Open Scope list_scope.
Local Open Scope Z_scope.

(** ** Protobuf messages *)

Inductive pval (M : Type) :=
  | PMsg (m : M)
  | PList (l : list M)
  | PStr (s : string)
  | PEnum (name : string)
  | PScalar.
Arguments PMsg {M} m.
Arguments PList {M} l.
Arguments PStr {M} s.
Arguments PEnum {M} name.
Arguments PScalar {M}.

(** A message: its type and its populated fields, in the order a walk visits
    them. *)
Inductive Msg := mkMsg (m_type : string) (m_fields : list (string * pval Msg)).
Definition type_of (m : Msg) : string := let '(mkMsg t _) := m in t.
Definition fields_of (m : Msg) : list (string * pval Msg) := let '(mkMsg _ fs) := m in fs.

Definition field (m : Msg) (name : string) : option (pval Msg) := assoc_get (fields_of m) name.
Definition get_str (m : Msg) (name : string) : string :=
  match field m name with Some (PStr s) => s | _ => "" end.
Definition get_enum (m : Msg) (name : string) : string :=
  match field m name with Some (PEnum s) => s | _ => "" end.
Definition get_msg (m : Msg) (name : string) : option Msg :=
  match field m name with Some (PMsg x) => Some x | _ => None end.
Definition get_list (m : Msg) (name : string) : list Msg :=
  match field m name with Some (PList l) => l | _ => [] end.

(** A type assertion on [node.Node]: a [Node] holds one message of its oneof. *)
Definition node_inner (n : Msg) : option Msg :=
  match fields_of n with (_, PMsg m) :: _ => Some m | _ => None end.
Definition node_as (ty : string) (n : Msg) : option Msg :=
  match node_inner n with
  | Some m => if str_eqb (type_of m) ty then Some m else None
  | None => None
  end.

Definition field_children (v : pval Msg) : list Msg :=
  match v with PMsg m => [m] | PList l => l | _ => [] end.
Definition children (m : Msg) : list Msg := concat (map (fun f => field_children (snd f)) (fields_of m)).

(** [walkProto]: [visit] on every message in pre-order until it returns
    false. *)
Section walk.
Context {S : Type} (visit : S -> Msg -> S * bool).
Fixpoint walkProto (m : Msg) (s : S) {struct m} : S * bool :=
  match m with
  | mkMsg ty fs =>
    let '(s1, ok) := visit s m in
    if negb ok then (s1, false)
    else (fix fields (fs : list (string * pval Msg)) (s : S) : S * bool :=
            match fs with
            | [] => (s, true)
            | (_, v) :: fs' =>
              let '(s', ok) :=
                match v with
                | PMsg m' => walkProto m' s
                | PList l =>
                  (fix items (l : list Msg) (s : S) : S * bool :=
                     match l with
                     | [] => (s, true)
                     | x :: l' => let '(s', ok) := walkProto x s in
                                  if ok then items l' s' else (s', false)
                     end) l s
                | _ => (s, true)
                end in
              if ok then fields fs' s' else (s', false)
            end) fs s1
  end.
End walk.

(** ** Operations *)

Inductive OpKind :=
  | OpOther | OpSetRole | OpSetSessionAuthorization | OpResetRole | OpResetSessionAuthorization
  | OpEmpty | OpDoBlock | OpParseError | OpSetConfig | OpUninspectableRoutine
  | OpSettingsCatalogWrite | OpCallbackDefinition.
#[global] Instance OpKind_eq_dec : EqDecision OpKind.
Proof. solve_decision. Defined.

(** [Op] and [mutations] have the same fields. *)
Record Op := mkOp { Kind : OpKind; SetGUCs : list string; ResetAll : bool; Discard : bool }.
Record mutations := mkMut { kind : OpKind; setGUCs : list string; resetAll : bool; discard : bool }.

Definition mutationsFromOp (op : Op) : mutations := mkMut (Kind op) (SetGUCs op) (ResetAll op) (Discard op).

Definition first_kind (a b : OpKind) : OpKind := if bool_decide (a = OpOther) then b else a.

Definition mergeMutations (dst src : mutations) : mutations :=
  mkMut (first_kind (kind dst) (kind src)) (setGUCs dst ++ setGUCs src)
        (resetAll dst || resetAll src) (discard dst || discard src).

Section classify.
Context `{UnicodeTables}.

(** ** One message *)

Definition roleGUCs (name : string) : option OpKind :=
  if str_eqb name "role" then Some OpSetRole
  else if str_eqb name "session_authorization" then Some OpSetSessionAuthorization else None.

(** [roleKindFor]; [OpOther] is Go's 0. *)
Definition roleKindFor (name setKind : string) : OpKind :=
  match roleGUCs name with
  | None => OpOther
  | Some base =>
    if str_eqb setKind "VAR_RESET" then
      if bool_decide (base = OpSetRole) then OpResetRole else OpResetSessionAuthorization
    else base
  end.

Definition isPgSettings (rv : option Msg) : bool :=
  match rv with Some m => str_eqb (get_str m "relname") "pg_settings" | None => false end.

Definition referencesPgSettings (m : Msg) : bool :=
  fst (walkProto (fun found msg =>
         let found := found || (str_eqb (type_of msg) "RangeVar" && isPgSettings (Some msg)) in
         (found, negb found)) m false).

Definition definesCallbacks (objkind : string) : bool :=
  negb (str_eqb objkind "OBJECT_COLLATION" || str_eqb objkind "OBJECT_TSDICTIONARY"
        || str_eqb objkind "OBJECT_TSCONFIGURATION").

Definition callback_stmts : list string :=
  ["CreateRangeStmt"; "CreateCastStmt"; "CreateOpClassStmt"; "AlterOpFamilyStmt"; "AlterOperatorStmt";
   "AlterTypeStmt"; "CreateConversionStmt"; "CreatePLangStmt"; "CreateFdwStmt"; "AlterFdwStmt";
   "CreateAmStmt"; "CreateTransformStmt"; "CreateEventTrigStmt"].

(** [nodeString] and [stringConst]. *)
Definition nodeString (node : option Msg) : option string :=
  match node with Some n => (fun s => get_str s "sval") <$> node_as "String" n | None => None end.
Definition stringConst (node : Msg) : option string :=
  match node_as "A_Const" node with
  | Some c => (fun s => get_str s "sval") <$> get_msg c "sval"
  | None => None
  end.

(** [setConfigTarget]: [None] when the call is not of [set_config]; a dynamic
    target is the empty name. *)
Definition setConfigTarget (fc : Msg) : option string :=
  let names := get_list fc "funcname" in
  match names !! (length names - 1)%nat with
  | None => None
  | Some lst =>
    match node_as "String" lst with
    | None => None
    | Some str =>
      if negb (EqualFold (get_str str "sval") "set_config") then None
      else match get_list fc "args" with
           | [] => Some ""
           | a :: _ => Some match stringConst a with Some p => ToLower p | None => "" end
           end
    end
  end.

Definition with_kind (m : mutations) (k : OpKind) : mutations :=
  mkMut (first_kind (kind m) k) (setGUCs m) (resetAll m) (discard m).
Definition with_guc (m : mutations) (name : string) : mutations :=
  if is_empty name then m else mkMut (kind m) (setGUCs m ++ [name]) (resetAll m) (discard m).

(** The visitor of [scanMutations]. *)
Definition scan_visit (m : mutations) (msg : Msg) : mutations :=
  let ty := type_of msg in
  if str_eqb ty "VariableSetStmt" then
    if str_eqb (get_enum msg "kind") "VAR_RESET_ALL" then mkMut (kind m) (setGUCs m) true (discard m)
    else
      let name := ToLower (get_str msg "name") in
      with_kind (with_guc m name) (roleKindFor name (get_enum msg "kind"))
  else if str_eqb ty "DiscardStmt" then
    if str_eqb (get_enum msg "target") "DISCARD_ALL" then mkMut (kind m) (setGUCs m) (resetAll m) true else m
  else if str_eqb ty "UpdateStmt" || str_eqb ty "InsertStmt" then
    if isPgSettings (get_msg msg "relation") then with_kind m OpSettingsCatalogWrite else m
  else if str_eqb ty "ViewStmt" || str_eqb ty "RuleStmt" then
    if referencesPgSettings msg then with_kind m OpSettingsCatalogWrite else m
  else if str_eqb ty "DefineStmt" then
    if definesCallbacks (get_enum msg "kind") then with_kind m OpCallbackDefinition else m
  else if existsb (str_eqb ty) callback_stmts then with_kind m OpCallbackDefinition
  else if str_eqb ty "FuncCall" then
    match setConfigTarget msg with
    | Some name => with_kind (with_guc m name) OpSetConfig
    | None => m
    end
  else m.

(** [scanMutations]. *)
Definition no_mutations : mutations := mkMut OpOther [] false false.
Definition scanMutations (node : Msg) : mutations :=
  fst (walkProto (fun m msg => (scan_visit m msg, true)) node no_mutations).

(** [routineStringOption]. *)
Fixpoint routineStringOption (options : list Msg) (name : string) : option string :=
  match options with
  | [] => None
  | o :: rest =>
    match node_as "DefElem" o with
    | None => routineStringOption rest name
    | Some d =>
      if negb (EqualFold (get_str d "defname") name) then routineStringOption rest name
      else match nodeString (get_msg d "arg") with
           | Some v => Some v
           | None =>
             match get_msg d "arg" with
             | None => None
             | Some arg =>
               match node_as "List" arg with
               | Some l => match get_list l "items" with [x] => nodeString (Some x) | _ => None end
               | None => None
               end
             end
           end
    end
  end.

(** ** The parser *)

Record RawStmt := mkRawStmt { rs_stmt : option Msg; rs_location : Z; rs_len : Z }.

(** [pgparse.Parse] and [pgparse.ParsePlPgSqlToJSON]; [None] is an error. *)
Class PgParser := {
  pg_Parse : string -> option (list RawStmt);
  pg_ParsePlPgSqlToJSON : string -> option string;
}.
Context `{PgParser}.

(** [rawStatementSQL]. *)
Definition rawStatementSQL (sql : string) (s : RawStmt) : string :=
  let start := rs_location s in
  let n := Z.of_nat (String.length sql) in
  if (start <? 0) || (n <? start) then sql
  else if 0 <? rs_len s then
    if n <? start + rs_len s then sql
    else stake (Z.to_nat (rs_len s)) (sdrop (Z.to_nat start) sql)
  else sdrop (Z.to_nat start) sql.

(** ** Statements

    [rec] is the recursive call of [Classify] on a routine's body, and [M] the
    monad it runs in. *)
Section monadic.
Context {M : Type -> Type} `{MRet M} `{MBind M}.
Variable rec : string -> M Op.

Definition uninspectable (m : mutations) : mutations :=
  mkMut OpUninspectableRoutine (setGUCs m) (resetAll m) (discard m).
Definition is_blank_kind (k : OpKind) : bool := bool_decide (k = OpParseError) || bool_decide (k = OpEmpty).

(** The SQL text of a PL/pgSQL expression: [Err tt] is uninspectable, and
    [Ok None] a type name, which executes nothing. *)
Definition plpgsql_text (expr : list (string * any)) : result () (option string) :=
  match map_get expr "query" ≫= is_AStr with
  | None => Err tt
  | Some query =>
    if is_empty (TrimSpace query) then Err tt
    else
      let parseMode := default (float64_of_Z 0) (map_get expr "parseMode" ≫= is_AFloat) in
      if float64_eqb parseMode (float64_of_Z 0) then Ok (Some query)
      else if float64_eqb parseMode (float64_of_Z 2) then Ok (Some ("SELECT " +:+ query))
      else if float64_leb (float64_of_Z 3) parseMode then
        match Cut query ":=" with
        | Some (_, rhs) => if is_empty (TrimSpace rhs) then Err tt else Ok (Some ("SELECT " +:+ rhs))
        | None => Err tt
        end
      else Ok None
  end.

(** [classifyPLpgSQLExpression]; [None] is [ok = false]. *)
Definition classifyPLpgSQLExpression (expr : list (string * any)) : M (option Op) :=
  match plpgsql_text expr with
  | Err _ => mret None
  | Ok None => mret (Some (mkOp OpOther [] false false))
  | Ok (Some query) =>
    op ← rec query;
    mret (if is_blank_kind (Kind op) then None else Some op)
  end.

Definition dynamic_key (k : string) : bool :=
  str_eqb k "PLpgSQL_stmt_dynexecute" || str_eqb k "PLpgSQL_stmt_dynfors" || str_eqb k "dynquery".

(** [scanPLpgSQL]: whether the scan completed, and the mutations so far.  The
    members of an object are taken in the order of the text; Go ranges over
    them in any order, which can change the kind and the table that are
    reported of a routine with several statements, and not whether the routine
    is refused. *)
Fixpoint scanPLpgSQL (value : any) (m : mutations) {struct value} : M (bool * mutations) :=
  match value with
  | AList l =>
    (fix items (l : list any) (m : mutations) : M (bool * mutations) :=
       match l with
       | [] => mret (true, m)
       | x :: l' => r ← scanPLpgSQL x m;
                    let '(ok, m') := r in
                    if (ok : bool) then items l' m' else mret (false, m')
       end) l m
  | AMap es =>
    (fix entries (es : list (string * any)) (m : mutations) : M (bool * mutations) :=
       match es with
       | [] => mret (true, m)
       | (key, item) :: es' =>
         if dynamic_key key then mret (false, m)
         else if str_eqb key "PLpgSQL_expr" then
           match item with
           | AMap expr =>
             o ← classifyPLpgSQLExpression expr;
             match o with
             | None => mret (false, m)
             | Some op => entries es' (mergeMutations m (mutationsFromOp op))
             end
           | _ => mret (false, m)
           end
         else
           r ← scanPLpgSQL item m;
           let '(ok, m') := r in
           if (ok : bool) then entries es' m' else mret (false, m')
       end) es m
  | _ => mret (true, m)
  end.

(** [classifyPLpgSQL]. *)
Definition classifyPLpgSQL (statementSQL : string) : M mutations :=
  match pg_ParsePlPgSqlToJSON statementSQL with
  | None => mret (uninspectable no_mutations)
  | Some parsed =>
    match Unmarshal_any parsed with
    | None => mret (uninspectable no_mutations)
    | Some tree =>
      r ← scanPLpgSQL tree no_mutations;
      let '(ok, m) := r in
      mret (if (ok : bool) then m else uninspectable m)
    end
  end.

(** [classifyRoutineDefinition]. *)
Definition classifyRoutineDefinition (root stmt : Msg) (statementSQL : string) : M mutations :=
  let m := scanMutations root in
  if negb (bool_decide (kind m = OpOther)) then mret m
  else match routineStringOption (get_list stmt "options") "language" with
       | None => mret (uninspectable m)
       | Some language =>
         if EqualFold language "plpgsql" then
           m' ← classifyPLpgSQL statementSQL;
           mret (mergeMutations m m')
         else if negb (EqualFold language "sql") then mret (uninspectable m)
         else match get_msg stmt "sql_body" with
              | Some _ => mret m
              | None =>
                match routineStringOption (get_list stmt "options") "as" with
                | None => mret (uninspectable m)
                | Some body =>
                  bodyOp ← rec body;
                  mret (if is_blank_kind (Kind bodyOp) then uninspectable m
                        else mergeMutations m (mutationsFromOp bodyOp))
                end
              end
       end.

(** [classifyStmt]. *)
Definition classifyStmt (root : Msg) (statementSQL : string) : M mutations :=
  match node_inner root with
  | Some n =>
    if str_eqb (type_of n) "TransactionStmt" then mret no_mutations
    else if str_eqb (type_of n) "DoStmt" then mret (mkMut OpDoBlock [] false false)
    else if str_eqb (type_of n) "CreateFunctionStmt" then classifyRoutineDefinition root n statementSQL
    else mret (scanMutations root)
  | None => mret (scanMutations root)
  end.

(** The statement loop of [classifyUncached]. *)
Fixpoint classify_batch (sql : string) (op : Op) (stmts : list RawStmt) : M Op :=
  match stmts with
  | [] => mret op
  | s :: rest =>
    match rs_stmt s with
    | None => classify_batch sql op rest
    | Some root =>
      m ← classifyStmt root (rawStatementSQL sql s);
      classify_batch sql (mkOp (first_kind (Kind op) (kind m)) (SetGUCs op ++ setGUCs m)
                               (ResetAll op || resetAll m) (Discard op || discard m)) rest
    end
  end.

(** [classifyUncached]. *)
Definition classifyUncached (sql : string) : M Op :=
  if is_empty (TrimSpace sql) then mret (mkOp OpEmpty [] false false)
  else match pg_Parse sql with
       | None => mret (mkOp OpParseError [] false false)
       | Some [] => mret (mkOp OpEmpty [] false false)
       | Some stmts => classify_batch sql (mkOp OpOther [] false false) stmts
       end.
End monadic.

(** The classifier without its cache; the fuel bounds how deep routine bodies
    nest, and [None] is running out of it. *)
Fixpoint classify_ref (fuel : nat) (sql : string) : option Op :=
  match fuel with
  | O => None
  | S f => classifyUncached (classify_ref f) sql
  end.

(** ** The cache *)

(** An LRU cache as its client sees it: what [Get] returns was added, and
    nothing else appears. *)
Class LruCache (C : Type) := {
  cache_Get : C -> string -> option Op * C;
  cache_Add : C -> string -> Op -> C;
  cache_holds : C -> string -> Op -> Prop;
  cache_Get_holds c k op c' : cache_Get c k = (Some op, c') -> cache_holds c k op;
  cache_Get_keeps c k r c' k' op : cache_Get c k = (r, c') -> cache_holds c' k' op -> cache_holds c k' op;
  cache_Add_holds c k op k' op' :
    cache_holds (cache_Add c k op) k' op' -> (k' = k /\ op' = op) \/ cache_holds c k' op';
}.

Section cached.
Context {C : Type} `{LruCache C}.

Definition cached (A : Type) : Type := C -> option (A * C).
#[local] Instance cached_ret : MRet cached := fun _ a c => Some (a, c).
#[local] Instance cached_bind : MBind cached :=
  fun _ _ k m c => match m c with Some (a, c') => k a c' | None => None end.

(** [Classify]. *)
Fixpoint Classify (fuel : nat) (sql : string) : cached Op :=
  match fuel with
  | O => fun _ => None
  | S f => fun c =>
    match cache_Get c sql with
    | (Some op, c1) => Some (op, c1)
    | (None, c1) =>
      match classifyUncached (Classify f) sql c1 with
      | Some (op, c2) => Some (op, cache_Add c2 sql op)
      | None => None
      end
    end
  end.
End cached.

(** ** The policy *)

Inductive RejectReason :=
  | RejectClientRoleChange | RejectDoBlock | RejectPinnedSetting | RejectResetAll | RejectDiscardAll
  | RejectSetConfig | RejectFunctionCall | RejectUninspectableRoutine | RejectSettingsCatalogWrite
  | RejectCallbackDefinition.

(** What [ClassifyClientStatement] does with the classification; [None] is
    allowed. *)
Definition judge_op (pinned : gset string) (op : Op) : option RejectReason :=
  match Kind op with
  | OpSetRole | OpSetSessionAuthorization | OpResetRole | OpResetSessionAuthorization =>
    Some RejectClientRoleChange
  | OpSetConfig => Some RejectSetConfig
  | OpDoBlock => Some RejectDoBlock
  | OpUninspectableRoutine => Some RejectUninspectableRoutine
  | OpSettingsCatalogWrite => Some RejectSettingsCatalogWrite
  | OpCallbackDefinition => Some RejectCallbackDefinition
  | OpOther | OpEmpty | OpParseError =>
    if ResetAll op then Some RejectResetAll
    else if Discard op then Some RejectDiscardAll
    else if existsb (fun name => bool_decide (name ∈ pinned)) (SetGUCs op) then Some RejectPinnedSetting
    else None
  end.

(** [ClassifyClientStatement]. *)
Definition ClassifyClientStatement {C} `{LruCache C} (fuel : nat) (sql : string) (pinned : gset string) (c : C)
    : option (option RejectReason * C) :=
  match Classify fuel sql c with
  | Some (op, c') => Some (judge_op pinned op, c')
  | None => None
  end.
End classify.
