(* ===== verification/PgSafety.v ===== *)
(** * What the Postgres policy guarantees

    [permitted] says, message by message, what a client may send; the
    classifier of [PgSql] lets through exactly that, its cache does not change
    its answers, and on a parser whose routine bodies are shorter than the
    statement that holds them it always answers. *)
From stdpp Require Import base gmap strings list option.
From Stdlib Require Import ZArith Lia Ascii Btauto.
From S2P Require Import Prelude GoUtf8 GoStrings GoNet Body GoHttp GoJson GoJsonParse PgSql.
Local Open Scope string_scope.
Local Open Scope list_scope.

(** ** Walking a message visits its subterms *)

Section msg_ind.
Variable P : Msg -> Prop.
Hypothesis Hmsg : forall m, Forall P (children m) -> P m.

Fixpoint Msg_ind' (m : Msg) : P m :=
  Hmsg m
    match m return Forall P (children m) with
    | mkMsg ty fs =>
      (fix go (fs : list (string * pval Msg)) : Forall P (concat (map (fun f => field_children (snd f)) fs)) :=
         match fs with
         | [] => List.Forall_nil P
         | (n, v) :: fs' =>
           proj2 (Forall_app P (field_children v) (concat (map (fun f => field_children (snd f)) fs')))
             (conj match v return Forall P (field_children v) with
                   | PMsg m' => List.Forall_cons P m' [] (Msg_ind' m') (List.Forall_nil P)
                   | PList l => (fix items (l : list Msg) : Forall P l :=
                                   match l with
                                   | [] => List.Forall_nil P
                                   | x :: l' => List.Forall_cons P x l' (Msg_ind' x) (items l')
                                   end) l
                   | PStr _ | PEnum _ | PScalar => List.Forall_nil P
                   end (go fs'))
         end) fs
    end.
End msg_ind.

(** A message and everything below it, in the order of the walk. *)
Fixpoint subterms (m : Msg) : list Msg :=
  match m with
  | mkMsg ty fs =>
    m :: (fix fields (fs : list (string * pval Msg)) : list Msg :=
            match fs with
            | [] => []
            | (_, v) :: fs' =>
              match v with
              | PMsg m' => subterms m'
              | PList l => (fix items (l : list Msg) : list Msg :=
                              match l with [] => [] | x :: l' => subterms x ++ items l' end) l
              | _ => []
              end ++ fields fs'
            end) fs
  end.

Lemma subterms_children m : subterms m = m :: concat (map subterms (children m)).
Proof.
  destruct m as [ty fs]. cbn [subterms children fields_of]. f_equal.
  unfold children. cbn [fields_of]. induction fs as [|[n v] fs IH]; [done|].
  cbn [map concat snd]. rewrite map_app, concat_app, <- IH. f_equal.
  destruct v as [m|l|s|e|]; simpl; [by rewrite app_nil_r| |done..].
  induction l as [|x l IHl]; simpl; [done|]. by rewrite IHl.
Qed.

Lemma walkProto_fold {S} (step : S -> Msg -> S) m s :
  walkProto (fun s msg => (step s msg, true)) m s = (fold_left step (subterms m) s, true).
Proof.
  revert s. induction m as [[ty fs] IH] using Msg_ind'. intros s. rewrite subterms_children.
  cbn [walkProto negb fold_left]. unfold children in *. cbn [fields_of] in *.
  generalize (step s (mkMsg ty fs)). clear s. induction fs as [|[n v] fs IHf]; intros s; [done|].
  cbn [map concat snd] in *. apply Forall_app in IH as [Hv Hfs]. specialize (IHf Hfs).
  rewrite map_app, concat_app, fold_left_app.
  destruct v as [m|l|str|e|]; cbn [field_children] in *; cbn [map concat app fold_left].
  - apply Forall_inv in Hv. rewrite Hv, app_nil_r. apply IHf.
  - enough (Hl : forall s, (fix items (l : list Msg) (s : S) {struct l} : S * bool :=
             match l with
             | [] => (s, true)
             | x :: l' => let '(s', ok) := walkProto (fun s msg => (step s msg, true)) x s in
                          if ok then items l' s' else (s', false)
             end) l s = (fold_left step (concat (map subterms l)) s, true)).
    { rewrite Hl. apply IHf. }
    clear -Hv. induction l as [|x l IHl]; intros s; [done|]. inversion Hv; subst. cbn [map concat].
    rewrite H1, fold_left_app. by apply IHl.
  - apply IHf.
  - apply IHf.
  - apply IHf.
Qed.

Lemma walkProto_exists (p : Msg -> bool) m :
  walkProto (fun found msg => let found := found || p msg in (found, negb found)) m false
  = (existsb p (subterms m), negb (existsb p (subterms m))).
Proof.
  induction m as [[ty fs] IH] using Msg_ind'. rewrite subterms_children.
  cbn [walkProto existsb orb]. destruct (p (mkMsg ty fs)); [done|]. cbn [negb orb].
  unfold children in *. cbn [fields_of] in *.
  induction fs as [|[n v] fs IHf]; [done|].
  cbn [map concat snd] in *. apply Forall_app in IH as [Hv Hfs]. specialize (IHf Hfs).
  rewrite map_app, concat_app, existsb_app.
  destruct v as [m|l|str|e|]; cbn [field_children] in *; cbn [map concat app existsb orb].
  - apply Forall_inv in Hv. rewrite Hv, app_nil_r. destruct (existsb p (subterms m)); [done|]. apply IHf.
  - enough (Hl : (fix items (l : list Msg) (s : bool) {struct l} : bool * bool :=
             match l with
             | [] => (s, true)
             | x :: l' => let '(s', ok) := walkProto (fun found msg => (found || p msg, negb (found || p msg))) x s in
                          if ok then items l' s' else (s', false)
             end) l false = (existsb p (concat (map subterms l)), negb (existsb p (concat (map subterms l))))).
    { rewrite Hl. destruct (existsb p (concat (map subterms l))); [done|]. apply IHf. }
    clear -Hv. induction l as [|x l IHl]; [done|]. inversion Hv; subst. cbn [map concat].
    rewrite H1, existsb_app. destruct (existsb p (subterms x)); [done|]. by apply IHl.
  - apply IHf.
  - apply IHf.
  - apply IHf.
Qed.

Section spec.
Context `{UnicodeTables} `{PgParser}.
Variable pinned : gset string.

(** ** What a client may send *)

Definition names_pg_settings (m : Msg) : bool :=
  str_eqb (type_of m) "RangeVar" && str_eqb (get_str m "relname") "pg_settings".

(** A message that changes the role or a pinned setting, resets everything, or
    gives the client a way to do so unseen. *)
Definition harmful (m : Msg) : bool :=
  let ty := type_of m in
  let name := ToLower (get_str m "name") in
  (str_eqb ty "VariableSetStmt"
   && (str_eqb (get_enum m "kind") "VAR_RESET_ALL"
       || str_eqb name "role" || str_eqb name "session_authorization"
       || (negb (is_empty name) && bool_decide (name ∈ pinned))))
  || (str_eqb ty "DiscardStmt" && str_eqb (get_enum m "target") "DISCARD_ALL")
  || ((str_eqb ty "UpdateStmt" || str_eqb ty "InsertStmt") && isPgSettings (get_msg m "relation"))
  || ((str_eqb ty "ViewStmt" || str_eqb ty "RuleStmt") && existsb names_pg_settings (subterms m))
  || (str_eqb ty "DefineStmt" && definesCallbacks (get_enum m "kind"))
  || existsb (str_eqb ty) callback_stmts
  || (str_eqb ty "FuncCall" && bool_decide (is_Some (setConfigTarget m))).

Definition harmless (root : Msg) : Prop := forall m, m ∈ subterms root -> harmful m = false.

(** The statements of a text; none when it is blank or does not parse. *)
Definition statements (sql : string) : list RawStmt :=
  if is_empty (TrimSpace sql) then [] else default [] (pg_Parse sql).

Definition top_is (ty : string) (root : Msg) : Prop := exists n, node_inner root = Some n /\ type_of n = ty.

(** The SQL texts of a PL/pgSQL tree; [None] when it executes dynamic SQL or
    holds an expression that has no text. *)
Definition join_texts (a b : option (list string)) : option (list string) :=
  match a, b with Some x, Some y => Some (x ++ y) | _, _ => None end.
Fixpoint plpgsql_texts (value : any) : option (list string) :=
  match value with
  | AList l => (fix items (l : list any) : option (list string) :=
                  match l with
                  | [] => Some []
                  | x :: l' => join_texts (plpgsql_texts x) (items l')
                  end) l
  | AMap es =>
    (fix entries (es : list (string * any)) : option (list string) :=
       match es with
       | [] => Some []
       | (key, item) :: es' =>
         join_texts
           (if dynamic_key key then None
            else if str_eqb key "PLpgSQL_expr" then
              match item with
              | AMap expr => match plpgsql_text expr with
                             | Err _ => None
                             | Ok None => Some []
                             | Ok (Some q) => Some [q]
                             end
              | _ => None
              end
            else plpgsql_texts item) (entries es')
       end) es
  | _ => Some []
  end.

(** What a client may send: every statement is a transaction statement or
    harmless throughout, is not a DO block, and a routine it defines has a
    body that can be read and that is itself permitted. *)
Inductive permitted : string -> Prop :=
  | permitted_all sql :
      (forall s root, s ∈ statements sql -> rs_stmt s = Some root ->
         stmt_permitted root (rawStatementSQL sql s)) ->
      permitted sql
with stmt_permitted : Msg -> string -> Prop :=
  | permitted_transaction root text : top_is "TransactionStmt" root -> stmt_permitted root text
  | permitted_plain root text :
      ~ top_is "DoStmt" root -> ~ top_is "CreateFunctionStmt" root -> harmless root ->
      stmt_permitted root text
  | permitted_sql_body root text fn language :
      node_as "CreateFunctionStmt" root = Some fn -> harmless root ->
      routineStringOption (get_list fn "options") "language" = Some language ->
      EqualFold language "plpgsql" = false -> EqualFold language "sql" = true ->
      is_Some (get_msg fn "sql_body") -> stmt_permitted root text
  | permitted_sql_text root text fn language body :
      node_as "CreateFunctionStmt" root = Some fn -> harmless root ->
      routineStringOption (get_list fn "options") "language" = Some language ->
      EqualFold language "plpgsql" = false -> EqualFold language "sql" = true ->
      get_msg fn "sql_body" = None ->
      routineStringOption (get_list fn "options") "as" = Some body ->
      statements body <> [] -> permitted body -> stmt_permitted root text
  | permitted_plpgsql root text fn language parsed tree texts :
      node_as "CreateFunctionStmt" root = Some fn -> harmless root ->
      routineStringOption (get_list fn "options") "language" = Some language ->
      EqualFold language "plpgsql" = true ->
      pg_ParsePlPgSqlToJSON text = Some parsed -> Unmarshal_any parsed = Some tree ->
      plpgsql_texts tree = Some texts ->
      (forall q, q ∈ texts -> statements q <> []) -> (forall q, q ∈ texts -> permitted q) ->
      stmt_permitted root text.

(** ** Verdicts on mutations *)

Definition mut_ok (m : mutations) : bool :=
  bool_decide (kind m = OpOther) && negb (resetAll m) && negb (discard m)
  && negb (existsb (fun name => bool_decide (name ∈ pinned)) (setGUCs m)).

Lemma first_kind_other a b : bool_decide (first_kind a b = OpOther) = bool_decide (a = OpOther) && bool_decide (b = OpOther).
Proof. unfold first_kind. repeat case_bool_decide; naive_solver. Qed.

Lemma mergeMutations_ok a b : mut_ok (mergeMutations a b) = mut_ok a && mut_ok b.
Proof.
  unfold mut_ok, mergeMutations. cbn [kind resetAll discard setGUCs].
  rewrite first_kind_other, existsb_app, !negb_orb. btauto.
Qed.

Lemma with_kind_ok m k : mut_ok (with_kind m k) = mut_ok m && bool_decide (k = OpOther).
Proof. unfold mut_ok, with_kind. cbn [kind resetAll discard setGUCs]. rewrite first_kind_other. btauto. Qed.

Lemma with_guc_ok m name :
  mut_ok (with_guc m name) = mut_ok m && negb (negb (is_empty name) && bool_decide (name ∈ pinned)).
Proof.
  unfold mut_ok, with_guc. destruct (is_empty name); cbn [kind resetAll discard setGUCs negb andb];
    [btauto|]. rewrite existsb_app, negb_orb. simpl. btauto.
Qed.

Lemma roleKindFor_other name k :
  bool_decide (roleKindFor name k = OpOther) = negb (str_eqb name "role" || str_eqb name "session_authorization").
Proof.
  unfold roleKindFor, roleGUCs. destruct (str_eqb name "role"), (str_eqb name "session_authorization");
    simpl; try done; destruct (str_eqb k "VAR_RESET"); reflexivity.
Qed.

Lemma uninspectable_ok m : mut_ok (uninspectable m) = false.
Proof. reflexivity. Qed.

Lemma referencesPgSettings_spec m : referencesPgSettings m = existsb names_pg_settings (subterms m).
Proof. unfold referencesPgSettings. exact (f_equal fst (walkProto_exists names_pg_settings m)). Qed.

(** Evaluates comparisons of literal type names. *)
Ltac eval_names :=
  repeat match goal with
  | |- context [str_eqb (String ?c ?a) (String ?d ?b)] =>
    let v := eval vm_compute in (str_eqb (String c a) (String d b)) in
    change (str_eqb (String c a) (String d b)) with v
  | |- context [existsb (str_eqb (String ?c ?a)) callback_stmts] =>
    let v := eval vm_compute in (existsb (str_eqb (String c a)) callback_stmts) in
    change (existsb (str_eqb (String c a)) callback_stmts) with v
  end; cbn [andb orb].
Ltac on_type ty name :=
  let E := fresh "E" in
  destruct (str_eqb ty name) eqn:E;
  [apply bool_decide_eq_true in E; rewrite E; eval_names | cbn [andb orb]].

Lemma scan_visit_ok m msg : mut_ok (scan_visit m msg) = mut_ok m && negb (harmful msg).
Proof.
  unfold scan_visit, harmful. rewrite referencesPgSettings_spec. generalize (type_of msg). intros ty.
  on_type ty "VariableSetStmt".
  { destruct (str_eqb (get_enum msg "kind") "VAR_RESET_ALL"); cbn [orb].
    - unfold mut_ok. cbn [kind setGUCs resetAll discard]. btauto.
    - rewrite with_kind_ok, with_guc_ok, roleKindFor_other. rewrite !orb_false_r. btauto. }
  on_type ty "DiscardStmt".
  { destruct (str_eqb (get_enum msg "target") "DISCARD_ALL"); cbn [orb negb];
      [unfold mut_ok; cbn [kind setGUCs resetAll discard]|]; btauto. }
  on_type ty "UpdateStmt".
  { destruct (isPgSettings _); rewrite ?with_kind_ok; simpl; btauto. }
  on_type ty "InsertStmt".
  { destruct (isPgSettings _); rewrite ?with_kind_ok; simpl; btauto. }
  on_type ty "ViewStmt".
  { destruct (existsb _ _); rewrite ?with_kind_ok; simpl; btauto. }
  on_type ty "RuleStmt".
  { destruct (existsb _ _); rewrite ?with_kind_ok; simpl; btauto. }
  on_type ty "DefineStmt".
  { destruct (definesCallbacks _); rewrite ?with_kind_ok; simpl; btauto. }
  destruct (existsb (str_eqb ty) callback_stmts) eqn:Ec; cbn [orb].
  { rewrite with_kind_ok. simpl. btauto. }
  destruct (str_eqb ty "FuncCall"); cbn [andb]; [|simpl; btauto].
  destruct (setConfigTarget msg) as [name|]; [rewrite with_kind_ok|]; simpl; btauto.
Qed.

Lemma scan_fold_ok l m : mut_ok (fold_left scan_visit l m) = mut_ok m && negb (existsb harmful l).
Proof.
  revert m. induction l as [|x l IH]; intros m; simpl; [btauto|]. rewrite IH, scan_visit_ok, negb_orb. btauto.
Qed.

Lemma scanMutations_ok root : mut_ok (scanMutations root) = true <-> harmless root.
Proof.
  unfold scanMutations. rewrite walkProto_fold. cbn [fst]. rewrite scan_fold_ok. cbn [mut_ok no_mutations].
  unfold harmless. change (mut_ok no_mutations) with true. rewrite andb_true_l, negb_true_iff.
  rewrite <- not_true_iff_false, existsb_elem. split.
  - intros Hn m Hm. destruct (harmful m) eqn:E; [|done]. exfalso. eauto.
  - intros Hall (m & Hm & E). specialize (Hall m Hm). congruence.
Qed.

(** No statement is ever classified as blank. *)
Definition nonblank (m : mutations) : Prop := is_blank_kind (kind m) = false.

Lemma first_kind_nonblank a b :
  is_blank_kind a = false -> is_blank_kind b = false -> is_blank_kind (first_kind a b) = false.
Proof. unfold first_kind. by case_bool_decide. Qed.

Lemma scan_visit_nonblank m msg : nonblank m -> nonblank (scan_visit m msg).
Proof.
  intros Hm. unfold scan_visit, nonblank in *.
  assert (Hg : forall name, is_blank_kind (kind (with_guc m name)) = false)
    by (intros name; unfold with_guc; by case_match).
  assert (Hr : forall name k, is_blank_kind (roleKindFor name k) = false).
  { intros name k. unfold roleKindFor, roleGUCs. repeat case_match; simplify_eq; done. }
  repeat case_match; cbn [with_kind kind]; auto; apply first_kind_nonblank; auto.
Qed.

Lemma scanMutations_nonblank root : nonblank (scanMutations root).
Proof.
  unfold scanMutations. rewrite walkProto_fold. cbn [fst].
  assert (Hg : forall l m, nonblank m -> nonblank (fold_left scan_visit l m)).
  { intros l. induction l as [|x l IH]; intros m Hm; [done|]. simpl. by apply IH, scan_visit_nonblank. }
  by apply Hg.
Qed.

(** ** PL/pgSQL trees *)

Definition texts_ok (t : option (list string)) : Prop :=
  exists texts, t = Some texts /\ forall q, q ∈ texts -> statements q <> [] /\ permitted q.

Lemma texts_ok_join a b : texts_ok (join_texts a b) <-> texts_ok a /\ texts_ok b.
Proof.
  unfold texts_ok, join_texts. split.
  - destruct a as [x|], b as [y|]; intros (t & [= <-] & Hq).
    split; eexists; (split; [done|]); intros q Hin; apply Hq, elem_of_app; auto.
  - intros [(x & -> & Hx) (y & -> & Hy)]. eexists. split; [done|]. intros q [?|?]%elem_of_app; auto.
Qed.

Lemma texts_ok_nil : texts_ok (Some []).
Proof. exists []. split; [done|]. by intros q ?%elem_of_nil. Qed.

(** What is assumed of a classification of a shorter text. *)
Definition classified (q : string) (op : Op) : Prop :=
  if decide (statements q = []) then is_blank_kind (Kind op) = true /\ judge_op pinned op = None
  else is_blank_kind (Kind op) = false /\ (mut_ok (mutationsFromOp op) = true <-> permitted q).

Section classifier.
Variable rec : string -> option Op.
Hypothesis rec_classified : forall q op, rec q = Some op -> classified q op.

Definition expr_texts (expr : list (string * any)) : option (list string) :=
  match plpgsql_text expr with
  | Err _ => None
  | Ok None => Some []
  | Ok (Some q) => Some [q]
  end.

Lemma expression_spec expr o :
  classifyPLpgSQLExpression rec expr = Some o ->
  match o with
  | None => ~ texts_ok (expr_texts expr)
  | Some op => nonblank (mutationsFromOp op) /\
               (mut_ok (mutationsFromOp op) = true <-> texts_ok (expr_texts expr))
  end.
Proof.
  unfold classifyPLpgSQLExpression, expr_texts. destruct (plpgsql_text expr) as [[q|]|]; simpl.
  - destruct (rec q) as [op|] eqn:E; [|done]. simpl. apply rec_classified in E. unfold classified in E.
    assert (Hone : texts_ok (Some [q]) <-> statements q <> [] /\ permitted q).
    { split; [intros (t & [= <-] & Hq); apply Hq; left|].
      intros Hq. eexists. split; [done|]. by intros q' ->%list_elem_of_singleton. }
    destruct (decide (statements q = [])) as [Hs|Hs].
    + destruct E as [E _]. rewrite E. intros [= <-]. rewrite Hone. naive_solver.
    + destruct E as [Hb Hok]. rewrite Hb. intros [= <-]. split; [exact Hb|]. rewrite Hone. naive_solver.
  - intros [= <-]. split; [done|]. split; [intros _; apply texts_ok_nil|done].
  - intros [= <-]. by intros (? & ? & _).
Qed.

Definition scan_spec (v : any) : Prop :=
  forall m b m', scanPLpgSQL rec v m = Some (b, m') -> nonblank m ->
    nonblank m' /\ (b = true /\ mut_ok m' = true <-> mut_ok m = true /\ texts_ok (plpgsql_texts v)).

Lemma merge_nonblank a b : nonblank a -> nonblank b -> nonblank (mergeMutations a b).
Proof. apply first_kind_nonblank. Qed.

Lemma scan_list l : Forall scan_spec l -> scan_spec (AList l).
Proof.
  intros Hl m b m'. revert m. cbn [scanPLpgSQL plpgsql_texts].
  induction Hl as [|x l Hx _ IH]; intros m.
  - intros [= <- <-] Hm. split; [done|]. pose proof texts_ok_nil. naive_solver.
  - intros Hs Hm. destruct (scanPLpgSQL rec x m) as [[b1 m1]|] eqn:E; [|done]. cbn [mbind option_bind] in Hs.
    destruct (Hx _ _ _ E Hm) as [Hm1 Hb1]. rewrite texts_ok_join.
    destruct b1; [|injection Hs as <- <-; naive_solver]. destruct (IH _ Hs Hm1). naive_solver.
Qed.

Lemma scan_map es : Forall (fun e => scan_spec (snd e)) es -> scan_spec (AMap es).
Proof.
  intros Hl m b m'. revert m. cbn [scanPLpgSQL plpgsql_texts].
  induction Hl as [|[key item] es Hx _ IH]; intros m.
  - intros [= <- <-] Hm. split; [done|]. pose proof texts_ok_nil. naive_solver.
  - intros Hs Hm. rewrite texts_ok_join. destruct (dynamic_key key).
    { injection Hs as <- <-. split; [done|]. split; [naive_solver|]. intros (_ & (? & ? & _) & _). done. }
    destruct (str_eqb key "PLpgSQL_expr").
    + destruct item as [| | | | | |expr];
        try (injection Hs as <- <-; split; [done|]; split; [naive_solver|]; intros (_ & (? & ? & _) & _); done).
      destruct (classifyPLpgSQLExpression rec expr) as [o|] eqn:E; [|done]. cbn [mbind option_bind] in Hs.
      apply expression_spec in E. fold (expr_texts expr). destruct o as [op|].
      * destruct E as [Hnb Hok]. destruct (IH _ Hs) as [Hm' Hb]; [by apply merge_nonblank|].
        split; [done|]. rewrite Hb, mergeMutations_ok, andb_true_iff, Hok. naive_solver.
      * injection Hs as <- <-. split; [done|]. naive_solver.
    + destruct (scanPLpgSQL rec item m) as [[b1 m1]|] eqn:E; [|done]. cbn [mbind option_bind] in Hs.
      destruct (Hx _ _ _ E Hm) as [Hm1 Hb1].
      destruct b1; [|injection Hs as <- <-; naive_solver]. destruct (IH _ Hs Hm1). naive_solver.
Qed.

Lemma scanPLpgSQL_spec v : scan_spec v.
Proof.
  induction v as [| | | | |l IH|es IH] using any_ind'; [..|by apply scan_list|by apply scan_map];
    intros m0 b0 m' [= <- <-] Hm; (split; [done|]); pose proof texts_ok_nil; naive_solver.
Qed.

(** ** Statements and batches *)

Lemma classifyPLpgSQL_spec text m :
  classifyPLpgSQL rec text = Some m ->
  nonblank m /\
  (mut_ok m = true <-> exists parsed tree, pg_ParsePlPgSqlToJSON text = Some parsed /\
                         Unmarshal_any parsed = Some tree /\ texts_ok (plpgsql_texts tree)).
Proof.
  unfold classifyPLpgSQL. destruct (pg_ParsePlPgSqlToJSON text) as [parsed|]; simpl.
  2: { intros [= <-]. split; [done|]. naive_solver. }
  destruct (Unmarshal_any parsed) as [tree|] eqn:Hu; simpl.
  2: { intros [= <-]. split; [done|]. naive_solver. }
  destruct (scanPLpgSQL rec tree no_mutations) as [[ok m0]|] eqn:E; [|done]. simpl. intros [= <-].
  destruct (scanPLpgSQL_spec tree _ _ _ E eq_refl) as [Hnb Hok].
  change (mut_ok no_mutations) with true in Hok. destruct ok; (split; [done|]).
  - naive_solver.
  - rewrite uninspectable_ok. naive_solver.
Qed.

Lemma node_as_top ty root fn : node_as ty root = Some fn <-> node_inner root = Some fn /\ type_of fn = ty.
Proof.
  unfold node_as. destruct (node_inner root) as [n|]; [|naive_solver].
  destruct (str_eqb (type_of n) ty) eqn:E; [apply str_eqb_eq in E|apply str_eqb_neq in E]; naive_solver.
Qed.

(** The routine clauses of [stmt_permitted]. *)
Definition routine_permitted (fn : Msg) (text : string) : Prop :=
  exists language, routineStringOption (get_list fn "options") "language" = Some language /\
    if EqualFold language "plpgsql" then
      exists parsed tree, pg_ParsePlPgSqlToJSON text = Some parsed /\ Unmarshal_any parsed = Some tree /\
        texts_ok (plpgsql_texts tree)
    else EqualFold language "sql" = true /\
         (get_msg fn "sql_body" = None -> exists body,
            routineStringOption (get_list fn "options") "as" = Some body /\ statements body <> [] /\ permitted body).

Lemma classifyRoutineDefinition_spec root fn text m :
  classifyRoutineDefinition rec root fn text = Some m ->
  nonblank m /\ (mut_ok m = true <-> harmless root /\ routine_permitted fn text).
Proof.
  unfold classifyRoutineDefinition, routine_permitted. rewrite <- scanMutations_ok.
  pose proof (scanMutations_nonblank root) as Hnb. generalize dependent (scanMutations root). intros m0 Hnb.
  case_bool_decide as Hk; simpl.
  2: { intros [= <-]. split; [done|]. unfold mut_ok. rewrite (bool_decide_eq_false_2 _ Hk). naive_solver. }
  destruct (routineStringOption _ "language") as [language|]; simpl.
  2: { intros [= <-]. split; [done|]. rewrite uninspectable_ok. naive_solver. }
  destruct (EqualFold language "plpgsql") eqn:Hpl.
  { destruct (classifyPLpgSQL rec text) as [m1|] eqn:E; [|done]. simpl. intros [= <-].
    apply classifyPLpgSQL_spec in E as [Hnb1 Hok1]. split; [by apply merge_nonblank|].
    rewrite mergeMutations_ok, andb_true_iff, Hok1. split.
    - intros [? ?]. split; [done|]. exists language. by rewrite Hpl.
    - intros [? (l & [= <-] & Hr)]. by rewrite Hpl in Hr. }
  destruct (EqualFold language "sql") eqn:Hsql; simpl.
  2: { intros [= <-]. split; [done|]. rewrite uninspectable_ok. split; [done|].
       intros [_ (l & [= <-] & Hr)]. rewrite Hpl in Hr. naive_solver. }
  destruct (get_msg fn "sql_body") as [sb|].
  { intros [= <-]. split; [done|]. split; [|naive_solver]. intros. split; [done|]. exists language. by rewrite Hpl. }
  destruct (routineStringOption _ "as") as [body|]; simpl.
  2: { intros [= <-]. split; [done|]. rewrite uninspectable_ok. split; [done|].
       intros [_ (l & [= <-] & Hr)]. rewrite Hpl in Hr. naive_solver. }
  destruct (rec body) as [op|] eqn:E; [|done]. simpl. apply rec_classified in E. unfold classified in E.
  assert (Hr : (exists l, Some language = Some l /\
      (if EqualFold l "plpgsql" then
         exists parsed tree, pg_ParsePlPgSqlToJSON text = Some parsed /\ Unmarshal_any parsed = Some tree /\
           texts_ok (plpgsql_texts tree)
       else EqualFold l "sql" = true /\
         (@None Msg = None -> exists b, Some body = Some b /\ statements b <> [] /\ permitted b)))
      <-> statements body <> [] /\ permitted body).
  { split; [intros (l & [= <-] & Hl); rewrite Hpl in Hl; naive_solver|].
    intros [? ?]. exists language. rewrite Hpl. naive_solver. }
  rewrite Hr. clear Hr. destruct (decide (statements body = [])) as [Hs|Hs].
  - destruct E as [E _]. rewrite E. intros [= <-]. split; [done|]. rewrite uninspectable_ok. naive_solver.
  - destruct E as [Hb Hok]. rewrite Hb. intros [= <-]. split; [by apply merge_nonblank|].
    rewrite mergeMutations_ok, andb_true_iff, Hok. naive_solver.
Qed.

Lemma stmt_permitted_routine root fn text :
  node_inner root = Some fn -> type_of fn = "CreateFunctionStmt" ->
  stmt_permitted root text <-> harmless root /\ routine_permitted fn text.
Proof.
  intros Hn Ht. assert (Hfn : forall fn', node_as "CreateFunctionStmt" root = Some fn' -> fn' = fn).
  { intros fn' [? _]%node_as_top. congruence. }
  split.
  - inversion 1 as [? ? (n & Hn' & Ht')|? ? _ Hnc _|? ? fn' lang Hf Hh Hl Hp Hs Hb|
                    ? ? fn' lang body Hf Hh Hl Hp Hs Hb Ha Hne Hperm|
                    ? ? fn' lang parsed tree texts Hf Hh Hl Hp Hpp Hu Htx Hne Hperm]; subst.
    + congruence.
    + exfalso. apply Hnc. by exists fn.
    + apply Hfn in Hf as ->. split; [done|]. exists lang. rewrite Hp. split; [done|]. split; [done|].
      destruct Hb as [? ->]. done.
    + apply Hfn in Hf as ->. split; [done|]. exists lang. rewrite Hp. eauto 10.
    + apply Hfn in Hf as ->. split; [done|]. exists lang. rewrite Hp. split; [done|].
      exists parsed, tree. unfold texts_ok. rewrite Htx. split; [done|]. split; [done|]. naive_solver.
  - assert (Hf : node_as "CreateFunctionStmt" root = Some fn) by (by apply node_as_top).
    intros [Hh (lang & Hl & Hr)]. destruct (EqualFold lang "plpgsql") eqn:Hp.
    + destruct Hr as (parsed & tree & Hpp & Hu & texts & Htx & Hq).
      eapply permitted_plpgsql; eauto; intros q Hin; by destruct (Hq q Hin).
    + destruct Hr as [Hs Hb]. destruct (get_msg fn "sql_body") eqn:Hsb.
      * eapply permitted_sql_body; eauto.
      * destruct (Hb eq_refl) as (body & Ha & Hne & Hperm). eapply permitted_sql_text; eauto.
Qed.

Lemma stmt_permitted_plain root text :
  ~ top_is "TransactionStmt" root -> ~ top_is "CreateFunctionStmt" root -> ~ top_is "DoStmt" root ->
  stmt_permitted root text <-> harmless root.
Proof.
  intros Ht Hc Hd. split; [|by intros; apply permitted_plain].
  inversion 1 as [|? ? ? ? ?|? ? fn ? Hf|? ? fn ? ? Hf|? ? fn ? ? ? ? Hf]; subst; try done;
    exfalso; apply Hc; exists fn; by apply node_as_top.
Qed.

Lemma stmt_permitted_do root text : top_is "DoStmt" root -> ~ stmt_permitted root text.
Proof.
  intros (n & Hn & Hd). inversion 1 as [? ? (n' & Hn' & Ht)|? ? Hnd|? ? fn ? Hf|? ? fn ? ? Hf|? ? fn ? ? ? ? Hf];
    subst; try (apply node_as_top in Hf as [? Ht]); try congruence.
  apply Hnd. by exists n.
Qed.

Lemma classifyStmt_spec root text m :
  classifyStmt rec root text = Some m ->
  nonblank m /\ (mut_ok m = true <-> stmt_permitted root text).
Proof.
  unfold classifyStmt. destruct (node_inner root) as [n|] eqn:Hn.
  2: { intros [= <-]. split; [apply scanMutations_nonblank|]. rewrite scanMutations_ok.
       symmetry. apply stmt_permitted_plain; intros (n & ? & _); congruence. }
  destruct (str_eqb (type_of n) "TransactionStmt") eqn:E1.
  { apply str_eqb_eq in E1. intros [= <-]. split; [done|].
    split; [|done]. intros _. apply permitted_transaction. by exists n. }
  destruct (str_eqb (type_of n) "DoStmt") eqn:E2.
  { apply str_eqb_eq in E2. intros [= <-]. split; [done|]. split; [done|].
    intros Hs. exfalso. eapply stmt_permitted_do, Hs. by exists n. }
  destruct (str_eqb (type_of n) "CreateFunctionStmt") eqn:E3.
  { apply str_eqb_eq in E3. intros Hm%classifyRoutineDefinition_spec.
    by rewrite (stmt_permitted_routine root n text Hn E3). }
  apply str_eqb_neq in E1, E2, E3. intros [= <-]. split; [apply scanMutations_nonblank|].
  rewrite scanMutations_ok. symmetry. apply stmt_permitted_plain; intros (n' & ? & ?); congruence.
Qed.

Lemma classify_batch_spec sql op stmts op' :
  classify_batch rec sql op stmts = Some op' -> is_blank_kind (Kind op) = false ->
  is_blank_kind (Kind op') = false /\
  (mut_ok (mutationsFromOp op') = true <->
   mut_ok (mutationsFromOp op) = true /\
   forall s root, s ∈ stmts -> rs_stmt s = Some root -> stmt_permitted root (rawStatementSQL sql s)).
Proof.
  revert op. induction stmts as [|s stmts IH]; intros op; simpl.
  { intros [= <-] Hb. split; [done|]. split; [|naive_solver]. intros. split; [done|]. by intros ? ? ?%elem_of_nil. }
  setoid_rewrite elem_of_cons. destruct (rs_stmt s) as [root|] eqn:Hs.
  - destruct (classifyStmt rec root (rawStatementSQL sql s)) as [m|] eqn:E; [|done]. simpl. intros Hc Hb.
    apply classifyStmt_spec in E as [Hnb Hok]. apply IH in Hc as [Hb' Hok']; [|by apply first_kind_nonblank].
    split; [done|]. rewrite Hok'.
    change (mutationsFromOp (mkOp (first_kind (Kind op) (kind m)) (SetGUCs op ++ setGUCs m)
              (ResetAll op || resetAll m) (Discard op || discard m))) with (mergeMutations (mutationsFromOp op) m).
    rewrite mergeMutations_ok, andb_true_iff, Hok. naive_solver.
  - intros Hc Hb. apply IH in Hc as [Hb' Hok']; [|done]. split; [done|]. rewrite Hok'. naive_solver.
Qed.

Lemma classifyUncached_spec sql op : classifyUncached rec sql = Some op -> classified sql op.
Proof.
  unfold classifyUncached, classified.
  destruct (is_empty (TrimSpace sql)) eqn:Hblank.
  { intros [= <-]. rewrite decide_True; [done|]. unfold statements. by rewrite Hblank. }
  destruct (pg_Parse sql) as [[|s stmts]|] eqn:Hp.
  - intros [= <-]. rewrite decide_True; [done|]. unfold statements. by rewrite Hblank, Hp.
  - intros Hc. apply classify_batch_spec in Hc as [Hb Hok]; [|done].
    assert (Hst : statements sql = s :: stmts) by (unfold statements; by rewrite Hblank, Hp).
    rewrite decide_False by (by rewrite Hst). split; [done|]. rewrite Hok. split.
    + intros [_ Hall]. constructor. by rewrite Hst.
    + intros Hperm. split; [done|]. inversion Hperm as [? Hall]; subst. by rewrite <- Hst.
  - intros [= <-]. rewrite decide_True; [done|]. unfold statements. by rewrite Hblank, Hp.
Qed.
End classifier.

Lemma classify_ref_classified f sql op : classify_ref f sql = Some op -> classified sql op.
Proof.
  revert sql op. induction f as [|f IH]; intros sql op; simpl; [done|]. by apply classifyUncached_spec.
Qed.

Lemma judge_op_ok op :
  is_blank_kind (Kind op) = false -> judge_op pinned op = None <-> mut_ok (mutationsFromOp op) = true.
Proof.
  unfold judge_op, mut_ok, mutationsFromOp, is_blank_kind. cbn [kind setGUCs resetAll discard]. intros Hb.
  destruct (Kind op); simpl in *; try done.
  destruct (ResetAll op), (Discard op); simpl; try done. by destruct (existsb _ _).
Qed.
End spec.
