(* ===== verification/PgCache.v ===== *)
(** * The classifier's cache and its termination

    One lemma, [param_classifyUncached], says that the classifier body maps
    related recursive calls to related results, for any relation between two
    monads that respects return and bind.  Monotonicity in the fuel and both
    directions of the cache's transparency are instances of it. *)
From stdpp Require Import base gmap strings list option.
From Stdlib Require Import ZArith Lia Ascii.
From S2P Require Import Prelude GoUtf8 GoStrings GoNet Body GoHttp GoJson GoJsonParse PgSql PgSafety.
Local Open Scope string_scope.
Local Open Scope list_scope.

Section param.
Context `{UnicodeTables} `{PgParser}.
Context {M1 M2 : Type -> Type} `{MRet M1} `{MBind M1} `{MRet M2} `{MBind M2}.
Variable R : forall A : Type, M1 A -> M2 A -> Prop.
Hypothesis R_ret : forall A (a : A), R A (mret a) (mret a).
Hypothesis R_bind : forall A B (m1 : M1 A) (m2 : M2 A) (k1 : A -> M1 B) (k2 : A -> M2 B),
  R A m1 m2 -> (forall a, R B (k1 a) (k2 a)) -> R B (m1 ≫= k1) (m2 ≫= k2).
Variables (rec1 : string -> M1 Op) (rec2 : string -> M2 Op).
Hypothesis R_rec : forall q, R Op (rec1 q) (rec2 q).

Lemma param_expression expr :
  R _ (classifyPLpgSQLExpression rec1 expr) (classifyPLpgSQLExpression rec2 expr).
Proof. unfold classifyPLpgSQLExpression. repeat case_match; auto. Qed.

Lemma param_scanPLpgSQL v m : R _ (scanPLpgSQL rec1 v m) (scanPLpgSQL rec2 v m).
Proof.
  revert m. induction v as [| | | | |l IH|es IH] using any_ind'; intros m0; cbn [scanPLpgSQL]; auto.
  - revert m0. induction IH as [|x l Hx _ IHl]; intros m0; auto.
    apply R_bind; [apply Hx|]. intros [[] m1]; auto.
  - revert m0. induction IH as [|[key item] es Hx _ IHl]; intros m0; auto.
    destruct (dynamic_key key); auto. destruct (str_eqb key "PLpgSQL_expr").
    + destruct item; auto. apply R_bind; [apply param_expression|]. intros [op|]; auto.
    + apply R_bind; [apply Hx|]. intros [[] m1]; auto.
Qed.

Lemma param_classifyStmt root text : R _ (classifyStmt rec1 root text) (classifyStmt rec2 root text).
Proof.
  unfold classifyStmt, classifyRoutineDefinition, classifyPLpgSQL.
  repeat (case_match; auto); apply R_bind; auto; repeat (case_match; auto).
  apply R_bind; [apply param_scanPLpgSQL|]. intros [[] m1]; auto.
Qed.

Lemma param_batch sql op stmts : R _ (classify_batch rec1 sql op stmts) (classify_batch rec2 sql op stmts).
Proof.
  revert op. induction stmts as [|s stmts IH]; intros op; cbn [classify_batch]; auto.
  destruct (rs_stmt s); auto. apply R_bind; [apply param_classifyStmt|]. auto.
Qed.

Lemma param_classifyUncached sql : R _ (classifyUncached rec1 sql) (classifyUncached rec2 sql).
Proof. unfold classifyUncached. repeat (case_match; auto). apply param_batch. Qed.
End param.

(** ** Fuel *)

Section fuel.
Context `{UnicodeTables} `{PgParser}.

Lemma classify_ref_step f sql op : classify_ref f sql = Some op -> classify_ref (S f) sql = Some op.
Proof.
  revert sql op. induction f as [|f IH]; intros sql op; [done|].
  apply (param_classifyUncached (fun A (m1 m2 : option A) => forall a, m1 = Some a -> m2 = Some a)).
  - by intros A a b.
  - intros A B m1 m2 k1 k2 Hm Hk b. destruct m1 as [a|]; [|done]. rewrite (Hm a eq_refl). apply Hk.
  - intros q a. apply IH.
Qed.

Lemma classify_ref_mono f f' sql op : (f <= f')%nat -> classify_ref f sql = Some op -> classify_ref f' sql = Some op.
Proof. induction 1; auto using classify_ref_step. Qed.

Lemma classify_ref_det f f' sql op op' :
  classify_ref f sql = Some op -> classify_ref f' sql = Some op' -> op = op'.
Proof.
  intros H1 H2. apply (classify_ref_mono _ (Nat.max f f')) in H1, H2; [congruence|lia..].
Qed.
End fuel.

(** ** The cache *)

Section cache.
Context `{UnicodeTables} `{PgParser} {C : Type} `{LruCache C}.
#[local] Existing Instances cached_ret cached_bind.

(** Every cached classification is the one the parser gives. *)
Definition cache_ok (c : C) : Prop :=
  forall k op, cache_holds c k op -> exists f, classify_ref f k = Some op.

Lemma cache_ok_Get c k r c' : cache_Get c k = (r, c') -> cache_ok c -> cache_ok c'.
Proof. intros Hg Hc k' op Hh. eapply Hc, cache_Get_keeps; eauto. Qed.

Lemma cache_ok_Add c k op f : classify_ref f k = Some op -> cache_ok c -> cache_ok (cache_Add c k op).
Proof. intros Hf Hc k' op' [[-> ->]|Hh]%cache_Add_holds; eauto. Qed.

(** Computations that may depend on the fuel. *)
Definition fuelled (A : Type) : Type := nat -> option A.

(** A cached computation that returns returns what the reference returns at
    every large fuel. *)
Definition cached_sound (A : Type) (m : cached A) (g : fuelled A) : Prop :=
  forall c a c', cache_ok c -> m c = Some (a, c') ->
    cache_ok c' /\ exists f0, forall f, (f0 <= f)%nat -> g f = Some a.

#[local] Instance fuel_ret : MRet fuelled := fun _ a _ => Some a.
#[local] Instance fuel_bind : MBind fuelled := fun _ _ k m f => m f ≫= fun a => k a f.

Lemma classifyUncached_fuel sql f :
  classifyUncached (M := fuelled) (fun q f => classify_ref f q) sql f
  = classifyUncached (classify_ref f) sql.
Proof.
  apply (param_classifyUncached (M1 := fuelled)
           (fun A (g : fuelled A) (o : option A) => g f = o)); [done| |done].
  intros A B m1 m2 k1 k2 Hm Hk. unfold mbind at 1, fuel_bind. rewrite Hm. destruct m2; [apply Hk|done].
Qed.

Lemma cached_sound_bind A B (m1 : cached A) (m2 : fuelled A) (k1 : A -> cached B) (k2 : A -> fuelled B) :
  cached_sound A m1 m2 -> (forall a, cached_sound B (k1 a) (k2 a)) ->
  cached_sound B (m1 ≫= k1) (m2 ≫= k2).
Proof.
  intros Hm Hk c b c' Hc. unfold mbind at 1, cached_bind.
  destruct (m1 c) as [[a c1]|] eqn:E; [|done]. intros Hk1.
  destruct (Hm _ _ _ Hc E) as [Hc1 [f1 Hf1]]. destruct (Hk _ _ _ _ Hc1 Hk1) as [Hc2 [f2 Hf2]].
  split; [done|]. exists (Nat.max f1 f2). intros f Hf. unfold mbind, fuel_bind. rewrite Hf1 by lia. apply Hf2. lia.
Qed.

Lemma Classify_sound fuel sql : cached_sound Op (Classify fuel sql) (fun f => classify_ref f sql).
Proof.
  revert sql. induction fuel as [|fuel IH]; intros sql c op c' Hc; [done|]. cbn [Classify].
  destruct (cache_Get c sql) as [[op1|] c1] eqn:Hg.
  - intros [= <- <-]. split; [by eapply cache_ok_Get|].
    destruct (Hc _ _ (cache_Get_holds _ _ _ _ Hg)) as [f0 Hf0]. exists f0. intros f Hf. by eapply classify_ref_mono.
  - destruct (classifyUncached (Classify fuel) sql c1) as [[op1 c2]|] eqn:E; [|done]. intros [= <- <-].
    apply (param_classifyUncached (M1 := cached) (M2 := fuelled) cached_sound)
      with (rec2 := fun q f => classify_ref f q) in E as [Hc2 [f0 Hf0]].
    + assert (Hr : forall f, (S f0 <= f)%nat -> classify_ref f sql = Some op1).
      { intros [|f] Hf; [lia|]. simpl. rewrite <- classifyUncached_fuel. apply Hf0. lia. }
      split; [|by exists (S f0)]. by apply (cache_ok_Add _ _ _ (S f0)); [apply Hr|].
    + intros A a c0 a' c0' Hc0 [= <- <-]. split; [done|]. by exists 0%nat.
    + intros. by apply cached_sound_bind.
    + apply IH.
    + by eapply cache_ok_Get.
Qed.

(** What the reference returns within a fuel the cached code returns too. *)
Definition cached_complete (A : Type) (m : cached A) (o : option A) : Prop :=
  forall a c, o = Some a -> cache_ok c -> exists c', m c = Some (a, c') /\ cache_ok c'.

Lemma Classify_complete fuel sql : cached_complete Op (Classify fuel sql) (classify_ref fuel sql).
Proof.
  revert sql. induction fuel as [|fuel IH]; intros sql op c Hr Hc; [done|]. cbn [Classify].
  destruct (cache_Get c sql) as [[op1|] c1] eqn:Hg.
  - exists c1. split; [|by eapply cache_ok_Get].
    destruct (Hc _ _ (cache_Get_holds _ _ _ _ Hg)) as [f0 Hf0]. by rewrite (classify_ref_det _ _ _ _ _ Hr Hf0).
  - assert (Hd : cached_complete Op (classifyUncached (Classify fuel) sql) (classifyUncached (classify_ref fuel) sql)).
    { apply (param_classifyUncached (M1 := cached) cached_complete); [| |apply IH].
      - intros A a a' c0 [= <-] Hc0. by exists c0.
      - intros A B m1 m2 k1 k2 Hm Hk b c0 Hb Hc0. destruct m2 as [a|]; [|done].
        destruct (Hm a c0 eq_refl Hc0) as (c2 & Hm1 & Hc2). unfold mbind, cached_bind. rewrite Hm1. by apply Hk. }
    destruct (Hd op c1 Hr) as (c2 & -> & Hc2); [by eapply cache_ok_Get|].
    exists (cache_Add c2 sql op). split; [done|]. by apply (cache_ok_Add _ _ _ (S fuel)).
Qed.
End cache.

(** ** Termination

    The texts the classifier recurs on: the body of a routine, and the
    expressions of a PL/pgSQL tree. *)
Fixpoint expression_texts (value : any) : list string :=
  match value with
  | AList l => (fix items (l : list any) : list string :=
                  match l with [] => [] | x :: l' => expression_texts x ++ items l' end) l
  | AMap es =>
    (fix entries (es : list (string * any)) : list string :=
       match es with
       | [] => []
       | (key, item) :: es' =>
         (if str_eqb key "PLpgSQL_expr" then
            match item with
            | AMap expr => match plpgsql_text expr with Ok (Some q) => [q] | _ => [] end
            | _ => []
            end
          else expression_texts item) ++ entries es'
       end) es
  | _ => []
  end.

(** A parser reads routine bodies out of the statement it parses: they are
    shorter than it, and so is an expression of a PL/pgSQL definition, also
    with the [SELECT] the classifier puts before it. *)
Class PgParserLaws `{UnicodeTables} `{PgParser} : Prop := {
  pg_body_shorter sql stmts s root fn body :
    pg_Parse sql = Some stmts -> s ∈ stmts -> rs_stmt s = Some root ->
    node_as "CreateFunctionStmt" root = Some fn ->
    routineStringOption (get_list fn "options") "as" = Some body ->
    (String.length body < String.length sql)%nat;
  pg_expression_shorter text parsed tree q :
    pg_ParsePlPgSqlToJSON text = Some parsed -> Unmarshal_any parsed = Some tree ->
    q ∈ expression_texts tree -> (String.length q < String.length text)%nat;
}.

Section total.
Context `{PgParserLaws}.

Lemma rawStatementSQL_length sql s : (String.length (rawStatementSQL sql s) <= String.length sql)%nat.
Proof.
  unfold rawStatementSQL. repeat case_match; try lia.
  - etransitivity; [apply length_stake_min|]. rewrite length_sdrop. lia.
  - rewrite length_sdrop. lia.
Qed.

Section body.
Variables (rec : string -> option Op) (n : nat).
Hypothesis rec_total : forall q, (String.length q < n)%nat -> is_Some (rec q).

Lemma expression_total expr :
  (forall q, plpgsql_text expr = Ok (Some q) -> (String.length q < n)%nat) ->
  is_Some (classifyPLpgSQLExpression rec expr).
Proof.
  intros Hq. unfold classifyPLpgSQLExpression. destruct (plpgsql_text expr) as [[q|]|]; simpl; [|by eauto..].
  destruct (rec_total q) as [op ->]; [by apply Hq|]. simpl. eauto.
Qed.

Lemma scanPLpgSQL_total v m :
  (forall q, q ∈ expression_texts v -> (String.length q < n)%nat) -> is_Some (scanPLpgSQL rec v m).
Proof.
  revert m. induction v as [| | | | |l IH|es IH] using any_ind'; intros m0 Hq; cbn [scanPLpgSQL expression_texts] in *;
    try (by eauto).
  - revert m0 Hq. induction IH as [|x l Hx _ IHl]; intros m0 Hq; [by eauto|]. setoid_rewrite elem_of_app in Hq.
    destruct (Hx m0) as [[b m1] ->]; [by eauto|]. simpl. destruct b; [|by eauto]. apply IHl. eauto.
  - revert m0 Hq. induction IH as [|[key item] es Hx _ IHl]; intros m0 Hq; [by eauto|]. setoid_rewrite elem_of_app in Hq. cbn [snd] in Hx.
    destruct (dynamic_key key); [by eauto|]. destruct (str_eqb key "PLpgSQL_expr").
    + destruct item as [| | | | | |expr]; try (by eauto).
      destruct (expression_total expr) as [o ->].
      { intros q Ht. apply Hq. left. rewrite Ht. left. }
      simpl. destruct o; [|by eauto]. apply IHl. eauto.
    + destruct (Hx m0) as [[b m1] ->]; [by eauto|]. simpl. destruct b; [|by eauto]. apply IHl. eauto.
Qed.

Lemma classifyStmt_total sql stmts s root :
  pg_Parse sql = Some stmts -> s ∈ stmts -> rs_stmt s = Some root -> (String.length sql <= n)%nat ->
  is_Some (classifyStmt rec root (rawStatementSQL sql s)).
Proof.
  intros Hp Hs Hr Hn. unfold classifyStmt. destruct (node_inner root) as [fn|] eqn:Hi; [|by eauto].
  destruct (str_eqb (type_of fn) "TransactionStmt"); [by eauto|]. destruct (str_eqb (type_of fn) "DoStmt"); [by eauto|].
  destruct (str_eqb (type_of fn) "CreateFunctionStmt") eqn:Ht; [|by eauto]. apply str_eqb_eq in Ht.
  assert (Hfn : node_as "CreateFunctionStmt" root = Some fn) by (by apply node_as_top).
  unfold classifyRoutineDefinition. case_match; [by eauto|].
  destruct (routineStringOption _ "language") as [lang|]; [|by eauto].
  destruct (EqualFold lang "plpgsql").
  - unfold classifyPLpgSQL. destruct (pg_ParsePlPgSqlToJSON _) as [parsed|] eqn:Hpl; simpl; [|by eauto].
    destruct (Unmarshal_any parsed) as [tree|] eqn:Hu; simpl; [|by eauto].
    destruct (scanPLpgSQL_total tree no_mutations) as [[b m] ->]; [|simpl; by eauto].
    intros q Hq. pose proof (pg_expression_shorter _ _ _ _ Hpl Hu Hq). pose proof (rawStatementSQL_length sql s). lia.
  - destruct (EqualFold lang "sql"); simpl; [|by eauto]. destruct (get_msg fn "sql_body"); [by eauto|].
    destruct (routineStringOption _ "as") as [body|] eqn:Has; simpl; [|by eauto].
    destruct (rec_total body) as [op ->]; [|simpl; by eauto].
    pose proof (pg_body_shorter _ _ _ _ _ _ Hp Hs Hr Hfn Has). lia.
Qed.

Lemma classify_batch_total sql stmts0 op stmts :
  pg_Parse sql = Some stmts0 -> (forall s, s ∈ stmts -> s ∈ stmts0) -> (String.length sql <= n)%nat ->
  is_Some (classify_batch rec sql op stmts).
Proof.
  intros Hp Hin Hn. revert op Hin. induction stmts as [|s stmts IH]; intros op Hin; simpl; [by eauto|].
  assert (Hrest : forall s', s' ∈ stmts -> s' ∈ stmts0) by (intros; apply Hin; by right).
  destruct (rs_stmt s) as [root|] eqn:Hs; [|by apply IH].
  destruct (classifyStmt_total sql stmts0 s root) as [m ->]; [done|apply Hin; left|done|done|]. simpl. by apply IH.
Qed.
End body.

Lemma classify_ref_total f sql : (String.length sql < f)%nat -> is_Some (classify_ref f sql).
Proof.
  revert sql. induction f as [|f IH]; intros sql Hl; [lia|]. simpl. unfold classifyUncached.
  case_match; [by eauto|]. destruct (pg_Parse sql) as [[|s stmts]|] eqn:Hp; [by eauto| |by eauto].
  eapply (classify_batch_total _ (String.length sql)); [|done|done|done].
  intros q Hq. apply IH. lia.
Qed.
End total.
