(* ===== verification/PgPolicy.v ===== *)
(** * The Postgres policy, end to end (src/internal/postgres/policy.go)

    The theorems about [ClassifyClientStatement] with its cache, and a small
    parser and an LRU cache to evaluate them on. *)
From stdpp Require Import base gmap strings list option.
From Stdlib Require Import ZArith Lia Ascii.
From S2P Require Import Prelude GoUtf8 GoStrings GoNet Body GoHttp GoJson GoJsonParse PgSql PgSafety PgCache.
Local Open Scope string_scope.
Local Open Scope list_scope.

(** The verdict is the meaning of the text, whatever sound cache it meets. *)
Lemma ClassifyClientStatement_permitted `{UnicodeTables} `{PgParser} {C} `{LruCache C} fuel sql pinned (c : C) v c' :
  cache_ok c -> ClassifyClientStatement fuel sql pinned c = Some (v, c') ->
  (v = None <-> permitted pinned sql) /\ cache_ok c'.
Proof.
  intros Hc. unfold ClassifyClientStatement. destruct (Classify fuel sql c) as [[op c1]|] eqn:E; [|done].
  intros [= <- <-]. destruct (Classify_sound _ _ _ _ _ Hc E) as [Hc1 [f0 Hf0]]. split; [|done].
  pose proof (classify_ref_classified pinned f0 sql op (Hf0 f0 (le_n _))) as Hcl. unfold classified in Hcl.
  destruct (decide (statements sql = [])) as [Hs|Hs].
  - destruct Hcl as [_ Hj]. split; [|done]. intros _. constructor. rewrite Hs. by intros s root ?%elem_of_nil.
  - destruct Hcl as [Hb Hok]. by rewrite (judge_op_ok pinned op Hb).
Qed.

(** With a unit of fuel per byte there is a verdict. *)
Lemma ClassifyClientStatement_total `{PgParserLaws} {C} `{LruCache C} sql pinned (c : C) :
  cache_ok c -> exists v c', ClassifyClientStatement (S (String.length sql)) sql pinned c = Some (v, c') /\ cache_ok c'.
Proof.
  intros Hc. destruct (classify_ref_total (S (String.length sql)) sql) as [op Hop]; [lia|].
  destruct (Classify_complete _ sql op c Hop Hc) as (c' & Hcl & Hc').
  unfold ClassifyClientStatement. rewrite Hcl. eauto.
Qed.

(** C4: The statement gate.  With a cache that holds only past
    classifications, a text is allowed exactly when it is [permitted]: no statement,
    at any depth of its syntax tree, changes the role or a pinned setting, resets or
    discards the session, calls [set_config], writes or aliases [pg_settings], or
    binds functions as callbacks; no statement is a DO block; and every routine
    it defines has a readable body that is permitted in the same sense.  The
    cache stays sound for the next caller, whatever settings that one pins. *)
Theorem ClassifyClientStatement_gate `{UnicodeTables} `{PgParser} {C} `{LruCache C} fuel sql pinned (c : C) v c' :
  cache_ok c -> ClassifyClientStatement fuel sql pinned c = Some (v, c') ->
  (v = None <-> permitted pinned sql) /\ cache_ok c'.
Proof. apply ClassifyClientStatement_permitted. Qed.

(** C19: Classification terminates and its cache is invisible.  When the parser
    reads routine bodies out of the statement that contains them, one unit of
    fuel per byte of the text is enough for [Classify] to answer, on any sound
    cache, and the answer is the one of the classifier without a cache. *)
Theorem Classify_total `{PgParserLaws} {C} `{LruCache C} fuel sql (c : C) :
  (String.length sql < fuel)%nat -> cache_ok c ->
  exists op c', Classify fuel sql c = Some (op, c') /\ classify_ref fuel sql = Some op /\ cache_ok c'.
Proof.
  intros Hf Hc. destruct (classify_ref_total fuel sql Hf) as [op Hop].
  destruct (Classify_complete fuel sql op c Hop Hc) as (c' & Hcl & Hc'). eauto.
Qed.

(** ** A cache and a parser to run *)

Lemma elem_of_sublist_take {A} n (l : list A) x : x ∈ take n l -> x ∈ l.
Proof. intros Hx. rewrite <- (take_drop n l). apply elem_of_app. by left. Qed.


Definition lru_size : nat := 64.
Definition lru_without (c : list (string * Op)) (k : string) : list (string * Op) :=
  List.filter (fun e => negb (str_eqb (fst e) k)) c.
Definition lru_Get (c : list (string * Op)) (k : string) : option Op * list (string * Op) :=
  match assoc_get c k with
  | Some op => (Some op, (k, op) :: lru_without c k)
  | None => (None, c)
  end.
Definition lru_Add (c : list (string * Op)) (k : string) (op : Op) : list (string * Op) :=
  take lru_size ((k, op) :: lru_without c k).

Lemma lru_without_elem c k e : e ∈ lru_without c k -> e ∈ c.
Proof. rewrite !list_elem_of_In. unfold lru_without. rewrite filter_In. naive_solver. Qed.

Lemma assoc_get_elem {V} (c : list (string * V)) k v : assoc_get c k = Some v -> (k, v) ∈ c.
Proof.
  unfold assoc_get. destruct (List.find _ c) as [[k' v']|] eqn:E; [|done]. intros [= <-].
  apply find_some in E as [Hin Hk]. apply str_eqb_eq in Hk. simpl in Hk. subst. by apply list_elem_of_In.
Qed.

#[global, refine] Instance lru_list : LruCache (list (string * Op)) := {|
  cache_Get := lru_Get; cache_Add := lru_Add; cache_holds c k op := (k, op) ∈ c |}.
Proof.
  - unfold lru_Get. intros c k op c'. destruct (assoc_get c k) eqn:E; [|done]. intros [= <- <-]. by apply assoc_get_elem.
  - unfold lru_Get. intros c k r c' k' op. destruct (assoc_get c k) eqn:E; intros [= <- <-]; [|done].
    intros [[= -> ->]|Hin]%elem_of_cons; [by apply assoc_get_elem|by eapply lru_without_elem].
  - unfold lru_Add. intros c k op k' op' Hin.
    assert (Hi : (k', op') ∈ (k, op) :: lru_without c k)
      by (eapply elem_of_sublist_take; exact Hin).
    apply elem_of_cons in Hi as [[= -> ->]|Hi]; [by left|]. right. by eapply lru_without_elem.
Defined.

(** Three statements: a query, a role change, and a SQL function whose body is
    the role change. *)
Definition pg_node (ty : string) (fields : list (string * pval Msg)) : Msg :=
  mkMsg "Node" [(ty, PMsg (mkMsg ty fields))].
Definition pg_string (s : string) : Msg := pg_node "String" [("sval", PStr s)].
Definition pg_option (name : string) (arg : Msg) : Msg :=
  pg_node "DefElem" [("defname", PStr name); ("arg", PMsg arg)].
Definition set_role : Msg := pg_node "VariableSetStmt" [("kind", PEnum "VAR_SET_VALUE"); ("name", PStr "role")].
Definition create_function : Msg :=
  pg_node "CreateFunctionStmt"
    [("options", PList [pg_option "language" (pg_string "sql"); pg_option "as" (pg_string "SET ROLE a")])].

Definition toy_parser : PgParser := {|
  pg_Parse sql :=
    if str_eqb sql "SELECT 1" then Some [mkRawStmt (Some (pg_node "SelectStmt" [])) 0 0]
    else if str_eqb sql "SET ROLE a" then Some [mkRawStmt (Some set_role) 0 0]
    else if str_eqb sql "CREATE FUNCTION f() AS 'SET ROLE a'" then Some [mkRawStmt (Some create_function) 0 0]
    else None;
  pg_ParsePlPgSqlToJSON _ := None |}.

Lemma toy_laws : @PgParserLaws ascii_tables toy_parser.
Proof.
  split; [|done]. intros sql stmts s root fn body Hp Hs Hr Hfn Has. cbn [pg_Parse toy_parser] in Hp.
  repeat case_match; simplify_eq; apply list_elem_of_singleton in Hs; subst s; simplify_eq/=;
    apply node_as_top in Hfn as [[= <-] Ht]; try (vm_compute in Ht; discriminate).
  vm_compute in Has. injection Has as <-. apply str_eqb_eq in H1. subst sql. vm_compute. lia.
Qed.

Lemma lru_empty_ok : @cache_ok ascii_tables toy_parser _ lru_list [].
Proof. by intros k op ?%elem_of_nil. Qed.

Lemma ClassifyClientStatement_gate_witness :
  (exists c', @ClassifyClientStatement ascii_tables toy_parser _ lru_list 40
                "CREATE FUNCTION f() AS 'SET ROLE a'" ∅ [] = Some (Some RejectClientRoleChange, c')) /\
  ~ @permitted ascii_tables toy_parser ∅ "CREATE FUNCTION f() AS 'SET ROLE a'".
Proof.
  destruct (@ClassifyClientStatement ascii_tables toy_parser _ lru_list 40
              "CREATE FUNCTION f() AS 'SET ROLE a'" ∅ []) as [[v c']|] eqn:E; [|vm_compute in E; discriminate].
  assert (Hv : v = Some RejectClientRoleChange) by (vm_compute in E; congruence).
  split; [exists c'; by rewrite Hv|]. intros Hp.
  apply (@ClassifyClientStatement_gate ascii_tables toy_parser _ lru_list 40 _ ∅ [] v c' lru_empty_ok E) in Hp.
  congruence.
Defined.

Lemma Classify_total_witness :
  exists op c', @Classify ascii_tables toy_parser _ lru_list 36 "CREATE FUNCTION f() AS 'SET ROLE a'" [] = Some (op, c')
    /\ @classify_ref ascii_tables toy_parser 36 "CREATE FUNCTION f() AS 'SET ROLE a'" = Some op
    /\ @cache_ok ascii_tables toy_parser _ lru_list c'.
Proof.
  apply (@Classify_total ascii_tables toy_parser toy_laws _ lru_list 36 "CREATE FUNCTION f() AS 'SET ROLE a'" []);
    [vm_compute; lia|exact lru_empty_ok].
Defined.
