(* ===== verification/Headers.v ===== *)
(** * Wire-cased header edits (src/internal/headers/headers.go)

    The helpers write the header map directly, so a name reaches the wire with
    the casing it was configured with.  The theorems say when that still
    replaces the value the client sent, and when it does not. *)
From stdpp Require Import base gmap strings list option.
From Stdlib Require Import ZArith Lia Ascii.
From S2P Require Import Prelude GoUtf8 GoStrings GoNet Body GoHttp.
Local Open Scope string_scope.
Local Open Scope list_scope.

(** [headers.Set]. *)
Definition headers_Set (h : Header) (name value : string) : Header :=
  <[name := [value]]> (header_Del h name).

(** [headers.Add]. *)
Definition headers_Add (h : Header) (name value : string) : Header :=
  <[name := raw_values h name ++ [value]]> h.

(** [headers.Apply]: the entries in the order the map is visited. *)
Definition headers_Apply `{MapRange} (h : Header) (m : gmap string string) : Header :=
  fold_left (fun h kv => headers_Set h (fst kv) (snd kv)) (map_range m) h.

(** The loop of [headers.Swap]; [fn] is a closure, [S] the variables it
    captures. *)
Fixpoint swap_values {S} (fn : S -> string -> string * S) (s : S) (vals : list string) : list string * S :=
  match vals with
  | [] => ([], s)
  | v :: vals' =>
    let '(v', s1) := fn s v in
    let '(out, s2) := swap_values fn s1 vals' in (v' :: out, s2)
  end.

(** [headers.Swap]. *)
Definition headers_Swap {S} (h : Header) (canonical wireName : string)
    (fn : S -> string -> string * S) (s : S) : Header * S :=
  match header_Values h canonical with
  | [] => (h, s)
  | vals =>
    let '(out, s') := swap_values fn s vals in
    let h' := header_Del h canonical in
    (<[wireName := raw_values h' wireName ++ out]> h', s')
  end.

(** [headers.Values]. *)
Definition headers_Values (h : Header) (exactName : string) : list string := raw_values h exactName.

(** ** Canonical headers

    A request parsed by [net/http] has canonical keys only. *)
Definition canonical_header (h : Header) : Prop :=
  forall k, is_Some (h !! k) -> CanonicalHeaderKey k = k.

(** All the values that reach the wire under some spelling of [name]. *)
Definition spelled (h : Header) (name k : string) (vs : list string) : Prop :=
  CanonicalHeaderKey k = CanonicalHeaderKey name /\ h !! k = Some vs.

Lemma headers_Set_lookup h name value k :
  headers_Set h name value !! k =
    if decide (k = name) then Some [value]
    else if decide (k = CanonicalHeaderKey name) then None else h !! k.
Proof.
  unfold headers_Set, header_Del. rewrite lookup_insert, lookup_delete.
  repeat case_decide; naive_solver.
Qed.

(** Replacing a header of a parsed request.  When the header map has
    canonical keys only, [Set] leaves exactly one spelling of [name] in the
    map, the configured one with the single new value, and every header that
    is not a spelling of [name] is untouched. *)
Theorem headers_Set_replaces h name value :
  canonical_header h ->
  (forall k vs, spelled (headers_Set h name value) name k vs <-> k = name /\ vs = [value]) /\
  (forall k, CanonicalHeaderKey k <> CanonicalHeaderKey name ->
             headers_Set h name value !! k = h !! k).
Proof.
  intros Hc. split.
  - intros k vs. unfold spelled. rewrite headers_Set_lookup. repeat case_decide; [naive_solver| |].
    { naive_solver. }
    split; [intros [Hk Hv]|naive_solver]. specialize (Hc k (mk_is_Some _ _ Hv)). congruence.
  - intros k Hk. rewrite headers_Set_lookup. repeat case_decide; try done; subst; try done.
    assert (Hne : is_Some (h !! CanonicalHeaderKey name) \/ h !! CanonicalHeaderKey name = None)
      by (destruct (h !! CanonicalHeaderKey name); eauto).
    destruct Hne as [Hs| ->]; [|done]. exfalso. apply Hk. by rewrite (Hc _ Hs).
Qed.

(** A replaced header can be sent twice.  The comment on [Set] says it
    replaces values "matched case-insensitively", but only the canonical key
    is deleted: once a header was written under a spelling [n1] that is not
    canonical, a later [Set] under another spelling [n2] leaves both on the
    request, the stale value included. *)
Theorem headers_Set_stacks h n1 n2 v1 v2 :
  CanonicalHeaderKey n1 = CanonicalHeaderKey n2 -> n1 <> n2 -> n1 <> CanonicalHeaderKey n1 ->
  let h' := headers_Set (headers_Set h n1 v1) n2 v2 in
  spelled h' n2 n1 [v1] /\ spelled h' n2 n2 [v2] /\
  header_Values h' n2 = (if decide (n2 = CanonicalHeaderKey n2) then [v2] else []).
Proof.
  intros Hc Hne Hn h'. unfold spelled, header_Values, raw_values, h'. rewrite !headers_Set_lookup.
  rewrite decide_False by done. rewrite decide_False by congruence. rewrite !decide_True by done.
  split; [done|]. split; [done|]. repeat case_decide; naive_solver.
Qed.

Lemma headers_Set_stacks_witness :
  let h' := headers_Set (headers_Set ∅ "x-api-key" "old") "X-Api-Key" "new" in
  spelled h' "X-Api-Key" "x-api-key" ["old"] /\ spelled h' "X-Api-Key" "X-Api-Key" ["new"].
Proof.
  destruct (headers_Set_stacks ∅ "x-api-key" "X-Api-Key" "old" "new") as (H1 & H2 & _);
    [vm_compute; reflexivity|done|vm_compute; discriminate|].
  split; [exact H1|exact H2].
Defined.

Lemma headers_Set_replaces_witness :
  canonical_header {["X-Api-Key" := ["old"]]} /\
  spelled (headers_Set {["X-Api-Key" := ["old"]]} "x-api-key" "new") "x-api-key" "x-api-key" ["new"].
Proof.
  assert (Hc : canonical_header {["X-Api-Key" := ["old"]]}).
  { intros k [v Hk]. apply lookup_singleton_Some in Hk as [<- _]. vm_compute. reflexivity. }
  split; [exact Hc|].
  apply (proj1 (headers_Set_replaces _ "x-api-key" "new" Hc)). split; reflexivity.
Defined.

(** ** Swap *)

Lemma swap_values_length {S} (fn : S -> string -> string * S) s vals :
  length (fst (swap_values fn s vals)) = length vals.
Proof.
  revert s. induction vals as [|v vals IH]; intros s; simpl; [done|].
  destruct (fn s v) as [v' s1]. specialize (IH s1). destruct (swap_values fn s1 vals). simpl in *. lia.
Qed.

(** A pure [fn] is mapped over the values. *)
Lemma swap_values_pure (f : string -> string) vals :
  swap_values (fun (_ : unit) v => (f v, tt)) tt vals = (f <$> vals, tt).
Proof. induction vals as [|v vals IH]; simpl; [done|]. by rewrite IH. Qed.

(** [Swap] moves the values to the wire name.  On a request with
    canonical keys, and for a wire name that is a spelling of the header,
    nothing happens when the header is absent; otherwise the only spelling
    left is the wire name, it holds one value per value the client sent, in
    order, each the closure's result, and other headers are untouched. *)
Theorem headers_Swap_moves {S} h canonical wireName (fn : S -> string -> string * S) s :
  canonical_header h ->
  CanonicalHeaderKey wireName = CanonicalHeaderKey canonical ->
  let r := headers_Swap h canonical wireName fn s in
  (header_Values h canonical = [] -> r = (h, s)) /\
  (header_Values h canonical <> [] ->
     (forall k vs, spelled (fst r) canonical k vs <->
        k = wireName /\ vs = fst (swap_values fn s (header_Values h canonical))) /\
     snd r = snd (swap_values fn s (header_Values h canonical)) /\
     forall k, CanonicalHeaderKey k <> CanonicalHeaderKey canonical -> fst r !! k = h !! k).
Proof.
  intros Hc Hw r. unfold r, headers_Swap.
  destruct (header_Values h canonical) as [|v vals] eqn:Hv; [done|]. split; [done|]. intros _.
  destruct (swap_values fn s (v :: vals)) as [out s'] eqn:Ho. cbn [fst snd].
  assert (Hraw : raw_values (header_Del h canonical) wireName = []).
  { unfold raw_values, header_Del. rewrite lookup_delete. case_decide; [done|].
    destruct (h !! wireName) eqn:E; [|done]. pose proof (Hc _ (mk_is_Some _ _ E)). congruence. }
  rewrite Hraw. simpl. split; [|split; [done|]].
  - intros k vs. unfold spelled, header_Del. rewrite lookup_insert, lookup_delete.
    repeat case_decide; [naive_solver..|].
    split; [intros [Hk Hl]|naive_solver]. pose proof (Hc _ (mk_is_Some _ _ Hl)). congruence.
  - intros k Hk. unfold header_Del. rewrite lookup_insert, lookup_delete.
    repeat case_decide; subst; [congruence| |done].
    destruct (h !! CanonicalHeaderKey canonical) eqn:E; [|done].
    pose proof (Hc _ (mk_is_Some _ _ E)). congruence.
Qed.

Lemma headers_Swap_moves_witness :
  canonical_header {["X-Api-Key" := ["tok-a"; "tok-b"]]} /\
  spelled (fst (headers_Swap {["X-Api-Key" := ["tok-a"; "tok-b"]]} "X-Api-Key" "x-api-key"
                  (fun (n : nat) v => ("sk-" +:+ v, S n)) 0%nat))
    "X-Api-Key" "x-api-key" ["sk-tok-a"; "sk-tok-b"].
Proof.
  assert (Hc : canonical_header {["X-Api-Key" := ["tok-a"; "tok-b"]]}).
  { intros k [v Hk]. apply lookup_singleton_Some in Hk as [<- _]. vm_compute. reflexivity. }
  split; [exact Hc|].
  apply (headers_Swap_moves {["X-Api-Key" := ["tok-a"; "tok-b"]]} "X-Api-Key" "x-api-key"
           (fun (n : nat) v => ("sk-" +:+ v, S n)) 0%nat Hc); [vm_compute; reflexivity|vm_compute; discriminate|].
  split; vm_compute; reflexivity.
Defined.
