(* ===== verification/Secrets.v ===== *)
(** * Swapping placeholders for secrets
      (src/internal/transform/secrets/secrets.go, canonical.go, pending.go)

    A request leaves the sandbox with placeholders; this transform writes the
    real values into the requests whose host, method and path the secret's
    rules admit.  A secret's source is the name it has in the audit log and
    what reading it gives for this request. *)
From stdpp Require Import base gmap strings list option.
From Stdlib Require Import ZArith Lia Ascii.
From S2P Require Import Prelude GoUtf8 GoStrings GoNet Body GoHttp GoJson GoEncoding GoRegexp.
From S2P Require Import HostMatch Transform Headers ScrubPairs.
Local Open Scope string_scope.
Local Open Scope list_scope.
Local Open Scope Z_scope.

Record secretSource := mkSource { src_Name : string; src_Get : option string }.

(** [presentationConfig]. *)
Record presentationConfig := mkPresentation { p_Type : string; p_Name : string; p_Username : string }.

Section secrets.
Context `{UnicodeTables} `{Regexp} `{MapRange}.

(** [headerMatcher]: a literal name with its wire casing, or a pattern. *)
Inductive headerMatcher :=
  | MatchName (name wireName : string)
  | MatchPattern (re : regexp).

Record resolvedSecret := mkSecret {
  presentation : option presentationConfig;
  expiresAt : Z;
  source : secretSource;
  injects : bool;                           (* mode is inject, not replace *)
  sec_rules : list Rule;
  proxyValue : string;
  matchHeaders : list headerMatcher;
  matchBody : bool;
  matchPath : bool;
  matchQuery : bool;
  require : bool;
  allowsConnect : bool;                     (* allowConnectWithoutHeader *)
  tlsOnly : bool;
  scrubResponse : bool;
  injectHeader : string;
  injectQueryParam : string;
  formatter : option (string -> option string);
}.

(** [requestScrubs], which travels in the request's context. *)
Record requestScrubs := mkScrubs {
  canonical : list resolvedSecret;
  scrub_authority : string;
  pairs : list scrubPair;
  names : list string;
}.
Definition State : Type := ReqState (option requestScrubs).

(** ** Header matchers *)

Definition parse_matcher (p : string) : option headerMatcher :=
  if (2 <=? String.length p)%nat && HasPrefix p "/" && HasSuffix p "/" then
    MatchPattern <$> regexp_Compile ("(?i)" +:+ stake (String.length p - 2) (sdrop 1 p))
  else Some (MatchName (CanonicalHeaderKey p) p).
(** [parseHeaderMatchers]; [Err] names the pattern that does not compile. *)
Definition parseHeaderMatchers (patterns : list string) : result string (list headerMatcher) :=
  rmap (fun p => match parse_matcher p with Some m => Ok m | None => Err p end) patterns.

(** ** Values in headers *)

Definition decodeBasicAuth (value : string) : option string :=
  CutPrefix value "Basic " ≫= base64_DecodeString false.

Definition headerContains (headerName value placeholder : string) : bool :=
  match (if EqualFold headerName "Authorization" then decodeBasicAuth value else None) with
  | Some decoded => Contains decoded placeholder
  | None => Contains value placeholder
  end.

Definition replaceInHeader (headerName value placeholder realValue : string) : string :=
  match (if EqualFold headerName "Authorization" then decodeBasicAuth value else None) with
  | Some decoded => "Basic " +:+ base64_EncodeToString (ReplaceAll decoded placeholder realValue)
  | None => ReplaceAll value placeholder realValue
  end.

(** ** Swapping *)

(** One header of a secret that names none: its values, and a location per
    value that held the placeholder. *)
Definition swap_all_values (sec : resolvedSecret) (realValue name : string) (vals : list string)
    : list string * list string :=
  (map (fun v => if headerContains name v (proxyValue sec)
                 then replaceInHeader name v (proxyValue sec) realValue else v) vals,
   map (fun _ => "header:" +:+ name) (List.filter (fun v => headerContains name v (proxyValue sec)) vals)).

(** The closure [swap] of [swapHeaders]: the header map, the names already
    done, and the locations. *)
Definition swap_one (sec : resolvedSecret) (realValue : string) (st : Header * gset string * list string)
    (canonicalName wireName : string) : Header * gset string * list string :=
  let '(h, processed, locations) := st in
  if bool_decide (canonicalName ∈ processed) then st
  else
    let '(h', hit) := headers_Swap h canonicalName wireName
      (fun hit v => (replaceInHeader canonicalName v (proxyValue sec) realValue,
                     hit || headerContains canonicalName v (proxyValue sec))) false in
    (h', {[ canonicalName ]} ∪ processed, locations ++ if (hit : bool) then ["header:" +:+ wireName] else []).

Definition swap_matcher (sec : resolvedSecret) (realValue : string) (st : Header * gset string * list string)
    (m : headerMatcher) : Header * gset string * list string :=
  match m with
  | MatchName name wireName => swap_one sec realValue st name wireName
  | MatchPattern re =>
    fold_left (fun st name => if MatchString re name then swap_one sec realValue st name name else st)
      (map fst (map_range (fst (fst st)))) st
  end.

(** [swapHeaders]. *)
Definition swapHeaders (h : Header) (sec : resolvedSecret) (realValue : string) : Header * list string :=
  match matchHeaders sec with
  | [] =>
    fold_left (fun '(h, locations) '(name, vals) =>
                 let '(vals', locs) := swap_all_values sec realValue name vals in
                 (<[name := vals']> h, locations ++ locs)) (map_range h) (h, [])
  | ms =>
    let '(h', _, locations) := fold_left (swap_matcher sec realValue) ms (h, ∅, []) in (h', locations)
  end.

(** [swapQuery]. *)
Definition swap_param (sec : resolvedSecret) (realValue key : string) (vals : list string)
    : list string * list string :=
  (map (fun v => ReplaceAll v (proxyValue sec) realValue) vals,
   map (fun _ => "query:" +:+ key) (List.filter (fun v => Contains v (proxyValue sec)) vals)).
Definition set_RawQuery (u : URL) (q : string) : URL :=
  mkURL (Scheme u) (UserInfo u) (URLHost u) (Path u) (RawPath u) q.
Definition swapQuery (req : Request) (sec : resolvedSecret) (realValue : string) : Request * list string :=
  let raw := RawQuery (ReqURL req) in
  if is_empty raw || negb (Contains raw (proxyValue sec)) then (req, [])
  else match ParseQuery raw with
       | (_, true) => (req, [])          (* a malformed part *)
       | (params, false) =>
         let '(params', locations) :=
           fold_left (fun '(ps, locations) '(key, vals) =>
                        let '(vals', locs) := swap_param sec realValue key vals in
                        (<[key := vals']> ps, locations ++ locs)) (map_range params) (params, []) in
         if bool_decide (locations = []) then (req, [])
         else (set_ReqURL req (set_RawQuery (ReqURL req) (EncodeValues params')), locations)
       end.

(** [swapPath]. *)
Definition swapPath (req : Request) (sec : resolvedSecret) (realValue : string) : Request * list string :=
  let u := ReqURL req in
  if is_empty (Path u) || negb (Contains (Path u) (proxyValue sec)) then (req, [])
  else (set_ReqURL req (mkURL (Scheme u) (UserInfo u) (URLHost u)
                              (ReplaceAll (Path u) (proxyValue sec) realValue) "" (RawQuery u)), ["path"]).

(** [swapBody]: the body is read from where it stands, and left where the read
    ended unless it is replaced. *)
Definition swapBody (req : Request) (sec : resolvedSecret) (realValue : string) : Request * list string :=
  match BufferedBody.ReadAll (ReqBody req) with
  | (BufferedBody.GotBytes data, bb) =>
    let text := string_of_bytes data in
    if negb (Contains text (proxyValue sec)) then (set_ReqBody req bb, [])
    else (set_ReqBody req (BufferedBody.NewBufferedBodyFromBytes
                             (bytes_of_string (ReplaceAll text (proxyValue sec) realValue))), ["body"])
  | (_, bb) => (set_ReqBody req bb, [])
  end.

(** ** Injecting *)

Definition formatValue (sec : resolvedSecret) (realValue : string) : option string :=
  match formatter sec with None => Some realValue | Some f => f realValue end.

(** [injectSecret]; [None] is the formatter's error. *)
Definition injectSecret (req : Request) (sec : resolvedSecret) (realValue : string)
    : option (Request * list string) :=
  match formatValue sec realValue with
  | None => None
  | Some formatted =>
    let '(req, locs) :=
      if is_empty (injectHeader sec) then (req, [])
      else (set_ReqHeader req (headers_Set (ReqHeader req) (injectHeader sec) formatted),
            ["header:" +:+ injectHeader sec]) in
    if is_empty (injectQueryParam sec) then Some (req, locs)
    else
      let q := <[injectQueryParam sec := [formatted]]> (fst (ParseQuery (RawQuery (ReqURL req)))) in
      Some (set_ReqURL req (set_RawQuery (ReqURL req) (EncodeValues q)),
            locs ++ ["query:" +:+ injectQueryParam sec])
  end.

(** [admits] and [allowConnectWithoutHeader]. *)
Definition admits (sec : resolvedSecret) (tctx : TransformContext) : bool :=
  negb (tlsOnly sec) || negb (is_empty (SNI tctx)).
Definition allowConnectWithoutHeader (req : Request) (sec : resolvedSecret) : bool :=
  allowsConnect sec && str_eqb (Method req) "CONNECT" && negb (length (matchHeaders sec) =? 0)%nat
  && forallb (fun m => match m with
                       | MatchPattern re =>
                         forallb (fun kv => negb (MatchString re (CanonicalHeaderKey (fst kv)))) (map_range (ReqHeader req))
                       | MatchName name _ => (length (header_Values (ReqHeader req) name) =? 0)%nat
                       end) (matchHeaders sec).

(** ** Canonical secrets (canonical.go)

    A secret with a presentation replaces one complete component of a request
    to an exact host. *)

(** The regular expressions [canonicalPath] and [canonicalHost]. *)
Definition is_alnum_lower (b : Z) : bool := is_lower_ascii b || is_digit_ascii b.
Definition path_byte (b : Z) : bool :=
  is_upper_ascii b || is_lower_ascii b || is_digit_ascii b
  || string_in (ascii_of_byte b) "._~!$&'()+,=:@/-".
Definition canonicalPath (value : string) : bool :=
  HasPrefix value "/" && forallb path_byte (bytes_of_string value).

Definition host_label (first : Z -> bool) (label : string) : bool :=
  match bytes_of_string label with
  | [] => false
  | b :: rest =>
    first b && (length rest <=? 62)%nat
    && forallb (fun c => is_alnum_lower c || (c =? 45)) rest
    && match List.rev rest with [] => true | z :: _ => is_alnum_lower z end
  end.
Definition canonicalHost (value : string) : bool :=
  match List.rev (Split value "."%char) with
  | tld :: label :: labels => host_label is_lower_ascii tld && forallb (host_label is_alnum_lower) (label :: labels)
  | _ => false
  end.

Definition validCanonicalPath (value : string) : bool :=
  canonicalPath value && negb (Contains value "//")
  && forallb (fun part => negb (str_eqb part "." || str_eqb part "..")) (Split value "/"%char).

(** [authority]: the lowercased host and the normalized port of an
    authority. *)
Definition authority (value : string) : option (string * string) :=
  match (if Contains value ":" then SplitHostPort value else Some (value, "443")) with
  | None => None
  | Some (host, port) =>
    if existsb (fun r => 127 <? r) (runes (bytes_of_string host)) then None
    else match Atoi port with
         | None => None
         | Some n => if (0 <? n) && (n <=? 65535) && canonicalHost (ToLower host)
                     then Some (ToLower host, Itoa n) else None
         end
  end.

(** [permits]. *)
Definition path_permitted (p path : string) : bool :=
  str_eqb p path || (HasSuffix p "/*" && HasPrefix path (TrimSuffix p "*")).
Definition permits (sec : resolvedSecret) (req : Request) (host : string) : bool :=
  validCanonicalPath (Path (ReqURL req)) && negb (Contains (EscapedPath (ReqURL req)) "%")
  && existsb (fun rule =>
       MatchesHost rule host
       && match r_Methods rule with Some ms => bool_decide (Method req ∈ ms) | None => true end
       && (bool_decide (r_Paths rule = []) || existsb (fun p => path_permitted p (Path (ReqURL req))) (r_Paths rule)))
     (sec_rules sec).

(** [canonicalScope]. *)
Definition canonicalScope (sec : resolvedSecret) (tctx : TransformContext) (req : Request) : bool :=
  match authority (ReqHost req), authority (SNI tctx) with
  | Some (host, port), Some (sni, _) =>
    ReqTLS req && str_eqb sni host
    && (is_empty (URLHost (ReqURL req))
        || match authority (URLHost (ReqURL req)) with
           | Some (h, p) => str_eqb h host && str_eqb p port && str_eqb (Scheme (ReqURL req)) "https"
           | None => false
           end)
    && match Tunnel tctx with
       | None => true
       | Some t => match authority (Target t) with
                   | Some (h, p) => str_eqb h host && str_eqb p port
                   | None => false
                   end
       end
    && permits sec req host
  | _, _ => false
  end.

(** [component]: [Err] refuses the request, [Ok None] selects nothing, and
    [Ok (Some (apply, location))] is the component and how to write it. *)
Definition selected := result string (option ((string -> Request) * string)).

Definition embedded (value placeholder : string) : selected :=
  if Contains value placeholder then Err "embedded placeholder" else Ok None.

(** The scan of the query: the index of the one parameter with the name. *)
Fixpoint select_param (name : string) (i : nat) (found : option nat) (parts : list string)
    : result string (option nat) :=
  match parts with
  | [] => Ok found
  | part :: rest =>
    let '(rawName, rawValue) := cut_or part "=" in
    match QueryUnescape rawName with
    | None => Err "malformed query selector"
    | Some n =>
      if negb (utf8_Valid (bytes_of_string n)) then Err "malformed query selector"
      else if negb (str_eqb n name) then select_param name (S i) found rest
      else if bool_decide (is_Some found) then Err "duplicate selected query"
      else match QueryUnescape rawValue with
           | Some v => if utf8_Valid (bytes_of_string v) then select_param name (S i) (Some i) rest
                       else Err "malformed selected query"
           | None => Err "malformed selected query"
           end
    end
  end.

Definition component_query (p : presentationConfig) (placeholder : string) (req : Request) : selected :=
  let parts := Split (RawQuery (ReqURL req)) "&"%char in
  match select_param (p_Name p) 0 None parts with
  | Err e => Err e
  | Ok None => Ok None
  | Ok (Some i) =>
    let '(rawName, rawValue) := cut_or (default "" (parts !! i)) "=" in
    let value := default "" (QueryUnescape rawValue) in
    if negb (str_eqb value placeholder) then embedded value placeholder
    else Ok (Some (fun real => set_ReqURL req (set_RawQuery (ReqURL req)
                     (Join (<[i := rawName +:+ "=" +:+ QueryEscape real]> parts) "&")),
                   "query:" +:+ p_Name p))
  end.

(** The values of every spelling of a header, and the write that leaves one. *)
Definition spelled_values (h : Header) (name : string) : list string :=
  concat (map snd (List.filter (fun kv => EqualFold (fst kv) name) (map_range h))).
Definition write_header (req : Request) (name value : string) : Request :=
  set_ReqHeader req (header_Set (filter (fun kv => EqualFold (fst kv) name = false) (ReqHeader req)) name value).

Definition component_header (p : presentationConfig) (placeholder : string) (req : Request) : selected :=
  let name := if str_eqb (p_Type p) "header" then p_Name p else "Authorization" in
  let pick format : selected := Ok (Some (fun real => write_header req name (format real), "header:" +:+ name)) in
  match spelled_values (ReqHeader req) name with
  | [] => Ok None
  | [value] =>
    if str_eqb (p_Type p) "bearer" then
      if str_eqb value ("Bearer " +:+ placeholder) then pick (fun real => "Bearer " +:+ real)
      else embedded value placeholder
    else if str_eqb (p_Type p) "basic" then
      match CutPrefix value "Basic " with
      | None => Ok None
      | Some encoded =>
        match base64_DecodeString true encoded with
        | None => Err "malformed basic credential"
        | Some decoded =>
          if negb (str_eqb (base64_EncodeToString decoded) encoded && utf8_Valid (bytes_of_string decoded))
          then Err "malformed basic credential"
          else if str_eqb decoded (p_Username p +:+ ":" +:+ placeholder)
          then pick (fun real => "Basic " +:+ base64_EncodeToString (p_Username p +:+ ":" +:+ real))
          else embedded decoded placeholder
        end
      end
    else if str_eqb value placeholder then pick id
    else embedded value placeholder
  | _ => Err "duplicate selected header"
  end.

Definition component (sec : resolvedSecret) (p : presentationConfig) (req : Request) : selected :=
  if str_eqb (p_Type p) "query" then component_query p (proxyValue sec) req
  else component_header p (proxyValue sec) req.

(** [rememberScrub]. *)
Definition rememberScrub (s : State) (sec : resolvedSecret) (value : string) : State :=
  if negb (scrubResponse sec) || injects sec then s
  else
    let st := default (mkScrubs [] "" [] []) (rctx s) in
    let ps := scrubPairsFor (bytes_of_string value) (bytes_of_string (proxyValue sec)) in
    let ps := match presentation sec with
              | Some p => if str_eqb (p_Type p) "basic" then
                            let enc x := base64_encode (bytes_of_string (p_Username p +:+ ":" +:+ x)) in
                            mkPair (enc value) (enc (proxyValue sec)) false :: ps
                          else ps
              | None => ps
              end in
    let st' :=
      match presentation sec with
      | Some _ => mkScrubs (canonical st ++ [sec]) (ReqHost (rq s)) (ps ++ pairs st) (names st ++ [src_Name (source sec)])
      | None => mkScrubs (canonical st) (scrub_authority st) (pairs st ++ ps) (names st ++ [src_Name (source sec)])
      end in
    mkReqState (set_ReqHeader (rq s) (header_Del (ReqHeader (rq s)) "Accept-Encoding")) (Some st').

(** [swapCanonical], with the clock before and after the source was read;
    [None] refuses the request. *)
Definition swapCanonical (before after : Z) (sec : resolvedSecret) (p : presentationConfig)
    (tctx : TransformContext) (s : State) : option (list string * State) :=
  if TunnelAdmission tctx then Some ([], s)
  else match component sec p (rq s) with
       | Err _ => None
       | Ok None => Some ([], s)
       | Ok (Some (apply_, location)) =>
         if negb (canonicalScope sec tctx (rq s)) || negb (before <? expiresAt sec) then None
         else match src_Get (source sec) with
              | None => None
              | Some value =>
                if negb (after <? expiresAt sec)
                   || ((str_eqb (p_Type p) "header" || str_eqb (p_Type p) "bearer")
                       && negb (ValidHeaderFieldValue value)) then None
                else Some ([location], rememberScrub (with_req s (apply_ value)) sec value)
              end
       end.

(** [ValidateFinalDestination]: whether the send is refused. *)
Definition ValidateFinalDestination (now : Z) (s : State) : bool :=
  match rctx s with
  | None => true
  | Some st =>
    match canonical st with
    | [] => true
    | secs =>
      let req := rq s in
      match authority (URLHost (ReqURL req)), authority (scrub_authority st) with
      | Some (host, port), Some (h0, p0) =>
        str_eqb host h0 && str_eqb port p0
        && (str_eqb (Scheme (ReqURL req)) "https" || str_eqb (Scheme (ReqURL req)) "wss")
        && bool_decide (UserInfo (ReqURL req) = None)
        && (is_empty (ReqHost req)
            || match authority (ReqHost req) with
               | Some (h, p) => str_eqb h host && str_eqb p port
               | None => false
               end)
        && forallb (fun sec => (now <? expiresAt sec) && permits sec req host) secs
      | _, _ => false
      end
    end
  end.

(** ** Pending placeholders (pending.go) *)

Record resolvedPending := mkPending {
  slot : nat;
  pd_proxyValue : string;
  pd_matchHeaders : list headerMatcher;
  pd_rules : list Rule;
  pd_name : string;
  pd_sandboxID : string;
}.

(** The process-wide table of slots: the slot of a placeholder, and the secret
    a slot was resolved with. *)
Record pendingSlots := mkSlots {
  byValue : gmap string nat;
  resolved : gmap nat resolvedSecret;
  next_slot : nat;
}.

Definition declarePending (t : pendingSlots) (v : string) : nat * pendingSlots :=
  match byValue t !! v with
  | Some id => match resolved t !! id with
               | None => (id, t)
               | Some _ => (next_slot t, mkSlots (<[v := next_slot t]> (byValue t)) (resolved t) (S (next_slot t)))
               end
  | None => (next_slot t, mkSlots (<[v := next_slot t]> (byValue t)) (resolved t) (S (next_slot t)))
  end.

Definition installPending (t : pendingSlots) (v : string) (sec : resolvedSecret) : pendingSlots :=
  match byValue t !! v with
  | None => t
  | Some id => match resolved t !! id with
               | Some _ => t
               | None => mkSlots (byValue t) (<[id := sec]> (resolved t)) (next_slot t)
               end
  end.

(** [carries]. *)
Definition matcher_selects (m : headerMatcher) (name : string) : bool :=
  match m with
  | MatchPattern re => MatchString re name
  | MatchName canon _ => str_eqb (CanonicalHeaderKey name) canon
  end.
Definition carries (p : resolvedPending) (req : Request) : bool :=
  let holds name vals := existsb (fun v => headerContains name v (pd_proxyValue p)) vals in
  match pd_matchHeaders p with
  | [] => existsb (fun '(name, vals) => holds name vals) (map_range (ReqHeader req))
  | ms => existsb (fun m => existsb (fun '(name, vals) => matcher_selects m name && holds name vals)
                              (map_range (ReqHeader req))) ms
  end.

(** [pendingUnavailable]: a 503 with a hint to retry. *)
Definition pendingUnavailable (name : string) : TransformResult :=
  let body := "egress credential " +:+ strconv_Quote name +:+ " is not installed yet; the request was not sent upstream"
              +:+ String (ascii_of_byte 10) "" in
  mkResult ActionReject (Some (mkResponse 503
    (<["Content-Type" := ["text/plain; charset=utf-8"]]> {["Retry-After" := ["2"]]})
    (BufferedBody.NewBufferedBodyFromBytes (bytes_of_string body)) 0)).

(** How a wait ends: with the secret its slot was resolved with, at the
    deadline, or with the client gone. *)
Inductive wait_outcome := Installed (sec : resolvedSecret) | TimedOut | Canceled.

Definition record_any (secret : string) (locations : list string) : any :=
  AMap [("secret", AStr secret); ("locations", AList (map AStr locations))].

(** The swap of an installed secret; [None] is the outcome unavailable. *)
Definition swap_installed (before after : Z) (sec : resolvedSecret) (tctx : TransformContext) (s : State)
    : option (list string * State) :=
  match presentation sec with
  | Some p => swapCanonical before after sec p tctx s
  | None =>
    match src_Get (source sec) with
    | None => None
    | Some value =>
      let '(h, locations) := swapHeaders (ReqHeader (rq s)) sec value in
      Some (locations, rememberScrub (with_req s (set_ReqHeader (rq s) h)) sec value)
    end
  end.

(** [waitForPending]: [None] when the request may go on. *)
Fixpoint waitForPending (waits : nat -> wait_outcome) (clock : nat -> Z) (i : nat) (ps : list resolvedPending)
    (tctx : TransformContext) (s : State) : option TransformResult * TransformContext * State :=
  match ps with
  | [] => (None, tctx, s)
  | p :: rest =>
    if negb (MatchAnyRule (pd_rules p) (rq s)) || negb (carries p (rq s))
    then waitForPending waits clock (S i) rest tctx s
    else
      let refuse outcome :=
        (Some (pendingUnavailable (pd_name p)),
         Annotate (Annotate tctx "rejected" (AStr (pd_name p))) "reject_reason"
           (AStr ("pending_placeholder_" +:+ outcome)), s) in
      match waits i with
      | TimedOut => refuse "timeout"
      | Canceled => refuse "canceled"
      | Installed sec =>
        match swap_installed (clock (2 * i)%nat) (clock (2 * i + 1)%nat) sec tctx s with
        | None => refuse "unavailable"
        | Some (locations, s') =>
          waitForPending waits clock (S i) rest
            (Annotate tctx "swapped" (AList [record_any (src_Name (source sec)) locations])) s'
        end
      end
  end.

(** ** TransformRequest *)

(** What the loop gathers for the audit line. *)
Record gathered := mkGathered {
  g_swapped : list any;
  g_injected : list any;
  g_unavailable : list string;
  g_plaintext : list string;
}.

Definition annotate_unless_empty (tctx : TransformContext) (key : string) (l : list any) : TransformContext :=
  match l with [] => tctx | _ => Annotate tctx key (AList l) end.
Definition finish (g : gathered) (tctx : TransformContext) : TransformContext :=
  let tctx := annotate_unless_empty tctx "swapped" (g_swapped g) in
  let tctx := annotate_unless_empty tctx "injected" (g_injected g) in
  let tctx := annotate_unless_empty tctx "secret_unavailable" (map AStr (g_unavailable g)) in
  annotate_unless_empty tctx "secret_plaintext_skipped" (map AStr (g_plaintext g)).

Definition add_swapped (g : gathered) (name : string) (locations : list string) : gathered :=
  match locations with
  | [] => g
  | _ => mkGathered (g_swapped g ++ [record_any name locations]) (g_injected g) (g_unavailable g) (g_plaintext g)
  end.

(** The four replacements of one secret, in the order of the code. *)
Definition swap_everywhere (req : Request) (sec : resolvedSecret) (realValue : string) : Request * list string :=
  let '(h, l1) := swapHeaders (ReqHeader req) sec realValue in
  let req := set_ReqHeader req h in
  let '(req, l2) := if matchQuery sec then swapQuery req sec realValue else (req, []) in
  let '(req, l3) := if matchPath sec then swapPath req sec realValue else (req, []) in
  let '(req, l4) := if matchBody sec then swapBody req sec realValue else (req, []) in
  (req, l1 ++ l2 ++ l3 ++ l4).

(** What one secret does: goes on with more gathered, or ends the transform. *)
Inductive step_outcome :=
  | Next (g : gathered) (s : State)
  | Stop (r : result string TransformResult) (tctx : TransformContext) (s : State).

(** The upstream must not compress a response that is scrubbed. *)
Definition ask_uncompressed (sec : resolvedSecret) (s : State) : State :=
  if scrubResponse sec
  then with_req s (set_ReqHeader (rq s) (header_Del (ReqHeader (rq s)) "Accept-Encoding")) else s.

Definition secret_step (before after : Z) (sec : resolvedSecret) (g : gathered) (tctx : TransformContext) (s : State)
    : step_outcome :=
  let name := src_Name (source sec) in
  match presentation sec with
  | Some p =>
    match swapCanonical before after sec p tctx s with
    | None => Stop (Ok reject_result) (Annotate tctx "reject_reason" (AStr "canonical_secret_refused")) s
    | Some (locations, s') => Next (add_swapped g name locations) s'
    end
  | None =>
    if negb (MatchAnyRule (sec_rules sec) (rq s)) then Next g s
    else if negb (admits sec tctx) then
      Next (mkGathered (g_swapped g) (g_injected g) (g_unavailable g) (g_plaintext g ++ [name])) s
    else
      let s := ask_uncompressed sec s in
      match src_Get (source sec) with
      | None =>
        if require sec then
          Stop (Ok reject_result)
            (Annotate (Annotate tctx "rejected" (AStr name)) "reject_reason" (AStr "secret_unavailable")) s
        else Next (mkGathered (g_swapped g) (g_injected g) (g_unavailable g ++ [name]) (g_plaintext g)) s
      | Some realValue =>
        let s := rememberScrub s sec realValue in
        if injects sec then
          match injectSecret (rq s) sec realValue with
          | None => Stop (Err ("injecting secret " +:+ name)) tctx s
          | Some (req, []) => Next g (with_req s req)
          | Some (req, locations) =>
            Next (mkGathered (g_swapped g) (g_injected g ++ [record_any name locations]) (g_unavailable g) (g_plaintext g))
              (with_req s req)
          end
        else
          let '(req, locations) := swap_everywhere (rq s) sec realValue in
          if bool_decide (locations = []) && require sec && negb (allowConnectWithoutHeader req sec)
          then Stop (Ok reject_result) (Annotate tctx "rejected" (AStr name)) (with_req s req)
          else Next (add_swapped g name locations) (with_req s req)
      end
  end.

Fixpoint secret_loop (clock : nat -> Z) (i : nat) (secs : list resolvedSecret) (g : gathered)
    (tctx : TransformContext) (s : State) : result string TransformResult * TransformContext * State :=
  match secs with
  | [] => (Ok continue_result, finish g tctx, s)
  | sec :: rest =>
    match secret_step (clock (2 * i)%nat) (clock (2 * i + 1)%nat) sec g tctx s with
    | Next g' s' => secret_loop clock (S i) rest g' tctx s'
    | Stop r tctx' s' => (r, tctx', s')
    end
  end.

Record Secrets := mkSecrets { secrets : list resolvedSecret; pending : list resolvedPending; pendingWait : Z }.

(** [Secrets.TransformRequest]; [waits] and the two clocks are what the
    environment does during the request. *)
Definition Secrets_TransformRequest (waits : nat -> wait_outcome) (pclock clock : nat -> Z) (t : Secrets)
    (tctx : TransformContext) (s : State) : result string TransformResult * TransformContext * State :=
  match waitForPending waits pclock 0 (pending t) tctx s with
  | (Some held, tctx', s') => (Ok held, tctx', s')
  | (None, tctx', s') => secret_loop clock 0 (secrets t) (mkGathered [] [] [] []) tctx' s'
  end.

(** ** Configuration *)

Record replaceConfig := mkReplace {
  rep_Presentation : option presentationConfig;
  rep_ExpiresAt : option Z;
  rep_ProxyValue : string;
  rep_MatchHeaders : list string;
  rep_MatchBody : bool;
  rep_MatchPath : bool;
  rep_MatchQuery : bool;
  rep_Require : bool;
  rep_AllowConnect : bool;
  rep_TLSOnly : bool;
  rep_ScrubResponse : bool;
}.
Record injectConfig := mkInject {
  inj_Header : string;
  inj_QueryParam : string;
  inj_Formatter : string;
  inj_Require : bool;
}.

(** A rule as the YAML has it: a methods or paths list may be written and
    empty, which only canonical secrets refuse. *)
Record ruleEntry := mkRuleEntry { re_rule : RuleConfig; re_emptyMethods : bool; re_emptyPaths : bool }.

(** [secretEntry]; [Node] is the YAML of the source block, and no
    [se_ExpiresAt] is Go's zero time. *)
Record secretEntry (Node : Type) := mkEntry {
  se_Presentation : option presentationConfig;
  se_ExpiresAt : option Z;
  se_Source : Node;
  se_Rules : list ruleEntry;
  se_Inject : option injectConfig;
  se_Replace : option replaceConfig;
  se_ProxyValue : string;
  se_MatchHeaders : list string;
  se_MatchBody : bool;
  se_Require : bool;
  se_AllowConnect : bool;
  se_TLSOnly : bool;
  se_ScrubResponse : bool;
}.

Definition routing_headers : list string :=
  ["authorization"; "proxy-authorization"; "proxy-authenticate"; "host"; "connection"; "keep-alive";
   "proxy-connection"; "content-length"; "transfer-encoding"; "trailer"; "upgrade"; "te"].

(** The switch on the presentation's type in [canonicalConfig]. *)
Definition presentation_ok (p : presentationConfig) : bool :=
  if str_eqb (p_Type p) "bearer" then is_empty (p_Name p) && is_empty (p_Username p)
  else if str_eqb (p_Type p) "basic" then
    is_empty (p_Name p) && negb (is_empty (p_Username p))
    && forallb (fun c => (33 <=? c) && (c <=? 126) && negb (c =? 58)) (runes (bytes_of_string (p_Username p)))
  else if str_eqb (p_Type p) "header" then
    is_empty (p_Username p) && ValidHeaderFieldName (p_Name p)
    && negb (existsb (str_eqb (ToLower (p_Name p))) routing_headers)
  else if str_eqb (p_Type p) "query" then
    is_empty (p_Username p) && negb (is_empty (p_Name p)) && forallb is_unreserved (bytes_of_string (p_Name p))
  else false.

(** The checks on one rule of a canonical secret. *)
Definition canonical_rule_ok (r : ruleEntry) : bool :=
  let rule := re_rule r in
  canonicalHost (rc_Host rule) && is_empty (rc_CIDR rule)
  && negb (re_emptyMethods r) && negb (re_emptyPaths r)
  && forallb (fun m => negb (is_empty m) && forallb is_upper_ascii (bytes_of_string m)) (rc_Methods rule)
  && forallb (fun p => validCanonicalPath (TrimSuffix p "*") && (negb (Contains p "*") || HasSuffix p "/*"))
       (rc_Paths rule).

(** [canonicalConfig]; [None] is one of its errors. *)
Definition canonicalConfig {Node} (e : secretEntry Node) : option replaceConfig :=
  match se_Presentation Node e, se_ExpiresAt Node e with
  | Some p, Some expires =>
    if is_empty (se_ProxyValue Node e) || bool_decide (is_Some (se_Replace Node e))
       || bool_decide (is_Some (se_Inject Node e)) || negb (length (se_MatchHeaders Node e) =? 0)%nat
       || se_MatchBody Node e || (length (se_Rules Node e) =? 0)%nat then None
    else if negb (presentation_ok p) then None
    else if negb (forallb canonical_rule_ok (se_Rules Node e)) then None
    else Some (mkReplace (Some p) (Some expires) (se_ProxyValue Node e) [] false false false
                         (se_Require Node e) false true true)
  | _, _ => None
  end.

(** [validateInject]. *)
Definition validateInject (c : injectConfig) : bool := xorb (is_empty (inj_Header c)) (is_empty (inj_QueryParam c)).

(** [normalizeEntry]: a replace or an inject block, or an error. *)
Inductive mode_config := ModeReplace (c : replaceConfig) | ModeInject (c : injectConfig).
Definition normalizeEntry {Node} (e : secretEntry Node) : option mode_config :=
  if bool_decide (is_Some (se_Presentation Node e)) || bool_decide (is_Some (se_ExpiresAt Node e)) then
    ModeReplace <$> canonicalConfig e
  else
    let hasLegacy := negb (is_empty (se_ProxyValue Node e)) || negb (length (se_MatchHeaders Node e) =? 0)%nat
                     || se_MatchBody Node e || se_Require Node e in
    match hasLegacy, se_Replace Node e, se_Inject Node e with
    | false, None, Some inject => if validateInject inject then Some (ModeInject inject) else None
    | false, Some replace, None => if is_empty (rep_ProxyValue replace) then None else Some (ModeReplace replace)
    | true, None, None =>
      if is_empty (se_ProxyValue Node e) then None
      else Some (ModeReplace (mkReplace None None (se_ProxyValue Node e) (se_MatchHeaders Node e) (se_MatchBody Node e)
             false false (se_Require Node e) (se_AllowConnect Node e) (se_TLSOnly Node e) (se_ScrubResponse Node e)))
    | _, _, _ => None
    end.

Record pendingEntry := mkPendingEntry {
  pe_ProxyValue : string;
  pe_MatchHeaders : list string;
  pe_Rules : list RuleConfig;
  pe_Name : string;
  pe_SandboxID : string;
}.

Section config.
Context {Node : Type}.
(** [resolveSource] on a source block, and [text/template] on a formatter. *)
Variable resolveSource : Node -> option secretSource.
Variable template_Parse : string -> option (string -> option string).

(** The loop body of [newFromConfig]. *)
Definition resolve_entry (e : secretEntry Node) : option resolvedSecret :=
  match normalizeEntry e with
  | None => None
  | Some mode =>
    match resolveSource (se_Source Node e) with
    | None => None
    | Some src =>
      match CompileRules (map re_rule (se_Rules Node e)) with
      | Err _ => None
      | Ok rules =>
        match mode with
        | ModeInject c =>
          match (if is_empty (inj_Formatter c) then Some None else Some <$> template_Parse (inj_Formatter c)) with
          | None => None
          | Some f => Some (mkSecret None 0 src true rules "" [] false false false (inj_Require c) false false false
                                     (inj_Header c) (inj_QueryParam c) f)
          end
        | ModeReplace c =>
          match parseHeaderMatchers (rep_MatchHeaders c) with
          | Err _ => None
          | Ok ms => Some (mkSecret (rep_Presentation c) (default 0 (rep_ExpiresAt c)) src false rules
                             (rep_ProxyValue c) ms (rep_MatchBody c) (rep_MatchPath c) (rep_MatchQuery c)
                             (rep_Require c) (rep_AllowConnect c) (rep_TLSOnly c) (rep_ScrubResponse c) "" "" None)
          end
        end
      end
    end
  end.

(** [compilePending]. *)
Definition compilePending (t : pendingSlots) (e : pendingEntry) : option resolvedPending * pendingSlots :=
  if is_empty (pe_ProxyValue e) then (None, t)
  else match parseHeaderMatchers (pe_MatchHeaders e), CompileRules (pe_Rules e) with
       | Ok ms, Ok rules =>
         let '(id, t') := declarePending t (pe_ProxyValue e) in
         (Some (mkPending id (pe_ProxyValue e) ms rules (pe_Name e) (pe_SandboxID e)), t')
       | _, _ => (None, t)
       end.

Fixpoint compile_pendings (installed : gmap string resolvedSecret) (t : pendingSlots) (es : list pendingEntry)
    : option (list resolvedPending) * pendingSlots :=
  match es with
  | [] => (Some [], t)
  | e :: rest =>
    if bool_decide (is_Some (installed !! pe_ProxyValue e)) then compile_pendings installed t rest
    else match compilePending t e with
         | (None, t') => (None, t')
         | (Some p, t') =>
           match compile_pendings installed t' rest with
           | (None, t'') => (None, t'')
           | (Some ps, t'') => (Some (p :: ps), t'')
           end
         end
  end.

(** The secrets a placeholder is installed with: the last one wins. *)
Definition installed_map (secs : list resolvedSecret) : gmap string resolvedSecret :=
  fold_left (fun m sec => if injects sec then m else <[proxyValue sec := sec]> m) secs ∅.

Definition defaultPendingWait : Z := 5000000000.

(** [newFromConfig]; [wait] is the parsed [pending_wait], when it is set. *)
Definition newFromConfig (t : pendingSlots) (entries : list (secretEntry Node)) (pendings : list pendingEntry)
    (wait : option Z) : option Secrets * pendingSlots :=
  match mapM resolve_entry entries with
  | None => (None, t)
  | Some secs =>
    match (match wait with None => Some defaultPendingWait | Some d => if 0 <? d then Some d else None end) with
    | None => (None, t)
    | Some w =>
      let installed := installed_map secs in
      match compile_pendings installed t pendings with
      | (None, t') => (None, t')
      | (Some ps, t') =>
        (Some (mkSecrets secs ps w),
         fold_left (fun t '(v, sec) => installPending t v sec) (map_range installed) t')
      end
    end
  end.
End config.
End secrets.
