(* ===== verification/SecretsSafety.v ===== *)
(** * What the secrets transform guarantees

    Whose values a request can carry, when a request is refused, where a
    redeemed secret may be sent, and what the pending table promises. *)
From stdpp Require Import base gmap strings list option.
From Stdlib Require Import ZArith Lia Ascii.
From S2P Require Import Prelude GoUtf8 GoStrings GoNet Body GoHttp GoJson GoEncoding GoRegexp.
From S2P Require Import HostMatch Transform Headers ScrubPairs Secrets.
Local Open Scope string_scope.
Local Open Scope list_scope.
Local Open Scope Z_scope.

Section safety.
Context `{UnicodeTables} `{Regexp} `{MapRange}.

(** ** Requests keep their host *)

Definition same_target (s s' : State) : Prop := ReqHost (rq s') = ReqHost (rq s).

Lemma rememberScrub_target s sec v : same_target s (rememberScrub s sec v).
Proof. unfold rememberScrub, same_target. by case_match. Qed.

Lemma component_target sec p req f loc v :
  component sec p req = Ok (Some (f, loc)) -> ReqHost (f v) = ReqHost req.
Proof.
  unfold component, component_query, component_header, embedded. intros Hc.
  repeat (case_match; simplify_eq; try done).
Qed.

Lemma swapCanonical_target b a sec p tctx s locs s' :
  swapCanonical b a sec p tctx s = Some (locs, s') -> same_target s s'.
Proof.
  unfold swapCanonical. repeat case_match; intros [= <- <-] || intros ?; try done.
  unfold same_target. rewrite rememberScrub_target. simpl. by eapply component_target.
Qed.

Lemma swapBody_target req sec v : ReqHost (fst (swapBody req sec v)) = ReqHost req.
Proof. unfold swapBody. by repeat case_match. Qed.
Lemma swapPath_target req sec v : ReqHost (fst (swapPath req sec v)) = ReqHost req.
Proof. unfold swapPath. by repeat case_match. Qed.
Lemma swapQuery_target req sec v : ReqHost (fst (swapQuery req sec v)) = ReqHost req.
Proof. unfold swapQuery. by repeat case_match. Qed.
Lemma injectSecret_target req sec v req' locs :
  injectSecret req sec v = Some (req', locs) -> ReqHost req' = ReqHost req.
Proof. unfold injectSecret. by repeat case_match; intros; simplify_eq/=. Qed.

Lemma swap_everywhere_target req sec v : ReqHost (fst (swap_everywhere req sec v)) = ReqHost req.
Proof.
  unfold swap_everywhere. destruct (swapHeaders (ReqHeader req) sec v) as [h l1].
  pose proof (swapQuery_target (set_ReqHeader req h) sec v) as Hq.
  destruct (if matchQuery sec then _ else _) as [r2 l2] eqn:E2.
  assert (H2 : ReqHost r2 = ReqHost req) by (destruct (matchQuery sec); [rewrite E2 in Hq; done|by simplify_eq]).
  pose proof (swapPath_target r2 sec v) as Hp. destruct (if matchPath sec then _ else _) as [r3 l3] eqn:E3.
  assert (H3 : ReqHost r3 = ReqHost req)
    by (destruct (matchPath sec); [rewrite E3 in Hp; simpl in Hp; congruence|by simplify_eq]).
  pose proof (swapBody_target r3 sec v) as Hb. destruct (if matchBody sec then _ else _) as [r4 l4] eqn:E4.
  destruct (matchBody sec); [rewrite E4 in Hb; simpl in *; congruence|by simplify_eq].
Qed.

Lemma secret_step_target b a sec g tctx s g' s' :
  secret_step b a sec g tctx s = Next g' s' -> same_target s s'.
Proof.
  unfold secret_step. destruct (presentation sec) as [p|].
  { destruct (swapCanonical b a sec p tctx s) as [[locs s1]|] eqn:E; [|done]. intros [= _ <-].
    by eapply swapCanonical_target. }
  case_match; [by intros [= _ <-]|]. case_match; [by intros [= _ <-]|].
  assert (Ht : same_target s (ask_uncompressed sec s)) by (unfold ask_uncompressed; by case_match).
  generalize dependent (ask_uncompressed sec s). intros s1 Ht.
  destruct (src_Get (source sec)) as [v|]; [|case_match; [done|by intros [= _ <-]]].
  pose proof (rememberScrub_target s1 sec v) as Hr. unfold same_target in *. destruct (injects sec).
  - destruct (injectSecret _ sec v) as [[req locs]|] eqn:E; [|done].
    apply injectSecret_target in E. destruct locs; intros [= _ <-]; simpl; congruence.
  - pose proof (swap_everywhere_target (rq (rememberScrub s1 sec v)) sec v) as Hs.
    destruct (swap_everywhere _ sec v) as [req locs]. case_match; [done|]. intros [= _ <-]. simpl in *. congruence.
Qed.

(** ** Whose value a request can depend on *)

(** The same secret with another value behind its source. *)
Definition with_value (sec : resolvedSecret) (v : option string) : resolvedSecret :=
  mkSecret (presentation sec) (expiresAt sec) (mkSource (src_Name (source sec)) v) (injects sec) (sec_rules sec)
    (proxyValue sec) (matchHeaders sec) (matchBody sec) (matchPath sec) (matchQuery sec) (require sec)
    (allowsConnect sec) (tlsOnly sec) (scrubResponse sec) (injectHeader sec) (injectQueryParam sec) (formatter sec).

(** The host as rules see it: less its port; for a canonical secret also in
    lower case. *)
Definition host_spelling (host h : string) : Prop := h = StripPort host \/ exists port, authority host = Some (h, port).
(** No rule is for the host, or the secret is for TLS only, as every
    canonical one is, and the request came in plaintext. *)
Definition unusable (sec : resolvedSecret) (tctx : TransformContext) (host : string) : Prop :=
  (forall r h, r ∈ sec_rules sec -> host_spelling host h -> MatchesHost r h = false) \/
  ((tlsOnly sec = true \/ is_Some (presentation sec)) /\ SNI tctx = "").

Lemma MatchAnyRule_host rules req :
  (forall r, r ∈ rules -> MatchesHost r (StripPort (ReqHost req)) = false) -> MatchAnyRule rules req = false.
Proof.
  intros Hr. unfold MatchAnyRule. apply not_true_iff_false. rewrite existsb_elem. intros (r & Hin & Hm).
  unfold Rule_Matches in Hm. by rewrite (Hr r Hin) in Hm.
Qed.

Lemma unusable_scope sec tctx req : unusable sec tctx (ReqHost req) -> is_Some (presentation sec) -> canonicalScope sec tctx req = false.
Proof.
  intros Hu Hp. unfold canonicalScope. destruct (authority (ReqHost req)) as [[host port]|] eqn:Ha; [|done].
  destruct Hu as [Hr|[_ ->]]; [|done]. destruct (authority (SNI tctx)) as [[sni sp]|]; [|done].
  assert (permits sec req host = false) as ->; [|by rewrite !andb_false_r]. unfold permits.
  apply andb_false_iff. right. apply not_true_iff_false. rewrite existsb_elem. intros (r & Hin & Hm).
  by rewrite (Hr r host Hin (or_intror (ex_intro _ port Ha))) in Hm.
Qed.

Lemma unusable_step b a sec v g tctx s :
  unusable sec tctx (ReqHost (rq s)) ->
  secret_step b a (with_value sec v) g tctx s = secret_step b a sec g tctx s.
Proof.
  intros Hu. unfold secret_step. cbn [presentation with_value]. destruct (presentation sec) as [p|] eqn:Hp.
  - assert (canonicalScope sec tctx (rq s) = false) as Hc by (apply unusable_scope; [done | by rewrite Hp]).
    assert (canonicalScope (with_value sec v) tctx (rq s) = false) as Hc' by exact Hc.
    assert (component (with_value sec v) p (rq s) = component sec p (rq s)) as Hco by done.
    unfold swapCanonical. rewrite Hco, Hc, Hc'. destruct (TunnelAdmission tctx); [done|]. by destruct (component sec p (rq s)) as [[[f loc]|]|].
  - destruct Hu as [Hr|[[Ht|Hps] Hs]]; [| |by destruct Hps; congruence].
    + cbn [sec_rules with_value]. rewrite MatchAnyRule_host; [done|]. intros r Hin. apply (Hr r _ Hin). by left.
    + cbn [sec_rules with_value]. case_match; [done|]. unfold admits. cbn [tlsOnly with_value]. by rewrite Ht, Hs.
Qed.

Definition differ_unusably (tctx : TransformContext) (host : string) (sec sec' : resolvedSecret) : Prop :=
  sec' = sec \/ exists v, sec' = with_value sec v /\ unusable sec tctx host.

Lemma secret_loop_noninterference clock i l l' g tctx s :
  Forall2 (differ_unusably tctx (ReqHost (rq s))) l l' ->
  secret_loop clock i l' g tctx s = secret_loop clock i l g tctx s.
Proof.
  intros Hl. remember (ReqHost (rq s)) as host eqn:Hh. revert i g s Hh.
  induction Hl as [|sec sec' l l' Hsec _ IH]; intros i g s ->; [done|]. cbn [secret_loop].
  assert (Hst : secret_step (clock (2 * i)%nat) (clock (2 * i + 1)%nat) sec' g tctx s
              = secret_step (clock (2 * i)%nat) (clock (2 * i + 1)%nat) sec g tctx s).
  { destruct Hsec as [->|(v & -> & Hu)]; [done|]. by apply unusable_step. }
  rewrite Hst. destruct (secret_step _ _ sec g tctx s) as [g' s'|] eqn:E; [|done].
  apply IH. symmetry. by eapply secret_step_target.
Qed.

(** Waiting for pending placeholders keeps the host and the SNI. *)
Lemma waitForPending_target waits pclock i ps tctx s r tctx' s' :
  waitForPending waits pclock i ps tctx s = (r, tctx', s') -> same_target s s' /\ SNI tctx' = SNI tctx.
Proof.
  revert i tctx s. induction ps as [|p ps IH]; intros i tctx s; cbn [waitForPending]; [by intros [= _ <- <-]|].
  destruct (_ || _); [apply IH|]. destruct (waits i) as [sec| |]; [|by intros [= _ <- <-]..].
  destruct (swap_installed _ _ sec tctx s) as [[locs s1]|] eqn:E; [|by intros [= _ <- <-]].
  intros [Ht Hs]%IH. split; [|by rewrite Hs]. unfold same_target in *. rewrite Ht. clear Ht Hs. revert E. unfold swap_installed.
  destruct (presentation sec) as [pr|]; [intros E%swapCanonical_target; exact E|].
  destruct (src_Get (source sec)) as [v|]; [|done]. destruct (swapHeaders _ sec v) as [h l]. intros [= _ <-]. by rewrite rememberScrub_target.
Qed.

Lemma unusable_SNI sec tctx tctx' host : SNI tctx' = SNI tctx -> unusable sec tctx host -> unusable sec tctx' host.
Proof. unfold unusable. by intros ->. Qed.
End safety.

(** C7: A secret that does not apply to a request cannot influence it.  Take
    two configurations that differ only in the values behind secrets which,
    for this request, have no rule for its host or are for TLS only, or
    canonical, while the request came in plaintext: whatever placeholders are
    pending and whatever is installed for them meanwhile, the transform's
    result, its annotations and the request it sends on are the same. *)
Theorem secrets_noninterference `{UnicodeTables} `{Regexp} `{MapRange} waits pclock clock l l' ps w tctx s :
  Forall2 (differ_unusably tctx (ReqHost (rq s))) l l' ->
  Secrets_TransformRequest waits pclock clock (mkSecrets l' ps w) tctx s
  = Secrets_TransformRequest waits pclock clock (mkSecrets l ps w) tctx s.
Proof.
  intros Hl. unfold Secrets_TransformRequest. cbn [pending secrets].
  destruct (waitForPending waits pclock 0 ps tctx s) as [[[held|] tctx'] s'] eqn:Hw; [done|].
  apply waitForPending_target in Hw as [Ht Hs]. apply secret_loop_noninterference. rewrite Ht.
  eapply list.Forall2_impl; [exact Hl|]. intros sec sec' [->|(v & -> & Hu)]; [by left|]. right. exists v. split; [done|]. by eapply unusable_SNI.
Qed.

(** A required secret is swapped or the request is refused.  When the
    transform goes on past a required replace-mode secret whose rules match
    the request and which may be used, the value was readable and the
    placeholder was replaced somewhere, or the request is a CONNECT that carries none of
    the headers the secret is looked for in. *)
Theorem required_secret_swapped `{UnicodeTables} `{Regexp} `{MapRange} b a sec g tctx s g' s' :
  require sec = true -> presentation sec = None -> injects sec = false ->
  MatchAnyRule (sec_rules sec) (rq s) = true -> admits sec tctx = true ->
  secret_step b a sec g tctx s = Next g' s' ->
  exists v, src_Get (source sec) = Some v /\
    let s1 := rememberScrub (ask_uncompressed sec s) sec v in
    let '(req, locations) := swap_everywhere (rq s1) sec v in
    s' = with_req s1 req /\ (locations <> [] \/ allowConnectWithoutHeader req sec = true).
Proof.
  intros Hreq Hp Hi Hm Ha. unfold secret_step. rewrite Hp, Hm, Ha, Hi, Hreq. cbn [negb].
  destruct (src_Get (source sec)) as [v|]; [|done]. intros Hs. exists v. split; [done|]. cbv zeta in *.
  destruct (swap_everywhere (rq (rememberScrub (ask_uncompressed sec s) sec v)) sec v) as [req locs].
  case_bool_decide as Hl; cbn [andb] in Hs; [|injection Hs as _ <-; auto].
  destruct (allowConnectWithoutHeader req sec); [|done]. injection Hs as _ <-. auto.
Qed.

(** ** Canonical secrets stay with their host *)

Section canonical.
Context `{UnicodeTables} `{Regexp} `{MapRange}.

Lemma swapCanonical_swapped b a sec p tctx s locs s1 :
  swapCanonical b a sec p tctx s = Some (locs, s1) -> locs <> [] ->
  exists f loc v, component sec p (rq s) = Ok (Some (f, loc)) /\ src_Get (source sec) = Some v /\
    canonicalScope sec tctx (rq s) = true /\ b < expiresAt sec /\ a < expiresAt sec /\
    s1 = rememberScrub (with_req s (f v)) sec v.
Proof.
  unfold swapCanonical. case_match; [naive_solver|].
  destruct (component sec p (rq s)) as [[[f loc]|]|]; [|naive_solver..].
  destruct (canonicalScope sec tctx (rq s)); [|done]. cbn [negb orb].
  destruct (Z.ltb_spec b (expiresAt sec)); [|done]. cbn [negb].
  destruct (src_Get (source sec)) as [v|]; [|done].
  destruct (Z.ltb_spec a (expiresAt sec)); [|done]. cbn [negb orb]. case_match; [done|].
  intros [= <- <-] _. exists f, loc, v. repeat split; done.
Qed.

Lemma canonicalScope_authority sec tctx req :
  canonicalScope sec tctx req = true ->
  ReqTLS req = true /\ exists host port sniport,
    authority (ReqHost req) = Some (host, port) /\ authority (SNI tctx) = Some (host, sniport) /\
    permits sec req host = true.
Proof.
  unfold canonicalScope. destruct (authority (ReqHost req)) as [[host port]|]; [|done].
  destruct (authority (SNI tctx)) as [[sni sp]|]; [|done]. intros Hs. bool_prop.
  split; [done|]. exists host, port, sp. match goal with Hx : str_eqb sni host = true |- _ => apply str_eqb_eq in Hx; subst end.
  auto.
Qed.

Lemma ValidateFinalDestination_spec now s st sec :
  rctx s = Some st -> sec ∈ canonical st -> ValidateFinalDestination now s = true ->
  exists host port,
    authority (URLHost (ReqURL (rq s))) = Some (host, port) /\ authority (scrub_authority st) = Some (host, port) /\
    (Scheme (ReqURL (rq s)) = "https" \/ Scheme (ReqURL (rq s)) = "wss") /\
    UserInfo (ReqURL (rq s)) = None /\ now < expiresAt sec /\ permits sec (rq s) host = true.
Proof.
  intros Hr Hin. unfold ValidateFinalDestination. rewrite Hr.
  destruct (canonical st) as [|c cs] eqn:Hc; [by apply elem_of_nil in Hin|].
  destruct (authority (URLHost (ReqURL (rq s)))) as [[host port]|]; [|done].
  destruct (authority (scrub_authority st)) as [[h0 p0]|]; [|done]. intros Hv. bool_prop.
  repeat match goal with Hx : str_eqb _ _ = true |- _ => apply str_eqb_eq in Hx end. subst.
  match goal with Hf : forallb _ _ = true |- _ => rewrite forallb_forall in Hf;
    specialize (Hf sec (proj1 (list_elem_of_In _ _) Hin)) end. bool_prop.
  exists h0, p0. repeat split; try done.
  match goal with Hx : _ \/ _ |- _ => destruct Hx as [Hx|Hx]; apply str_eqb_eq in Hx; auto end.
Qed.
End canonical.

(** What later stages can do to a request: rewrite it, and remember further
    secrets, here with the hosts the canonical ones among them are redeemed
    for, in order. *)
Definition redeems `{Regexp} (sec : resolvedSecret) : bool := scrubResponse sec && negb (injects sec) && bool_decide (is_Some (presentation sec)).
Inductive goes_on `{UnicodeTables} `{Regexp} : State -> list string -> State -> Prop :=
  | go_end s : goes_on s [] s
  | go_rewritten s r hs s' : goes_on (mkReqState r (rctx s)) hs s' -> goes_on s hs s'
  | go_remembered s sec v hs s' :
      goes_on (rememberScrub s sec v) hs s' -> goes_on s (if redeems sec then ReqHost (rq s) :: hs else hs) s'.

Section later.
Context `{UnicodeTables} `{Regexp} `{MapRange}.

Lemma goes_on_trans s hs s' hs' s'' : goes_on s hs s' -> goes_on s' hs' s'' -> goes_on s (hs ++ hs') s''.
Proof.
  induction 1 as [s|s r hs s' _ IH|s sec v hs s' _ IH]; intros Hg; [done | by eapply go_rewritten, IH|].
  specialize (IH Hg). apply (go_remembered _ sec v) in IH. by destruct (redeems sec).
Qed.

(** The stages of the secrets transform are such stages, all for the host of
    the request. *)
Definition goes_on_home (s s' : State) : Prop :=
  exists hs, goes_on s hs s' /\ Forall (fun h => h = ReqHost (rq s)) hs /\ same_target s s'.
Lemma home_refl s : goes_on_home s s.
Proof. exists []. split_and!; [constructor | constructor | done]. Qed.
Lemma home_trans s s' s'' : goes_on_home s s' -> goes_on_home s' s'' -> goes_on_home s s''.
Proof.
  intros (hs & Hg & Hf & Ht) (hs' & Hg' & Hf' & Ht'). exists (hs ++ hs'). unfold same_target in *. rewrite Ht in *.
  split_and!; [by eapply goes_on_trans | by apply list.Forall_app | done].
Qed.
Lemma home_rewritten s r : ReqHost r = ReqHost (rq s) -> goes_on_home s (mkReqState r (rctx s)).
Proof. intros Hh. exists []. split_and!; [eapply go_rewritten; constructor | constructor | done]. Qed.
Lemma home_remembered s sec v : goes_on_home s (rememberScrub s sec v).
Proof.
  eexists. split; [eapply (go_remembered s sec v), go_end|]. split; [by destruct (redeems sec); repeat constructor | apply rememberScrub_target].
Qed.

Lemma home_canonical b a sec p tctx s locs s' : swapCanonical b a sec p tctx s = Some (locs, s') -> goes_on_home s s'.
Proof.
  unfold swapCanonical. destruct (TunnelAdmission tctx); [intros [= _ <-]; apply home_refl|].
  destruct (component sec p (rq s)) as [[[f loc]|]|] eqn:Hc; [|intros [= _ <-]; apply home_refl | done].
  destruct (_ || _); [done|]. destruct (src_Get (source sec)) as [v|]; [|done]. destruct (_ || _); [done|]. intros [= _ <-].
  eapply home_trans; [apply (home_rewritten s (f v)); by eapply component_target | apply home_remembered].
Qed.

Lemma home_secret_step b a sec g tctx s g' s' : secret_step b a sec g tctx s = Next g' s' -> goes_on_home s s'.
Proof.
  unfold secret_step. destruct (presentation sec) as [p|].
  { destruct (swapCanonical b a sec p tctx s) as [[locs s1]|] eqn:E; [|done]. intros [= _ <-]. by eapply home_canonical. }
  case_match; [intros [= _ <-]; apply home_refl|]. case_match; [intros [= _ <-]; apply home_refl|].
  assert (goes_on_home s (ask_uncompressed sec s)) as Ht by (unfold ask_uncompressed; destruct (scrubResponse sec); [by apply home_rewritten | apply home_refl]).
  generalize dependent (ask_uncompressed sec s). intros s1 Ht.
  destruct (src_Get (source sec)) as [v|]; [|case_match; [done | by intros [= _ <-]]].
  pose proof (home_trans _ _ _ Ht (home_remembered s1 sec v)) as Hr. generalize dependent (rememberScrub s1 sec v). intros s2 Hr.
  destruct (injects sec).
  - destruct (injectSecret _ sec v) as [[req locs]|] eqn:E; [|done]. apply injectSecret_target in E.
    destruct locs; intros [= _ <-]; (eapply home_trans; [exact Hr | by apply home_rewritten]).
  - pose proof (swap_everywhere_target (rq s2) sec v) as Hs. destruct (swap_everywhere _ sec v) as [req locs].
    case_match; [done|]. intros [= _ <-]. eapply home_trans; [exact Hr | by apply home_rewritten].
Qed.

Lemma home_secret_loop clock i l g tctx s tctx' s' :
  secret_loop clock i l g tctx s = (Ok continue_result, tctx', s') -> goes_on_home s s'.
Proof.
  revert i g s. induction l as [|sec l IH]; intros i g s; cbn [secret_loop]; [intros [= _ <-]; apply home_refl|].
  destruct (secret_step _ _ sec g tctx s) as [g1 s1|r c s1] eqn:E.
  - intros Hl%IH. apply home_secret_step in E. by eapply home_trans.
  - revert E. unfold secret_step. by repeat case_match; intros [= <- <- <-].
Qed.

Lemma redeemed_kept sec h s hs s' :
  goes_on s hs s' -> (exists st, rctx s = Some st /\ sec ∈ canonical st /\ scrub_authority st = h) ->
  exists st, rctx s' = Some st /\ sec ∈ canonical st /\ scrub_authority st = List.last hs h.
Proof.
  intros Hg. revert h. induction Hg as [s|s r hs s' _ IH|s sec' v hs s' _ IH]; intros h Hst; [done | by apply IH|].
  destruct Hst as (st & Hr & Hin & Ha). unfold redeems in *. unfold rememberScrub in IH. rewrite Hr in IH. cbn [default] in IH.
  destruct (scrubResponse sec'), (injects sec'); cbn [negb orb andb rctx] in *; [by apply IH; eauto| |by apply IH; eauto..].
  destruct (presentation sec') as [p|] eqn:Hp.
  - rewrite bool_decide_true by eauto. destruct (IH (ReqHost (rq s))) as (st' & Hr' & Hin' & Ha').
    { eexists. split; [done|]. split; [cbn; set_solver | done]. }
    exists st'. split_and!; [done | done|]. rewrite Ha'. clear. revert h. induction hs as [|x hs IH] using rev_ind; intros h; [done|].
    rewrite app_comm_cons. by rewrite !last_last.
  - rewrite bool_decide_false by by intros []. apply IH. eexists. by split_and!.
Qed.
End later.

(** A secret as the configuration makes it: a replace block in the YAML has
    no presentation of its own. *)
Definition yaml_entry {Node} (e : secretEntry Node) : Prop :=
  forall r, se_Replace Node e = Some r -> rep_Presentation r = None.

Lemma canonical_resolved `{UnicodeTables} `{Regexp} {Node} resolveSource template_Parse (e : secretEntry Node) sec p :
  yaml_entry e -> resolve_entry resolveSource template_Parse e = Some sec -> presentation sec = Some p ->
  scrubResponse sec = true /\ injects sec = false.
Proof.
  intros Hy. unfold resolve_entry. destruct (normalizeEntry e) as [mode|] eqn:Hn; [|done].
  destruct (resolveSource _) as [src|]; [|done]. destruct (CompileRules _) as [rules|]; [|done]. destruct mode as [c|c].
  2:{ destruct (if is_empty _ then _ else _); [|done]. by intros [= <-]. }
  destruct (parseHeaderMatchers _) as [ms|]; [|done]. intros [= <-]. cbn. intros Hp. split; [|done]. revert Hn. unfold normalizeEntry.
  destruct (_ || _).
  - destruct (canonicalConfig e) as [c'|] eqn:Hc; [|done]. intros [= ->]. revert Hc. unfold canonicalConfig.
    destruct (se_Presentation Node e), (se_ExpiresAt Node e); try done. by repeat case_match; intros [= <-].
  - repeat case_match; intros [= <-]; try done. by rewrite (Hy r) in Hp.
Qed.

(** C6: A redeemed canonical secret only goes where it was redeemed for.  When
    a canonical secret was written into a request, the request had come over
    TLS with the SNI of its own authority.  Whatever later stages do to the
    request, further secrets included, a send that passes
    [ValidateFinalDestination] goes over https or wss, without userinfo, by
    a method and path this secret's rules permit for the host it goes to,
    before this secret expires; and it goes to the authority the last
    canonical secret was redeemed for, which is this secret's own unless a
    stage changed the request's Host before a later one was redeemed. *)
Theorem canonical_secret_sent_home `{UnicodeTables} `{Regexp} `{MapRange} {Node} resolveSource template_Parse (e : secretEntry Node)
    b a sec p tctx s locs s1 hs s2 now :
  yaml_entry e -> resolve_entry resolveSource template_Parse e = Some sec -> presentation sec = Some p ->
  swapCanonical b a sec p tctx s = Some (locs, s1) -> locs <> [] ->
  goes_on s1 hs s2 -> ValidateFinalDestination now s2 = true ->
  ReqTLS (rq s) = true /\
  (exists host port sniport, authority (ReqHost (rq s)) = Some (host, port) /\ authority (SNI tctx) = Some (host, sniport)) /\
  exists host port,
    authority (List.last hs (ReqHost (rq s))) = Some (host, port) /\ authority (URLHost (ReqURL (rq s2))) = Some (host, port) /\
    (Forall (fun h => h = ReqHost (rq s)) hs -> authority (ReqHost (rq s)) = Some (host, port)) /\
    (Scheme (ReqURL (rq s2)) = "https" \/ Scheme (ReqURL (rq s2)) = "wss") /\
    UserInfo (ReqURL (rq s2)) = None /\ now < expiresAt sec /\ permits sec (rq s2) host = true.
Proof.
  intros Hy He Hp Hs Hne Hg Hv. destruct (canonical_resolved _ _ _ _ _ Hy He Hp) as [Hsc Hi].
  destruct (swapCanonical_swapped _ _ _ _ _ _ _ _ Hs Hne) as (f & loc & v & Hcomp & _ & Hscope & _ & _ & ->).
  destruct (canonicalScope_authority _ _ _ Hscope) as (Htls & host & port & sp & Ha & Hsni & _). split; [done|]. split; [eauto|].
  destruct (redeemed_kept sec (ReqHost (rq s)) _ _ _ Hg) as (st & Hr & Hin & Hau).
  { unfold rememberScrub. rewrite Hsc, Hi, Hp. eexists. split; [done|]. cbn. split; [set_solver | by eapply component_target]. }
  destruct (ValidateFinalDestination_spec now s2 st sec Hr Hin Hv) as (h & pt & Hu & Hsa & Hsch & Hui & Hexp & Hperm).
  rewrite Hau in Hsa. exists h, pt. split_and!; try done. intros Hf. rewrite <- Hsa. f_equal. clear -Hf.
  induction hs as [|x hs IH] using rev_ind; [done|]. rewrite last_last. apply list.Forall_app in Hf as [_ Hx]. by inversion Hx.
Qed.

(** ** Pending placeholders *)


(** An installed pending secret ignores [tls_only].  [waitForPending]
    swaps the secret a placeholder was installed with whether or not the
    secret may be used for the request: the same secret on the same plaintext
    request is skipped by the main loop, which keeps the placeholder, as
    the comment on [tlsOnly] promises. *)
Theorem pending_ignores_tls_only `{UnicodeTables} `{Regexp} `{MapRange} b a sec v tctx s g :
  presentation sec = None -> src_Get (source sec) = Some v ->
  tlsOnly sec = true -> SNI tctx = "" ->
  (exists g', secret_step b a sec g tctx s = Next g' s) /\
  exists s', swap_installed b a sec tctx s = Some (snd (swapHeaders (ReqHeader (rq s)) sec v), s') /\
    s' = rememberScrub (with_req s (set_ReqHeader (rq s) (fst (swapHeaders (ReqHeader (rq s)) sec v)))) sec v.
Proof.
  intros Hp Hg Ht Hs. split.
  - unfold secret_step, admits. rewrite Hp, Ht, Hs. cbn. case_match; eauto.
  - unfold swap_installed. rewrite Hp, Hg. destruct (swapHeaders (ReqHeader (rq s)) sec v). eauto.
Qed.

(** Looking for an absent placeholder leaves the body at its end. *)
Lemma swapBody_absent `{UnicodeTables} `{Regexp} `{MapRange} req sec v d :
  BufferedBody.view (ReqBody req) = Some (d, None) ->
  Contains (string_of_bytes (drop (BufferedBody.pos (ReqBody req)) d)) (proxyValue sec) = false ->
  (BufferedBody.pos (ReqBody req) <= length d)%nat ->
  exists b, swapBody req sec v = (set_ReqBody req b, []) /\
    BufferedBody.view b = Some (d, None) /\ BufferedBody.pos b = length d.
Proof.
  intros (b1 & Hb & Hd & Hp1 & Ho & Hv)%BufferedBody.buffer_view Hc Hle.
  unfold swapBody, BufferedBody.ReadAll. rewrite Hb, Hd, Hp1, Hc. cbn [negb].
  eexists. split; [done|]. unfold BufferedBody.view in *. cbn. rewrite Ho in *. split; [congruence|lia].
Qed.

Lemma Contains_empty sub : sub <> "" -> Contains "" sub = false.
Proof.
  intros Hne. unfold Contains. apply bool_decide_eq_false_2. destruct sub; [done|]. cbn. by intros [x ?].
Qed.

(** Only the first body secret is looked for.  [swapBody] reads the body
    to its end and leaves it there when the placeholder is absent, so a second
    secret with [match_body] sees an empty body: its placeholder stays in the
    bytes that are sent, and nothing is recorded as swapped. *)
Theorem second_body_secret_missed `{UnicodeTables} `{Regexp} `{MapRange} req sec1 sec2 v1 v2 d :
  BufferedBody.pos (ReqBody req) = 0%nat -> BufferedBody.view (ReqBody req) = Some (d, None) ->
  Contains (string_of_bytes d) (proxyValue sec1) = false -> proxyValue sec2 <> "" ->
  let '(req1, l1) := swapBody req sec1 v1 in
  let '(req2, l2) := swapBody req1 sec2 v2 in
  l1 = [] /\ l2 = [] /\ BufferedBody.view (ReqBody req2) = Some (d, None).
Proof.
  intros Hp Hv Hc Hne.
  destruct (swapBody_absent req sec1 v1 d Hv) as (b1 & -> & Hv1 & Hp1); [by rewrite Hp|lia|].
  destruct (swapBody_absent (set_ReqBody req b1) sec2 v2 d Hv1) as (b2 & -> & Hv2 & _); [|cbn; lia|done].
  cbn [ReqBody set_ReqBody]. rewrite Hp1, drop_all. by apply Contains_empty.
Qed.

(** ** The table of pending slots *)

Section slots.
Context `{Regexp}.

(** The table as reloads change it, with the slots handed to waiters: the
    placeholder each slot was declared for. *)
Inductive slots_reachable : pendingSlots -> gmap nat string -> Prop :=
  | slots_init : slots_reachable (mkSlots ∅ ∅ 0) ∅
  | slots_declare t owner v id t' :
      slots_reachable t owner -> declarePending t v = (id, t') -> slots_reachable t' (<[id := v]> owner)
  | slots_install t owner sec :
      slots_reachable t owner -> slots_reachable (installPending t (proxyValue sec) sec) owner.

Definition slots_inv (t : pendingSlots) (owner : gmap nat string) : Prop :=
  (forall v id, byValue t !! v = Some id -> owner !! id = Some v) /\
  (forall id sec, resolved t !! id = Some sec -> owner !! id = Some (proxyValue sec)) /\
  (forall id, is_Some (owner !! id) -> (id < next_slot t)%nat).

Lemma slots_inv_declare t owner v id t' :
  slots_inv t owner -> declarePending t v = (id, t') -> slots_inv t' (<[id := v]> owner).
Proof.
  intros (Hb & Hr & Hn). unfold declarePending.
  assert (Hfresh : owner !! next_slot t = None).
  { apply eq_None_not_Some. intros Hs%Hn. lia. }
  assert (Hnew : slots_inv (mkSlots (<[v := next_slot t]> (byValue t)) (resolved t) (S (next_slot t)))
                   (<[next_slot t := v]> owner)).
  { split; [|split]; cbn.
    - intros v' id'. rewrite !lookup_insert. repeat case_decide; simplify_eq; naive_solver.
    - intros id' sec Hs. rewrite lookup_insert. apply Hr in Hs. case_decide; [congruence|done].
    - intros id'. rewrite lookup_insert. case_decide; [lia|]. intros ?%Hn. lia. }
  destruct (byValue t !! v) as [id0|] eqn:E; [|by intros [= <- <-]].
  destruct (resolved t !! id0) eqn:E2; [by intros [= <- <-]|]. intros [= <- <-].
  rewrite insert_id by auto. done.
Qed.

Lemma slots_inv_install t owner sec :
  slots_inv t owner -> slots_inv (installPending t (proxyValue sec) sec) owner.
Proof.
  intros (Hb & Hr & Hn). unfold installPending. destruct (byValue t !! proxyValue sec) as [id|] eqn:E; [|done].
  destruct (resolved t !! id) eqn:E2; [done|]. split; [done|]. split; [|done]. cbn.
  intros id' sec'. rewrite lookup_insert. case_decide; [|apply Hr]. intros [= <-]. subst. by apply Hb.
Qed.

Lemma slots_reachable_inv t owner : slots_reachable t owner -> slots_inv t owner.
Proof.
  induction 1 as [|t owner v id t' _ IH Hd|t owner sec _ IH].
  - split; [|split]; cbn; [done|done|intros id [x Hx]; done].
  - by eapply slots_inv_declare.
  - by apply slots_inv_install.
Qed.
End slots.

(** A waiter is released with its own secret.  In every table that
    declarations and installs can reach, a slot declared for a placeholder is
    only ever resolved with a secret for that placeholder, and once resolved,
    no later declaration or install changes it. *)
Theorem pending_slot_own_secret `{Regexp} t owner id v sec :
  slots_reachable t owner -> owner !! id = Some v -> resolved t !! id = Some sec ->
  proxyValue sec = v /\
  (forall v' id' t', declarePending t v' = (id', t') -> id' <> id /\ resolved t' !! id = Some sec) /\
  (forall sec', resolved (installPending t (proxyValue sec') sec') !! id = Some sec).
Proof.
  intros Hr Ho Hs. destruct (slots_reachable_inv _ _ Hr) as (Hb & Hres & Hn).
  assert (Hlt : (id < next_slot t)%nat) by (apply Hn; eauto).
  split; [apply Hres in Hs; congruence|]. split.
  - intros v' id' t'. unfold declarePending. destruct (byValue t !! v') as [id0|] eqn:E.
    + destruct (resolved t !! id0) eqn:E2; intros [= <- <-]; (split; [intros <-|done]); [lia|congruence].
    + intros [= <- <-]. split; [lia|done].
  - intros sec'. unfold installPending. destruct (byValue t !! proxyValue sec') as [id0|] eqn:E; [|done].
    destruct (resolved t !! id0) eqn:E2; [done|]. cbn. rewrite lookup_insert_ne; [done|]. intros ->. congruence.
Qed.

(** ** Examples *)

Section examples.
#[local] Existing Instance ascii_tables.
#[local] Existing Instance literal_regexp.
#[local] Existing Instance default_range.

Definition api_rules : list Rule :=
  match CompileRules [mkRuleConfig "api.test" "" [] [] []] with Ok rs => rs | Err _ => [] end.
Definition example_secret (value : option string) (ph : string) (body tls : bool) : resolvedSecret :=
  mkSecret None 0 (mkSource "KEY" value) false api_rules ph [] body false false true false tls false "" "" None.
Definition secret_request (host auth body : string) : State :=
  mkReqState (mkRequest "POST" host (mkURL "https" None "" "/v1" "" "") {["Authorization" := [auth]]}
                (BufferedBody.NewBufferedBody (Some (mkReader (bytes_of_string body) None)) 0) 0 true) None.
Definition plain_ctx : TransformContext := mkContext "" ModeMITM None false None None.

(** A pending entry is waited for and installed meanwhile; of the two secrets
    after it, one has no rule for the host and one is for TLS only. *)
Lemma secrets_noninterference_witness :
  let other := example_secret (Some "sk") "other" false false in
  let tls v := example_secret v "ph" false true in
  let l v := [tls v; mkSecret None 0 (mkSource "KEY" v) false [] "ph" [] false false false false false false false "" "" None] in
  let ps := [mkPending 0 "other" [] api_rules "KEY" ""] in
  let run v := Secrets_TransformRequest (fun _ => Installed other) (fun _ => 0) (fun _ => 0) (mkSecrets (l v) ps 0) plain_ctx
                 (secret_request "api.test" "Bearer ph other" "") in
  run (Some "b") = run (Some "a") /\
  header_Get (ReqHeader (rq (run (Some "a")).2)) "Authorization" = "Bearer ph sk".
Proof.
  intros other tls l ps run. split; [|vm_compute; reflexivity].
  apply (secrets_noninterference (fun _ => Installed other) (fun _ => 0) (fun _ => 0) (l (Some "a")) (l (Some "b")) ps 0
           plain_ctx (secret_request "api.test" "Bearer ph other" "")).
  constructor; [|constructor; [|constructor]]; right; exists (Some "b"); (split; [reflexivity|]).
  - right. split; [left; reflexivity | reflexivity].
  - left. intros r h Hr. apply elem_of_nil in Hr as [].
Defined.

Lemma required_secret_swapped_witness :
  let s := secret_request "api.test" "Bearer ph" "" in
  let sec := example_secret (Some "sk") "ph" false false in
  let g0 := mkGathered [] [] [] [] in
  exists g' s', secret_step 0 0 sec g0 plain_ctx s = Next g' s' /\
    exists v, src_Get (source sec) = Some v /\
    let s1 := rememberScrub (ask_uncompressed sec s) sec v in
    let '(req, locations) := swap_everywhere (rq s1) sec v in
    s' = with_req s1 req /\ (locations <> [] \/ allowConnectWithoutHeader req sec = true).
Proof.
  intros s sec g0. destruct (secret_step 0 0 sec g0 plain_ctx s) as [g' s'|r c s'] eqn:E; [|vm_compute in E; discriminate].
  exists g', s'. split; [reflexivity|].
  apply (required_secret_swapped 0 0 sec g0 plain_ctx s g' s'); [reflexivity..|exact E].
Defined.


(** On a plaintext request the main loop keeps the placeholder, and an
    installed pending secret is written into the header. *)
Lemma pending_ignores_tls_only_witness :
  let s := secret_request "api.test" "Bearer ph" "" in
  let sec := example_secret (Some "sk") "ph" false true in
  (exists g', secret_step 0 0 sec (mkGathered [] [] [] []) plain_ctx s = Next g' s) /\
  exists s', swap_installed 0 0 sec plain_ctx s = Some (["header:Authorization"], s') /\
    header_Get (ReqHeader (rq s')) "Authorization" = "Bearer sk".
Proof.
  intros s sec.
  destruct (pending_ignores_tls_only 0 0 sec "sk" plain_ctx s (mkGathered [] [] [] [])) as [Hn (s' & Hs & He)];
    [reflexivity..|].
  split; [exact Hn|]. exists s'. split; [exact Hs|]. rewrite He. vm_compute. reflexivity.
Defined.

Lemma second_body_secret_missed_witness :
  let req := rq (secret_request "api.test" "" "token=two") in
  let '(req1, l1) := swapBody req (example_secret (Some "s1") "one" true false) "s1" in
  let '(req2, l2) := swapBody req1 (example_secret (Some "s2") "two" true false) "s2" in
  l1 = [] /\ l2 = [] /\ BufferedBody.view (ReqBody req2) = Some (bytes_of_string "token=two", None).
Proof.
  exact (second_body_secret_missed (rq (secret_request "api.test" "" "token=two"))
           (example_secret (Some "s1") "one" true false) (example_secret (Some "s2") "two" true false) "s1" "s2"
           (bytes_of_string "token=two") eq_refl eq_refl eq_refl ltac:(discriminate)).
Defined.

Lemma pending_slot_own_secret_witness :
  let sec := example_secret (Some "sk") "ph" false false in
  let t := installPending (snd (declarePending (mkSlots ∅ ∅ 0) "ph")) "ph" sec in
  resolved t !! 0%nat = Some sec /\ proxyValue sec = "ph".
Proof.
  intros sec t. split; [reflexivity|].
  destruct (pending_slot_own_secret t {[0%nat := "ph"]} 0 "ph" sec) as [He _]; [|reflexivity|reflexivity|exact He].
  apply (slots_install _ _ sec). eapply (slots_declare (mkSlots ∅ ∅ 0) ∅); [constructor|reflexivity].
Defined.

Definition canonical_entry : secretEntry string :=
  mkEntry string (Some (mkPresentation "bearer" "" "")) (Some 100) "KEY" [mkRuleEntry (mkRuleConfig "api.test" "" [] [] []) false false]
    None None "ph" [] false false false false false.
Definition canonical_example : resolvedSecret :=
  mkSecret (Some (mkPresentation "bearer" "" "")) 100 (mkSource "KEY" (Some "sk")) false api_rules "ph" []
    false false false false false true true "" "" None.
Definition tls_ctx : TransformContext := mkContext "api.test" ModeMITM None false None None.
Definition routed (s : State) : State :=
  with_req s (set_ReqURL (rq s) (mkURL "https" None "api.test:443" (Path (ReqURL (rq s))) "" "")).
(** After the canonical secret another one is remembered, and the request is
    rewritten for its upstream. *)
Definition scrubbed_secret : resolvedSecret :=
  mkSecret None 0 (mkSource "OTHER" (Some "s2")) false api_rules "p2" [] false false false false false false true "" "" None.
Definition later_stages (s : State) : State := routed (rememberScrub s scrubbed_secret "s2").

Lemma canonical_secret_sent_home_witness :
  let s := secret_request "api.test" "Bearer ph" "" in
  exists s1, swapCanonical 5 6 canonical_example (mkPresentation "bearer" "" "") tls_ctx s
               = Some (["header:Authorization"], s1) /\
    exists host port, authority (ReqHost (rq s)) = Some (host, port) /\
      authority (URLHost (ReqURL (rq (later_stages s1)))) = Some (host, port).
Proof.
  intros s.
  destruct (swapCanonical 5 6 canonical_example (mkPresentation "bearer" "" "") tls_ctx s) as [[locs s1]|] eqn:E;
    [|vm_compute in E; discriminate].
  assert (Hl : locs = ["header:Authorization"]) by (vm_compute in E; congruence).
  assert (Hv : ValidateFinalDestination 7 (later_stages s1) = true).
  { vm_compute in E. injection E as <- <-. vm_compute. reflexivity. }
  exists s1. split; [by rewrite Hl|].
  destruct (canonical_secret_sent_home (fun n => Some (mkSource n (Some "sk"))) (fun _ => None) canonical_entry
              5 6 canonical_example (mkPresentation "bearer" "" "") tls_ctx s locs s1 [] (later_stages s1) 7) as (_ & _ & host & port & Ha & Hu & _).
  { intros r Hr. discriminate Hr. }
  { vm_compute. reflexivity. }
  { reflexivity. }
  { exact E. }
  { by rewrite Hl. }
  { eapply (go_remembered s1 scrubbed_secret "s2" []), go_rewritten, go_end. }
  { exact Hv. }
  exists host, port. split; [exact Ha|exact Hu].
Defined.
End examples.
