(* ===== verification/ProxySend.v ===== *)
(** * The send boundary (src/internal/proxy/private_ip.go, RoundTrip)

    Every request, replays included, leaves through [RoundTrip]: it rechecks
    the destination of redeemed secrets, and chooses between the shared
    transport, whose dials the deny list guards, and a direct transport
    whose dials ask the pipeline for its consent. *)
From stdpp Require Import base gmap strings list option.
From Stdlib Require Import ZArith.
From S2P Require Import Prelude GoUtf8 GoStrings GoNet Body GoHttp GoJson GoRegexp.
From S2P Require Import HostMatch Transform DnsGuard PrivateConn Secrets SecretsSafety.
Local Open Scope string_scope.
Local Open Scope list_scope.

Inductive send :=
  | SendRefused            (* an error, nothing was sent *)
  | SendShared             (* the shared transport *)
  | SendDirect.            (* a direct transport over [dialPrivate] *)

Section send.
Context `{UnicodeTables} `{Regexp} `{MapRange}.

(** [RoundTrip]; [upstream] is the transport's proxy function on the request:
    none, or its result. *)
Definition RoundTrip (now : Z) (upstream : option (result string (option string)))
    (p : Pipeline (option requestScrubs)) (s : State) : send :=
  if negb (ValidateFinalDestination now s) then SendRefused
  else match PrivateIPPermission p s with
       | None => SendShared
       | Some _ =>
         match upstream with
         | None | Some (Ok None) => SendDirect
         | Some (Err _) | Some (Ok (Some _)) => SendRefused
         end
       end.

(** A request goes through an upstream proxy only without private exceptions,
    and nothing is sent that fails the destination check. *)
Lemma RoundTrip_sends now upstream p s :
  RoundTrip now upstream p s <> SendRefused ->
  ValidateFinalDestination now s = true /\
  (RoundTrip now upstream p s = SendDirect <-> is_Some (PrivateIPPermission p s)).
Proof.
  unfold RoundTrip. destruct (ValidateFinalDestination now s); [|done]. simpl.
  destruct (PrivateIPPermission p s) as [f|] eqn:E; [|split; [done|]; split; [done|by intros [? ?]]].
  repeat case_match; try done; intros _; (split; [done|]); split; eauto.
Qed.
End send.
