(* ===== verification/Utf8Codec.v ===== *)
(** * UTF-8 is a code

    [DecodeRune] and [EncodeRune] of [unicode/utf8] are inverse: every scalar
    value is read back from its encoding, whatever follows, and what is read
    from a valid sequence is written with the same bytes. *)
From stdpp Require Import base list option.
From Stdlib Require Import ZArith Lia.
From S2P Require Import Prelude GoUtf8.
Local Open Scope Z_scope.

(** A scalar value: a code point that is not a surrogate. *)
Definition scalar (r : Z) : Prop := 0 <= r <= MaxRune /\ ~ (0xD800 <= r <= 0xDFFF).

(** ** Bit fields as sums *)

Lemma lor_shiftl_sum a k y : 0 <= k -> 0 <= y < 2 ^ k -> Z.lor (Z.shiftl a k) y = a * 2 ^ k + y.
Proof.
  intros Hk Hy. rewrite Z.shiftl_mul_pow2 by done.
  rewrite <- Z.add_lor_land. replace (Z.land (a * 2 ^ k) y) with 0; [lia|].
  symmetry. apply Z.bits_inj'. intros n Hn. rewrite Z.land_spec, Z.bits_0.
  destruct (Z.lt_ge_cases n k) as [Hlt|Hge].
  - by rewrite Z.mul_pow2_bits_low by done.
  - replace (Z.testbit y n) with false; [apply andb_false_r|]. symmetry.
    destruct (Z.eq_dec y 0) as [->|]; [apply Z.bits_0|].
    apply Z.bits_above_log2; [lia|]. apply Z.log2_lt_pow2; [lia|].
    eapply Z.lt_le_trans; [apply Hy|]. by apply Z.pow_le_mono_r.
Qed.

Lemma land_ones_mod a k m : 0 <= k -> m = Z.ones k -> Z.land a m = a mod 2 ^ k.
Proof. intros Hk ->. by apply Z.land_ones. Qed.

(** The three multi-byte readings of [DecodeRune], and the leading and
    continuation bytes of [EncodeRune], as arithmetic. *)
Lemma two_bytes b0 b1 :
  Z.lor (Z.shiftl (Z.land b0 0x1F) 6) (Z.land b1 0x3F) = b0 mod 32 * 64 + b1 mod 64.
Proof.
  rewrite (land_ones_mod b0 5), (land_ones_mod b1 6) by done.
  rewrite lor_shiftl_sum; [done | done | apply Z.mod_pos_bound; lia].
Qed.

Lemma three_bytes b0 b1 b2 :
  Z.lor (Z.shiftl (Z.land b0 0x0F) 12) (Z.lor (Z.shiftl (Z.land b1 0x3F) 6) (Z.land b2 0x3F))
  = b0 mod 16 * 4096 + b1 mod 64 * 64 + b2 mod 64.
Proof.
  rewrite (land_ones_mod b0 4), (land_ones_mod b1 6), (land_ones_mod b2 6) by done.
  pose proof (Z.mod_pos_bound b1 64 ltac:(lia)). pose proof (Z.mod_pos_bound b2 64 ltac:(lia)).
  change (2 ^ 6) with 64. change (2 ^ 4) with 16.
  rewrite (lor_shiftl_sum (b1 mod 64) 6) by (change (2 ^ 6) with 64; lia). change (2 ^ 6) with 64.
  rewrite lor_shiftl_sum by (change (2 ^ 12) with 4096; lia). change (2 ^ 12) with 4096. lia.
Qed.

Lemma four_bytes b0 b1 b2 b3 :
  Z.lor (Z.shiftl (Z.land b0 0x07) 18)
    (Z.lor (Z.shiftl (Z.land b1 0x3F) 12) (Z.lor (Z.shiftl (Z.land b2 0x3F) 6) (Z.land b3 0x3F)))
  = b0 mod 8 * 262144 + b1 mod 64 * 4096 + b2 mod 64 * 64 + b3 mod 64.
Proof.
  rewrite (land_ones_mod b0 3), (land_ones_mod b1 6), (land_ones_mod b2 6), (land_ones_mod b3 6) by done.
  pose proof (Z.mod_pos_bound b1 64 ltac:(lia)). pose proof (Z.mod_pos_bound b2 64 ltac:(lia)).
  pose proof (Z.mod_pos_bound b3 64 ltac:(lia)).
  change (2 ^ 6) with 64. change (2 ^ 3) with 8.
  rewrite (lor_shiftl_sum (b2 mod 64) 6) by (change (2 ^ 6) with 64; lia). change (2 ^ 6) with 64.
  rewrite (lor_shiftl_sum (b1 mod 64) 12) by (change (2 ^ 12) with 4096; lia). change (2 ^ 12) with 4096.
  rewrite lor_shiftl_sum by (change (2 ^ 18) with 262144; lia). change (2 ^ 18) with 262144. lia.
Qed.

Lemma cont_byte r s : 0 <= s -> Z.lor 0x80 (Z.land (Z.shiftr r s) 0x3F) = 128 + (r / 2 ^ s) mod 64.
Proof.
  intros Hs. rewrite (land_ones_mod _ 6), Z.shiftr_div_pow2 by done. change 0x80 with (Z.shiftl 2 6).
  rewrite lor_shiftl_sum; [done | done | apply Z.mod_pos_bound; lia].
Qed.

Lemma lead_byte tag k m r s : 0 <= k -> 0 <= s -> tag = Z.shiftl m k -> 0 <= r / 2 ^ s < 2 ^ k ->
  Z.lor tag (Z.shiftr r s) = tag + r / 2 ^ s.
Proof.
  intros Hk Hs -> Hr. rewrite Z.shiftr_div_pow2 by done. rewrite lor_shiftl_sum by done.
  by rewrite Z.shiftl_mul_pow2.
Qed.

(** [lia] with division and remainder by constants. *)
Ltac div_lia := Z.div_mod_to_equations; lia.

(** ** Encodings *)

Lemma EncodeRune_2 r : 0x80 <= r <= 0x7FF -> EncodeRune r = [192 + r / 64; 128 + r mod 64].
Proof.
  intros Hr. unfold EncodeRune. rewrite !cont_byte by lia. change (2 ^ 0) with 1. rewrite Z.div_1_r.
  rewrite (lead_byte 0xC0 6 3 r 6) by (done || (change (2 ^ 6) with 64; div_lia)).
  z_cases.
Qed.

Lemma EncodeRune_3 r : 0x800 <= r <= 0xFFFF -> ~ (0xD800 <= r <= 0xDFFF) ->
  EncodeRune r = [224 + r / 4096; 128 + (r / 64) mod 64; 128 + r mod 64].
Proof.
  intros Hr Hs. unfold EncodeRune. rewrite !cont_byte by lia. change (2 ^ 0) with 1. rewrite Z.div_1_r.
  rewrite (lead_byte 0xE0 5 7 r 12) by (done || (change (2 ^ 12) with 4096; change (2 ^ 5) with 32; div_lia)).
  unfold in_range, MaxRune. z_cases.
Qed.

Lemma EncodeRune_4 r : 0x10000 <= r <= MaxRune ->
  EncodeRune r = [240 + r / 262144; 128 + (r / 4096) mod 64; 128 + (r / 64) mod 64; 128 + r mod 64].
Proof.
  unfold MaxRune. intros Hr. unfold EncodeRune. rewrite !cont_byte by lia. change (2 ^ 0) with 1. rewrite Z.div_1_r.
  rewrite (lead_byte 0xF0 4 15 r 18) by (done || (change (2 ^ 18) with 262144; change (2 ^ 4) with 16; div_lia)).
  unfold in_range, MaxRune. z_cases.
Qed.

(** ** Reading an encoding back *)

Lemma mod_tag k m t q : 0 < m -> t = k * m -> 0 <= q < m -> (t + q) mod m = q.
Proof. intros Hm -> Hq. rewrite Z.add_comm, Z.mod_add by lia. by apply Z.mod_small. Qed.

(** The digits of a code point in base 64. *)
Lemma base64_digits r : 0 <= r ->
  r = r / 64 * 64 + r mod 64 /\ 0 <= r mod 64 < 64 /\
  r / 64 = r / 4096 * 64 + (r / 64) mod 64 /\ 0 <= (r / 64) mod 64 < 64 /\
  r / 4096 = r / 262144 * 64 + (r / 4096) mod 64 /\ 0 <= (r / 4096) mod 64 < 64.
Proof.
  intros Hr.
  assert (r / 4096 = r / 64 / 64) as E1 by (rewrite Z.div_div by lia; done).
  assert (r / 262144 = r / 4096 / 64) as E2 by (rewrite Z.div_div by lia; done).
  rewrite E2. rewrite E1 at 1. repeat split; try (apply Z.mod_pos_bound; lia);
    rewrite (Z.mul_comm _ 64); apply Z.div_mod; lia.
Qed.

(** The leading bytes of the longer sequences and what they ask of the second
    byte. *)
Lemma utf8_lead_2 b : 0xC2 <= b <= 0xDF -> utf8_lead b = Some (2%nat, 0x80, 0xBF).
Proof.
  intros Hb. unfold utf8_lead, in_range.
  by rewrite (proj2 (Z.ltb_ge b 0x80)), (proj2 (Z.leb_le 0xC2 b)), (proj2 (Z.leb_le b 0xDF)) by lia.
Qed.

Lemma in_range_true lo hi b : lo <= b <= hi -> in_range lo hi b = true.
Proof. intros [? ?]. unfold in_range. by rewrite (proj2 (Z.leb_le _ _)), (proj2 (Z.leb_le _ _)). Qed.

Lemma utf8_lead_3 q b1 : 0 <= q < 16 -> 0x80 <= b1 <= 0xBF -> (q = 0 -> 0xA0 <= b1) -> (q = 13 -> b1 <= 0x9F) ->
  exists lo hi, utf8_lead (224 + q) = Some (3%nat, lo, hi) /\ in_range lo hi b1 = true.
Proof.
  intros Hq Hb H0 H13.
  assert (q ∈ List.map Z.of_nat (seq 0 16)) as Hin.
  { apply list_elem_of_In, in_map_iff. exists (Z.to_nat q). rewrite in_seq. lia. }
  simpl in Hin. repeat (apply elem_of_cons in Hin as [->|Hin]; [do 2 eexists; split; [reflexivity|apply in_range_true; lia]|]).
  by apply elem_of_nil in Hin.
Qed.

Lemma utf8_lead_4 q b1 : 0 <= q < 5 -> 0x80 <= b1 <= 0xBF -> (q = 0 -> 0x90 <= b1) -> (q = 4 -> b1 <= 0x8F) ->
  exists lo hi, utf8_lead (240 + q) = Some (4%nat, lo, hi) /\ in_range lo hi b1 = true.
Proof.
  intros Hq Hb H0 H4.
  assert (q ∈ List.map Z.of_nat (seq 0 5)) as Hin.
  { apply list_elem_of_In, in_map_iff. exists (Z.to_nat q). rewrite in_seq. lia. }
  simpl in Hin. repeat (apply elem_of_cons in Hin as [->|Hin]; [do 2 eexists; split; [reflexivity|apply in_range_true; lia]|]).
  by apply elem_of_nil in Hin.
Qed.

Theorem DecodeRune_EncodeRune r x : scalar r -> DecodeRune (EncodeRune r ++ x) = (r, length (EncodeRune r)).
Proof.
  intros [Hr Hs]. unfold MaxRune in Hr. pose proof (base64_digits r ltac:(lia)) as (E0 & B0 & E1 & B1 & E2 & B2).
  destruct (Z.le_gt_cases r 0x7F); [rewrite EncodeRune_ascii by lia; by apply DecodeRune_ascii; lia|].
  destruct (Z.le_gt_cases r 0x7FF); [|destruct (Z.le_gt_cases r 0xFFFF)].
  - rewrite EncodeRune_2 by lia. cbn [app DecodeRune length].
    rewrite two_bytes, (mod_tag 6 32), (mod_tag 2 64), utf8_lead_2, in_range_true by lia. f_equal. lia.
  - rewrite EncodeRune_3 by lia. cbn [app DecodeRune length].
    rewrite three_bytes, (mod_tag 14 16), !(mod_tag 2 64) by lia.
    destruct (utf8_lead_3 (r / 4096) (128 + (r / 64) mod 64)) as (lo & hi & -> & ->); [lia..|].
    unfold is_cont. rewrite in_range_true by lia. cbn [andb]. f_equal. lia.
  - rewrite EncodeRune_4 by (unfold MaxRune; lia). cbn [app DecodeRune length].
    rewrite four_bytes, (mod_tag 30 8), !(mod_tag 2 64) by lia.
    destruct (utf8_lead_4 (r / 262144) (128 + (r / 4096) mod 64)) as (lo & hi & -> & ->); [lia..|].
    unfold is_cont. rewrite !in_range_true by lia. cbn [andb]. f_equal. lia.
Qed.

(** What is decoded from several bytes is a code point past ASCII, and its
    encoding starts with the byte it was read from. *)
Lemma DecodeRune_lead b0 d r w :
  0x80 <= b0 -> DecodeRune (b0 :: d) = (r, w) -> (r =? RuneError) && (w <=? 1)%nat = false ->
  0x80 <= r <= MaxRune /\ hd 0 (EncodeRune r) = b0.
Proof.
  intros Hb0. cbn [DecodeRune]. destruct (utf8_lead b0) as [[[n lo] hi]|] eqn:Hl; [|by intros [= <- <-]].
  assert (n = 2%nat /\ (lo = 0x80 /\ hi = 0xBF) /\ 0xC2 <= b0 <= 0xDF
    \/ n = 3%nat /\ (0x80 <= lo /\ hi <= 0xBF) /\ 0xE0 <= b0 <= 0xEF /\ (b0 = 0xE0 -> lo = 0xA0) /\ (b0 = 0xED -> hi = 0x9F)
    \/ n = 4%nat /\ (0x80 <= lo /\ hi <= 0xBF) /\ 0xF0 <= b0 <= 0xF4 /\ (b0 = 0xF0 -> lo = 0x90) /\ (b0 = 0xF4 -> hi = 0x8F)) as Hn.
  { unfold utf8_lead, in_range in Hl. repeat case_match; simplify_eq; bool_prop; lia. }
  clear Hl. intros Hd Hok.
  destruct Hn as [(-> & [-> ->] & Hb)|[(-> & [? ?] & Hb & He1 & He2)|(-> & [? ?] & Hb & He1 & He2)]].
  - destruct d as [|b1 d]; [by injection Hd as <- <-|]. rewrite two_bytes in Hd.
    destruct (in_range _ _ b1) eqn:H1; [|by injection Hd as <- <-]. injection Hd as <- <-.
    unfold in_range in H1. bool_prop. unfold MaxRune.
    assert (b0 mod 32 = b0 - 192) as -> by div_lia. assert (b1 mod 64 = b1 - 128) as -> by div_lia.
    rewrite EncodeRune_2 by lia. split; [lia|]. cbn [hd]. div_lia.
  - destruct d as [|b1 [|b2 d]]; [by injection Hd as <- <-..|]. rewrite three_bytes in Hd.
    destruct (in_range _ _ b1 && is_cont b2) eqn:H1; [|by injection Hd as <- <-]. injection Hd as <- <-.
    unfold is_cont, in_range in H1. bool_prop. unfold MaxRune.
    assert (b0 mod 16 = b0 - 224) as -> by div_lia. assert (b1 mod 64 = b1 - 128) as -> by div_lia.
    assert (b2 mod 64 = b2 - 128) as -> by div_lia.
    rewrite EncodeRune_3 by lia. split; [lia|]. cbn [hd]. div_lia.
  - destruct d as [|b1 [|b2 [|b3 d]]]; [by injection Hd as <- <-..|]. rewrite four_bytes in Hd.
    destruct (in_range _ _ b1 && is_cont b2 && is_cont b3) eqn:H1; [|by injection Hd as <- <-]. injection Hd as <- <-.
    unfold is_cont, in_range in H1. bool_prop. unfold MaxRune.
    assert (b0 mod 8 = b0 - 240) as -> by div_lia. assert (b1 mod 64 = b1 - 128) as -> by div_lia.
    assert (b2 mod 64 = b2 - 128) as -> by div_lia. assert (b3 mod 64 = b3 - 128) as -> by div_lia.
    rewrite EncodeRune_4 by (unfold MaxRune; lia). split; [lia|]. cbn [hd]. div_lia.
Qed.

(** ** The last rune *)

(** [utf8.RuneStart]. *)
Definition RuneStart (b : Z) : bool := negb (Z.land b 0xC0 =? 0x80).

(** How many bytes before the last one [utf8.DecodeLastRune] looks at: it goes
    back to a byte that can start a rune, over [UTFMax - 1] bytes at most.
    [rest] is what is before the last byte, backwards. *)
Fixpoint back_start (n j : nat) (rest : list Z) : nat :=
  match n, rest with
  | _, [] => j
  | O, _ :: _ => S j
  | S n', b :: rest' => if RuneStart b then S j else back_start n' (S j) rest'
  end.
Definition DecodeLastRune (p : list Z) : Z * nat :=
  match rev p with
  | [] => (RuneError, 0%nat)
  | b :: rest =>
    if b <? RuneSelf then (b, 1%nat)
    else
      let k := back_start (UTFMax - 1) 0 rest in
      let '(r, size) := DecodeRune (drop (length p - S k) p) in
      if (size =? S k)%nat then (r, size) else (RuneError, 1%nat)
  end.

Lemma RuneStart_range b : is_byte b -> RuneStart b = negb (in_range 0x80 0xBF b).
Proof.
  intros Hb. assert (forall n, (n < 256)%nat -> RuneStart (Z.of_nat n) = negb (in_range 0x80 0xBF (Z.of_nat n))) as Hall.
  { intros n Hn. assert (forallb (fun n => Bool.eqb (RuneStart (Z.of_nat n)) (negb (in_range 0x80 0xBF (Z.of_nat n)))) (seq 0 256) = true)
      as Hf by (vm_compute; reflexivity).
    rewrite forallb_forall in Hf. apply Bool.eqb_prop, Hf, in_seq. lia. }
  unfold is_byte in Hb. specialize (Hall (Z.to_nat b)). rewrite Z2Nat.id in Hall by lia. apply Hall. lia.
Qed.

(** The bytes of an encoding: a start byte, then continuation bytes. *)
Lemma EncodeRune_shape r :
  scalar r -> (length (EncodeRune r) = 1%nat /\ EncodeRune r = [r] /\ 0 <= r < 0x80) \/
  exists lead conts, EncodeRune r = lead :: conts /\ (1 <= length conts <= 3)%nat /\ 0xC0 <= lead <= 0xFF /\
    Forall (fun b => 0x80 <= b <= 0xBF) conts /\ 0x80 <= r /\
    exists lo hi, utf8_lead lead = Some (S (length conts), lo, hi).
Proof.
  intros [Hr Hs]. unfold MaxRune in Hr. pose proof (base64_digits r ltac:(lia)) as (E0 & B0 & E1 & B1 & E2 & B2).
  destruct (Z.le_gt_cases r 0x7F); [left; rewrite EncodeRune_ascii by lia; repeat split; lia|]. right.
  destruct (Z.le_gt_cases r 0x7FF); [|destruct (Z.le_gt_cases r 0xFFFF)].
  - rewrite EncodeRune_2 by lia. eexists _, _. split; [done|]. cbn [length]. split; [lia|]. split; [lia|].
    split; [repeat constructor; lia|]. split; [lia|]. rewrite utf8_lead_2 by lia. eauto.
  - rewrite EncodeRune_3 by lia. eexists _, _. split; [done|]. cbn [length]. split; [lia|]. split; [lia|].
    split; [repeat constructor; lia|]. split; [lia|].
    destruct (utf8_lead_3 (r / 4096) (128 + (r / 64) mod 64)) as (lo & hi & Hl & _); [lia..|]. eauto.
  - rewrite EncodeRune_4 by (unfold MaxRune; lia). eexists _, _. split; [done|]. cbn [length]. split; [lia|]. split; [lia|].
    split; [repeat constructor; lia|]. split; [lia|].
    destruct (utf8_lead_4 (r / 262144) (128 + (r / 4096) mod 64)) as (lo & hi & Hl & _); [lia..|]. eauto.
Qed.

Lemma back_start_over n j conts lead y :
  Forall (fun b => 0x80 <= b <= 0xBF) conts -> (length conts <= n)%nat -> is_byte lead -> ~ (0x80 <= lead <= 0xBF) ->
  back_start n j (conts ++ lead :: y) = (j + length conts + 1)%nat.
Proof.
  intros Hc Hn Hb Hl. revert n j Hn. induction Hc as [|b conts Hbc _ IH]; intros n j Hn; cbn [app length].
  - destruct n; cbn; [lia|]. rewrite RuneStart_range by done. unfold in_range.
    destruct (0x80 <=? lead) eqn:E1, (lead <=? 0xBF) eqn:E2; cbn; bool_prop; lia.
  - destruct n as [|n]; [cbn in Hn; lia|]. cbn. rewrite RuneStart_range by (unfold is_byte; lia).
    rewrite in_range_true by lia. cbn. rewrite IH by (cbn in Hn; lia). lia.
Qed.

Lemma drop_suffix {A} (x y : list A) k : length y = k -> drop (length (x ++ y) - k) (x ++ y) = y.
Proof. intros <-. rewrite length_app. by rewrite drop_app_length' by lia. Qed.

(** A last rune is found whatever is before it. *)
Lemma DecodeLastRune_encoded x r : scalar r -> DecodeLastRune (x ++ EncodeRune r) = (r, length (EncodeRune r)).
Proof.
  intros Hr. pose proof (DecodeRune_EncodeRune r [] Hr) as Hd. rewrite app_nil_r in Hd.
  destruct (EncodeRune_shape r Hr) as [(_ & He & Hlt)|(lead & conts & He & Hlen & Hlead & Hconts & _ & _)].
  - rewrite He. unfold DecodeLastRune. rewrite rev_app_distr. cbn. unfold RuneSelf.
    by rewrite (proj2 (Z.ltb_lt _ _)) by lia.
  - unfold DecodeLastRune. destruct conts as [|c conts] using rev_ind; [cbn in Hlen; lia|]. clear IHconts.
    rewrite length_app in Hlen. cbn in Hlen. apply Forall_app in Hconts as [Hci [Hc _]%list.Forall_cons].
    rewrite He, rev_app_distr. change (lead :: conts ++ [c]) with ((lead :: conts) ++ [c]). rewrite rev_app_distr. cbn [rev app].
    rewrite (proj2 (Z.ltb_ge _ _)) by (unfold RuneSelf; lia). rewrite <- app_assoc. cbn [app].
    rewrite back_start_over; [|by apply Forall_rev | rewrite length_rev; cbn; lia | unfold is_byte; lia | lia].
    rewrite length_rev. cbn [Nat.add]. rewrite drop_suffix by (cbn; rewrite length_app; cbn; lia).
    rewrite <- He, Hd, He. cbn [length]. rewrite length_app. cbn [length].
    by rewrite (proj2 (Nat.eqb_eq _ _)) by lia.
Qed.

Lemma DecodeRune_short lead conts n lo hi :
  0xC0 <= lead -> utf8_lead lead = Some (S n, lo, hi) -> (length conts < n)%nat -> DecodeRune (lead :: conts) = (RuneError, 1%nat).
Proof.
  intros Hlead Hl Hlen. pose proof (utf8_lead_width _ _ _ _ Hl). cbn [DecodeRune]. rewrite Hl.
  destruct n as [|[|[|[|n]]]]; [lia| | | |lia]; destruct conts as [|b1 [|b2 [|b3 conts]]]; cbn in Hlen; try lia; done.
Qed.

(** A cut rune is reported as an error of one byte. *)
Lemma DecodeLastRune_partial rs r j :
  Forall scalar rs -> scalar r -> (0 < j < length (EncodeRune r))%nat ->
  DecodeLastRune (encode_runes rs ++ take j (EncodeRune r)) = (RuneError, 1%nat).
Proof.
  intros Hrs Hr Hj. destruct (EncodeRune_shape r Hr) as [(H1 & _)|(lead & conts & He & Hlen & Hlead & Hconts & _ & lo & hi & Hl)]; [lia|].
  rewrite He in Hj |- *. cbn [length] in Hj. destruct j as [|j]; [lia|]. cbn [take]. set (part := take j conts).
  assert (length part = j) as Hpl by (unfold part; rewrite length_take; lia).
  assert (Forall (fun b => 0x80 <= b <= 0xBF) part) as Hpc by (by apply Forall_take).
  pose proof (DecodeRune_short lead part _ _ _ ltac:(lia) Hl ltac:(lia)) as Hd.
  unfold DecodeLastRune. destruct part as [|c part' _] using rev_ind.
  - rewrite rev_app_distr. cbn [rev app]. rewrite (proj2 (Z.ltb_ge _ _)) by (unfold RuneSelf; lia).
    destruct rs as [|r' rs' _] using rev_ind; [change (drop _ _) with [lead]; by rewrite Hd|].
    apply Forall_app in Hrs as [_ [Hr' _]%list.Forall_cons].
    unfold encode_runes. rewrite map_app, concat_app. cbn [map concat]. rewrite app_nil_r. set (x := concat (map EncodeRune rs')).
    assert (back_start (UTFMax - 1) 0 (rev (x ++ EncodeRune r')) = length (EncodeRune r')) as ->.
    { rewrite rev_app_distr. destruct (EncodeRune_shape r' Hr') as [(_ & He' & Hlt)|(lead' & conts' & He' & Hlen' & Hlead' & Hconts' & _)]; rewrite He'.
      - cbn [rev app]. apply (back_start_over (UTFMax - 1) 0 [] r' (rev x)); [constructor | cbn; lia | unfold is_byte; lia | lia].
      - cbn [rev]. rewrite <- app_assoc. cbn [app].
        rewrite back_start_over; [|by apply Forall_rev | rewrite length_rev; unfold UTFMax; lia | unfold is_byte; lia | lia].
        rewrite length_rev. cbn. lia. }
    rewrite <- app_assoc, drop_suffix by (rewrite length_app; cbn; lia). rewrite DecodeRune_EncodeRune by done.
    by rewrite (proj2 (Nat.eqb_neq _ _)) by lia.
  - apply Forall_app in Hpc as [Hci [Hc _]%list.Forall_cons]. rewrite length_app in Hpl. cbn in Hpl.
    rewrite rev_app_distr. change (lead :: part' ++ [c]) with ((lead :: part') ++ [c]). rewrite rev_app_distr. cbn [rev app].
    rewrite (proj2 (Z.ltb_ge _ _)) by (unfold RuneSelf; lia). rewrite <- app_assoc. cbn [app].
    rewrite back_start_over; [|by apply Forall_rev | rewrite length_rev; unfold UTFMax; lia | unfold is_byte; lia | lia].
    rewrite length_rev. cbn [Nat.add]. rewrite drop_suffix by (cbn; rewrite length_app; cbn; lia).
    rewrite Hd. by rewrite (proj2 (Nat.eqb_neq _ _)) by lia.
Qed.

(** ** Validity *)

Lemma valid_skip l x : valid_utf8 (length l) (l ++ x) = valid_utf8 0 x.
Proof. induction l as [|b l IH]; [done|]. cbn. exact IH. Qed.

Lemma valid_rune r x : scalar r -> valid_utf8 0 (EncodeRune r ++ x) = valid_utf8 0 x.
Proof.
  intros Hr. pose proof (DecodeRune_EncodeRune r x Hr) as Hd. destruct (EncodeRune r) as [|b l] eqn:He; [by destruct (EncodeRune_nonempty r)|].
  cbn [app] in *. cbn [valid_utf8]. rewrite Hd. cbn [length Nat.sub]. rewrite Nat.sub_0_r, valid_skip.
  destruct (r =? RuneError) eqn:E; [|done]. apply Z.eqb_eq in E as ->. injection He as <- <-. done.
Qed.

(** A text is valid up to where its runes end. *)
Lemma valid_encode_runes rs x : Forall scalar rs -> valid_utf8 0 (encode_runes rs ++ x) = valid_utf8 0 x.
Proof.
  induction 1 as [|r rs Hr _ IH]; [done|]. change (encode_runes (r :: rs)) with (EncodeRune r ++ encode_runes rs).
  by rewrite <- app_assoc, valid_rune.
Qed.

(** A cut rune is not valid. *)
Lemma partial_invalid r j : scalar r -> (0 < j < length (EncodeRune r))%nat -> valid_utf8 0 (take j (EncodeRune r)) = false.
Proof.
  intros Hr Hj. destruct (EncodeRune_shape r Hr) as [(H1 & _)|(lead & conts & He & Hlen & Hlead & _ & _ & lo & hi & Hl)]; [lia|].
  rewrite He in *. cbn [length] in Hj. destruct j as [|j]; [lia|]. cbn [take valid_utf8].
  rewrite (DecodeRune_short lead (take j conts) _ _ _ ltac:(lia) Hl) by (rewrite length_take; lia). done.
Qed.
