(* ===== verification/GoJsonRoundtrip.v ===== *)
(** * What [encoding/json] writes, [encoding/json] reads

    Texts put together from encoded strings, numbers, arrays and objects
    parse back to the same values: nothing inside a string can end it.
    Strings come back with every byte that is not UTF-8 replaced. *)
From stdpp Require Import base strings list option.
From Stdlib Require Import ZArith Lia Ascii.
From S2P Require Import Prelude GoUtf8 GoStrings GoNet GoHttp GoJson GoJsonParse Utf8Codec.
Local Open Scope string_scope.
Local Open Scope list_scope.
Local Open Scope Z_scope.

(** ** Runes *)

(** What a string becomes in JSON. *)
Definition sanitize (s : string) : string := string_of_bytes (encode_runes (runes (bytes_of_string s))).

Lemma DecodeRune_scalar b0 d r w : is_byte b0 -> DecodeRune (b0 :: d) = (r, w) -> scalar r.
Proof.
  unfold is_byte, scalar. intros Hb0 Hd. destruct (decide (b0 < 0x80)) as [Hlt|Hge].
  { rewrite DecodeRune_ascii in Hd by lia. injection Hd as <- <-. unfold MaxRune. lia. }
  destruct ((r =? RuneError) && (w <=? 1)%nat) eqn:Hbad; [unfold RuneError, MaxRune in *; bool_prop; lia|].
  destruct (DecodeRune_lead b0 d r w ltac:(lia) Hd Hbad) as [Hr Hhd]. split; [lia|]. intros Hsur.
  unfold EncodeRune in Hhd. rewrite (proj2 (Z.leb_gt r 0x7F)), (proj2 (Z.leb_gt r 0x7FF)) in Hhd by lia.
  rewrite (in_range_true _ _ _ Hsur), !andb_false_r, orb_true_r in Hhd. cbn in Hhd. subst b0.
  cbn in Hd. change (utf8_lead 239) with (Some (3%nat, 0x80, 0xBF)) in Hd. cbn iota in Hd.
  destruct d as [|b1 [|b2 d]]; [by simplify_eq..|]. rewrite three_bytes in Hd.
  destruct (_ && _) eqn:E; [|by simplify_eq]. injection Hd as <- <-. unfold is_cont, in_range in E. bool_prop.
  change (239 mod 16) with 15 in Hsur. pose proof (Z.mod_pos_bound b1 64). pose proof (Z.mod_pos_bound b2 64). lia.
Qed.

Lemma runes_skip_drop k b : runes_skip k b = runes (drop k b).
Proof. revert k. induction b as [|x b IH]; intros [|k]; try done. cbn. apply IH. Qed.
Lemma json_string_skip_drop k b : json_string_skip k b = json_string_skip 0 (drop k b).
Proof. revert k. induction b as [|x b IH]; intros [|k]; try done. cbn [json_string_skip drop]. apply IH. Qed.

(** One rune at a time. *)
Definition json_rune (r : Z) (w : nat) : list Z :=
  if (r =? RuneError) && (w =? 1)%nat then bytes_of_string "\ufffd" else json_escape_rune r.
Lemma rune_step b0 d r w : DecodeRune (b0 :: d) = (r, w) ->
  runes (b0 :: d) = r :: runes (drop w (b0 :: d)) /\ json_string_skip 0 (b0 :: d) = json_rune r w ++ json_string_skip 0 (drop w (b0 :: d)) /\ (1 <= w)%nat.
Proof.
  intros Hd. pose proof (DecodeRune_width b0 d) as Hw. rewrite Hd in Hw. cbn [snd] in Hw. unfold runes. cbn [runes_skip json_string_skip]. rewrite Hd.
  rewrite runes_skip_drop, json_string_skip_drop. destruct w as [|w]; [lia|]. cbn [drop]. replace (S w - 1)%nat with w by lia. split_and!; [done | done | lia].
Qed.

(** ** Strings *)

Lemma scan_string_cons f c s : scan_string (S f) (c :: s) =
  if c =? 34 then Some ([], s)
  else if c <? 32 then None
  else if c =? 92 then scan_string (S f) (92 :: s)
  else let '(r, w) := DecodeRune (c :: s) in
       match scan_string f (drop w (c :: s)) with Some (out, rest) => Some (EncodeRune r ++ out, rest) | None => None end.
Proof. cbn [scan_string]. destruct (c =? 34); [done|]. destruct (c <? 32); [done|]. destruct (c =? 92) eqn:E; [|done]. by apply Z.eqb_eq in E as ->. Qed.

Lemma EncodeRune_head r : scalar r -> 0x80 <= r -> exists c t, EncodeRune r = c :: t /\ 0x80 <= c.
Proof.
  intros [Hr Hs] Hge. unfold MaxRune in Hr. destruct (decide (r <= 0x7FF)); [|destruct (decide (r <= 0xFFFF))].
  - rewrite EncodeRune_2 by lia. eexists _, _. split; [done|]. pose proof (Z.div_pos r 64). lia.
  - rewrite EncodeRune_3 by lia. eexists _, _. split; [done|]. pose proof (Z.div_pos r 4096). lia.
  - rewrite EncodeRune_4 by (unfold MaxRune; lia). eexists _, _. split; [done|]. pose proof (Z.div_pos r 262144). lia.
Qed.

(** A rune written plainly. *)
Lemma scan_plain f r x : scalar r -> 32 <= r -> r <> 34 -> r <> 92 ->
  scan_string (S f) (EncodeRune r ++ x) = match scan_string f x with Some (out, rest) => Some (EncodeRune r ++ out, rest) | None => None end.
Proof.
  intros Hs Hge H34 H92. pose proof (DecodeRune_EncodeRune r x Hs) as Hd.
  assert (exists c t, EncodeRune r = c :: t /\ 32 <= c /\ c <> 34 /\ c <> 92) as (c & t & He & Hc & Hc1 & Hc2).
  { destruct (decide (r < 0x80)); [rewrite EncodeRune_ascii by lia; exists r, []; split_and!; done|].
    destruct (EncodeRune_head r Hs ltac:(lia)) as (c & t & He & Hc). exists c, t. split_and!; [done | lia..]. }
  rewrite He in *. cbn [app] in *. rewrite scan_string_cons.
  rewrite (proj2 (Z.eqb_neq c 34)), (proj2 (Z.ltb_ge c 32)), (proj2 (Z.eqb_neq c 92)) by lia.
  rewrite Hd. change (c :: t ++ x) with ((c :: t) ++ x). by rewrite drop_app_length, He.
Qed.

(** A rune written as an escape. *)
Definition escaped_runes : list Z := [60; 62; 38; 0x2028; 0x2029] ++ map Z.of_nat (seq 0 32).
Lemma scan_escaped f r x : r ∈ escaped_runes ->
  scan_string (S f) (json_escape_rune r ++ x) = match scan_string f x with Some (out, rest) => Some (EncodeRune r ++ out, rest) | None => None end.
Proof.
  unfold escaped_runes. cbn [seq map app Z.of_nat]. intros Hr.
  repeat (apply elem_of_cons in Hr as [->|Hr]; [reflexivity|]). by apply elem_of_nil in Hr.
Qed.

Lemma in_escaped_runes r : 0 <= r -> (r < 32 \/ r = 60 \/ r = 62 \/ r = 38 \/ r = 0x2028 \/ r = 0x2029) -> r ∈ escaped_runes.
Proof.
  intros H0 Hr. unfold escaped_runes. destruct Hr as [Hr|Hr].
  - apply elem_of_app. right. apply list_elem_of_fmap. exists (Z.to_nat r). split; [lia|]. apply elem_of_seq. lia.
  - apply elem_of_app. left. rewrite !elem_of_cons. lia.
Qed.

Lemma scan_json_rune f r w x : scalar r ->
  scan_string (S f) (json_rune r w ++ x) = match scan_string f x with Some (out, rest) => Some (EncodeRune r ++ out, rest) | None => None end.
Proof.
  intros Hs. unfold json_rune. destruct ((r =? RuneError) && _) eqn:Hbad; [bool_prop; by subst r|].
  assert (0 <= r) as H0 by (destruct Hs; lia).
  destruct (decide (r < 32 \/ r = 60 \/ r = 62 \/ r = 38 \/ r = 0x2028 \/ r = 0x2029)) as [Hesc|Hno]; [by apply scan_escaped, in_escaped_runes|].
  destruct (decide (r = 34)) as [->|]; [reflexivity|]. destruct (decide (r = 92)) as [->|]; [reflexivity|].
  replace (json_escape_rune r) with (EncodeRune r); [apply scan_plain; [done | lia..]|].
  unfold json_escape_rune. split_code; bool_prop; try lia; done.
Qed.

Lemma json_rune_nonempty r w : (1 <= length (json_rune r w))%nat.
Proof.
  unfold json_rune, json_escape_rune. pose proof (EncodeRune_nonempty r). destruct (EncodeRune r) eqn:E; [done|]. split_code; cbn; lia.
Qed.

(** The scanner reads an encoded string up to its closing quote and no further. *)
Lemma scan_json_string b rest f : Forall is_byte b -> (length (json_string_skip 0 b) < f)%nat ->
  scan_string f (json_string_skip 0 b ++ 34 :: rest) = Some (encode_runes (runes b), rest).
Proof.
  remember (length b) as n eqn:Hn. assert (length b <= n)%nat as Hle by lia. clear Hn. revert b f Hle.
  induction n as [|n IH]; intros b f Hle Hb Hf; (destruct f as [|f]; [lia|]); (destruct b as [|b0 d]; [done|]); [cbn in Hle; lia|].
  destruct (DecodeRune (b0 :: d)) as [r w] eqn:Hd. destruct (rune_step b0 d r w Hd) as (Hr & Hj & Hw). rewrite Hr, Hj in *.
  pose proof (DecodeRune_scalar b0 d r w (Forall_inv Hb) Hd) as Hs. pose proof (json_rune_nonempty r w) as Hne.
  rewrite <- app_assoc, (scan_json_rune f r w _ Hs). rewrite length_app in Hf. rewrite IH; [done | | by apply Forall_drop | lia].
  rewrite length_drop. cbn [length] in *. lia.
Qed.

(** ** Values *)

(** A value without the texts it was read from. *)
Inductive jval := VNull | VBool (b : bool) | VNum (lit : string) | VStr (s : string) | VArr (l : list jval) | VObj (m : list (string * jval)).
Fixpoint erase (j : json) : jval :=
  match j with
  | JNull => VNull
  | JBool b => VBool b
  | JNum lit => VNum lit
  | JStr _ s => VStr s
  | JArr _ l => VArr (map erase l)
  | JObj _ m => VObj (map (fun e => (fst e, erase (snd e))) m)
  end.

(** What may follow a value inside a text. *)
Definition stops (rest : list Z) : Prop := match rest with [] => True | c :: _ => c = 44 \/ c = 93 \/ c = 125 end.
Definition value_byte (c : Z) : Prop := c <> 32 /\ c <> 9 /\ c <> 13 /\ c <> 10 /\ c <> 93 /\ c <> 125.

(** [text] is read as [v] wherever it stands, nested at most [d] deep. *)
Record reads (d : Z) (text : string) (v : jval) : Prop := mkReads {
  reads_head : exists c t, bytes_of_string text = c :: t /\ value_byte c;
  reads_value rest fuel depth : stops rest -> depth + d <= maxNestingDepth -> (2 * length (bytes_of_string text) <= fuel)%nat ->
    exists j, parse_value fuel depth (bytes_of_string text ++ rest) = Some (j, rest) /\ erase j = v;
}.

Lemma reads_weaken d d' text v : reads d text v -> d <= d' -> reads d' text v.
Proof. intros [Hh Hv] Hd. split; [done|]. intros rest fuel depth Hs Hdep Hf. apply Hv; [done | lia | done]. Qed.

Lemma EncodeRune_bytes r : scalar r -> Forall is_byte (EncodeRune r).
Proof.
  intros [Hr Hs]. unfold MaxRune in Hr. unfold is_byte.
  destruct (decide (r <= 0x7F)); [|destruct (decide (r <= 0x7FF)); [|destruct (decide (r <= 0xFFFF))]].
  - rewrite EncodeRune_ascii by lia. repeat constructor; lia.
  - rewrite EncodeRune_2 by lia. repeat constructor; div_lia.
  - rewrite EncodeRune_3 by lia. repeat constructor; div_lia.
  - rewrite EncodeRune_4 by (unfold MaxRune; lia). repeat constructor; div_lia.
Qed.

Lemma hex_lower_byte x : is_byte (hex_lower (Z.land x 15)).
Proof.
  change 15 with (Z.ones 4). rewrite Z.land_ones by lia. pose proof (Z.mod_pos_bound x (2 ^ 4) ltac:(lia)). unfold hex_lower, is_byte.
  destruct (_ <? 10) eqn:E; bool_prop; change (2 ^ 4) with 16 in *; lia.
Qed.

Lemma json_rune_bytes r w : scalar r -> Forall is_byte (json_rune r w).
Proof.
  intros Hs. unfold json_rune. destruct (_ && _); [apply bytes_of_string_range|]. unfold json_escape_rune.
  split_code; bool_prop; repeat (apply list.Forall_cons; split); try apply list.Forall_nil_2; try apply hex_lower_byte; try (unfold is_byte; lia).
  by apply EncodeRune_bytes.
Qed.

Lemma json_string_bytes b : Forall is_byte b -> Forall is_byte (json_string_skip 0 b).
Proof.
  remember (length b) as n eqn:Hn. assert (length b <= n)%nat as Hle by lia. clear Hn. revert b Hle.
  induction n as [|n IH]; intros [|b0 d] Hle Hb; try done; [cbn in Hle; lia|].
  destruct (DecodeRune (b0 :: d)) as [r w] eqn:Hd. destruct (rune_step b0 d r w Hd) as (_ & -> & Hw).
  apply list.Forall_app. split; [apply json_rune_bytes, (DecodeRune_scalar b0 d r w (Forall_inv Hb) Hd)|].
  apply IH; [rewrite length_drop; cbn [length] in *; lia | by apply Forall_drop].
Qed.

Lemma bytes_of_json_string s :
  bytes_of_string (json_string s) = 34 :: json_string_skip 0 (bytes_of_string s) ++ [34].
Proof.
  unfold json_string. cbn [bytes_of_string]. rewrite bytes_of_string_app. cbn [bytes_of_string].
  rewrite bytes_of_string_of_bytes; [done|]. apply json_string_bytes, bytes_of_string_range.
Qed.

Lemma scan_key s rest :
  let t := json_string_skip 0 (bytes_of_string s) ++ 34 :: rest in
  scan_string (S (length t)) t = Some (encode_runes (runes (bytes_of_string s)), rest).
Proof. cbn zeta. apply scan_json_string; [apply bytes_of_string_range|]. rewrite length_app. lia. Qed.

Lemma reads_string s : reads 0 (json_string s) (VStr (sanitize s)).
Proof.
  split.
  - rewrite bytes_of_json_string. eexists _, _. split; [done|]. unfold value_byte. lia.
  - intros rest fuel depth _ _ Hf. rewrite bytes_of_json_string in *. destruct fuel as [|f]; [cbn in Hf; lia|].
    cbn [app parse_value]. change (34 =? 34) with true. cbn iota. rewrite <- app_assoc. cbn [app]. rewrite scan_key. eexists. split; [done|]. done.
Qed.

(** ** Arrays and objects *)

Lemma skip_ws_value c t : value_byte c -> skip_ws (c :: t) = c :: t.
Proof. intros (H1 & H2 & H3 & H4 & _). cbn. by rewrite (proj2 (Z.eqb_neq c 32)), (proj2 (Z.eqb_neq c 9)), (proj2 (Z.eqb_neq c 13)), (proj2 (Z.eqb_neq c 10)). Qed.

Lemma not_bracket {A} c (t : list Z) (f : list Z -> A) (g : list Z -> A) : c <> 93 ->
  match c :: t with 93 :: rest => f rest | s1 => g s1 end = g (c :: t).
Proof. intros Hc. destruct c as [|p|p]; [done| |done]. do 7 (destruct p as [p|p|]; try done). Qed.

Lemma bytes_of_Join2 x y l : bytes_of_string (Join (x :: y :: l) ",") = bytes_of_string x ++ 44 :: bytes_of_string (Join (y :: l) ",").
Proof. rewrite Join_cons2, bytes_of_string_app. done. Qed.

Lemma reads_elems d l : Forall (fun e => reads d (fst e) (snd e)) l -> l <> [] ->
  forall rest fuel depth, depth + d <= maxNestingDepth -> (2 * length (bytes_of_string (Join (map fst l) ",")) + 1 <= fuel)%nat ->
  exists js, parse_elems fuel depth (bytes_of_string (Join (map fst l) ",") ++ 93 :: rest) = Some (js, rest) /\ map erase js = map snd l.
Proof.
  induction l as [|[text v] l IH]; intros Hall Hne rest fuel depth Hd Hf; [done|].
  apply list.Forall_cons in Hall as [[(c & t & Hc & Hvb) Hv] Hall]. cbn [fst snd] in *.
  destruct fuel as [|f]; [lia|]. cbn [parse_elems].
  destruct l as [|e l].
  - cbn [map Join fst] in *. rewrite Hc. cbn [app]. rewrite (skip_ws_value c) by done. change (c :: t ++ 93 :: rest) with ((c :: t) ++ 93 :: rest). rewrite <- Hc.
    destruct (Hv (93 :: rest) f depth) as (j & -> & <-); [right; by left | done | lia|]. cbn. by exists [j].
  - cbn [map fst] in *. rewrite bytes_of_Join2 in *. set (tail := bytes_of_string (Join (e.1 :: map fst l) ",")) in *.
    rewrite <- app_assoc, Hc. cbn [app]. rewrite (skip_ws_value c) by done.
    change (c :: t ++ 44 :: tail ++ 93 :: rest) with ((c :: t) ++ 44 :: (tail ++ 93 :: rest)). rewrite <- Hc.
    rewrite length_app in Hf. cbn [length] in Hf.
    destruct (Hv (44 :: tail ++ 93 :: rest) f depth) as (j & -> & <-); [by left | done | lia|].
    change (skip_ws (44 :: tail ++ 93 :: rest)) with (44 :: tail ++ 93 :: rest). cbn iota.
    destruct (IH Hall ltac:(done) rest f depth Hd) as (js & -> & Hjs); [fold tail; lia|]. exists (j :: js). split; [done|]. cbn. by f_equal.
Qed.

Lemma reads_array d l : Forall (fun e => reads d (fst e) (snd e)) l -> 0 <= d -> reads (d + 1) (json_array (map fst l)) (VArr (map snd l)).
Proof.
  intros Hall Hd0. assert (bytes_of_string (json_array (map fst l)) = 91 :: bytes_of_string (Join (map fst l) ",") ++ [93]) as Hb.
  { unfold json_array. rewrite !bytes_of_string_app. done. }
  split; [rewrite Hb; eexists _, _; split; [done|]; unfold value_byte; lia|].
  intros rest fuel depth Hs Hd Hf. rewrite Hb in *. destruct fuel as [|f]; [cbn in Hf; lia|].
  cbn [app parse_value]. change (91 =? 34) with false. change (91 =? 91) with true. cbn iota. rewrite (proj2 (Z.leb_gt _ _)) by lia.
  rewrite <- app_assoc. cbn [app].
  destruct l as [|e l]; [cbn; by eexists|].
  assert (exists c t, bytes_of_string (Join (map fst (e :: l)) ",") = c :: t /\ value_byte c) as (c & t & Hc & Hvb).
  { apply list.Forall_cons in Hall as [[(c & t & Hc & Hvb) _] _]. exists c. destruct l as [|e' l]; [cbn; eauto|].
    cbn [map]. rewrite bytes_of_Join2, Hc. eexists. split; [done|done]. }
  destruct (reads_elems d (e :: l) Hall ltac:(done) rest f (depth + 1)) as (js & Hp & Hjs); [lia | cbn [length] in Hf; rewrite length_app in Hf; lia|].
  rewrite Hc in *. cbn [app] in *. rewrite skip_ws_value by done.
  set (text := 91 :: c :: t ++ 93 :: rest).
  exists (JArr (consumed text rest) js). split; [|cbn [erase]; by rewrite Hjs].
  transitivity (match parse_elems f (depth + 1) (c :: t ++ 93 :: rest) with
                | Some (l, rest) => Some (JArr (consumed text rest) l, rest) | None => None end); [|by rewrite Hp].
  exact (not_bracket c (t ++ 93 :: rest) (fun rest => Some (JArr (consumed text rest) [], rest))
           (fun s1 => match parse_elems f (depth + 1) s1 with Some (l, rest) => Some (JArr (consumed text rest) l, rest) | None => None end)
           ltac:(apply Hvb)).
Qed.

(** An entry of an object: its key, the text of its value and the value. *)
Definition member_text (e : string * string) : string := json_string (fst e) +:+ ":" +:+ snd e.
Lemma bytes_of_member e : bytes_of_string (member_text e) = 34 :: json_string_skip 0 (bytes_of_string (fst e)) ++ 34 :: 58 :: bytes_of_string (snd e).
Proof. unfold member_text. rewrite !bytes_of_string_app, bytes_of_json_string. cbn [app]. by rewrite <- app_assoc. Qed.

(** One member, followed by what [next] reads or by the closing brace. *)
Lemma parse_member f depth k text v d rest : reads d text v -> depth + d <= maxNestingDepth -> (2 * length (bytes_of_string text) <= f)%nat -> stops rest ->
  exists j, erase j = v /\
    parse_members (S f) depth (bytes_of_string (member_text (k, text)) ++ rest) =
    match rest with
    | 44 :: s5 => match parse_members f depth s5 with Some (m, rest) => Some ((sanitize k, j) :: m, rest) | None => None end
    | 125 :: rest => Some ([(sanitize k, j)], rest)
    | _ => None
    end.
Proof.
  intros [(c & t & Hc & Hvb) Hv] Hd Hf Hs. destruct (Hv rest f depth Hs Hd Hf) as (j & Hp & Hj). exists j. split; [done|].
  rewrite bytes_of_member. cbn [fst snd app parse_members skip_ws]. change ((34 =? 32) || (34 =? 9) || (34 =? 13) || (34 =? 10)) with false. cbn iota.
  rewrite <- app_assoc. cbn [app]. rewrite scan_key. cbn [skip_ws]. change ((58 =? 32) || (58 =? 9) || (58 =? 13) || (58 =? 10)) with false. cbn iota.
  rewrite Hc in *. cbn [app] in *. rewrite (skip_ws_value c) by done. rewrite Hp.
  destruct rest as [|x rest]; [done|]. destruct Hs as [-> | [-> | ->]]; reflexivity.
Qed.

Lemma reads_members d l : Forall (fun e => reads d (snd (fst e)) (snd e)) l -> l <> [] ->
  forall rest fuel depth, depth + d <= maxNestingDepth -> (2 * length (bytes_of_string (Join (map (member_text ∘ fst) l) ",")) + 1 <= fuel)%nat ->
  exists m, parse_members fuel depth (bytes_of_string (Join (map (member_text ∘ fst) l) ",") ++ 125 :: rest) = Some (m, rest) /\
    map (fun e => (fst e, erase (snd e))) m = map (fun e => (sanitize (fst (fst e)), snd e)) l.
Proof.
  induction l as [|[[k text] v] l IH]; intros Hall Hne rest fuel depth Hd Hf; [done|].
  apply list.Forall_cons in Hall as [Hv Hall]. cbn [fst snd] in *. destruct fuel as [|f]; [lia|].
  destruct l as [|e l].
  - cbn [map Join] in *. unfold compose in *. cbn [fst] in *. assert (2 * length (bytes_of_string text) <= f)%nat as Hft.
    { rewrite bytes_of_member in Hf. cbn [length snd] in Hf. rewrite length_app in Hf. cbn [length] in Hf. lia. }
    destruct (parse_member f depth k text v d (125 :: rest) Hv Hd Hft ltac:(right; by right)) as (j & <- & ->). by exists [(sanitize k, j)].
  - cbn [map] in *. rewrite bytes_of_Join2 in *. rewrite <- app_assoc. cbn [app].
    set (tail := bytes_of_string (Join ((member_text ∘ fst) e :: map (member_text ∘ fst) l) ",")) in *.
    unfold compose at 1. cbn [fst]. rewrite length_app in Hf. cbn [length] in Hf.
    assert (2 * length (bytes_of_string text) <= f)%nat as Hft.
    { unfold compose at 1 in Hf. cbn [fst] in Hf. rewrite bytes_of_member in Hf. cbn [length snd] in Hf. rewrite length_app in Hf. cbn [length] in Hf. lia. }
    destruct (parse_member f depth k text v d (44 :: tail ++ 125 :: rest) Hv Hd Hft ltac:(by left)) as (j & <- & Hm).
    rewrite Hm.
    destruct (IH Hall ltac:(done) rest f depth Hd) as (m & -> & Hmm); [fold tail; lia|].
    exists ((sanitize k, j) :: m). split; [done|]. cbn. by f_equal.
Qed.

Lemma reads_object d l : Forall (fun e => reads d (snd (fst e)) (snd e)) l -> 0 <= d ->
  reads (d + 1) (json_object (map fst l)) (VObj (map (fun e => (sanitize (fst (fst e)), snd e)) l)).
Proof.
  intros Hall Hd0. assert (bytes_of_string (json_object (map fst l)) = 123 :: bytes_of_string (Join (map (member_text ∘ fst) l) ",") ++ [125]) as Hb.
  { unfold json_object. rewrite !bytes_of_string_app. by rewrite map_map. }
  split; [rewrite Hb; eexists _, _; split; [done|]; unfold value_byte; lia|].
  intros rest fuel depth Hs Hd Hf. rewrite Hb in *. destruct fuel as [|f]; [cbn in Hf; lia|].
  cbn [app parse_value]. change (123 =? 34) with false. change (123 =? 91) with false. change (123 =? 123) with true. cbn iota.
  rewrite (proj2 (Z.leb_gt _ _)) by lia. rewrite <- app_assoc. cbn [app].
  destruct l as [|e l]; [cbn; by eexists|].
  assert (exists t, bytes_of_string (Join (map (member_text ∘ fst) (e :: l)) ",") = 34 :: t) as (t & Hc).
  { destruct l as [|e' l]; cbn [map]; [cbn [Join]; unfold compose; rewrite bytes_of_member; eauto|].
    rewrite bytes_of_Join2. unfold compose at 1. rewrite bytes_of_member. cbn [app]. eauto. }
  destruct (reads_members d (e :: l) Hall ltac:(done) rest f (depth + 1)) as (m & Hp & Hm); [lia | cbn [length] in Hf; rewrite length_app in Hf; lia|].
  rewrite Hc in *. cbn [app] in *. change (skip_ws (34 :: t ++ 125 :: rest)) with (34 :: t ++ 125 :: rest). cbn iota. rewrite Hp.
  eexists. split; [done|]. cbn [erase]. by rewrite Hm.
Qed.

(** ** Whole texts *)

Lemma reads_null : reads 0 "null" VNull.
Proof. split; [exists 110, [117; 108; 108]; split; [done|]; unfold value_byte; lia|]. intros rest [|f] depth _ _ Hf; [cbn in Hf; lia|]. by exists JNull. Qed.

Theorem reads_json_parse d text v : reads d text v -> d <= maxNestingDepth -> exists j, json_parse text = Some j /\ erase j = v.
Proof.
  intros [(c & t & Hc & Hvb) Hv] Hd. unfold json_parse. destruct (Hv [] (2 * length (bytes_of_string text) + 2)%nat 0) as (j & Hp & Hj); [done | lia | lia|].
  rewrite app_nil_r in Hp. rewrite Hc in Hp. rewrite Hc, skip_ws_value by done. rewrite Hp. cbn. by exists j.
Qed.

(** ** Numbers *)

Definition digit (c : Z) : Prop := 48 <= c <= 57.

Lemma digits_acc_spec f n acc : 0 < n < 10 ^ (Z.of_nat f + 1) ->
  exists c t, 49 <= c <= 57 /\ Forall digit t /\ bytes_of_string (digits_acc f 10 false n acc) = c :: t ++ bytes_of_string acc.
Proof.
  revert n acc. induction f as [|f IH]; intros n acc Hn.
  - change (10 ^ (Z.of_nat 0 + 1)) with 10 in Hn. cbn [digits_acc]. rewrite Z.mod_small by lia. rewrite (proj2 (Z.ltb_lt n 10)) by lia.
    exists (48 + n), []. split_and!; [lia | lia | constructor |]. cbn [bytes_of_string app]. rewrite byte_of_ascii_of_byte; [done|]. unfold is_byte. lia.
  - cbn [digits_acc]. pose proof (Z.mod_pos_bound n 10 ltac:(lia)) as Hm. rewrite (proj2 (Z.ltb_lt (n mod 10) 10)) by lia.
    assert (bytes_of_string (String (ascii_of_byte (48 + n mod 10)) acc) = (48 + n mod 10) :: bytes_of_string acc) as Hd.
    { cbn [bytes_of_string]. rewrite byte_of_ascii_of_byte; [done|]. unfold is_byte. lia. }
    destruct (n <? 10) eqn:E; bool_prop.
    + rewrite Z.mod_small in * by lia. exists (48 + n), []. split_and!; [lia | lia | constructor | done].
    + rewrite Nat2Z.inj_succ in Hn. replace (Z.succ (Z.of_nat f) + 1) with (Z.succ (Z.of_nat f + 1)) in Hn by lia. rewrite Z.pow_succ_r in Hn by lia.
      assert (0 < n / 10 < 10 ^ (Z.of_nat f + 1)) as Hq by (split; [apply Z.div_str_pos; lia | apply Z.div_lt_upper_bound; lia]).
      destruct (IH (n / 10) (String (ascii_of_byte (48 + n mod 10)) acc) Hq) as (c & t & Hc & Ht & ->).
      rewrite Hd. exists c, (t ++ [48 + n mod 10]). split_and!; [lia | lia | | by rewrite <- app_assoc].
      apply list.Forall_app. split; [done|]. constructor; [|constructor]. unfold digit. lia.
Qed.

Lemma Itoa_digits n : 0 < n -> exists c t, 49 <= c <= 57 /\ Forall digit t /\ bytes_of_string (Itoa n) = c :: t.
Proof.
  intros Hn. unfold Itoa. rewrite (proj2 (Z.ltb_ge n 0)) by lia.
  destruct (digits_acc_spec (Z.to_nat (Z.log2_up n)) n "") as (c & t & Hc & Ht & Hb).
  - split; [lia|]. rewrite Z2Nat.id by apply Z.log2_up_nonneg.
    assert (n <= 2 ^ Z.log2_up n) as Hp by (destruct (decide (n = 1)) as [->|]; [done | apply Z.log2_up_spec; lia]).
    pose proof (Z.log2_up_nonneg n). pose proof (Z.pow_le_mono_l 2 10 (Z.log2_up n) ltac:(lia)). rewrite Z.pow_add_r by lia. change (10 ^ 1) with 10.
    pose proof (Z.pow_pos_nonneg 10 (Z.log2_up n) ltac:(lia) ltac:(lia)). lia.
  - rewrite app_nil_r in Hb. eauto.
Qed.

Lemma span_digits_app t rest : Forall digit t -> stops rest -> span_digits (t ++ rest) = (t, rest).
Proof.
  unfold digit, stops. intros Ht Hs. induction Ht as [|c t Hc Ht IH]; cbn [app].
  - destruct rest as [|x rest]; [done|]. cbn. unfold is_digit_ascii, in_range. by destruct Hs as [-> | [-> | ->]].
  - cbn [span_digits]. unfold is_digit_ascii. rewrite (in_range_true 48 57 c) by lia. by rewrite IH.
Qed.

Lemma scan_number_digits c t rest : 49 <= c <= 57 -> Forall digit t -> stops rest -> exists lit, scan_number ((c :: t) ++ rest) = Some (lit, rest).
Proof.
  intros Hc Ht Hs. assert (span_digits ((c :: t) ++ rest) = (c :: t, rest)) as Hsp by (apply span_digits_app; [by constructor; [unfold digit; lia|] | done]).
  assert (forall s, match s with 45 :: s' => (true, s') | _ => (false, s) end = (false, s) -> match s with 48 :: s' => ([48], s') | _ => span_digits s end = span_digits s ->
            s = (c :: t) ++ rest -> exists lit, scan_number s = Some (lit, rest)) as Hgo.
  { intros s H1 H2 ->. unfold scan_number. rewrite H1, H2, Hsp. cbn.
    destruct rest as [|x rest]; [by eexists|]. destruct Hs as [-> | [-> | ->]]; by eexists. }
  assert (c ∈ [49; 50; 51; 52; 53; 54; 55; 56; 57]) as Hin by (rewrite !elem_of_cons; lia).
  apply Hgo; [..|done]; clear - Hin; repeat (apply elem_of_cons in Hin as [->|Hin]; [done|]); by apply elem_of_nil in Hin.
Qed.

Lemma scan_number_Itoa n rest : 0 <= n -> stops rest ->
  exists c t lit, bytes_of_string (Itoa n) = c :: t /\ digit c /\ scan_number ((c :: t) ++ rest) = Some (lit, rest).
Proof.
  intros Hn Hs. destruct (decide (n = 0)) as [->|].
  - exists 48, []. destruct rest as [|x rest]; [eexists; split_and!; [done | unfold digit; lia.. | done]|].
    destruct Hs as [-> | [-> | ->]]; (eexists; split_and!; [done | unfold digit; lia.. | done]).
  - destruct (Itoa_digits n ltac:(lia)) as (c & t & Hc & Ht & Hb). destruct (scan_number_digits c t rest Hc Ht Hs) as [lit Hl].
    exists c, t, lit. split_and!; [done | unfold digit; lia.. | done].
Qed.

Lemma reads_Itoa n : 0 <= n -> reads 0 (Itoa n) (VNum (Itoa n)).
Proof.
  intros Hn. split.
  - destruct (scan_number_Itoa n [] Hn I) as (c & t & lit & Hb & Hc & _). exists c, t. split; [done|]. unfold value_byte, digit in *. lia.
  - intros rest fuel depth Hs _ Hf. destruct (scan_number_Itoa n rest Hn Hs) as (c & t & lit & Hb & Hc & Hl). unfold digit in Hc.
    destruct fuel as [|f]; [rewrite Hb in Hf; cbn in Hf; lia|].
    exists (JNum (consumed (bytes_of_string (Itoa n) ++ rest) rest)). split.
    + rewrite Hb. cbn [app] in *. cbn [parse_value].
      rewrite (proj2 (Z.eqb_neq c 34)), (proj2 (Z.eqb_neq c 91)), (proj2 (Z.eqb_neq c 123)) by lia. cbn [strip_bytes].
      rewrite (proj2 (Z.eqb_neq 110 c)), (proj2 (Z.eqb_neq 116 c)), (proj2 (Z.eqb_neq 102 c)) by lia. by rewrite Hl.
    + cbn [erase]. f_equal. unfold consumed. rewrite length_app, Nat.add_sub, take_app_length. apply string_of_bytes_of_string.
Qed.

(** ** Encoded texts are UTF-8 *)

Definition utf8_bytes (b : list Z) : Prop := exists rs, Forall scalar rs /\ b = encode_runes rs.
Definition utf8_text (s : string) : Prop := utf8_bytes (bytes_of_string s).

Lemma runes_encode_runes rs : Forall scalar rs -> runes (encode_runes rs) = rs.
Proof.
  induction 1 as [|r rs Hr _ IH]; [done|]. change (encode_runes (r :: rs)) with (EncodeRune r ++ encode_runes rs).
  pose proof (DecodeRune_EncodeRune r (encode_runes rs) Hr) as Hd. destruct (EncodeRune r) as [|b0 t] eqn:E; [by apply EncodeRune_nonempty in E|].
  cbn [app] in *. destruct (rune_step b0 (t ++ encode_runes rs) _ _ Hd) as (-> & _ & _).
  change (b0 :: t ++ encode_runes rs) with ((b0 :: t) ++ encode_runes rs). by rewrite drop_app_length, IH.
Qed.
Lemma sanitize_utf8 s : utf8_text s -> sanitize s = s.
Proof. intros (rs & Hrs & Hb). unfold sanitize. rewrite Hb, runes_encode_runes by done. rewrite <- Hb. apply string_of_bytes_of_string. Qed.

Lemma utf8_bytes_app a b : utf8_bytes a -> utf8_bytes b -> utf8_bytes (a ++ b).
Proof.
  intros (ra & Ha & ->) (rb & Hb & ->). exists (ra ++ rb). split; [by apply list.Forall_app|]. unfold encode_runes. by rewrite map_app, concat_app.
Qed.
Lemma utf8_text_app a b : utf8_text a -> utf8_text b -> utf8_text (a +:+ b).
Proof. unfold utf8_text. rewrite bytes_of_string_app. apply utf8_bytes_app. Qed.
Lemma utf8_ascii b : Forall (fun c => 0 <= c < 0x80) b -> utf8_bytes b.
Proof.
  intros Hb. exists b. split; [eapply list.Forall_impl; [exact Hb|]; cbn; unfold scalar, MaxRune; lia|].
  induction Hb as [|c b Hc _ IH]; [done|]. change (encode_runes (c :: b)) with (EncodeRune c ++ encode_runes b). rewrite EncodeRune_ascii by lia. cbn. by f_equal.
Qed.
Lemma utf8_text_ascii s : forallb (fun c => (0 <=? c) && (c <? 0x80)) (bytes_of_string s) = true -> utf8_text s.
Proof. intros Hs. apply utf8_ascii, list.Forall_forall. intros c Hc. rewrite forallb_forall in Hs. specialize (Hs c). apply list_elem_of_In in Hc. apply Hs in Hc. bool_prop. lia. Qed.

Lemma hex_lower_ascii x : 0 <= hex_lower (Z.land x 15) < 0x80.
Proof.
  change 15 with (Z.ones 4). rewrite Z.land_ones by lia. pose proof (Z.mod_pos_bound x (2 ^ 4) ltac:(lia)). unfold hex_lower.
  destruct (_ <? 10) eqn:E; bool_prop; change (2 ^ 4) with 16 in *; lia.
Qed.
Lemma json_rune_utf8 r w : scalar r -> utf8_bytes (json_rune r w).
Proof.
  intros Hs. assert (0 <= r) as H0 by (destruct Hs; lia). unfold json_rune. destruct (_ && _); [by apply utf8_text_ascii|]. unfold json_escape_rune.
  split_code; bool_prop; try (apply utf8_ascii; repeat (apply list.Forall_cons; split); try apply list.Forall_nil_2; try apply hex_lower_ascii; lia).
  exists [r]. split; [by apply list.Forall_singleton|]. unfold encode_runes. cbn. by rewrite app_nil_r.
Qed.
Lemma json_string_skip_utf8 b : Forall is_byte b -> utf8_bytes (json_string_skip 0 b).
Proof.
  remember (length b) as n eqn:Hn. assert (length b <= n)%nat as Hle by lia. clear Hn. revert b Hle.
  induction n as [|n IH]; intros [|b0 d] Hle Hb; try (by apply utf8_ascii); [cbn in Hle; lia|].
  destruct (DecodeRune (b0 :: d)) as [r w] eqn:Hd. destruct (rune_step b0 d r w Hd) as (_ & -> & Hw).
  apply utf8_bytes_app; [apply json_rune_utf8, (DecodeRune_scalar b0 d r w (Forall_inv Hb) Hd)|].
  apply IH; [rewrite length_drop; cbn [length] in *; lia | by apply Forall_drop].
Qed.

Lemma utf8_json_string s : utf8_text (json_string s).
Proof.
  unfold utf8_text. rewrite bytes_of_json_string. change (34 :: ?l) with ([34] ++ l).
  apply utf8_bytes_app; [apply utf8_ascii; repeat constructor; lia|].
  apply utf8_bytes_app; [apply json_string_skip_utf8, bytes_of_string_range | apply utf8_ascii; repeat constructor; lia].
Qed.
Lemma utf8_Join l : Forall utf8_text l -> utf8_text (Join l ",").
Proof.
  induction 1 as [|x l Hx Hl IH]; [by apply utf8_text_ascii|]. destruct l as [|y l]; [done|].
  unfold utf8_text. rewrite bytes_of_Join2. change (44 :: ?l) with ([44] ++ l). apply utf8_bytes_app; [done|].
  apply utf8_bytes_app; [by apply utf8_ascii; repeat constructor | exact IH].
Qed.
Lemma utf8_json_object l : Forall (fun e => utf8_text (snd e)) l -> utf8_text (json_object l).
Proof.
  intros Hl. unfold json_object. apply utf8_text_app; [by apply utf8_text_ascii|]. apply utf8_text_app; [|by apply utf8_text_ascii].
  apply utf8_Join, list.Forall_fmap. eapply list.Forall_impl; [exact Hl|]. intros e He.
  apply utf8_text_app; [apply utf8_json_string|]. apply utf8_text_app; [by apply utf8_text_ascii | done].
Qed.
Lemma utf8_json_array l : Forall utf8_text l -> utf8_text (json_array l).
Proof.
  intros Hl. unfold json_array. apply utf8_text_app; [by apply utf8_text_ascii|]. apply utf8_text_app; [by apply utf8_Join | by apply utf8_text_ascii].
Qed.

(** A text of ASCII comes back as it was. *)
Lemma sanitize_ascii s : forallb (fun c => (0 <=? c) && (c <? 0x80)) (bytes_of_string s) = true -> sanitize s = s.
Proof. intros Hs. by apply sanitize_utf8, utf8_text_ascii. Qed.
