(* ===== verification/ScrubMatch.v ===== *)
(** * Finding a secret in a response (src/internal/transform/secrets/scrub.go)

    The matcher of the response scrub: how one character may be spelled, the
    tables that let it pass over most bytes, the match of one needle at one
    position, and the scan that replaces every match by its placeholder in the
    same spelling.

    A position of the Go slice [data] is the suffix that starts there, so
    [data[i:]] is the list itself and an end index is a number of bytes from
    the start of the suffix. *)
From stdpp Require Import base gmap strings list option.
From Stdlib Require Import ZArith Lia Ascii.
From S2P Require Import Prelude GoUtf8 GoStrings GoNet Body GoHttp GoEncoding ScrubPairs.
Local Open Scope string_scope.
Local Open Scope list_scope.
Local Open Scope Z_scope.

Definition maxGap : nat := 16.
Definition maxToken : nat := 12.

(** ** Spellings of one character *)

Inductive form :=
  | formLiteral | formPercent | formJSONU | formJSONShort | formHexEscape
  | formHTMLDec | formHTMLHex | formHTMLNamed.
#[global] Instance form_eq_dec : EqDecision form.
Proof. solve_decision. Defined.

(** [hexCase] is the byte the code keeps: 0, ['a'] or ['A']. *)
Definition caseLower : Z := 97.
Definition caseUpper : Z := 65.
Record spelling := mkSpelling { s_form : form; hexCase : Z }.
Definition literal : spelling := mkSpelling formLiteral 0.
#[global] Instance spelling_eq_dec : EqDecision spelling.
Proof. solve_decision. Defined.

Definition isEscapeStart (b : Z) : bool := (b =? 37) || (b =? 92) || (b =? 38).

(** The literal UTF-8 character at the start of the data; a byte that is not
    UTF-8 becomes a rune above [MaxRune]. *)
Definition decodeLiteral (data : list Z) : Z * nat :=
  let '(r, w) := DecodeRune data in
  if (r =? RuneError) && (w <=? 1)%nat then (MaxRune + 1 + hd 0 data, 1%nat) else (r, w).

(** [decodeRunes]; [skip] counts the bytes of the current rune still to
    pass. *)
Fixpoint decode_skip (skip : nat) (b : list Z) : list Z :=
  match b with
  | [] => []
  | _ :: b' =>
    match skip with
    | S k => decode_skip k b'
    | O => let '(r, w) := decodeLiteral b in r :: decode_skip (w - 1) b'
    end
  end.
Definition decodeRunes (b : list Z) : list Z := decode_skip 0 b.

(** [appendRune(nil, r)]. *)
Definition appendRune (r : Z) : list Z :=
  if MaxRune <? r then [(r - MaxRune - 1) mod 256] else EncodeRune r.

(** [hexValue]: the digit and its case. *)
Definition hexValue (b : Z) : option (Z * Z) :=
  if in_range 48 57 b then Some (b - 48, 0)
  else if in_range 97 102 b then Some (b - 97 + 10, caseLower)
  else if in_range 65 70 b then Some (b - 65 + 10, caseUpper)
  else None.

(** [readHex]: the digits, [HexMore] when the data ended before the last one,
    [HexBad] at a byte that is not a digit. *)
Inductive hex_read := HexOK (value c : Z) | HexBad | HexMore.
Fixpoint hex_loop (n : nat) (data : list Z) (value c : Z) : hex_read :=
  match n with
  | O => HexOK value c
  | S n' =>
    match data with
    | [] => HexMore
    | b :: data' =>
      match hexValue b with
      | None => HexBad
      | Some (digit, c') =>
        hex_loop n' data' (Z.lor (Z.shiftl value 4) digit) (if negb (c' =? 0) && (c =? 0) then c' else c)
      end
    end
  end.
Definition readHex (data : list Z) (n : nat) : hex_read := hex_loop n data 0 0.

(** What reading an escape yields: more data is wanted, no escape is there
    (the code's width 0), or a character with its width and spelling. *)
Inductive escape := EscMore | EscNone | EscOK (r : Z) (w : nat) (sp : spelling).

(** The loop of [readPercent] at its [i]-th escaped byte, [data] starting
    there; [None] is the [break] to the single-byte reading.  At most four
    turns are made, as [need] is at most 4. *)
Definition percent_need (value : Z) : nat :=
  if value <? 0x80 then 1%nat
  else if Z.shiftr value 5 =? 0x6 then 2%nat
  else if Z.shiftr value 4 =? 0xE then 3%nat
  else if Z.shiftr value 3 =? 0x1E then 4%nat
  else 1%nat.
Fixpoint percent_loop (turns i need : nat) (data buf : list Z) (hc : Z) : option escape :=
  match turns with
  | O => None
  | S turns' =>
    match data with
    | [] => Some EscMore
    | b :: data1 =>
      if negb (b =? 37) then None
      else match readHex data1 2 with
           | HexMore => Some EscMore
           | HexBad => None
           | HexOK value c =>
             let hc' := if hc =? 0 then c else hc in
             let buf' := buf ++ [value] in
             let need' := if (i =? 0)%nat then percent_need value else need in
             if (i =? need' - 1)%nat then
               let '(r, w) := DecodeRune buf' in
               if (r =? RuneError) && (w <=? 1)%nat then None
               else Some (EscOK r (3 * need') (mkSpelling formPercent hc'))
             else percent_loop turns' (S i) need' (drop 2 data1) buf' hc'
           end
    end
  end.
Definition readPercent (data : list Z) : escape :=
  match percent_loop UTFMax 0 1 data [] 0 with
  | Some e => e
  | None =>
    match readHex (drop 1 data) 2 with
    | HexOK value c =>
      EscOK (if 0x80 <=? value then MaxRune + 1 + value else value) 3 (mkSpelling formPercent c)
    | _ => EscNone
    end
  end.

(** [jsonShort] as a table of escape byte and character. *)
Definition jsonShort : list (Z * Z) :=
  [(34, 34); (92, 92); (47, 47); (98, 8); (102, 12); (110, 10); (114, 13); (116, 9)].
Fixpoint assoc (k : Z) (l : list (Z * Z)) : option Z :=
  match l with
  | [] => None
  | (a, v) :: l' => if a =? k then Some v else assoc k l'
  end.

Definition byte_at (data : list Z) (i : nat) : Z := default 0 (data !! i).

Definition readBackslash (data : list Z) : escape :=
  if (length data <? 2)%nat then EscMore
  else
    let b1 := byte_at data 1 in
    if b1 =? 117 then
      match readHex (drop 2 data) 4 with
      | HexMore => EscMore
      | HexBad => EscNone
      | HexOK r c =>
        let single := EscOK r 6 (mkSpelling formJSONU c) in
        if (0xD800 <=? r) && (r <? 0xDC00) then
          if (length data <? 8)%nat || ((byte_at data 6 =? 92) && (length data <? 12)%nat) then EscMore
          else if (byte_at data 6 =? 92) && (byte_at data 7 =? 117) then
            match readHex (drop 8 data) 4 with
            | HexOK low c2 =>
              if (0xDC00 <=? low) && (low <? 0xE000)
              then EscOK (0x10000 + Z.shiftl (r - 0xD800) 10 + (low - 0xDC00)) 12
                         (mkSpelling formJSONU (if c =? 0 then c2 else c))
              else single
            | _ => single
            end
          else single
        else single
      end
    else if b1 =? 120 then
      match readHex (drop 2 data) 2 with
      | HexMore => EscMore
      | HexBad => EscNone
      | HexOK value c => EscOK value 4 (mkSpelling formHexEscape c)
      end
    else match assoc b1 jsonShort with
         | Some r => EscOK r 2 (mkSpelling formJSONShort 0)
         | None => EscNone
         end.

Definition namedRefs : list (list Z * Z) :=
  [(bytes_of_string "amp", 38); (bytes_of_string "lt", 60); (bytes_of_string "gt", 62);
   (bytes_of_string "quot", 34); (bytes_of_string "apos", 39)].
Definition namedRef (name : list Z) : option Z :=
  snd <$> find (fun p => bool_decide (p.1 = name)) namedRefs.

(** The loop of [readReference] over a name, from [data[i]]; the loop ends
    at the sixth byte or with the data. *)
Fixpoint name_loop (turns i total : nat) (data name : list Z) : escape :=
  let stop := if (total <=? 5)%nat then EscMore else EscNone in
  match turns with
  | O => stop
  | S turns' =>
    match data with
    | [] => stop
    | b :: data' =>
      if b =? 59 then
        match namedRef name with
        | Some r => EscOK r (i + 1) (mkSpelling formHTMLNamed 0)
        | None => EscNone
        end
      else if (b <? 97) || (122 <? b) then EscNone
      else name_loop turns' (S i) total data' (name ++ [b])
    end
  end.

(** The loop over the digits of a numeric reference, from [data[digits +
    count]]. *)
Fixpoint digits_loop (digits count : nat) (base : Z) (maxDigits : nat) (f : form) (data : list Z) (hc value : Z) : escape :=
  match data with
  | [] => EscMore
  | b :: data' =>
    if b =? 59 then
      if (count =? 0)%nat || (MaxRune <? value) then EscNone
      else EscOK value (digits + count + 1) (mkSpelling f hc)
    else if (maxDigits <=? count)%nat then EscNone
    else match hexValue b with
         | None => EscNone
         | Some (digit, c) =>
           if (base =? 10) && ((9 <? digit) || negb (c =? 0)) then EscNone
           else digits_loop digits (S count) base maxDigits f data'
                  (if negb (c =? 0) && (hc =? 0) then c else hc) (value * base + digit)
         end
  end.

Definition readReference (data : list Z) : escape :=
  if (length data <? 2)%nat then EscMore
  else if negb (byte_at data 1 =? 35) then name_loop 5 1 (length data) (drop 1 data) []
  else if (2 <? length data)%nat && ((byte_at data 2 =? 120) || (byte_at data 2 =? 88))
       then digits_loop 3 0 16 6 formHTMLHex (drop 3 data) 0 0
       else digits_loop 2 0 10 7 formHTMLDec (drop 2 data) 0 0.

(** [readToken]; the data is not empty where the code calls it. *)
Inductive token := TokMore | TokOK (r : Z) (w : nat) (sp : spelling).

Definition readEscape (data : list Z) : escape :=
  let b := hd 0 data in
  if b =? 37 then readPercent data
  else if b =? 92 then readBackslash data
  else if b =? 38 then readReference data
  else EscNone.

Definition readLiteral (data : list Z) (final : bool) : token :=
  if negb final && negb (FullRune data) then TokMore
  else let '(r, w) := decodeLiteral data in TokOK r w literal.

Definition readToken (data : list Z) (escaped final : bool) : token :=
  if escaped then
    match readEscape data with
    | EscMore => if final then readLiteral data final else TokMore
    | EscOK r w sp => TokOK r w sp
    | EscNone => readLiteral data final
    end
  else readLiteral data final.

(** The token at a position, as [matchAt] and [scan] read it: a plain ASCII
    byte needs no decoding. *)
Definition tokenAt (data : list Z) (escaped final : bool) : token :=
  let b := hd 0 data in
  if (RuneSelf <=? b) || isEscapeStart b then readToken data escaped final else TokOK b 1 literal.

(** ** Needles *)

Record needle := mkNeedle { n_runes : list Z; n_repl : list Z; n_fold : bool; literalEscape : bool }.

Section scrubber.
Context `{UnicodeTables}.

Definition isGap (r : Z) : bool := (0xAD <=? r) && (r <=? MaxRune) && uni_format r.

Definition equalRune (got want : Z) (fold : bool) : bool :=
  (got =? want)
  || (fold && (got <? RuneSelf) && (want <? RuneSelf) && (unicode_ToLower got =? want)).

(** One wanted character: the inner loop of [matchAt], which may pass over
    [gaps] more format characters.  The result is the character's spelling
    and how many bytes were passed in all. *)
Inductive rune_match := RuneNone | RuneMore | RuneOK (sp : spelling) (w : nat).

Definition shift (w : nat) (m : rune_match) : rune_match :=
  match m with RuneOK sp w' => RuneOK sp (w + w') | RuneNone => RuneNone | RuneMore => RuneMore end.

Definition matched_spelling (sp : spelling) (r want : Z) (fold : bool) : spelling :=
  if fold && negb (r =? want) then mkSpelling (s_form sp) caseUpper
  else if fold && unicode_IsLetter r then mkSpelling (s_form sp) caseLower
  else sp.

Fixpoint matchRune (gaps : nat) (first : bool) (want : Z) (fold escaped final : bool) (data : list Z) : rune_match :=
  match data with
  | [] => if final then RuneNone else RuneMore
  | _ =>
    match tokenAt data escaped final with
    | TokMore => RuneMore
    | TokOK r w sp =>
      if equalRune r want fold then RuneOK (matched_spelling sp r want fold) w
      else
        let skip_gap :=
          match gaps with
          | O => RuneNone
          | S gaps' =>
            if first || negb (isGap r) then RuneNone
            else shift w (matchRune gaps' first want fold escaped final (drop w data))
          end in
        if escaped && (1 <? w)%nat && negb (bool_decide (s_form sp = formLiteral)) then
          match readToken data false true with
          | TokOK lr lw lsp => if equalRune lr want fold then RuneOK lsp lw else skip_gap
          | TokMore => skip_gap
          end
        else skip_gap
    end
  end.

(** [matchAt]: the end of the match, counted from its start, and the spelling
    of each character. *)
Inductive match_result := MatchNone | MatchMore | MatchFound (end_ : nat) (sps : list spelling).

#[global] Instance match_result_eq_dec : EqDecision match_result.
Proof. solve_decision. Defined.

Fixpoint matchRunes (first : bool) (want : list Z) (fold escaped final : bool) (data : list Z) : match_result :=
  match want with
  | [] => MatchFound 0 []
  | r :: want' =>
    match matchRune maxGap first r fold escaped final data with
    | RuneNone => MatchNone
    | RuneMore => MatchMore
    | RuneOK sp w =>
      match matchRunes false want' fold escaped final (drop w data) with
      | MatchFound e sps => MatchFound (w + e) (sp :: sps)
      | o => o
      end
    end
  end.
Definition matchAt (data : list Z) (n : needle) (escaped final : bool) : match_result :=
  matchRunes true (n_runes n) (n_fold n) escaped final data.

(** ** The scrubber and its tables

    A row of [pair], four 64-bit words in the code, is one 256-bit integer:
    bit [b1] stands for the word [b1>>6] and its bit [b1&63]. *)
Record scrubber := mkScrubber {
  needles : list needle;
  ascii_heads : gmap Z (list nat);
  other_heads : gmap Z (list nat);
  start : gset Z;
  pair : gmap Z Z;
}.
Definition empty_scrubber : scrubber := mkScrubber [] ∅ ∅ ∅ ∅.

Definition row (s : scrubber) (b0 : Z) : Z := default 0 (pair s !! b0).
Definition put_row (s : scrubber) (b0 v : Z) : scrubber :=
  mkScrubber (needles s) (ascii_heads s) (other_heads s) (start s) (<[b0 := v]> (pair s)).
Definition setPair (b0 : Z) (s : scrubber) (b1 : Z) : scrubber := put_row s b0 (Z.setbit (row s b0) b1).
Definition setRow (b0 : Z) (s : scrubber) : scrubber := put_row s b0 (Z.ones 256).
Definition setStart (b0 : Z) (s : scrubber) : scrubber :=
  mkScrubber (needles s) (ascii_heads s) (other_heads s) ({[b0]} ∪ start s) (pair s).
Definition addNeedle (n : needle) (s : scrubber) : scrubber :=
  mkScrubber (needles s ++ [n]) (ascii_heads s) (other_heads s) (start s) (pair s).
Definition push (m : gmap Z (list nat)) (k : Z) (i : nat) : gmap Z (list nat) := <[k := default [] (m !! k) ++ [i]]> m.
Definition addHead (head : Z) (index : nat) (s : scrubber) : scrubber :=
  if head <? RuneSelf
  then mkScrubber (needles s) (push (ascii_heads s) head index) (other_heads s) (start s) (pair s)
  else mkScrubber (needles s) (ascii_heads s) (push (other_heads s) head index) (start s) (pair s).

Definition mayStart (s : scrubber) (data : list Z) : bool :=
  match data with
  | [] => false
  | [b0] => bool_decide (b0 ∈ start s)
  | b0 :: b1 :: _ => Z.testbit (row s b0) b1
  end.

(** The body of the loop over [heads] in [newScrubber]. *)
Definition high_bytes : list Z := map Z.of_nat (seq 128 128).
Definition second_bytes (second : Z) : list Z := [second; unicode_ToUpper second; 37; 92; 38] ++ high_bytes.
Definition enter_head (index : nat) (n : needle) (s : scrubber) (head : Z) : scrubber :=
  let lead := hd 0 (appendRune head) in
  let s := setStart lead (addHead head index s) in
  match n_runes n with
  | _ :: second :: _ =>
    if (RuneSelf <=? head) || (RuneSelf <=? second) then setRow lead s
    else fold_left (setPair lead) (second_bytes second) s
  | _ => setRow lead s
  end.

Definition heads_of (n : needle) : list Z :=
  match n_runes n with
  | [] => []
  | r :: _ => r :: (if n_fold n && negb (unicode_ToUpper r =? r) then [unicode_ToUpper r] else [])
  end.

Definition needle_of (p : scrubPair) : needle :=
  let rs := decodeRunes (sp_needle p) in
  mkNeedle rs (decodeRunes (sp_repl p)) (sp_fold p) (existsb isEscapeStart rs).

Definition enter_pair (s : scrubber) (p : scrubPair) : scrubber :=
  let n := needle_of p in
  match n_runes n with
  | [] => s
  | _ => let index := length (needles s) in
         fold_left (enter_head index n) (heads_of n) (addNeedle n s)
  end.

Definition newScrubber (ps : list scrubPair) : scrubber :=
  fold_left enter_pair ps
    (fold_left (fun s b => setRow b (setStart b s)) [37; 92; 38] empty_scrubber).

Definition startingWith (s : scrubber) (r : Z) : list nat :=
  if (0 <=? r) && (r <? RuneSelf) then default [] (ascii_heads s !! r) else default [] (other_heads s !! r).

(** ** Writing a replacement *)

Definition class (r : Z) : nat :=
  if (r <? RuneSelf) && (unicode_IsLetter r || unicode_IsDigit r) then 0%nat
  else if (r =? 45) || (r =? 46) || (r =? 95) || (r =? 126) then 1%nat
  else 2%nat.

Definition hex_char (hc d : Z) : Z := if d <? 10 then 48 + d else if hc =? caseLower then 87 + d else 55 + d.
Definition hexByte (hc b : Z) : list Z := [hex_char hc (Z.shiftr b 4); hex_char hc (Z.land b 0xF)].

(** [strconv.FormatInt] of a rune: at most seven digits in either base. *)
Fixpoint format_int (fuel : nat) (base hc n : Z) : list Z :=
  match fuel with
  | O => []
  | S fuel' => (if n <? base then [] else format_int fuel' base hc (n / base)) ++ [hex_char hc (n mod base)]
  end.
Definition FormatRune (base hc r : Z) : list Z := format_int 7 base hc r.

Definition spell (r : Z) (f : form) (hc : Z) : list Z :=
  match f with
  | formPercent => concat (map (fun b => 37 :: hexByte hc b) (appendRune r))
  | formJSONU =>
    if MaxRune <? r then appendRune r
    else
      let units := if 0x10000 <=? r
                   then [0xD800 + Z.shiftr (r - 0x10000) 10; 0xDC00 + Z.land (r - 0x10000) 0x3FF] else [r] in
      concat (map (fun u => [92; 117] ++ hexByte hc ((Z.shiftr u 8) mod 256) ++ hexByte hc (u mod 256)) units)
  | formJSONShort =>
    match find (fun p => p.2 =? r) jsonShort with
    | Some (b, _) => [92; b]
    | None => appendRune r
    end
  | formHexEscape => if r <? 0x80 then [92; 120] ++ hexByte hc r else appendRune r
  | formHTMLDec => if r <=? MaxRune then [38; 35] ++ FormatRune 10 0 r ++ [59] else appendRune r
  | formHTMLHex =>
    if r <=? MaxRune
    then [38; 35; 120] ++ FormatRune 16 (if hc =? caseUpper then caseUpper else caseLower) r ++ [59]
    else appendRune r
  | formHTMLNamed =>
    match find (fun p => p.2 =? r) namedRefs with
    | Some (name, _) => 38 :: name ++ [59]
    | None => appendRune r
    end
  | formLiteral => appendRune r
  end.

(** The three tables [encodeRepl] builds from the match: the first spelling
    of a rune, of a class, and the first hex case of a form. *)
Definition byRune (l : list (Z * spelling)) (r : Z) : option spelling :=
  snd <$> find (fun p => p.1 =? r) l.
Definition byClass (l : list (Z * spelling)) (c : nat) : option spelling :=
  snd <$> find (fun p => (class p.1 =? c)%nat) l.
Definition caseOf (l : list (Z * spelling)) (f : form) : Z :=
  default 0 (hexCase ∘ snd <$> find (fun p => negb (hexCase p.2 =? 0) && bool_decide (s_form p.2 = f)) l).

Definition encodeRepl (n : needle) (sps : list spelling) : list Z :=
  let l := zip (n_runes n) sps in
  let one r :=
    let sp := match byRune l r with
              | Some sp => sp
              | None => match byClass l (class r) with
                        | Some sp => sp
                        | None => default (hd literal sps) (byClass l 0)
                        end
              end in
    let hc := caseOf l (s_form sp) in
    spell (if n_fold n && (hc =? caseUpper) then unicode_ToUpper r else r) (s_form sp) hc in
  concat (map one (n_repl n)).

(** ** The scan *)

(** The candidates at one position: whether one of them wants more data, and
    the longest match found. *)
Record candidates := mkCandidates { more : bool; best : option (nat * nat * list spelling) }.

Definition consider (c : candidates) (index : nat) (m : match_result) : candidates :=
  match m with
  | MatchNone => c
  | MatchMore => mkCandidates true (best c)
  | MatchFound e sps =>
    match best c with
    | Some (e', _, _) => if (e' <? e)%nat then mkCandidates (more c) (Some (e, index, sps)) else c
    | None => mkCandidates (more c) (Some (e, index, sps))
    end
  end.

(** The next byte, when it is plain ASCII, 0 when it is not. *)
Definition next_byte (data : list Z) : Z :=
  match data with
  | b :: _ => if (b <? RuneSelf) && negb (isEscapeStart b) then b else 0
  | [] => 0
  end.

Definition second_differs (next : Z) (n : needle) : bool :=
  negb (next =? 0) && match n_runes n with
                      | _ :: second :: _ => negb (equalRune next second (n_fold n))
                      | _ => false
                      end.

Definition try_needle (s : scrubber) (data : list Z) (escaped final : bool) (next : Z) (c : candidates) (index : nat) : candidates :=
  match needles s !! index with
  | None => c
  | Some n =>
    if (negb escaped && negb (literalEscape n)) || second_differs next n then c
    else consider c index (matchAt data n escaped final)
  end.

Definition try_pass (s : scrubber) (data : list Z) (escaped final : bool) (c : candidates) : candidates :=
  match tokenAt data escaped final with
  | TokMore => mkCandidates true (best c)
  | TokOK r w _ => fold_left (try_needle s data escaped final (next_byte (drop w data))) (startingWith s r) c
  end.

Definition try_position (s : scrubber) (data : list Z) (final : bool) : candidates :=
  let c := try_pass s data true final (mkCandidates false None) in
  match best c with
  | Some _ => c
  | None => if isEscapeStart (hd 0 data) then try_pass s data false final c else c
  end.

(** What a scan does with the data: bytes it passes through and spans it
    replaces. *)
Inductive segment :=
  | Keep (b : Z)
  | Replace (index : nat) (span : list Z) (sps : list spelling).

(** The loop of [scan], [skip] bytes of a replaced span still to pass: the
    segments decided, and the bytes held for the next scan. *)
Fixpoint scan_loop (s : scrubber) (final : bool) (skip : nat) (data : list Z) : list segment * list Z :=
  match data with
  | [] => ([], [])
  | b :: data' =>
    match skip with
    | S k => scan_loop s final k data'
    | O =>
      let pass '(segs, held) := (Keep b :: segs, held) in
      if negb (mayStart s data) then pass (scan_loop s final 0 data')
      else
        let c := try_position s data final in
        if more c then ([], data)
        else match best c with
             | None => pass (scan_loop s final 0 data')
             | Some (e, index, sps) =>
               let '(segs, held) := scan_loop s final (e - 1) data' in
               (Replace index (take e data) sps :: segs, held)
             end
    end
  end.

Definition render (s : scrubber) (g : segment) : list Z :=
  match g with
  | Keep b => [b]
  | Replace index _ sps => default [] ((fun n => encodeRepl n sps) <$> needles s !! index)
  end.

(** [scan]: the bytes written and the bytes held. *)
Definition scan (s : scrubber) (data : list Z) (final : bool) : list Z * list Z :=
  let '(segs, held) := scan_loop s final 0 data in (concat (map (render s) segs), held).

Definition text (s : scrubber) (value : string) : string :=
  string_of_bytes (scan s (bytes_of_string value) true).1.
End scrubber.
