(* ===== verification/ScrubStream.v ===== *)
(** * The scrub of a stream is the scrub of the whole

    What the matcher decides about a prefix of the data it never revises:
    reading a token, matching a needle and choosing among the candidates at a
    position give, when they do not ask for more data, what they give on any
    longer data.  From this the chunked scan of a body refines the scan of the
    whole body, and the bytes a stream holds back are bounded. *)
From stdpp Require Import base gmap strings list option.
From Stdlib Require Import ZArith Lia Ascii.
From S2P Require Import Prelude GoUtf8 GoStrings GoNet Body GoHttp GoEncoding ScrubPairs ScrubMatch.
Local Open Scope string_scope.
Local Open Scope list_scope.
Local Open Scope Z_scope.

(** ** Reading hex digits and escapes *)

Lemma hex_loop_ext n d x v c : hex_loop n d v c <> HexMore -> hex_loop n (d ++ x) v c = hex_loop n d v c.
Proof.
  revert d v c. induction n as [|n IH]; intros d v c; [done|].
  destruct d as [|b d]; cbn [hex_loop app]; [done|].
  destruct (hexValue b) as [[dg c']|]; [apply IH | done].
Qed.

Lemma readHex_ext d x n : readHex d n <> HexMore -> readHex (d ++ x) n = readHex d n.
Proof. apply hex_loop_ext. Qed.

Lemma hex_loop_OK n d v c v' c' : hex_loop n d v c = HexOK v' c' -> (n <= length d)%nat.
Proof.
  revert d v c. induction n as [|n IH]; intros d v c; [lia|].
  destruct d as [|b d]; cbn [hex_loop length]; [done|].
  destruct (hexValue b) as [[dg c1]|]; [intros ?%IH; lia | done].
Qed.

Lemma readHex_OK d n v c : readHex d n = HexOK v c -> (n <= length d)%nat.
Proof. apply hex_loop_OK. Qed.

Lemma hex_loop_More n d v c : hex_loop n d v c = HexMore -> (length d < n)%nat.
Proof.
  revert d v c. induction n as [|n IH]; intros d v c; [done|].
  destruct d as [|b d]; cbn [hex_loop length]; [lia|].
  destruct (hexValue b) as [[dg c1]|]; [intros ?%IH; lia | done].
Qed.

Lemma readHex_More d n : readHex d n = HexMore -> (length d < n)%nat.
Proof. apply hex_loop_More. Qed.

Lemma drop_ext {A} n (d x : list A) : (n <= length d)%nat -> drop n (d ++ x) = drop n d ++ x.
Proof. apply drop_app_le. Qed.

Lemma byte_at_ext d x i : (i < length d)%nat -> byte_at (d ++ x) i = byte_at d i.
Proof. intros ?. unfold byte_at. by rewrite lookup_app_l. Qed.

Lemma percent_loop_ext t i need d x buf hc :
  percent_loop t i need d buf hc <> Some EscMore ->
  percent_loop t i need (d ++ x) buf hc = percent_loop t i need d buf hc.
Proof.
  revert i need d buf hc. induction t as [|t IH]; intros i need d buf hc; [done|].
  destruct d as [|b d]; cbn [percent_loop app]; [done|].
  destruct (negb (b =? 37)); [done|].
  destruct (readHex d 2) as [v c| |] eqn:Hh; [|by rewrite readHex_ext, Hh by (by rewrite Hh) | done].
  rewrite readHex_ext, Hh by (by rewrite Hh). apply readHex_OK in Hh.
  destruct (i =? _)%nat; [done|]. rewrite drop_ext by done. apply IH.
Qed.

(** The reading of an escape that does not ask for more data. *)
Lemma readPercent_ext d x : readPercent (37 :: d) <> EscMore -> readPercent (37 :: d ++ x) = readPercent (37 :: d).
Proof.
  unfold readPercent. intros Hd. rewrite (app_comm_cons d x 37).
  rewrite percent_loop_ext by (intros Heq; by rewrite Heq in Hd).
  destruct (percent_loop UTFMax 0 1 (37 :: d) [] 0) eqn:Hl; [done|].
  change (drop 1 ((37 :: d) ++ x)) with (d ++ x). change (drop 1 (37 :: d)) with d.
  rewrite readHex_ext; [done|].
  intros Hh. cbn [percent_loop UTFMax] in Hl. by rewrite Hh in Hl.
Qed.

Lemma readBackslash_ext d x : readBackslash d <> EscMore -> readBackslash (d ++ x) = readBackslash d.
Proof.
  unfold readBackslash. rewrite length_app.
  destruct (Nat.ltb_spec (length d) 2); [done|].
  rewrite (proj2 (Nat.ltb_ge (length d + length x) 2)) by lia.
  rewrite byte_at_ext by lia. rewrite drop_ext by lia.
  destruct (byte_at d 1 =? 117).
  { destruct (readHex (drop 2 d) 4) as [v c| |] eqn:Hh; [|by rewrite readHex_ext, Hh by (by rewrite Hh)|done].
    rewrite readHex_ext, Hh by (by rewrite Hh). apply readHex_OK in Hh. rewrite length_drop in Hh.
    destruct ((0xD800 <=? v) && (v <? 0xDC00)); [|done].
    destruct (Nat.ltb_spec (length d) 8); [done|].
    rewrite (proj2 (Nat.ltb_ge (length d + length x) 8)), !byte_at_ext by lia. cbn [orb].
    destruct (byte_at d 6 =? 92); [|done]. cbn [andb].
    destruct (Nat.ltb_spec (length d) 12); [done|].
    rewrite (proj2 (Nat.ltb_ge (length d + length x) 12)) by lia.
    destruct (byte_at d 7 =? 117); [|done].
    rewrite drop_ext by lia. rewrite readHex_ext; [done|].
    intros Hm%readHex_More. rewrite length_drop in Hm. lia. }
  destruct (byte_at d 1 =? 120); [|done].
  destruct (readHex (drop 2 d) 2) as [v c| |] eqn:Hh; [..|done]; by rewrite readHex_ext, Hh by (by rewrite Hh).
Qed.

Lemma name_loop_ext t i d x name :
  (i + t = 6)%nat -> name_loop t i (i + length d) d name <> EscMore ->
  name_loop t i (i + length (d ++ x)) (d ++ x) name = name_loop t i (i + length d) d name.
Proof.
  revert i d name. induction t as [|t IH]; intros i d name Hi.
  - cbn [name_loop]. rewrite length_app.
    by rewrite !(proj2 (Nat.leb_gt _ 5)) by lia.
  - destruct d as [|b d]; cbn [name_loop app].
    + by rewrite (proj2 (Nat.leb_le _ 5)) by (simpl; lia).
    + destruct (b =? 59); [done|]. destruct (_ || _); [done|].
      cbn [length]. rewrite !Nat.add_succ_r, <- !Nat.add_succ_l. apply IH. lia.
Qed.

Lemma digits_loop_ext dg n base mx f d x hc v :
  digits_loop dg n base mx f d hc v <> EscMore ->
  digits_loop dg n base mx f (d ++ x) hc v = digits_loop dg n base mx f d hc v.
Proof.
  revert n hc v. induction d as [|b d IH]; intros n hc v; cbn [digits_loop app]; [done|].
  destruct (b =? 59); [done|]. destruct (_ <=? _)%nat; [done|].
  destruct (hexValue b) as [[? ?]|]; [|done]. destruct (_ && _); [done|]. apply IH.
Qed.

Lemma readReference_ext d x : readReference d <> EscMore -> readReference (d ++ x) = readReference d.
Proof.
  unfold readReference. rewrite length_app.
  destruct (Nat.ltb_spec (length d) 2); [done|].
  rewrite (proj2 (Nat.ltb_ge (length d + length x) 2)), byte_at_ext by lia.
  destruct (negb (byte_at d 1 =? 35)).
  { rewrite drop_ext by lia. intros Hm.
    pose proof (name_loop_ext 5 1 (drop 1 d) x [] eq_refl) as He.
    rewrite length_app, !length_drop in He.
    replace (1 + (length d - 1))%nat with (length d) in He by lia.
    replace (1 + (length d - 1 + length x))%nat with (length d + length x)%nat in He by lia. by apply He. }
  destruct (Nat.ltb_spec 2 (length d)); cbn [andb].
  - rewrite (proj2 (Nat.ltb_lt 2 (length d + length x))), byte_at_ext, !drop_ext by lia. cbn [andb].
    destruct (_ || _); apply digits_loop_ext.
  - rewrite (drop_ge d 2) by lia. done.
Qed.

Lemma readEscape_ext d x : d <> [] -> readEscape d <> EscMore -> readEscape (d ++ x) = readEscape d.
Proof.
  destruct d as [|b d]; [done|]. intros _. unfold readEscape. cbn [hd app].
  destruct (Z.eqb_spec b 37) as [->|]; [apply readPercent_ext|].
  destruct (b =? 92); [rewrite app_comm_cons; apply readBackslash_ext|].
  destruct (b =? 38); [rewrite app_comm_cons; apply readReference_ext|done].
Qed.

(** ** How far an escape reaches *)

Lemma percent_need_bounds v : (1 <= percent_need v <= 4)%nat.
Proof. unfold percent_need. split_code; lia. Qed.

(** What an escape of a prefix [k] bytes long tells about its width. *)
Definition escape_within (k : nat) (d : list Z) (e : escape) : Prop :=
  match e with
  | EscMore => (k + length d < maxToken)%nat
  | EscNone => True
  | EscOK _ w sp => (1 < w <= maxToken)%nat /\ (w <= k + length d)%nat /\ s_form sp <> formLiteral
  end.

Lemma percent_loop_within t i need d buf hc e :
  (i = 0 \/ (i < need <= 4))%nat -> percent_loop t i need d buf hc = Some e -> escape_within (3 * i) d e.
Proof.
  revert i need d buf hc. induction t as [|t IH]; intros i need d buf hc Hi; [done|].
  destruct d as [|b d]; cbn [percent_loop].
  - intros [= <-]. unfold escape_within, maxToken. simpl length. lia.
  - destruct (negb (b =? 37)); [done|].
    destruct (readHex d 2) as [v c| |] eqn:Hh; [|done|].
    + apply readHex_OK in Hh.
      pose proof (percent_need_bounds v) as Hn.
      set (need' := if (i =? 0)%nat then percent_need v else need).
      assert (i < need' <= 4)%nat as Hn'.
      { subst need'. destruct (Nat.eqb_spec i 0); lia. }
      destruct (Nat.eqb_spec i (need' - 1)).
      * destruct (DecodeRune _) as [r w]. destruct (_ && _); [done|]. intros [= <-].
        unfold escape_within, maxToken. simpl length. repeat split; try lia; done.
      * intros He. apply IH in He; [|lia]. unfold escape_within in *. simpl length.
        rewrite length_drop in He. destruct e; simpl in *; intuition lia.
    + intros [= <-]. apply readHex_More in Hh. unfold escape_within, maxToken. simpl length. lia.
Qed.

Lemma name_loop_within t i d name :
  (1 <= i)%nat -> (i + t = 6)%nat -> escape_within i d (name_loop t i (i + length d) d name).
Proof.
  revert i d name. induction t as [|t IH]; intros i d name Hi1 Hi.
  - cbn [name_loop]. by rewrite (proj2 (Nat.leb_gt _ 5)) by lia.
  - destruct d as [|b d]; cbn [name_loop].
    + rewrite (proj2 (Nat.leb_le _ 5)) by (simpl; lia). unfold escape_within, maxToken. simpl length. lia.
    + destruct (b =? 59).
      * destruct (namedRef name); [|done]. unfold escape_within, maxToken. simpl length. repeat split; try lia; done.
      * destruct (_ || _); [done|]. simpl length. rewrite !Nat.add_succ_r, <- !Nat.add_succ_l.
        specialize (IH (S i) d (name ++ [b]) ltac:(lia) ltac:(lia)).
        unfold escape_within in *. simpl length.
        destruct (name_loop _ _ _ _ _); [lia|done|]. destruct IH as (? & ? & ?). repeat split; [lia..|done].
Qed.

Lemma digits_loop_within dg n base mx f d hc v :
  (n <= mx)%nat -> (2 <= dg)%nat -> (dg + mx < maxToken - 1)%nat -> f <> formLiteral ->
  escape_within (dg + n) d (digits_loop dg n base mx f d hc v).
Proof.
  intros Hn Hdg Hmx Hf. revert n hc v Hn. induction d as [|b d IH]; intros n hc v Hn; cbn [digits_loop].
  - unfold escape_within. simpl length. lia.
  - destruct (b =? 59).
    + destruct (_ || _); [done|]. unfold escape_within. simpl length. repeat split; [lia..|done].
    + destruct (Nat.leb_spec mx n); [done|].
      destruct (hexValue b) as [[? ?]|]; [|done]. destruct (_ && _); [done|].
      match goal with |- context [digits_loop _ _ _ _ _ _ ?h ?w] => specialize (IH (S n) h w ltac:(lia)) end.
      unfold escape_within in *. simpl length. destruct (digits_loop _ _ _ _ _ _ _ _); [lia|done|].
      destruct IH as (? & ? & ?). repeat split; [lia..|done].
Qed.

Lemma readBackslash_within d : escape_within 0 d (readBackslash d).
Proof.
  unfold readBackslash. destruct (Nat.ltb_spec (length d) 2); [unfold escape_within, maxToken; lia|].
  assert (forall n v c, readHex (drop 2 d) n = HexOK v c -> n + 2 <= length d)%nat as Hok.
  { intros n v c Hh%readHex_OK. rewrite length_drop in Hh. lia. }
  assert (forall n, readHex (drop 2 d) n = HexMore -> length d < n + 2)%nat as Hmore.
  { intros n Hh%readHex_More. rewrite length_drop in Hh. lia. }
  destruct (byte_at d 1 =? 117); [|destruct (byte_at d 1 =? 120)].
  - destruct (readHex (drop 2 d) 4) as [v c| |] eqn:Hh; [apply Hok in Hh|done|apply Hmore in Hh; unfold escape_within, maxToken; lia].
    assert (escape_within 0 d (EscOK v 6 (mkSpelling formJSONU c))) by (unfold escape_within, maxToken; repeat split; [lia..|done]).
    destruct ((0xD800 <=? v) && (v <? 0xDC00)); [|done].
    destruct (_ || _) eqn:Hlen; [bool_prop; unfold escape_within, maxToken; destruct Hlen; bool_prop; lia|].
    apply orb_false_iff in Hlen as [Hlen8 Hlen]. bool_prop.
    destruct (byte_at d 6 =? 92); [|done]. destruct Hlen as [|Hlen]; [done|]. bool_prop. cbn [andb].
    destruct (byte_at d 7 =? 117); [|done]. destruct (readHex (drop 8 d) 4); [|done..].
    destruct (_ && _); [|done]. unfold escape_within, maxToken. repeat split; [lia..|done].
  - destruct (readHex (drop 2 d) 2) as [v c| |] eqn:Hh; [apply Hok in Hh|done|apply Hmore in Hh];
      unfold escape_within, maxToken; [repeat split; [lia..|done]|lia].
  - destruct (assoc _ _); [|done]. unfold escape_within, maxToken. repeat split; [lia..|done].
Qed.

Lemma readReference_within d : escape_within 0 d (readReference d).
Proof.
  unfold readReference. destruct (Nat.ltb_spec (length d) 2); [unfold escape_within, maxToken; lia|].
  assert (forall k e, (k <= length d)%nat -> escape_within k (drop k d) e -> escape_within 0 d e) as Hk.
  { intros k e Hle. unfold escape_within. rewrite length_drop. destruct e; [lia|done|]. intros (? & ? & ?). repeat split; [lia..|done]. }
  destruct (negb (byte_at d 1 =? 35)).
  - apply (Hk 1%nat); [lia|]. replace (length d) with (1 + length (drop 1 d))%nat by (rewrite length_drop; lia).
    apply name_loop_within; lia.
  - destruct (Nat.ltb_spec 2 (length d)); cbn [andb]; [destruct (_ || _)|].
    + apply (Hk 3%nat); [lia|]. apply (digits_loop_within 3 0); unfold maxToken; [lia..|done].
    + apply (Hk 2%nat); [lia|]. apply (digits_loop_within 2 0); unfold maxToken; [lia..|done].
    + apply (Hk 2%nat); [lia|]. apply (digits_loop_within 2 0); unfold maxToken; [lia..|done].
Qed.

Lemma readPercent_within d : escape_within 0 d (readPercent d).
Proof.
  unfold readPercent. destruct (percent_loop UTFMax 0 1 d [] 0) as [e|] eqn:Hl.
  - apply percent_loop_within in Hl; [done | by left].
  - destruct (readHex (drop 1 d) 2) as [v c| |] eqn:Hh; [|done..].
    apply readHex_OK in Hh. rewrite length_drop in Hh. unfold escape_within, maxToken. repeat split; [lia..|done].
Qed.

Lemma readEscape_within d : escape_within 0 d (readEscape d).
Proof.
  unfold readEscape. repeat case_match; try done;
    auto using readPercent_within, readBackslash_within, readReference_within.
Qed.

Lemma readEscape_start d : readEscape d <> EscNone -> isEscapeStart (hd 0 d) = true.
Proof. unfold readEscape, isEscapeStart. by repeat case_match; rewrite ?orb_true_r. Qed.

(** ** Tokens *)

Lemma FullRune_ext d x : FullRune d = true -> FullRune (d ++ x) = true /\ DecodeRune (d ++ x) = DecodeRune d.
Proof.
  destruct d as [|b0 [|b1 [|b2 [|b3 d]]]]; [done|..];
    cbn [FullRune DecodeRune app length]; destruct (utf8_lead b0) as [[[n lo] hi]|] eqn:Hl; try done;
    apply utf8_lead_width in Hl; destruct n as [|[|[|[|[|n]]]]]; try lia; cbn [Nat.leb];
    try done; destruct (in_range lo hi b1) eqn:H1; cbn [negb andb]; try done;
    try (destruct (is_cont b2) eqn:H2); cbn [negb andb]; try done;
    destruct x as [|? [|? [|? ?]]]; cbn [app length Nat.leb negb andb]; try done.
Qed.

Lemma decodeLiteral_ext d x : FullRune d = true -> decodeLiteral (d ++ x) = decodeLiteral d.
Proof.
  intros Hf. unfold decodeLiteral. destruct (FullRune_ext d x Hf) as [_ ->]. by destruct d.
Qed.

Lemma decodeLiteral_width b d : let w := snd (decodeLiteral (b :: d)) in (1 <= w <= 4)%nat /\ (w <= length (b :: d))%nat.
Proof.
  unfold decodeLiteral. pose proof (DecodeRune_width b d) as Hw.
  destruct (DecodeRune (b :: d)) as [r w]. simpl in Hw. destruct (_ && _); simpl in *; lia.
Qed.

Lemma decodeLiteral_ascii b d : 0 <= b < 0x80 -> decodeLiteral (b :: d) = (b, 1%nat).
Proof.
  intros Hb. unfold decodeLiteral. rewrite DecodeRune_ascii by done.
  rewrite (proj2 (Z.eqb_neq b RuneError)) by (unfold RuneError; lia). done.
Qed.

Lemma isEscapeStart_ascii b : isEscapeStart b = true -> 0 <= b < 0x80.
Proof. unfold isEscapeStart. intros Hb. bool_prop. destruct Hb as [Hb|Hb]; bool_prop; [destruct Hb; bool_prop|]; lia. Qed.

Lemma readLiteral_ext d x f t : readLiteral d false = t -> t <> TokMore -> readLiteral (d ++ x) f = t.
Proof.
  unfold readLiteral. destruct (FullRune d) eqn:Hf; [|by intros <-].
  destruct (FullRune_ext d x Hf) as [-> _]. rewrite (decodeLiteral_ext d x Hf). simpl. by rewrite andb_false_r.
Qed.

Lemma readToken_ext d x e f t : d <> [] -> readToken d e false = t -> t <> TokMore -> readToken (d ++ x) e f = t.
Proof.
  intros Hd. unfold readToken. destruct e; [|apply readLiteral_ext].
  destruct (readEscape d) eqn:He; [by intros <- | |];
    rewrite (readEscape_ext d x Hd), He by (by rewrite He); [apply readLiteral_ext | done].
Qed.

Lemma hd_ext (d x : list Z) : d <> [] -> hd 0 (d ++ x) = hd 0 d.
Proof. by destruct d. Qed.

Lemma tokenAt_ext d x e f t : d <> [] -> tokenAt d e false = t -> t <> TokMore -> tokenAt (d ++ x) e f = t.
Proof.
  intros Hd. unfold tokenAt. rewrite hd_ext by done. destruct (_ || _); [by apply readToken_ext | done].
Qed.

(** A token is read from at most [maxToken] bytes, and is wanted longer only
    when fewer are there. *)
Lemma tokenAt_width d e f r w sp : d <> [] -> tokenAt d e f = TokOK r w sp -> (1 <= w <= maxToken)%nat /\ (w <= length d)%nat.
Proof.
  destruct d as [|b d]; [done|]. intros _.
  assert (forall r w sp, readLiteral (b :: d) f = TokOK r w sp -> (1 <= w <= maxToken)%nat /\ (w <= length (b :: d))%nat) as Hlit.
  { intros r' w' sp'. unfold readLiteral. destruct (_ && _); [done|].
    pose proof (decodeLiteral_width b d) as Hw. destruct (decodeLiteral _) as [r0 w0]. intros [= <- <- <-].
    unfold maxToken. simpl in *. lia. }
  unfold tokenAt. destruct (_ || _); [|intros [= <- <- <-]; unfold maxToken; simpl; lia].
  unfold readToken. destruct e; [|apply Hlit].
  pose proof (readEscape_within (b :: d)) as Hw.
  destruct (readEscape (b :: d)) as [| |r0 w0 sp0]; [destruct f; [apply Hlit|done] | apply Hlit |].
  intros [= <- <- <-]. simpl in *. lia.
Qed.

Lemma FullRune_short d : FullRune d = false -> (length d < 4)%nat.
Proof.
  destruct d as [|b0 d]; [simpl; lia|]. cbn [FullRune].
  destruct (utf8_lead b0) as [[[n lo] hi]|] eqn:Hl; [|done].
  apply utf8_lead_width in Hl. destruct (Nat.leb_spec n (length (b0 :: d))); [done|]. lia.
Qed.

Lemma tokenAt_More d e f : tokenAt d e f = TokMore -> f = false /\ (length d < maxToken)%nat.
Proof.
  unfold tokenAt. destruct (_ || _); [|done].
  assert (readLiteral d f = TokMore -> f = false /\ (length d < maxToken)%nat) as Hlit.
  { unfold readLiteral. destruct f, (FullRune d) eqn:Hf; simpl; try (by destruct (decodeLiteral d)).
    apply FullRune_short in Hf. unfold maxToken. split; [done|lia]. }
  unfold readToken. destruct e; [|done]. pose proof (readEscape_within d) as Hw.
  destruct (readEscape d); [destruct f; [done|] | done | done]. simpl in Hw. done.
Qed.

(** An escaped character starts with an ASCII byte, which is also its literal
    reading. *)
Lemma tokenAt_escape d e f r w sp :
  tokenAt d e f = TokOK r w sp -> s_form sp <> formLiteral -> isEscapeStart (hd 0 d) = true.
Proof.
  assert (forall r w sp, readLiteral d f = TokOK r w sp -> s_form sp = formLiteral) as Hlit.
  { intros ???. unfold readLiteral. destruct (_ && _); [done|]. destruct (decodeLiteral d). by intros [= <- <- <-]. }
  unfold tokenAt. destruct (_ || _); [|by intros [= <- <- <-]].
  unfold readToken. destruct e; [|by intros ->%Hlit].
  destruct (readEscape d) eqn:He; [destruct f; [by intros ->%Hlit|done] | by intros ->%Hlit |].
  intros _ _. apply readEscape_start. by rewrite He.
Qed.

Lemma literal_reading_escape d f : isEscapeStart (hd 0 d) = true -> readToken d false f = TokOK (hd 0 d) 1 literal.
Proof.
  destruct d as [|b d]; [done|]. intros Hb. pose proof (isEscapeStart_ascii b Hb) as Hr.
  unfold readToken, readLiteral. cbn [hd] in *. rewrite decodeLiteral_ascii by done.
  destruct (FullRune (b :: d)) eqn:Hf; [by rewrite andb_false_r|].
  exfalso. simpl in Hf. unfold utf8_lead in Hf. rewrite (proj2 (Z.ltb_lt b 0x80)) in Hf by lia. done.
Qed.

Section scrubber.
Context `{UnicodeTables}.

(** ** Matches *)

(** One turn of the inner loop, with the literal reading of an escape
    evaluated. *)
Definition literal_instead (w : nat) (sp : spelling) (escaped : bool) (b want : Z) (fold : bool) : bool :=
  escaped && (1 <? w)%nat && negb (bool_decide (s_form sp = formLiteral)) && equalRune b want fold.
Lemma matchRune_eq gaps first want fold e f b d :
  matchRune gaps first want fold e f (b :: d) =
  match tokenAt (b :: d) e f with
  | TokMore => RuneMore
  | TokOK r w sp =>
    if equalRune r want fold then RuneOK (matched_spelling sp r want fold) w
    else if literal_instead w sp e b want fold then RuneOK literal 1
    else match gaps with
         | O => RuneNone
         | S gaps' => if first || negb (isGap r) then RuneNone
                      else shift w (matchRune gaps' first want fold e f (drop w (b :: d)))
         end
  end.
Proof.
  unfold literal_instead.
  destruct gaps; cbn [matchRune]; (destruct (tokenAt (b :: d) e f) as [|r w sp] eqn:Ht; [done|]);
    (destruct (equalRune r want fold); [done|]);
    (destruct (e && (1 <? w)%nat && negb _) eqn:Hlit; cbn [andb]; [|done]); bool_prop;
    (apply tokenAt_escape in Ht; [|done]); rewrite literal_reading_escape by done; cbn [hd];
    by destruct (equalRune b want fold).
Qed.

Lemma matchRune_ext gaps first want fold e d x f m :
  matchRune gaps first want fold e false d = m -> m <> RuneMore -> matchRune gaps first want fold e f (d ++ x) = m.
Proof.
  intros <-. revert d. induction gaps as [|gaps IH]; (intros [|b d]; [done|]);
    change ((b :: d) ++ x) with (b :: d ++ x); rewrite !matchRune_eq, (app_comm_cons d x b);
    (destruct (tokenAt (b :: d) e false) as [|r w sp] eqn:Ht; [done|]);
    rewrite (tokenAt_ext (b :: d) x e f _ ltac:(done) Ht) by done;
    (destruct (equalRune r want fold); [done|]); (destruct (literal_instead _ _ _ _ _ _); [done|]); [done|].
  destruct (first || negb (isGap r)); [done|].
  apply tokenAt_width in Ht as Hw; [|done]. rewrite drop_ext by lia. intros Hm. rewrite IH; [done|].
  intros Heq. by rewrite Heq in Hm.
Qed.

Lemma matchRune_width gaps first want fold e f d sp w :
  matchRune gaps first want fold e f d = RuneOK sp w ->
  (1 <= w <= maxToken * S gaps)%nat /\ (w <= length d)%nat.
Proof.
  revert d w. induction gaps as [|gaps IH]; (intros [|b d] w; [by destruct f|]); rewrite matchRune_eq;
    (destruct (tokenAt (b :: d) e f) as [|r w0 sp0] eqn:Ht; [done|]);
    apply tokenAt_width in Ht as Hw; try done;
    (destruct (equalRune r want fold); [intros [= <- <-]; lia|]);
    (destruct (literal_instead _ _ _ _ _ _); [intros [= <- <-]; unfold maxToken; simpl; lia|]); [done|].
  destruct (first || negb (isGap r)); [done|].
  destruct (matchRune gaps _ _ _ _ _ _) as [| |sp1 w1] eqn:Hm; cbn [shift]; try done. intros [= <- <-].
  apply IH in Hm. rewrite length_drop in Hm. lia.
Qed.

Lemma matchRune_More gaps first want fold e f d :
  matchRune gaps first want fold e f d = RuneMore -> f = false /\ (length d < maxToken * S gaps)%nat.
Proof.
  revert d. induction gaps as [|gaps IH];
    (intros [|b d]; [destruct f; [done|]; intros _; split; [done|]; unfold maxToken; simpl length; lia|]);
    rewrite matchRune_eq;
    (destruct (tokenAt (b :: d) e f) as [|r w0 sp0] eqn:Ht; [intros _; apply tokenAt_More in Ht; split; [tauto|lia]|]);
    (destruct (equalRune r want fold); [done|]); (destruct (literal_instead _ _ _ _ _ _); [done|]); [done|].
  destruct (first || negb (isGap r)); [done|]. apply tokenAt_width in Ht as Hw; [|done].
  destruct (matchRune gaps _ _ _ _ _ _) as [| |sp1 w1] eqn:Hm; cbn [shift]; try done. intros _.
  apply IH in Hm as [-> Hm]. rewrite length_drop in Hm. split; [done|lia].
Qed.

(** The first character of a match is not looked for past a format
    character. *)
Lemma matchRune_first gaps want fold e f d : matchRune gaps true want fold e f d = matchRune 0 true want fold e f d.
Proof. destruct gaps; [done|]. destruct d; [done|]. by rewrite !matchRune_eq. Qed.

Lemma matchRunes_ext want first fold e d x f m :
  matchRunes first want fold e false d = m -> m <> MatchMore -> matchRunes first want fold e f (d ++ x) = m.
Proof.
  intros <-. revert first d. induction want as [|r want IH]; intros first d; [done|]. cbn [matchRunes].
  destruct (matchRune maxGap first r fold e false d) as [| |sp w] eqn:Hm; [|done|];
    rewrite (matchRune_ext _ _ _ _ _ _ x f _ Hm) by done; [done|].
  apply matchRune_width in Hm as Hw. rewrite drop_ext by lia. intros Hne. rewrite IH; [done|].
  intros Heq. by rewrite Heq in Hne.
Qed.

Lemma matchAt_ext d n e x f m : matchAt d n e false = m -> m <> MatchMore -> matchAt (d ++ x) n e f = m.
Proof. unfold matchAt. intros Hm Hne. by apply (matchRunes_ext _ _ _ _ _ _ _ _ Hm). Qed.

(** ** The bytes a match may span *)

Definition span_bound (runes : nat) : nat := runes * maxToken + (runes - 1) * maxGap * maxToken.

Lemma matchRune_width' first want fold e f d sp w :
  matchRune maxGap first want fold e f d = RuneOK sp w ->
  (w <= (if first then maxToken else maxToken + maxGap * maxToken))%nat.
Proof. destruct first; [rewrite matchRune_first|]; intros Hw%matchRune_width; unfold maxGap, maxToken in *; lia. Qed.

Lemma matchRune_More' first want fold e f d :
  matchRune maxGap first want fold e f d = RuneMore ->
  f = false /\ (length d < (if first then maxToken else maxToken + maxGap * maxToken))%nat.
Proof. destruct first; [rewrite matchRune_first|]; intros [-> Hw]%matchRune_More; unfold maxGap, maxToken in *; split; [done|lia|done|lia]. Qed.

(** What a match in progress reaches: its end, or the end of the data it
    wants more of. *)
Lemma matchRunes_span want first fold e f d :
  match matchRunes first want fold e f d with
  | MatchNone => True
  | MatchMore => f = false /\ (length d < length want * maxToken + (length want - (if first then 1 else 0)) * maxGap * maxToken)%nat
  | MatchFound n sps => (length want <= n)%nat /\ (n <= length d)%nat /\ length sps = length want
                 /\ (n <= length want * maxToken + (length want - (if first then 1 else 0)) * maxGap * maxToken)%nat
  end.
Proof.
  revert first d. induction want as [|r want IH]; intros first d; cbn [matchRunes]; [simpl; lia|].
  destruct (matchRune maxGap first r fold e f d) as [| |sp w] eqn:Hm; [done| |].
  - apply matchRune_More' in Hm as [-> Hm]. split; [done|]. simpl length. unfold maxGap, maxToken in *. destruct first; lia.
  - pose proof (matchRune_width' _ _ _ _ _ _ _ _ Hm) as Hw3. apply matchRune_width in Hm as [Hw1 Hw2].
    specialize (IH false (drop w d)). rewrite length_drop in IH.
    destruct (matchRunes false want fold e f (drop w d)) as [| |n sps]; [done| |].
    + destruct IH as [-> IH]. split; [done|]. simpl length. unfold maxGap, maxToken in *. destruct first; lia.
    + simpl length. unfold maxGap, maxToken in *. destruct first; lia.
Qed.
End scrubber.
