(* ===== verification/ScrubTables.v ===== *)
(** * The tables of the scrubber miss nothing

    [newScrubber] builds tables by first byte, first two bytes and first
    character, so that the scan passes over most bytes and most needles.  The
    lemmas here state what the tables hold, and that at every position the
    scan finds what trying every needle that starts with the character there
    would find. *)
From stdpp Require Import base gmap strings list option sets.
From Stdlib Require Import ZArith Lia Ascii.
From S2P Require Import Prelude GoUtf8 GoStrings GoNet Body GoHttp GoEncoding ScrubPairs Utf8Codec ScrubMatch ScrubStream.
Local Open Scope string_scope.
Local Open Scope list_scope.
Local Open Scope Z_scope.

Section tables.
Context `{UnicodeTables}.

(** ** What the tables hold *)

Definition admits_second (n : needle) (head b1 : Z) : Prop :=
  match n_runes n with
  | _ :: second :: _ => RuneSelf <= head \/ RuneSelf <= second \/ b1 ∈ second_bytes second
  | _ => True
  end.

Definition has_head (ns : list needle) (r : Z) (i : nat) : bool :=
  match ns !! i with Some n => bool_decide (r ∈ heads_of n) | None => false end.

Definition bit (s : scrubber) (b0 b1 : Z) : Prop := Z.testbit (row s b0) b1 = true.

(** The entries of one needle and one of its heads. *)
Definition entered (s : scrubber) (n : needle) (head : Z) : Prop :=
  let lead := hd 0 (appendRune head) in
  lead ∈ start s /\ forall b1, is_byte b1 -> admits_second n head b1 -> bit s lead b1.

Record tables_ok (s : scrubber) : Prop := {
  ok_heads : forall r, 0 <= r -> startingWith s r = List.filter (has_head (needles s) r) (seq 0 (length (needles s)));
  ok_literal : Forall (fun n => literalEscape n = existsb isEscapeStart (n_runes n)) (needles s);
  ok_entered : Forall (fun n => forall head, head ∈ heads_of n -> entered s n head) (needles s);
  ok_row : forall b0 b1, bit s b0 b1 -> b0 ∈ start s;
  ok_escape : forall b, isEscapeStart b = true -> b ∈ start s /\ forall b1, is_byte b1 -> bit s b b1;
}.

(** One table extends another. *)
Definition extends (s s' : scrubber) : Prop :=
  start s ⊆ start s' /\ forall b0 b1, is_byte b1 -> bit s b0 b1 -> bit s' b0 b1.
#[local] Instance extends_refl : Reflexive extends.
Proof. by split. Qed.
#[local] Instance extends_trans : Transitive extends.
Proof. intros a b c [? ?] [? ?]. split; [set_solver | eauto]. Qed.

Lemma fold_extends {A} (step : scrubber -> A -> scrubber) l s :
  (forall s a, extends s (step s a)) -> extends s (fold_left step l s).
Proof. intros Hstep. revert s. induction l as [|a l IH]; intros s; [done|]. simpl. etrans; [apply Hstep | apply IH]. Qed.

Lemma bit_put_row s b0 v c0 b1 : bit (put_row s b0 v) c0 b1 <-> (if decide (b0 = c0) then Z.testbit v b1 = true else bit s c0 b1).
Proof. unfold bit, row, put_row. cbn [pair]. rewrite lookup_insert. by destruct (decide (b0 = c0)). Qed.

Lemma setRow_extends b0 s : extends s (setRow b0 s).
Proof.
  split; [done|]. intros c0 b1 Hb Hbit. unfold setRow. rewrite bit_put_row.
  destruct (decide (b0 = c0)); [|done]. apply Z.ones_spec_low. unfold is_byte in Hb. lia.
Qed.

Lemma setPair_extends b0 s b1 : extends s (setPair b0 s b1).
Proof.
  split; [done|]. intros c0 c1 Hb Hbit. unfold setPair. rewrite bit_put_row.
  destruct (decide (b0 = c0)) as [->|]; [|done]. unfold bit in Hbit. by rewrite Z.setbit_spec', Z.lor_spec, Hbit.
Qed.

Lemma setStart_extends b s : extends s (setStart b s).
Proof. split; [set_solver | done]. Qed.
Lemma addHead_extends h i s : extends s (addHead h i s).
Proof. unfold addHead. destruct (_ <? _); by split. Qed.

Lemma setPairs_bit b0 l s b1 : is_byte b1 -> b1 ∈ l -> bit (fold_left (setPair b0) l s) b0 b1.
Proof.
  intros Hb. revert s. induction l as [|c l IH]; intros s; [by rewrite elem_of_nil|].
  rewrite elem_of_cons. intros [<- | Hl]; cbn [fold_left]; [|by apply IH].
  apply (fold_extends (setPair b0) l (setPair b0 s b1)); [intros; apply setPair_extends | done |].
  unfold setPair. rewrite bit_put_row, decide_True by done. apply Z.setbit_eq. unfold is_byte in Hb. lia.
Qed.

Lemma enter_head_extends i n s h : extends s (enter_head i n s h).
Proof.
  unfold enter_head.
  assert (extends s (setStart (hd 0 (appendRune h)) (addHead h i s))) as Hs.
  { etrans; [apply addHead_extends | apply setStart_extends]. }
  destruct (n_runes n) as [|r [|second rs]]; [..|destruct (_ || _)];
    (etrans; [exact Hs|]); [apply setRow_extends..|]. apply fold_extends. intros. apply setPair_extends.
Qed.

Lemma setRow_bit b0 s b1 : is_byte b1 -> bit (setRow b0 s) b0 b1.
Proof.
  intros Hb. unfold setRow. rewrite bit_put_row, decide_True by done.
  apply Z.ones_spec_low. unfold is_byte in Hb. lia.
Qed.

Lemma setPairs_start b0 l s : start (fold_left (setPair b0) l s) = start s.
Proof. revert s. induction l as [|c l IH]; intros s; [done|]. cbn [fold_left]. by rewrite IH. Qed.

Lemma enter_head_entered i n s h : entered (enter_head i n s h) n h.
Proof.
  unfold entered, enter_head, admits_second. set (lead := hd 0 (appendRune h)).
  set (s1 := setStart lead (addHead h i s)).
  assert (lead ∈ start s1) by (subst s1; unfold setStart; cbn [start]; set_solver).
  destruct (n_runes n) as [|r [|second rs]]; [split; [done|]; intros; by apply setRow_bit..|].
  destruct (_ || _) eqn:Hrow.
  - split; [done|]. intros. by apply setRow_bit.
  - bool_prop. split; [by rewrite setPairs_start|]. intros b1 Hb [?|[?|?]]; [lia..|]. by apply setPairs_bit.
Qed.

Lemma entered_extends s s' n h : extends s s' -> entered s n h -> entered s' n h.
Proof. intros [Hs Hb] [Hl He]. split; [set_solver | eauto]. Qed.

(** A row is filled only where the first byte is marked. *)
Definition rows_marked (s : scrubber) : Prop := forall b0 b1, bit s b0 b1 -> b0 ∈ start s.

Lemma put_row_marked s b0 v : b0 ∈ start s -> rows_marked s -> rows_marked (put_row s b0 v).
Proof. intros Hs Hm c0 b1. rewrite bit_put_row. destruct (decide (b0 = c0)) as [<-|]; [done | apply Hm]. Qed.

Lemma setPairs_marked b0 l s : b0 ∈ start s -> rows_marked s -> rows_marked (fold_left (setPair b0) l s).
Proof. revert s. induction l as [|c l IH]; intros s Hs Hm; [done|]. cbn [fold_left]. apply IH; [done|]. by apply put_row_marked. Qed.

Lemma enter_head_marked i n s h : rows_marked s -> rows_marked (enter_head i n s h).
Proof.
  intros Hm. unfold enter_head. set (lead := hd 0 (appendRune h)).
  assert (rows_marked (setStart lead (addHead h i s))) as Hm1.
  { intros c0 b1 Hb. unfold setStart. cbn [start]. apply elem_of_union. right.
    unfold addHead in *. destruct (_ <? _); apply (Hm c0 b1), Hb. }
  assert (lead ∈ start (setStart lead (addHead h i s))) by (unfold setStart; cbn [start]; set_solver).
  destruct (n_runes n) as [|r [|second rs]]; [..|destruct (_ || _)];
    [by apply put_row_marked..|by apply setPairs_marked].
Qed.

(** The table of heads after one head, and after the heads of one needle. *)
Lemma setPairs_needles b0 l s : needles (fold_left (setPair b0) l s) = needles s.
Proof. revert s. induction l as [|c l IH]; intros s; [done|]. cbn [fold_left]. by rewrite IH. Qed.
Lemma setPairs_startingWith b0 l s r : startingWith (fold_left (setPair b0) l s) r = startingWith s r.
Proof. revert s. induction l as [|c l IH]; intros s; [done|]. cbn [fold_left]. by rewrite IH. Qed.

Lemma enter_head_needles i n s h : needles (enter_head i n s h) = needles s.
Proof.
  unfold enter_head, addHead. destruct (n_runes n) as [|r [|second rs]]; [..|destruct (_ || _)];
    rewrite ?setPairs_needles; by destruct (_ <? _).
Qed.

Lemma enter_head_startingWith i n s h r :
  0 <= r -> startingWith (enter_head i n s h) r = startingWith s r ++ (if decide (h = r) then [i] else []).
Proof.
  intros Hr. transitivity (startingWith (addHead h i s) r).
  { unfold enter_head. destruct (n_runes n) as [|r0 [|second rs]]; [..|destruct (_ || _)];
      rewrite ?setPairs_startingWith; done. }
  unfold addHead, startingWith, push. rewrite (proj2 (Z.leb_le 0 r)) by done. cbn [andb].
  destruct (Z.ltb_spec h RuneSelf), (Z.ltb_spec r RuneSelf); cbn [ascii_heads other_heads];
    rewrite ?lookup_insert; destruct (decide (h = r)); subst; rewrite ?app_nil_r; try done; lia.
Qed.

Lemma fold_heads_startingWith i n hs s r :
  0 <= r -> NoDup hs ->
  startingWith (fold_left (enter_head i n) hs s) r = startingWith s r ++ (if decide (r ∈ hs) then [i] else []).
Proof.
  intros Hr. revert s. induction hs as [|h hs IH]; intros s Hnd; cbn [fold_left]; [by rewrite app_nil_r|].
  apply NoDup_cons in Hnd as [Hh Hnd]. rewrite IH, enter_head_startingWith, <- app_assoc by done. f_equal.
  destruct (decide (h = r)) as [->|]; [rewrite decide_False, decide_True by set_solver; done|].
  destruct (decide (r ∈ hs)); [rewrite decide_True by set_solver | rewrite decide_False by set_solver]; done.
Qed.

Lemma fold_heads_needles i n hs s : needles (fold_left (enter_head i n) hs s) = needles s.
Proof. revert s. induction hs as [|h hs IH]; intros s; [done|]. cbn [fold_left]. by rewrite IH, enter_head_needles. Qed.

Lemma fold_heads_entered i n hs s h : h ∈ hs -> entered (fold_left (enter_head i n) hs s) n h.
Proof.
  revert s. induction hs as [|h' hs IH]; intros s; [by rewrite elem_of_nil|]. rewrite elem_of_cons. cbn [fold_left].
  intros [-> | Hh]; [|by apply IH].
  apply (entered_extends (enter_head i n s h')); [|apply enter_head_entered].
  apply fold_extends. intros. apply enter_head_extends.
Qed.

Lemma fold_heads_marked i n hs s : rows_marked s -> rows_marked (fold_left (enter_head i n) hs s).
Proof. revert s. induction hs as [|h hs IH]; intros s Hm; [done|]. cbn [fold_left]. by apply IH, enter_head_marked. Qed.

Lemma heads_of_nodup n : NoDup (heads_of n).
Proof.
  unfold heads_of. destruct (n_runes n) as [|r rs]; [constructor|].
  destruct (n_fold n && _) eqn:Hf; bool_prop; repeat constructor; set_solver.
Qed.

Lemma filter_ext_in' {A} (f g : A -> bool) l : (forall a, a ∈ l -> f a = g a) -> List.filter f l = List.filter g l.
Proof. intros He. apply filter_ext_in. intros a Ha. apply He. by apply list_elem_of_In. Qed.

Lemma enter_pair_ok s p : tables_ok s -> tables_ok (enter_pair s p).
Proof.
  intros Hs. unfold enter_pair. set (n := needle_of p). destruct (n_runes n) as [|r0 rs] eqn:Hr; [done|].
  set (s' := fold_left (enter_head (length (needles s)) n) (heads_of n) (addNeedle n s)).
  assert (needles s' = needles s ++ [n]) as Hn by (subst s'; by rewrite fold_heads_needles).
  assert (extends s s') as Hext.
  { transitivity (addNeedle n s); [by split|]. apply fold_extends. intros. apply enter_head_extends. }
  constructor.
  - intros r Hr0. subst s'. rewrite fold_heads_startingWith, Hn by (done || apply heads_of_nodup).
    rewrite length_app, Nat.add_1_r, seq_S, List.filter_app. f_equal.
    + transitivity (startingWith s r); [done|]. rewrite (ok_heads s Hs r Hr0). apply filter_ext_in'.
      intros i Hi%elem_of_seq. unfold has_head. by rewrite lookup_app_l by lia.
    + cbn [List.filter Nat.add]. unfold has_head. rewrite lookup_app_r, Nat.sub_diag by lia. simpl.
      case_bool_decide; [by rewrite decide_True | by rewrite decide_False].
  - rewrite Hn. apply list.Forall_app. split; [apply (ok_literal s Hs)|]. by constructor.
  - rewrite Hn. apply list.Forall_app. split.
    + eapply list.Forall_impl; [apply (ok_entered s Hs)|]. intros n' He h Hh. eapply entered_extends; eauto.
    + constructor; [|done]. intros h Hh. by apply fold_heads_entered.
  - apply fold_heads_marked. intros b0 b1 Hb. apply (ok_row s Hs b0 b1 Hb).
  - intros b Hb. destruct (ok_escape s Hs b Hb) as [? ?]. destruct Hext. split; [set_solver | eauto].
Qed.

Lemma newScrubber_ok ps : tables_ok (newScrubber ps).
Proof.
  unfold newScrubber.
  assert (tables_ok (fold_left (fun s b => setRow b (setStart b s)) [37; 92; 38] empty_scrubber)) as Hbase.
  { set (s0 := fold_left _ _ _).
    assert (forall b0, Z.testbit (row s0 b0) = Z.testbit (if decide (b0 ∈ [37; 92; 38]) then Z.ones 256 else 0)) as Hrow.
    { intros b0. f_equal. subst s0. unfold row. cbn [fold_left setRow put_row setStart pair]. rewrite !lookup_insert.
      repeat (case_decide; subst; try done); set_solver. }
    assert (start s0 = {[38; 92; 37]}) as Hst.
    { subst s0. cbn [fold_left setRow put_row setStart start empty_scrubber]. set_solver. }
    constructor.
    - intros r _. subst s0. unfold startingWith. cbn. by destruct (_ && _); rewrite lookup_empty.
    - constructor.
    - constructor.
    - intros b0 b1. unfold bit. rewrite Hrow, Hst. case_decide; [set_solver | by rewrite Z.testbit_0_l].
    - intros b Hb. assert (b ∈ [37; 92; 38]) as Hin.
      { unfold isEscapeStart in Hb. bool_prop. destruct Hb as [Hb|Hb]; bool_prop; [destruct Hb; bool_prop|]; set_solver. }
      split; [rewrite Hst; set_solver|]. intros b1 Hb1. unfold bit. rewrite Hrow, decide_True by done.
      apply Z.ones_spec_low. unfold is_byte in Hb1. lia. }
  revert Hbase. generalize (fold_left (fun s b => setRow b (setStart b s)) [37; 92; 38] empty_scrubber).
  induction ps as [|p ps IH]; intros s Hs; [done|]. cbn [fold_left]. by apply IH, enter_pair_ok.
Qed.

(** ** Trying every needle

    The reference: at a position, in each pass, every needle whose first
    character is the one read there is matched, in order. *)
Definition head_matches (r : Z) (n : needle) : bool :=
  match n_runes n with want :: _ => equalRune r want (n_fold n) | [] => false end.

Definition ref_needle (s : scrubber) (data : list Z) (escaped final : bool) (r : Z) (c : candidates) (index : nat) : candidates :=
  match needles s !! index with
  | Some n => if head_matches r n then consider c index (matchAt data n escaped final) else c
  | None => c
  end.
Definition ref_pass (s : scrubber) (data : list Z) (escaped final : bool) (c : candidates) : candidates :=
  match tokenAt data escaped final with
  | TokMore => mkCandidates true (best c)
  | TokOK r _ _ => fold_left (ref_needle s data escaped final r) (seq 0 (length (needles s))) c
  end.
Definition ref_position (s : scrubber) (data : list Z) (final : bool) : candidates :=
  let c := ref_pass s data true final (mkCandidates false None) in
  match best c with
  | Some _ => c
  | None => if isEscapeStart (hd 0 data) then ref_pass s data false final c else c
  end.

(** *** Heads *)

Lemma lower_of_upper r : 0 <= r < RuneSelf -> unicode_ToUpper r <> r -> unicode_ToLower (unicode_ToUpper r) = r.
Proof.
  unfold unicode_ToUpper, unicode_ToLower, is_lower_ascii, is_upper_ascii, in_range, RuneSelf. intros Hr. z_cases.
Qed.

Lemma upper_of_lower r : 0 <= r < RuneSelf -> unicode_ToLower r <> r -> unicode_ToUpper (unicode_ToLower r) = r.
Proof.
  unfold unicode_ToUpper, unicode_ToLower, is_lower_ascii, is_upper_ascii, in_range, RuneSelf. intros Hr. z_cases.
Qed.

Lemma equalRune_cases r want fold :
  equalRune r want fold = true <->
  r = want \/ fold = true /\ r < RuneSelf /\ want < RuneSelf /\ unicode_ToLower r = want.
Proof.
  unfold equalRune. rewrite orb_true_iff, !andb_true_iff, !Z.eqb_eq, !Z.ltb_lt. tauto.
Qed.

Lemma head_matches_heads r n : 0 <= r -> head_matches r n = true -> r ∈ heads_of n.
Proof.
  intros Hr. unfold head_matches, heads_of. destruct (n_runes n) as [|want ws]; [done|].
  intros [->|(Hf & Hr1 & Hw & Hl)]%equalRune_cases; [set_solver|]. rewrite Hf.
  destruct (Z.eq_dec r want) as [->|Hne]; [set_solver|].
  assert (unicode_ToUpper want = r) as Hup by (subst want; apply upper_of_lower; [done|lia]).
  rewrite Hup, (proj2 (Z.eqb_neq r want)) by done. set_solver.
Qed.

(** A head that the first character does not equal is the upper case of a
    folded character outside ASCII, which nothing equals. *)
Lemma heads_matches r n : 0 <= r -> r ∈ heads_of n -> head_matches r n = false ->
  exists want ws, n_runes n = want :: ws /\ (RuneSelf <= want \/ want < 0).
Proof.
  intros Hr. unfold head_matches, heads_of. destruct (n_runes n) as [|want ws]; [by rewrite elem_of_nil|].
  intros Hin Hne. exists want, ws. split; [done|]. destruct (Z.lt_ge_cases want 0); [by right|]. left.
  destruct (Z.le_gt_cases RuneSelf want) as [|Hlt]; [done|]. exfalso.
  apply not_true_iff_false in Hne. apply Hne. apply equalRune_cases.
  apply elem_of_cons in Hin as [->|Hin]; [by left|]. right.
  destruct (n_fold n && negb (unicode_ToUpper want =? want)) eqn:Hf; [|by apply elem_of_nil in Hin]. bool_prop.
  apply list_elem_of_singleton in Hin as ->. split_and!; [done| |done|apply lower_of_upper; [lia|done]].
  unfold unicode_ToUpper, is_lower_ascii, in_range, RuneSelf in *. z_cases.
Qed.

(** *** Candidates the tables leave out *)

Lemma first_mismatch gaps want fold e f d r w sp :
  d <> [] -> tokenAt d e f = TokOK r w sp -> equalRune r want fold = false -> RuneSelf <= want \/ want < 0 ->
  matchRune gaps true want fold e f d = RuneNone.
Proof.
  destruct d as [|b d]; [done|]. intros _ Ht He Hw. rewrite matchRune_eq, Ht, He.
  replace (literal_instead w sp e b want fold) with false; [by destruct gaps|]. symmetry.
  unfold literal_instead. destruct (e && (1 <? w)%nat && _) eqn:Hl; [|done]. bool_prop. cbn [andb].
  apply tokenAt_escape in Ht; [|done]. apply isEscapeStart_ascii in Ht. cbn [hd] in Ht. unfold RuneSelf in *.
  apply not_true_iff_false. rewrite equalRune_cases. unfold RuneSelf. intros [?|(_ & ? & ? & Hl2)]; [lia|].
  unfold unicode_ToLower, is_upper_ascii, in_range, RuneSelf in Hl2. revert Hl2. z_cases.
Qed.

Lemma plain_token b d e f : 0 <= b < RuneSelf -> isEscapeStart b = false -> tokenAt (b :: d) e f = TokOK b 1 literal.
Proof. intros Hb He. unfold tokenAt. cbn [hd]. by rewrite He, (proj2 (Z.leb_gt RuneSelf b)) by lia. Qed.

(** A plain byte after the first character must be the second one. *)
Lemma second_mismatch d n e f r w sp want second ws b d2 :
  d <> [] -> tokenAt d e f = TokOK r w sp -> n_runes n = want :: second :: ws -> equalRune r want (n_fold n) = true ->
  drop w d = b :: d2 -> 0 <= b < RuneSelf -> isEscapeStart b = false -> equalRune b second (n_fold n) = false ->
  matchAt d n e f = MatchNone.
Proof.
  intros Hd Ht Hn He Hdrop Hb Hesc Hs. unfold matchAt. rewrite Hn. cbn [matchRunes].
  destruct d as [|b0 d]; [done|]. rewrite matchRune_eq, Ht, He, Hdrop, matchRune_eq, plain_token, Hs by done.
  unfold literal_instead. replace (1 <? 1)%nat with false by done. rewrite andb_false_r. cbn [andb].
  replace (isGap b) with false; [by rewrite orb_true_r; destruct maxGap|].
  symmetry. unfold isGap. by rewrite (proj2 (Z.leb_gt 0xAD b)) by (unfold RuneSelf in *; lia).
Qed.

(** *** Runes of byte strings are not negative *)

Lemma hex_loop_nonneg n d v c v' c' : 0 <= v -> hex_loop n d v c = HexOK v' c' -> 0 <= v'.
Proof.
  revert d v c. induction n as [|n IH]; intros d v c Hv; cbn [hex_loop]; [by intros [= <- <-]|].
  destruct d as [|b d]; [done|]. destruct (hexValue b) as [[dg c1]|] eqn:Hh; [|done].
  apply IH. apply Z.lor_nonneg. split; [by apply Z.shiftl_nonneg|].
  unfold hexValue, in_range in Hh. repeat case_match; simplify_eq; bool_prop; lia.
Qed.

Lemma DecodeRune_nonneg b d : 0 <= b -> 0 <= fst (DecodeRune (b :: d)).
Proof.
  intros Hb. cbn [DecodeRune]. rewrite ?two_bytes, ?three_bytes, ?four_bytes.
  repeat case_match; cbn [fst]; try (unfold RuneError; lia);
    rewrite ?two_bytes, ?three_bytes, ?four_bytes; div_lia.
Qed.

Lemma percent_loop_nonneg t i need d buf hc r w sp :
  (0 <= hd 0 buf) -> percent_loop t i need d buf hc = Some (EscOK r w sp) -> 0 <= r.
Proof.
  revert i need d buf hc. induction t as [|t IH]; intros i need d buf hc Hbuf; [done|].
  destruct d as [|b d]; cbn [percent_loop]; [done|]. destruct (negb _); [done|].
  destruct (readHex d 2) as [v c| |] eqn:Hh; try done. apply hex_loop_nonneg in Hh; [|done].
  assert (exists b0 l, buf ++ [v] = b0 :: l /\ 0 <= b0) as (b0 & l & -> & Hb0).
  { destruct buf as [|b0 l]; [by exists v, [] | by exists b0, (l ++ [v])]. }
  destruct (i =? _)%nat; [|by apply IH].
  pose proof (DecodeRune_nonneg b0 l Hb0) as Hr. destruct (DecodeRune _) as [r0 w0]. destruct (_ && _); [done|].
  by intros [= <- <- <-].
Qed.

Lemma digits_loop_nonneg dg n base mx f d hc v r w sp :
  0 <= base -> 0 <= v -> digits_loop dg n base mx f d hc v = EscOK r w sp -> 0 <= r.
Proof.
  intros Hbase. revert n hc v. induction d as [|b d IH]; intros n hc v Hv; cbn [digits_loop]; [done|].
  destruct (b =? 59); [destruct (_ || _); [done|]; by intros [= <- <- <-]|].
  destruct (_ <=? _)%nat; [done|]. destruct (hexValue b) as [[g c]|] eqn:Hh; [|done]. destruct (_ && _); [done|].
  apply IH. assert (0 <= g) by (unfold hexValue, in_range in Hh; repeat case_match; simplify_eq; bool_prop; lia). nia.
Qed.

Lemma name_loop_nonneg t i total d name r w sp : name_loop t i total d name = EscOK r w sp -> 0 <= r.
Proof.
  revert i d name. induction t as [|t IH]; intros i d name; cbn [name_loop]; [by destruct (_ <=? _)%nat|].
  destruct d as [|b d]; [by destruct (_ <=? _)%nat|]. destruct (b =? 59); [|destruct (_ || _); [done|apply IH]].
  unfold namedRef. destruct (find _ namedRefs) as [[nm v]|] eqn:Hf; [|done]. intros [= <- <- <-].
  apply find_some in Hf as [Hin _]. simpl in Hin. cbn [snd]. naive_solver lia.
Qed.

Lemma readEscape_nonneg d r w sp : readEscape d = EscOK r w sp -> 0 <= r.
Proof.
  unfold readEscape. destruct (_ =? 37); [|destruct (_ =? 92); [|destruct (_ =? 38); [|done]]].
  - unfold readPercent. destruct (percent_loop _ _ _ _ _ _) as [[| |r0 w0 sp0]|] eqn:Hl; try done.
    + apply percent_loop_nonneg in Hl; [|done]. by intros [= <- <- <-].
    + destruct (readHex _ _) as [v c| |] eqn:Hh; try done. apply hex_loop_nonneg in Hh; [|done].
      intros [= <- <- <-]. unfold MaxRune. destruct (_ <=? _); lia.
  - unfold readBackslash. destruct (_ <? _)%nat; [done|]. destruct (_ =? 117); [|destruct (_ =? 120)].
    + destruct (readHex _ _) as [v c| |] eqn:Hh; try done. apply hex_loop_nonneg in Hh; [|done].
      repeat case_match; intros [= <- <- <-]; bool_prop; try done;
        (assert (0 <= Z.shiftl (v - 0xD800) 10) by (apply Z.shiftl_nonneg; lia); lia).
    + destruct (readHex _ _) as [v c| |] eqn:Hh; try done. apply hex_loop_nonneg in Hh; [|done]. by intros [= <- <- <-].
    + unfold jsonShort. cbn [assoc]. repeat case_match; intros [= <- <- <-]; simplify_eq; lia.
  - unfold readReference. repeat case_match; try done; [by intros ?%name_loop_nonneg | by intros ?%digits_loop_nonneg..].
Qed.

Lemma decodeLiteral_nonneg b d : 0 <= b -> 0 <= fst (decodeLiteral (b :: d)).
Proof.
  intros Hb. unfold decodeLiteral. pose proof (DecodeRune_nonneg b d Hb). destruct (DecodeRune _) as [r w].
  destruct (_ && _); cbn [fst hd] in *; unfold MaxRune; lia.
Qed.

Lemma tokenAt_nonneg b d e f r w sp : 0 <= b -> tokenAt (b :: d) e f = TokOK r w sp -> 0 <= r.
Proof.
  intros Hb. unfold tokenAt, readToken. cbn [hd].
  assert (forall r w sp, readLiteral (b :: d) f = TokOK r w sp -> 0 <= r) as Hlit.
  { intros r0 w0 sp0. unfold readLiteral. destruct (_ && _); [done|].
    pose proof (decodeLiteral_nonneg b d Hb). destruct (decodeLiteral _). by intros [= <- <- <-]. }
  destruct (_ || _); [|by intros [= <- <- <-]]. destruct e; [|apply Hlit].
  destruct (readEscape (b :: d)) eqn:He; [destruct f; [apply Hlit|done] | apply Hlit |].
  intros [= <- <- <-]. by eapply readEscape_nonneg.
Qed.

(** *** A pass over the tables is a pass over the needles *)

Lemma fold_filter {A B} (g : A -> B -> A) (P : B -> bool) l c :
  fold_left g (List.filter P l) c = fold_left (fun c i => if P i then g c i else c) l c.
Proof. revert c. induction l as [|b l IH]; intros c; [done|]. simpl. destruct (P b); simpl; apply IH. Qed.

Lemma fold_left_ext {A B} (g h : A -> B -> A) l c : (forall c b, g c b = h c b) -> fold_left g l c = fold_left h l c.
Proof. intros He. revert c. induction l as [|b l IH]; intros c; [done|]. simpl. by rewrite He, IH. Qed.

Lemma needle_literal s i n : tables_ok s -> needles s !! i = Some n -> literalEscape n = existsb isEscapeStart (n_runes n).
Proof. intros Hs Hn. exact (Forall_lookup_1 _ _ _ _ (ok_literal s Hs) Hn). Qed.

(** In the literal pass the character read is the escape's own byte, so the
    needle holds it. *)
Lemma literal_pass_head d f r w sp n :
  isEscapeStart (hd 0 d) = true -> tokenAt d false f = TokOK r w sp -> head_matches r n = true ->
  existsb isEscapeStart (n_runes n) = true.
Proof.
  intros He. unfold tokenAt. rewrite He, orb_true_r, literal_reading_escape by done. intros [= <- <- <-].
  unfold head_matches. destruct (n_runes n) as [|want ws]; [done|].
  intros [Heq|(_ & _ & _ & Heq)]%equalRune_cases; cbn [existsb]; [by rewrite <- Heq, He|].
  pose proof (isEscapeStart_ascii _ He).
  replace (unicode_ToLower (hd 0 d)) with (hd 0 d) in Heq; [by rewrite <- Heq, He|].
  unfold isEscapeStart in He. unfold unicode_ToLower, is_upper_ascii, in_range, RuneSelf. bool_prop.
  destruct He as [He|He]; bool_prop; [destruct He; bool_prop|]; z_cases.
Qed.

Lemma second_differs_none d n e f r w sp :
  Forall is_byte d -> d <> [] -> tokenAt d e f = TokOK r w sp -> head_matches r n = true ->
  second_differs (next_byte (drop w d)) n = true -> matchAt d n e f = MatchNone.
Proof.
  intros Hbytes Hd Ht Hh Hs. unfold second_differs in Hs. apply andb_true_iff in Hs as [Hn Hs].
  unfold head_matches in Hh. destruct (n_runes n) as [|want [|second ws]] eqn:Hr; [done..|].
  unfold next_byte in *. destruct (drop w d) as [|b d2] eqn:Hdrop; [done|].
  destruct ((b <? RuneSelf) && negb (isEscapeStart b)) eqn:Hb; [|done]. bool_prop.
  assert (is_byte b) as [? ?].
  { apply (Forall_drop _ w) in Hbytes. rewrite Hdrop in Hbytes. by apply list.Forall_cons in Hbytes as [? _]. }
  eapply second_mismatch; eauto.
Qed.

Lemma try_needle_ref s d e f r w sp c i :
  tables_ok s -> Forall is_byte d -> d <> [] -> (e = true \/ isEscapeStart (hd 0 d) = true) ->
  tokenAt d e f = TokOK r w sp ->
  (if has_head (needles s) r i then try_needle s d e f (next_byte (drop w d)) c i else c) = ref_needle s d e f r c i.
Proof.
  intros Hs Hbytes Hd He Ht. unfold has_head, try_needle, ref_needle.
  destruct (needles s !! i) as [n|] eqn:Hn; [|done].
  assert (0 <= r) as Hr.
  { destruct d as [|b d]; [done|]. apply list.Forall_cons in Hbytes as [[? _] _]. by eapply tokenAt_nonneg. }
  destruct (head_matches r n) eqn:Hh.
  - rewrite bool_decide_true by (by apply head_matches_heads).
    replace (negb e && negb (literalEscape n)) with false.
    + cbn [orb]. destruct (second_differs _ n) eqn:Hsd; [|done].
      by rewrite (second_differs_none d n e f r w sp).
    + destruct e; [done|]. destruct He as [|He]; [done|].
      by rewrite (needle_literal s i n Hs Hn), (literal_pass_head d f r w sp n He Ht Hh).
  - case_bool_decide as Hin; [|done].
    destruct (heads_matches r n Hr Hin Hh) as (want & ws & Hrunes & Hw).
    unfold head_matches in Hh. rewrite Hrunes in Hh.
    assert (matchAt d n e f = MatchNone) as ->; [|by destruct (_ || _)].
    unfold matchAt. rewrite Hrunes. cbn [matchRunes]. by rewrite (first_mismatch maxGap want (n_fold n) e f d r w sp).
Qed.

Lemma try_pass_ref s d e f c :
  tables_ok s -> Forall is_byte d -> d <> [] -> (e = true \/ isEscapeStart (hd 0 d) = true) ->
  try_pass s d e f c = ref_pass s d e f c.
Proof.
  intros Hs Hbytes Hd He. unfold try_pass, ref_pass. destruct (tokenAt d e f) as [|r w sp] eqn:Ht; [done|].
  assert (0 <= r) as Hr.
  { destruct d as [|b d]; [done|]. apply list.Forall_cons in Hbytes as [[? _] _]. by eapply tokenAt_nonneg. }
  rewrite (ok_heads s Hs r Hr), fold_filter. apply fold_left_ext. intros c' i. by apply try_needle_ref with sp.
Qed.

Lemma try_position_ref s d f :
  tables_ok s -> Forall is_byte d -> d <> [] -> try_position s d f = ref_position s d f.
Proof.
  intros Hs Hbytes Hd. unfold try_position, ref_position. rewrite try_pass_ref by auto.
  destruct (best _); [done|]. destruct (isEscapeStart _) eqn:He; [|done]. by rewrite try_pass_ref by auto.
Qed.

(** *** Bytes passed over *)

Lemma ref_pass_none s d e f r w sp c :
  tokenAt d e f = TokOK r w sp ->
  (forall n, n ∈ needles s -> head_matches r n = true -> matchAt d n e f = MatchNone) ->
  ref_pass s d e f c = c.
Proof.
  intros Ht Hnone. unfold ref_pass. rewrite Ht. generalize (seq 0 (length (needles s))) as l.
  induction l as [|i l IH]; [done|]. cbn [fold_left]. rewrite <- IH at 2. f_equal.
  unfold ref_needle. destruct (needles s !! i) as [n|] eqn:Hn; [|done].
  destruct (head_matches r n) eqn:Hh; [|done]. rewrite Hnone; [done | by eapply list_elem_of_lookup_2 | done].
Qed.

(** The first byte of a literal character. *)
Lemma literal_lead b d e f r w sp :
  is_byte b -> isEscapeStart b = false -> tokenAt (b :: d) e f = TokOK r w sp ->
  hd 0 (appendRune r) = b /\ (b < RuneSelf -> r = b /\ w = 1%nat) /\ (RuneSelf <= b -> RuneSelf <= r).
Proof.
  intros [Hb0 Hb1] He. unfold tokenAt. cbn [hd]. rewrite He, orb_false_r.
  destruct (Z.leb_spec RuneSelf b) as [Hb|Hb]; unfold RuneSelf in *.
  - assert (readEscape (b :: d) = EscNone) as Hesc.
    { destruct (readEscape (b :: d)) eqn:Hr; [|done|];
        pose proof (readEscape_start (b :: d) ltac:(by rewrite Hr)) as Hst; cbn [hd] in Hst; congruence. }
    assert (forall t, readLiteral (b :: d) f = TokOK r w t -> hd 0 (appendRune r) = b /\ 0x80 <= r) as Hlit.
    { intros t. unfold readLiteral, decodeLiteral. destruct (_ && _); [done|].
      destruct (DecodeRune (b :: d)) as [r0 w0] eqn:Hd. destruct (_ && _) eqn:Herr.
      - intros [= <- <- <-]. cbn [hd]. unfold appendRune, MaxRune.
        rewrite (proj2 (Z.ltb_lt _ _)) by lia. cbn [hd]. split; [|lia]. rewrite Z.mod_small; lia.
      - intros [= <- <- <-]. destruct (DecodeRune_lead b d r0 w0 Hb Hd Herr) as [[? ?] Hhd].
        unfold appendRune. rewrite (proj2 (Z.ltb_ge _ _)) by lia. split; [done|lia]. }
    unfold readToken. rewrite Hesc. intros Ht. assert (readLiteral (b :: d) f = TokOK r w sp) as Ht' by (by destruct e).
    apply Hlit in Ht' as [? ?]. split_and!; [done|lia|done].
  - intros [= <- <- <-]. unfold appendRune, MaxRune. rewrite (proj2 (Z.ltb_ge _ _)) by lia.
    rewrite EncodeRune_ascii by lia. split_and!; [done|done|lia].
Qed.

(** A plain first byte followed by a byte its row does not admit. *)
Lemma unadmitted_second b b1 d n f sp want second ws :
  is_byte b1 -> n_runes n = want :: second :: ws -> tokenAt (b :: b1 :: d) true f = TokOK b 1 sp ->
  equalRune b want (n_fold n) = true -> b1 ∉ second_bytes second -> matchAt (b :: b1 :: d) n true f = MatchNone.
Proof.
  intros Hb1 Hrunes Ht Hh Hna. unfold second_bytes in Hna. rewrite not_elem_of_app in Hna. destruct Hna as [Hna Hhigh].
  assert (b1 < RuneSelf) as Hb1l.
  { destruct (Z.lt_ge_cases b1 RuneSelf); [done|]. exfalso. apply Hhigh. unfold high_bytes.
    apply list_elem_of_In, in_map_iff. exists (Z.to_nat b1). rewrite in_seq. unfold is_byte, RuneSelf in *. lia. }
  eapply (second_mismatch (b :: b1 :: d) n true f b 1 sp want second ws b1 d); eauto.
  - unfold is_byte in Hb1. lia.
  - destruct (isEscapeStart b1) eqn:Hesc; [|done]. exfalso. apply Hna.
    unfold isEscapeStart in Hesc. bool_prop.
    destruct Hesc as [Hesc|Hesc]; bool_prop; [destruct Hesc; bool_prop|]; set_solver.
  - apply not_true_iff_false. intros [Heq|(_ & _ & Hsec & Hl)]%equalRune_cases; apply Hna; [set_solver|].
    destruct (Z.eq_dec b1 second) as [->|Hne]; [set_solver|].
    rewrite <- Hl, upper_of_lower by (unfold is_byte in Hb1; lia). set_solver.
Qed.

(** Where the tables do not admit a match, no needle matches: the reference
    finds nothing, unless the data ends inside a character. *)
Lemma passed_over s d f :
  tables_ok s -> Forall is_byte d -> d <> [] -> mayStart s d = false ->
  tokenAt d true f <> TokMore -> ref_position s d f = mkCandidates false None.
Proof.
  intros Hs Hbytes Hd Hm Htok. destruct d as [|b d]; [done|].
  apply list.Forall_cons in Hbytes as [Hb Hbd].
  assert (isEscapeStart b = false) as He.
  { destruct (isEscapeStart b) eqn:He; [|done]. destruct (ok_escape s Hs b He) as [Hst Hrow].
    destruct d as [|b1 d]; cbn [mayStart] in Hm; [by bool_prop|].
    apply list.Forall_cons in Hbd as [Hb1 _]. specialize (Hrow b1 Hb1). unfold bit in Hrow. congruence. }
  unfold ref_position. cbn [hd]. rewrite He.
  destruct (tokenAt (b :: d) true f) as [|r w sp] eqn:Ht; [done|].
  rewrite (ref_pass_none s (b :: d) true f r w sp); [done|done|].
  intros n Hn Hh. destruct (literal_lead b d true f r w sp Hb He Ht) as (Hlead & Hlow & Hhigh).
  assert (0 <= r) as Hr by (destruct Hb; by eapply tokenAt_nonneg).
  pose proof (proj1 (list.Forall_forall _ _) (ok_entered s Hs) n Hn r (head_matches_heads r n Hr Hh)) as [Hst Hadm].
  rewrite Hlead in *. destruct d as [|b1 d]; [cbn [mayStart] in Hm; by bool_prop|]. cbn [mayStart] in Hm.
  apply list.Forall_cons in Hbd as [Hb1 _].
  assert (~ admits_second n r b1) as Hna.
  { intros Ha. specialize (Hadm b1 Hb1 Ha). unfold bit in Hadm. congruence. }
  unfold admits_second in Hna. unfold head_matches in Hh.
  destruct (n_runes n) as [|want [|second ws]] eqn:Hrunes; [tauto..|].
  destruct (Z.lt_ge_cases b RuneSelf) as [Hbl|]; [|exfalso; apply Hna; left; auto].
  destruct (Hlow Hbl) as [-> ->]. eapply unadmitted_second; eauto.
Qed.
End tables.
