(* ===== verification/ScrubReader.v ===== *)
(** * Scrubbing a body as it streams (scrub.go: [scan], [scrubReader])

    The scan of the bytes read so far decides a prefix for good and holds the
    rest back; [scrubReader] carries the held bytes into the next scan.  The
    theorems: what is delivered is the scrub of the whole body however it was
    cut into reads, the tables change nothing, and the bytes held back are
    bounded by the longest needle. *)
From stdpp Require Import base gmap strings list option sets.
From Stdlib Require Import ZArith Lia Ascii.
From S2P Require Import Prelude GoUtf8 GoStrings GoNet Body GoHttp GoEncoding ScrubPairs Utf8Codec ScrubMatch ScrubStream ScrubTables.
Local Open Scope string_scope.
Local Open Scope list_scope.
Local Open Scope Z_scope.

Section reader.
Context `{UnicodeTables}.

(** ** Candidates that do not want more data are decided *)

Lemma consider_more c i m : more (consider c i m) = more c || bool_decide (m = MatchMore).
Proof.
  destruct m; cbn [consider]; [by rewrite orb_false_r | by rewrite orb_true_r |].
  destruct (best c) as [[[e' ?] ?]|]; [destruct (e' <? end_)%nat|]; by rewrite orb_false_r.
Qed.

Lemma ref_needle_more s d e f r c i : more c = true -> more (ref_needle s d e f r c i) = true.
Proof.
  intros Hc. unfold ref_needle. destruct (needles s !! i); [|done]. destruct (head_matches _ _); [|done].
  by rewrite consider_more, Hc.
Qed.

Lemma ref_fold_more s d e f r l c : more c = true -> more (fold_left (ref_needle s d e f r) l c) = true.
Proof. revert c. induction l as [|i l IH]; intros c Hc; [done|]. cbn [fold_left]. by apply IH, ref_needle_more. Qed.

Lemma ref_pass_more s d e f c : more c = true -> more (ref_pass s d e f c) = true.
Proof. intros Hc. unfold ref_pass. destruct (tokenAt d e f); [done|]. by apply ref_fold_more. Qed.

Lemma ref_needle_ext s d x e f r c i :
  more (ref_needle s d e false r c i) = false -> ref_needle s (d ++ x) e f r c i = ref_needle s d e false r c i.
Proof.
  unfold ref_needle. destruct (needles s !! i) as [n|]; [|done]. destruct (head_matches r n); [|done].
  rewrite consider_more. intros Hm. bool_prop. by rewrite (matchAt_ext d n e x f _ eq_refl).
Qed.

Lemma ref_fold_ext s d x e f r l c :
  more (fold_left (ref_needle s d e false r) l c) = false ->
  fold_left (ref_needle s (d ++ x) e f r) l c = fold_left (ref_needle s d e false r) l c.
Proof.
  revert c. induction l as [|i l IH]; intros c; [done|]. cbn [fold_left]. intros Hm.
  rewrite ref_needle_ext; [by apply IH|].
  destruct (more (ref_needle s d e false r c i)) eqn:Hc; [|done]. by rewrite ref_fold_more in Hm.
Qed.

Lemma ref_pass_ext s d x e f c :
  d <> [] -> more (ref_pass s d e false c) = false -> ref_pass s (d ++ x) e f c = ref_pass s d e false c.
Proof.
  intros Hd. unfold ref_pass. destruct (tokenAt d e false) as [|r w sp] eqn:Ht; [done|].
  rewrite (tokenAt_ext d x e f _ Hd Ht) by done. apply ref_fold_ext.
Qed.

Lemma ref_position_ext s d x f :
  d <> [] -> more (ref_position s d false) = false -> ref_position s (d ++ x) f = ref_position s d false.
Proof.
  intros Hd. unfold ref_position. rewrite hd_ext by done.
  destruct (more (ref_pass s d true false (mkCandidates false None))) eqn:Hm.
  - destruct (best _); [congruence|]. destruct (isEscapeStart _); [|congruence]. by rewrite ref_pass_more.
  - rewrite (ref_pass_ext s d x true f) by done. destruct (best _); [done|].
    destruct (isEscapeStart _); [|done]. by apply ref_pass_ext.
Qed.

(** ** What is found *)

(** The chosen match is one of the needles', and spans at least one byte of
    the data. *)
Definition found_ok (s : scrubber) (d : list Z) (f : bool) (c : candidates) : Prop :=
  forall e i sps, best c = Some (e, i, sps) ->
  exists n esc, needles s !! i = Some n /\ matchAt d n esc f = MatchFound e sps /\ (1 <= e <= length d)%nat.

Lemma ref_needle_found s d e f r c i : found_ok s d f c -> found_ok s d f (ref_needle s d e f r c i).
Proof.
  intros Hc. unfold ref_needle. destruct (needles s !! i) as [n|] eqn:Hn; [|done].
  destruct (head_matches r n) eqn:Hh; [|done].
  destruct (matchAt d n e f) as [| |e1 sps1] eqn:Hm; cbn [consider]; [done..|].
  assert (1 <= e1 <= length d)%nat as He.
  { pose proof (matchRunes_span (n_runes n) true (n_fold n) e f d) as Hs. unfold matchAt in Hm. rewrite Hm in Hs.
    unfold head_matches in Hh. destruct (n_runes n); [done|]. simpl length in Hs. lia. }
  destruct (best c) as [[[e' i'] sps']|] eqn:Hb; [destruct (e' <? e1)%nat|]; try done;
    intros ??? [= <- <- <-]; eauto 10.
Qed.

Lemma ref_pass_found s d e f c : found_ok s d f c -> found_ok s d f (ref_pass s d e f c).
Proof.
  unfold ref_pass. destruct (tokenAt d e f) as [|r w sp]; [done|].
  generalize (seq 0 (length (needles s))) as l. intros l. revert c.
  induction l as [|i l IH]; intros c Hc; [done|]. cbn [fold_left]. by apply IH, ref_needle_found.
Qed.

Lemma ref_position_found s d f : found_ok s d f (ref_position s d f).
Proof.
  unfold ref_position. assert (found_ok s d f (ref_pass s d true f (mkCandidates false None))) as Hc
    by (apply ref_pass_found; by intros ???).
  destruct (best _); [exact Hc|]. destruct (isEscapeStart _); [by apply ref_pass_found | exact Hc].
Qed.

(** With the end of the data known, nothing wants more. *)
Lemma ref_pass_final s d e c : more (ref_pass s d e true c) = more c.
Proof.
  unfold ref_pass. destruct (tokenAt d e true) as [|r w sp] eqn:Ht; [by apply tokenAt_More in Ht as [? _]|].
  generalize (seq 0 (length (needles s))) as l. intros l. revert c.
  induction l as [|i l IH]; intros c; [done|]. cbn [fold_left]. rewrite IH. unfold ref_needle.
  destruct (needles s !! i) as [n|]; [|done]. destruct (head_matches r n); [|done].
  rewrite consider_more, bool_decide_false, orb_false_r; [done|]. intros Hm. unfold matchAt in Hm.
  pose proof (matchRunes_span (n_runes n) true (n_fold n) e true d) as Hs. rewrite Hm in Hs. by destruct Hs.
Qed.

Lemma ref_position_final s d : more (ref_position s d true) = false.
Proof.
  unfold ref_position. destruct (best _); [|destruct (isEscapeStart _)]; by rewrite ?ref_pass_final.
Qed.

(** ** One position of the scan *)

Definition decide_at (s : scrubber) (d : list Z) (f : bool) : candidates :=
  if mayStart s d then try_position s d f else mkCandidates false None.

Lemma decide_at_final s d : tables_ok s -> Forall is_byte d -> d <> [] -> decide_at s d true = ref_position s d true.
Proof.
  intros Hs Hb Hd. unfold decide_at. destruct (mayStart s d) eqn:Hm; [by apply try_position_ref|].
  symmetry. apply passed_over; try done. by intros [? _]%tokenAt_More.
Qed.

Lemma mayStart_ext s d x : tables_ok s -> d <> [] -> mayStart s d = false -> mayStart s (d ++ x) = false.
Proof.
  intros Hs. destruct d as [|b0 [|b1 d]]; [done| |done]. destruct x as [|b1 x]; [done|]. cbn [mayStart app].
  intros _ Hst. bool_prop. apply not_true_iff_false. intros Hrow. apply Hst. by apply (ok_row s Hs b0 b1).
Qed.

Lemma decide_at_ext s d x :
  tables_ok s -> Forall is_byte (d ++ x) -> d <> [] -> more (decide_at s d false) = false ->
  decide_at s (d ++ x) true = decide_at s d false.
Proof.
  intros Hs Hb Hd. assert (Forall is_byte d) by (by apply list.Forall_app in Hb as [? _]).
  unfold decide_at at 1 3. destruct (mayStart s d) eqn:Hm.
  - rewrite try_position_ref by done. intros Hmore.
    rewrite decide_at_final by (done || (intros ?%app_eq_nil; tauto)). by apply ref_position_ext.
  - intros _. unfold decide_at. by rewrite mayStart_ext.
Qed.

Lemma decide_at_found s d f : tables_ok s -> Forall is_byte d -> d <> [] -> found_ok s d f (decide_at s d f).
Proof.
  intros Hs Hb Hd. unfold decide_at. destruct (mayStart s d); [|by intros ???].
  rewrite try_position_ref by done. apply ref_position_found.
Qed.

(** ** The scan, position by position *)

Definition seg_cons (g : segment) (r : list segment * list Z) : list segment * list Z := (g :: r.1, r.2).

Lemma scan_loop_skip s f k d : (k <= length d)%nat -> scan_loop s f k d = scan_loop s f 0 (drop k d).
Proof.
  revert k. induction d as [|b d IH]; intros k Hk; [by destruct k|]. destruct k as [|k]; [done|].
  cbn [scan_loop drop]. apply IH. simpl in Hk. lia.
Qed.

Lemma scan_loop_cons s f b d :
  tables_ok s -> Forall is_byte (b :: d) ->
  scan_loop s f 0 (b :: d) =
  let c := decide_at s (b :: d) f in
  if more c then ([], b :: d)
  else match best c with
       | None => seg_cons (Keep b) (scan_loop s f 0 d)
       | Some (e, i, sps) => seg_cons (Replace i (take e (b :: d)) sps) (scan_loop s f 0 (drop e (b :: d)))
       end.
Proof.
  intros Hs Hb. pose proof (decide_at_found s (b :: d) f Hs Hb ltac:(done)) as Hok. unfold decide_at in *.
  cbn [scan_loop]. destruct (mayStart s (b :: d)); cbn [negb]; [|by destruct (scan_loop s f 0 d)].
  destruct (more _); [done|]. destruct (best _) as [[[e i] sps]|] eqn:Hbest; [|by destruct (scan_loop s f 0 d)].
  destruct (Hok e i sps Hbest) as (n & esc & _ & _ & [He1 He2]).
  destruct e as [|e]; [lia|]. rewrite Nat.sub_succ, Nat.sub_0_r, scan_loop_skip by (simpl in He2; lia).
  cbn [drop]. by destruct (scan_loop s f 0 (drop e d)).
Qed.

(** A scan that knows the end holds nothing back. *)
Lemma scan_final_ind s (P : list Z -> list segment -> Prop) :
  tables_ok s -> P [] [] ->
  (forall b d g, Forall is_byte (b :: d) -> best (ref_position s (b :: d) true) = None -> P d g -> P (b :: d) (Keep b :: g)) ->
  (forall d g e i sps, Forall is_byte d -> best (ref_position s d true) = Some (e, i, sps) -> (1 <= e <= length d)%nat ->
     P (drop e d) g -> P d (Replace i (take e d) sps :: g)) ->
  forall d, Forall is_byte d -> exists g, scan_loop s true 0 d = (g, []) /\ P d g.
Proof.
  intros Hs Hnil Hkeep Hrepl d. remember (length d) as k eqn:Hk. revert d Hk.
  induction (lt_wf k) as [k _ IH]. intros d -> Hb.
  destruct d as [|b d]; [by exists []|].
  rewrite scan_loop_cons by done. rewrite decide_at_final by done. cbv zeta. rewrite ref_position_final.
  pose proof (ref_position_found s (b :: d) true) as Hok.
  destruct (best (ref_position s (b :: d) true)) as [[[e i] sps]|] eqn:Hbest.
  - destruct (Hok e i sps Hbest) as (n & esc & _ & _ & He).
    destruct (IH (length (drop e (b :: d)))) with (d := drop e (b :: d)) as (g & Hg & HP);
      [rewrite length_drop; lia | done | by apply Forall_drop |].
    rewrite Hg. eexists. split; [done|]. by apply Hrepl.
  - assert (Forall is_byte d) by (by inversion Hb).
    destruct (IH (length d)) with (d := d) as (g & Hg & HP); [simpl; lia | done | done |].
    rewrite Hg. eexists. split; [done|]. by apply Hkeep.
Qed.

Lemma scan_final s d : tables_ok s -> Forall is_byte d -> exists g, scan_loop s true 0 d = (g, []).
Proof.
  intros Hs Hb. destruct (scan_final_ind s (fun _ _ => True) Hs) with (d := d) as (g & Hg & _); eauto.
Qed.

(** What a scan decides, it decides as the scan of the whole does. *)
Lemma scan_loop_ext s d x :
  tables_ok s -> Forall is_byte (d ++ x) ->
  let '(g, h) := scan_loop s false 0 d in
  scan_loop s true 0 (d ++ x) = (g ++ (scan_loop s true 0 (h ++ x)).1, []) /\ Forall is_byte (h ++ x)
  /\ exists p, d = p ++ h.
Proof.
  intros Hs. remember (length d) as k eqn:Hk. revert d Hk.
  induction (lt_wf k) as [k _ IH]. intros d -> Hb.
  destruct d as [|b d].
  { cbn [scan_loop app]. destruct (scan_final s x Hs Hb) as (g & ->). split_and!; [done..|by exists []]. }
  assert (Forall is_byte (b :: d)) as Hbd by (by apply list.Forall_app in Hb as [? _]).
  rewrite (scan_loop_cons s false b d Hs Hbd). cbv zeta.
  destruct (more (decide_at s (b :: d) false)) eqn:Hm.
  { destruct (scan_final s ((b :: d) ++ x) Hs Hb) as (g & ->). split_and!; [done..|by exists []]. }
  pose proof (decide_at_found s (b :: d) false Hs Hbd ltac:(done)) as Hok.
  change ((b :: d) ++ x) with (b :: (d ++ x)) in *. rewrite (scan_loop_cons s true b (d ++ x) Hs Hb).
  change (b :: (d ++ x)) with ((b :: d) ++ x) in *. rewrite decide_at_ext by done. cbv zeta. rewrite Hm.
  destruct (best (decide_at s (b :: d) false)) as [[[e i] sps]|] eqn:Hbest.
  - destruct (Hok e i sps Hbest) as (n & esc & _ & _ & He).
    rewrite take_app_le, drop_ext by lia.
    specialize (IH (length (drop e (b :: d))) ltac:(rewrite length_drop; simpl in *; lia) (drop e (b :: d)) eq_refl).
    rewrite <- drop_ext in IH by lia. specialize (IH (Forall_drop _ e _ Hb)).
    rewrite drop_ext in IH by lia. destruct (scan_loop s false 0 (drop e (b :: d))) as [g h]. cbn [seg_cons fst snd] in *.
    destruct IH as (-> & ? & p & Hp). split_and!; [done..|]. exists (take e (b :: d) ++ p).
    by rewrite <- app_assoc, <- Hp, take_drop.
  - assert (Forall is_byte (d ++ x)) as Hdx by (by inversion Hb).
    specialize (IH (length d) ltac:(simpl; lia) d eq_refl Hdx).
    destruct (scan_loop s false 0 d) as [g h]. cbn [seg_cons fst snd] in *.
    destruct IH as (-> & ? & p & ->). split_and!; [done..|]. by exists (b :: p).
Qed.

(** The same of the bytes written. *)
Lemma scan_ext s d x :
  tables_ok s -> Forall is_byte (d ++ x) ->
  (scan s (d ++ x) true).1 = (scan s d false).1 ++ (scan s ((scan s d false).2 ++ x) true).1
  /\ Forall is_byte ((scan s d false).2 ++ x).
Proof.
  intros Hs Hb. pose proof (scan_loop_ext s d x Hs Hb) as He. unfold scan at 1 2 4 5.
  destruct (scan_loop s false 0 d) as [g h]. destruct He as (-> & Hh & _). cbn [fst snd].
  split; [|done]. rewrite map_app, concat_app. f_equal. unfold scan.
  by destruct (scan_loop s true 0 (h ++ x)).
Qed.

(** ** The bytes held back *)

Definition hold_bound (s : scrubber) : nat := 
  Nat.max maxToken (max_list (map (fun n => span_bound (length (n_runes n))) (needles s))).

Lemma hold_bound_token s : (maxToken <= hold_bound s)%nat.
Proof. apply Nat.le_max_l. Qed.

Lemma hold_bound_needle s i n : needles s !! i = Some n -> (span_bound (length (n_runes n)) <= hold_bound s)%nat.
Proof.
  intros Hn. unfold hold_bound. etrans; [|apply Nat.le_max_r].
  apply max_list_elem_of_le. apply list_elem_of_fmap. exists n. split; [done|]. by eapply list_elem_of_lookup_2.
Qed.

Definition more_bounded (s : scrubber) (d : list Z) (c : candidates) : Prop := more c = true -> (length d < hold_bound s)%nat.

Lemma ref_needle_bounded s d e f r c i : more_bounded s d c -> more_bounded s d (ref_needle s d e f r c i).
Proof.
  intros Hc. unfold ref_needle. destruct (needles s !! i) as [n|] eqn:Hn; [|done]. destruct (head_matches r n); [|done].
  unfold more_bounded. rewrite consider_more. intros Hm. bool_prop. destruct Hm as [Hm|Hm]; [by apply Hc|]. bool_prop.
  pose proof (matchRunes_span (n_runes n) true (n_fold n) e f d) as Hs. unfold matchAt in Hm. rewrite Hm in Hs.
  destruct Hs as [_ Hs]. eapply Nat.lt_le_trans; [exact Hs | by apply (hold_bound_needle s i)].
Qed.

Lemma ref_pass_bounded s d e f c : more_bounded s d c -> more_bounded s d (ref_pass s d e f c).
Proof.
  intros Hc. unfold ref_pass. destruct (tokenAt d e f) as [|r w sp] eqn:Ht.
  - intros _. apply tokenAt_More in Ht as [_ Ht]. eapply Nat.lt_le_trans; [exact Ht | apply hold_bound_token].
  - generalize (seq 0 (length (needles s))) as l. intros l. revert c Hc.
    induction l as [|i l IH]; intros c Hc; [done|]. cbn [fold_left]. by apply IH, ref_needle_bounded.
Qed.

Lemma decide_at_bounded s d f : tables_ok s -> Forall is_byte d -> d <> [] -> more_bounded s d (decide_at s d f).
Proof.
  intros Hs Hb Hd. unfold decide_at. destruct (mayStart s d); [|by intros ?].
  rewrite try_position_ref by done. unfold ref_position.
  assert (more_bounded s d (ref_pass s d true f (mkCandidates false None))) as Hc by (apply ref_pass_bounded; by intros ?).
  destruct (best _); [done|]. destruct (isEscapeStart _); [by apply ref_pass_bounded | done].
Qed.

Lemma scan_held_bounded s d : tables_ok s -> Forall is_byte d -> (length (scan s d false).2 < hold_bound s)%nat.
Proof.
  intros Hs. unfold scan. enough (Forall is_byte d -> (length (scan_loop s false 0 d).2 < hold_bound s)%nat) as He.
  { intros Hb. specialize (He Hb). by destruct (scan_loop s false 0 d). }
  remember (length d) as k eqn:Hk. revert d Hk. induction (lt_wf k) as [k _ IH]. intros d -> Hb.
  destruct d as [|b d]; [pose proof (hold_bound_token s); unfold maxToken in *; simpl; lia|].
  rewrite scan_loop_cons by done. cbv zeta. destruct (more _) eqn:Hm; [by apply (decide_at_bounded s (b :: d) false)|].
  destruct (best _) as [[[e i] sps]|] eqn:Hbest; cbn [seg_cons snd].
  - destruct (decide_at_found s (b :: d) false Hs Hb ltac:(done) e i sps Hbest) as (n & esc & _ & _ & He).
    eapply (IH (length (drop e (b :: d)))); [rewrite length_drop; lia | done | by apply Forall_drop].
  - eapply (IH (length d)); [simpl; lia | done | by inversion Hb].
Qed.
End reader.

(** ** The reader *)

(** A source is what its successive reads return: bytes, and an error with
    the last of them.  When the list is used up the source is at its end. *)
Definition reads : Type := list (list Z * option string).
Definition EOF : string := "EOF".

(** The bytes a source delivers, and the error that ends them. *)
Fixpoint delivers (src : reads) : list Z * string :=
  match src with
  | [] => ([], EOF)
  | (chunk, Some err) :: _ => (chunk, err)
  | (chunk, None) :: src' => (chunk ++ (delivers src').1, (delivers src').2)
  end.

Section scrubReader.
Context `{UnicodeTables}.

(** [closer] and the reused buffers [chunk] and [out] carry no state of
    their own; [sr_err] is [Some] once [done] is set. *)
Record scrubReader := mkScrubReader {
  sr_src : reads;
  sr_scrub : scrubber;
  sr_pending : list Z;
  sr_ready : list Z;
  sr_err : option string;
}.
Definition newScrubReader (src : reads) (s : scrubber) : scrubReader := mkScrubReader src s [] [] None.

(** The loop of [Read] that reads until something is ready or the source has
    ended. *)
Definition accept (r : scrubReader) (src : reads) (chunk : list Z) (err : option string) : scrubReader :=
  let '(out, held) := scan (sr_scrub r) (sr_pending r ++ chunk) (bool_decide (is_Some err)) in
  mkScrubReader src (sr_scrub r) held out err.
Fixpoint fill (src : reads) (r : scrubReader) : scrubReader :=
  match sr_ready r, sr_err r with
  | [], None =>
    match src with
    | [] => accept r [] [] (Some EOF)
    | (chunk, err) :: src' => fill src' (accept r src' chunk err)
    end
  | _, _ => r
  end.

(** [Read] into a buffer of [n] bytes: the bytes copied, or the error. *)
Definition scrubReader_Read (n : nat) (r : scrubReader) : result string (list Z) * scrubReader :=
  let r := fill (sr_src r) r in
  match sr_ready r, sr_err r with
  | [], Some err => (Err err, r)
  | ready, err => (Ok (take n ready), mkScrubReader (sr_src r) (sr_scrub r) (sr_pending r) (drop n ready) err)
  end.

(** A caller that reads until an error. *)
Fixpoint drain (fuel n : nat) (r : scrubReader) : option (list Z * string) :=
  match fuel with
  | O => None
  | S fuel' =>
    match scrubReader_Read n r with
    | (Err err, _) => Some ([], err)
    | (Ok bs, r') => (fun p => (bs ++ p.1, p.2)) <$> drain fuel' n r'
    end
  end.

(** What a reader has still to deliver. *)
Definition owed (r : scrubReader) : list Z * string :=
  match sr_err r with
  | Some err => (sr_ready r, err)
  | None => (sr_ready r ++ (scan (sr_scrub r) (sr_pending r ++ (delivers (sr_src r)).1) true).1, (delivers (sr_src r)).2)
  end.
Definition reader_ok (r : scrubReader) : Prop :=
  tables_ok (sr_scrub r) /\ (sr_err r = None -> Forall is_byte (sr_pending r ++ (delivers (sr_src r)).1)).

Lemma accept_owed r src chunk err :
  reader_ok r -> sr_src r = (chunk, err) :: src -> sr_ready r = [] -> sr_err r = None ->
  owed (accept r src chunk err) = owed r /\ reader_ok (accept r src chunk err).
Proof.
  intros [Hs Hb] Hsrc Hready Herr. specialize (Hb Herr). unfold owed, reader_ok, accept. rewrite Hsrc, Hready, Herr in *.
  cbn [app delivers fst snd] in *. destruct err as [err|].
  - rewrite bool_decide_true by eauto. by destruct (scan (sr_scrub r) _ true) as [out held].
  - cbn [fst snd] in *. rewrite app_assoc in Hb. rewrite bool_decide_false by (by intros [? ?]).
    destruct (scan_ext (sr_scrub r) _ _ Hs Hb) as [He Hb']. rewrite app_assoc, He.
    destruct (scan (sr_scrub r) (sr_pending r ++ chunk) false) as [out held]. done.
Qed.

Lemma fill_owed r : reader_ok r -> let r' := fill (sr_src r) r in
  owed r' = owed r /\ reader_ok r' /\ (sr_ready r' = [] -> is_Some (sr_err r')).
Proof.
  remember (sr_src r) as src eqn:Hsrc. revert r Hsrc. induction src as [|[chunk err] src IH]; intros r Hsrc Hr; cbn [fill].
  - destruct (sr_ready r) eqn:Hready; [|by rewrite Hready]. destruct (sr_err r) eqn:Herr; [by rewrite Herr; eauto|].
    destruct Hr as [Hs Hb]. specialize (Hb Herr). unfold owed, reader_ok, accept. rewrite <- Hsrc, Hready, Herr in *.
    cbn [delivers fst app] in *. rewrite bool_decide_true by eauto.
    destruct (scan (sr_scrub r) (sr_pending r ++ []) true) as [out held]. cbn [sr_err sr_ready sr_scrub fst]. split_and!; eauto; done.
  - destruct (sr_ready r) eqn:Hready; [|by rewrite Hready]. destruct (sr_err r) eqn:Herr; [by rewrite Herr; eauto|].
    destruct (accept_owed r src chunk err Hr (eq_sym Hsrc) Hready Herr) as [Ho Hok].
    rewrite <- Ho. apply IH; [|done]. unfold accept. by destruct (scan _ _ _).
Qed.

Lemma Read_owed n r : reader_ok r -> (0 < n)%nat ->
  match scrubReader_Read n r with
  | (Err err, _) => owed r = ([], err)
  | (Ok bs, r') => owed r = (bs ++ (owed r').1, (owed r').2) /\ bs <> [] /\ reader_ok r'
  end.
Proof.
  intros Hr Hn. unfold scrubReader_Read. destruct (fill_owed r Hr) as (<- & Hok & Hready). cbv zeta in *.
  destruct (fill (sr_src r) r) as [src s pend ready err]. unfold owed, reader_ok in *. cbn [sr_ready sr_err sr_scrub sr_pending sr_src] in *.
  destruct ready as [|b ready]; [destruct (Hready eq_refl) as [e ->]; done|].
  split; [|split; [by destruct n; [lia|]|exact Hok]].
  destruct err; cbn [fst snd sr_ready sr_err sr_scrub sr_pending sr_src]; rewrite ?app_assoc, take_drop; done.
Qed.

Lemma drain_owed fuel n r : reader_ok r -> (0 < n)%nat -> (length (owed r).1 < fuel)%nat -> drain fuel n r = Some (owed r).
Proof.
  intros Hr Hn. revert r Hr. induction fuel as [|fuel IH]; intros r Hr Hf; [lia|]. cbn [drain].
  pose proof (Read_owed n r Hr Hn) as Ho. destruct (scrubReader_Read n r) as [[bs|err] r'].
  - destruct Ho as (Ho & Hbs & Hr'). rewrite Ho in *. cbn [fst] in Hf. rewrite length_app in Hf.
    rewrite IH; [done | done |]. destruct bs; [done|]. simpl in Hf. lia.
  - by rewrite Ho.
Qed.
End scrubReader.

(** ** Trying every needle everywhere *)
Section reference.
Context `{UnicodeTables}.

(** The scan without its tables: at every position every needle whose first
    character is spelled there is tried. *)
Fixpoint ref_scan_loop (s : scrubber) (skip : nat) (data : list Z) : list segment :=
  match data with
  | [] => []
  | b :: data' =>
    match skip with
    | S k => ref_scan_loop s k data'
    | O => match best (ref_position s data true) with
           | None => Keep b :: ref_scan_loop s 0 data'
           | Some (e, index, sps) => Replace index (take e data) sps :: ref_scan_loop s (e - 1) data'
           end
    end
  end.

Lemma scan_loop_ref s k d : tables_ok s -> Forall is_byte d -> scan_loop s true k d = (ref_scan_loop s k d, []).
Proof.
  intros Hs. revert k. induction d as [|b d IH]; intros k Hb; [done|].
  assert (Forall is_byte d) as Hd by (by inversion Hb).
  destruct k as [|k]; cbn [scan_loop ref_scan_loop]; [|by apply IH].
  pose proof (decide_at_final s (b :: d) Hs Hb ltac:(done)) as Hdec. unfold decide_at in Hdec.
  pose proof (ref_position_final s (b :: d)) as Hm. rewrite <- Hdec in *. clear Hdec.
  destruct (mayStart s (b :: d)); cbn [negb]; [|by rewrite IH].
  rewrite Hm. destruct (best _) as [[[e i] sps]|]; by rewrite IH.
Qed.
End reference.

(** ** The properties of the reader *)
Section properties.
Context `{UnicodeTables}.

(** C10: However the source cuts a body into reads, and whatever buffer the
    caller reads with, draining a [scrubReader] delivers exactly the scrub of
    the whole body and then the source's error: a match that spans reads is
    found, and nothing is lost, repeated or delivered twice. *)
Theorem scrub_stream_refines ps src n fuel :
  Forall is_byte (delivers src).1 -> (0 < n)%nat ->
  (length (scan (newScrubber ps) (delivers src).1 true).1 < fuel)%nat ->
  drain fuel n (newScrubReader src (newScrubber ps))
  = Some ((scan (newScrubber ps) (delivers src).1 true).1, (delivers src).2).
Proof.
  intros Hb Hn Hf.
  assert (owed (newScrubReader src (newScrubber ps)) = ((scan (newScrubber ps) (delivers src).1 true).1, (delivers src).2)) as Ho by done.
  rewrite <- Ho. apply drain_owed; [|done|by rewrite Ho].
  split; [apply newScrubber_ok|]. by intros _.
Qed.

(** A scan that waits for more data holds back fewer bytes than the
    longest match a needle can have: [n] characters of at most [maxToken]
    bytes and [maxGap] format characters between two of them (at least one
    token).  The memory of a stream is bounded by the secrets, not by what a
    host sends. *)
Theorem scrub_held_bounded ps d :
  Forall is_byte d -> (length (scan (newScrubber ps) d false).2 < hold_bound (newScrubber ps))%nat.
Proof. apply scan_held_bounded, newScrubber_ok. Qed.

(** C21: The tables only save work: the scan equals the scan that at every
    position matches every needle whose first character is spelled there, in
    order, with no filter by first byte, byte pair or next byte, and it holds
    nothing back. *)
Theorem scan_tables_equivalent ps d :
  Forall is_byte d ->
  scan (newScrubber ps) d true = (concat (map (render (newScrubber ps)) (ref_scan_loop (newScrubber ps) 0 d)), []).
Proof. intros Hb. unfold scan. by rewrite scan_loop_ref by (done || apply newScrubber_ok). Qed.
End properties.

(** A host that answers in pieces. *)
Definition example_pairs : list scrubPair := scrubPairsFor (bytes_of_string "hunter2secret") (bytes_of_string "PLACEHOLDER12").
Definition example_reads : reads :=
  [(bytes_of_string "your key is hun", None); (bytes_of_string "ter2%73e", None); (bytes_of_string "cret, bye", Some EOF)].

Lemma bytes_range_string s d : d = bytes_of_string s -> Forall is_byte d.
Proof. intros ->. apply bytes_of_string_range. Qed.

Lemma scrub_stream_refines_witness :
  drain (H := ascii_tables) 100 7 (newScrubReader example_reads (newScrubber (H := ascii_tables) example_pairs))
  = Some (bytes_of_string "your key is PLACEHOLDER12, bye", EOF).
Proof.
  rewrite (scrub_stream_refines (H := ascii_tables) example_pairs example_reads 7 100).
  - vm_compute. reflexivity.
  - apply (bytes_range_string "your key is hunter2%73ecret, bye"). vm_compute. reflexivity.
  - lia.
  - apply Nat.ltb_lt. vm_compute. reflexivity.
Defined.

(** The figure of the comment of [scan]: 9,600 bytes for 48 characters. *)
Lemma scrub_held_bounded_witness :
  let ps := [mkPair (repeat 120 48) [112] false] in
  let d := bytes_of_string "xxxxxxxxxxxxxxxxxxxxxxxxxxxxxxxxxxxxxxxx" in
  Z.of_nat (hold_bound (newScrubber (H := ascii_tables) ps)) = 9600
  /\ Z.of_nat (length (scan (H := ascii_tables) (newScrubber (H := ascii_tables) ps) d false).2) = 40
  /\ Z.of_nat (length (scan (H := ascii_tables) (newScrubber (H := ascii_tables) ps) d false).2) < 9600.
Proof.
  intros ps d. assert (Z.of_nat (hold_bound (newScrubber (H := ascii_tables) ps)) = 9600) as Hb by (vm_compute; reflexivity).
  split; [exact Hb|]. split; [vm_compute; reflexivity|].
  pose proof (scrub_held_bounded (H := ascii_tables) ps d (bytes_of_string_range _)). lia.
Defined.

Lemma scan_tables_equivalent_witness :
  let s := newScrubber (H := ascii_tables) example_pairs in
  let d := bytes_of_string "%68unter2secret and \u0068unter2secret" in
  scan (H := ascii_tables) s d true
  = (concat (map (render (H := ascii_tables) s) (ref_scan_loop (H := ascii_tables) s 0 d)), [])
  /\ ref_scan_loop (H := ascii_tables) s 0 (drop 16 d) <> map Keep (drop 16 d).
Proof.
  intros s d. split; [apply (scan_tables_equivalent (H := ascii_tables) example_pairs), bytes_of_string_range|].
  subst s d. vm_compute. discriminate.
Defined.
