(* ===== verification/ScrubSafety.v ===== *)
(** * No spelling of a secret passes the scrub (scrub.go)

    Every way [spell] writes a character is read back by the matcher, so any
    occurrence of a needle, each character in a spelling of its own and format
    characters in between, is found, and its first byte lies in a replaced
    span.  The exception the code has is stated at the end: a needle that
    itself holds a character that starts an escape. *)
From stdpp Require Import base gmap strings list option sets.
From Stdlib Require Import ZArith Lia Ascii.
From S2P Require Import Prelude GoUtf8 GoStrings GoNet Body GoHttp GoEncoding ScrubPairs Utf8Codec ScrubMatch ScrubStream ScrubTables ScrubReader.
Local Open Scope string_scope.
Local Open Scope list_scope.
Local Open Scope Z_scope.

(** ** Hex digits *)

Definition digit_case (hc d : Z) : Z := if d <? 10 then 0 else if hc =? caseLower then caseLower else caseUpper.

Lemma hexValue_hex_char hc d : 0 <= d < 16 -> hexValue (hex_char hc d) = Some (d, digit_case hc d).
Proof.
  intros Hd. unfold hex_char, hexValue, digit_case, in_range, caseLower, caseUpper.
  destruct (Z.ltb_spec d 10); [|destruct (Z.eqb_spec hc 97)].
  - by rewrite (proj2 (Z.leb_le 48 _)), (proj2 (Z.leb_le _ 57)), Z.add_simpl_l by lia.
  - rewrite (proj2 (Z.leb_gt (87 + d) 57)), (proj2 (Z.leb_le 97 _)), (proj2 (Z.leb_le _ 102)), andb_false_r by lia.
    cbn [andb]. f_equal. f_equal. lia.
  - rewrite (proj2 (Z.leb_gt (55 + d) 57)), (proj2 (Z.leb_gt 97 (55 + d))), andb_false_r by lia. cbn [andb].
    rewrite (proj2 (Z.leb_le 65 _)), (proj2 (Z.leb_le _ 70)) by lia. cbn [andb]. f_equal. f_equal. lia.
Qed.

Lemma nibbles b : 0 <= b < 256 -> 0 <= Z.shiftr b 4 < 16 /\ 0 <= Z.land b 0xF < 16 /\ b = 16 * Z.shiftr b 4 + Z.land b 0xF.
Proof.
  intros Hb. rewrite (land_ones_mod b 4), Z.shiftr_div_pow2 by done. change (2 ^ 4) with 16. div_lia.
Qed.

Lemma hex_loop_char n hc d x v c :
  0 <= d < 16 -> exists c', hex_loop (S n) (hex_char hc d :: x) v c = hex_loop n x (16 * v + d) c'.
Proof.
  intros Hd. cbn [hex_loop]. rewrite hexValue_hex_char by done. rewrite lor_shiftl_sum by (change (2 ^ 4) with 16; lia).
  change (2 ^ 4) with 16. rewrite (Z.mul_comm v 16). eauto.
Qed.

Lemma hex_loop_byte n hc b x v c :
  0 <= b < 256 -> exists c', hex_loop (S (S n)) (hexByte hc b ++ x) v c = hex_loop n x (256 * v + b) c'.
Proof.
  intros Hb. destruct (nibbles b Hb) as (H1 & H2 & H3). unfold hexByte. cbn [app].
  destruct (hex_loop_char (S n) hc (Z.shiftr b 4) (hex_char hc (Z.land b 0xF) :: x) v c H1) as [c1 ->].
  destruct (hex_loop_char n hc (Z.land b 0xF) x (16 * v + Z.shiftr b 4) c1 H2) as [c2 ->].
  exists c2. f_equal. lia.
Qed.

Lemma readHex_byte hc b x : 0 <= b < 256 -> exists c, readHex (hexByte hc b ++ x) 2 = HexOK b c.
Proof. intros Hb. unfold readHex. destruct (hex_loop_byte 0 hc b x 0 0 Hb) as [c ->]. exists c. cbn [hex_loop]. f_equal. Qed.

Lemma readHex_unit hc u x : 0 <= u < 65536 ->
  exists c, readHex (hexByte hc ((Z.shiftr u 8) mod 256) ++ hexByte hc (u mod 256) ++ x) 4 = HexOK u c.
Proof.
  intros Hu. unfold readHex. rewrite Z.shiftr_div_pow2 by done. change (2 ^ 8) with 256.
  destruct (hex_loop_byte 2 hc ((u / 256) mod 256) (hexByte hc (u mod 256) ++ x) 0 0) as [c1 ->]; [apply Z.mod_pos_bound; lia|].
  destruct (hex_loop_byte 0 hc (u mod 256) x (256 * 0 + (u / 256) mod 256) c1) as [c2 ->]; [apply Z.mod_pos_bound; lia|].
  exists c2. cbn [hex_loop]. f_equal. div_lia.
Qed.

(** ** Percent *)

Lemma scalar_encoding r : scalar r ->
  Forall is_byte (EncodeRune r) /\ (1 <= length (EncodeRune r) <= 4)%nat
  /\ percent_need (hd 0 (EncodeRune r)) = length (EncodeRune r)
  /\ ((r =? RuneError) && (length (EncodeRune r) <=? 1)%nat = false)
  /\ (0x80 <= r -> 0x80 <= hd 0 (EncodeRune r)).
Proof.
  intros [Hr Hs]. unfold MaxRune in Hr.
  assert ((r =? RuneError) && (length (EncodeRune r) <=? 1)%nat = false) as Herr.
  { destruct (Z.eqb_spec r RuneError) as [->|]; [|done]. vm_compute. done. }
  assert (forall v k, 0 <= k -> Z.shiftr v k = v / 2 ^ k) as Hsh by (intros; by rewrite Z.shiftr_div_pow2).
  pose proof (base64_digits r ltac:(lia)) as (E0 & B0 & E1 & B1 & E2 & B2). unfold is_byte, percent_need.
  destruct (Z.le_gt_cases r 0x7F);
    [|destruct (Z.le_gt_cases r 0x7FF); [|destruct (Z.le_gt_cases r 0xFFFF)]].
  - rewrite EncodeRune_ascii in * by lia. cbn [hd length]. rewrite (proj2 (Z.ltb_lt r 0x80)) by lia.
    split_and!; [repeat constructor; lia|lia|lia|done|done|lia].
  - rewrite EncodeRune_2 in * by lia. cbn [hd length] in *. rewrite (proj2 (Z.ltb_ge _ 0x80)), !Hsh by lia.
    rewrite (proj2 (Z.eqb_eq _ 6)) by (change (2 ^ 5) with 32; div_lia).
    split_and!; [repeat constructor; lia|lia|lia|done|done|lia].
  - rewrite EncodeRune_3 in * by lia. cbn [hd length] in *. rewrite (proj2 (Z.ltb_ge _ 0x80)), !Hsh by lia.
    rewrite (proj2 (Z.eqb_neq _ 6)) by (change (2 ^ 5) with 32; div_lia).
    rewrite (proj2 (Z.eqb_eq _ 0xE)) by (change (2 ^ 4) with 16; div_lia).
    split_and!; [repeat constructor; lia|lia|lia|done|done|lia].
  - rewrite EncodeRune_4 in * by (unfold MaxRune; lia). cbn [hd length] in *. rewrite (proj2 (Z.ltb_ge _ 0x80)), !Hsh by lia.
    rewrite (proj2 (Z.eqb_neq _ 6)) by (change (2 ^ 5) with 32; div_lia).
    rewrite (proj2 (Z.eqb_neq _ 0xE)) by (change (2 ^ 4) with 16; div_lia).
    rewrite (proj2 (Z.eqb_eq _ 0x1E)) by (change (2 ^ 3) with 8; div_lia).
    split_and!; [repeat constructor; lia|lia|lia|done|done|lia].
Qed.

Definition percents (hc : Z) (l : list Z) : list Z := concat (map (fun b => 37 :: hexByte hc b) l).

Lemma length_percents hc l : length (percents hc l) = (3 * length l)%nat.
Proof. induction l as [|b l IH]; [done|]. unfold percents in *. cbn [map concat length app]. rewrite length_app, IH. simpl. lia. Qed.

(** The loop of [readPercent] with [l1] read and [l2] to read. *)
Lemma percent_loop_encoding t r hc c l1 l2 need x :
  scalar r -> l1 ++ l2 = EncodeRune r -> l2 <> [] -> (l1 = [] \/ need = length (EncodeRune r)) -> (length l2 <= t)%nat ->
  exists c', percent_loop t (length l1) need (percents hc l2 ++ x) l1 c
             = Some (EscOK r (3 * length (EncodeRune r)) (mkSpelling formPercent c')).
Proof.
  intros Hr. destruct (scalar_encoding r Hr) as (Hbytes & Hlen & Hneed & Herr & _).
  revert l1 l2 need c. induction t as [|t IH]; intros l1 l2 need c Hl Hne Hn Ht; [destruct l2; [done|simpl in Ht; lia]|].
  destruct l2 as [|b l2]; [done|].
  assert (is_byte b) as Hb. { rewrite <- Hl in Hbytes. apply list.Forall_app in Hbytes as [_ Hb]. by inversion Hb. }
  unfold percents. cbn [map concat app percent_loop]. change (negb (37 =? 37)) with false. cbn iota.
  rewrite <- app_assoc.
  destruct (readHex_byte hc b (percents hc l2 ++ x) Hb) as [c1 Hh]. unfold percents in Hh. rewrite Hh.
  assert ((if (length l1 =? 0)%nat then percent_need b else need) = length (EncodeRune r)) as ->.
  { destruct l1 as [|b1 l1]; [cbn [length Nat.eqb]; rewrite <- Hneed, <- Hl; done|]. simpl. destruct Hn; [done|done]. }
  assert (length (EncodeRune r) = length l1 + S (length l2))%nat as Hlr by (rewrite <- Hl, length_app; done).
  destruct (Nat.eqb_spec (length l1) (length (EncodeRune r) - 1)) as [Heq|Hneq].
  - assert (l2 = []) as -> by (destruct l2; [done|]; simpl in Hlr; lia).
    pose proof (DecodeRune_EncodeRune r [] Hr) as Hd. rewrite app_nil_r in Hd. rewrite Hl, Hd, Herr. eauto.
  - change (drop 2 (hexByte hc b ++ (concat (map (fun b => 37 :: hexByte hc b) l2) ++ x))) with (percents hc l2 ++ x).
    replace (S (length l1)) with (length (l1 ++ [b])) by (rewrite length_app; simpl; lia).
    apply IH; [by rewrite <- app_assoc | destruct l2; [simpl in Hlr; lia|done] | by right | simpl in Ht; lia].
Qed.

Lemma readPercent_percents r hc x : scalar r ->
  exists sp, readPercent (percents hc (EncodeRune r) ++ x) = EscOK r (length (percents hc (EncodeRune r))) sp.
Proof.
  intros Hr. unfold readPercent. rewrite length_percents.
  destruct (percent_loop_encoding UTFMax r hc 0 [] (EncodeRune r) 1 x) as [c Hc]; try done.
  - apply EncodeRune_nonempty.
  - by left.
  - pose proof (scalar_encoding r Hr). unfold UTFMax. lia.
  - cbn [length] in Hc. rewrite Hc. eauto.
Qed.

(** ** JSON escapes *)

Definition unit_escape (hc u : Z) : list Z := [92; 117] ++ hexByte hc ((Z.shiftr u 8) mod 256) ++ hexByte hc (u mod 256).

Lemma readBackslash_unit hc u x : 0 <= u < 65536 -> ~ (0xD800 <= u < 0xDC00) ->
  exists sp, readBackslash (unit_escape hc u ++ x) = EscOK u 6 sp.
Proof.
  intros Hu Hs. unfold readBackslash. rewrite (proj2 (Nat.ltb_ge _ 2)) by (simpl; lia).
  change (byte_at (unit_escape hc u ++ x) 1) with 117. cbn [Z.eqb Pos.eqb].
  change (drop 2 (unit_escape hc u ++ x)) with ((hexByte hc ((Z.shiftr u 8) mod 256) ++ hexByte hc (u mod 256)) ++ x).
  destruct (readHex_unit hc u x Hu) as [c Hc]. rewrite <- app_assoc, Hc.
  destruct ((0xD800 <=? u) && (u <? 0xDC00)) eqn:Hsur; [bool_prop; lia|]. eauto.
Qed.

Lemma readBackslash_pair hc hi lo x : 0xD800 <= hi < 0xDC00 -> 0xDC00 <= lo < 0xE000 ->
  exists sp, readBackslash (unit_escape hc hi ++ unit_escape hc lo ++ x)
             = EscOK (0x10000 + Z.shiftl (hi - 0xD800) 10 + (lo - 0xDC00)) 12 sp.
Proof.
  intros Hhi Hlo. unfold readBackslash.
  set (d := unit_escape hc hi ++ unit_escape hc lo ++ x).
  assert (12 <= length d)%nat as Hlen by (subst d; rewrite !length_app; simpl; lia).
  rewrite (proj2 (Nat.ltb_ge _ 2)), (proj2 (Nat.ltb_ge _ 8)), (proj2 (Nat.ltb_ge _ 12)) by lia.
  change (byte_at d 1) with 117. change (byte_at d 6) with 92. change (byte_at d 7) with 117.
  cbn [Z.eqb Pos.eqb]. destruct (readHex_unit hc hi (unit_escape hc lo ++ x)) as [c1 Hc1]; [lia|].
  change (drop 2 d) with ((hexByte hc ((Z.shiftr hi 8) mod 256) ++ hexByte hc (hi mod 256)) ++ unit_escape hc lo ++ x).
  rewrite <- app_assoc, Hc1. rewrite (proj2 (Z.leb_le _ _)), (proj2 (Z.ltb_lt _ _)) by lia. cbn [andb orb].
  change (drop 8 d) with ((hexByte hc ((Z.shiftr lo 8) mod 256) ++ hexByte hc (lo mod 256)) ++ x).
  destruct (readHex_unit hc lo x) as [c2 Hc2]; [lia|].
  rewrite <- app_assoc, Hc2. rewrite (proj2 (Z.leb_le _ _)), (proj2 (Z.ltb_lt _ _)) by lia. cbn [andb]. eauto.
Qed.

Lemma readBackslash_hex hc b x : 0 <= b < 0x80 -> exists sp, readBackslash ([92; 120] ++ hexByte hc b ++ x) = EscOK b 4 sp.
Proof.
  intros Hb. unfold readBackslash. rewrite (proj2 (Nat.ltb_ge _ 2)) by (simpl; lia).
  change (byte_at ([92; 120] ++ hexByte hc b ++ x) 1) with 120. cbn [Z.eqb Pos.eqb].
  change (drop 2 ([92; 120] ++ hexByte hc b ++ x)) with (hexByte hc b ++ x).
  destruct (readHex_byte hc b x) as [c Hc]; [lia|]. rewrite Hc. eauto.
Qed.

(** ** Character references *)

Lemma length_format_int fuel base hc k v :
  1 < base -> (0 < k)%nat -> 0 <= v < base ^ Z.of_nat k -> (length (format_int fuel base hc v) <= k)%nat.
Proof.
  intros Hbase. revert k v. induction fuel as [|fuel IH]; intros k v Hk Hv; [simpl; lia|].
  cbn [format_int]. rewrite length_app. cbn [length].
  destruct (Z.ltb_spec v base); [simpl; lia|]. destruct k as [|[|k]]; [lia|simpl in Hv; lia|].
  specialize (IH (S k) (v / base) ltac:(lia)).
  rewrite Nat2Z.inj_succ, Z.pow_succ_r in Hv by lia.
  assert (0 <= v / base < base ^ Z.of_nat (S k)); [|lia].
  split; [apply Z.div_pos; lia | apply Z.div_lt_upper_bound; lia].
Qed.

Lemma format_int_pos fuel base hc v : (0 < fuel)%nat -> (0 < length (format_int fuel base hc v))%nat.
Proof. destruct fuel; [lia|]. cbn [format_int]. rewrite length_app. simpl. lia. Qed.

(** The digits [FormatRune] writes, read by [digits_loop] with [tail] still
    to come. *)
Lemma digits_loop_format fuel dg n base mx f hc v tail hc0 acc :
  (base = 10 \/ base = 16) -> 0 <= v < base ^ Z.of_nat fuel ->
  (n + length (format_int fuel base hc v) <= mx)%nat -> (0 < fuel)%nat ->
  exists hc1, digits_loop dg n base mx f (format_int fuel base hc v ++ tail) hc0 acc
    = digits_loop dg (n + length (format_int fuel base hc v)) base mx f tail hc1
        (acc * base ^ Z.of_nat (length (format_int fuel base hc v)) + v).
Proof.
  intros Hbase. revert v n tail hc0 acc. induction fuel as [|fuel IH]; intros v n tail hc0 acc Hv Hmx Hf; [lia|].
  assert (1 < base) as Hb1 by lia.
  assert (forall n hc0 acc d, (n < mx)%nat -> 0 <= d < base ->
    exists hc1, digits_loop dg n base mx f (hex_char hc d :: tail) hc0 acc
                = digits_loop dg (S n) base mx f tail hc1 (acc * base + d)) as Hone.
  { intros n' hc' acc' d Hn Hd. cbn [digits_loop].
    replace (hex_char hc d =? 59) with false.
    2: { symmetry. apply Z.eqb_neq. unfold hex_char, caseLower. destruct (d <? 10) eqn:?, (hc =? 97); bool_prop; lia. }
    rewrite (proj2 (Nat.leb_gt mx n')), hexValue_hex_char by lia.
    replace ((base =? 10) && _) with false; [eauto|]. symmetry. unfold digit_case.
    destruct (Z.eqb_spec base 10); [|done]. cbn [andb]. rewrite (proj2 (Z.ltb_lt d 10)) by lia.
    rewrite (proj2 (Z.ltb_ge 9 d)) by lia. done. }
  cbn [format_int] in *. destruct (Z.ltb_spec v base).
  - cbn [app length] in *. rewrite Z.mod_small by lia. destruct (Hone n hc0 acc v ltac:(lia) ltac:(lia)) as [hc1 ->].
    exists hc1. rewrite Nat.add_1_r, Z.pow_1_r. done.
  - destruct fuel as [|fuel]; [simpl in Hv; lia|].
    rewrite length_app in *. cbn [length] in *. rewrite <- app_assoc. cbn [app].
    rewrite Nat2Z.inj_succ, Z.pow_succ_r in Hv by lia.
    pose proof (Z.mod_pos_bound v base ltac:(lia)) as Hmod.
    destruct (IH (v / base) n (hex_char hc (v mod base) :: tail) hc0 acc) as [hc1 ->]; [|lia|lia|].
    { split; [apply Z.div_pos; lia | apply Z.div_lt_upper_bound; lia]. }
    set (k := length (format_int (S fuel) base hc (v / base))) in *.
    destruct (Hone (n + k)%nat hc1 (acc * base ^ Z.of_nat k + v / base) (v mod base) ltac:(lia) Hmod) as [hc2 ->].
    exists hc2. replace (n + (k + 1))%nat with (S (n + k)) by lia. f_equal.
    rewrite Nat2Z.inj_add, Z.pow_add_r by lia. rewrite Z.pow_1_r.
    pose proof (Z.div_mod v base ltac:(lia)). nia.
Qed.

Lemma digits_loop_reference dg base mx f hc r x :
  (base = 10 \/ base = 16) -> 0 <= r <= MaxRune -> r < base ^ 7 -> (length (FormatRune base hc r) <= mx)%nat ->
  exists sp, digits_loop dg 0 base mx f (FormatRune base hc r ++ 59 :: x) 0 0
             = EscOK r (dg + length (FormatRune base hc r) + 1) sp.
Proof.
  intros Hbase Hr Hr7 Hmx. unfold FormatRune in *.
  destruct (digits_loop_format 7 dg 0 base mx f hc r (59 :: x) 0 0) as [hc1 ->]; [done | simpl Z.of_nat; lia | lia | lia |].
  cbn [digits_loop Z.eqb Pos.eqb]. pose proof (format_int_pos 7 base hc r ltac:(lia)).
  cbn [Nat.add]. rewrite (proj2 (Nat.eqb_neq _ 0)) by lia. cbn [orb].
  rewrite Z.mul_0_l, Z.add_0_l, (proj2 (Z.ltb_ge MaxRune r)) by lia. eauto.
Qed.

(** ** Reading back what [spell] writes *)

(** A spelling that is read as an escape of [r]. *)
Definition escapes (r : Z) (bytes : list Z) : Prop :=
  forall x, exists sp, readEscape (bytes ++ x) = EscOK r (length bytes) sp.

Lemma escapes_percent r hc : scalar r -> escapes r (percents hc (EncodeRune r)).
Proof.
  intros Hr x. destruct (readPercent_percents r hc x Hr) as [sp Hsp]. exists sp. rewrite <- Hsp.
  pose proof (EncodeRune_nonempty r). by destruct (EncodeRune r).
Qed.

Lemma escapes_json r hc : scalar r -> escapes r (spell r formJSONU hc).
Proof.
  intros [[Hr0 Hr1] Hs] x. cbn [spell]. rewrite (proj2 (Z.ltb_ge MaxRune r)) by lia. unfold MaxRune in *.
  destruct (Z.leb_spec 0x10000 r).
  - set (hi := 0xD800 + Z.shiftr (r - 0x10000) 10). set (lo := 0xDC00 + Z.land (r - 0x10000) 0x3FF).
    cbn [map concat]. rewrite app_nil_r. change (_ ++ _ ++ hexByte hc (lo mod 256)) with (unit_escape hc lo).
    change ([92; 117] ++ _ ++ _) with (unit_escape hc hi).
    assert (0xD800 <= hi < 0xDC00 /\ 0xDC00 <= lo < 0xE000 /\ r = 0x10000 + Z.shiftl (hi - 0xD800) 10 + (lo - 0xDC00)) as (Hhi & Hlo & Heq).
    { subst hi lo. rewrite Z.shiftl_mul_pow2, Z.shiftr_div_pow2, (land_ones_mod _ 10) by done.
      change (2 ^ 10) with 1024. div_lia. }
    rewrite <- app_assoc. destruct (readBackslash_pair hc hi lo x Hhi Hlo) as [sp Hsp]. exists sp.
    rewrite <- Heq in Hsp. exact Hsp.
  - cbn [map concat]. rewrite app_nil_r. destruct (readBackslash_unit hc r x) as [sp Hsp]; [lia..|]. exists sp. exact Hsp.
Qed.

Lemma escapes_hex r hc : 0 <= r < 0x80 -> escapes r ([92; 120] ++ hexByte hc r).
Proof. intros Hr x. destruct (readBackslash_hex hc r x Hr) as [sp Hsp]. exists sp. exact Hsp. Qed.

Lemma escapes_short r b : find (fun p => p.2 =? r) jsonShort = Some (b, r) -> escapes r [92; b].
Proof.
  intros Hf x. assert (assoc b jsonShort = Some r /\ (b =? 117) = false /\ (b =? 120) = false) as (Ha & H1 & H2).
  { apply find_some in Hf as [Hin _]. simpl in Hin. naive_solver. }
  exists (mkSpelling formJSONShort 0). unfold readEscape, readBackslash. cbn [hd app Z.eqb Pos.eqb].
  rewrite (proj2 (Nat.ltb_ge _ 2)) by (simpl; lia). change (byte_at (92 :: b :: x) 1) with b. by rewrite H1, H2, Ha.
Qed.

Lemma escapes_named r name : find (fun p => p.2 =? r) namedRefs = Some (name, r) -> escapes r (38 :: name ++ [59]).
Proof.
  intros Hf x. apply find_some in Hf as [Hin _].
  assert (forall nm (v : Z), readReference (38 :: (nm ++ [59]) ++ x) = EscOK v (length (38 :: nm ++ [59])) (mkSpelling formHTMLNamed 0) ->
    exists sp, readEscape ((38 :: nm ++ [59]) ++ x) = EscOK v (length (38 :: nm ++ [59])) sp) as Hr.
  { intros nm v Hv. eexists. exact Hv. }
  simpl in Hin. destruct Hin as [Heq|[Heq|[Heq|[Heq|[Heq|[]]]]]]; injection Heq as <- <-; apply Hr; reflexivity.
Qed.

Lemma format_int_head n base hc v :
  1 < base -> 0 <= v -> exists d l, format_int (S n) base hc v = hex_char hc d :: l /\ 0 <= d < base.
Proof.
  intros Hbase. revert v. induction n as [|n IH]; intros v Hv.
  - exists (v mod base), []. cbn [format_int]. split; [by destruct (v <? base) | apply Z.mod_pos_bound; lia].
  - remember (S n) as m. cbn [format_int]. destruct (Z.ltb_spec v base).
    + exists (v mod base), []. split; [done | apply Z.mod_pos_bound; lia].
    + destruct (IH (v / base)) as (d & l & -> & ?); [apply Z.div_pos; lia|]. cbn [app]. eauto.
Qed.

Lemma escapes_decimal r : scalar r -> escapes r ([38; 35] ++ FormatRune 10 0 r ++ [59]).
Proof.
  intros [Hr _] x. unfold readEscape. cbn [app hd Z.eqb Pos.eqb]. unfold readReference.
  assert (0 < length (FormatRune 10 0 r) <= 7)%nat as Hlen.
  { split; [apply format_int_pos; lia|]. apply length_format_int; [lia..|]. unfold MaxRune in Hr. simpl Z.of_nat. lia. }
  destruct (digits_loop_reference 2 10 7 formHTMLDec 0 r x) as [sp Hsp]; [by left|done|unfold MaxRune in Hr; lia|lia|].
  exists sp. rewrite <- !app_assoc. cbn [app]. rewrite (proj2 (Nat.ltb_ge _ 2)) by (simpl; lia).
  change (byte_at (38 :: 35 :: _) 1) with 35. cbn [Z.eqb Pos.eqb negb].
  replace ((2 <? _)%nat && _) with false.
  - change (drop 2 (38 :: 35 :: _)) with (FormatRune 10 0 r ++ 59 :: x). rewrite Hsp. f_equal.
    cbn [length]. rewrite length_app. simpl. lia.
  - symmetry. apply andb_false_iff. right.
    destruct (format_int_head 6 10 0 r ltac:(lia) ltac:(lia)) as (d & l & Hd & Hd10). unfold FormatRune. rewrite Hd.
    change (byte_at (38 :: 35 :: (hex_char 0 d :: l) ++ 59 :: x) 2) with (hex_char 0 d).
    unfold hex_char. rewrite (proj2 (Z.ltb_lt d 10)) by lia. apply orb_false_iff. split; apply Z.eqb_neq; lia.
Qed.

Lemma escapes_hexref r hc : scalar r -> escapes r ([38; 35; 120] ++ FormatRune 16 hc r ++ [59]).
Proof.
  intros [Hr _] x. unfold readEscape. cbn [app hd Z.eqb Pos.eqb]. unfold readReference.
  assert (0 < length (FormatRune 16 hc r) <= 6)%nat as Hlen.
  { split; [apply format_int_pos; lia|]. apply length_format_int; [lia..|]. unfold MaxRune in Hr. simpl Z.of_nat. lia. }
  destruct (digits_loop_reference 3 16 6 formHTMLHex hc r x) as [sp Hsp]; [by right|done|unfold MaxRune in Hr; lia|lia|].
  exists sp. rewrite <- !app_assoc. cbn [app]. rewrite (proj2 (Nat.ltb_ge _ 2)) by (simpl; lia).
  rewrite (proj2 (Nat.ltb_lt 2 _)) by (simpl; lia).
  change (byte_at (38 :: 35 :: _) 1) with 35. change (byte_at (38 :: 35 :: 120 :: _) 2) with 120. cbn [Z.eqb Pos.eqb negb orb andb].
  change (drop 3 (38 :: 35 :: 120 :: _)) with (FormatRune 16 hc r ++ 59 :: x). rewrite Hsp. f_equal.
  cbn [length]. rewrite length_app. simpl. lia.
Qed.

Lemma spell_escapes r f hc : scalar r -> spell r f hc = EncodeRune r \/ escapes r (spell r f hc).
Proof.
  intros Hr. assert (appendRune r = EncodeRune r) as Happ.
  { unfold appendRune. destruct Hr as [Hr _]. by rewrite (proj2 (Z.ltb_ge MaxRune r)) by lia. }
  assert ((r <=? MaxRune) = true) as Hmax by (destruct Hr; apply Z.leb_le; lia).
  destruct f.
  - by left.
  - right. cbn [spell]. rewrite Happ. by apply escapes_percent.
  - right. by apply escapes_json.
  - cbn [spell]. destruct (find _ jsonShort) as [[b v]|] eqn:Hf; [|by left]. right. apply escapes_short.
    apply find_some in Hf as Hv. destruct Hv as [_ Hv]. simpl in Hv. apply Z.eqb_eq in Hv as ->. done.
  - cbn [spell]. destruct (Z.ltb_spec r 0x80); [|by left]. right. apply escapes_hex. destruct Hr. lia.
  - right. cbn [spell]. rewrite Hmax. by apply escapes_decimal.
  - right. cbn [spell]. rewrite Hmax. by apply escapes_hexref.
  - cbn [spell]. destruct (find _ namedRefs) as [[nm v]|] eqn:Hf; [|by left]. right. apply escapes_named.
    apply find_some in Hf as Hv. destruct Hv as [_ Hv]. simpl in Hv. apply Z.eqb_eq in Hv as ->. done.
Qed.

(** A character is spelled by [bytes]: as [spell] writes it in some form and
    hex case.  A character that starts an escape must itself be escaped. *)
Definition spelled (r : Z) (bytes : list Z) : Prop :=
  scalar r /\ (exists f hc, bytes = spell r f hc) /\ (isEscapeStart r = true -> bytes <> [r]).

Lemma spelled_token r bytes x : spelled r bytes -> exists sp, tokenAt (bytes ++ x) true true = TokOK r (length bytes) sp.
Proof.
  intros (Hr & (f & hc & ->) & Hesc). destruct (spell_escapes r f hc Hr) as [Heq|He].
  - rewrite Heq in *. exists literal. destruct (scalar_encoding r Hr) as (_ & Hlen & _ & Herr & Hhigh).
    destruct (Z.lt_ge_cases r 0x80) as [Hlow|Hge].
    + assert (0 <= r < 0x80) as Hr' by (destruct Hr as [[? ?] _]; lia). rewrite EncodeRune_ascii in * by done.
      cbn [app length]. apply plain_token; [unfold RuneSelf; lia|].
      destruct (isEscapeStart r); [exfalso; by apply Hesc | done].
    + assert (readEscape (EncodeRune r ++ x) = EscNone) as Hnone.
      { destruct (readEscape (EncodeRune r ++ x)) eqn:He; [|done|];
          pose proof (readEscape_start (EncodeRune r ++ x) ltac:(by rewrite He)) as Hst;
          rewrite hd_ext in Hst by apply EncodeRune_nonempty; apply isEscapeStart_ascii in Hst; lia. }
      unfold tokenAt. rewrite hd_ext by apply EncodeRune_nonempty. rewrite (proj2 (Z.leb_le RuneSelf _)) by (unfold RuneSelf; lia).
      cbn [orb]. unfold readToken. rewrite Hnone. unfold readLiteral, decodeLiteral.
      by rewrite DecodeRune_EncodeRune, Herr by done.
  - destruct (He x) as [sp Hsp]. exists sp. unfold tokenAt.
    assert (isEscapeStart (hd 0 (spell r f hc ++ x)) = true) as -> by (apply readEscape_start; by rewrite Hsp).
    rewrite orb_true_r. unfold readToken. by rewrite Hsp.
Qed.

Lemma spelled_nonempty r bytes : spelled r bytes -> bytes <> [].
Proof.
  intros Hs ->. destruct (spelled_token r [] [0] Hs) as [sp Hsp].
  apply tokenAt_width in Hsp; [|done]. simpl in Hsp. lia.
Qed.

Section occurrences.
Context `{UnicodeTables}.

(** ** Occurrences *)

(** At most [k] spelled format characters. *)
Inductive gaps_spelled : nat -> list Z -> Prop :=
  | gaps_nil k : gaps_spelled k []
  | gaps_cons k g bytes rest : isGap g = true -> spelled g bytes -> gaps_spelled k rest -> gaps_spelled (S k) (bytes ++ rest).

(** A character that starts an escape, written as it is: what follows must
    not make it an escape of the same character, nor, for the first one, an
    escape at all. *)
Definition stands_literally (fold first : bool) (want : Z) (data : list Z) : Prop :=
  isEscapeStart want = true /\
  match readEscape data with EscOK r _ _ => first = false /\ equalRune r want fold = false | _ => True end.

(** The characters of a needle, each spelled in its own way and, past the
    first, after at most [maxGap] format characters; [x] is what follows.  A
    format character is not told from a wanted one that is itself a format
    character or starts an escape, so none stands before those. *)
Inductive occurs (fold : bool) (x : list Z) : bool -> list Z -> list Z -> Prop :=
  | occurs_nil first : occurs fold x first [] []
  | occurs_cons first gs r want ws bytes rest :
      gaps_spelled maxGap gs ->
      (gs <> [] -> first = false /\ isGap want = false /\ isEscapeStart want = false) ->
      equalRune r want fold = true -> spelled r bytes ->
      occurs fold x false ws rest -> occurs fold x first (want :: ws) (gs ++ bytes ++ rest)
  | occurs_literal first want ws rest :
      stands_literally fold first want (want :: rest ++ x) -> occurs fold x false ws rest -> occurs fold x first (want :: ws) (want :: rest).

(** An occurrence of a needle, with [x] behind it.  One that starts with a
    character that starts an escape also occurs when all of it is written as
    it is. *)
Definition occurrence (n : needle) (bytes x : list Z) : Prop :=
  n_runes n <> [] /\
  (occurs (n_fold n) x true (n_runes n) bytes \/
   isEscapeStart (hd 0 (n_runes n)) = true /\ Forall scalar (n_runes n) /\ bytes = concat (map EncodeRune (n_runes n))).

Lemma equalRune_gap g want fold : isGap g = true -> isGap want = false -> equalRune g want fold = false.
Proof.
  intros Hg Hw. apply not_true_iff_false. intros [->|(_ & Hlt & _)]%equalRune_cases; [congruence|].
  unfold isGap, RuneSelf in *. bool_prop. lia.
Qed.

Lemma equalRune_escape b want fold : isEscapeStart b = true -> isEscapeStart want = false -> equalRune b want fold = false.
Proof.
  intros Hb Hw. apply not_true_iff_false. intros [->|(_ & _ & _ & Hl)]%equalRune_cases; [congruence|].
  replace (unicode_ToLower b) with b in Hl; [congruence|].
  unfold isEscapeStart in Hb. unfold unicode_ToLower, is_upper_ascii, in_range, RuneSelf. bool_prop.
  destruct Hb as [Hb|Hb]; bool_prop; [destruct Hb; bool_prop|]; z_cases.
Qed.

Lemma matchRune_spelled k first want fold r bytes x :
  equalRune r want fold = true -> spelled r bytes ->
  exists sp, matchRune k first want fold true true (bytes ++ x) = RuneOK sp (length bytes).
Proof.
  intros He Hs. destruct (spelled_token r bytes x Hs) as [sp Ht]. pose proof (spelled_nonempty r bytes Hs).
  destruct bytes as [|b bytes]; [done|]. change ((b :: bytes) ++ x) with (b :: (bytes ++ x)) in *.
  rewrite matchRune_eq, Ht, He. eauto.
Qed.

Lemma matchRune_gaps k gs want fold r bytes x :
  gaps_spelled k gs -> isGap want = false -> isEscapeStart want = false ->
  equalRune r want fold = true -> spelled r bytes ->
  exists sp, matchRune k false want fold true true (gs ++ bytes ++ x) = RuneOK sp (length gs + length bytes).
Proof.
  intros Hgs Hgap Hesc He Hs. induction Hgs as [k|k g gb rest Hg Hgb _ IH]; [exact (matchRune_spelled k false want fold r bytes x He Hs)|].
  rewrite <- app_assoc. destruct (spelled_token g gb (rest ++ bytes ++ x) Hgb) as [sp Ht].
  pose proof (spelled_nonempty g gb Hgb). destruct gb as [|b gb]; [done|].
  change ((b :: gb) ++ rest ++ bytes ++ x) with (b :: (gb ++ rest ++ bytes ++ x)) in *.
  rewrite matchRune_eq, Ht, equalRune_gap by done.
  replace (literal_instead _ sp true b want fold) with false.
  - rewrite Hg. cbn [orb negb]. change (b :: gb ++ rest ++ bytes ++ x) with ((b :: gb) ++ rest ++ bytes ++ x).
    rewrite drop_app_length. destruct IH as [sp' ->]. exists sp'. cbn [shift]. f_equal. rewrite !length_app. lia.
  - symmetry. unfold literal_instead. destruct (_ && _ && negb _) eqn:Hl; [|done]. bool_prop. cbn [andb].
    apply tokenAt_escape in Ht; [|done]. by apply equalRune_escape.
Qed.

Lemma equalRune_refl r fold : equalRune r r fold = true.
Proof. unfold equalRune. by rewrite Z.eqb_refl. Qed.

Lemma escape_token b d r w sp : isEscapeStart b = true -> tokenAt (b :: d) true true = TokOK r w sp ->
  match readEscape (b :: d) with EscOK r' w' sp' => r = r' /\ w = w' /\ sp = sp' | _ => r = b /\ w = 1%nat /\ sp = literal end.
Proof.
  intros Hb. unfold tokenAt. cbn [hd]. rewrite Hb, orb_true_r. pose proof (literal_reading_escape (b :: d) true Hb) as Hl. unfold readToken in *.
  destruct (readEscape (b :: d)); [rewrite Hl; by intros [= <- <- <-]..|]. by intros [= <- <- <-].
Qed.

Lemma matchRune_literal k first want fold d :
  stands_literally fold first want (want :: d) -> exists sp, matchRune k first want fold true true (want :: d) = RuneOK sp 1.
Proof.
  intros [He Hr]. rewrite matchRune_eq. destruct (tokenAt (want :: d) true true) as [|r w sp] eqn:Ht; [by apply tokenAt_More in Ht as [? _]|].
  pose proof (escape_token _ _ _ _ _ He Ht) as Hesc. pose proof (readEscape_within (want :: d)) as Hw.
  destruct (readEscape (want :: d)) as [| |r' w' sp']; [destruct Hesc as (-> & -> & ->); rewrite equalRune_refl; eauto..|].
  destruct Hesc as (-> & -> & ->), Hr as [_ ->]. unfold literal_instead. destruct Hw as ((Hw & _) & _ & Hf).
  rewrite (proj2 (Nat.ltb_lt _ _) Hw), bool_decide_false, equalRune_refl by done. eauto.
Qed.

Lemma occurs_matches fold first ws bytes x :
  occurs fold x first ws bytes -> exists sps, matchRunes first ws fold true true (bytes ++ x) = MatchFound (length bytes) sps.
Proof.
  induction 1 as [first|first gs r want ws bytes rest Hgs Hfirst He Hs _ IH|first want ws rest Hl _ IH]; [by exists []|..]; cbn [matchRunes].
  - assert (exists sp, matchRune maxGap first want fold true true (gs ++ bytes ++ rest ++ x) = RuneOK sp (length gs + length bytes)) as [sp Hm].
    { destruct gs as [|g gs]; [exact (matchRune_spelled maxGap first want fold r bytes (rest ++ x) He Hs)|].
      destruct Hfirst as (-> & ? & ?); [done|]. by apply matchRune_gaps with r. }
    rewrite <- !app_assoc, Hm. rewrite <- length_app, app_assoc, drop_app_length. destruct IH as [sps ->].
    exists (sp :: sps). f_equal. rewrite !length_app. lia.
  - destruct (matchRune_literal maxGap first want fold (rest ++ x) Hl) as [sp Hm]. cbn [app]. rewrite Hm. change (drop 1 (want :: rest ++ x)) with (rest ++ x).
    destruct IH as [sps ->]. by exists (sp :: sps).
Qed.

(** Read without escapes, a character in UTF-8 is itself. *)
Lemma literal_token r x : scalar r -> tokenAt (EncodeRune r ++ x) false true = TokOK r (length (EncodeRune r)) literal.
Proof.
  intros Hr. destruct (scalar_encoding r Hr) as (_ & Hlen & _ & Herr & Hhigh). destruct (Z.lt_ge_cases r 0x80) as [Hlow|Hge].
  - assert (0 <= r < 0x80) as Hr' by (destruct Hr as [[? ?] _]; lia). rewrite EncodeRune_ascii in * by done. cbn [app length].
    unfold tokenAt. cbn [hd]. rewrite (proj2 (Z.leb_gt RuneSelf r)) by (unfold RuneSelf; lia). cbn [orb].
    destruct (isEscapeStart r) eqn:He; [|done]. by apply (literal_reading_escape (r :: x)).
  - unfold tokenAt. rewrite hd_ext by apply EncodeRune_nonempty. rewrite (proj2 (Z.leb_le RuneSelf _)) by (unfold RuneSelf; lia).
    cbn [orb]. unfold readToken, readLiteral, decodeLiteral. by rewrite DecodeRune_EncodeRune, Herr by done.
Qed.

Lemma literal_matches first ws fold x :
  Forall scalar ws -> exists sps, matchRunes first ws fold false true (concat (map EncodeRune ws) ++ x) = MatchFound (length (concat (map EncodeRune ws))) sps.
Proof.
  intros Hs. revert first. induction Hs as [|r ws Hr _ IH]; intros first; [by exists []|]. cbn [map concat matchRunes]. rewrite <- app_assoc.
  pose proof (literal_token r (concat (map EncodeRune ws) ++ x) Hr) as Ht. pose proof (EncodeRune_nonempty r) as Hne.
  assert (exists sp, matchRune maxGap first r fold false true (EncodeRune r ++ concat (map EncodeRune ws) ++ x) = RuneOK sp (length (EncodeRune r))) as [sp ->].
  { destruct (EncodeRune r) as [|b l]; [done|]. cbn [app] in *. rewrite matchRune_eq, Ht, equalRune_refl. eauto. }
  rewrite drop_app_length. destruct (IH false) as [sps ->]. exists (sp :: sps). f_equal. by rewrite length_app.
Qed.

(** An occurrence matches, in the pass its head is read in. *)
Lemma occurrence_matches n bytes x : occurrence n bytes x ->
  exists e r w sp sps, tokenAt (bytes ++ x) e true = TokOK r w sp /\ head_matches r n = true /\ matchAt (bytes ++ x) n e true = MatchFound (length bytes) sps /\
    (e = false -> isEscapeStart (hd 0 (bytes ++ x)) = true).
Proof.
  intros [Hne [Ho|(Hesc & Hsc & ->)]]; unfold head_matches, matchAt.
  - exists true. destruct (occurs_matches _ _ _ _ _ Ho) as [sps Hm]. rewrite Hm.
    inversion Ho as [|? gs r want ws b rest Hgs Hfirst He Hs Hrest Heq|? want ws rest Hl Hrest Heq]; subst; [congruence|..].
    + destruct gs as [|g gs]; [|by destruct Hfirst]. destruct (spelled_token r b (rest ++ x) Hs) as [sp Ht].
      exists r, (length b), sp, sps. cbn [app]. by rewrite <- app_assoc.
    + destruct Hl as [He Hr]. cbn [app]. destruct (tokenAt (want :: rest ++ x) true true) as [|r w sp] eqn:Ht; [by apply tokenAt_More in Ht as [? _]|].
      pose proof (escape_token _ _ _ _ _ He Ht) as Hx. destruct (readEscape (want :: rest ++ x)); [..|by destruct Hr];
        destruct Hx as (-> & -> & ->); eexists _, _, _, sps; (split; [done|]); (split; [apply equalRune_refl | done]).
  - exists false. destruct (literal_matches true (n_runes n) (n_fold n) x Hsc) as [sps ->].
    destruct (n_runes n) as [|r ws]; [done|]. cbn [hd] in Hesc. inversion Hsc as [|? ? Hr _]; subst. cbn [map concat]. rewrite <- app_assoc.
    eexists _, _, _, sps. split; [by apply literal_token|]. split; [apply equalRune_refl|]. split; [done|]. intros _.
    pose proof (isEscapeStart_ascii r Hesc). by rewrite EncodeRune_ascii.
Qed.

(** ** An occurrence is not passed through *)

Lemma consider_some c i m : is_Some (best c) -> is_Some (best (consider c i m)).
Proof.
  destruct m; cbn [consider]; [done..|]. destruct (best c) as [[[e' ?] ?]|] eqn:Hb; [|by intros [? ?]].
  intros _. destruct (e' <? end_)%nat; cbn [best]; rewrite ?Hb; eauto.
Qed.

Lemma consider_found c i k sps : is_Some (best (consider c i (MatchFound k sps))).
Proof.
  cbn [consider]. destruct (best c) as [[[e' ?] ?]|] eqn:Hb; [|cbn; eauto].
  destruct (e' <? k)%nat; cbn [best]; rewrite ?Hb; eauto.
Qed.

Lemma ref_pass_some s d e f r w sp i n c k sps :
  tokenAt d e f = TokOK r w sp -> needles s !! i = Some n -> head_matches r n = true -> matchAt d n e f = MatchFound k sps ->
  is_Some (best (ref_pass s d e f c)).
Proof.
  intros Ht Hn Hh Hm. unfold ref_pass. rewrite Ht.
  assert (forall l c, is_Some (best c) -> is_Some (best (fold_left (ref_needle s d e f r) l c))) as Hkeep.
  { intros l. induction l as [|j l IH]; intros c' Hc; [done|]. cbn [fold_left]. apply IH. unfold ref_needle.
    destruct (needles s !! j) as [n0|]; [|done]. destruct (head_matches r n0); [by apply consider_some | done]. }
  apply lookup_lt_Some in Hn as Hi. replace (seq 0 (length (needles s))) with (seq 0 i ++ i :: seq (S i) (length (needles s) - S i)).
  - rewrite fold_left_app. cbn [fold_left]. apply Hkeep. unfold ref_needle at 1. rewrite Hn, Hh, Hm. apply consider_found.
  - replace (i :: seq (S i) (length (needles s) - S i)) with (seq i (length (needles s) - i)).
    + rewrite <- seq_app. f_equal. lia.
    + replace (length (needles s) - i)%nat with (S (length (needles s) - S i)) by lia. done.
Qed.

Lemma occurrence_found s n bytes x : n ∈ needles s -> occurrence n bytes x -> best (ref_position s (bytes ++ x) true) <> None.
Proof.
  intros [i Hi]%list_elem_of_lookup Ho. destruct (occurrence_matches n bytes x Ho) as (e & r & w & sp & sps & Ht & Hh & Hm & He).
  unfold ref_position. destruct e.
  - destruct (ref_pass_some s (bytes ++ x) true true r w sp i n (mkCandidates false None) (length bytes) sps Ht Hi Hh Hm) as [best0 Hb]. by rewrite Hb, Hb.
  - destruct (best (ref_pass s (bytes ++ x) true true _)) as [b0|] eqn:Hb; [by rewrite Hb|]. rewrite He by done.
    destruct (ref_pass_some s (bytes ++ x) false true r w sp i n (ref_pass s (bytes ++ x) true true (mkCandidates false None)) (length bytes) sps Ht Hi Hh Hm)
      as [best0 Hb']. by rewrite Hb'.
Qed.

(** The bytes of the data a segment stands for. *)
Definition seg_source (g : segment) : list Z := match g with Keep b => [b] | Replace _ span _ => span end.
Definition sources (gs : list segment) : list Z := concat (map seg_source gs).

(** The byte at offset [k] of the data lies in a replaced span. *)
Definition replaced_at (gs : list segment) (k : nat) : Prop :=
  exists g1 i span sps g2, gs = g1 ++ Replace i span sps :: g2 /\
    (length (sources g1) <= k < length (sources g1) + length span)%nat.

Lemma replaced_at_cons g gs k : replaced_at gs k -> replaced_at (g :: gs) (length (seg_source g) + k).
Proof.
  intros (g1 & i & span & sps & g2 & -> & Hk). exists (g :: g1), i, span, sps, g2. split; [done|].
  unfold sources in *. cbn [map concat]. rewrite length_app. lia.
Qed.

(** Every replaced span is a match of a needle, as it stands in the data. *)
Definition genuine (s : scrubber) (gs : list segment) : Prop :=
  forall g1 i span sps g2, gs = g1 ++ Replace i span sps :: g2 ->
  exists n e, needles s !! i = Some n /\ matchAt (span ++ sources g2) n e true = MatchFound (length span) sps.

Lemma occurrence_nonempty n x : ~ occurrence n [] x.
Proof.
  intros Ho. destruct (occurrence_matches n [] x Ho) as (e & r & w & sp & sps & _ & _ & Hm & _). destruct Ho as [Hne _].
  pose proof (matchRunes_span (n_runes n) true (n_fold n) e true x) as Hsp. unfold matchAt in Hm. cbn [app length] in Hm.
  rewrite Hm in Hsp. destruct (n_runes n); [done|]. simpl in Hsp. lia.
Qed.

Lemma scan_replaces s d :
  tables_ok s -> Forall is_byte d ->
  exists g, scan_loop s true 0 d = (g, []) /\ sources g = d /\ genuine s g /\
    forall n pre occ post, n ∈ needles s -> d = pre ++ occ ++ post -> occurrence n occ post -> replaced_at g (length pre).
Proof.
  intros Hs Hd. revert d Hd. apply (scan_final_ind s); [done|..].
  - split_and!; [done | by intros [] |]. intros n pre occ post _ Heq Ho. symmetry in Heq. apply app_eq_nil in Heq as [-> Heq]. apply app_eq_nil in Heq as [-> ->].
    by apply occurrence_nonempty in Ho.
  - intros b d g Hb Hnone (Hsrc & Hgen & IH). split_and!; [unfold sources in *; cbn [map concat seg_source app]; by rewrite Hsrc | |].
    { intros [|g0 g1] i span sps g2 Heq; [done|]. injection Heq as <- Heq. by eapply Hgen. }
    intros n [|b' pre] occ post Hn Heq Ho; [exfalso; cbn [app] in Heq; rewrite Heq in Hnone; by apply (occurrence_found s n occ post)|].
    injection Heq as -> ->. apply (replaced_at_cons (Keep b')). by apply IH with n occ post.
  - intros d g e i sps Hb Hbest He (Hsrc & Hgen & IH). split_and!; [unfold sources in *; cbn [map concat seg_source]; by rewrite Hsrc, take_drop | |].
    { intros [|g0 g1] i' span sps' g2 Heq.
      - injection Heq as <- <- <- <-. rewrite Hsrc, take_drop. destruct (ref_position_found s d true e i sps Hbest) as (n & esc & Hn & Hm & _).
        exists n, esc. split; [done|]. rewrite length_take, Nat.min_l by lia. done.
      - injection Heq as <- Heq. by eapply Hgen. }
    intros n pre occ post Hn Heq Ho. destruct (decide (length pre < e)%nat) as [Hlt|Hge].
    + exists [], i, (take e d), sps, g. split; [done|]. cbn. rewrite length_take. lia.
    + replace (length pre) with (length (seg_source (Replace i (take e d) sps)) + length (drop e pre))%nat
        by (cbn [seg_source]; rewrite length_take, length_drop; lia).
      apply replaced_at_cons. apply IH with n occ post; [done | | done]. rewrite Heq. by rewrite drop_ext by lia.
Qed.

(** The needles of a scrubber are those of its pairs. *)
Lemma enter_pair_needles s p : needles (enter_pair s p) = needles s ++ (match n_runes (needle_of p) with [] => [] | _ => [needle_of p] end).
Proof.
  unfold enter_pair. destruct (n_runes (needle_of p)); [by rewrite app_nil_r|]. by rewrite fold_heads_needles.
Qed.

Lemma newScrubber_needles ps : needles (newScrubber ps) = List.filter (fun n => negb (bool_decide (n_runes n = []))) (map needle_of ps).
Proof.
  unfold newScrubber.
  assert (forall ps s, needles (fold_left enter_pair ps s)
    = needles s ++ List.filter (fun n => negb (bool_decide (n_runes n = []))) (map needle_of ps)) as Hn.
  { clear ps. induction ps as [|p ps IH]; intros s; [by rewrite app_nil_r|]. cbn [fold_left map List.filter].
    rewrite IH, enter_pair_needles, <- app_assoc. destruct (n_runes (needle_of p)) eqn:Hr; [rewrite bool_decide_true by done | rewrite bool_decide_false by done]; done. }
  rewrite Hn. done.
Qed.

Lemma newScrubber_needle ps p : p ∈ ps -> n_runes (needle_of p) <> [] -> needle_of p ∈ needles (newScrubber ps).
Proof.
  intros Hp Hne. rewrite newScrubber_needles. apply list_elem_of_In, filter_In. split.
  - apply in_map. by apply list_elem_of_In.
  - by rewrite bool_decide_false.
Qed.
End occurrences.

(** ** The properties of the scrub *)
Section properties.
Context `{UnicodeTables}.

(** [out] is [d] with the pairs [ps] scrubbed: the bytes of [d] are passed
    through or lie in a span that matches one of the needles and is written
    as its replacement, spelled as the span was; and the first byte of every
    occurrence of one of the needles lies in such a span. *)
Definition scrub_of (ps : list scrubPair) (d out : list Z) : Prop :=
  exists g, out = concat (map (render (newScrubber ps)) g) /\ sources g = d /\ genuine (newScrubber ps) g /\
    forall p pre occ post, p ∈ ps -> d = pre ++ occ ++ post -> occurrence (needle_of p) occ post -> replaced_at g (length pre).

Lemma scan_scrub_of ps d : Forall is_byte d -> scrub_of ps d (scan (newScrubber ps) d true).1.
Proof.
  intros Hd. destruct (scan_replaces (newScrubber ps) d (newScrubber_ok ps) Hd) as (g & Hg & Hsrc & Hgen & Hrep).
  exists g. unfold scan. rewrite Hg. split_and!; [done..|]. intros p pre occ post Hp Heq Ho.
  apply (Hrep (needle_of p) pre occ post); [|done|done]. apply newScrubber_needle; [done | apply Ho].
Qed.

(** A value of plain ASCII, with no character that starts an escape, occurs
    as itself. *)
Definition plain_value (v : list Z) : Prop := Forall (fun b => 0 <= b < 0x80 /\ isEscapeStart b = false) v.

Lemma decodeRunes_ascii v : Forall (fun b => 0 <= b < 0x80) v -> decodeRunes v = v.
Proof.
  unfold decodeRunes. induction 1 as [|b v Hb _ IH]; [done|]. cbn [decode_skip].
  rewrite decodeLiteral_ascii by done. cbn [Nat.sub]. by rewrite IH.
Qed.

Lemma plain_occurrence v repl fold x : v <> [] -> plain_value v -> occurrence (needle_of (mkPair v repl fold)) v x.
Proof.
  intros Hne Hv. unfold occurrence, needle_of. cbn [n_runes n_fold sp_needle sp_fold].
  assert (Forall (fun b => 0 <= b < 0x80) v) as Ha by (eapply list.Forall_impl; [exact Hv|]; by intros ? [? ?]).
  rewrite decodeRunes_ascii by done. split; [done|]. left. clear Hne Ha. generalize true as first.
  induction Hv as [|b v [Hb He] _ IH]; intros first; [constructor|].
  apply (occurs_cons fold x first [] b b v [b] v); [constructor|done| |..].
  - apply equalRune_cases. by left.
  - split; [unfold scalar, MaxRune; lia|]. split; [|congruence].
    exists formLiteral, 0. cbn [spell]. unfold appendRune, MaxRune. rewrite (proj2 (Z.ltb_ge _ _)) by lia.
    by rewrite EncodeRune_ascii.
  - apply IH.
Qed.
End properties.

(** A secret that holds an escaped spelling of one of its own escape
    characters, anywhere but at its start, is not found when a host echoes it
    as it is: the matcher reads the escape, takes it for the wanted character
    and does not try the literal reading.  Two backslashes, [%25] and [&amp;]
    in a secret are enough; the text passes through unchanged. *)
Theorem self_escaped_secret_missed `{UnicodeTables} :
  Forall (fun secret =>
    text (newScrubber (scrubPairsFor (bytes_of_string secret) (bytes_of_string "PLACEHOLDER12"))) ("token=" +:+ secret)
    = "token=" +:+ secret)
  ["corp\\svc-pa55word"; "a%25b-pa55word"; "a&amp;b-pa55word"].
Proof. repeat constructor; vm_compute; reflexivity. Qed.
