(* ===== verification/ScrubResponse.v ===== *)
(** * The response side of the secrets transform (scrub.go)

    [Secrets.TransformResponse], [scrubHeaders] and the masks other parts of
    the proxy use: a response to a request that was given a secret has its
    headers scrubbed whole and its body scrubbed as it streams. *)
From stdpp Require Import base gmap strings list option sets.
From Stdlib Require Import ZArith Lia Ascii.
From S2P Require Import Prelude GoUtf8 GoStrings GoNet Body GoHttp GoJson Transform GoEncoding GoRegexp ScrubPairs Secrets SecretsSafety Utf8Codec ScrubMatch ScrubStream ScrubTables ScrubReader ScrubSafety.
Local Open Scope string_scope.
Local Open Scope list_scope.
Local Open Scope Z_scope.

(** A stream seen through [newScrubReader]: what the reader delivers, however
    the stream is cut into reads. *)
Definition scrub_stream `{UnicodeTables} (s : scrubber) (r : Reader) : Reader :=
  mkReader (scan s (rd_data r) true).1 (rd_err r).

Section response.
Context `{UnicodeTables} `{Regexp} `{MapRange}.

(** [scrubHeaders]: the entries are visited in the order of the map; two
    names with the same masked form share its values. *)
Definition mask_value (s : scrubber) (key : string) (m : Header) (value : string) : Header :=
  <[key := default [] (m !! key) ++ [text s value]]> m.
Definition mask_entry (s : scrubber) (m : Header) (entry : string * list string) : Header :=
  fold_left (mask_value s (text s entry.1)) entry.2 m.
Definition scrubHeaders (h : Header) (s : scrubber) : Header := fold_left (mask_entry s) (map_range h) ∅.

(** The responses whose body is not looked at: there is none. *)
Definition bodiless (req : Request) (resp : Response) : bool :=
  str_eqb (Method req) "HEAD" || (RespContentLength resp =? 0)
  || (StatusCode resp <? 200) || (StatusCode resp =? 204) || (StatusCode resp =? 304).

Definition encoded_response (h : Header) : bool :=
  let encoding := header_Get h "Content-Encoding" in
  negb (is_empty encoding) && negb (EqualFold encoding "identity").

Definition encoding_refusal : Response :=
  let message := bytes_of_string ("response encoding cannot be checked for a held secret" +:+ String (ascii_of_byte 10) "") in
  mkResponse 502 {["Content-Type" := ["text/plain"]]} (BufferedBody.NewBufferedBodyFromBytes message)
    (Z.of_nat (length message)).

(** [Secrets.TransformResponse]. *)
Definition Secrets_TransformResponse (tctx : TransformContext) (st : State) (resp : Response)
    : result string TransformResult * TransformContext * State * Response :=
  match rctx st with
  | None => (Ok continue_result, tctx, st, resp)
  | Some state =>
    match pairs state with
    | [] => (Ok continue_result, tctx, st, resp)
    | ps =>
      let record := AList (map AStr (names state)) in
      let tctx := Annotate tctx "secret_response_scrubbed" record in
      let s := newScrubber ps in
      let h := scrubHeaders (RespHeader resp) s in
      let resp := mkResponse (StatusCode resp) h (RespBody resp) (RespContentLength resp) in
      if bodiless (rq st) resp then (Ok continue_result, tctx, st, resp)
      else if encoded_response h then
        (Ok (mkResult ActionReject (Some encoding_refusal)),
         Annotate (Annotate tctx "rejected" record) "reject_reason" (AStr "response_encoding"), st, resp)
      else
        let '(stream, _) := BufferedBody.StreamingReader (RespBody resp) in
        let body := BufferedBody.NewBufferedBody (Some (scrub_stream s stream)) 0 in
        (Ok continue_result, tctx, st, mkResponse (StatusCode resp) (header_Del h "Content-Length") body (-1))
    end
  end.

(** [MaskResponseText] and [MaskResponseReader], of the request's context. *)
Definition MaskResponseText (st : option State) (value : string) : string :=
  match st with
  | None => value
  | Some st => match rctx st with
               | None => value
               | Some state => text (newScrubber (pairs state)) value
               end
  end.
Definition MaskResponseReader (st : State) (src : reads) : reads + scrubReader :=
  match rctx st with
  | None => inl src
  | Some state => inr (newScrubReader src (newScrubber (pairs state)))
  end.

(** ** Headers *)

(** Every value of a masked header is the mask of a value of the response. *)
Definition masked_from (s : scrubber) (entries : list (string * list string)) (m : Header) : Prop :=
  forall key vs v, m !! key = Some vs -> v ∈ vs ->
  exists name values value, (name, values) ∈ entries /\ value ∈ values /\ key = text s name /\ v = text s value.

Lemma mask_value_from s all name values m value :
  (name, values) ∈ all -> value ∈ values -> masked_from s all m -> masked_from s all (mask_value s (text s name) m value).
Proof.
  intros Hin Hv Hm key vs v. unfold mask_value. rewrite lookup_insert. case_decide as Hkey; [|apply Hm].
  intros [= <-] [Hold|Hnew%list_elem_of_singleton]%elem_of_app; [|subst; by exists name, values, value].
  destruct (m !! text s name) as [old|] eqn:Ho; [|by apply elem_of_nil in Hold]. subst key. by apply (Hm (text s name) old).
Qed.

Lemma scrubHeaders_from s h : masked_from s (map_range h) (scrubHeaders h s).
Proof.
  unfold scrubHeaders.
  assert (forall l all m, (forall e, e ∈ l -> e ∈ all) -> masked_from s all m -> masked_from s all (fold_left (mask_entry s) l m)) as Hfold.
  { induction l as [|[name values] l IH]; intros all m Hl Hm; [done|]. cbn [fold_left].
    apply IH; [intros; apply Hl; set_solver|]. unfold mask_entry. cbn [fst snd].
    assert (forall vs m, (forall v, v ∈ vs -> v ∈ values) -> masked_from s all m ->
      masked_from s all (fold_left (mask_value s (text s name)) vs m)) as Hin.
    { induction vs as [|v vs IHv]; intros m' Hvs Hm'; [done|]. cbn [fold_left].
      apply IHv; [intros; apply Hvs; set_solver|]. apply (mask_value_from s all name values); [|apply Hvs|]; set_solver. }
    by apply Hin. }
  apply Hfold; [done|]. intros key vs v. by rewrite lookup_empty.
Qed.

(** ** The whole response *)

(** The body the client is given holds what the scrub lets through. *)
Definition body_stream (b : BufferedBody.t) : Reader := (BufferedBody.StreamingReader b).1.

Lemma rememberScrub_pair (s : State) sec value :
  scrubResponse sec = true -> injects sec = false -> value <> "" ->
  exists state, rctx (rememberScrub s sec value) = Some state
    /\ mkPair (bytes_of_string value) (bytes_of_string (proxyValue sec)) false ∈ pairs state.
Proof.
  intros Hscr Hinj Hne. unfold rememberScrub. rewrite Hscr, Hinj. cbn [negb orb].
  assert (mkPair (bytes_of_string value) (bytes_of_string (proxyValue sec)) false
          ∈ scrubPairsFor (bytes_of_string value) (bytes_of_string (proxyValue sec))) as Hin.
  { unfold scrubPairsFor. destruct (bytes_of_string value) as [|b v] eqn:Hv; [by destruct value|].
    assert (forall l ps q, q ∈ ps -> q ∈ fold_left (derived (b :: v)) l ps) as Hfold.
    { induction l as [|p l IH]; intros ps q Hq; [done|]. cbn [fold_left]. apply IH. unfold derived.
      destruct (_ || _); [done|]. destruct (existsb _ _); [done|]. apply elem_of_app. by left. }
    apply Hfold. apply list_elem_of_singleton. done. }
  eexists. split; [reflexivity|]. destruct (presentation sec) as [p|]; cbn [pairs]; [destruct (str_eqb _ _)|]; set_solver.
Qed.

Lemma masked_from_delete s l m k : masked_from s l m -> masked_from s l (delete k m).
Proof. intros Hm key vs v [_ Hk]%lookup_delete_Some. by apply Hm. Qed.

(** What was remembered for a request stays, whatever later stages do. *)
Lemma pair_kept p s hs s' :
  goes_on s hs s' -> (exists st, rctx s = Some st /\ p ∈ pairs st) -> exists st, rctx s' = Some st /\ p ∈ pairs st.
Proof.
  induction 1 as [s|s r hs s' _ IH|s sec v hs s' _ IH]; intros Hst; [done | by apply IH|]. apply IH. clear IH.
  destruct Hst as (st & Hr & Hin). unfold rememberScrub. rewrite Hr. cbn [default]. destruct (_ || _); [eauto|].
  eexists. split; [done|]. destruct (presentation sec); cbn [pairs]; set_solver.
Qed.

(** A value as it is handed on: the scrub of one the host sent. *)
Definition scrubbed_text (ps : list scrubPair) (value v : string) : Prop :=
  exists out, scrub_of ps (bytes_of_string value) out /\ v = string_of_bytes out.
Lemma text_scrubbed ps value : scrubbed_text ps value (text (newScrubber ps) value).
Proof. eexists. split; [apply scan_scrub_of, bytes_of_string_range | done]. Qed.
Definition headers_scrubbed (ps : list scrubPair) (h h' : Header) : Prop :=
  forall key vs v, h' !! key = Some vs -> v ∈ vs ->
  exists name values value, (name, values) ∈ map_range h /\ value ∈ values /\ scrubbed_text ps name key /\ scrubbed_text ps value v.
Lemma masked_scrubbed ps h m : masked_from (newScrubber ps) (map_range h) m -> headers_scrubbed ps h m.
Proof.
  intros Hm key vs v Hk Hv. destruct (Hm key vs v Hk Hv) as (name & values & value & Hn & Hin & -> & ->).
  exists name, values, value. split_and!; [done | done | apply text_scrubbed..].
Qed.

(** C9: A response to a request that was given a secret with scrub_response
    set, whatever was remembered for the request besides.  Every header name
    and value handed on is the scrub of one the host sent.  Unless there is
    no body, or the response is refused because it is compressed, the body
    handed on is the scrub of the host's body by all the pairs remembered,
    the secret's among them: spans that match one of them are replaced, the
    rest is passed through, and the first byte of every occurrence of the
    secret, in any spelling the matcher knows, lies in a replaced span,
    wherever it stands and however the body is cut into reads. *)
Theorem response_secret_replaced (s : State) sec value hs s2 tctx resp res tctx' st' resp' :
  scrubResponse sec = true -> injects sec = false -> value <> "" ->
  goes_on (rememberScrub s sec value) hs s2 ->
  Forall is_byte (rd_data (body_stream (RespBody resp))) ->
  Secrets_TransformResponse tctx s2 resp = (Ok res, tctx', st', resp') ->
  exists state, rctx s2 = Some state /\ mkPair (bytes_of_string value) (bytes_of_string (proxyValue sec)) false ∈ pairs state /\
  headers_scrubbed (pairs state) (RespHeader resp) (RespHeader resp') /\
  (bodiless (rq s2) resp = true /\ res = continue_result /\ RespBody resp' = RespBody resp \/
   encoded_response (RespHeader resp') = true /\ res = mkResult ActionReject (Some encoding_refusal) \/
   res = continue_result /\ exists out,
     body_stream (RespBody resp') = mkReader out (rd_err (body_stream (RespBody resp))) /\
     scrub_of (pairs state) (rd_data (body_stream (RespBody resp))) out).
Proof.
  intros Hscr Hinj Hne Hgo Hbytes.
  destruct (pair_kept _ _ _ _ Hgo (rememberScrub_pair s sec value Hscr Hinj Hne)) as (state & Hst & Hin).
  unfold Secrets_TransformResponse. rewrite Hst. destruct (pairs state) as [|p0 ps] eqn:Hps; [by apply elem_of_nil in Hin|].
  intros Heq. exists state. rewrite Hps. split; [done|]. split; [done|]. revert Heq.
  set (sc := newScrubber (p0 :: ps)) in *. change (bodiless _ (mkResponse _ _ _ _)) with (bodiless (rq s2) resp).
  destruct (bodiless (rq s2) resp).
  { intros [= <- _ _ <-]. cbn [RespHeader RespBody]. split; [apply masked_scrubbed, scrubHeaders_from | by left]. }
  destruct (encoded_response _) eqn:Henc.
  { intros [= <- _ _ <-]. cbn [RespHeader]. split; [apply masked_scrubbed, scrubHeaders_from | by right; left]. }
  cbn [RespBody StatusCode]. unfold body_stream in *. destruct (BufferedBody.StreamingReader (RespBody resp)) as [stream b'] eqn:Hstream. cbn [fst] in *.
  intros [= <- _ _ <-]. cbn [RespHeader RespBody]. split; [apply masked_scrubbed, masked_from_delete, scrubHeaders_from|]. right. right.
  split; [done|]. exists (scan sc (rd_data stream) true).1. split; [done|]. exact (scan_scrub_of (p0 :: ps) (rd_data stream) Hbytes).
Qed.
End response.

#[local] Existing Instance ascii_tables.
#[local] Existing Instance literal_regexp.
#[local] Existing Instance default_range.

Definition example_scrubbed : resolvedSecret :=
  mkSecret None 0 (mkSource "token" (Some "hunter2secret")) false [] "PLACEHOLDER12" [] false false false false false false
    true "" "" None.
Definition example_response : Response :=
  mkResponse 200 {["X-Echo" := ["hunter2secret"]]}
    (BufferedBody.NewBufferedBody (Some (mkReader (bytes_of_string "key: hunter2secret!") None)) 0) 19.

(** Another secret was remembered after the echoed one. *)
Definition other_scrubbed : resolvedSecret :=
  mkSecret None 0 (mkSource "other" (Some "swordfish")) false [] "PLACEHOLDER99" [] false false false false false false
    true "" "" None.
Definition example_remembered : State := rememberScrub (mkReqState example_req None) example_scrubbed "hunter2secret".
Definition example_later : State := rememberScrub example_remembered other_scrubbed "swordfish".

Lemma response_secret_replaced_witness :
  let '(res, _, _, resp') := Secrets_TransformResponse example_ctx example_later example_response in
  res = Ok continue_result
  /\ RespHeader resp' !! "X-Echo" = Some ["PLACEHOLDER12"]
  /\ rd_data (body_stream (RespBody resp')) = bytes_of_string "key: PLACEHOLDER12!"
  /\ exists state g, body_stream (RespBody resp') = mkReader (concat (map (render (newScrubber (pairs state))) g)) None /\ replaced_at g 5.
Proof.
  assert (forall x : result string TransformResult * TransformContext * State * Response, Secrets_TransformResponse example_ctx example_later example_response = x ->
    x.1.1.1 = Ok continue_result /\ RespHeader x.2 !! "X-Echo" = Some ["PLACEHOLDER12"] /\
    rd_data (body_stream (RespBody x.2)) = bytes_of_string "key: PLACEHOLDER12!") as Hx by (intros x <-; vm_compute; done).
  destruct (Secrets_TransformResponse example_ctx example_later example_response) as [[[res tctx'] st'] resp'] eqn:Heq.
  destruct (Hx _ eq_refl) as (Hres & Hh & Hb). cbn [fst snd] in *. subst res. clear Hx. split; [reflexivity|]. split; [exact Hh|]. split; [exact Hb|].
  destruct (response_secret_replaced (mkReqState example_req None) example_scrubbed "hunter2secret" [] example_later example_ctx
    example_response continue_result tctx' st' resp') as (state & _ & Hin & _ & [(Hl & _)|[(_ & Hres)|(_ & out & Hbody & g & -> & _ & _ & Hrep)]]).
  - reflexivity.
  - reflexivity.
  - discriminate.
  - exact (go_remembered example_remembered other_scrubbed "swordfish" [] example_later (go_end _)).
  - apply (bytes_range_string "key: hunter2secret!"). reflexivity.
  - exact Heq.
  - exfalso. discriminate Hl.
  - exfalso. discriminate Hres.
  - exists state, g. split; [exact Hbody|].
    apply (Hrep _ (bytes_of_string "key: ") (bytes_of_string "hunter2secret") (bytes_of_string "!") Hin); [reflexivity|].
    apply plain_occurrence; [discriminate|]. repeat constructor; discriminate.
Defined.
