(* ===== verification/GoUrl.v ===== *)
(** * net/url: parsing and printing

    What the proxy, the MCP gateway and the response retry handler use of
    [net/url]: [url.Parse], [URL.String], [URL.Hostname] and [URL.Port], with
    the theorem that what [String] writes [Parse] reads back, host and path
    unchanged. *)
From stdpp Require Import base gmap strings list option.
From Stdlib Require Import ZArith Lia Ascii.
From S2P Require Import Prelude GoUtf8 GoStrings GoNet Body GoHttp.
Local Open Scope string_scope.
Local Open Scope list_scope.
Local Open Scope Z_scope.

(** ** Escapes of the host and of the user information *)

(** [shouldEscape] for [encodeHost] (and [encodeZone]) and for
    [encodeUserPassword]. *)
Definition should_escape_host (b : Z) : bool :=
  negb (is_unreserved b || string_in (ascii_of_byte b) "!$&'()*+,;=:[]<>" || (b =? 34)).
Definition should_escape_user (b : Z) : bool :=
  negb (is_unreserved b || string_in (ascii_of_byte b) "$&+,;=").

(** [escape] in a mode that has no plus sign for a space. *)
Definition escape_bytes (esc : Z -> bool) (s : list Z) : list Z :=
  concat (map (fun b => if esc b then percent b else [b]) s).
Definition escape_with (esc : Z -> bool) (s : string) : string := string_of_bytes (escape_bytes esc (bytes_of_string s)).
Definition escape_host : string -> string := escape_with should_escape_host.
Definition escape_user : string -> string := escape_with should_escape_user.

(** [unescape] in the modes [encodeHost] and [encodeZone]: [None] is an
    escape or a byte the mode does not allow. *)
Definition host_escape_ok (zone : bool) (h l : Z) : bool :=
  let v := h * 16 + l in
  if zone then (v =? 37) || (v =? 32) || negb (should_escape_host v)
  else (8 <=? h) || (v =? 37).
Fixpoint unescape_host (zone : bool) (s : list Z) : option (list Z) :=
  match s with
  | [] => Some []
  | b :: s1 =>
    if b =? 37 then
      match s1 with
      | h :: l :: s2 =>
        match hex_byte_value h, hex_byte_value l with
        | Some x, Some y => if host_escape_ok zone x y then cons (x * 16 + y) <$> unescape_host zone s2 else None
        | _, _ => None
        end
      | _ => None
      end
    else if (b <? 128) && should_escape_host b then None
    else cons b <$> unescape_host zone s1
  end.
Definition unescape_host_string (zone : bool) (s : string) : option string :=
  string_of_bytes <$> unescape_host zone (bytes_of_string s).

(** ** Hosts and ports *)

(** [validOptionalPort]: empty, or a colon and digits. *)
Definition validOptionalPort (port : string) : bool :=
  match port with
  | EmptyString => true
  | String c rest => bool_decide (c = ":"%char) && forallb is_digit_ascii (bytes_of_string rest)
  end.

(** [parseHost]. *)
Definition bracket_host (host : string) (i : nat) : option string :=
  if negb (validOptionalPort (sdrop (S i) host)) then None
  else match Index (stake i host) "%25" with
       | Some zone =>
         h1 ← unescape_host_string false (stake zone host);
         h2 ← unescape_host_string true (sdrop zone (stake i host));
         h3 ← unescape_host_string false (sdrop i host);
         Some (h1 +:+ h2 +:+ h3)
       | None => unescape_host_string false host
       end.
Definition parseHost (host : string) : option string :=
  if HasPrefix host "[" then
    match LastIndexByte host "]"%char with
    | None => None
    | Some i => bracket_host host i
    end
  else match LastIndexByte host ":"%char with
       | Some i => if validOptionalPort (sdrop i host) then unescape_host_string false host else None
       | None => unescape_host_string false host
       end.

(** [parseAuthority]: the user information is kept as it is written. *)
Definition validUserinfo (s : string) : bool :=
  forallb (fun b => is_digit_ascii b || is_upper_ascii b || is_lower_ascii b
                    || string_in (ascii_of_byte b) "-._:~!$&'()*+,;=%@") (bytes_of_string s).
Definition parseAuthority (a : string) : option (option string * string) :=
  match LastIndexByte a "@"%char with
  | None => h ← parseHost a; Some (None, h)
  | Some i =>
    h ← parseHost (sdrop (S i) a);
    let user := stake i a in
    if negb (validUserinfo user) then None
    else match Cut user ":" with
         | None => _ ← PathUnescape user; Some (Some user, h)
         | Some (name, pass) => _ ← PathUnescape name; _ ← PathUnescape pass; Some (Some user, h)
         end
  end.

(** [splitHostPort] of [URL.Hostname] and [URL.Port]. *)
Definition url_splitHostPort (hostPort : string) : string * string :=
  let '(host, port) :=
    match LastIndexByte hostPort ":"%char with
    | Some i => if validOptionalPort (sdrop i hostPort) then (stake i hostPort, sdrop (S i) hostPort) else (hostPort, "")
    | None => (hostPort, "")
    end in
  if HasPrefix host "[" && HasSuffix host "]"
  then (stake (String.length host - 2) (sdrop 1 host), port) else (host, port).
Definition Hostname (u : URL) : string := (url_splitHostPort (URLHost u)).1.
Definition Port (u : URL) : string := (url_splitHostPort (URLHost u)).2.

(** ** Parse *)

(** [getScheme]: the scheme and the rest; [None] is a missing scheme. *)
Fixpoint scheme_length (i : nat) (s : string) : option (option nat) :=
  match s with
  | EmptyString => Some None
  | String c s' =>
    let b := byte_of_ascii c in
    if is_lower_ascii b || is_upper_ascii b then scheme_length (S i) s'
    else if is_digit_ascii b || string_in c "+-." then (if (i =? 0)%nat then Some None else scheme_length (S i) s')
    else if bool_decide (c = ":"%char) then (if (i =? 0)%nat then None else Some (Some i))
    else Some None
  end.
Definition getScheme (rawURL : string) : option (string * string) :=
  match scheme_length 0 rawURL with
  | None => None
  | Some None => Some ("", rawURL)
  | Some (Some i) => Some (stake i rawURL, sdrop (S i) rawURL)
  end.

(** [setPath]: the decoded path, and the path as written when it is not the
    default encoding. *)
Definition setPath (p : string) : option (string * string) :=
  path ← PathUnescape p; Some (path, if str_eqb p (escape_path path) then "" else p).

(** What [Parse] yields: the URL and the parts [URL] does not hold. *)
Record ParsedURL := mkParsed { p_url : URL; p_opaque : string; p_forceQuery : bool; p_fragment : string }.

Definition has_ctl (s : string) : bool := existsb (fun b => (b <? 32) || (b =? 127)) (bytes_of_string s).

Definition split_query (rest : string) : string * string * bool :=
  if HasSuffix rest "?" && bool_decide (Index rest "?" = Some (String.length rest - 1)%nat)
  then (stake (String.length rest - 1) rest, "", true)
  else let '(path, query) := cut_or rest "?" in (path, query, false).

Definition split_authority (a : string) : string * string :=
  match Index a "/" with Some i => (stake i a, sdrop i a) | None => (a, "") end.

Definition first_segment_has_colon (rest : string) : bool := Contains (cut_or rest "/").1 ":".

(** The part of [parse] after the query was split off. *)
Definition parse_hierarchy (scheme rest query : string) (force : bool) : option ParsedURL :=
  '(user, host, path) ←
    (if (negb (is_empty scheme) || negb (HasPrefix rest "///")) && HasPrefix rest "//" then
       let '(authority, path) := split_authority (sdrop 2 rest) in
       '(user, host) ← parseAuthority authority; Some (user, host, path)
     else Some (None, "", rest));
  '(p, raw) ← setPath path;
  Some (mkParsed (mkURL scheme user host p raw query) "" force "").

(** [parse] of a URL without fragment, not from a request line. *)
Definition parse (rawURL : string) `{UnicodeTables} : option ParsedURL :=
  if has_ctl rawURL then None
  else if str_eqb rawURL "*" then Some (mkParsed (mkURL "" None "" "*" "" "") "" false "")
  else
    '(scheme0, rest0) ← getScheme rawURL;
    let scheme := ToLower scheme0 in
    let '(rest, query, force) := split_query rest0 in
    if negb (HasPrefix rest "/") && negb (is_empty scheme)
    then Some (mkParsed (mkURL scheme None "" "" "" query) rest force "")
    else if negb (HasPrefix rest "/") && first_segment_has_colon rest then None
    else parse_hierarchy scheme rest query force.

(** [url.Parse]. *)
Definition url_Parse `{UnicodeTables} (rawURL : string) : option ParsedURL :=
  let '(u, frag) := cut_or rawURL "#" in
  p ← parse u;
  if is_empty frag then Some p
  else f ← PathUnescape frag; Some (mkParsed (p_url p) (p_opaque p) (p_forceQuery p) f).

(** ** String *)

Definition user_String (raw : string) : string :=
  let one s := escape_user (default s (PathUnescape s)) in
  match Cut raw ":" with
  | None => one raw
  | Some (name, pass) => one name +:+ ":" +:+ one pass
  end.

(** [URL.String] of a URL with a host, without opaque part or fragment;
    [force] is its ForceQuery. *)
Definition user_part (u : URL) : string :=
  match UserInfo u with Some user => user_String user +:+ "@" | None => "" end.
Definition query_part (force : bool) (query : string) : string :=
  if is_empty query && negb force then "" else "?" +:+ query.
Definition url_String_force (force : bool) (u : URL) : string :=
  let path := EscapedPath u in
  (if is_empty (Scheme u) then "" else Scheme u +:+ ":") +:+
  "//" +:+ user_part u +:+ escape_host (URLHost u) +:+
  (if negb (is_empty path) && negb (HasPrefix path "/") then "/" else "") +:+ path +:+
  query_part force (RawQuery u).
Definition url_String (u : URL) : string := url_String_force false u.

(** ** http.NewRequest *)

(** [removeEmptyPort]. *)
Definition hasPort (s : string) : bool :=
  match LastIndexByte s ":"%char, LastIndexByte s "]"%char with
  | None, _ => false
  | Some _, None => true
  | Some i, Some j => (j <? i)%nat
  end.
Definition removeEmptyPort (host : string) : string := if hasPort host then TrimSuffix host ":" else host.

(** The URL of the request [http.NewRequestWithContext] builds from a string;
    its Host is the request's Host. *)
Definition request_url `{UnicodeTables} (raw : string) : option URL :=
  p ← url_Parse raw;
  let u := p_url p in
  Some (mkURL (Scheme u) (UserInfo u) (removeEmptyPort (URLHost u)) (Path u) (RawPath u) (RawQuery u)).

Example url_Parse_ex :
  url_Parse (H := ascii_tables) "HTTPS://user:pw@api.test:8443/a%2Fb?q=1#top"
  = Some (mkParsed (mkURL "https" (Some "user:pw") "api.test:8443" "/a/b" "/a%2Fb" "q=1") "" false "top")
  /\ url_Parse (H := ascii_tables) "http://a b/" = None
  /\ url_Parse (H := ascii_tables) "http://x%41/" = None
  /\ (fun p => URLHost (p_url p)) <$> url_Parse (H := ascii_tables) "http://[fe80::1%25eth0]:80/" = Some "[fe80::1%eth0]:80"
  /\ url_String (mkURL "https" None "api.test" "/a/b" "/a%2Fb" "q") = "https://api.test/a%2Fb?q".
Proof. repeat split; vm_compute; reflexivity. Qed.

(** ** What is escaped is read back *)

Lemma string_of_bytes_app a b : string_of_bytes (a ++ b) = string_of_bytes a +:+ string_of_bytes b.
Proof. induction a as [|x a IH]; simpl; [done|]. by rewrite IH. Qed.

Lemma string_in_bytes c s : string_in c s = true <-> byte_of_ascii c ∈ bytes_of_string s.
Proof.
  induction s as [|c' s IH]; simpl; [rewrite elem_of_nil; done|].
  rewrite orb_true_iff, bool_decide_eq_true, elem_of_cons, IH. split; intros [Heq|?]; auto; left; [by subst|].
  rewrite <- (ascii_of_byte_of_ascii c), Heq. apply ascii_of_byte_of_ascii.
Qed.

Lemma hex_upper_range d : 0 <= d < 16 -> is_byte (hex_upper d) /\ hex_byte_value (hex_upper d) = Some d /\ hex_upper d <> 37.
Proof.
  intros Hd. assert (d ∈ map Z.of_nat (seq 0 16)) as Hin.
  { apply list_elem_of_In, in_map_iff. exists (Z.to_nat d). rewrite in_seq. lia. }
  simpl in Hin. unfold is_byte. repeat (apply elem_of_cons in Hin as [->|Hin]; [by vm_compute|]). by apply elem_of_nil in Hin.
Qed.

Lemma percent_nibbles b : is_byte b -> 0 <= Z.shiftr b 4 < 16 /\ 0 <= Z.land b 15 < 16 /\ Z.shiftr b 4 * 16 + Z.land b 15 = b.
Proof.
  intros [? ?]. change 15 with (Z.ones 4). rewrite Z.land_ones, Z.shiftr_div_pow2 by done. change (2 ^ 4) with 16.
  pose proof (Z.div_mod b 16). pose proof (Z.mod_pos_bound b 16).
  assert (0 <= b / 16 < 16) by (split; [apply Z.div_pos; lia | apply Z.div_lt_upper_bound; lia]). lia.
Qed.

Lemma escape_bytes_cons esc b l : escape_bytes esc (b :: l) = (if esc b then percent b else [b]) ++ escape_bytes esc l.
Proof. done. Qed.

Lemma escape_bytes_range esc l : Forall is_byte l -> Forall is_byte (escape_bytes esc l).
Proof.
  induction 1 as [|b l Hb _ IH]; [constructor|]. rewrite escape_bytes_cons.
  apply list.Forall_app. split; [|done]. destruct (esc b); [|by apply list.Forall_cons].
  destruct (percent_nibbles b Hb) as (H1 & H2 & _). unfold percent. rewrite !list.Forall_cons.
  split_and!; try (by apply hex_upper_range); [unfold is_byte; lia..|constructor].
Qed.

Lemma unescape_percent h l s :
  unescape_bytes false (37 :: h :: l :: s) =
  match hex_byte_value h, hex_byte_value l with
  | Some x, Some y => cons (x * 16 + y) <$> unescape_bytes false s
  | _, _ => None
  end.
Proof. done. Qed.

Lemma unescape_escape esc l : Forall is_byte l -> esc 37 = true -> unescape_bytes false (escape_bytes esc l) = Some l.
Proof.
  intros Hl Hp. induction Hl as [|b l Hb _ IH]; [done|]. rewrite escape_bytes_cons.
  destruct (esc b) eqn:He.
  - destruct (percent_nibbles b Hb) as (H1 & H2 & H3). unfold percent. cbn [app]. rewrite unescape_percent.
    rewrite (proj1 (proj2 (hex_upper_range _ H1))), (proj1 (proj2 (hex_upper_range _ H2))), IH. simpl. by rewrite H3.
  - cbn [app unescape_bytes]. destruct (Z.eqb_spec b 37) as [->|]; [congruence|]. by rewrite IH.
Qed.

Lemma PathUnescape_escape esc s : esc 37 = true -> PathUnescape (escape_with esc s) = Some s.
Proof.
  intros He. unfold PathUnescape, escape_with.
  rewrite bytes_of_string_of_bytes by (apply escape_bytes_range, bytes_of_string_range).
  rewrite unescape_escape by (done || apply bytes_of_string_range). simpl. by rewrite string_of_bytes_of_string.
Qed.

Lemma unescape_bytes_app a b x y :
  unescape_bytes false a = Some x -> unescape_bytes false b = Some y -> unescape_bytes false (a ++ b) = Some (x ++ y).
Proof.
  intros Ha Hb. remember (length a) as k eqn:Hk. revert a x Ha Hk. induction (lt_wf k) as [k _ IH]. intros a x Ha ->.
  destruct a as [|c a]; cbn [unescape_bytes app] in *; [by injection Ha as <-|].
  destruct (c =? 37).
  - destruct a as [|h [|l a]]; try done. cbn [app]. destruct (hex_byte_value h), (hex_byte_value l); try done.
    destruct (unescape_bytes false a) as [x'|] eqn:Ha'; [|done]. injection Ha as <-.
    rewrite (IH (length a)) with (x := x'); [done | simpl; lia | done | done].
  - destruct (unescape_bytes false a) as [x'|] eqn:Ha'; [|done]. injection Ha as <-.
    rewrite (IH (length a)) with (x := x'); [done | simpl; lia | done | done].
Qed.

Lemma PathUnescape_app a b x y :
  PathUnescape a = Some x -> PathUnescape b = Some y -> PathUnescape (a +:+ b) = Some (x +:+ y).
Proof.
  unfold PathUnescape. rewrite bytes_of_string_app.
  destruct (unescape_bytes false (bytes_of_string a)) eqn:Ha, (unescape_bytes false (bytes_of_string b)) eqn:Hb; try done.
  rewrite (unescape_bytes_app _ _ _ _ Ha Hb). intros [= <-] [= <-]. simpl. by rewrite string_of_bytes_app.
Qed.

(** Reading a host only refuses more than reading any escaped text. *)
Lemma unescape_host_any zone l r : unescape_host zone l = Some r -> unescape_bytes false l = Some r.
Proof.
  remember (length l) as k eqn:Hk. revert l r Hk. induction (lt_wf k) as [k _ IH]. intros l r ->.
  destruct l as [|b l]; cbn [unescape_host unescape_bytes]; [done|]. destruct (b =? 37).
  - destruct l as [|h [|y l]]; try done. destruct (hex_byte_value h), (hex_byte_value y); try done.
    destruct (host_escape_ok _ _ _); [|done]. destruct (unescape_host zone l) as [r'|] eqn:Hl; [|done]. intros [= <-].
    by rewrite (IH (length l)) with (r := r') by (simpl; lia || done).
  - destruct (_ && _); [done|]. destruct (unescape_host zone l) as [r'|] eqn:Hl; [|done]. intros [= <-].
    by rewrite (IH (length l)) with (r := r') by (simpl; lia || done).
Qed.

Lemma unescape_host_string_any zone s r : unescape_host_string zone s = Some r -> PathUnescape s = Some r.
Proof.
  unfold unescape_host_string, PathUnescape. destruct (unescape_host zone (bytes_of_string s)) eqn:Hu; [|done].
  by rewrite (unescape_host_any _ _ _ Hu).
Qed.

Lemma Index_bound s sub k : Index s sub = Some k -> (k + String.length sub <= String.length s)%nat.
Proof.
  revert k. induction s as [|c s IH]; intros k; cbn [Index].
  - destruct (String.prefix sub "") eqn:Hp; [|done]. intros [= <-]. apply (HasPrefix_spec "" sub) in Hp as [t Ht].
    assert (String.length "" = String.length (sub +:+ t)) as Hl by (by rewrite Ht). rewrite length_app_str in Hl. simpl in *. lia.
  - destruct (String.prefix sub (String c s)) eqn:Hp.
    + intros [= <-]. apply (HasPrefix_spec _ sub) in Hp as [t ->]. rewrite length_app_str. lia.
    + destruct (Index s sub) as [j|] eqn:Hj; [|done]. intros [= <-]. specialize (IH j eq_refl). simpl. lia.
Qed.

Lemma stake_stake n m s : (n <= m)%nat -> stake n (stake m s) = stake n s.
Proof. revert n s. induction m as [|m IH]; intros [|n] s Hle; try lia; [by destruct s|done|]. destruct s; simpl; [done|]. rewrite IH by lia. done. Qed.

Lemma bracket_host_decodes s i h : bracket_host s i = Some h -> PathUnescape s = Some h.
Proof.
  unfold bracket_host. destruct (negb _); [done|].
  destruct (Index (stake i s) "%25") as [zone|] eqn:Hz; [|apply unescape_host_string_any].
  destruct (unescape_host_string false (stake zone s)) as [h1|] eqn:Hu1; [|done]. cbn [mbind option_bind].
  destruct (unescape_host_string true _) as [h2|] eqn:Hu2; [|done]. cbn [mbind option_bind].
  destruct (unescape_host_string false (sdrop i s)) as [h3|] eqn:Hu3; [|done]. cbn [mbind option_bind]. intros [= <-].
  assert (zone <= i)%nat as Hle.
  { pose proof (Index_bound _ _ _ Hz). pose proof (length_stake_le i s). simpl in *. lia. }
  rewrite <- (stake_sdrop i s) at 1. rewrite <- (stake_sdrop zone (stake i s)) at 1. rewrite stake_stake by done.
  rewrite (app_assoc_str h1). repeat apply PathUnescape_app; by eapply unescape_host_string_any.
Qed.

Lemma parseHost_decodes s h : parseHost s = Some h -> PathUnescape s = Some h.
Proof.
  unfold parseHost. destruct (HasPrefix s "[").
  - destruct (LastIndexByte s "]") as [i|]; [apply bracket_host_decodes | done].
  - destruct (LastIndexByte s ":") as [i|]; [destruct (validOptionalPort _); [|done]|]; apply unescape_host_string_any.
Qed.

(** Bytes an escaped text does not hold. *)
Lemma escape_bytes_free esc b l :
  Forall is_byte l -> esc b = true -> b <> 37 -> (forall d, 0 <= d < 16 -> hex_upper d <> b) -> b ∉ escape_bytes esc l.
Proof.
  intros Hl He Hb Hhex. induction Hl as [|x l Hx _ IH]; [apply not_elem_of_nil|]. rewrite escape_bytes_cons.
  rewrite elem_of_app. intros [Hin|Hin]; [|done]. destruct (esc x) eqn:Hex.
  - destruct (percent_nibbles x Hx) as (H1 & H2 & _). unfold percent in Hin.
    apply elem_of_cons in Hin as [->|Hin]; [done|]. apply elem_of_cons in Hin as [->|Hin]; [exact (Hhex _ H1 eq_refl)|].
    apply list_elem_of_singleton in Hin as ->. exact (Hhex _ H2 eq_refl).
  - apply list_elem_of_singleton in Hin as ->. congruence.
Qed.

Lemma escape_free esc c s :
  esc (byte_of_ascii c) = true -> string_in c "%0123456789ABCDEF" = false -> string_in c (escape_with esc s) = false.
Proof.
  intros He Hc. apply not_true_iff_false. rewrite string_in_bytes. unfold escape_with.
  rewrite bytes_of_string_of_bytes by (apply escape_bytes_range, bytes_of_string_range).
  apply escape_bytes_free; [apply bytes_of_string_range | done | |].
  - intros Heq. apply not_true_iff_false in Hc. apply Hc. apply string_in_bytes. rewrite Heq. set_solver.
  - intros d Hd Heq. apply not_true_iff_false in Hc. apply Hc. apply string_in_bytes. rewrite <- Heq.
    assert (d ∈ map Z.of_nat (seq 0 16)) as Hin.
    { apply list_elem_of_In, in_map_iff. exists (Z.to_nat d). rewrite in_seq. lia. }
    simpl in Hin. clear -Hin. repeat (apply elem_of_cons in Hin as [->|Hin]; [vm_compute; set_solver|]). by apply elem_of_nil in Hin.
Qed.

(** ** Cutting at a byte *)

Lemma Index_byte c a b : string_in c a = false -> Index (a +:+ String c b) (String c "") = Some (String.length a).
Proof.
  induction a as [|x a IH]; cbn [string_in].
  - intros _. change ("" +:+ String c b) with (String c b). cbn [Index String.prefix]. destruct (ascii_dec c c); [by destruct b | done].
  - intros Hin. bool_prop. change (String x a +:+ String c b) with (String x (a +:+ String c b)).
    cbn [Index String.prefix]. destruct (ascii_dec c x); [congruence|]. by rewrite IH.
Qed.

Lemma Index_byte_none c s : string_in c s = false -> Index s (String c "") = None.
Proof.
  induction s as [|x s IH]; cbn [string_in]; [done|]. intros Hin. bool_prop. cbn [Index String.prefix].
  destruct (ascii_dec c x); [congruence|]. by rewrite IH.
Qed.

Lemma cut_or_byte c a b : string_in c a = false -> cut_or (a +:+ String c b) (String c "") = (a, b).
Proof.
  intros Hin. unfold cut_or, Cut. rewrite Index_byte by done. cbn [default].
  rewrite stake_app_length. change (String c b) with (String c "" +:+ b). rewrite app_assoc_str.
  replace (String.length a + String.length (String c ""))%nat with (String.length (a +:+ String c "")) by apply length_app_str.
  by rewrite sdrop_app_length.
Qed.

Lemma cut_or_none c s : string_in c s = false -> cut_or s (String c "") = (s, "").
Proof. intros Hin. unfold cut_or, Cut. by rewrite Index_byte_none. Qed.

Lemma cut_or_app c a s : string_in c a = false -> cut_or (a +:+ s) (String c "") = (a +:+ (cut_or s (String c "")).1, (cut_or s (String c "")).2).
Proof.
  intros Ha. destruct (string_in c s) eqn:Hs.
  - assert (exists p q, s = p +:+ String c q /\ string_in c p = false) as (p & q & -> & Hp).
    { clear Ha. induction s as [|x s IH]; [done|]. destruct (decide (c = x)) as [->|Hne]; [by exists "", s|].
      cbn [string_in] in Hs. rewrite bool_decide_false in Hs by done. destruct (IH Hs) as (p & q & -> & Hp).
      exists (String x p), q. split; [done|]. cbn [string_in]. by rewrite bool_decide_false, Hp. }
    rewrite app_assoc_str, !cut_or_byte; [done | done | by rewrite string_in_app, Ha].
  - rewrite !cut_or_none; [done | done | by rewrite string_in_app, Ha].
Qed.

(** ** Paths *)

Lemma validEncoded_free c s :
  should_escape_path (byte_of_ascii c) = true -> string_in c "!$&'()*+,;=:@[]%" = false -> validEncoded s = true -> string_in c s = false.
Proof.
  intros He Hc Hv. apply not_true_iff_false. rewrite string_in_bytes. intros Hin.
  unfold validEncoded in Hv. rewrite forallb_forall in Hv. apply list_elem_of_In in Hin. specialize (Hv _ Hin).
  rewrite ascii_of_byte_of_ascii, Hc, He in Hv. done.
Qed.

Lemma EscapedPath_free c u :
  should_escape_path (byte_of_ascii c) = true -> string_in c "!$&'()*+,;=:@[]%0123456789ABCDEF" = false ->
  string_in c (EscapedPath u) = false.
Proof.
  intros He Hc. unfold EscapedPath. repeat case_match; bool_prop.
  - apply validEncoded_free; [done| |done].
    change "!$&'()*+,;=:@[]%0123456789ABCDEF" with ("!$&'()*+,;=:@[]%" +:+ "0123456789ABCDEF") in Hc.
    rewrite string_in_app in Hc. by bool_prop.
  - change "!$&'()*+,;=:@[]%0123456789ABCDEF" with ("!$&'()" +:+ "*" +:+ "+,;=:@[]%0123456789ABCDEF") in Hc.
    rewrite !string_in_app in Hc. by bool_prop.
  - change (escape_path (Path u)) with (escape_with should_escape_path (Path u)). apply escape_free; [done|].
    change "!$&'()*+,;=:@[]%0123456789ABCDEF" with ("!$&'()*+,;=:@[]" +:+ "%0123456789ABCDEF") in Hc.
    rewrite string_in_app in Hc. by bool_prop.
Qed.

(** A path as a request line has it: empty or rooted, and so its encoded
    form. *)
Definition rooted (s : string) : Prop := s = "" \/ exists t, s = "/" +:+ t.
Definition rooted_url (u : URL) : Prop := rooted (Path u) /\ rooted (RawPath u).

Lemma escape_path_cons s : escape_path ("/" +:+ s) = "/" +:+ escape_path s.
Proof. done. Qed.

Lemma EscapedPath_rooted u : rooted_url u -> rooted (EscapedPath u).
Proof.
  intros [Hp Hr]. unfold EscapedPath. repeat case_match; bool_prop; [done| |].
  - destruct Hp as [Hp|[t Hp]]; rewrite Hp in *; [done|]. apply str_eqb_eq in H0. discriminate.
  - destruct Hp as [->|[t ->]]; [by left|]. right. by exists (escape_path t).
Qed.

Lemma EscapedPath_decodes u : PathUnescape (EscapedPath u) = Some (Path u).
Proof.
  unfold EscapedPath. repeat case_match; bool_prop; [done| |].
  - apply str_eqb_eq in H0 as ->. done.
  - change (escape_path (Path u)) with (escape_with should_escape_path (Path u)). by apply PathUnescape_escape.
Qed.

Lemma hex_upper_unescaped d : 0 <= d < 16 -> should_escape_path (hex_upper d) = false.
Proof.
  intros Hd. assert (d ∈ map Z.of_nat (seq 0 16)) as Hin.
  { apply list_elem_of_In, in_map_iff. exists (Z.to_nat d). rewrite in_seq. lia. }
  simpl in Hin. repeat (apply elem_of_cons in Hin as [->|Hin]; [by vm_compute|]). by apply elem_of_nil in Hin.
Qed.

Lemma EscapedPath_valid u : validEncoded (EscapedPath u) = true.
Proof.
  unfold EscapedPath. repeat case_match; bool_prop; [done..|]. change (escape_path (Path u)) with (escape_with should_escape_path (Path u)).
  unfold validEncoded, escape_with. rewrite bytes_of_string_of_bytes by (apply escape_bytes_range, bytes_of_string_range).
  pose proof (bytes_of_string_range (Path u)) as Hr. induction Hr as [|b l Hb _ IH]; [done|].
  rewrite escape_bytes_cons, forallb_app, IH, andb_true_r. destruct (should_escape_path b) eqn:E; [|cbn; by rewrite E, orb_true_r].
  destruct (percent_nibbles b Hb) as (H1 & H2 & _). unfold percent. cbn [forallb].
  by rewrite (hex_upper_unescaped _ H1), (hex_upper_unescaped _ H2), !orb_true_r.
Qed.

(** The encoded path is what [setPath] reads back. *)
Lemma EscapedPath_setPath u raw :
  rooted (Path u) -> raw = (if str_eqb (EscapedPath u) (escape_path (Path u)) then "" else EscapedPath u) ->
  forall v, Path v = Path u -> RawPath v = raw -> EscapedPath v = EscapedPath u.
Proof.
  intros Hp -> v Hv Hr. unfold EscapedPath at 1. rewrite Hv, Hr.
  destruct (str_eqb (EscapedPath u) (escape_path (Path u))) eqn:Heq.
  - apply str_eqb_eq in Heq. cbn [is_empty negb andb]. simpl.
    destruct (str_eqb (Path u) "*") eqn:Hs; [|done].
    apply str_eqb_eq in Hs. destruct Hp as [Hp|[t Hp]]; rewrite Hp in Hs; discriminate.
  - apply str_eqb_neq in Heq. rewrite EscapedPath_decodes, bool_decide_true, andb_true_r by done.
    assert (negb (is_empty (EscapedPath u)) && validEncoded (EscapedPath u) = true) as ->; [|done].
    revert Heq. unfold EscapedPath. repeat case_match; bool_prop; [|destruct Hp as [Hp|[t Hp]]; rewrite Hp in *; [done|]; apply str_eqb_eq in H0; discriminate|done].
    intros _. apply andb_true_iff. split; [by apply negb_true_iff | done].
Qed.

(** ** A printed URL is read back *)

Lemma LastIndexByte_none s c : string_in c s = false -> LastIndexByte s c = None.
Proof.
  induction s as [|x s IH]; cbn [string_in LastIndexByte]; [done|]. intros Hin. apply orb_false_iff in Hin as [Hx Hs].
  rewrite IH by done. apply bool_decide_eq_false in Hx. by rewrite bool_decide_false by congruence.
Qed.

Lemma split_query_none a : string_in "?" a = false -> split_query a = (a, "", false).
Proof. intros Ha. unfold split_query. rewrite Index_byte_none, andb_false_r by done. by rewrite cut_or_none. Qed.

Lemma split_query_some a q : string_in "?" a = false -> split_query (a +:+ String "?" q) = (a, q, is_empty q).
Proof.
  intros Ha. unfold split_query. rewrite Index_byte by done. destruct q as [|c q].
  - rewrite length_app_str. change (String.length (String "?" "")) with 1%nat. rewrite Nat.add_sub, stake_app_length, bool_decide_true by done.
    replace (HasSuffix (a +:+ "?") "?") with true; [done|]. symmetry. apply HasSuffix_spec. by exists a.
  - rewrite length_app_str. rewrite bool_decide_false; [|intros [=]; simpl in *; lia]. by rewrite andb_false_r, cut_or_byte.
Qed.

Lemma split_authority_rooted a p : string_in "/" a = false -> rooted p -> split_authority (a +:+ p) = (a, p).
Proof.
  intros Ha [->|[t ->]]; unfold split_authority.
  - by rewrite app_empty_r, Index_byte_none.
  - change ("/" +:+ t) with (String "/" t). by rewrite Index_byte, stake_app_length, sdrop_app_length.
Qed.

Lemma escape_host_free c s :
  c ∈ ["/"; "?"; "#"; "@"]%char -> string_in c (escape_host s) = false.
Proof. intros Hc. apply escape_free; repeat (apply elem_of_cons in Hc as [->|Hc]; [done|]); by apply elem_of_nil in Hc. Qed.

Lemma EscapedPath_no_query u : string_in "?" (EscapedPath u) = false /\ string_in "#" (EscapedPath u) = false.
Proof. split; by apply EscapedPath_free. Qed.

Lemma escape_user_free c s :
  c ∈ ["/"; "?"; "#"; "@"]%char -> string_in c (escape_user s) = false.
Proof. intros Hc. apply escape_free; repeat (apply elem_of_cons in Hc as [->|Hc]; [done|]); by apply elem_of_nil in Hc. Qed.

Lemma user_part_free c u : c ∈ ["/"; "?"; "#"]%char -> string_in c (user_part u) = false.
Proof.
  intros Hc. assert (c ∈ ["/"; "?"; "#"; "@"]%char) as Hc' by set_solver.
  assert (string_in c "@" = false /\ string_in c ":" = false) as [Ha Hb].
  { repeat (apply elem_of_cons in Hc as [->|Hc]; [done|]); by apply elem_of_nil in Hc. }
  unfold user_part, user_String. repeat case_match; rewrite ?string_in_app, ?Ha, ?Hb, ?escape_user_free by done; done.
Qed.

(** Everything before the query, of a URL with a rooted path. *)
Definition url_front (u : URL) : string := Scheme u +:+ "://" +:+ user_part u +:+ escape_host (URLHost u) +:+ EscapedPath u.

Lemma url_String_rooted force u :
  Scheme u <> "" -> rooted_url u -> url_String_force force u = url_front u +:+ query_part force (RawQuery u).
Proof.
  intros Hs Hr. unfold url_String_force, url_front. apply is_empty_false in Hs as ->.
  replace (negb (is_empty (EscapedPath u)) && negb (HasPrefix (EscapedPath u) "/")) with false.
  - by rewrite <- !app_assoc_str.
  - destruct (EscapedPath_rooted u Hr) as [->|[t ->]]; [done|]. by rewrite HasPrefix_app, andb_false_r.
Qed.

Lemma LastIndexByte_app a b c : string_in c b = false -> LastIndexByte (a +:+ String c b) c = Some (String.length a).
Proof.
  intros Hb. induction a as [|x a IH].
  - change ("" +:+ String c b) with (String c b). cbn [LastIndexByte].
    by rewrite LastIndexByte_none, bool_decide_true.
  - change (String x a +:+ String c b) with (String x (a +:+ String c b)). cbn [LastIndexByte]. by rewrite IH.
Qed.

Lemma parseHost_escaped host h : parseHost (escape_host host) = Some h -> h = host.
Proof.
  intros Hh. apply parseHost_decodes in Hh. unfold escape_host in Hh. rewrite PathUnescape_escape in Hh by done. congruence.
Qed.

Lemma parseAuthority_printed u r :
  parseAuthority (user_part u +:+ escape_host (URLHost u)) = Some r -> r = (user_String <$> UserInfo u, URLHost u).
Proof.
  assert (string_in "@" (escape_host (URLHost u)) = false) as Hf by (apply escape_host_free; set_solver).
  unfold parseAuthority, user_part. destruct (UserInfo u) as [user|].
  - rewrite <- app_assoc_str. change ("@" +:+ ?x) with (String "@" x). rewrite LastIndexByte_app by done.
    assert (sdrop (S (String.length (user_String user))) (user_String user +:+ String "@" (escape_host (URLHost u)))
      = escape_host (URLHost u)) as ->.
    { change (String "@" ?x) with ("@" +:+ x). rewrite app_assoc_str.
      replace (S (String.length (user_String user))) with (String.length (user_String user +:+ "@"))
        by (rewrite length_app_str; simpl; lia). apply sdrop_app_length. }
    rewrite stake_app_length.
    destruct (parseHost _) as [h|] eqn:Hh; [|done]. apply parseHost_escaped in Hh as ->. cbn [mbind option_bind].
    destruct (negb _); [done|]. intros Hr. assert (Some r = Some (Some (user_String user), URLHost u)) as [= ->]; [|done].
    rewrite <- Hr. destruct (Cut (user_String user) ":") as [[n p]|].
    + destruct (PathUnescape n); [|done]. cbn [mbind option_bind] in *. by destruct (PathUnescape p).
    + by destruct (PathUnescape (user_String user)).
  - change ("" +:+ ?x) with x. rewrite LastIndexByte_none by done.
    destruct (parseHost _) as [h|] eqn:Hh; [|done]. apply parseHost_escaped in Hh as ->. cbn. by intros [= <-].
Qed.

Lemma setPath_escaped u path raw :
  rooted (Path u) -> setPath (EscapedPath u) = Some (path, raw) ->
  path = Path u /\ raw = (if str_eqb (EscapedPath u) (escape_path (Path u)) then "" else EscapedPath u).
Proof. intros Hr. unfold setPath. rewrite EscapedPath_decodes. cbn [mbind option_bind]. by intros [= <- <-]. Qed.

Lemma parse_hierarchy_escaped u scheme query force p :
  scheme <> "" -> rooted_url u ->
  parse_hierarchy scheme ("//" +:+ (user_part u +:+ escape_host (URLHost u)) +:+ EscapedPath u) query force = Some p ->
  p_url p = mkURL scheme (user_String <$> UserInfo u) (URLHost u) (Path u)
              (if str_eqb (EscapedPath u) (escape_path (Path u)) then "" else EscapedPath u) query.
Proof.
  intros Hs Hr. unfold parse_hierarchy. apply is_empty_false in Hs as ->. cbn [negb orb andb].
  rewrite HasPrefix_app. change (sdrop 2 ("//" +:+ ?x)) with x.
  rewrite split_authority_rooted; [|rewrite string_in_app, user_part_free, escape_host_free by set_solver; done | by apply EscapedPath_rooted].
  destruct (parseAuthority _) as [[user host]|] eqn:Ha; [|done]. cbn [mbind option_bind].
  apply parseAuthority_printed in Ha as [= -> ->].
  destruct (setPath _) as [[path raw]|] eqn:Hp; [|done]. cbn [mbind option_bind]. intros [= <-].
  apply setPath_escaped in Hp as [-> ->]; [done | apply Hr].
Qed.

(** ** What [Parse] yields *)

Lemma PathUnescape_slash t path : PathUnescape ("/" +:+ t) = Some path -> exists t', path = "/" +:+ t'.
Proof.
  unfold PathUnescape. change (bytes_of_string ("/" +:+ t)) with (47%Z :: bytes_of_string t). cbn [unescape_bytes].
  destruct (unescape_bytes false (bytes_of_string t)) as [l|]; [|done]. intros [= <-]. by exists (string_of_bytes l).
Qed.

Lemma setPath_rooted s path raw : rooted s -> setPath s = Some (path, raw) -> rooted path /\ rooted raw.
Proof.
  intros Hs. unfold setPath. destruct (PathUnescape s) as [p|] eqn:Hp; [|done]. cbn [mbind option_bind]. intros [= -> <-].
  split; [|by destruct (str_eqb _ _); [left|]].
  destruct Hs as [->|[t ->]]; [left; by injection Hp|]. right. by eapply PathUnescape_slash.
Qed.

Lemma split_authority_path a b c : split_authority a = (b, c) -> rooted c.
Proof.
  unfold split_authority. destruct (Index a "/") as [i|] eqn:Hi; intros [= <- <-]; [|by left]. right.
  revert i Hi. induction a as [|x a IH]; intros i; cbn [Index]; [done|].
  destruct (String.prefix "/" (String x a)) eqn:Hp.
  - intros [= <-]. apply (HasPrefix_spec _ "/") in Hp as [t Ht]. exists t. exact Ht.
  - destruct (Index a "/") as [j|]; [|done]. intros [= <-]. by apply IH.
Qed.

Lemma cut_or_in c s sep : string_in c s = false -> string_in c (cut_or s sep).1 = false /\ string_in c (cut_or s sep).2 = false.
Proof.
  intros Hs. unfold cut_or, Cut. destruct (Index s sep); cbn; [|done]. split; [by apply string_in_stake | by apply string_in_sdrop].
Qed.

Lemma split_query_in c s rest query force :
  string_in c s = false -> split_query s = (rest, query, force) -> string_in c query = false.
Proof.
  intros Hs. unfold split_query. destruct (_ && _); [by intros [= _ <- _]|].
  destruct (cut_or s "?") as [a b] eqn:Hc. intros [= _ <- _]. pose proof (cut_or_in c s "?" Hs) as [_ Hb]. by rewrite Hc in Hb.
Qed.

Lemma getScheme_in c s sc rest : string_in c s = false -> getScheme s = Some (sc, rest) -> string_in c rest = false.
Proof.
  intros Hs. unfold getScheme. destruct (scheme_length 0 s) as [[i|]|]; [|by intros [= _ <-]|done].
  intros [= _ <-]. exact (string_in_sdrop c (S i) s Hs).
Qed.

Lemma cut_or_first c s : string_in c (cut_or s (String c "")).1 = false.
Proof.
  destruct (string_in c s) eqn:Hs; [|by rewrite cut_or_none].
  induction s as [|x s IH]; [done|]. destruct (decide (x = c)) as [->|Hne].
  - change (String c s) with ("" +:+ String c s). by rewrite cut_or_byte.
  - cbn [string_in] in Hs. rewrite bool_decide_false in Hs by done.
    change (String x s) with (String x "" +:+ s).
    rewrite cut_or_app by (cbn [string_in]; by rewrite bool_decide_false by done). cbn [fst].
    rewrite string_in_app, IH by done. cbn [string_in]. by rewrite bool_decide_false by done.
Qed.

Definition web_scheme (s : string) : Prop := s = "http" \/ s = "https".

Section Printed.
  Context `{UnicodeTables}.

Lemma ToLower_web s : web_scheme s -> ToLower s = s.
Proof. by intros [->| ->]. Qed.

Lemma getScheme_web s rest : web_scheme s -> getScheme (s +:+ ":" +:+ rest) = Some (s, rest).
Proof. by intros [->| ->]. Qed.

Lemma web_scheme_free s c : web_scheme s -> string_in c "htps" = false -> string_in c s = false.
Proof. intros [->| ->] Hc; revert Hc; cbn [string_in]; rewrite !orb_false_iff; tauto. Qed.

(** The query of a printed URL ends at its first [#]. *)
Definition sent_query (q : string) : string := (cut_or q "#").1.

Lemma parse_printed u q p :
  web_scheme (Scheme u) -> rooted_url u ->
  q = "" \/ (exists t, q = String "?" t) ->
  parse (url_front u +:+ q) = Some p ->
  p_url p = mkURL (Scheme u) (user_String <$> UserInfo u) (URLHost u) (Path u)
              (if str_eqb (EscapedPath u) (escape_path (Path u)) then "" else EscapedPath u) (sdrop 1 q).
Proof.
  intros Hs Hr Hq. unfold parse. destruct (has_ctl _); [done|].
  assert (str_eqb (url_front u +:+ q) "*" = false) as -> by (unfold url_front; by destruct Hs as [->| ->]).
  set (rest := "//" +:+ (user_part u +:+ escape_host (URLHost u)) +:+ EscapedPath u).
  replace (url_front u +:+ q) with (Scheme u +:+ ":" +:+ (rest +:+ q))
    by (unfold rest, url_front; rewrite <- !app_assoc_str; done).
  rewrite getScheme_web by done. cbn [mbind option_bind]. rewrite ToLower_web by done.
  assert (string_in "?" rest = false) as Hf.
  { unfold rest. rewrite !string_in_app, user_part_free, escape_host_free by set_solver. cbn. apply EscapedPath_no_query. }
  assert (split_query (rest +:+ q) = (rest, sdrop 1 q, bool_decide (q = "?"))) as ->.
  { destruct Hq as [->|[t ->]]; [by rewrite app_empty_r, split_query_none|]. rewrite split_query_some by done.
    cbn [sdrop]. f_equal. by destruct t. }
  assert (HasPrefix rest "/" = true) as -> by done. cbn [negb andb].
  apply parse_hierarchy_escaped; [|done]. destruct Hs as [->| ->]; done.
Qed.

Lemma parse_rooted raw p : parse raw = Some p -> URLHost (p_url p) <> "" -> rooted_url (p_url p) /\ p_opaque p = "".
Proof.
  unfold parse. destruct (has_ctl raw); [done|]. destruct (str_eqb raw "*"); [by intros [= <-]|].
  destruct (getScheme raw) as [[sc rest0]|]; [|done]. cbn [mbind option_bind].
  destruct (split_query rest0) as [[rest query] force].
  destruct (_ && negb (is_empty _)); [by intros [= <-]|]. destruct (_ && first_segment_has_colon _); [done|].
  unfold parse_hierarchy. destruct ((_ || _) && _).
  - destruct (split_authority (sdrop 2 rest)) as [au path] eqn:Hs. apply split_authority_path in Hs.
    destruct (parseAuthority au) as [[user host]|]; [|done]. cbn [mbind option_bind].
    destruct (setPath path) as [[p' raw']|] eqn:Hp; [|done]. cbn [mbind option_bind]. intros [= <-] _.
    by apply setPath_rooted in Hp.
  - cbn [mbind option_bind]. destruct (setPath rest) as [[p' raw']|]; [|done]. by intros [= <-].
Qed.

Lemma parse_query_in raw p c : parse raw = Some p -> string_in c raw = false -> string_in c (RawQuery (p_url p)) = false.
Proof.
  unfold parse. intros Hp Hc. revert Hp. destruct (has_ctl raw); [done|]. destruct (str_eqb raw "*"); [by intros [= <-]|].
  destruct (getScheme raw) as [[sc rest0]|] eqn:Hg; [|done]. cbn [mbind option_bind].
  destruct (split_query rest0) as [[rest query] force] eqn:Hs.
  pose proof (split_query_in _ _ _ _ _ (getScheme_in _ _ _ _ Hc Hg) Hs) as Hq.
  destruct (_ && negb (is_empty _)); [by intros [= <-]|]. destruct (_ && first_segment_has_colon _); [done|].
  unfold parse_hierarchy. destruct ((_ || _) && _).
  - destruct (split_authority (sdrop 2 rest)) as [au path].
    destruct (parseAuthority au) as [[user host]|]; [|done]. cbn [mbind option_bind].
    destruct (setPath path) as [[p' raw']|]; [|done]. by intros [= <-].
  - cbn [mbind option_bind]. destruct (setPath rest) as [[p' raw']|]; [|done]. by intros [= <-].
Qed.

Lemma url_Parse_inv raw p :
  url_Parse raw = Some p -> exists p0, parse (cut_or raw "#").1 = Some p0 /\ p_url p = p_url p0 /\ p_opaque p = p_opaque p0.
Proof.
  unfold url_Parse. destruct (cut_or raw "#") as [u frag]. cbn [fst].
  destruct (parse u) as [p0|]; [|done]. cbn [mbind option_bind]. intros Hq. exists p0.
  destruct (is_empty frag); [by injection Hq as ->|]. destruct (PathUnescape frag); [|done]. by injection Hq as <-.
Qed.

Lemma url_Parse_rooted raw p : url_Parse raw = Some p -> URLHost (p_url p) <> "" -> rooted_url (p_url p) /\ p_opaque p = "".
Proof. intros (p0 & Hp & -> & ->)%url_Parse_inv. by apply (parse_rooted _ _ Hp). Qed.

(** A parsed query holds no [#], so printing keeps it. *)
Lemma url_Parse_query raw p : url_Parse raw = Some p -> sent_query (RawQuery (p_url p)) = RawQuery (p_url p).
Proof.
  intros (p0 & Hp & -> & _)%url_Parse_inv. unfold sent_query.
  rewrite cut_or_none; [done|]. eapply (parse_query_in _ _ _ Hp), cut_or_first.
Qed.

(** Sent as judged: a request built from the text of a URL with a rooted path
    goes to the host (less an empty port), the decoded path and the encoded
    path of that URL, with its query up to the first [#]. *)
Lemma request_url_String force u u' :
  web_scheme (Scheme u) -> rooted_url u ->
  request_url (url_String_force force u) = Some u' ->
  Scheme u' = Scheme u /\ UserInfo u' = user_String <$> UserInfo u /\ URLHost u' = removeEmptyPort (URLHost u)
  /\ Path u' = Path u /\ EscapedPath u' = EscapedPath u /\ RawQuery u' = sent_query (RawQuery u).
Proof.
  intros Hs Hr. unfold request_url, url_Parse.
  rewrite url_String_rooted; [|destruct Hs as [->| ->]; done | done].
  rewrite cut_or_app.
  2:{ unfold url_front. rewrite !string_in_app, (web_scheme_free _ "#"), user_part_free, escape_host_free by (done || set_solver).
      cbn. apply EscapedPath_no_query. }
  set (frag := (cut_or _ "#").2).
  set (q := (cut_or (query_part force (RawQuery u)) "#").1).
  assert (q = "" /\ sent_query (RawQuery u) = "" \/ q = String "?" (sent_query (RawQuery u))) as Hq.
  { unfold q, query_part, sent_query. destruct (is_empty (RawQuery u) && negb force) eqn:He.
    - apply andb_true_iff in He as [He _]. apply is_empty_true in He as ->. by left.
    - right. by rewrite cut_or_app. }
  destruct (parse _) as [p|] eqn:Hp; [|done]. cbn [mbind option_bind].
  apply parse_printed in Hp; [|done|done|destruct Hq as [[-> _]| ->]; eauto].
  intros Hu. assert (u' = mkURL (Scheme u) (user_String <$> UserInfo u) (removeEmptyPort (URLHost u)) (Path u)
    (if str_eqb (EscapedPath u) (escape_path (Path u)) then "" else EscapedPath u) (sdrop 1 q)) as ->.
  { destruct (is_empty frag); [|destruct (PathUnescape frag); [|done]]; cbn [mbind option_bind p_url] in Hu; rewrite Hp in Hu; by injection Hu. }
  do 4 (split; [done|]). split; [by apply (EscapedPath_setPath u _ (proj1 Hr) eq_refl)|].
  cbn [RawQuery]. by destruct Hq as [[-> ->]| ->].
Qed.

(** A path that does not start with a slash is printed after one. *)
Definition path_slash (u : URL) : string :=
  if negb (is_empty (EscapedPath u)) && negb (HasPrefix (EscapedPath u) "/") then "/" else "".
Definition slashed (u : URL) : URL :=
  mkURL (Scheme u) (UserInfo u) (URLHost u) (path_slash u +:+ Path u) (path_slash u +:+ EscapedPath u) (RawQuery u).

Lemma path_slash_cases u : path_slash u = "" /\ rooted (EscapedPath u) \/ path_slash u = "/" /\ EscapedPath u <> "" /\ HasPrefix (EscapedPath u) "/" = false.
Proof.
  unfold path_slash, rooted. destruct (is_empty (EscapedPath u)) eqn:He; [apply is_empty_true in He; rewrite He; by left; split; [|left]|].
  destruct (HasPrefix (EscapedPath u) "/") eqn:Hp; [left; split; [done|right; by apply HasPrefix_spec] | right].
  split; [done|]. split; [by apply is_empty_false | done].
Qed.

Lemma slashed_paths u : rooted_url (slashed u) /\ EscapedPath (slashed u) = path_slash u +:+ EscapedPath u.
Proof.
  pose proof (EscapedPath_decodes u) as Hd. pose proof (EscapedPath_valid u) as Hv.
  unfold slashed, rooted_url. cbn [Path RawPath]. unfold EscapedPath at 2. cbn [Path RawPath].
  destruct (path_slash_cases u) as [[-> [He|[t Ht]]]|(-> & _ & _)].
  - rewrite He in *. injection Hd as <-. split; [by split; left | done].
  - change ("" +:+ Path u) with (Path u). change ("" +:+ EscapedPath u) with (EscapedPath u). rewrite Ht in *.
    destruct (PathUnescape_slash _ _ Hd) as [t' Hp']. split; [split; right; eauto|]. by rewrite Hv, Hd, bool_decide_true.
  - split; [split; right; eauto|]. assert (PathUnescape ("/" +:+ EscapedPath u) = Some ("/" +:+ Path u)) as -> by by apply PathUnescape_app.
    rewrite bool_decide_true by done. assert (validEncoded ("/" +:+ EscapedPath u) = true) as ->; [exact Hv | done].
Qed.

Lemma url_String_slashed force u : url_String_force force u = url_String_force force (slashed u).
Proof.
  unfold url_String_force. rewrite (proj2 (slashed_paths u)). fold (path_slash u).
  assert (path_slash (slashed u) = "") as Hs.
  { unfold path_slash at 1. destruct (EscapedPath_rooted _ (proj1 (slashed_paths u))) as [->|[t ->]]; [done | by rewrite HasPrefix_app, andb_false_r]. }
  unfold path_slash in Hs at 1. rewrite (proj2 (slashed_paths u)) in Hs. rewrite Hs. unfold user_part. cbn [Scheme UserInfo URLHost RawQuery slashed].
  by rewrite <- app_assoc_str.
Qed.

(** The same of any path. *)
Lemma request_url_printed force u u' :
  web_scheme (Scheme u) -> request_url (url_String_force force u) = Some u' ->
  Scheme u' = Scheme u /\ UserInfo u' = user_String <$> UserInfo u /\ URLHost u' = removeEmptyPort (URLHost u)
  /\ Path u' = path_slash u +:+ Path u /\ EscapedPath u' = path_slash u +:+ EscapedPath u /\ RawQuery u' = sent_query (RawQuery u).
Proof.
  intros Hs. rewrite url_String_slashed. destruct (slashed_paths u) as [Hr <-]. by apply (request_url_String force (slashed u)).
Qed.

End Printed.
