(* ===== verification/GoQuery.v ===== *)
(** * net/url: query strings read back

    [Values.Encode] writes what [ParseQuery] reads: the values of every key,
    in order. *)
From stdpp Require Import base gmap strings list option sorting.
From Stdlib Require Import ZArith Lia Ascii.
From S2P Require Import Prelude GoUtf8 GoStrings GoNet Body GoHttp GoUrl.
Local Open Scope string_scope.
Local Open Scope list_scope.
Local Open Scope Z_scope.

(** ** Components *)

Definition query_byte (b : Z) : list Z :=
  if b =? 32 then [43] else if should_escape_query b then percent b else [b].

Lemma QueryEscape_bytes s : QueryEscape s = string_of_bytes (concat (map query_byte (bytes_of_string s))).
Proof. done. Qed.

(** The bytes of an escaped component: plus, percent and unreserved ones. *)
Definition query_safe (b : Z) : Prop := is_byte b /\ (b = 43 \/ b = 37 \/ is_unreserved b = true).

Lemma hex_upper_unreserved d : 0 <= d < 16 -> is_unreserved (hex_upper d) = true.
Proof.
  intros Hd. unfold is_unreserved, hex_upper. destruct (Z.ltb_spec d 10).
  - replace (is_digit_ascii (48 + d)) with true; [done|]. unfold is_digit_ascii. symmetry. apply andb_true_iff. rewrite !Z.leb_le. lia.
  - replace (is_upper_ascii (55 + d)) with true; [by rewrite orb_true_r|]. unfold is_upper_ascii. symmetry. apply andb_true_iff. rewrite !Z.leb_le. lia.
Qed.

Lemma query_byte_safe b : is_byte b -> Forall query_safe (query_byte b).
Proof.
  intros Hb. unfold query_byte. destruct (b =? 32); [repeat constructor; unfold query_safe, is_byte; lia|].
  destruct (should_escape_query b) eqn:He.
  - destruct (percent_nibbles b Hb) as (H1 & H2 & _). unfold percent, query_safe. rewrite !list.Forall_cons.
    repeat split; try constructor; try (apply hex_upper_range; lia); try lia; auto using hex_upper_unreserved;
      right; right; by apply hex_upper_unreserved.
  - apply list.Forall_singleton. split; [done|]. right. right. by apply negb_false_iff in He.
Qed.

Lemma query_bytes_safe l : Forall is_byte l -> Forall query_safe (concat (map query_byte l)).
Proof. induction 1; [constructor|]. cbn [map concat]. apply list.Forall_app. split; [by apply query_byte_safe | done]. Qed.

Lemma query_safe_range l : Forall query_safe l -> Forall is_byte l.
Proof. intros Hl. eapply list.Forall_impl; [exact Hl|]. by intros b [? _]. Qed.

Lemma unescape_query_byte b l r :
  is_byte b -> unescape_bytes true l = Some r -> unescape_bytes true (query_byte b ++ l) = Some (b :: r).
Proof.
  intros Hb Hl. unfold query_byte. destruct (Z.eqb_spec b 32) as [->|]; [cbn; by rewrite Hl|].
  destruct (should_escape_query b) eqn:He.
  - destruct (percent_nibbles b Hb) as (H1 & H2 & H3). unfold percent. cbn [app unescape_bytes].
    change (37 =? 37) with true. cbv iota.
    rewrite (proj1 (proj2 (hex_upper_range _ H1))), (proj1 (proj2 (hex_upper_range _ H2))), Hl. cbn. by rewrite H3.
  - cbn [app unescape_bytes]. destruct (Z.eqb_spec b 37) as [->|]; [done|].
    destruct (Z.eqb_spec b 43) as [->|]; [done|]. cbn. by rewrite Hl.
Qed.

Lemma QueryUnescape_Escape s : QueryUnescape (QueryEscape s) = Some s.
Proof.
  rewrite QueryEscape_bytes. unfold QueryUnescape.
  rewrite bytes_of_string_of_bytes by (apply query_safe_range, query_bytes_safe, bytes_of_string_range).
  assert (unescape_bytes true (concat (map query_byte (bytes_of_string s))) = Some (bytes_of_string s)) as ->.
  { pose proof (bytes_of_string_range s) as Hs. induction Hs as [|b l Hb _ IH]; [done|]. by apply unescape_query_byte. }
  cbn. by rewrite string_of_bytes_of_string.
Qed.

Lemma QueryEscape_free c s :
  byte_of_ascii c ∉ [43; 37] -> is_unreserved (byte_of_ascii c) = false -> string_in c (QueryEscape s) = false.
Proof.
  intros Hc Hu. apply not_true_iff_false. rewrite string_in_bytes, QueryEscape_bytes.
  pose proof (query_bytes_safe _ (bytes_of_string_range s)) as Hs.
  rewrite bytes_of_string_of_bytes by (by apply query_safe_range). intros Hin.
  rewrite list.Forall_forall in Hs. destruct (Hs _ Hin) as [_ [Hb|[Hb|Hb]]]; [set_solver | set_solver | congruence].
Qed.

(** ** Pairs *)

Definition query_pair (kv : string * string) : string := QueryEscape kv.1 +:+ "=" +:+ QueryEscape kv.2.
Definition add_value (m : gmap string (list string)) (kv : string * string) : gmap string (list string) :=
  <[kv.1 := default [] (m !! kv.1) ++ [kv.2]]> m.

Lemma query_pair_part m bad kv : parse_query_part (m, bad) (query_pair kv) = (add_value m kv, bad).
Proof.
  unfold parse_query_part, query_pair. destruct kv as [k v]. cbn [fst snd].
  rewrite !string_in_app, !QueryEscape_free by (done || set_solver). cbn [string_in orb bool_decide].
  change (string_in ";" "=") with false. cbn [orb].
  assert (is_empty (QueryEscape k +:+ "=" +:+ QueryEscape v) = false) as ->.
  { apply is_empty_false. intros Heq. apply (f_equal String.length) in Heq. rewrite !length_app_str in Heq. simpl in Heq. lia. }
  change ("=" +:+ QueryEscape v) with (String "=" (QueryEscape v)).
  rewrite cut_or_byte by (apply QueryEscape_free; [set_solver | done]).
  by rewrite !QueryUnescape_Escape.
Qed.

Lemma query_pairs_parts m bad l : foldl parse_query_part (m, bad) (map query_pair l) = (foldl add_value m l, bad).
Proof.
  revert m. induction l as [|kv l IH]; intros m; [done|]. cbn [map foldl]. rewrite query_pair_part. apply IH.
Qed.

Definition EncodePairs (l : list (string * string)) : string := Join (map query_pair l) "&".

Lemma ParseQuery_pairs l : ParseQuery (EncodePairs l) = (foldl add_value ∅ l, false).
Proof.
  unfold ParseQuery, EncodePairs. destruct l as [|kv l]; [done|].
  assert (Split (Join (map query_pair (kv :: l)) (String "&" "")) "&" = map query_pair (kv :: l)) as Hs.
  { apply Split_Join; [done|]. apply list.Forall_forall. intros p [[k v] [-> _]]%list_elem_of_fmap. unfold query_pair.
    rewrite !string_in_app, !QueryEscape_free by (done || set_solver). done. }
  destruct (is_empty _) eqn:He.
  - apply is_empty_true in He. rewrite He in Hs. cbn [map Split] in Hs. injection Hs as Hq _.
    exfalso. apply (f_equal String.length) in Hq. unfold query_pair in Hq. rewrite !length_app_str in Hq. simpl in Hq. lia.
  - rewrite Hs. apply query_pairs_parts.
Qed.

(** ** Values *)

Lemma foldl_add_value m l k :
  foldl add_value m l !! k =
  match map snd (List.filter (fun kv => str_eqb kv.1 k) l) with
  | [] => m !! k
  | vs => Some (default [] (m !! k) ++ vs)
  end.
Proof.
  revert m. induction l as [|[k' v] l IH]; intros m; [done|]. cbn [foldl List.filter fst]. rewrite IH. unfold add_value. cbn [fst snd].
  destruct (str_eqb k' k) eqn:Hk.
  - apply str_eqb_eq in Hk as ->. rewrite lookup_insert_eq. cbn [map snd default].
    destruct (map snd _); [done|]. unfold id. by rewrite <- app_assoc.
  - apply str_eqb_neq in Hk. by rewrite lookup_insert_ne.
Qed.

Definition value_pairs (m : gmap string (list string)) (keys : list string) : list (string * string) :=
  concat (map (fun k => map (pair k) (default [] (m !! k))) keys).

Lemma EncodeValues_pairs m : EncodeValues m = EncodePairs (value_pairs m (sorted_keys m)).
Proof.
  unfold EncodeValues, EncodePairs, value_pairs. f_equal. induction (sorted_keys m) as [|k ks IH]; [done|].
  cbn [map concat]. rewrite map_app, <- IH. f_equal. rewrite map_map. done.
Qed.

Lemma value_pairs_values m keys k :
  NoDup keys -> map snd (List.filter (fun kv => str_eqb kv.1 k) (value_pairs m keys))
    = if bool_decide (k ∈ keys) then default [] (m !! k) else [].
Proof.
  induction 1 as [|k' keys Hk' Hnd IH]; [done|].
  change (value_pairs m (k' :: keys)) with (map (pair k') (default [] (m !! k')) ++ value_pairs m keys).
  rewrite List.filter_app, map_app, IH.
  assert (map snd (List.filter (fun kv => str_eqb kv.1 k) (map (pair k') (default [] (m !! k'))))
    = if str_eqb k' k then default [] (m !! k') else []) as ->.
  { induction (default [] (m !! k')) as [|v vs IHv]; cbn [map List.filter fst snd]; [by destruct (str_eqb k' k)|].
    destruct (str_eqb k' k); [|done]. cbn [map snd]. by rewrite IHv. }
  destruct (str_eqb k' k) eqn:Hk.
  - apply str_eqb_eq in Hk as ->. rewrite (bool_decide_false (k ∈ keys)), app_nil_r by done.
    by rewrite bool_decide_true by set_solver.
  - apply str_eqb_neq in Hk. cbn [app]. case_bool_decide; case_bool_decide; set_solver.
Qed.

Lemma sorted_keys_spec {V} (m : gmap string V) : NoDup (sorted_keys m) /\ forall k, k ∈ sorted_keys m <-> is_Some (m !! k).
Proof.
  unfold sorted_keys. split.
  - rewrite merge_sort_Permutation. apply NoDup_fst_map_to_list.
  - intros k. rewrite merge_sort_Permutation, list_elem_of_fmap. split.
    + intros [[k' v] [-> Hin]]. apply elem_of_map_to_list in Hin. cbn [fst]. by rewrite Hin.
    + intros [v Hv]. exists (k, v). split; [done|]. by apply elem_of_map_to_list.
Qed.

(** What [Encode] writes [ParseQuery] reads, without error. *)
Lemma ParseQuery_Encode m k :
  (ParseQuery (EncodeValues m)).2 = false /\
  default [] ((ParseQuery (EncodeValues m)).1 !! k) = default [] (m !! k).
Proof.
  rewrite EncodeValues_pairs, ParseQuery_pairs. split; [done|]. cbn [fst]. rewrite foldl_add_value, value_pairs_values by apply sorted_keys_spec.
  rewrite lookup_empty. case_bool_decide as Hk; rewrite (proj2 (sorted_keys_spec m)) in Hk.
  - by destruct (default [] (m !! k)).
  - apply eq_None_not_Some in Hk. by rewrite Hk.
Qed.
