(* ===== verification/McpGateway.v ===== *)
(** * The MCP gateway (src/internal/mcpgateway/gateway.go, holder.go)

    After the MCP policy allowed a request, the first gateway route whose
    rules match it names the concrete upstream and the credentials to write
    into it.  Secret sources and [text/template] are parameters, as in
    [Secrets]. *)
From stdpp Require Import base gmap strings list option.
From Stdlib Require Import ZArith Lia Ascii.
From S2P Require Import Prelude GoUtf8 GoStrings GoNet Body GoHttp GoUrl GoQuery GoEncoding.
From S2P Require Import HostMatch Transform GoRegexp ScrubPairs Secrets.
Local Open Scope string_scope.
Local Open Scope list_scope.
Local Open Scope nat_scope.

Module Gateway.

(** ** Configuration *)

Record InjectConfig := mkInjectConfig { ic_Header : string; ic_QueryParam : string; ic_Formatter : string }.
Record CredentialConfig (Node : Type) := mkCredentialConfig {
  cc_Source : Node; cc_Inject : InjectConfig; cc_Require : option bool }.
Arguments mkCredentialConfig {Node}. Arguments cc_Source {Node}. Arguments cc_Inject {Node}. Arguments cc_Require {Node}.
Record RouteConfig (Node : Type) := mkRouteConfig {
  rc_Name : string; rc_Rules : list RuleConfig; rc_Upstream : string; rc_Credentials : list (CredentialConfig Node) }.
Arguments mkRouteConfig {Node}. Arguments rc_Name {Node}. Arguments rc_Rules {Node}.
Arguments rc_Upstream {Node}. Arguments rc_Credentials {Node}.

(** ** The compiled gateway *)

Record credential := mkCredential {
  c_source : secretSource;
  c_inject : InjectConfig;
  c_require : bool;
  c_formatter : option (string -> option string);
}.
Record Route := mkRoute {
  rt_Name : string; rt_rules : list Rule; rt_upstream : ParsedURL; rt_credentials : list credential }.
Record t := mkGateway { routes : list Route }.

Record AppliedRoute := mkApplied {
  ap_Name : string; ap_Upstream : string; ap_RequestURL : string; ap_Injected : list string }.

Inductive gateway_error :=
  | NameRequired (i : nat) | DuplicateName (i : nat) (name : string) | RulesRequired (name : string)
  | BadRules (name : string) | UpstreamRequired (name : string) | UpstreamInvalid (name : string)
  | UpstreamScheme (name : string) | UpstreamHost (name : string) | UpstreamFragment (name : string)
  | BadSource (name : string) (i : nat) | InjectNone (name : string) (i : nat) | InjectBoth (name : string) (i : nat)
  | BadFormatter (name : string) (i : nat).

(** ** Compile *)

Section gateway.
Context `{UnicodeTables}.

Definition normalizeUpstream (routeName raw : string) : result gateway_error ParsedURL :=
  if is_empty raw then Err (UpstreamRequired routeName)
  else match url_Parse raw with
       | None => Err (UpstreamInvalid routeName)
       | Some p =>
         let u := p_url p in
         if negb (str_eqb (Scheme u) "http") && negb (str_eqb (Scheme u) "https") then Err (UpstreamScheme routeName)
         else if is_empty (URLHost u) then Err (UpstreamHost routeName)
         else if negb (is_empty (p_fragment p)) then Err (UpstreamFragment routeName)
         else Ok p
       end.

Definition validateInject (routeName : string) (i : nat) (cfg : InjectConfig) : option gateway_error :=
  let hasHeader := negb (is_empty (ic_Header cfg)) in
  let hasQuery := negb (is_empty (ic_QueryParam cfg)) in
  if negb hasHeader && negb hasQuery then Some (InjectNone routeName i)
  else if hasHeader && hasQuery then Some (InjectBoth routeName i)
  else None.

(** [templateFuncs]: the functions a formatter may call. *)
Definition templateFuncs : gmap string (list string -> string) :=
  {["base64" := fun parts => base64_EncodeToString (Join parts "")]}.

Section config.
Context {Node : Type}.
(** [secrets.BuildSource], and [text/template]: parsing a formatter with the
    functions it may call gives its effect on a value. *)
Variable BuildSource : Node -> option secretSource.
Variable template_Parse : gmap string (list string -> string) -> string -> option (string -> option string).

(** The loop body of [compileCredentials]. *)
Definition compile_credential (routeName : string) (i : nat) (cc : CredentialConfig Node) : result gateway_error credential :=
  match BuildSource (cc_Source cc) with
  | None => Err (BadSource routeName i)
  | Some src =>
    match validateInject routeName i (cc_Inject cc) with
    | Some err => Err err
    | None =>
      let cred := mkCredential src (cc_Inject cc) (default true (cc_Require cc)) in
      if negb (is_empty (ic_Formatter (cc_Inject cc))) then
        match template_Parse templateFuncs (ic_Formatter (cc_Inject cc)) with
        | None => Err (BadFormatter routeName i)
        | Some tmpl => Ok (cred (Some tmpl))
        end
      else Ok (cred None)
    end
  end.
Definition compileCredentials (routeName : string) (configs : list (CredentialConfig Node)) : result gateway_error (list credential) :=
  rmapi (compile_credential routeName) 0 configs.

(** The loop of [Compile]. *)
Fixpoint compile_routes (i : nat) (seen : gset string) (rcs : list (RouteConfig Node)) : result gateway_error (list Route) :=
  match rcs with
  | [] => Ok []
  | rc :: rest =>
    if is_empty (rc_Name rc) then Err (NameRequired i)
    else if bool_decide (rc_Name rc ∈ seen) then Err (DuplicateName i (rc_Name rc))
    else if length (rc_Rules rc) =? 0 then Err (RulesRequired (rc_Name rc))
    else match CompileRules (rc_Rules rc) with
         | Err _ => Err (BadRules (rc_Name rc))
         | Ok rules =>
           let* upstream := normalizeUpstream (rc_Name rc) (rc_Upstream rc) in
           let* creds := compileCredentials (rc_Name rc) (rc_Credentials rc) in
           let* rs := compile_routes (S i) ({[rc_Name rc]} ∪ seen) rest in
           Ok (mkRoute (rc_Name rc) rules upstream creds :: rs)
         end
  end.
Definition Compile (rcs : list (RouteConfig Node)) : result gateway_error (option t) :=
  if length rcs =? 0 then Ok None
  else let* rs := compile_routes 0 ∅ rcs in Ok (Some (mkGateway rs)).

(** [LoadFromNode]: no node is no gateway; [decode] is the YAML decoder. *)
Definition LoadFromNode {Doc : Type} (decode : Doc -> option (list (RouteConfig Node))) (node : option Doc)
    : option (result gateway_error (option t)) :=
  match node with
  | None => Some (Ok None)
  | Some d => Compile <$> decode d
  end.

End config.

(** ** Match and Apply *)

Definition Match (g : option t) (req : Request) : option Route :=
  match g with
  | None => None
  | Some g =>
    let host := StripPort (ReqHost req) in
    List.find (fun route => existsb (fun rule => Rule_Matches rule host (Method req) (Path (ReqURL req))) (rt_rules route))
              (routes g)
  end.

Definition mergeRawQuery (base request : string) : string :=
  if is_empty base then request else if is_empty request then base else base +:+ "&" +:+ request.

Definition formatCredential (tmpl : option (string -> option string)) (value : string) : option string :=
  match tmpl with None => Some value | Some f => f value end.

Definition with_query (u : URL) (q : string) : URL :=
  mkURL (Scheme u) (UserInfo u) (URLHost u) (Path u) (RawPath u) q.

(** One turn of the loop of [Apply]: [Err] is its error, with the request as
    it is then. *)
Definition apply_credential (cred : credential) (req : Request) : result unit (Request * list string) :=
  match src_Get (c_source cred) with
  | None => if c_require cred then Err tt else Ok (req, [])
  | Some value =>
    match formatCredential (c_formatter cred) value with
    | None => Err tt
    | Some value =>
      let name := src_Name (c_source cred) in
      if negb (is_empty (ic_Header (c_inject cred))) then
        Ok (set_ReqHeader req (header_Set (ReqHeader req) (ic_Header (c_inject cred)) value),
            [name +:+ ":header:" +:+ CanonicalHeaderKey (ic_Header (c_inject cred))])
      else
        let q := <[ic_QueryParam (c_inject cred) := [value]]> (ParseQuery (RawQuery (ReqURL req))).1 in
        Ok (set_ReqURL req (with_query (ReqURL req) (EncodeValues q)),
            [name +:+ ":query:" +:+ ic_QueryParam (c_inject cred)])
    end
  end.
Fixpoint apply_credentials (creds : list credential) (req : Request) (ids : list string)
    : result string (list string) * Request :=
  match creds with
  | [] => (Ok ids, req)
  | cred :: rest =>
    match apply_credential cred req with
    | Err _ => (Err (src_Name (c_source cred)), req)
    | Ok (req', id) => apply_credentials rest req' (ids ++ id)
    end
  end.

(** [Route.Apply] of a route; the request is changed in place, also before an
    error. *)
Definition Apply (r : Route) (req : Request) : result string AppliedRoute * Request :=
  let '(out, req') := apply_credentials (rt_credentials r) req [] in
  match out with
  | Err e => (Err e, req')
  | Ok ids =>
    let up := rt_upstream r in
    let query := mergeRawQuery (RawQuery (p_url up)) (RawQuery (ReqURL req')) in
    (Ok (mkApplied (rt_Name r) (url_String_force (p_forceQuery up) (p_url up))
           (url_String_force (p_forceQuery up) (with_query (p_url up) query)) ids), req')
  end.

(** ** What is compiled *)

Definition upstream_ok (p : ParsedURL) : Prop :=
  web_scheme (Scheme (p_url p)) /\ URLHost (p_url p) <> "" /\ rooted_url (p_url p) /\ p_fragment p = "" /\ p_opaque p = "".

Lemma normalizeUpstream_ok name raw p : normalizeUpstream name raw = Ok p -> url_Parse raw = Some p /\ upstream_ok p.
Proof.
  unfold normalizeUpstream. destruct (is_empty raw); [done|]. destruct (url_Parse raw) as [q|] eqn:Hq; [|done].
  destruct (negb _ && negb _) eqn:Hsc; [done|]. destruct (is_empty (URLHost _)) eqn:Hh; [done|].
  destruct (negb (is_empty (p_fragment q))) eqn:Hf; [done|]. intros [= ->]. split; [done|].
  apply is_empty_false in Hh. apply negb_false_iff, is_empty_true in Hf.
  assert (web_scheme (Scheme (p_url p))) as Hw.
  { apply andb_false_iff in Hsc as [Hsc|Hsc]; apply negb_false_iff, str_eqb_eq in Hsc; [by left|by right]. }
  destruct (url_Parse_rooted _ _ Hq Hh) as [Hr Ho]. by repeat split; try apply Hr.
Qed.

(** A compiled route stands for its configuration. *)
Section refines.
Context {Node : Type} (BuildSource : Node -> option secretSource)
        (template_Parse : gmap string (list string -> string) -> string -> option (string -> option string)).

Definition route_refines (rc : RouteConfig Node) (r : Route) : Prop :=
  rt_Name r = rc_Name rc /\ rc_Name rc <> "" /\ CompileRules (rc_Rules rc) = Ok (rt_rules r) /\
  url_Parse (rc_Upstream rc) = Some (rt_upstream r) /\ upstream_ok (rt_upstream r) /\
  compileCredentials BuildSource template_Parse (rc_Name rc) (rc_Credentials rc) = Ok (rt_credentials r).

Lemma compile_routes_refines i seen rcs rs :
  compile_routes BuildSource template_Parse i seen rcs = Ok rs ->
  Forall2 route_refines rcs rs /\ NoDup (map rc_Name rcs) /\ Forall (fun rc => rc_Name rc ∉ seen) rcs.
Proof.
  revert i seen rs. induction rcs as [|rc rcs IH]; intros i seen rs; cbn [compile_routes].
  { intros [= <-]. repeat constructor. }
  destruct (is_empty (rc_Name rc)) eqn:Hn; [done|]. case_bool_decide as Hseen; [done|].
  destruct (_ =? 0); [done|]. destruct (CompileRules (rc_Rules rc)) as [rules|] eqn:Hr; [|done].
  intros (up & Hup & (creds & Hc & (rs' & Hrs & [= <-])%rbind_Ok_inv)%rbind_Ok_inv)%rbind_Ok_inv.
  apply normalizeUpstream_ok in Hup as [Hp Hok]. apply is_empty_false in Hn.
  destruct (IH _ _ _ Hrs) as (Hall & Hnd & Hf). split; [constructor; [by repeat split; try apply Hok|done]|].
  rewrite list.Forall_forall in Hf. split; cbn [map].
  - constructor; [|done]. rewrite list_elem_of_fmap. intros (rc' & Heq & Hin). apply (Hf _ Hin). set_solver.
  - constructor; [done|]. apply list.Forall_forall. intros rc' Hin. specialize (Hf _ Hin). set_solver.
Qed.

Lemma Compile_routes rcs g :
  Compile BuildSource template_Parse rcs = Ok (Some g) ->
  Forall2 route_refines rcs (routes g) /\ NoDup (map rc_Name rcs).
Proof.
  unfold Compile. destruct (_ =? 0); [done|]. intros (rs & Hrs & [= <-])%rbind_Ok_inv.
  apply compile_routes_refines in Hrs as (Hall & Hnd & _). done.
Qed.
End refines.

(** ** Match *)

Lemma find_first {A} (f : A -> bool) l x :
  List.find f l = Some x -> exists i, l !! i = Some x /\ f x = true /\ forall j y, j < i -> l !! j = Some y -> f y = false.
Proof.
  induction l as [|y l IH]; cbn [List.find]; [done|]. destruct (f y) eqn:Hy.
  - intros [= ->]. exists 0. split; [done|]. split; [done|]. lia.
  - intros Hx. destruct (IH Hx) as (i & Hi & Hf & Hj). exists (S i). split; [done|]. split; [done|].
    intros [|j] z Hlt Hz; cbn in Hz; [congruence|]. apply (Hj j); [lia|done].
Qed.

Definition route_denotes {Node} (rc : RouteConfig Node) (req : Request) : Prop :=
  exists rule, rule ∈ rc_Rules rc /\ rule_denotes rule (StripPort (ReqHost req)) (Method req) (Path (ReqURL req)).

Lemma Match_first {Node} (BuildSource : Node -> option secretSource) template_Parse rcs g req r :
  Forall2 (route_refines BuildSource template_Parse) rcs (routes g) -> Match (Some g) req = Some r ->
  exists i rc, rcs !! i = Some rc /\ route_refines BuildSource template_Parse rc r /\ route_denotes rc req /\
    forall j rc', j < i -> rcs !! j = Some rc' -> ~ route_denotes rc' req.
Proof.
  intros Hall Hm. apply find_first in Hm as (i & Hi & Hf & Hj).
  assert (forall rc r', route_refines BuildSource template_Parse rc r' ->
    existsb (fun rule => Rule_Matches rule (StripPort (ReqHost req)) (Method req) (Path (ReqURL req))) (rt_rules r') = true
    <-> route_denotes rc req) as Hd.
  { intros rc r' (_ & _ & Hr & _). by apply CompileRules_matches. }
  destruct (Forall2_lookup_r _ _ _ _ _ Hall Hi) as (rc & Hrc & Href). exists i, rc.
  split; [done|]. split; [done|]. split; [by apply (Hd rc r)|]. intros j rc' Hlt Hrc'.
  destruct (Forall2_lookup_l _ _ _ _ _ Hall Hrc') as (r' & Hr' & Href').
  rewrite <- (Hd rc' r' Href'). by rewrite (Hj j r').
Qed.

(** ** Apply *)

(** The value a credential has to write, if it can be read and formatted. *)
Definition credential_value (c : credential) : option string := src_Get (c_source c) ≫= formatCredential (c_formatter c).
Definition writes_header (k : string) (c : credential) : option string :=
  if negb (is_empty (ic_Header (c_inject c))) && str_eqb (CanonicalHeaderKey (ic_Header (c_inject c))) k
  then credential_value c else None.
Definition writes_param (k : string) (c : credential) : option string :=
  if is_empty (ic_Header (c_inject c)) && str_eqb (ic_QueryParam (c_inject c)) k then credential_value c else None.
(** A credential may be left out only when its source is optional. *)
Definition credential_settled (c : credential) : Prop :=
  is_Some (credential_value c) \/ (src_Get (c_source c) = None /\ c_require c = false).

Definition query_values (q k : string) : list string := default [] ((ParseQuery q).1 !! k).
Definition written (new : option string) (old : list string) : list string :=
  match new with Some v => [v] | None => old end.

Definition same_route (req req' : Request) : Prop :=
  Method req' = Method req /\ ReqHost req' = ReqHost req /\ Path (ReqURL req') = Path (ReqURL req) /\
  ReqBody req' = ReqBody req /\ ReqContentLength req' = ReqContentLength req.

Lemma apply_credential_spec c req req' id :
  apply_credential c req = Ok (req', id) ->
  credential_settled c /\ same_route req req' /\
  (forall k, raw_values (ReqHeader req') k = written (writes_header k c) (raw_values (ReqHeader req) k)) /\
  (forall k, query_values (RawQuery (ReqURL req')) k = written (writes_param k c) (query_values (RawQuery (ReqURL req)) k)).
Proof.
  unfold apply_credential, credential_settled, writes_header, writes_param, credential_value.
  destruct (src_Get (c_source c)) as [v|] eqn:Hg; cbn [mbind option_bind].
  2:{ destruct (c_require c); [done|]. intros [= <- <-]. split; [by right|]. split; [done|]. split; intros k; by destruct (_ && _). }
  destruct (formatCredential (c_formatter c) v) as [w|]; [|done].
  destruct (negb (is_empty (ic_Header (c_inject c)))) eqn:Hh; intros [= <- <-]; (split; [by left; eauto|]); (split; [done|]).
  - apply negb_true_iff in Hh. rewrite Hh. cbn [negb andb]. split; [|done]. intros k.
    unfold raw_values, header_Set. cbn [ReqHeader set_ReqHeader].
    destruct (str_eqb _ _) eqn:Hk; [apply str_eqb_eq in Hk as <-; by rewrite lookup_insert_eq|].
    apply str_eqb_neq in Hk. by rewrite lookup_insert_ne.
  - apply negb_false_iff in Hh. rewrite Hh. cbn [negb andb]. split; [done|]. intros k.
    unfold query_values. cbn [ReqURL set_ReqURL RawQuery with_query]. rewrite (proj2 (ParseQuery_Encode _ k)).
    destruct (str_eqb _ _) eqn:Hk; [apply str_eqb_eq in Hk as <-; by rewrite lookup_insert_eq|].
    apply str_eqb_neq in Hk. by rewrite lookup_insert_ne.
Qed.

Lemma last_cons_default {A} (x : A) l : list.last (x :: l) = Some (default x (list.last l)).
Proof. revert x. induction l as [|y l IH]; intros x; [done|]. change (list.last (x :: y :: l)) with (list.last (y :: l)). by rewrite IH. Qed.

Lemma written_last (f : credential -> option string) c cs old :
  written (list.last (omap f (c :: cs))) old = written (list.last (omap f cs)) (written (f c) old).
Proof.
  cbn [omap list_omap]. destruct (f c) as [v|]; [|done]. rewrite last_cons_default. by destruct (list.last (omap f cs)).
Qed.

(** The last credential that writes a name wins; other names are untouched. *)
Lemma apply_credentials_spec cs req ids ids' req' :
  apply_credentials cs req ids = (Ok ids', req') ->
  Forall credential_settled cs /\ same_route req req' /\
  (forall k, raw_values (ReqHeader req') k = written (list.last (omap (writes_header k) cs)) (raw_values (ReqHeader req) k)) /\
  (forall k, query_values (RawQuery (ReqURL req')) k
             = written (list.last (omap (writes_param k) cs)) (query_values (RawQuery (ReqURL req)) k)).
Proof.
  revert req ids. induction cs as [|c cs IH]; intros req ids; cbn [apply_credentials].
  { intros [= <- <-]. by repeat split. }
  destruct (apply_credential c req) as [[r1 id]|] eqn:H1; [|done]. intros H2.
  apply apply_credential_spec in H1 as (Hs & Hr & Hh & Hq). apply IH in H2 as (Hs' & Hr' & Hh' & Hq').
  split; [by constructor|]. split.
  { destruct Hr as (? & ? & ? & ? & ?), Hr' as (? & ? & ? & ? & ?). repeat split; congruence. }
  split; intros k; rewrite written_last, ?Hh', ?Hq', ?Hh, ?Hq; done.
Qed.

Lemma Apply_Ok r req ap req' :
  Apply r req = (Ok ap, req') ->
  ap_Name ap = rt_Name r /\ apply_credentials (rt_credentials r) req [] = (Ok (ap_Injected ap), req') /\
  ap_RequestURL ap = url_String_force (p_forceQuery (rt_upstream r))
    (with_query (p_url (rt_upstream r)) (mergeRawQuery (RawQuery (p_url (rt_upstream r))) (RawQuery (ReqURL req')))).
Proof.
  unfold Apply. destruct (apply_credentials _ _ _) as [[ids|e] r']; [|done]. by intros [= <- <-].
Qed.

End gateway.

(** ** Properties *)

Section properties.
Context `{UnicodeTables} {Node : Type} (BuildSource : Node -> option secretSource)
        (template_Parse : gmap string (list string -> string) -> string -> option (string -> option string)).

(** C13: The client cannot choose where a gateway request goes.  When the
    compiled gateway routes a request and a request is built from the URL
    [Apply] returns, its scheme, user information, host (less an empty port)
    and path are those of the configured upstream of the first route one of
    whose rules denotes the request; only the query carries what the client
    sent, after the upstream's own. *)
Theorem gateway_destination rcs g req r ap req' u :
  Compile BuildSource template_Parse rcs = Ok (Some g) -> Match (Some g) req = Some r ->
  Apply r req = (Ok ap, req') -> request_url (ap_RequestURL ap) = Some u ->
  exists i rc p, rcs !! i = Some rc /\ ap_Name ap = rc_Name rc /\ route_denotes rc req /\
    (forall j rc', j < i -> rcs !! j = Some rc' -> ~ route_denotes rc' req) /\
    url_Parse (rc_Upstream rc) = Some p /\ URLHost (p_url p) <> "" /\
    Scheme u = Scheme (p_url p) /\ UserInfo u = user_String <$> UserInfo (p_url p) /\
    URLHost u = removeEmptyPort (URLHost (p_url p)) /\ Path u = Path (p_url p) /\ EscapedPath u = EscapedPath (p_url p) /\
    RawQuery u = sent_query (mergeRawQuery (RawQuery (p_url p)) (RawQuery (ReqURL req'))).
Proof.
  intros [Hall _]%Compile_routes Hm (Hn & _ & Hurl)%Apply_Ok Hu.
  destruct (Match_first _ _ _ _ _ _ Hall Hm) as (i & rc & Hi & (Hname & _ & _ & Hp & (Hw & Hh & Hr & _ & _) & _) & Hd & Hj).
  exists i, rc, (rt_upstream r). rewrite Hurl in Hu. apply request_url_String in Hu; [|done|done].
  split; [done|]. split; [congruence|]. do 4 (split; [done|]). exact Hu.
Qed.

(** A routed request carries the configured credentials and nothing of
    the client in their place.  When [Apply] succeeds every credential of the
    route was read and formatted, or is optional and unavailable; a header or
    query parameter written by credentials has as its only value the one of
    the last that writes it, whatever the client sent there; all other
    headers and parameters, the method, host, path and body are the
    client's. *)
Theorem gateway_credentials rcs g req r ap req' :
  Compile BuildSource template_Parse rcs = Ok (Some g) -> Match (Some g) req = Some r ->
  Apply r req = (Ok ap, req') ->
  exists rc creds, rc ∈ rcs /\ route_denotes rc req /\
    compileCredentials BuildSource template_Parse (rc_Name rc) (rc_Credentials rc) = Ok creds /\
    Forall credential_settled creds /\ same_route req req' /\
    (forall k, raw_values (ReqHeader req') k = written (list.last (omap (writes_header k) creds)) (raw_values (ReqHeader req) k)) /\
    (forall k, query_values (RawQuery (ReqURL req')) k
               = written (list.last (omap (writes_param k) creds)) (query_values (RawQuery (ReqURL req)) k)).
Proof.
  intros [Hall _]%Compile_routes Hm (_ & Ha & _)%Apply_Ok.
  destruct (Match_first _ _ _ _ _ _ Hall Hm) as (i & rc & Hi & (_ & _ & _ & _ & _ & Hc) & Hd & _).
  exists rc, (rt_credentials r). split; [by eapply list_elem_of_lookup_2|]. do 2 (split; [done|]).
  by apply apply_credentials_spec in Ha.
Qed.

End properties.

(** A gateway with a header and a query credential. *)
Definition example_source (n : nat) : option secretSource := Some (mkSource "env" (Some "s3cr3t")).
Definition example_template (fs : gmap string (list string -> string)) (f : string) : option (string -> option string) :=
  match fs !! "base64" with Some b64 => Some (fun v => Some ("Basic " +:+ b64 ["x:"; v])) | None => None end.
Definition example_routes : list (RouteConfig nat) :=
  [mkRouteConfig "linear" [mkRuleConfig "mcp.test" "" [] ["/linear"] []] "https://api.linear.test/mcp?v=1"
     [mkCredentialConfig 0 (mkInjectConfig "Authorization" "" "basic") None;
      mkCredentialConfig 1 (mkInjectConfig "" "key" "") (Some false)]].
Definition example_request : Request :=
  mkRequest "POST" "mcp.test:443" (mkURL "" None "" "/linear" "" "key=mine&a=b") {["Authorization" := ["Bearer mine"]]}
    (BufferedBody.NewBufferedBodyFromBytes []) 0%Z true.
Definition example_gateway : result gateway_error (option t) :=
  Compile (H := ascii_tables) example_source example_template example_routes.
Definition example_route : option Route :=
  match example_gateway with Ok g => Match (H := ascii_tables) g example_request | Err _ => None end.
Definition example_applied : option (result string AppliedRoute * Request) := flip Apply example_request <$> example_route.

Example gateway_ex :
  (fun a => match a.1 with Ok ap => ap_RequestURL ap | Err e => e end) <$> example_applied
    = Some "https://api.linear.test/mcp?v=1&a=b&key=s3cr3t"
  /\ (fun a => header_Values (ReqHeader a.2) "authorization") <$> example_applied = Some ["Basic eDpzM2NyM3Q="].
Proof. split; vm_compute; reflexivity. Qed.

Lemma example_built : exists g r ap req' u,
  example_gateway = Ok (Some g) /\ Match (H := ascii_tables) (Some g) example_request = Some r /\
  Apply r example_request = (Ok ap, req') /\ request_url (H := ascii_tables) (ap_RequestURL ap) = Some u.
Proof.
  assert (match example_applied with
          | Some (Ok ap, _) => bool_decide (is_Some (request_url (H := ascii_tables) (ap_RequestURL ap)))
          | _ => false
          end = true) as Hc by (vm_compute; reflexivity).
  unfold example_applied, example_route in Hc.
  destruct example_gateway as [[g|]|] eqn:Hg; [|discriminate Hc..].
  destruct (Match (Some g) example_request) as [r|] eqn:Hm; [|discriminate Hc]. cbn [fmap option_fmap option_map flip] in Hc.
  destruct (Apply r example_request) as [[ap|] req'] eqn:Ha; [|discriminate Hc].
  apply bool_decide_eq_true in Hc as [u Hu]. by exists g, r, ap, req', u.
Qed.

Lemma gateway_destination_witness : exists g r ap req' u,
  example_gateway = Ok (Some g) /\ Match (H := ascii_tables) (Some g) example_request = Some r /\
  Apply r example_request = (Ok ap, req') /\
  request_url (H := ascii_tables) (ap_RequestURL ap) = Some u /\ URLHost u = "api.linear.test" /\ Path u = "/mcp".
Proof.
  destruct example_built as (g & r & ap & req' & u & Hg & Hm & Ha & Hu). exists g, r, ap, req', u. do 4 (split; [done|]).
  destruct (gateway_destination (H := ascii_tables) example_source example_template example_routes g example_request r ap req' u
    Hg Hm Ha Hu) as ([|[]] & rc & p & Hi & _ & _ & _ & Hp & _ & _ & _ & Hh & Hpath & _); [|discriminate Hi..].
  injection Hi as <-. vm_compute in Hp. injection Hp as <-. split; [exact Hh | exact Hpath].
Defined.

Lemma gateway_credentials_witness : exists g r ap req',
  example_gateway = Ok (Some g) /\ Match (H := ascii_tables) (Some g) example_request = Some r /\
  Apply r example_request = (Ok ap, req') /\
  raw_values (ReqHeader req') "Authorization" = ["Basic eDpzM2NyM3Q="] /\ query_values (RawQuery (ReqURL req')) "key" = ["s3cr3t"].
Proof.
  destruct example_built as (g & r & ap & req' & u & Hg & Hm & Ha & _). exists g, r, ap, req'. do 3 (split; [done|]).
  destruct (gateway_credentials (H := ascii_tables) example_source example_template example_routes g example_request r ap req' Hg Hm Ha)
    as (rc & creds & Hin & _ & Hc & _ & _ & Hh & Hq).
  apply list_elem_of_singleton in Hin as ->. rewrite Hh, Hq.
  match type of Hc with ?x = _ => assert (match x with
          | Ok cs => list.last (omap (writes_header "Authorization") cs) = Some "Basic eDpzM2NyM3Q="
                     /\ list.last (omap (writes_param "key") cs) = Some "s3cr3t"
          | Err _ => True
          end) as Hv by (vm_compute; split; reflexivity) end.
  rewrite Hc in Hv. destruct Hv as [-> ->]. split; reflexivity.
Defined.

End Gateway.
