(* ===== verification/RetryHandler.v ===== *)
(** * The response retry handler (src/internal/responseretry/handler.go)

    A trusted service decides whether an upstream response is retried once
    with additional headers, and is told how the replay went.  A call of the
    handler's client is modelled by the request it sends and by the reply the
    network gives, which is a parameter; [http.Client] follows no redirect
    here, so a call is one round trip. *)
From stdpp Require Import base gmap strings list option.
From Stdlib Require Import ZArith Lia Ascii.
From S2P Require Import Prelude GoUtf8 GoStrings GoNet Body GoHttp GoUrl GoJson GoJsonParse McpRpc DnsGuard.
Local Open Scope string_scope.
Local Open Scope list_scope.
Local Open Scope Z_scope.

Module Retry.

Definition forbiddenRetryHeaders : list string :=
  ["Connection"; "Content-Length"; "Host"; "Keep-Alive"; "Proxy-Authorization"; "Proxy-Authenticate";
   "Proxy-Connection"; "Te"; "Trailer"; "Transfer-Encoding"; "Upgrade"].

(** Durations are nanoseconds. *)
Definition second : Z := 1000000000.
Definition defaultClientTimeout : Z := 10 * second.

Definition privateNetworks : list Prefix :=
  [mkPrefix (Addr4 0x0A000000) 8; mkPrefix (Addr4 0xAC100000) 12; mkPrefix (Addr4 0xC0A80000) 16;
   mkPrefix (Addr6 0xfc000000000000000000000000000000 "") 7].

(** ** Data *)

Record DecisionRequest := mkDecisionRequest {
  dq_Scheme : string; dq_Host : string; dq_Method : string; dq_Path : string; dq_Replayable : bool;
  dq_Status : Z; dq_ResponseHeaders : Header; dq_SandboxID : string; dq_Traceparent : string }.

Record DecisionResponse := mkDecisionResponse {
  dr_Retry : bool; dr_Headers : gmap string string; dr_AttemptID : string; dr_Traceparent : string }.

Record CompletionRequest := mkCompletionRequest {
  cq_AttemptID : string; cq_ReplayStatus : option Z; cq_ResponseHeaders : Header; cq_TransportError : string;
  cq_Traceparent : string; cq_ReplayDurationMS : Z; cq_ChargeDurationMS : Z }.

Record Decision := mkDecision { d_Headers : Header; d_AttemptID : string; d_Traceparent : string }.

(** [handlerTransport] with the dial hooks of its two transports, and a
    client: its transport, or one the caller gave, and its timeout. *)
Record handlerTransport := mkHandlerTransport {
  ht_guard : option Guard; ht_allowCIDRs : list Prefix; ht_allowedEndpoints : gset string }.
Inductive client_transport := CallerTransport | HandlerTransport (t : handlerTransport).
Record Client := mkClient { cl_Transport : client_transport; cl_Timeout : Z }.

Record Handler := mkHandler {
  h_authorizeEndpoint : ParsedURL;
  h_completeEndpoint : ParsedURL;
  h_token : string;
  h_sandboxID : string;
  h_statuses : gset Z;
  h_completionHeaders : gset string;
  h_client : Client;
}.

Record Options := mkOptions {
  o_AuthorizeEndpoint : string; o_CompleteEndpoint : string; o_Token : string; o_SandboxID : string;
  o_Statuses : list Z; o_AllowHTTP : bool; o_CompletionHeaders : list string; o_AllowCIDRs : list string;
  o_Guard : option Guard; o_ClientTimeout : Z; o_Client : option Client }.

Inductive retry_error :=
  | BadEndpoint | EndpointFragment | EndpointScheme
  | TokenRequired | SandboxRequired | BadStatus (status : Z) | NoStatuses
  | NotCIDRNotation (raw : string) | BadCIDR (raw : string) | NotPrivate (raw : string) | HasMetadata (raw : string)
  | BadCompletionHeader (name : string)
  | RequestFailed (what : string) | HandlerStatus (status : Z) | DecodeFailed
  | NotReplayable | NoAttemptID | BadTraceparent
  | BadHeaderName | BadHeaderValue (name : string) | ForbiddenHeader (name : string) | DuplicateHeader (name : string).

(** ** Small predicates *)

(** [hex.DecodeString]. *)
Fixpoint hex_decode (s : list Z) : option (list Z) :=
  match s with
  | [] => Some []
  | h :: l :: s' =>
    match hex_byte_value h, hex_byte_value l with
    | Some x, Some y => cons (x * 16 + y) <$> hex_decode s'
    | _, _ => None
    end
  | _ => None
  end.
Definition allZero (value : list Z) : bool := forallb (fun b => b =? 0) value.

Definition validTraceparent (value : string) : bool :=
  match Split value "-" with
  | [version; traceID; spanID; flags] =>
    str_eqb version "00" && (String.length traceID =? 32)%nat && (String.length spanID =? 16)%nat
    && (String.length flags =? 2)%nat
    && match hex_decode (bytes_of_string traceID), hex_decode (bytes_of_string spanID), hex_decode (bytes_of_string flags) with
       | Some t, Some s, Some _ => negb (allZero t) && negb (allZero s)
       | _, _, _ => false
       end
  | _ => false
  end.

Definition prefixWithin (prefix : Prefix) (networks : list Prefix) : bool :=
  existsb (fun network => (pfx_bits network <=? pfx_bits prefix) && prefix_contains network (pfx_addr prefix)) networks.
Definition prefixContains (prefixes : list Prefix) (addr : Addr) : bool :=
  existsb (fun prefix => prefix_contains prefix addr) prefixes.

Section retry.
Context `{UnicodeTables} `{MapRange}.

Definition isLoopback (host : string) : bool :=
  if EqualFold host "localhost" then true
  else match ParseAddr host with Some a => IsLoopback (Unmap a) | None => false end.

(** [selectedHeaders]. *)
Definition selectedHeaders (headers : Header) (allowed : gset string) : Header :=
  list_to_map (omap (fun name => match header_Values headers name with [] => None | vs => Some (name, vs) end)
                    (elements allowed)).

(** ** Configuration *)

Definition parseEndpoint (endpoint : string) (allowHTTP : bool) : result retry_error ParsedURL :=
  match url_Parse endpoint with
  | None => Err BadEndpoint
  | Some p =>
    let u := p_url p in
    if is_empty (Scheme u) || is_empty (URLHost u) || bool_decide (is_Some (UserInfo u)) then Err BadEndpoint
    else if negb (is_empty (p_fragment p)) then Err EndpointFragment
    else
      let httpAllowed := str_eqb (Scheme u) "http" && (allowHTTP || isLoopback (Hostname u)) in
      if negb (str_eqb (Scheme u) "https") && negb httpAllowed then Err EndpointScheme
      else Ok p
  end.

Definition parse_private_cidr (raw : string) : result retry_error Prefix :=
  let value := TrimSpace raw in
  if is_empty value || negb (Contains value "/") then Err (NotCIDRNotation raw)
  else match ParsePrefix value with
       | None => Err (BadCIDR raw)
       | Some prefix =>
         let prefix := Masked prefix in
         if negb (prefixWithin prefix privateNetworks) then Err (NotPrivate raw)
         else if ContainsMetadataAddress prefix then Err (HasMetadata raw)
         else Ok prefix
       end.
Definition parsePrivateCIDRs (cidrs : list string) : result retry_error (list Prefix) := rmap parse_private_cidr cidrs.

Definition NUL : string := String (ascii_of_byte 0) "".
Definition handlerEndpointKey (u : URL) : string :=
  let port := if negb (is_empty (Port u)) then Port u
              else if EqualFold (Scheme u) "https" then "443" else "80" in
  let path := if is_empty (EscapedPath u) then "/" else EscapedPath u in
  ToLower (Scheme u) +:+ NUL +:+ JoinHostPort (ToLower (Hostname u)) port +:+ NUL +:+ path +:+ NUL +:+ RawQuery u.

Definition newHandlerTransport (guard : option Guard) (allowCIDRs : list Prefix) (endpoints : list ParsedURL) : handlerTransport :=
  mkHandlerTransport guard allowCIDRs (list_to_set (map (fun p => handlerEndpointKey (p_url p)) endpoints)).

Definition hardenedClient (client : option Client) (guard : option Guard) (timeout : Z) (allowCIDRs : list Prefix)
    (endpoints : list ParsedURL) : Client :=
  let result := default (mkClient (HandlerTransport (newHandlerTransport guard allowCIDRs endpoints)) 0) client in
  mkClient (cl_Transport result)
    (if cl_Timeout result <=? 0 then (if timeout <=? 0 then defaultClientTimeout else timeout) else cl_Timeout result).

Fixpoint status_set (acc : gset Z) (statuses : list Z) : result retry_error (gset Z) :=
  match statuses with
  | [] => Ok acc
  | s :: rest => if (s <? 100) || (599 <? s) then Err (BadStatus s) else status_set ({[s]} ∪ acc) rest
  end.
Fixpoint completion_set (acc : gset string) (names : list string) : result retry_error (gset string) :=
  match names with
  | [] => Ok acc
  | n :: rest => if negb (ValidHeaderFieldName n) then Err (BadCompletionHeader n)
                 else completion_set ({[CanonicalHeaderKey n]} ∪ acc) rest
  end.

Definition New (opts : Options) : result retry_error Handler :=
  let* authorizeURL := parseEndpoint (o_AuthorizeEndpoint opts) (o_AllowHTTP opts) in
  let* completeURL := parseEndpoint (o_CompleteEndpoint opts) (o_AllowHTTP opts) in
  if is_empty (o_Token opts) then Err TokenRequired
  else if is_empty (o_SandboxID opts) then Err SandboxRequired
  else
    let* statusSet := status_set ∅ (o_Statuses opts) in
    if (size statusSet =? 0)%nat then Err NoStatuses
    else
      let* allowCIDRs := parsePrivateCIDRs (o_AllowCIDRs opts) in
      let* completionHeaders := completion_set ∅ (o_CompletionHeaders opts) in
      Ok (mkHandler authorizeURL completeURL (o_Token opts) (o_SandboxID opts) statusSet completionHeaders
            (hardenedClient (o_Client opts) (o_Guard opts) (o_ClientTimeout opts) allowCIDRs [authorizeURL; completeURL])).

(** ** Dialling *)

(** [handlerDialControl] and [loopbackOnlyDialControl]: [true] lets the dial
    go on. *)
Definition handlerDialControl (guard : option Guard) (allowCIDRs : list Prefix) (address : string) : bool :=
  let excepted :=
    match ParseAddr (dial_host address) with
    | Some addr => IsDenied guard (Unmap addr) && prefixContains allowCIDRs (Unmap addr)
    | None => false
    end in
  if excepted then true else negb (bool_decide (is_Some (DialControl guard address))).
Definition loopbackOnlyDialControl (address : string) : bool :=
  match ParseAddr (dial_host address) with Some a => IsLoopback (Unmap a) | None => false end.

(** Which of its transports [handlerTransport.RoundTrip] uses; [None] is its
    own refusal. *)
Inductive dialer := GuardedDialer | LoopbackDialer.
Definition RoundTrip (t : handlerTransport) (method : string) (u : URL) : option dialer :=
  if negb (bool_decide (handlerEndpointKey u ∈ ht_allowedEndpoints t)) || negb (str_eqb method "POST") then None
  else Some (if isLoopback (Hostname u) then LoopbackDialer else GuardedDialer).
Definition dial_allowed (t : handlerTransport) (d : dialer) (address : string) : bool :=
  match d with
  | GuardedDialer => handlerDialControl (ht_guard t) (ht_allowCIDRs t) address
  | LoopbackDialer => loopbackOnlyDialControl address
  end.

(** ** Messages *)

(** [json.Marshal] of a header map: keys sorted. *)
Definition marshal_header (h : Header) : string :=
  json_object (sort_entries (map (fun e => (e.1, json_array (map json_string e.2))) (map_to_list h))).
Definition marshal_bool (b : bool) : string := if b then "true" else "false".

Definition marshal_decision_request (q : DecisionRequest) : string :=
  json_object ([("scheme", json_string (dq_Scheme q)); ("host", json_string (dq_Host q));
                ("method", json_string (dq_Method q)); ("path", json_string (dq_Path q));
                ("replayable", marshal_bool (dq_Replayable q)); ("status", Itoa (dq_Status q));
                ("response_headers", marshal_header (dq_ResponseHeaders q)); ("sandbox_id", json_string (dq_SandboxID q))]
               ++ omit_empty "traceparent" (dq_Traceparent q) json_string).
Definition omit_zero (name : string) (v : Z) : list (string * string) := if v =? 0 then [] else [(name, Itoa v)].
Definition marshal_completion_request (q : CompletionRequest) : string :=
  json_object ([("attempt_id", json_string (cq_AttemptID q));
                ("replay_status", match cq_ReplayStatus q with Some s => Itoa s | None => "null" end);
                ("response_headers", marshal_header (cq_ResponseHeaders q))]
               ++ omit_empty "transport_error" (cq_TransportError q) json_string
               ++ omit_empty "traceparent" (cq_Traceparent q) json_string
               ++ omit_zero "replay_duration_ms" (cq_ReplayDurationMS q)
               ++ omit_zero "charge_duration_ms" (cq_ChargeDurationMS q)).

(** Decoding a [DecisionResponse]. *)
Definition set_bool (old : bool) (j : json) : option bool :=
  match j with JNull => Some old | JBool b => Some b | _ => None end.
Definition store_header_member (acc : option (gmap string string)) (e : string * json) : option (gmap string string) :=
  m ← acc; v ← set_string "" (snd e); Some (<[fst e := v]> m).
Definition set_header_map (old : gmap string string) (j : json) : option (gmap string string) :=
  match j with
  | JNull => Some ∅
  | JObj _ m => fold_left store_header_member m (Some old)
  | _ => None
  end.
Definition store_decision_member (acc : option DecisionResponse) (e : string * json) : option DecisionResponse :=
  match acc with
  | None => None
  | Some (mkDecisionResponse r hs a t) =>
    match struct_field ["retry"; "headers"; "attempt_id"; "traceparent"] (fst e) with
    | Some "retry" => (fun r' => mkDecisionResponse r' hs a t) <$> set_bool r (snd e)
    | Some "headers" => (fun hs' => mkDecisionResponse r hs' a t) <$> set_header_map hs (snd e)
    | Some "attempt_id" => (fun a' => mkDecisionResponse r hs a' t) <$> set_string a (snd e)
    | Some _ => (fun t' => mkDecisionResponse r hs a t') <$> set_string t (snd e)
    | None => Some (mkDecisionResponse r hs a t)
    end
  end.
Definition decision_of_json (j : json) : option DecisionResponse :=
  match j with
  | JNull => Some (mkDecisionResponse false ∅ "" "")
  | JObj _ m => fold_left store_decision_member m (Some (mkDecisionResponse false ∅ "" ""))
  | _ => None
  end.

(** [json.NewDecoder(r).Decode]: the first value of the stream; what follows
    it is not read.  A bare [null] is only known to end when something
    follows it, so a read error right behind it counts. *)
Definition Decode_first (r : Reader) : option json :=
  let s := rd_data r in
  match parse_value (2 * length s + 2) 0 (skip_ws s) with
  | Some (JNull, []) => match rd_err r with Some _ => None | None => Some JNull end
  | Some (v, _) => Some v
  | None => None
  end.

(** ** Calls *)

(** A request of the handler's client, always a POST, and what the network
    answers. *)
Record call := mkCall { call_URL : URL; call_Header : Header; call_Body : string }.
Record reply := mkReply { rp_StatusCode : Z; rp_Body : Reader; rp_Close : option string }.

Definition newRequest (h : Handler) (endpoint : ParsedURL) (payload : string) : option call :=
  u ← request_url (url_String_force (p_forceQuery endpoint) (p_url endpoint));
  Some (mkCall u (header_Set (header_Set ∅ "Authorization" ("Bearer " +:+ h_token h)) "Content-Type" "application/json") payload).

(** The client's transport lets the request through, or refuses it. *)
Definition client_accepts (c : Client) (r : call) : bool :=
  match cl_Transport c with
  | CallerTransport => true
  | HandlerTransport t => bool_decide (is_Some (RoundTrip t "POST" (call_URL r)))
  end.
(** [client.Do]: what is sent, and the outcome. *)
Definition client_Do (c : Client) (r : call) (net : result string reply) : list call * result string reply :=
  if client_accepts c r then ([r], net) else ([], Err "unconfigured").

(** ** Decide *)

(** The loop over the decision's headers. *)
Fixpoint check_headers (entries : list (string * string)) (headers : Header) : result retry_error Header :=
  match entries with
  | [] => Ok headers
  | (name, value) :: rest =>
    if negb (ValidHeaderFieldName name) then Err BadHeaderName
    else if negb (ValidHeaderFieldValue value) then Err (BadHeaderValue name)
    else
      let canonical := CanonicalHeaderKey name in
      if existsb (str_eqb canonical) forbiddenRetryHeaders then Err (ForbiddenHeader canonical)
      else match headers !! canonical with
           | Some _ => Err (DuplicateHeader canonical)
           | None => check_headers rest (header_Set headers canonical value)
           end
  end.

(** The part of [Decide] after the decision was decoded: [Ok None] is no
    replay. *)
Definition judge_decision (replayable : bool) (decision : DecisionResponse) : result retry_error (option Decision) :=
  if negb (dr_Retry decision) then Ok None
  else if negb replayable then Err NotReplayable
  else if is_empty (dr_AttemptID decision) then Err NoAttemptID
  else if negb (is_empty (dr_Traceparent decision)) && negb (validTraceparent (dr_Traceparent decision)) then Err BadTraceparent
  else let* headers := check_headers (map_range (dr_Headers decision)) ∅ in
       Ok (Some (mkDecision headers (dr_AttemptID decision) (dr_Traceparent decision))).

Definition read_limit : Z := Z.shiftl 64 10.

Definition decision_request (h : Handler) (req : Request) (resp : Response) (replayable : bool) : DecisionRequest :=
  let u := ReqURL req in
  mkDecisionRequest (Scheme u) (URLHost u) (Method req)
    (EscapedPath u +:+ (if is_empty (RawQuery u) then "" else "?" +:+ RawQuery u))
    replayable (StatusCode resp) (RespHeader resp) (h_sandboxID h) (header_Get (ReqHeader req) "Traceparent").

Definition Decide (h : Handler) (req : Request) (resp : Response) (replayable : bool) (net : call -> result string reply)
    : list call * result retry_error (option Decision) :=
  if negb (bool_decide (StatusCode resp ∈ h_statuses h)) then ([], Ok None)
  else
    match newRequest h (h_authorizeEndpoint h) (marshal_decision_request (decision_request h req resp replayable)) with
    | None => ([], Err (RequestFailed "create"))
    | Some r =>
      let '(sent, out) := client_Do (h_client h) r (net r) in
      (sent,
       match out with
       | Err e => Err (RequestFailed e)
       | Ok rep =>
         if negb (rp_StatusCode rep =? 200) then Err (HandlerStatus (rp_StatusCode rep))
         else match Decode_first (limit_reader read_limit (rp_Body rep)) ≫= decision_of_json with
              | None => Err DecodeFailed
              | Some decision => judge_decision replayable decision
              end
       end)
    end.

(** ** Complete *)

(** One attempt: [inl] ends the loop with an error or none, [inr] goes on. *)
Definition complete_attempt (out : result string reply) : option retry_error + retry_error :=
  match out with
  | Err e => inr (RequestFailed e)
  | Ok rep =>
    match rd_err (limit_reader read_limit (rp_Body rep)), rp_Close rep with
    | Some e, _ => inl (Some (RequestFailed e))
    | None, Some e => inl (Some (RequestFailed e))
    | None, None =>
      let s := rp_StatusCode rep in
      if (200 <=? s) && (s <? 300) then inl None
      else if s <? 500 then inl (Some (HandlerStatus s))
      else inr (HandlerStatus s)
    end
  end.
Fixpoint complete_loop (h : Handler) (payload : string) (net : nat -> call -> result string reply) (n : nat) (attempt : nat)
    (lastErr : option retry_error) : list call * option retry_error :=
  match n with
  | O => ([], lastErr)
  | S n' =>
    match newRequest h (h_completeEndpoint h) payload with
    | None => ([], Some (RequestFailed "create"))
    | Some r =>
      let '(sent, out) := client_Do (h_client h) r (net attempt r) in
      match complete_attempt out with
      | inl e => (sent, e)
      | inr e => let '(sent', e') := complete_loop h payload net n' (S attempt) (Some e) in (sent ++ sent', e')
      end
    end
  end.

(** [time.Duration.Milliseconds]. *)
Definition Milliseconds (d : Z) : Z := Z.quot d 1000000.

Definition completion_request (h : Handler) (attemptID : string) (resp : option Response) (transportError traceparent : string)
    (replayDuration chargeDuration : Z) : CompletionRequest :=
  mkCompletionRequest attemptID (StatusCode <$> resp)
    match resp with Some r => selectedHeaders (RespHeader r) (h_completionHeaders h) | None => ∅ end
    transportError traceparent (Milliseconds replayDuration) (Milliseconds chargeDuration).

Definition Complete (h : Handler) (attemptID : string) (resp : option Response) (transportError traceparent : string)
    (replayDuration chargeDuration : Z) (net : nat -> call -> result string reply) : list call * option retry_error :=
  complete_loop h (marshal_completion_request (completion_request h attemptID resp transportError traceparent replayDuration chargeDuration))
    net 2 0 None.

(** ** What a decision may add *)

Definition header_ok (e : string * string) : Prop :=
  ValidHeaderFieldName e.1 = true /\ ValidHeaderFieldValue e.2 = true /\ CanonicalHeaderKey e.1 ∉ forbiddenRetryHeaders.
Definition header_entry (e : string * string) : string * list string := (CanonicalHeaderKey e.1, [e.2]).

Lemma existsb_str x l : existsb (str_eqb x) l = true <-> x ∈ l.
Proof.
  rewrite existsb_elem. split; [intros (y & Hy & ->%str_eqb_eq); done | intros Hx; exists x; by rewrite str_eqb_refl].
Qed.

(** The loop succeeds exactly on permitted, distinct names, and yields them. *)
Lemma check_headers_spec entries hs hs' :
  check_headers entries hs = Ok hs' <->
  Forall header_ok entries /\ NoDup (map (fun e => CanonicalHeaderKey e.1) entries) /\
  Forall (fun e => hs !! CanonicalHeaderKey e.1 = None) entries /\ hs' = list_to_map (map header_entry entries) ∪ hs.
Proof.
  revert hs. induction entries as [|[name value] rest IH]; intros hs; cbn [check_headers map].
  { change (list_to_map []) with (∅ : Header). rewrite (left_id_L ∅ (∪)). split; [intros [= <-]; repeat constructor | by intros (_ & _ & _ & ->)]. }
  rewrite !list.Forall_cons, list.NoDup_cons. unfold header_ok, header_entry at 1. cbn [fst snd].
  destruct (ValidHeaderFieldName name); [|naive_solver]. destruct (ValidHeaderFieldValue value); [|naive_solver]. cbn [negb].
  destruct (existsb _ _) eqn:Hf; [apply existsb_str in Hf; naive_solver|].
  rewrite <- not_true_iff_false, existsb_str in Hf.
  destruct (hs !! CanonicalHeaderKey name) as [v|] eqn:Hd; [naive_solver|].
  rewrite IH. unfold header_Set. rewrite CanonicalHeaderKey_idem.
  assert (Forall (fun e => <[CanonicalHeaderKey name := [value]]> hs !! CanonicalHeaderKey e.1 = None) rest
    <-> Forall (fun e => hs !! CanonicalHeaderKey e.1 = None) rest /\
        CanonicalHeaderKey name ∉ map (fun e => CanonicalHeaderKey e.1) rest) as ->.
  { clear IH. rewrite !list.Forall_forall. split.
    - intros Hall. split; [intros e He | intros (e & Heq & He)%list_elem_of_fmap]; specialize (Hall e He).
      + by apply lookup_insert_None in Hall as [? _].
      + rewrite Heq, lookup_insert_eq in Hall. done.
    - intros [Hall Hn] e He. apply lookup_insert_None. split; [by apply Hall|]. intros Heq. apply Hn, list_elem_of_fmap. by exists e. }
  assert (forall (m : Header), CanonicalHeaderKey name ∉ map (fun e : string * string => CanonicalHeaderKey e.1) rest ->
    list_to_map (map header_entry rest) ∪ <[CanonicalHeaderKey name := [value]]> m
    = list_to_map (header_entry (name, value) :: map header_entry rest) ∪ m) as Hu.
  { intros m Hn. change (header_entry (name, value)) with (CanonicalHeaderKey name, [value]). rewrite list_to_map_cons, <- insert_union_l, <- insert_union_r; [done|].
    apply not_elem_of_list_to_map_1. rewrite <- list_fmap_compose. exact Hn. }
  split.
  - intros (Ho & Hnd & [Hall Hn] & ->). rewrite Hu by done. done.
  - intros ((_ & Ho) & (Hn & Hnd) & (_ & Hall) & ->). rewrite Hu by done. done.
Qed.

(** ** Facts: configuration *)

Lemma parseEndpoint_ok endpoint allowHTTP p :
  parseEndpoint endpoint allowHTTP = Ok p ->
  url_Parse endpoint = Some p /\ URLHost (p_url p) <> "" /\ UserInfo (p_url p) = None /\
  (Scheme (p_url p) = "https" \/ Scheme (p_url p) = "http" /\ (allowHTTP = true \/ isLoopback (Hostname (p_url p)) = true)).
Proof.
  unfold parseEndpoint. destruct (url_Parse endpoint) as [q|]; [|done].
  destruct (is_empty (Scheme (p_url q)) || is_empty (URLHost (p_url q)) || bool_decide (is_Some (UserInfo (p_url q)))) eqn:Hb; [done|].
  destruct (negb (is_empty (p_fragment q))); [done|].
  destruct (negb (str_eqb (Scheme (p_url q)) "https") && _) eqn:Hs; [done|]. intros [= ->].
  apply orb_false_iff in Hb as [[_ Hh]%orb_false_iff Hu]. apply is_empty_false in Hh. apply bool_decide_eq_false, eq_None_not_Some in Hu.
  do 3 (split; [done|]). apply andb_false_iff in Hs as [Hs|Hs]; apply negb_false_iff in Hs.
  - left. by apply str_eqb_eq.
  - right. apply andb_true_iff in Hs as [Hs%str_eqb_eq Hl%orb_true_iff]. done.
Qed.

Lemma parse_private_cidr_ok raw q addr :
  parse_private_cidr raw = Ok q -> prefix_contains q addr = true ->
  prefixContains privateNetworks addr = true /\ addr ∉ metadataAddresses.
Proof.
  unfold parse_private_cidr. destruct (_ || _); [done|]. destruct (ParsePrefix _) as [p0|]; [|done].
  destruct (negb (prefixWithin _ _)) eqn:Hw; [done|]. destruct (ContainsMetadataAddress _) eqn:Hm; [done|].
  intros [= Hq]. rewrite Hq in Hw, Hm. clear Hq. intros Hc. split.
  - apply negb_false_iff in Hw. unfold prefixWithin in Hw. unfold prefixContains. rewrite existsb_elem in Hw |- *.
    destruct Hw as (n & Hn & [Hb Hp]%andb_true_iff). exists n. split; [done|].
    apply (prefix_contains_nested q); [done | | by apply Z.leb_le | done].
    repeat (apply elem_of_cons in Hn as [->|Hn]; [done|]). by apply elem_of_nil in Hn.
  - intros Hin. assert (ContainsMetadataAddress q = true); [|congruence]. apply existsb_elem. by exists addr.
Qed.

Definition private_prefixes (ps : list Prefix) : Prop :=
  forall addr, prefixContains ps addr = true -> prefixContains privateNetworks addr = true /\ addr ∉ metadataAddresses.

Lemma parsePrivateCIDRs_private cidrs ps : parsePrivateCIDRs cidrs = Ok ps -> private_prefixes ps.
Proof.
  intros Hall%rmap_Ok addr Hc. unfold prefixContains in Hc. apply existsb_elem in Hc as (q & Hq & Hc).
  apply list_elem_of_lookup in Hq as [i Hi]. destruct (Forall2_lookup_r _ _ _ _ _ Hall Hi) as (raw & _ & Hr).
  by apply (parse_private_cidr_ok raw q).
Qed.

Lemma New_Ok opts h :
  New opts = Ok h ->
  parseEndpoint (o_AuthorizeEndpoint opts) (o_AllowHTTP opts) = Ok (h_authorizeEndpoint h) /\
  parseEndpoint (o_CompleteEndpoint opts) (o_AllowHTTP opts) = Ok (h_completeEndpoint h) /\
  h_token h = o_Token opts /\ h_token h <> "" /\
  exists cidrs, parsePrivateCIDRs (o_AllowCIDRs opts) = Ok cidrs /\
    h_client h = hardenedClient (o_Client opts) (o_Guard opts) (o_ClientTimeout opts) cidrs [h_authorizeEndpoint h; h_completeEndpoint h].
Proof.
  unfold New. intros (au & Ha & (co & Hc & Hn)%rbind_Ok_inv)%rbind_Ok_inv.
  destruct (is_empty (o_Token opts)) eqn:Ht; [done|]. destruct (is_empty (o_SandboxID opts)); [done|].
  apply rbind_Ok_inv in Hn as (st & _ & Hn). destruct (_ =? _)%nat; [done|].
  apply rbind_Ok_inv in Hn as (cidrs & Hp & (ch & _ & [= <-])%rbind_Ok_inv). apply is_empty_false in Ht. cbn. eauto 10.
Qed.

Lemma New_transport opts h t :
  New opts = Ok h -> o_Client opts = None -> cl_Transport (h_client h) = HandlerTransport t ->
  exists cidrs, parsePrivateCIDRs (o_AllowCIDRs opts) = Ok cidrs /\
    t = newHandlerTransport (o_Guard opts) cidrs [h_authorizeEndpoint h; h_completeEndpoint h].
Proof.
  intros (_ & _ & _ & _ & cidrs & Hp & Hc)%New_Ok Hn Ht. exists cidrs. split; [done|].
  rewrite Hc in Ht. unfold hardenedClient in Ht. rewrite Hn in Ht. cbn in Ht. by injection Ht as <-.
Qed.

Lemma handlerDialControl_denied g cidrs address addr :
  handlerDialControl g cidrs address = true -> ParseAddr (dial_host address) = Some addr -> IsDenied g addr = true ->
  prefixContains cidrs (Unmap addr) = true.
Proof.
  unfold handlerDialControl. intros Hc Hp Hd. rewrite Hp, IsDenied_Unmap, Hd in Hc. cbn [andb] in Hc.
  destruct (prefixContains cidrs (Unmap addr)); [done|]. apply negb_true_iff, bool_decide_eq_false in Hc.
  destruct Hc. apply DialControl_denies. eauto.
Qed.

(** ** Facts: calls *)

Lemma newRequest_url h endpoint payload r :
  newRequest h endpoint payload = Some r ->
  request_url (url_String_force (p_forceQuery endpoint) (p_url endpoint)) = Some (call_URL r) /\
  call_Body r = payload /\ header_Values (call_Header r) "Authorization" = ["Bearer " +:+ h_token h].
Proof.
  unfold newRequest. destruct (request_url _) as [u|]; [|done]. cbn [mbind option_bind]. intros [= <-].
  split; [done|]. split; [done|]. unfold header_Values, raw_values, header_Set. cbn [call_Header].
  change (CanonicalHeaderKey "Authorization") with "Authorization". change (CanonicalHeaderKey "Content-Type") with "Content-Type".
  rewrite lookup_insert_ne by done. by rewrite lookup_insert_eq.
Qed.

Lemma judge_decision_Some replayable dec d :
  judge_decision replayable dec = Ok (Some d) ->
  dr_Retry dec = true /\ replayable = true /\ dr_AttemptID dec <> "" /\
  (dr_Traceparent dec = "" \/ validTraceparent (dr_Traceparent dec) = true) /\
  d_AttemptID d = dr_AttemptID dec /\ d_Traceparent d = dr_Traceparent dec /\
  Forall header_ok (map_range (dr_Headers dec)) /\ NoDup (map (fun e => CanonicalHeaderKey e.1) (map_range (dr_Headers dec))) /\
  d_Headers d = list_to_map (map header_entry (map_range (dr_Headers dec))).
Proof.
  unfold judge_decision. destruct (dr_Retry dec); [|done]. destruct replayable; [|done]. cbn [negb].
  destruct (is_empty (dr_AttemptID dec)) eqn:Ha; [done|]. apply is_empty_false in Ha.
  destruct (negb (is_empty _) && _) eqn:Ht; [done|].
  intros (hs & (Ho & Hn & _ & ->)%check_headers_spec & [= <-])%rbind_Ok_inv. cbn [d_Headers d_AttemptID d_Traceparent].
  rewrite (right_id_L ∅ (∪)). repeat split; try done.
  apply andb_false_iff in Ht as [Ht|Ht]; apply negb_false_iff in Ht; [left; by apply is_empty_true | by right].
Qed.

Lemma Decide_inv h req resp replayable net sent d :
  Decide h req resp replayable net = (sent, Ok (Some d)) -> StatusCode resp ∈ h_statuses h /\ replayable = true.
Proof.
  unfold Decide. case_bool_decide as Hst; cbn [negb]; [|done]. destruct (newRequest h _ _) as [r|]; [|done].
  unfold client_Do. destruct (client_accepts (h_client h) r); [|done]. destruct (net r) as [rep|]; [|done].
  destruct (negb _); [done|]. destruct (Decode_first _ ≫= decision_of_json) as [dec|]; [|done].
  by intros [= <- (_ & Hr & _)%judge_decision_Some].
Qed.

(** The headers of a decision, whatever order the map was read in. *)
Lemma decision_headers (m : gmap string string) k vs :
  NoDup (map (fun e => CanonicalHeaderKey e.1) (map_range m)) ->
  (list_to_map (map header_entry (map_range m)) : Header) !! k = Some vs <->
  exists name v, m !! name = Some v /\ k = CanonicalHeaderKey name /\ vs = [v].
Proof.
  intros Hnd. rewrite <- elem_of_list_to_map by (rewrite <- list_fmap_compose; exact Hnd).
  rewrite list_elem_of_fmap. split.
  - intros ([name v] & [= -> ->] & Hin%map_range_lookup). by exists name, v.
  - intros (name & v & Hm & -> & ->). exists (name, v). split; [done|]. by apply map_range_lookup.
Qed.

Lemma Decide_headers h req resp replayable net sent d k :
  Decide h req resp replayable net = (sent, Ok (Some d)) -> is_Some (d_Headers d !! k) ->
  CanonicalHeaderKey k = k /\ k ∉ forbiddenRetryHeaders.
Proof.
  unfold Decide. destruct (negb _); [done|]. destruct (newRequest h _ _) as [r|]; [|done].
  unfold client_Do. destruct (client_accepts (h_client h) r); [|done]. destruct (net r) as [rep|]; [|done].
  destruct (negb _); [done|]. destruct (Decode_first _ ≫= decision_of_json) as [dec|]; [|done].
  intros [= <- (_ & _ & _ & _ & _ & _ & Hok & Hnd & Hhs)%judge_decision_Some] [vs Hvs].
  rewrite Hhs in Hvs. apply decision_headers in Hvs as (name & v & Hm & -> & _); [|done].
  split; [apply CanonicalHeaderKey_idem|]. rewrite list.Forall_forall in Hok.
  by destruct (Hok (name, v)) as (_ & _ & Hf); [apply map_range_lookup|].
Qed.

(** ** Reaching the endpoints *)

Lemma TrimSuffix_id s t : HasSuffix s t = false -> TrimSuffix s t = s.
Proof. unfold TrimSuffix. by intros ->. Qed.

Lemma handlerEndpointKey_ext u v :
  Scheme u = Scheme v -> URLHost u = URLHost v -> EscapedPath u = EscapedPath v -> RawQuery u = RawQuery v ->
  handlerEndpointKey u = handlerEndpointKey v.
Proof. intros Hs Hh Hp Hq. unfold handlerEndpointKey, Port, Hostname. by rewrite Hs, Hh, Hp, Hq. Qed.

Lemma endpoint_key_printed endpoint allowHTTP p h payload r :
  parseEndpoint endpoint allowHTTP = Ok p -> HasSuffix (URLHost (p_url p)) ":" = false ->
  newRequest h p payload = Some r -> handlerEndpointKey (call_URL r) = handlerEndpointKey (p_url p).
Proof.
  intros (Hp & Hh & Hn & Hs)%parseEndpoint_ok Hc (Hu & _ & _)%newRequest_url.
  assert (web_scheme (Scheme (p_url p))) as Hw by (destruct Hs as [->|[-> _]]; [by right | by left]).
  apply request_url_String in Hu as (Hs' & _ & Hh' & _ & He & Hq); [|done | by apply (url_Parse_rooted _ _ Hp)].
  apply handlerEndpointKey_ext; [done | | done | by rewrite Hq, (url_Parse_query _ _ Hp)].
  rewrite Hh'. unfold removeEmptyPort. rewrite TrimSuffix_id by done. by destruct (hasPort _).
Qed.

End retry.

(** ** Properties *)

Section properties.
Context `{UnicodeTables} `{MapRange}.

(** C14: A replay is authorized only by the trusted service and only within
    bounds.  When [Decide] returns a decision, the response status is a
    configured one and the exact body can be replayed; one request was sent,
    to the authorize endpoint with the handler's token; the service answered
    200 and its first JSON value asks for a retry with a non-empty attempt
    id and an absent or well-formed traceparent; and the decision's headers
    are exactly the returned ones, under canonical names, one value each,
    syntactically valid, and none that frames or routes the request.  This
    holds for every order the returned map is read in. *)
Theorem Decide_authorizes h req resp replayable net sent d :
  Decide h req resp replayable net = (sent, Ok (Some d)) ->
  StatusCode resp ∈ h_statuses h /\ replayable = true /\
  exists r rep dec, sent = [r] /\
    request_url (url_String_force (p_forceQuery (h_authorizeEndpoint h)) (p_url (h_authorizeEndpoint h))) = Some (call_URL r) /\
    header_Values (call_Header r) "Authorization" = ["Bearer " +:+ h_token h] /\
    net r = Ok rep /\ rp_StatusCode rep = 200 /\
    Decode_first (limit_reader read_limit (rp_Body rep)) ≫= decision_of_json = Some dec /\
    dr_Retry dec = true /\ d_AttemptID d = dr_AttemptID dec /\ d_AttemptID d <> "" /\
    d_Traceparent d = dr_Traceparent dec /\ (d_Traceparent d = "" \/ validTraceparent (d_Traceparent d) = true) /\
    (forall k vs, d_Headers d !! k = Some vs <->
       exists name v, dr_Headers dec !! name = Some v /\ k = CanonicalHeaderKey name /\ vs = [v]) /\
    (forall name v, dr_Headers dec !! name = Some v ->
       ValidHeaderFieldName name = true /\ ValidHeaderFieldValue v = true /\ CanonicalHeaderKey name ∉ forbiddenRetryHeaders).
Proof.
  unfold Decide. case_bool_decide as Hst; cbn [negb]; [|done].
  destruct (newRequest h _ _) as [r|] eqn:Hr; [|done]. apply newRequest_url in Hr as (Hu & _ & Hau).
  unfold client_Do. destruct (client_accepts (h_client h) r); [|done].
  destruct (net r) as [rep|] eqn:Hnet; [|done]. destruct (Z.eqb_spec (rp_StatusCode rep) 200) as [H200|]; [|done]. cbn [negb].
  destruct (Decode_first _ ≫= decision_of_json) as [dec|] eqn:Hdec; [|done]. intros [= <- Hj].
  apply judge_decision_Some in Hj as (Hretry & Hrep & Hid & Htp & Hdid & Hdt & Hok & Hnd & Hhs).
  split; [done|]. split; [done|]. exists r, rep, dec. rewrite Hdid, Hdt, Hhs. do 11 (split; [done|]). split.
  - intros k vs. by apply decision_headers.
  - intros name v Hm. rewrite list.Forall_forall in Hok. by apply (Hok (name, v)), map_range_lookup.
Qed.

(** The handler's own client cannot be steered into the network.  The
    client [New] builds posts only to the configured endpoints; an endpoint
    whose host is not a loopback name reaches a denied address only inside a
    configured private range, and never a metadata address; a loopback
    endpoint reaches loopback addresses only. *)
Theorem handler_dials_contained opts h t method u d address addr :
  New opts = Ok h -> o_Client opts = None -> cl_Transport (h_client h) = HandlerTransport t ->
  RoundTrip t method u = Some d -> dial_allowed t d address = true -> ParseAddr (dial_host address) = Some addr ->
  method = "POST" /\
  handlerEndpointKey u ∈ [handlerEndpointKey (p_url (h_authorizeEndpoint h)); handlerEndpointKey (p_url (h_completeEndpoint h))] /\
  match d with
  | LoopbackDialer => isLoopback (Hostname u) = true /\ IsLoopback (Unmap addr) = true
  | GuardedDialer => IsDenied (o_Guard opts) addr = true ->
      prefixContains privateNetworks (Unmap addr) = true /\ Unmap addr ∉ metadataAddresses
  end.
Proof.
  intros Hn Ho Ht Hrt Hd Hp. destruct (New_transport _ _ _ Hn Ho Ht) as (cidrs & Hc & ->).
  unfold RoundTrip in Hrt. cbn [ht_allowedEndpoints newHandlerTransport] in Hrt.
  destruct (negb (bool_decide _) || negb (str_eqb method "POST")) eqn:Hg; [done|].
  apply orb_false_iff in Hg as [Hk%negb_false_iff%bool_decide_eq_true Hm%negb_false_iff%str_eqb_eq].
  split; [done|]. split; [set_solver|].
  destruct (isLoopback (Hostname u)) eqn:Hl; injection Hrt as <-; cbn [dial_allowed] in Hd.
  - split; [done|]. unfold loopbackOnlyDialControl in Hd. by rewrite Hp in Hd.
  - intros Hden. apply (parsePrivateCIDRs_private _ _ Hc). by eapply handlerDialControl_denied.
Qed.

(** The handler reaches its own endpoints: a request to a configured
    endpoint (whose host does not end in a bare colon) is never refused by
    the allow list of the handler's transport, although the list is checked
    on the printed and reparsed URL. *)
Theorem handler_reaches_endpoints opts h t endpoint payload r :
  New opts = Ok h -> o_Client opts = None -> cl_Transport (h_client h) = HandlerTransport t ->
  endpoint = h_authorizeEndpoint h \/ endpoint = h_completeEndpoint h ->
  HasSuffix (URLHost (p_url endpoint)) ":" = false -> newRequest h endpoint payload = Some r ->
  client_accepts (h_client h) r = true.
Proof.
  intros Hn Ho Ht He Hc Hr. destruct (New_transport _ _ _ Hn Ho Ht) as (cidrs & _ & ->).
  destruct (New_Ok _ _ Hn) as (Ha & Hco & _). unfold client_accepts. rewrite Ht. apply bool_decide_eq_true.
  assert (handlerEndpointKey (call_URL r) = handlerEndpointKey (p_url endpoint)) as Hk.
  { destruct He as [-> | ->]; by eapply endpoint_key_printed. }
  unfold RoundTrip. cbn [ht_allowedEndpoints newHandlerTransport].
  rewrite bool_decide_true by (rewrite Hk; destruct He as [-> | ->]; set_solver). cbn. eauto.
Qed.

(** A replay is reported at most twice.  [Complete] sends the same
    request at most two times, only to the complete endpoint with the
    handler's token, the second time only when the first failed in transport
    or with a server error; and it reports success only when a sent attempt
    was answered with a 2xx status. *)
Theorem Complete_bounded h attemptID resp transportError traceparent rd cd net sent e :
  Complete h attemptID resp transportError traceparent rd cd net = (sent, e) ->
  (length sent <= 2)%nat /\
  (forall r, r ∈ sent ->
     newRequest h (h_completeEndpoint h)
       (marshal_completion_request (completion_request h attemptID resp transportError traceparent rd cd)) = Some r) /\
  (length sent = 2%nat -> exists r e0, sent = [r; r] /\ complete_attempt (net O r) = inr e0) /\
  (e = None -> exists k r rep, (k < 2)%nat /\ r ∈ sent /\ net k r = Ok rep /\ 200 <= rp_StatusCode rep < 300).
Proof.
  unfold Complete. cbn [complete_loop].
  destruct (newRequest h _ _) as [r|]; [|intros [= <- <-]; repeat split; [cbn; lia | set_solver | done | done]].
  unfold client_Do. destruct (client_accepts (h_client h) r).
  2:{ cbn. intros [= <- <-]. repeat split; [cbn; lia | set_solver | done | done]. }
  assert (forall k, complete_attempt (net k r) = inl None -> exists rep, net k r = Ok rep /\ 200 <= rp_StatusCode rep < 300) as Hok.
  { intros k. unfold complete_attempt. destruct (net k r) as [rep|]; [|done].
    destruct (rd_err _); [done|]. destruct (rp_Close rep); [done|].
    destruct (_ && _) eqn:Hs; [|by destruct (_ <? 500)]. intros _. exists rep. split; [done|].
    apply andb_true_iff in Hs as [?%Z.leb_le ?%Z.ltb_lt]. lia. }
  destruct (complete_attempt (net O r)) as [e0|e0] eqn:Hfst.
  - intros [= <- <-]. split; [cbn; lia|]. split; [set_solver|]. split; [done|]. intros ->.
    destruct (Hok O Hfst) as (rep & Hrep & Hst). exists O, r, rep. split; [lia|]. split; [set_solver|done].
  - destruct (complete_attempt (net 1%nat r)) as [e1|e1] eqn:Hsnd; cbn; intros [= <- <-];
      (split; [cbn; lia|]); (split; [set_solver|]); (split; [eauto|]); [|done].
    intros ->. destruct (Hok 1%nat Hsnd) as (rep & Hrep & Hst). exists 1%nat, r, rep. split; [lia|]. split; [set_solver|done].
Qed.

End properties.
(** ** Witnesses *)

Definition quoted (s : string) : list Z := map (fun b => if b =? 39 then 34 else b) (bytes_of_string s).
Definition example_guard : Guard := mkGuard [mkPrefix (Addr4 0x0A000000) 8; mkPrefix (Addr4 0x7F000000) 8].
Definition example_options : Options :=
  mkOptions "https://broker.test/authorize?v=1" "http://127.0.0.1:9000/complete" "tok" "sb-1" [402] false
    ["x-receipt"] ["10.1.0.0/16"] (Some example_guard) 0 None.
Definition example_New : result retry_error Handler := New (H := ascii_tables) example_options.
Definition example_reply : reply :=
  mkReply 200 (mkReader (quoted "{'retry':true,'attempt_id':'a1','headers':{'x-pay':'v1'}} trailing") None) None.
Definition example_upstream_req : Request :=
  mkRequest "POST" "api.test" (mkURL "https" None "api.test" "/v1" "" "") ∅ (BufferedBody.NewBufferedBodyFromBytes []) 0 true.
Definition example_402 : Response := mkResponse 402 ∅ (BufferedBody.NewBufferedBodyFromBytes []) 0.

Lemma example_New_ok : exists h t, example_New = Ok h /\ cl_Transport (h_client h) = HandlerTransport t /\
  newRequest (H := ascii_tables) h (h_authorizeEndpoint h) "" <> None /\
  URLHost (p_url (h_authorizeEndpoint h)) = "broker.test" /\
  match Decide (H := ascii_tables) (H0 := default_range) h example_upstream_req example_402 true (fun _ => Ok example_reply) with
  | ([_], Ok (Some d)) => d_Headers d = {["X-Pay" := ["v1"]]} /\ d_AttemptID d = "a1"
  | _ => False
  end.
Proof.
  destruct example_New as [h|e] eqn:Hn; [|vm_compute in Hn; discriminate Hn]. vm_compute in Hn. injection Hn as <-.
  do 2 eexists. split; [reflexivity|]. split; [reflexivity|]. split; [vm_compute; discriminate|].
  split; [reflexivity|]. vm_compute. split; reflexivity.
Qed.

Lemma Decide_authorizes_witness : exists h r d,
  example_New = Ok h /\
  Decide (H := ascii_tables) (H0 := default_range) h example_upstream_req example_402 true (fun _ => Ok example_reply) = ([r], Ok (Some d)) /\
  402 ∈ h_statuses h /\ header_Values (call_Header r) "Authorization" = ["Bearer " +:+ h_token h].
Proof.
  destruct example_New_ok as (h & t & Hh & _ & _ & _ & Hd).
  destruct (Decide h example_upstream_req example_402 true _) as [[|r [|]] [[d|]|]] eqn:HD; try done.
  exists h, r, d. split; [done|]. split; [done|].
  destruct (Decide_authorizes (H := ascii_tables) (H0 := default_range) h example_upstream_req example_402 true (fun _ => Ok example_reply)
    [r] d HD) as (Hs & _ & r' & rep & dec & [= <-] & _ & Ha & _). split; [exact Hs | exact Ha].
Defined.

Lemma handler_dials_contained_witness : exists h t u,
  example_New = Ok h /\ cl_Transport (h_client h) = HandlerTransport t /\ u = p_url (h_authorizeEndpoint h) /\
  dial_allowed t GuardedDialer "10.1.2.3:443" = true /\
  prefixContains privateNetworks (Addr4 0x0A010203) = true /\ Addr4 0x0A010203 ∉ metadataAddresses.
Proof.
  destruct example_New as [h|e] eqn:Hn; [|vm_compute in Hn; discriminate Hn].
  assert (exists t, cl_Transport (h_client h) = HandlerTransport t /\ dial_allowed t GuardedDialer "10.1.2.3:443" = true
    /\ RoundTrip (H := ascii_tables) t "POST" (p_url (h_authorizeEndpoint h)) = Some GuardedDialer) as (t & Ht & Hd & Hr).
  { vm_compute in Hn. injection Hn as <-. eexists. split; [reflexivity|]. split; vm_compute; reflexivity. }
  exists h, t, (p_url (h_authorizeEndpoint h)). do 4 (split; [done|]).
  destruct (handler_dials_contained (H := ascii_tables) example_options h t "POST" (p_url (h_authorizeEndpoint h)) GuardedDialer
    "10.1.2.3:443" (Addr4 0x0A010203) Hn eq_refl Ht Hr Hd ltac:(vm_compute; reflexivity)) as (_ & _ & Hc).
  apply Hc. vm_compute. reflexivity.
Defined.

Lemma handler_reaches_endpoints_witness : exists h r,
  example_New = Ok h /\ newRequest (H := ascii_tables) h (h_authorizeEndpoint h) "{}" = Some r /\
  client_accepts (H := ascii_tables) (h_client h) r = true.
Proof.
  destruct example_New as [h|e] eqn:Hn; [|vm_compute in Hn; discriminate Hn].
  assert (exists t r, cl_Transport (h_client h) = HandlerTransport t /\
    newRequest (H := ascii_tables) h (h_authorizeEndpoint h) "{}" = Some r /\
    HasSuffix (URLHost (p_url (h_authorizeEndpoint h))) ":" = false) as (t & r & Ht & Hr & Hc).
  { vm_compute in Hn. injection Hn as <-. do 2 eexists. split; [reflexivity|]. split; vm_compute; reflexivity. }
  exists h, r. split; [done|]. split; [done|].
  exact (handler_reaches_endpoints (H := ascii_tables) example_options h t (h_authorizeEndpoint h) "{}" r Hn eq_refl Ht (or_introl eq_refl) Hc Hr).
Defined.

Definition example_net (k : nat) (_ : call) : result string reply :=
  match k with O => Err "reset" | _ => Ok (mkReply 204 (mkReader [] None) None) end.
Lemma Complete_bounded_witness : exists h sent e,
  example_New = Ok h /\
  Complete (H := ascii_tables) h "a1" (Some example_402) "" "" 5 7
    example_net = (sent, e) /\
  length sent = 2%nat /\ e = None /\ exists r e0, sent = [r; r] /\ complete_attempt (Err "reset") = inr e0.
Proof.
  destruct example_New as [h|e] eqn:Hn; [|vm_compute in Hn; discriminate Hn].
  destruct (Complete (H := ascii_tables) h "a1" (Some example_402) "" "" 5 7 example_net) as [sent e] eqn:Hc.
  exists h, sent, e. split; [done|]. split; [exact Hc|].
  assert (length sent = 2%nat /\ e = None) as [Hl He].
  { vm_compute in Hn. injection Hn as <-. vm_compute in Hc. by injection Hc as <- <-. }
  split; [done|]. split; [done|].
  destruct (Complete_bounded (H := ascii_tables) h "a1" (Some example_402) "" "" 5 7 example_net sent e Hc) as (_ & _ & H2 & _).
  exact (H2 Hl).
Defined.

End Retry.
