(* ===== verification/ProxyHttp.v ===== *)
(** * The proxy's HTTP plumbing (src/internal/proxy/proxy.go)

    The helpers around [handleHTTP]: what is copied from the client's request
    to the upstream one, what is written back, and the small decisions. *)
From stdpp Require Import base gmap strings list option.
From Stdlib Require Import ZArith Lia Ascii.
From S2P Require Import Prelude GoUtf8 GoStrings GoNet Body GoHttp GoUrl GoJson GoRegexp.
From S2P Require Import Transform AuditLog ScrubPairs Secrets ScrubMatch ScrubResponse.
Local Open Scope string_scope.
Local Open Scope list_scope.
Local Open Scope Z_scope.

Definition StatusOK : Z := 200.
Definition StatusSwitchingProtocols : Z := 101.
Definition StatusBadRequest : Z := 400.
Definition StatusForbidden : Z := 403.
Definition StatusBadGateway : Z := 502.
Definition StatusServiceUnavailable : Z := 503.

(** ** Header maps *)

(** [http.Header.Add]. *)
Definition header_Add (h : Header) (k v : string) : Header :=
  <[CanonicalHeaderKey k := raw_values h (CanonicalHeaderKey k) ++ [v]]> h.
Definition header_Add_all (h : Header) (k : string) (vs : list string) : Header := foldl (fun h v => header_Add h k v) h vs.

Section headers.
Context `{UnicodeTables} `{MapRange}.

Definition copyHeaders (dst src : Header) : Header := foldl (fun h e => header_Add_all h e.1 e.2) dst (map_range src).

Definition headerHasToken (h : Header) (name token : string) : bool :=
  existsb (fun v => existsb (fun t => EqualFold (TrimSpace t) token) (Split v ",")) (header_Values h name).
Definition isWebSocketUpgrade (h : Header) : bool :=
  EqualFold (header_Get h "Upgrade") "websocket" && headerHasToken h "Connection" "upgrade".

Definition hopByHopHeaders : list string :=
  ["Connection"; "Proxy-Connection"; "Keep-Alive"; "Proxy-Authenticate"; "Proxy-Authorization"; "Te"; "Trailer";
   "Transfer-Encoding"; "Upgrade"].

(** The trimmed, non-empty comma-separated values of a header. *)
Definition list_values (h : Header) (name : string) : list string :=
  List.filter (fun t => negb (is_empty t)) (concat (map (fun v => map TrimSpace (Split v ",")) (header_Values h name))).

Definition sanitizeUpstreamHeaders (h : Header) : Header :=
  let connectionTokens := list_values h "Connection" in
  let keepTrailers := headerHasToken h "Te" "trailers" in
  let h := foldl header_Del h hopByHopHeaders in
  let h := foldl header_Del h connectionTokens in
  if keepTrailers then header_Set h "Te" "trailers" else h.

(** ** Small decisions *)

Definition isSSE (h : Header) : bool := HasPrefix (header_Get h "Content-Type") "text/event-stream".

Definition containsDotSegments (p : string) : bool :=
  existsb (fun seg => str_eqb seg "." || str_eqb seg "..") (Split p "/").

Definition responseRetryEligible (contentLength : Z) (h : Header) : bool :=
  if (contentLength <? 0) || isWebSocketUpgrade h then false
  else negb (HasPrefix (ToLower (TrimSpace (cut_or (header_Get h "Content-Type") ";").1)) "application/grpc").

(** [getCertificate] before the cache is asked: the name to mint for. *)
Definition getCertificate (haveCache : bool) (serverName : string) : option string :=
  if negb haveCache then None else if is_empty serverName then None else Some serverName.

(** [prepareReplayBody] on a body that is read through [Reader]: the body to
    send, and the bytes to replay when it fits the limit.  [Err] is a read
    error; closing a [NopCloser] cannot fail. *)
Definition prepareReplayBody (body : Reader) (contentLength limit : Z) : result string (Reader * option (list Z)) :=
  if (limit <=? 0) || (limit <? contentLength) then Ok (body, None)
  else
    let head := limit_reader (limit + 1) body in
    match rd_err head with
    | Some e => Err e
    | None =>
      let replayBody := rd_data head in
      if limit <? Z.of_nat (length replayBody)
      then Ok (mkReader (replayBody ++ drop (length replayBody) (rd_data body)) (rd_err body), None)
      else Ok (mkReader replayBody None, Some replayBody)
    end.

(** ** The audit record *)

(** [beginPipelineRun] before anything is known but the request. *)
Definition new_result (host method path remoteAddr sni : string) (mode : TransformMode) (tunnel : option TunnelInfo) : PipelineResult :=
  mkPipelineResult host method path remoteAddr sni mode 0 ActionContinue 0 tunnel [] [] None None None false.
Definition set_outcome (r : PipelineResult) (a : TransformAction) (status : Z) (err : option string) : PipelineResult :=
  mkPipelineResult (pres_Host r) (pres_Method r) (pres_Path r) (pres_RemoteAddr r) (pres_SNI r) (pres_Mode r) (pres_Duration r)
    a status (pres_Tunnel r) (pres_RequestTransforms r) (pres_ResponseTransforms r) (pres_MCP r) (pres_BodyCapture r) err (pres_ClientCanceled r).
Definition set_request_traces (r : PipelineResult) (l : list TransformTrace) (c : option BodyCaptureData) : PipelineResult :=
  mkPipelineResult (pres_Host r) (pres_Method r) (pres_Path r) (pres_RemoteAddr r) (pres_SNI r) (pres_Mode r) (pres_Duration r)
    (pres_Action r) (pres_StatusCode r) (pres_Tunnel r) l (pres_ResponseTransforms r) (pres_MCP r) c (pres_Err r) (pres_ClientCanceled r).
Definition set_response_traces (r : PipelineResult) (l : list TransformTrace) : PipelineResult :=
  mkPipelineResult (pres_Host r) (pres_Method r) (pres_Path r) (pres_RemoteAddr r) (pres_SNI r) (pres_Mode r) (pres_Duration r)
    (pres_Action r) (pres_StatusCode r) (pres_Tunnel r) (pres_RequestTransforms r) l (pres_MCP r) (pres_BodyCapture r) (pres_Err r) (pres_ClientCanceled r).
Definition set_mcp (r : PipelineResult) (m : option MCPAudit) : PipelineResult :=
  mkPipelineResult (pres_Host r) (pres_Method r) (pres_Path r) (pres_RemoteAddr r) (pres_SNI r) (pres_Mode r) (pres_Duration r)
    (pres_Action r) (pres_StatusCode r) (pres_Tunnel r) (pres_RequestTransforms r) (pres_ResponseTransforms r) m (pres_BodyCapture r)
    (pres_Err r) (pres_ClientCanceled r).
Definition set_canceled (r : PipelineResult) : PipelineResult :=
  mkPipelineResult (pres_Host r) (pres_Method r) (pres_Path r) (pres_RemoteAddr r) (pres_SNI r) (pres_Mode r) (pres_Duration r)
    ActionContinue StatusOK (pres_Tunnel r) (pres_RequestTransforms r) (pres_ResponseTransforms r) (pres_MCP r) (pres_BodyCapture r)
    (pres_Err r) true.

Definition markNotReady (r : PipelineResult) : PipelineResult :=
  set_request_traces (set_outcome r ActionReject StatusServiceUnavailable (pres_Err r))
    (pres_RequestTransforms r
     ++ [mkTrace "ready" ActionReject 0 None (Some {["reason" := AStr "awaiting_control_plane_config"]})])
    (pres_BodyCapture r).

(** [markIfClientCancel]: the marked record when the client is gone.
    [ctxCanceled] is [errors.Is(r.Context().Err(), context.Canceled)] and
    [errCanceled] the same test of the error. *)
Definition markIfClientCancel (ctxCanceled errCanceled : bool) (r : PipelineResult) : option PipelineResult :=
  if negb ctxCanceled && negb errCanceled then None else Some (set_canceled r).

(** [cloneTunnelInfo] copies deeply; a model value is never shared. *)
Definition cloneTunnelInfo (info : option TunnelInfo) : option TunnelInfo :=
  (fun i => mkTunnel (Target i) (map (fun t => mkTrace (tr_Name t) (tr_Action t) (tr_Duration t) (tr_Err t) (tr_Annotations t))
                                    (TunnelTransforms i))) <$> info.

(** ** Writing responses *)

(** What the client is sent: status, headers, body and the headers added
    after it. *)
Record ClientResponse := mkClientResponse {
  cr_StatusCode : Z; cr_Header : Header; cr_Body : Reader; cr_Trailer : Header }.

(** [http.Error] on a fresh response writer. *)
Definition http_Error (message : string) (code : Z) : ClientResponse :=
  mkClientResponse code
    {["Content-Type" := ["text/plain; charset=utf-8"]; "X-Content-Type-Options" := ["nosniff"]]}
    (mkReader (bytes_of_string (message +:+ string_of_bytes [10])) None) ∅.

Definition notReadyMessage : string := "proxy is not ready: awaiting control-plane config".
Definition notReadyResponse : Response :=
  mkResponse StatusServiceUnavailable {["Content-Type" := ["text/plain; charset=utf-8"]]}
    (BufferedBody.NewBufferedBody (Some (mkReader (bytes_of_string (notReadyMessage +:+ string_of_bytes [10])) None)) 0) 0.

Context `{Regexp}.

(** [copyResponseHeaders] and [writeTrailers]; [origin] is the request the
    response answers, whose context holds what to mask. *)
Definition copyResponseHeaders (origin : option State) (h : Header) (trailer : Header) : Header :=
  let h := copyHeaders ∅ h in
  let h := if (size trailer =? 0)%nat then h else header_Del h "Content-Length" in
  foldl (fun h e => header_Add h "Trailer" (MaskResponseText origin e.1)) h (map_range trailer).
Definition TrailerPrefix : string := "Trailer:".
Definition writeTrailers (origin : option State) (trailer : Header) : Header :=
  foldl (fun h e => foldl (fun h v => header_Add h (TrailerPrefix +:+ MaskResponseText origin e.1) (MaskResponseText origin v)) h e.2)
        ∅ (map_range trailer).

Definition writeResponse (origin : option State) (resp : Response) (trailer : Header) : ClientResponse :=
  let h := copyResponseHeaders origin (RespHeader resp) trailer in
  let n := BufferedBody.Len (RespBody resp) in
  let h := if (0 <=? n) && (size trailer =? 0)%nat then header_Set h "Content-Length" (Itoa n) else h in
  mkClientResponse (StatusCode resp) h (BufferedBody.StreamingReader (RespBody resp)).1 (writeTrailers origin trailer).

Definition streamSSE (origin : option State) (status : Z) (header : Header) (reader : Reader) (trailer : Header) : ClientResponse :=
  mkClientResponse status (copyResponseHeaders origin header trailer) reader (writeTrailers origin trailer).

(** ** What is forwarded *)

Definition canonical_keys (h : Header) : Prop := forall k, is_Some (h !! k) -> CanonicalHeaderKey k = k.

Lemma header_Add_canonical h k v : canonical_keys h -> canonical_keys (header_Add h k v).
Proof.
  intros Hh k' Hk'. unfold header_Add in Hk'. destruct (decide (CanonicalHeaderKey k = k')) as [<-|Hne].
  - apply CanonicalHeaderKey_idem.
  - rewrite lookup_insert_ne in Hk' by done. by apply Hh.
Qed.
Lemma header_Add_all_canonical h k vs : canonical_keys h -> canonical_keys (header_Add_all h k vs).
Proof. revert h. induction vs as [|v vs IH]; intros h Hh; [done|]. apply IH. by apply header_Add_canonical. Qed.
Lemma foldl_Add_canonical l h : canonical_keys h -> canonical_keys (foldl (fun h (e : string * list string) => header_Add_all h e.1 e.2) h l).
Proof. revert h. induction l as [|e l IH]; intros h Hh; [done|]. apply IH. by apply header_Add_all_canonical. Qed.
Lemma copyHeaders_canonical src : canonical_keys (copyHeaders ∅ src).
Proof. apply foldl_Add_canonical. intros k [v Hv]. by rewrite lookup_empty in Hv. Qed.

Lemma foldl_Del_lookup l h k : foldl header_Del h l !! k = if bool_decide (k ∈ map CanonicalHeaderKey l) then None else h !! k.
Proof.
  revert h. induction l as [|n l IH]; intros h; cbn [foldl map]; [done|]. rewrite IH. unfold header_Del.
  destruct (decide (CanonicalHeaderKey n = k)) as [<-|Hne].
  - rewrite lookup_delete_eq. rewrite (bool_decide_true (_ ∈ _ :: _)) by set_solver. by case_bool_decide.
  - rewrite lookup_delete_ne by done. case_bool_decide; case_bool_decide; set_solver.
Qed.

Lemma sanitize_lookup h k :
  sanitizeUpstreamHeaders h !! k =
  if bool_decide (k = "Te") && headerHasToken h "Te" "trailers" then Some ["trailers"]
  else if bool_decide (k ∈ hopByHopHeaders) || bool_decide (k ∈ map CanonicalHeaderKey (list_values h "Connection")) then None
  else h !! k.
Proof.
  assert (foldl header_Del (foldl header_Del h hopByHopHeaders) (list_values h "Connection") !! k =
    if bool_decide (k ∈ hopByHopHeaders) || bool_decide (k ∈ map CanonicalHeaderKey (list_values h "Connection")) then None else h !! k) as Hl.
  { rewrite foldl_Del_lookup, (foldl_Del_lookup hopByHopHeaders h k).
    change (map CanonicalHeaderKey hopByHopHeaders) with hopByHopHeaders. by repeat case_bool_decide. }
  unfold sanitizeUpstreamHeaders. destruct (headerHasToken h "Te" "trailers").
  - unfold header_Set. change (CanonicalHeaderKey "Te") with "Te". destruct (decide (k = "Te")) as [->|Hk].
    + by rewrite lookup_insert_eq.
    + rewrite lookup_insert_ne, (bool_decide_false (k = "Te")) by done. exact Hl.
  - rewrite andb_false_r. exact Hl.
Qed.

(** What is forwarded is under canonical names, and nothing of it belongs to
    the client's connection but [TE: trailers]. *)
Lemma forwarded_clean src :
  let h := sanitizeUpstreamHeaders (copyHeaders ∅ src) in
  canonical_keys h /\
  (forall k vs, k ∈ hopByHopHeaders -> h !! k = Some vs -> k = "Te" /\ vs = ["trailers"]) /\
  (forall t, t ∈ list_values (copyHeaders ∅ src) "Connection" -> forall vs, h !! CanonicalHeaderKey t = Some vs ->
     CanonicalHeaderKey t = "Te" /\ vs = ["trailers"]).
Proof.
  cbn zeta. split; [|split].
  - intros k. rewrite sanitize_lookup. destruct (decide (k = "Te")) as [->|Hk]; [done|].
    rewrite (bool_decide_false (k = "Te")) by done. cbn [andb].
    destruct (_ || _); [by intros [? ?]|]. apply copyHeaders_canonical.
  - intros k vs Hin. rewrite sanitize_lookup. rewrite (bool_decide_true (k ∈ hopByHopHeaders)) by done. cbn [orb].
    destruct (_ && _) eqn:Hte; [|done]. apply andb_true_iff in Hte as [Hk _]. apply bool_decide_eq_true in Hk. by intros [= <-].
  - intros t Ht vs. rewrite sanitize_lookup.
    rewrite (bool_decide_true (_ ∈ map CanonicalHeaderKey _)) by (apply list_elem_of_fmap; by exists t). rewrite orb_true_r.
    destruct (_ && _) eqn:Hte; [|done]. apply andb_true_iff in Hte as [Hk _]. apply bool_decide_eq_true in Hk. by intros [= <-].
Qed.

(** Values under one spelling only are copied as they are. *)
Lemma header_Add_all_lookup h k vs k' :
  raw_values (header_Add_all h k vs) k' = raw_values h k' ++ (if str_eqb (CanonicalHeaderKey k) k' then vs else []).
Proof.
  revert h. induction vs as [|v vs IH]; intros h.
  { cbn [header_Add_all foldl]. destruct (str_eqb _ _); by rewrite app_nil_r. }
  change (header_Add_all h k (v :: vs)) with (header_Add_all (header_Add h k v) k vs). rewrite IH. unfold raw_values at 1, header_Add. destruct (str_eqb (CanonicalHeaderKey k) k') eqn:Hk.
  - apply str_eqb_eq in Hk as <-. rewrite lookup_insert_eq. cbn [default from_option]. unfold id. by rewrite <- app_assoc.
  - apply str_eqb_neq in Hk. by rewrite lookup_insert_ne.
Qed.

Definition variant_values (k : string) (e : string * list string) : list string :=
  if str_eqb (CanonicalHeaderKey e.1) k then e.2 else [].

(** The forwarded values of a name are those of all its spellings. *)
Lemma copyHeaders_values src k :
  raw_values (copyHeaders ∅ src) k = concat (map (variant_values k) (map_range src)).
Proof.
  unfold copyHeaders. assert (forall l h, raw_values (foldl (fun h (e : string * list string) => header_Add_all h e.1 e.2) h l) k
    = raw_values h k ++ concat (map (variant_values k) l)) as Hg.
  { induction l as [|e l IH]; intros h; cbn [foldl map concat]; [by rewrite app_nil_r|].
    rewrite IH, header_Add_all_lookup, <- app_assoc. done. }
  by rewrite Hg.
Qed.

(** ** Replay bodies *)

Lemma prepareReplayBody_same body contentLength limit body' rb :
  prepareReplayBody body contentLength limit = Ok (body', rb) ->
  rd_data body' = rd_data body /\ rd_err body' = rd_err body /\
  match rb with
  | Some b => b = rd_data body /\ rd_err body = None /\ Z.of_nat (length b) <= limit
  | None => True
  end.
Proof.
  unfold prepareReplayBody. destruct (_ || _) eqn:Hl; [by intros [= <- <-]|].
  apply orb_false_iff in Hl as [Hpos%Z.leb_gt Hcl%Z.ltb_ge]. unfold limit_reader.
  destruct (Z.ltb_spec (Z.of_nat (length (rd_data body))) (limit + 1)) as [Hs|Hs].
  - destruct (rd_err body) as [e|] eqn:He; [done|]. destruct (Z.ltb_spec limit (Z.of_nat (length (rd_data body)))); [lia|].
    intros [= <- <-]. cbn. repeat split; try done; lia.
  - cbn [rd_err rd_data]. rewrite length_take, Nat.min_l by lia. destruct (Z.ltb_spec limit (Z.of_nat (Z.to_nat (limit + 1)))); [|lia].
    intros [= <- <-]. cbn. by rewrite take_drop.
Qed.

End headers.
