(* ===== verification/Proxy.v ===== *)
(** * The request handler (src/internal/proxy/proxy.go, websocket.go)

    [handleHTTP] takes a request from the checks on its host and path through
    the transforms, the MCP gate and gateway, the send boundary, the response
    retry and the response transforms to what the client is sent and what is
    audited.  What the code meets outside itself is a [World]: the upstream's
    answers, the retry service's answers, the clocks, the configured pipeline
    at each send, and whether the client has gone away at each check.  Writes
    to the client are taken to succeed. *)
From stdpp Require Import base gmap strings list option.
From Stdlib Require Import ZArith Lia Ascii.
From S2P Require Import Prelude GoUtf8 GoStrings GoNet Body GoHttp GoUrl GoJson GoRegexp HostMatch.
From S2P Require Import Transform AuditLog DnsGuard PrivateConn ScrubPairs Secrets SecretsSafety ScrubMatch ScrubResponse ProxySend.
From S2P Require Import McpRpc McpTrace McpPolicy McpSse McpIntercept McpGateway RetryHandler ProxyHttp.
Local Open Scope string_scope.
Local Open Scope list_scope.
Local Open Scope Z_scope.

Module Proxy.

(** ** The world *)

(** A request as the server hands it over; [in_TLS] is the connection's
    ServerName. *)
Record Incoming := mkIncoming {
  in_Method : string; in_Host : string; in_URL : URL; in_Header : Header; in_Body : option Reader;
  in_ContentLength : Z; in_TLS : option string; in_RemoteAddr : string }.

Section handler.
Context `{UnicodeTables} `{Regexp} `{MapRange}.

(** A request to the upstream.  Its body is [og_Body]; the body field of the
    request record is not used. *)
Record Outgoing := mkOutgoing { og_state : State; og_Body : Reader }.
Record Upstream := mkUpstream {
  up_StatusCode : Z; up_Header : Header; up_Body : Reader; up_ContentLength : Z; up_Trailer : Header }.
Record World := mkWorld {
  w_ready : bool;
  w_canceled : nat -> bool;                       (* r.Context() is canceled, at the n-th check *)
  w_errCanceled : string -> bool;                 (* errors.Is(err, context.Canceled) *)
  w_elapsed : nat -> Z;                           (* of the request transforms *)
  w_elapsed_response : nat -> Z;
  w_duration : Z;                                 (* of the whole run *)
  w_now : nat -> Z;                               (* the clock at the n-th destination check *)
  w_pipeline : nat -> Pipeline (option requestScrubs);  (* the holder's pipeline at the n-th send *)
  w_proxy : nat -> option (result string (option string));
  w_net : nat -> Outgoing -> result string Upstream;
  w_authorize : Retry.call -> result string Retry.reply;
  w_complete : nat -> Retry.call -> result string Retry.reply;
  w_replayDuration : Z;
  w_chargeDuration : Z;
  (* the WebSocket library: the handshake request it sends for a URL, headers,
     host and subprotocols; whether it accepts the answer, with the
     subprotocol, or the body it keeps of a refused one; what it then reads
     from the upstream, and the close frame at the end; whether it accepts
     the client *)
  w_wsRequest : string -> Header -> string -> list string -> State -> Outgoing;
  w_wsVerify : Outgoing -> Upstream -> result Reader string;
  w_wsMessages : list (Z * Reader);
  w_wsClose : option (Z * string);
  w_wsAccept : Header -> list string -> bool;
}.

(** [Proxy], as far as a request sees it: the pipeline snapshot, the MCP
    policy and gateway snapshots, the retry handler. *)
Record ProxyConfig := mkProxyConfig {
  px_pipeline : Pipeline (option requestScrubs);
  px_mcpPolicy : option Policy;
  px_mcpGateway : option Gateway.t;
  px_retry : option Retry.Handler;
}.

(** What handling a request comes to: the response written, if any, the audit
    record emitted, if any, the requests given to a transport, in order, and the calls of
    the retry service.  [hd_panic] is a panic of the MCP policy, which the
    server recovers by dropping the connection. *)
Record Handled := mkHandled {
  hd_client : option ClientResponse;
  hd_audit : option PipelineResult;
  hd_sent : list Outgoing;
  hd_calls : list Retry.call;
  hd_panic : bool;
  hd_relayed : list (Z * Reader);               (* WebSocket messages to the client *)
  hd_closed : option (Z * string);              (* and the close frame *)
}.
Definition refused (c : ClientResponse) : Handled := mkHandled (Some c) None [] [] false [] None.

Variable w : World.
Variable px : ProxyConfig.

Definition finish (r : PipelineResult) : option PipelineResult :=
  Some (mkPipelineResult (pres_Host r) (pres_Method r) (pres_Path r) (pres_RemoteAddr r) (pres_SNI r) (pres_Mode r) (w_duration w)
    (pres_Action r) (pres_StatusCode r) (pres_Tunnel r) (pres_RequestTransforms r) (pres_ResponseTransforms r) (pres_MCP r)
    (pres_BodyCapture r) (pres_Err r) (pres_ClientCanceled r)).

Definition answered (c : ClientResponse) (r : PipelineResult) (sent : list Outgoing) (calls : list Retry.call) : Handled :=
  mkHandled (Some c) (finish r) sent calls false [] None.

(** The error branches: nothing is written when the client is gone, else 502. *)
Definition fail (site : nat) (err : string) (errCanceled : bool) (r : PipelineResult) (sent : list Outgoing) (calls : list Retry.call) : Handled :=
  match markIfClientCancel (w_canceled w site) errCanceled r with
  | Some r' => mkHandled None (finish r') sent calls false [] None
  | None => answered (http_Error "bad gateway" StatusBadGateway)
              (set_outcome r ActionContinue StatusBadGateway (Some err)) sent calls
  end.

(** [p.RoundTrip] for the [k]-th send: what is given to a transport, and the
    outcome. *)
Definition send_upstream (k : nat) (o : Outgoing) : result string Upstream * list Outgoing :=
  match RoundTrip (w_now w (S k)) (w_proxy w k) (w_pipeline w k) (og_state o) with
  | SendRefused => (Err "send refused", [])
  | SendShared | SendDirect => (w_net w k o, [o])
  end.

(** ** Building the upstream request *)

(** [http.NewRequestWithContext] from the client's request as the transforms
    left it, with its headers copied and sanitized; [None] is its error.  An
    empty method means GET. *)
Definition request_method (method : string) : string := if is_empty method then "GET" else method.
Definition build_upstream (s : State) (url : string) : option Outgoing :=
  if negb (ValidHeaderFieldName (request_method (Method (rq s)))) then None
  else
    u ← request_url url;
    let body := ReqBody (rq s) in
    let n := BufferedBody.Len body in
    Some (mkOutgoing
      (mkReqState (mkRequest (request_method (Method (rq s))) (URLHost u) u (sanitizeUpstreamHeaders (copyHeaders ∅ (ReqHeader (rq s))))
                     (BufferedBody.NewBufferedBodyFromBytes []) (if 0 <=? n then n else ReqContentLength (rq s)) false)
                  (rctx s))
      (BufferedBody.StreamingReader body).1).

Definition upstream_url (scheme host : string) (s : State) : string :=
  let u := ReqURL (rq s) in
  url_String (mkURL scheme None host (Path u) (RawPath u) (RawQuery u)).

Definition set_og_length (o : Outgoing) (n : Z) : Outgoing :=
  let r := rq (og_state o) in
  mkOutgoing (with_req (og_state o) (mkRequest (Method r) (ReqHost r) (ReqURL r) (ReqHeader r) (ReqBody r) n (ReqTLS r))) (og_Body o).
Definition set_og_body (o : Outgoing) (b : Reader) : Outgoing := mkOutgoing (og_state o) b.

(** ** The response retry *)

(** The replayed request: the exact body, the decision's headers in place of
    those of the same name. *)
Definition replay_headers (h : Header) (d : Retry.Decision) : Header :=
  let h := foldl (fun h e => header_Add_all (header_Del h e.1) e.1 e.2) h (map_range (Retry.d_Headers d)) in
  if is_empty (Retry.d_Traceparent d) then h else header_Set h "Traceparent" (Retry.d_Traceparent d).
Definition replay_request (o : Outgoing) (replayBody : list Z) (d : Retry.Decision) : Outgoing :=
  let r := rq (og_state o) in
  mkOutgoing (with_req (og_state o)
    (mkRequest (Method r) (ReqHost r) (ReqURL r) (replay_headers (ReqHeader r) d) (ReqBody r) (Z.of_nat (length replayBody)) (ReqTLS r)))
    (mkReader replayBody None).

Definition upstream_response (u : Upstream) : Response :=
  mkResponse (up_StatusCode u) (up_Header u) (BufferedBody.NewBufferedBody (Some (up_Body u)) 0) (up_ContentLength u).

(** What the retry block leaves: the response to go on with, or the error of
    the replay. *)
Definition completion_traceparent (o : Outgoing) (d : Retry.Decision) : string :=
  if is_empty (Retry.d_Traceparent d) then header_Get (ReqHeader (rq (og_state o))) "Traceparent" else Retry.d_Traceparent d.
(** [completeResponseRetry] reports the outcome of a replay, also when the
    client is gone; an error of the report is only logged. *)
Definition completeResponseRetry (h : Retry.Handler) (attemptID : string) (resp : option Response) (transportError traceparent : string) : list Retry.call :=
  (Retry.Complete h attemptID resp transportError traceparent (w_replayDuration w) (w_chargeDuration w) (w_complete w)).1.
Definition retry_response (h : Retry.Handler) (o : Outgoing) (replayBody : option (list Z)) (resp : Upstream)
    : result string Upstream * list Outgoing * list Retry.call :=
  let '(calls, out) := Retry.Decide h (rq (og_state o)) (upstream_response resp) (bool_decide (is_Some replayBody)) (w_authorize w) in
  match out with
  | Ok (Some d) =>
    let '(r, sent) := send_upstream 1 (replay_request o (default [] replayBody) d) in
    let report := match r with Ok resp' => (Some (upstream_response resp'), "") | Err _ => (None, "upstream_transport_error") end in
    (r, sent, calls ++ completeResponseRetry h (Retry.d_AttemptID d) report.1 report.2 (completion_traceparent o d))
  | _ => (Ok resp, [], calls)
  end.

(** ** The way back *)

(** A body the MCP filter was put around is drained while it is written; the
    bytes and the trace it leaves. *)
Fixpoint drain_trace (allowed : gset string) (fuel : nat) (trace : option Trace) (r : Reader) : option Trace :=
  match fuel with
  | O => trace
  | S f => match readSSEEvent r with
           | SseEvent ev r' => let '(_, trace') := rewriteEvent allowed trace ev in drain_trace allowed f trace' r'
           | SseEOF | SseErr _ => trace
           end
  end.
Definition drain (allowed : gset string) (f : sseFilter) : Reader * option Trace :=
  (mkReader (filtered_stream allowed (f_trace f) (f_br f)) None,
   drain_trace allowed (S (length (rd_data (f_br f)))) (f_trace f) (f_br f)).

(** The MCP wrapping: the body to write, and the trace after it was written. *)
Definition wrap_body (mcp : option Server) (trace : option Trace) (resp : Response) : BufferedBody.t * option Trace :=
  match px_mcpPolicy px, mcp with
  | Some p, Some server =>
    match WrapResponseBody (Some p) (Some server) (header_Get (RespHeader resp) "Content-Type") (RespBody resp) trace with
    | (Plain b, trace') => (b, trace')
    | (Filtering f, _) =>
      let '(r, trace') := drain (AllowedToolNames server) f in
      (BufferedBody.NewBufferedBody (Some r) 0, trace')
    | (WrapErr _, trace') => (BufferedBody.Close (BufferedBody.ReadAll (RespBody resp)).2, trace')
    end
  | _, _ => (RespBody resp, trace)
  end.

Definition audit_mcp (mcp : option Server) (trace : option Trace) : option MCPAudit :=
  match mcp with Some _ => Some (MCP_view trace) | None => None end.

(** From the upstream's response to what is written.  A response a transform
    put in its place has no trailers. *)
Definition respond (tctx : TransformContext) (s : State) (o : Outgoing) (mcp : option Server) (trace : option Trace)
    (up : Upstream) (result : PipelineResult) (sent : list Outgoing) (calls : list Retry.call) : Handled :=
  let resp := mkResponse (up_StatusCode up) (up_Header up)
                (BufferedBody.NewBufferedBody (Some (up_Body up)) (MaxResponseBodyBytes (bodyLimits (px_pipeline px)))) (up_ContentLength up) in
  let pr := ProcessResponse (w_elapsed_response w) (px_pipeline px) tctx s resp [] in
  let result := set_response_traces result (pr_traces pr) in
  match pr_outcome pr with
  | Err (name, e) => fail 5 ("transform " +:+ name +:+ " response: " +:+ e) (w_errCanceled w e) result sent calls
  | Ok final =>
    let action := ShortCircuitAction (pr_traces pr) in
    let trailer := if bool_decide (action = ActionContinue) then up_Trailer up else ∅ in
    let '(body, trace') := wrap_body mcp trace final in
    let result := set_mcp (set_outcome result action (StatusCode final) (pres_Err result)) (audit_mcp mcp trace') in
    let client :=
      if isSSE (RespHeader final)
      then streamSSE (Some (og_state o)) (StatusCode final) (RespHeader final) (BufferedBody.StreamingReader body).1 trailer
      else writeResponse (Some (og_state o)) (set_RespBody final body) trailer in
    answered client result sent calls
  end.

(** ** WebSockets (websocket.go) *)

Definition offeredProtocols (h : Header) : list string := list_values h "Sec-WebSocket-Protocol".

(** The headers of an upgrade that are not the library's own. *)
Definition upgrade_headers (client masked : Header) : Header :=
  foldl (fun h e => if existsb (str_eqb (CanonicalHeaderKey e.1))
                        ["Connection"; "Upgrade"; "Sec-Websocket-Accept"; "Sec-Websocket-Protocol"; "Sec-Websocket-Extensions"]
                    then h else header_Add_all h e.1 e.2) client (map_range masked).

(** The subprotocol the client is told: its own spelling of the selected one. *)
Fixpoint position (x : string) (l : list string) : option nat :=
  match l with [] => None | y :: l' => if str_eqb y x then Some O else S <$> position x l' end.
Definition selected_protocol (protocols originalProtocols : list string) (subprotocol : string) : list string :=
  match position subprotocol protocols with
  | None => []
  | Some i => if (length originalProtocols =? length protocols)%nat
              then match originalProtocols !! i with Some p => [p] | None => [] end
              else if (length originalProtocols =? 1)%nat then originalProtocols else []
  end.

(** [utf8.DecodeLastRuneInString]: the size of the last rune. *)
Fixpoint last_start (lim n : nat) (b : list Z) : nat :=
  match n with
  | O => O
  | S n' => if (n' <? lim)%nat then n'
            else match b !! n' with
                 | Some c => if negb (is_cont c) then n' else last_start lim n' b
                 | None => n'
                 end
  end.
Definition last_rune_size (b : list Z) : nat :=
  let e := length b in
  match b !! (e - 1)%nat with
  | None => O
  | Some c =>
    if c <? RuneSelf then 1%nat
    else
      let start := last_start (e - 4) (e - 1) b in
      let '(_, size) := DecodeRune (drop start b) in
      if (start + size =? e)%nat then size else 1%nat
  end.
(** The loop that cuts a close reason to the 123 bytes a close frame holds;
    each turn drops at least a byte. *)
Fixpoint cut_reason (fuel : nat) (b : list Z) : list Z :=
  if (length b <=? 123)%nat then b
  else match fuel with
       | O => b
       | S f => cut_reason f (take (length b - last_rune_size b) b)
       end.
Definition close_reason (st : option State) (reason : string) : string :=
  let b := bytes_of_string (MaskResponseText st reason) in
  string_of_bytes (cut_reason (length b) b).

Definition mask_message (st : State) (r : Reader) : Reader :=
  match rctx st with
  | None => r
  | Some state => scrub_stream (newScrubber (pairs state)) r
  end.
(** The relay from the upstream to the client, which masks: it ends at the
    first message that cannot be read to its end, or with the close frame. *)
Fixpoint relay_masked (st : State) (msgs : list (Z * Reader)) (close : option (Z * string)) : list (Z * Reader) * option (Z * string) :=
  match msgs with
  | [] => ([], (fun c => (c.1, close_reason (Some st) c.2)) <$> close)
  | (kind, r) :: rest =>
    let m := mask_message st r in
    match rd_err m with
    | Some _ => ([(kind, m)], None)
    | None => let '(out, c) := relay_masked st rest close in ((kind, m) :: out, c)
    end
  end.

Definition ws_target (scheme host : string) (s : State) : URL :=
  let u := ReqURL (rq s) in
  mkURL (if str_eqb scheme "https" then "wss" else "ws") (UserInfo u) host (Path u) (RawPath u) (RawQuery u).

(** [handleWebSocket] from the upstream's answer on; [verified] is what the
    library makes of it. *)
Definition ws_respond (s : State) (clientHeader : Header) (tctx : TransformContext) (result : PipelineResult) (o : Outgoing)
    (protocols : list string) (sent : list Outgoing) (up : Upstream) (verified : Prelude.result Reader string) : Handled :=
  let result := set_outcome result (pres_Action result) (up_StatusCode up) (pres_Err result) in
  let body := match verified with Ok _ => empty_reader | Err b => b end in
  let resp := mkResponse (up_StatusCode up) (up_Header up)
                (BufferedBody.NewBufferedBody (Some body) (MaxResponseBodyBytes (bodyLimits (px_pipeline px)))) (up_ContentLength up) in
  let pr := ProcessResponse (w_elapsed_response w) (px_pipeline px) tctx s resp [] in
  let result := set_response_traces result (pr_traces pr) in
  match pr_outcome pr with
  | Err _ => answered (http_Error "bad gateway" StatusBadGateway) result sent []
  | Ok masked =>
    let trailer := if bool_decide (ShortCircuitAction (pr_traces pr) = ActionContinue) then up_Trailer up else ∅ in
    let written := answered (writeResponse (Some (og_state o)) masked trailer) result sent [] in
    match verified with
    | Err _ => written
    | Ok subprotocol =>
      if negb (StatusCode masked =? StatusSwitchingProtocols) then written
      else if negb (w_wsAccept w clientHeader (selected_protocol protocols (offeredProtocols clientHeader) subprotocol))
      then mkHandled None (finish result) sent [] false [] None
      else
        let '(relayed, closed) := relay_masked s (w_wsMessages w) (w_wsClose w) in
        mkHandled (Some (mkClientResponse StatusSwitchingProtocols (upgrade_headers ∅ (RespHeader masked)) empty_reader ∅))
          (finish result) sent [] false relayed closed
    end
  end.

(** The headers of the handshake that are not the library's own. *)
Definition ws_headers (h : Header) : Header :=
  foldl header_Del (sanitizeUpstreamHeaders h)
    ["Sec-WebSocket-Key"; "Sec-WebSocket-Version"; "Sec-WebSocket-Protocol"; "Sec-WebSocket-Extensions"].
Definition handleWebSocket (s : State) (clientHeader : Header) (scheme host : string) (tctx : TransformContext) (result : PipelineResult) : Handled :=
  let target := ws_target scheme host s in
  let r := rq s in
  let outgoing := mkReqState (mkRequest "GET" host target (ReqHeader r) (ReqBody r) (ReqContentLength r) (ReqTLS r)) (rctx s) in
  if negb (ValidateFinalDestination (w_now w 0) outgoing) then
    answered (http_Error "credential destination refused" StatusForbidden) (set_outcome result ActionReject StatusForbidden (pres_Err result)) [] []
  else
    let protocols := offeredProtocols (sanitizeUpstreamHeaders (ReqHeader r)) in
    let o := w_wsRequest w (url_String target) (ws_headers (ReqHeader r)) host protocols s in
    let '(res, sent) := send_upstream 0 o in
    let bad := answered (http_Error "bad gateway" StatusBadGateway)
                 (set_outcome result (pres_Action result) StatusBadGateway (pres_Err result)) sent [] in
    match res with
    | Err _ => bad
    | Ok up =>
      let verified := w_wsVerify w o up in
      if match verified with Err _ => up_StatusCode up =? StatusSwitchingProtocols | Ok _ => false end then bad
      else ws_respond s clientHeader tctx result o protocols sent up verified
    end.

(** ** handleHTTP *)

(** The send, the retry and the way back, for a request that was built. *)
Definition exchange (tctx : TransformContext) (s : State) (mcp : option Server) (trace : option Trace) (o : Outgoing) (result : PipelineResult) : Handled :=
  if negb (ValidateFinalDestination (w_now w 0) (og_state o)) then
    answered (http_Error "credential destination refused" StatusForbidden)
      (set_outcome result ActionReject StatusForbidden (pres_Err result)) [] []
  else
    let retry := match px_retry px with
                 | Some h => if responseRetryEligible (ReqContentLength (rq (og_state o))) (ReqHeader (rq (og_state o))) then Some h else None
                 | None => None
                 end in
    let prepared := match retry with
                    | Some _ => prepareReplayBody (og_Body o) (ReqContentLength (rq (og_state o)))
                                  (MaxRequestBodyBytes (bodyLimits (px_pipeline px)))
                    | None => Ok (og_Body o, None)
                    end in
    match prepared with
    | Err e => answered (http_Error "bad gateway" StatusBadGateway) (set_outcome result ActionContinue StatusBadGateway (Some e)) [] []
    | Ok (body, replayBody) =>
      let o := match replayBody with
               | Some b => set_og_length (set_og_body o body) (Z.of_nat (length b))
               | None => set_og_body o body
               end in
      let '(res, sent) := send_upstream 0 o in
      match res with
      | Err e => fail 3 e (w_errCanceled w e) result sent []
      | Ok up =>
        match retry with
        | None => respond tctx s o mcp trace up result sent []
        | Some h =>
          let '(res', sent', calls) := retry_response h o replayBody up in
          match res' with
          | Err e => fail 4 e (w_errCanceled w e) result (sent ++ sent') calls
          | Ok up' => respond tctx s o mcp trace up' result (sent ++ sent') calls
          end
        end
      end
    end.

(** The gateway: the URL to use instead, if a route matches. *)
Definition gateway_url (s : State) (mcp : option Server) (trace : option Trace)
    : result string (option string * option Trace) * State :=
  match mcp with
  | None => (Ok (None, trace), s)
  | Some _ =>
    match Gateway.Match (px_mcpGateway px) (rq s) with
    | None => (Ok (None, trace), s)
    | Some route =>
      let '(out, req') := Gateway.Apply route (rq s) in
      (match out with
       | Err e => Err e
       | Ok ap => Ok (Some (Gateway.ap_RequestURL ap),
                      SetGateway trace [("route", AStr (Gateway.ap_Name ap)); ("upstream", AStr (Gateway.ap_Upstream ap));
                                        ("credentials_injected", AList (map AStr (Gateway.ap_Injected ap)))])
       end, with_req s req')
    end
  end.

(** From the transforms' and the gate's consent on. *)
Definition forward (scheme host : string) (tctx : TransformContext) (s : State) (mcp : option Server) (trace : option Trace)
    (result : PipelineResult) : Handled :=
  match gateway_url s mcp trace with
  | (Err e, s) => fail 2 e (w_errCanceled w e) result [] []
  | (Ok (url, trace), s) =>
    let result := set_mcp result (audit_mcp mcp trace) in
    match build_upstream s (match url with Some u => u | None => upstream_url scheme host s end) with
    | None => answered (http_Error "bad gateway" StatusBadGateway)
                (set_outcome result ActionContinue StatusBadGateway (Some "new request")) [] []
    | Some o =>
      let s := with_req s (set_ReqBody (rq s) (BufferedBody.StreamingReader (ReqBody (rq s))).2) in
      exchange tctx s mcp trace o result
    end
  end.

(** The MCP gate: [inl] ends the request. *)
Definition mcp_gate (s : State) (result : PipelineResult) : Handled + (State * option Server * option Trace * PipelineResult) :=
  match px_mcpPolicy px with
  | None => inr (s, None, None, result)
  | Some policy =>
    match MatchServer (Some policy) (rq s) with
    | None => inr (s, None, None, result)
    | Some server =>
      let '(v, body, trace) := EvaluateRequest (Some policy) (Some server) (rq s) (Some (McpTrace.mkTrace (srv_Name server) [] [] ∅)) in
      let s := with_req s (set_ReqBody (rq s) body) in
      let result := set_mcp result (audit_mcp (Some server) trace) in
      match v with
      | Forward => inr (s, Some server, trace, result)
      | Refuse resp => inl (answered (writeResponse None resp ∅) (set_outcome result ActionReject (StatusCode resp) (pres_Err result)) [] [])
      | Failed e => inl (fail 1 e (w_errCanceled w e) result [] [])
      | Panicked => inl (mkHandled None (finish result) [] [] true [] None)
      end
    end
  end.

Definition incoming_request (i : Incoming) : Request :=
  mkRequest (in_Method i) (in_Host i) (in_URL i) (in_Header i)
    (BufferedBody.NewBufferedBody (in_Body i) (MaxRequestBodyBytes (bodyLimits (px_pipeline px))))
    (in_ContentLength i) (bool_decide (is_Some (in_TLS i))).

Definition sni_mismatch (i : Incoming) : bool :=
  match in_TLS i with
  | Some name => negb (str_eqb name (match SplitHostPort (in_Host i) with Some (h, _) => h | None => in_Host i end))
  | None => false
  end.

Definition handleHTTP (i : Incoming) (tunnel : option TunnelInfo) : Handled :=
  let scheme := match in_TLS i with Some _ => "https" | None => "http" end in
  let host := in_Host i in
  if is_empty host then refused (http_Error "missing Host header" StatusBadRequest)
  else if containsDotSegments (Path (in_URL i)) then refused (http_Error "path contains dot segments" StatusBadRequest)
  else if sni_mismatch i then refused (http_Error "SNI and Host header mismatch" StatusBadRequest)
  else
    let sni := default "" (in_TLS i) in
    let tctx := mkContext sni ModeMITM (cloneTunnelInfo tunnel) false None None in
    let result := new_result host (in_Method i) (Path (in_URL i)) (in_RemoteAddr i) sni ModeMITM (Tunnel tctx) in
    if negb (w_ready w) then answered (http_Error notReadyMessage StatusServiceUnavailable) (markNotReady result) [] []
    else
      let upgrade := isWebSocketUpgrade (in_Header i) in
      if upgrade && negb (str_eqb (in_Method i) "GET")
      then answered (http_Error "WebSocket upgrade requires GET" StatusBadRequest) result [] []
      else
        let pr := ProcessRequest (w_elapsed w) (px_pipeline px) tctx (mkReqState (incoming_request i) None) [] in
        let result := set_request_traces result (pr_traces pr) (BodyCapture (pr_ctx pr)) in
        match pr_outcome pr with
        | Err (name, e) => fail 0 ("transform " +:+ name +:+ " request: " +:+ e) (w_errCanceled w e) result [] []
        | Ok (Some rejectResp) =>
          answered (writeResponse None rejectResp ∅)
            (set_outcome result (ShortCircuitAction (pr_traces pr)) (StatusCode rejectResp) (pres_Err result)) [] []
        | Ok None =>
          match mcp_gate (pr_req pr) result with
          | inl h => h
          | inr (s, mcp, trace, result) =>
            if isWebSocketUpgrade (ReqHeader (rq s)) then
              if negb upgrade then answered (http_Error "invalid WebSocket upgrade" StatusBadRequest) result [] []
              else handleWebSocket s (in_Header i) scheme host (pr_ctx pr) (set_outcome result ActionContinue StatusSwitchingProtocols (pres_Err result))
            else forward scheme host (pr_ctx pr) s mcp trace result
          end
        end.

(** ** What is sent *)

Lemma fail_sent site err ec r sent calls : hd_sent (fail site err ec r sent calls) = sent.
Proof. unfold fail. by destruct (markIfClientCancel _ _ _). Qed.

Lemma respond_sent tctx s o mcp trace up result sent calls : hd_sent (respond tctx s o mcp trace up result sent calls) = sent.
Proof.
  unfold respond. destruct (pr_outcome _) as [final|[name e]]; [|apply fail_sent].
  by destruct (wrap_body mcp trace final).
Qed.

(** A request may leave for the upstream: its destination is the one its
    secrets were redeemed for. *)
Definition sendable (k : nat) (o : Outgoing) : Prop := ValidateFinalDestination (w_now w k) (og_state o) = true.

Lemma send_upstream_sent k o res sent :
  send_upstream k o = (res, sent) ->
  (sent = [] /\ exists e, res = Err e) \/ (sent = [o] /\ res = w_net w k o /\ sendable (S k) o).
Proof.
  unfold send_upstream. pose proof (RoundTrip_sends (w_now w (S k)) (w_proxy w k) (w_pipeline w k) (og_state o)) as Hs.
  destruct (RoundTrip _ _ _ _); intros [= <- <-]; [left; eauto | right; split; [done|]; split; [done|]; by apply Hs..].
Qed.

(** The headers of a decision frame and route nothing. *)
Definition replay_safe (d : Retry.Decision) : Prop :=
  forall k, is_Some (Retry.d_Headers d !! k) -> CanonicalHeaderKey k = k /\ k ∉ Retry.forbiddenRetryHeaders.

Lemma retry_response_sent h o rb up res sent calls :
  retry_response h o rb up = (res, sent, calls) ->
  sent = [] \/ exists b d, rb = Some b /\ sent = [replay_request o b d] /\ sendable 2 (replay_request o b d) /\
    up_StatusCode up ∈ Retry.h_statuses h /\ replay_safe d.
Proof.
  unfold retry_response. destruct (Retry.Decide _ _ _ _ _) as [c1 out] eqn:HD.
  destruct out as [[d|]|e]; [|intros [= <- <- <-]; by left..].
  destruct (send_upstream 1 _) as [r sent'] eqn:Hs. apply send_upstream_sent in Hs.
  intros [= <- <- <-].
  destruct Hs as [[-> _]|(-> & _ & Hs)]; [by left|]. right.
  assert (replay_safe d) as Hsafe by (intros k; by eapply Retry.Decide_headers).
  apply Retry.Decide_inv in HD as [Hst Hrep]. apply bool_decide_eq_true in Hrep as [b ->]. by exists b, d.
Qed.

(** The request sent first is the built one, but for the length of a body
    that was read for replay. *)
Definition same_request (r r' : Request) : Prop :=
  Method r' = Method r /\ ReqHost r' = ReqHost r /\ ReqURL r' = ReqURL r /\ ReqHeader r' = ReqHeader r /\ ReqTLS r' = ReqTLS r.
Definition same_outgoing (o o' : Outgoing) : Prop :=
  same_request (rq (og_state o)) (rq (og_state o')) /\ rctx (og_state o') = rctx (og_state o) /\ og_Body o' = og_Body o.

Definition exchange_sends (o : Outgoing) (l : list Outgoing) : Prop :=
  l = [] \/ exists o1, same_outgoing o o1 /\ sendable 1 o1 /\
    (l = [o1] \/ exists h b d up, px_retry px = Some h /\ l = [o1; replay_request o1 b d] /\ og_Body o1 = mkReader b None /\
       w_net w 0 o1 = Ok up /\ up_StatusCode up ∈ Retry.h_statuses h /\ sendable 2 (replay_request o1 b d) /\ replay_safe d).

Lemma Reader_ext r r' : rd_data r = rd_data r' -> rd_err r = rd_err r' -> r = r'.
Proof. destruct r, r'. by intros [= ->] [= ->]. Qed.

Lemma exchange_sent tctx s mcp trace o result : exchange_sends o (hd_sent (exchange tctx s mcp trace o result)).
Proof.
  unfold exchange. destruct (negb _); [by left|].
  set (retry := match px_retry px with Some h => _ | None => None end).
  assert (forall h, retry = Some h -> px_retry px = Some h) as Hretry.
  { unfold retry. intros h. destruct (px_retry px); [|done]. by destruct (responseRetryEligible _ _). }
  clearbody retry.
  destruct (match retry with Some _ => _ | None => _ end) as [[body rb]|e] eqn:Hp; [|by left].
  assert (body = og_Body o /\ forall b, rb = Some b -> body = mkReader b None) as [-> Hrb].
  { destruct retry; [|by injection Hp as <- <-]. apply prepareReplayBody_same in Hp as (Hd & He & Hb).
    assert (body = og_Body o) as -> by by apply Reader_ext.
    split; [done|]. intros b ->. destruct Hb as (-> & Hn & _). by apply Reader_ext. }
  set (o1 := match rb with Some b => _ | None => _ end).
  assert (same_outgoing o o1) as Ho by (unfold o1; by destruct rb, o).
  assert (og_Body o1 = og_Body o) as Hbody by apply Ho. clearbody o1.
  destruct (send_upstream 0 o1) as [res sent] eqn:Hs. apply send_upstream_sent in Hs.
  destruct Hs as [[-> [e ->]]|(-> & Hres & Hok)]; [left; apply fail_sent|]. right. exists o1. do 2 (split; [done|]).
  destruct res as [up|e]; [|left; apply fail_sent].
  destruct retry as [h|]; [|left; apply respond_sent].
  destruct (retry_response h o1 rb up) as [[r2 s2] c2] eqn:Hr. apply retry_response_sent in Hr.
  assert (hd_sent match r2 with Ok up' => respond tctx s o1 mcp trace up' result ([o1] ++ s2) c2
                              | Err e => fail 4 e (w_errCanceled w e) result ([o1] ++ s2) c2 end = [o1] ++ s2) as ->.
  { destruct r2; [apply respond_sent | apply fail_sent]. }
  destruct Hr as [->|(b & d & Hb & -> & Hs2 & Hst & Hsafe)]; [by left|]. right. exists h, b, d, up.
  split; [by apply Hretry|]. split; [done|]. split; [|done]. rewrite Hbody. by apply Hrb.
Qed.

Definition chosen_url (scheme host : string) (s : State) (url : option string) : string :=
  match url with Some u => u | None => upstream_url scheme host s end.

Lemma forward_sent scheme host tctx s mcp trace result :
  hd_sent (forward scheme host tctx s mcp trace result) = [] \/
  exists url tr s' o, gateway_url s mcp trace = (Ok (url, tr), s') /\ build_upstream s' (chosen_url scheme host s' url) = Some o /\
    exchange_sends o (hd_sent (forward scheme host tctx s mcp trace result)).
Proof.
  unfold forward. destruct (gateway_url s mcp trace) as [[[url tr]|e] s'] eqn:Hg; [|left; apply fail_sent].
  destruct (build_upstream s' _) as [o|] eqn:Hb; [|by left]. right. exists url, tr, s', o.
  split; [done|]. split; [exact Hb|]. apply exchange_sent.
Qed.

Lemma ws_respond_sent s ch tctx result o protocols sent up verified :
  hd_sent (ws_respond s ch tctx result o protocols sent up verified) = sent.
Proof.
  unfold ws_respond. destruct (pr_outcome _) as [masked|e]; [|done]. destruct verified; [|done].
  destruct (negb _); [done|]. destruct (negb _); [done|]. by destruct (relay_masked _ _ _).
Qed.

Lemma handleWebSocket_sent s ch scheme host tctx result :
  let o := w_wsRequest w (url_String (ws_target scheme host s)) (ws_headers (ReqHeader (rq s))) host
             (offeredProtocols (sanitizeUpstreamHeaders (ReqHeader (rq s)))) s in
  hd_sent (handleWebSocket s ch scheme host tctx result) = [] \/
  hd_sent (handleWebSocket s ch scheme host tctx result) = [o] /\ sendable 1 o.
Proof.
  intros o. unfold handleWebSocket. destruct (negb _); [by left|]. fold o. clearbody o.
  destruct (send_upstream 0 o) as [res sent] eqn:Hs. apply send_upstream_sent in Hs.
  destruct Hs as [[-> [e ->]]|(-> & _ & Hok)]; [by left|]. right. split; [|done].
  destruct res as [up|]; [|done]. destruct (match w_wsVerify w o up with Ok _ => _ | Err _ => _ end); [done|].
  apply ws_respond_sent.
Qed.

(** The gate was passed: a request to a matched server was judged and may go
    on, with its body as it was. *)
Definition gate_passed (s0 s : State) (mcp : option Server) : Prop :=
  rctx s = rctx s0 /\ rq s = set_ReqBody (rq s0) (ReqBody (rq s)) /\
  match px_mcpPolicy px with
  | None => mcp = None /\ s = s0
  | Some policy =>
    mcp = MatchServer (Some policy) (rq s0) /\
    match mcp with
    | None => s = s0
    | Some server => exists trace,
        EvaluateRequest (Some policy) (Some server) (rq s0) (Some (McpTrace.mkTrace (srv_Name server) [] [] ∅))
          = (Forward, ReqBody (rq s), trace)
    end
  end.

Lemma set_ReqBody_id r : set_ReqBody r (ReqBody r) = r.
Proof. by destruct r. Qed.

Lemma mcp_gate_inr s0 result s mcp trace result' :
  mcp_gate s0 result = inr (s, mcp, trace, result') -> gate_passed s0 s mcp.
Proof.
  unfold mcp_gate, gate_passed. destruct (px_mcpPolicy px) as [policy|].
  2:{ intros [= <- <- <- <-]. by rewrite set_ReqBody_id. }
  destruct (MatchServer (Some policy) (rq s0)) as [server|] eqn:Hm.
  2:{ intros [= <- <- <- <-]. by rewrite set_ReqBody_id. }
  destruct (EvaluateRequest _ _ _ _) as [[v body] tr] eqn:Hev. destruct v; try done. intros [= <- <- <- <-].
  split; [done|]. split; [done|]. split; [done|]. by exists tr.
Qed.

Lemma mcp_gate_inl s0 result h : mcp_gate s0 result = inl h -> hd_sent h = [].
Proof.
  unfold mcp_gate. destruct (px_mcpPolicy px) as [policy|]; [|done].
  destruct (MatchServer (Some policy) (rq s0)) as [server|]; [|done].
  destruct (EvaluateRequest _ _ _ _) as [[v body] tr]. destruct v; try done; intros [= <-]; [done | apply fail_sent | done].
Qed.

(** Everything a request passed before anything is sent for it. *)
Definition incoming_ok (i : Incoming) : Prop :=
  in_Host i <> "" /\ containsDotSegments (Path (in_URL i)) = false /\ sni_mismatch i = false /\ w_ready w = true.
Definition incoming_context (i : Incoming) (tunnel : option TunnelInfo) : TransformContext :=
  mkContext (default "" (in_TLS i)) ModeMITM (cloneTunnelInfo tunnel) false None None.
Definition incoming_scheme (i : Incoming) : string := match in_TLS i with Some _ => "https" | None => "http" end.
Definition judged (i : Incoming) (tunnel : option TunnelInfo) : Processed (option Response) :=
  ProcessRequest (w_elapsed w) (px_pipeline px) (incoming_context i tunnel) (mkReqState (incoming_request i) None) [].

Lemma handleHTTP_sent i tunnel :
  hd_sent (handleHTTP i tunnel) <> [] ->
  incoming_ok i /\ pr_outcome (judged i tunnel) = Ok None /\
  exists s mcp trace result, gate_passed (pr_req (judged i tunnel)) s mcp /\
    ((isWebSocketUpgrade (ReqHeader (rq s)) = true /\ in_Method i = "GET" /\
      hd_sent (handleHTTP i tunnel) = hd_sent (handleWebSocket s (in_Header i) (incoming_scheme i) (in_Host i) (pr_ctx (judged i tunnel)) result)) \/
     (isWebSocketUpgrade (ReqHeader (rq s)) = false /\
      hd_sent (handleHTTP i tunnel) = hd_sent (forward (incoming_scheme i) (in_Host i) (pr_ctx (judged i tunnel)) s mcp trace result))).
Proof.
  unfold handleHTTP, incoming_ok. fold (incoming_context i tunnel) (incoming_scheme i).
  destruct (is_empty (in_Host i)) eqn:Hh; [done|]. apply is_empty_false in Hh.
  destruct (containsDotSegments _); [done|]. destruct (sni_mismatch i); [done|].
  destruct (w_ready w); [|done]. cbn [negb]. destruct (isWebSocketUpgrade (in_Header i) && _) eqn:Hm; [done|].
  fold (judged i tunnel). destruct (pr_outcome (judged i tunnel)) as [[rej|]|[name e]]; [done | | by rewrite fail_sent].
  destruct (mcp_gate _ _) as [h|[[[s mcp] trace] result]] eqn:Hg; [by rewrite (mcp_gate_inl _ _ _ Hg)|].
  apply mcp_gate_inr in Hg. intros Hne. split; [done|]. split; [done|].
  destruct (isWebSocketUpgrade (ReqHeader (rq s))) eqn:Hw.
  - destruct (isWebSocketUpgrade (in_Header i)) eqn:Hwi; [|done]. cbn [negb andb] in *.
    apply negb_false_iff, str_eqb_eq in Hm. eexists s, mcp, trace, _. split; [done|]. left. done.
  - eexists s, mcp, trace, _. split; [done|]. right. done.
Qed.

Lemma exchange_sends_each o l o' :
  exchange_sends o l -> o' ∈ l ->
  (exists k, sendable k o') /\ Method (rq (og_state o')) = Method (rq (og_state o)) /\
  ReqURL (rq (og_state o')) = ReqURL (rq (og_state o)) /\ ReqHost (rq (og_state o')) = ReqHost (rq (og_state o)) /\
  og_Body o' = og_Body o /\
  (ReqHeader (rq (og_state o')) = ReqHeader (rq (og_state o)) \/
   exists d, replay_safe d /\ ReqHeader (rq (og_state o')) = replay_headers (ReqHeader (rq (og_state o))) d).
Proof.
  intros [->|(o1 & ((Hm & Hh & Hu & Hhd & _) & _ & Hb) & Hs & Hl)] Hin; [set_solver|].
  assert (o' = o1 \/ exists b d, o' = replay_request o1 b d /\ og_Body o1 = mkReader b None /\
    sendable 2 (replay_request o1 b d) /\ replay_safe d) as [->|(b & d & -> & Hb1 & Hs2 & Hd)].
  { destruct Hl as [->|(h & b & d & up & _ & -> & Hb1 & _ & _ & Hs2 & Hd)]; [set_solver|].
    apply elem_of_cons in Hin as [->|Hin]; [by left|]. apply list_elem_of_singleton in Hin as ->. right. by exists b, d. }
  - split; [eauto|]. do 4 (split; [done|]). by left.
  - split; [eauto|]. cbn. split; [done|]. split; [done|]. split; [done|]. split; [congruence|]. right. exists d. by rewrite Hhd.
Qed.

(** ** Headers of a replay *)

Definition clean_headers (h : Header) : Prop :=
  canonical_keys h /\ forall k vs, k ∈ hopByHopHeaders -> h !! k = Some vs -> k = "Te" /\ vs = ["trailers"].

Lemma header_Add_all_other h k vs k' : CanonicalHeaderKey k <> k' -> header_Add_all h k vs !! k' = h !! k'.
Proof.
  intros Hne. revert h. induction vs as [|v vs IH]; intros h; [done|].
  change (header_Add_all h k (v :: vs)) with (header_Add_all (header_Add h k v) k vs). rewrite IH. unfold header_Add.
  by rewrite lookup_insert_ne.
Qed.

Lemma replay_headers_clean h d : clean_headers h -> replay_safe d -> clean_headers (replay_headers h d).
Proof.
  intros [Hc Hh] Hd. unfold replay_headers.
  assert (forall l h, (forall e, e ∈ l -> is_Some (Retry.d_Headers d !! e.1)) -> canonical_keys h ->
    canonical_keys (foldl (fun h (e : string * list string) => header_Add_all (header_Del h e.1) e.1 e.2) h l) /\
    forall k, k ∈ hopByHopHeaders ->
      foldl (fun h (e : string * list string) => header_Add_all (header_Del h e.1) e.1 e.2) h l !! k = h !! k) as Hfold.
  { induction l as [|[n vs] l IH]; intros h0 Hl Hc0; [done|]. cbn [foldl fst snd].
    destruct (Hd n) as [Hcn Hfn]; [apply (Hl (n, vs)); left|].
    destruct (IH (header_Add_all (header_Del h0 n) n vs)) as [IH1 IH2].
    - intros e He. apply Hl. by right.
    - apply header_Add_all_canonical. intros k Hk. apply Hc0. unfold header_Del in Hk.
      destruct (decide (CanonicalHeaderKey n = k)) as [<-|Hne]; [rewrite lookup_delete_eq in Hk; by destruct Hk|].
      by rewrite lookup_delete_ne in Hk.
    - split; [done|]. intros k Hk. rewrite IH2 by done.
      assert (CanonicalHeaderKey n <> k) as Hne.
      { rewrite Hcn. intros ->. apply Hfn. revert Hk. unfold hopByHopHeaders, Retry.forbiddenRetryHeaders. set_solver. }
      rewrite header_Add_all_other by done. unfold header_Del. by rewrite lookup_delete_ne. }
  destruct (Hfold (map_range (Retry.d_Headers d)) h) as [Hc' Hk'].
  { intros [k vs] He. apply map_range_lookup in He. cbn. by rewrite He. }
  { done. }
  destruct (is_empty _).
  - split; [done|]. intros k vs Hk Hl. rewrite Hk' in Hl by done. by apply Hh.
  - unfold header_Set. change (CanonicalHeaderKey "Traceparent") with "Traceparent". split.
    + intros k Hk. destruct (decide (k = "Traceparent")) as [->|Hne]; [done|]. rewrite lookup_insert_ne in Hk by done. by apply Hc'.
    + intros k vs Hk Hl. rewrite lookup_insert_ne in Hl; [|intros <-; revert Hk; unfold hopByHopHeaders; set_solver].
      rewrite Hk' in Hl by done. by apply Hh.
Qed.

Lemma build_upstream_spec s url o :
  build_upstream s url = Some o ->
  request_url url = Some (ReqURL (rq (og_state o))) /\ Method (rq (og_state o)) = request_method (Method (rq s)) /\
  ReqHost (rq (og_state o)) = URLHost (ReqURL (rq (og_state o))) /\ rctx (og_state o) = rctx s /\
  ReqHeader (rq (og_state o)) = sanitizeUpstreamHeaders (copyHeaders ∅ (ReqHeader (rq s))) /\
  og_Body o = (BufferedBody.StreamingReader (ReqBody (rq s))).1.
Proof.
  unfold build_upstream. destruct (negb _); [done|]. destruct (request_url url) as [u|]; [|done].
  cbn [mbind option_bind]. by intros [= <-].
Qed.

Lemma gateway_url_none s mcp trace out s' :
  mcp = None -> gateway_url s mcp trace = (out, s') -> out = Ok (None, trace) /\ s' = s.
Proof. intros ->. by intros [= <- <-]. Qed.

(** ** What is audited *)

Definition status_agrees (h : Handled) : Prop :=
  forall c r, hd_client h = Some c -> hd_audit h = Some r -> pres_StatusCode r = cr_StatusCode c.

Lemma answered_agrees c r sent calls : pres_StatusCode r = cr_StatusCode c -> status_agrees (answered c r sent calls).
Proof. intros Hs c' r' [= <-] [= <-]. exact Hs. Qed.
Lemma fail_agrees site err ec r sent calls : status_agrees (fail site err ec r sent calls).
Proof. unfold fail. destruct (markIfClientCancel _ _ _); [by intros c r' ? | by apply answered_agrees]. Qed.

Lemma respond_agrees tctx s o mcp trace up result sent calls : status_agrees (respond tctx s o mcp trace up result sent calls).
Proof.
  unfold respond. destruct (pr_outcome _) as [final|[name e]]; [|apply fail_agrees].
  destruct (wrap_body mcp trace final) as [body trace']. apply answered_agrees. by destruct (isSSE _).
Qed.

Lemma exchange_agrees tctx s mcp trace o result : status_agrees (exchange tctx s mcp trace o result).
Proof.
  unfold exchange. destruct (negb _); [by apply answered_agrees|].
  set (retry := match px_retry px with Some h => _ | None => None end). clearbody retry.
  destruct (match retry with Some _ => _ | None => _ end) as [[body rb]|e]; [|by apply answered_agrees].
  destruct (send_upstream 0 _) as [[up|e] sent]; [|apply fail_agrees].
  destruct retry as [h|]; [|apply respond_agrees].
  destruct (retry_response h _ rb up) as [[[up'|e] s2] c2]; [apply respond_agrees | apply fail_agrees].
Qed.

Lemma forward_agrees scheme host tctx s mcp trace result : status_agrees (forward scheme host tctx s mcp trace result).
Proof.
  unfold forward. destruct (gateway_url s mcp trace) as [[[url tr]|e] s']; [|apply fail_agrees].
  destruct (build_upstream s' _); [apply exchange_agrees | by apply answered_agrees].
Qed.

Lemma mcp_gate_agrees s0 result h : mcp_gate s0 result = inl h -> status_agrees h.
Proof.
  unfold mcp_gate. destruct (px_mcpPolicy px) as [policy|]; [|done].
  destruct (MatchServer (Some policy) (rq s0)) as [server|]; [|done].
  destruct (EvaluateRequest _ _ _ _) as [[v body] tr]. destruct v; try done; intros [= <-];
    [by apply answered_agrees | apply fail_agrees | by intros c r].
Qed.

End handler.

End Proxy.
