(* ===== verification/ProxySafety.v ===== *)
(** * What the request handler guarantees (src/internal/proxy/proxy.go)

    The theorems about [Proxy.handleHTTP]: the composition of the pipeline,
    the MCP gate, the gateway, the send boundary and the retry handler. *)
From stdpp Require Import base gmap strings list option.
From Stdlib Require Import ZArith Lia Ascii.
From S2P Require Import Prelude GoUtf8 GoStrings GoNet Body GoHttp GoUrl GoJson GoRegexp HostMatch.
From S2P Require Import Transform AuditLog DnsGuard PrivateConn ScrubPairs Secrets SecretsSafety ScrubMatch ScrubResponse ProxySend.
From S2P Require Import McpRpc McpTrace McpPolicy McpSse McpIntercept McpGateway RetryHandler ProxyHttp Proxy.
Import Proxy.
Local Open Scope string_scope.
Local Open Scope list_scope.
Local Open Scope Z_scope.

(** ** Properties *)

Section properties.
Context `{UnicodeTables} `{Regexp} `{MapRange}.

(** C1: Nothing is sent for a request that was not admitted.  For every
    request [handleHTTP] gives to a transport, first send, replay or
    WebSocket handshake: the client's request named a host, had no dot
    segment in its decoded path, carried the host of its TLS connection and
    came when the proxy was ready; every transform of the pipeline ran and
    let it continue; if it is for a configured MCP server, the tool gate
    judged it and forwarded it; and its destination is the one its redeemed
    secrets belong to, by the clock of the send. *)
Theorem handler_sends_only_admitted (w : World) (px : ProxyConfig) i tunnel o :
  o ∈ hd_sent (handleHTTP w px i tunnel) ->
  in_Host i <> "" /\ containsDotSegments (Path (in_URL i)) = false /\ w_ready w = true /\
  (forall name, in_TLS i = Some name -> name = match SplitHostPort (in_Host i) with Some (h, _) => h | None => in_Host i end) /\
  Forall trace_continues (pr_traces (judged w px i tunnel)) /\
  map tr_Name (pr_traces (judged w px i tunnel)) = map Name (transforms (px_pipeline px)) /\
  (forall policy server, px_mcpPolicy px = Some policy ->
     MatchServer (Some policy) (rq (pr_req (judged w px i tunnel))) = Some server ->
     exists body trace, EvaluateRequest (Some policy) (Some server) (rq (pr_req (judged w px i tunnel)))
       (Some (McpTrace.mkTrace (srv_Name server) [] [] ∅)) = (Forward, body, trace)) /\
  exists k, ValidateFinalDestination (w_now w k) (og_state o) = true.
Proof.
  intros Hin. destruct (handleHTTP_sent w px i tunnel) as ((Hh & Hd & Hs & Hr) & Hok & s & mcp & trace & result & Hg & Hcase).
  { intros Heq. rewrite Heq in Hin. by apply elem_of_nil in Hin. }
  do 3 (split; [done|]). split.
  { intros name Hn. unfold sni_mismatch in Hs. rewrite Hn in Hs. by apply negb_false_iff, str_eqb_eq in Hs. }
  unfold judged in Hok |- *. unfold ProcessRequest in Hok |- *.
  destruct (process_request_traces (w_elapsed w) 0 (transforms (px_pipeline px)) (incoming_context i tunnel)
    (mkReqState (incoming_request px i) None) []) as (new & Hnew & Hnames & Hexp).
  rewrite Hok in Hexp. cbn in Hexp. destruct Hexp as [Hlen Hall]. rewrite Hnew. cbn [app].
  split; [done|]. split; [by rewrite Hnames, take_ge by lia|]. split.
  - intros policy server Hp Hm. destruct Hg as (_ & _ & Hg). rewrite Hp in Hg. destruct Hg as [-> Hg].
    unfold judged, ProcessRequest in Hg. rewrite Hm in Hg. destruct Hg as [tr Hev]. eauto.
  - destruct Hcase as [(_ & _ & Heq)|(_ & Heq)]; rewrite Heq in Hin.
    + destruct (handleWebSocket_sent w px s (in_Header i) (incoming_scheme i) (in_Host i) (pr_ctx (judged w px i tunnel)) result)
        as [Hn|(Hl & Hv)]; [rewrite Hn in Hin; set_solver|].
      rewrite Hl in Hin. apply list_elem_of_singleton in Hin as ->. by exists 1%nat.
    + destruct (forward_sent w px (incoming_scheme i) (in_Host i) (pr_ctx (judged w px i tunnel)) s mcp trace result)
        as [Hn|(url & tr & s' & o0 & _ & _ & Hex)]; [rewrite Hn in Hin; set_solver|].
      by destruct (exchange_sends_each w px _ _ _ Hex Hin) as [[k Hk] _]; exists k.
Qed.

(** The gateway route a request takes: one for a configured MCP server does
    when one matches. *)
Definition gateway_route (px : ProxyConfig) (r : Request) : option Gateway.Route :=
  match MatchServer (px_mcpPolicy px) r with Some _ => Gateway.Match (px_mcpGateway px) r | None => None end.

(** The body sent is the one the transforms left; of a POST to an MCP server
    it is the bytes the tool gate read. *)
Definition body_sent (px : ProxyConfig) (r : Request) (b : Reader) : Prop :=
  if bool_decide (is_Some (MatchServer (px_mcpPolicy px) r)) && str_eqb (Method r) "POST" then
    exists d b', BufferedBody.ReadAll (ReqBody r) = (BufferedBody.GotBytes d, b') /\ b = (BufferedBody.StreamingReader (BufferedBody.Reset b')).1 /\
      (BufferedBody.wf (ReqBody r) -> BufferedBody.pos (ReqBody r) = 0%nat -> b = mkReader d None)
  else b = (BufferedBody.StreamingReader (ReqBody r)).1.

Lemma ReadAll_streams b d b' :
  BufferedBody.ReadAll b = (BufferedBody.GotBytes d, b') -> BufferedBody.wf b -> BufferedBody.pos b = 0%nat ->
  (BufferedBody.StreamingReader (BufferedBody.Reset b')).1 = mkReader d None.
Proof.
  unfold BufferedBody.ReadAll, BufferedBody.buffer, BufferedBody.StreamingReader, BufferedBody.wf. intros Hr Hw Hp.
  destruct (BufferedBody.once b).
  - injection Hr as <- <-. cbn. destruct Hw as [_ ->]. by rewrite Hp.
  - destruct (BufferedBody.original b) as [r|]; [|done]. destruct (rd_err _); [done|]. injection Hr as <- <-. cbn. by rewrite Hp.
Qed.

Lemma gate_body_sent px s0 s mcp :
  gate_passed px s0 s mcp -> body_sent px (rq s0) (BufferedBody.StreamingReader (ReqBody (rq s))).1.
Proof.
  intros (_ & _ & Hg). unfold body_sent. destruct (px_mcpPolicy px) as [policy|]; [|by destruct Hg as [_ ->]].
  destruct Hg as [-> Hg]. destruct (MatchServer (Some policy) (rq s0)) as [server|]; [|by rewrite Hg].
  rewrite bool_decide_true by eauto. destruct Hg as [trace Hev]. revert Hev. unfold EvaluateRequest. cbn [andb].
  destruct (str_eqb (Method (rq s0)) "POST"); cbn [negb]; [|by intros [= <- _]].
  destruct (BufferedBody.ReadAll (ReqBody (rq s0))) as [[d| | |] b'] eqn:Hr; [|done..].
  intros Hev. assert (ReqBody (rq s) = BufferedBody.Reset b') as ->.
  { revert Hev. destruct (_ && _); [done|]. destruct (decodeJSONRPC _) as [[msgs|] isB]; [|done]. by destruct (judge_messages _ _ _ _) as [[[]|] ?]; intros [= <- _]. }
  exists d, b'. split_and!; [done | done|]. intros. by eapply ReadAll_streams.
Qed.

Lemma apply_credentials_keeps creds req ids out req' :
  Gateway.apply_credentials creds req ids = (out, req') -> ReqBody req' = ReqBody req /\ Method req' = Method req.
Proof.
  revert req ids. induction creds as [|cred creds IH]; intros req ids; cbn; [by intros [= _ <-]|].
  unfold Gateway.apply_credential. destruct (src_Get _) as [value|].
  - destruct (Gateway.formatCredential _ _) as [v|]; [|by intros [= _ <-]]. by destruct (negb _); intros (-> & ->)%IH.
  - destruct (Gateway.c_require cred); [by intros [= _ <-] | apply IH].
Qed.

Lemma gateway_url_spec px s0 s mcp trace url tr s' :
  gate_passed px s0 s mcp -> gateway_url px s mcp trace = (Ok (url, tr), s') ->
  match gateway_route px (rq s0) with
  | Some route => exists ap, Gateway.Apply route (rq s) = (Ok ap, rq s') /\ url = Some (Gateway.ap_RequestURL ap)
  | None => s' = s /\ url = None
  end /\ ReqBody (rq s') = ReqBody (rq s) /\ Method (rq s') = Method (rq s).
Proof.
  intros (_ & Hrq & Hg). assert (mcp = MatchServer (px_mcpPolicy px) (rq s0)) as -> by by destruct (px_mcpPolicy px); destruct Hg as [-> _].
  assert (Gateway.Match (px_mcpGateway px) (rq s) = Gateway.Match (px_mcpGateway px) (rq s0)) as Hma by by rewrite Hrq; destruct (px_mcpGateway px).
  unfold gateway_url, gateway_route. destruct (MatchServer _ _); [|by intros [= <- <- <-]]. rewrite <- Hma. clear Hma.
  destruct (Gateway.Match (px_mcpGateway px) (rq s)) as [route|]; [|by intros [= <- <- <-]].
  destruct (Gateway.Apply route (rq s)) as [[ap|e] req'] eqn:Ha; [|done]. intros [= <- <- <-]. cbn.
  split; [by exists ap|]. apply Gateway.Apply_Ok in Ha as (_ & Ha & _). by eapply apply_credentials_keeps.
Qed.

(** C3: What is sent is what was judged.  Let [r] be the request as the
    transforms left it.  A WebSocket handshake is asked of the library for
    [r]'s path and query at the host the client named, with [r]'s headers
    less those of the hop.  Any other request has [r]'s method and body; it
    goes to the URL a gateway route gives, if one takes it, and else to the
    host the client named (less an empty port), over the scheme of its
    connection, with [r]'s decoded and encoded path (after a slash, if it
    does not start with one), its query up to the first [#], and no user
    information.  A replay is sent like the first. *)
Theorem handler_sent_as_judged (w : World) (px : ProxyConfig) i tunnel o :
  let s := pr_req (judged w px i tunnel) in
  let r := rq s in
  o ∈ hd_sent (handleHTTP w px i tunnel) ->
  if isWebSocketUpgrade (ReqHeader r) then
    exists s', rctx s' = rctx s /\ rq s' = set_ReqBody r (ReqBody (rq s')) /\
      o = w_wsRequest w (url_String (ws_target (incoming_scheme i) (in_Host i) s)) (ws_headers (ReqHeader r)) (in_Host i)
            (offeredProtocols (sanitizeUpstreamHeaders (ReqHeader r))) s'
  else
    let u := ReqURL (rq (og_state o)) in
    Method (rq (og_state o)) = request_method (Method r) /\ ReqHost (rq (og_state o)) = URLHost u /\ body_sent px r (og_Body o) /\
    match gateway_route px r with
    | Some route => exists b ap req', Gateway.Apply route (set_ReqBody r b) = (Ok ap, req') /\ request_url (Gateway.ap_RequestURL ap) = Some u
    | None =>
      Scheme u = incoming_scheme i /\ UserInfo u = None /\ URLHost u = removeEmptyPort (in_Host i) /\
      Path u = path_slash (ReqURL r) +:+ Path (ReqURL r) /\ EscapedPath u = path_slash (ReqURL r) +:+ EscapedPath (ReqURL r) /\
      RawQuery u = sent_query (RawQuery (ReqURL r))
    end.
Proof.
  cbn zeta. intros Hin.
  destruct (handleHTTP_sent w px i tunnel) as (_ & _ & s & mcp & trace & result & Hg & Hcase).
  { intros Heq. rewrite Heq in Hin. by apply elem_of_nil in Hin. }
  set (s0 := pr_req (judged w px i tunnel)) in *. pose proof (gate_body_sent _ _ _ _ Hg) as Hbs. destruct Hg as (Hctx & Hrq & Hg).
  assert (ReqHeader (rq s) = ReqHeader (rq s0) /\ ReqURL (rq s) = ReqURL (rq s0) /\ Method (rq s) = Method (rq s0)) as (Hh & Hu & Hm) by by rewrite Hrq.
  rewrite Hh in Hcase. destruct Hcase as [(-> & _ & Heq)|(-> & Heq)]; rewrite Heq in Hin.
  { exists s. split_and!; [done | done|].
    destruct (handleWebSocket_sent w px s (in_Header i) (incoming_scheme i) (in_Host i) (pr_ctx (judged w px i tunnel)) result) as [Hn|[Hn _]];
      rewrite Hn in Hin; [by apply elem_of_nil in Hin|]. apply list_elem_of_singleton in Hin as ->. unfold ws_target. by rewrite Hh, Hu. }
  destruct (forward_sent w px (incoming_scheme i) (in_Host i) (pr_ctx (judged w px i tunnel)) s mcp trace result)
    as [Hn|(url & tr & s' & o0 & Hgw & Hb & Hex)]; [rewrite Hn in Hin; by apply elem_of_nil in Hin|].
  destruct (exchange_sends_each w px _ _ _ Hex Hin) as (_ & Hme & Hur & Hho & Hbo & _).
  apply build_upstream_spec in Hb as (Hurl & Hme0 & Hho0 & _ & _ & Hbo0). rewrite Hur, Hme, Hho, Hbo, Hme0, Hbo0.
  assert (match gateway_route px (rq s0) with
          | Some route => exists ap, Gateway.Apply route (rq s) = (Ok ap, rq s') /\ url = Some (Gateway.ap_RequestURL ap)
          | None => s' = s /\ url = None end /\ ReqBody (rq s') = ReqBody (rq s) /\ Method (rq s') = Method (rq s)) as (Hroute & Hb' & Hm').
  { eapply (gateway_url_spec px s0 s mcp trace); [by split_and! | exact Hgw]. }
  rewrite Hb', Hm', Hm. split_and!; [done | done | done|]. destruct (gateway_route px (rq s0)) as [route|].
  - destruct Hroute as (ap & Ha & ->). rewrite Hrq in Ha. by exists (ReqBody (rq s)), ap, (rq s').
  - destruct Hroute as [-> ->]. unfold chosen_url, upstream_url in Hurl. rewrite Hu in Hurl.
    assert (web_scheme (incoming_scheme i)) as Hsc by (unfold incoming_scheme; destruct (in_TLS i); [by right | by left]).
    apply request_url_printed in Hurl; [exact Hurl | exact Hsc].
Qed.

(** C15: A request is replayed at most once, exactly.  At most two requests
    are sent for one of a client; the second only when a retry handler is
    configured, the first was answered with one of its statuses, and the
    whole body was read within the limit: then both have the same method,
    URL and host, and the same complete body. *)
Theorem handler_replays_once (w : World) (px : ProxyConfig) i tunnel :
  (length (hd_sent (handleHTTP w px i tunnel)) <= 2)%nat /\
  (forall o1 o2, hd_sent (handleHTTP w px i tunnel) = [o1; o2] ->
     exists h b up, px_retry px = Some h /\ w_net w 0 o1 = Ok up /\ up_StatusCode up ∈ Retry.h_statuses h /\
       og_Body o1 = mkReader b None /\ og_Body o2 = mkReader b None /\
       Method (rq (og_state o2)) = Method (rq (og_state o1)) /\ ReqURL (rq (og_state o2)) = ReqURL (rq (og_state o1)) /\
       ReqHost (rq (og_state o2)) = ReqHost (rq (og_state o1)) /\ ReqContentLength (rq (og_state o2)) = Z.of_nat (length b)).
Proof.
  destruct (decide (hd_sent (handleHTTP w px i tunnel) = [])) as [Hn|Hn]; [by rewrite Hn; split; [cbn; lia|]|].
  destruct (handleHTTP_sent w px i tunnel Hn) as (_ & _ & s & mcp & trace & result & _ & Hcase).
  destruct Hcase as [(_ & _ & Heq)|(_ & Heq)]; rewrite Heq in *.
  - destruct (handleWebSocket_sent w px s (in_Header i) (incoming_scheme i) (in_Host i) (pr_ctx (judged w px i tunnel)) result)
      as [->|[-> _]]; by split; [cbn; lia|].
  - destruct (forward_sent w px (incoming_scheme i) (in_Host i) (pr_ctx (judged w px i tunnel)) s mcp trace result)
      as [->|(url & tr & s' & o0 & _ & _ & [->|(o1 & _ & _ & Hl)])]; [by split; [cbn; lia|]..|].
    destruct Hl as [->|(h & b & d & up & Hpx & -> & Hb & Hnet & Hst & _)]; (split; [cbn; lia|]); intros x y; [done|]. intros [= <- <-].
    exists h, b, up. by cbn.
Qed.

(** Headers of the client's connection stop at the proxy.  Whatever the
    client sent and the transforms wrote, every header of a forwarded request
    or of its replay is under its canonical name, and none is hop-by-hop
    but [TE: trailers].  So a spelling a transform chose for the wire does
    not survive either. *)
Theorem handler_headers_clean (w : World) (px : ProxyConfig) i tunnel o k vs :
  o ∈ hd_sent (handleHTTP w px i tunnel) ->
  (forall s mcp, gate_passed px (pr_req (judged w px i tunnel)) s mcp -> isWebSocketUpgrade (ReqHeader (rq s)) = false) ->
  ReqHeader (rq (og_state o)) !! k = Some vs ->
  CanonicalHeaderKey k = k /\ (k ∈ hopByHopHeaders -> k = "Te" /\ vs = ["trailers"]).
Proof.
  intros Hin Hw Hk.
  destruct (handleHTTP_sent w px i tunnel) as (_ & _ & s & mcp & trace & result & Hg & Hcase).
  { intros Heq. rewrite Heq in Hin. by apply elem_of_nil in Hin. }
  destruct Hcase as [(Hw' & _)|(_ & Heq)]; [by rewrite (Hw s mcp Hg) in Hw'|]. rewrite Heq in Hin.
  destruct (forward_sent w px (incoming_scheme i) (in_Host i) (pr_ctx (judged w px i tunnel)) s mcp trace result)
    as [Hn|(url & tr & s' & o0 & _ & Hb & Hex)]; [rewrite Hn in Hin; set_solver|].
  apply build_upstream_spec in Hb as (_ & _ & _ & _ & Hhd & _).
  assert (clean_headers (ReqHeader (rq (og_state o0)))) as Hc0.
  { rewrite Hhd. destruct (forwarded_clean (ReqHeader (rq s'))) as (Hc & Hh & _). by split. }
  assert (clean_headers (ReqHeader (rq (og_state o)))) as [Hc Hh].
  { destruct (exchange_sends_each w px _ _ _ Hex Hin) as (_ & _ & _ & _ & _ & [->|(d & Hd & ->)]); [done|].
    by apply replay_headers_clean. }
  split; [apply Hc; by rewrite Hk | intros Hin'; by apply (Hh k vs)].
Qed.

(** The audit tells what the client was told.  When a request that is
    not a WebSocket upgrade, before or after the transforms, is answered and
    audited, the audited status is the one written. *)
Theorem handler_audit_status (w : World) (px : ProxyConfig) i tunnel c r :
  isWebSocketUpgrade (in_Header i) = false ->
  (forall s mcp, gate_passed px (pr_req (judged w px i tunnel)) s mcp -> isWebSocketUpgrade (ReqHeader (rq s)) = false) ->
  hd_client (handleHTTP w px i tunnel) = Some c -> hd_audit (handleHTTP w px i tunnel) = Some r ->
  pres_StatusCode r = cr_StatusCode c.
Proof.
  intros Hwi Hw. assert (status_agrees (handleHTTP w px i tunnel)) as Hs; [|apply Hs].
  unfold handleHTTP. fold (incoming_context i tunnel) (incoming_scheme i).
  destruct (is_empty (in_Host i)); [by intros ? ? ?|]. destruct (containsDotSegments _); [by intros ? ? ?|].
  destruct (sni_mismatch i); [by intros ? ? ?|].
  destruct (w_ready w); [|by apply answered_agrees]. cbn [negb]. rewrite Hwi. cbn [andb].
  fold (judged w px i tunnel). destruct (pr_outcome (judged w px i tunnel)) as [[rej|]|[name e]]; [by apply answered_agrees | | apply fail_agrees].
  destruct (mcp_gate _ _ _ _) as [h|[[[s mcp] trace] result]] eqn:Hg; [by eapply mcp_gate_agrees|].
  apply mcp_gate_inr in Hg. rewrite (Hw s mcp Hg). apply forward_agrees.
Qed.

End properties.

(** ** Behaviour that differs from what is promised *)

(** A refused upgrade is audited as a continued request.  A WebSocket
    upgrade that is not a GET is answered with 400, but the audit record has
    the action continue and no status. *)
Theorem upgrade_refusal_audited_as_continued `{UnicodeTables} `{Regexp} `{MapRange} (w : World) (px : ProxyConfig) i tunnel :
  in_Host i <> "" -> containsDotSegments (Path (in_URL i)) = false -> sni_mismatch i = false -> w_ready w = true ->
  isWebSocketUpgrade (in_Header i) = true -> in_Method i <> "GET" ->
  exists c r, hd_client (handleHTTP w px i tunnel) = Some c /\ cr_StatusCode c = 400 /\
    hd_audit (handleHTTP w px i tunnel) = Some r /\ pres_Action r = ActionContinue /\ pres_StatusCode r = 0.
Proof.
  intros Hh Hd Hs Hr Hu Hm. unfold handleHTTP. apply is_empty_false in Hh as ->. rewrite Hd, Hs, Hr, Hu.
  apply str_eqb_neq in Hm as ->. cbn. eauto 10.
Qed.

Section examples.
#[local] Existing Instance ascii_tables.
#[local] Existing Instance literal_regexp.
#[local] Existing Instance default_range.

(** A proxy without transforms, with the wiki server and the example retry
    handler; the upstream first asks for payment, then answers. *)
Definition example_px (retry : option Retry.Handler) : ProxyConfig :=
  mkProxyConfig (mkPipeline [] (mkLimits 1000 1000)) (Some wiki_policy) None retry.
Definition example_world (net : nat -> Outgoing -> result string Upstream) : World :=
  mkWorld true (fun _ => false) (fun _ => false) (fun _ => 0) (fun _ => 0) 0 (fun _ => 0)
    (fun _ => mkPipeline [] (mkLimits 1000 1000)) (fun _ => None) net
    (fun _ => Ok Retry.example_reply) (fun _ _ => Ok (Retry.mkReply 204 (mkReader [] None) None)) 0 0
    (fun _ h host _ s => mkOutgoing (mkReqState (mkRequest "GET" host (mkURL "https" None host "/" "" "") h (ReqBody (rq s)) 0 false) (rctx s)) empty_reader)
    (fun _ _ => Ok "") [] None (fun _ _ => true).
Definition answer (status : Z) (h : Header) (body : list Z) : result string Upstream := Ok (mkUpstream status h (mkReader body None) (-1) ∅).
Definition example_incoming : Incoming :=
  mkIncoming "POST" "api.test:" (mkURL "" None "" "/v1/items" "" "q=1") {["X-Key" := ["v"]; "Connection" := ["x-hop"]; "X-Hop" := ["1"]]}
    (Some (mkReader (bytes_of_string "hello") None)) 5 None "10.0.0.9:4000".
Definition example_retry : option Retry.Handler := match Retry.example_New with Ok h => Some h | Err _ => None end.
Definition example_net (k : nat) (_ : Outgoing) : result string Upstream :=
  match k with O => answer 402 ∅ [] | _ => answer 200 ∅ (bytes_of_string "done") end.
Definition example_handled : Handled := handleHTTP (example_world example_net) (example_px example_retry) example_incoming None.

Example handler_ex :
  map (fun o => (URLHost (ReqURL (rq (og_state o))), rd_data (og_Body o))) (hd_sent example_handled)
    = [("api.test", bytes_of_string "hello"); ("api.test", bytes_of_string "hello")]
  /\ map (fun o => raw_values (ReqHeader (rq (og_state o))) "X-Pay") (hd_sent example_handled) = [[]; ["v1"]]
  /\ map (fun o => raw_values (ReqHeader (rq (og_state o))) "X-Hop") (hd_sent example_handled) = [[]; []]
  /\ cr_StatusCode <$> hd_client example_handled = Some 200
  /\ length (hd_calls example_handled) = 2%nat.
Proof. repeat split; vm_compute; reflexivity. Qed.

(** Two requests, the second the replay of the first. *)
Lemma example_two : exists o1 o2, hd_sent example_handled = [o1; o2].
Proof.
  assert (length (hd_sent example_handled) = 2%nat) as Hl by (vm_compute; reflexivity).
  destruct (hd_sent example_handled) as [|o1 [|o2 [|]]]; try discriminate Hl. eauto.
Qed.

Lemma handler_sends_only_admitted_witness : exists o,
  o ∈ hd_sent example_handled /\ exists k, ValidateFinalDestination (w_now (example_world example_net) k) (og_state o) = true.
Proof.
  destruct example_two as (o1 & o2 & Hs). exists o2. assert (o2 ∈ hd_sent example_handled) as Hin by (rewrite Hs; right; left).
  split; [exact Hin|].
  destruct (handler_sends_only_admitted (example_world example_net) (example_px example_retry) example_incoming None o2 Hin)
    as (_ & _ & _ & _ & _ & _ & _ & Hk). exact Hk.
Defined.

Lemma handler_sent_as_judged_witness : exists o,
  o ∈ hd_sent example_handled /\ URLHost (ReqURL (rq (og_state o))) = "api.test" /\ Path (ReqURL (rq (og_state o))) = "/v1/items".
Proof.
  destruct example_two as (o1 & o2 & Hs). exists o2. assert (o2 ∈ hd_sent example_handled) as Hin by (rewrite Hs; right; left).
  split; [exact Hin|].
  destruct (handler_sent_as_judged (example_world example_net) (example_px example_retry) example_incoming None o2 Hin)
    as (_ & _ & _ & _ & _ & Hh & Hp & _). split; [exact Hh | exact Hp].
Defined.

Lemma handler_headers_clean_witness : exists o,
  o ∈ hd_sent example_handled /\ ReqHeader (rq (og_state o)) !! "X-Key" = Some ["v"] /\ CanonicalHeaderKey "X-Key" = "X-Key".
Proof.
  assert (exists o, o ∈ hd_sent example_handled /\ ReqHeader (rq (og_state o)) !! "X-Key" = Some ["v"]) as (o & Hin & Hk).
  { assert (match hd_sent example_handled with o :: _ => ReqHeader (rq (og_state o)) !! "X-Key" | [] => None end = Some ["v"]) as Hl
      by (vm_compute; reflexivity).
    destruct (hd_sent example_handled) as [|o l]; [discriminate Hl|]. exists o. split; [left | exact Hl]. }
  exists o. split; [exact Hin|]. split; [exact Hk|].
  destruct (handler_headers_clean (example_world example_net) (example_px example_retry) example_incoming None o "X-Key" ["v"] Hin)
    as [Hc _]; [| exact Hk | exact Hc].
  intros s mcp (_ & Hrq & _). rewrite Hrq. vm_compute. reflexivity.
Defined.

Lemma handler_audit_status_witness : exists c r,
  hd_client example_handled = Some c /\ hd_audit example_handled = Some r /\ cr_StatusCode c = 200 /\ pres_StatusCode r = cr_StatusCode c.
Proof.
  assert (match hd_client example_handled, hd_audit example_handled with Some c, Some _ => cr_StatusCode c | _, _ => 0 end = 200) as Hl
    by (vm_compute; reflexivity).
  destruct (hd_client example_handled) as [c|] eqn:Hc; [|discriminate Hl].
  destruct (hd_audit example_handled) as [r|] eqn:Hr; [|discriminate Hl].
  exists c, r. do 3 (split; [done|]).
  apply (handler_audit_status (example_world example_net) (example_px example_retry) example_incoming None c r);
    [vm_compute; reflexivity | | exact Hc | exact Hr].
  intros s mcp (_ & Hrq & _). rewrite Hrq. vm_compute. reflexivity.
Defined.

Definition example_upgrade : Incoming :=
  mkIncoming "POST" "api.test" (mkURL "" None "" "/ws" "" "") {["Upgrade" := ["websocket"]; "Connection" := ["Upgrade"]]} None 0 None "".
Lemma upgrade_refusal_audited_as_continued_witness : exists r,
  hd_audit (handleHTTP (example_world example_net) (example_px None) example_upgrade None) = Some r /\ pres_StatusCode r = 0.
Proof.
  destruct (upgrade_refusal_audited_as_continued (example_world example_net) (example_px None) example_upgrade None)
    as (c & r & _ & _ & Hr & _ & Hz); [discriminate | vm_compute; reflexivity | reflexivity | reflexivity | vm_compute; reflexivity | discriminate|].
  exists r. split; [exact Hr | exact Hz].
Defined.

(** A tool list as a finite event stream, with its length. *)
Definition list_request : string :=
  "{" +:+ quoted "id" +:+ ":1," +:+ quoted "method" +:+ ":" +:+ quoted "tools/list" +:+ "}".
Definition list_answer : string :=
  "data: {" +:+ quoted "id" +:+ ":1," +:+ quoted "result" +:+ ":{" +:+ quoted "tools" +:+ ":[{"
  +:+ quoted "name" +:+ ":" +:+ quoted "delete" +:+ "}]}}" +:+ string_of_bytes [10; 10].
Definition list_incoming : Incoming :=
  mkIncoming "POST" "mcp.test" (mkURL "" None "" "/rpc" "" "") ∅ (Some (mkReader (bytes_of_string list_request) None))
    (Z.of_nat (String.length list_request)) None "".
Definition list_net (_ : nat) (_ : Outgoing) : result string Upstream :=
  answer 200 {["Content-Type" := ["text/event-stream"]; "Content-Length" := [Itoa (Z.of_nat (String.length list_answer))]]}
    (bytes_of_string list_answer).

(** A filtered event stream keeps the length of the unfiltered one.  A
    tool list that the upstream sends as an event stream with a
    Content-Length is filtered, and the client is given fewer bytes under
    the upstream's Content-Length. *)
Theorem filtered_stream_stale_length :
  exists c, hd_client (handleHTTP (example_world list_net) (example_px None) list_incoming None) = Some c /\
    header_Values (cr_Header c) "Content-Length" = [Itoa (Z.of_nat (String.length list_answer))] /\
    (length (rd_data (cr_Body c)) < String.length list_answer)%nat.
Proof.
  destruct (hd_client (handleHTTP (example_world list_net) (example_px None) list_incoming None)) as [c|] eqn:Hc;
    [|vm_compute in Hc; discriminate Hc].
  exists c. split; [done|].
  assert (match hd_client (handleHTTP (example_world list_net) (example_px None) list_incoming None) with
          | Some c => header_Values (cr_Header c) "Content-Length" = [Itoa (Z.of_nat (String.length list_answer))]
                      /\ (length (rd_data (cr_Body c)) <? String.length list_answer)%nat = true
          | None => False end) as Hv by (vm_compute; split; reflexivity).
  rewrite Hc in Hv. destruct Hv as [Hv1 Hv2]. split; [done|]. by apply Nat.ltb_lt.
Qed.

End examples.
