(* ===== verification/ProxyTunnel.v ===== *)
(** * Tunnels (src/internal/proxy/tunnel.go, sni_passthrough.go, snipeek.go)

    The CONNECT and SOCKS5 front end, the admission of a tunnel by the
    transform pipeline, and the pass-through of TLS connections by their
    server name.  A connection is the list of what its reads return; the
    buffered reader over it is modelled because what it holds back matters.
    [crypto/tls] and the dials are parameters. *)
From stdpp Require Import base gmap strings list option.
From Stdlib Require Import ZArith Lia Ascii.
From S2P Require Import Prelude GoUtf8 GoStrings GoNet Body GoHttp GoUrl GoJson GoRegexp HostMatch.
From S2P Require Import Transform AuditLog ScrubPairs Secrets ScrubResponse RetryHandler ProxyHttp.
Local Open Scope string_scope.
Local Open Scope list_scope.
Local Open Scope Z_scope.

Module Tunnel.

(** ** bufio.Reader *)

(** The buffered bytes, and what the connection's reads will return. *)
Record bufr := mkBufr { b_buf : list Z; b_src : list (list Z) }.
Definition NewReader (conn : list (list Z)) : bufr := mkBufr [] conn.
Definition bufio_size : nat := 4096.

(** One read into the empty buffer; reads that return nothing are repeated.
    [None] is the end of the connection. *)
Fixpoint fill (src : list (list Z)) : option bufr :=
  match src with
  | [] => None
  | [] :: src' => fill src'
  | chunk :: src' => Some (mkBufr (take bufio_size chunk) (match drop bufio_size chunk with [] => src' | rest => rest :: src' end))
  end.
Definition filled (b : bufr) : option bufr := match b_buf b with [] => fill (b_src b) | _ => Some b end.
Definition Peek1 (b : bufr) : option (Z * bufr) :=
  match filled b with Some b' => (fun c => (c, b')) <$> head (b_buf b') | None => None end.
Definition ReadByte (b : bufr) : option (Z * bufr) :=
  '(c, b') ← Peek1 b; Some (c, mkBufr (tail (b_buf b')) (b_src b')).
(** [io.ReadFull]. *)
Fixpoint ReadFull (n : nat) (b : bufr) : option (list Z * bufr) :=
  match n with
  | O => Some ([], b)
  | S n' => '(c, b') ← ReadByte b; '(cs, b'') ← ReadFull n' b'; Some (c :: cs, b'')
  end.

(** ** SOCKS5 *)

Definition socks5Reply (status : Z) : list Z := [5; status; 0; 1; 0; 0; 0; 0; 0; 0].

(** [net.IP.String] of 4 and of 16 bytes. *)
Definition bytes_value (l : list Z) : Z := foldl (fun v b => v * 256 + b) 0 l.
Definition IP_String (l : list Z) : string :=
  if (length l =? 4)%nat then Addr_String (Addr4 (bytes_value l))
  else match To4 (bytes_value l) with
       | Some v => Addr_String (Addr4 v)
       | None => Addr_String (Addr6 (bytes_value l) "")
       end.

(** How the negotiation ends: an error on the connection, a refusal that was
    written, or a target to check. *)
Inductive socks_end :=
  | SocksFailed (step : string)
  | SocksRefused (status : Z)
  | SocksTarget (target : string) (rest : bufr).

(** The address of the connect request: [None] is a type that is not
    supported, [Some None] a short read. *)
Definition socks_address (atyp : Z) (b : bufr) : option (option (string * bufr)) :=
  if atyp =? 1 then Some ('(a, b) ← ReadFull 4 b; Some (IP_String a, b))
  else if atyp =? 3 then
    Some ('(n, b) ← ReadByte b; '(d, b) ← ReadFull (Z.to_nat n) b; Some (string_of_bytes d, b))
  else if atyp =? 4 then Some ('(a, b) ← ReadFull 16 b; Some (IP_String a, b))
  else None.

(** [handleSOCKS5] up to the target: what is written, and how it ends. *)
Definition socks_connect (b : bufr) : list (list Z) * socks_end :=
  match ReadFull 4 b with
  | None => ([], SocksFailed "connect header")
  | Some (header, b) =>
    if negb (default 0 (header !! 0%nat) =? 5) then ([], SocksFailed "connect version")
    else if negb (default 0 (header !! 1%nat) =? 1) then ([socks5Reply 7], SocksRefused 7)
    else match socks_address (default 0 (header !! 3%nat)) b with
         | None => ([socks5Reply 8], SocksRefused 8)
         | Some None => ([], SocksFailed "address")
         | Some (Some (targetHost, b)) =>
           match ReadFull 2 b with
           | None => ([], SocksFailed "port")
           | Some (portBuf, b) => ([], SocksTarget (JoinHostPort targetHost (Itoa (bytes_value portBuf))) b)
           end
         end
  end.
Definition socks_negotiate (b : bufr) : list (list Z) * socks_end :=
  match ReadByte b with
  | None => ([], SocksFailed "version")
  | Some (ver, b) =>
    if negb (ver =? 5) then ([], SocksFailed "version")
    else match ReadByte b with
         | None => ([], SocksFailed "nmethods")
         | Some (nmethods, b) =>
           match ReadFull (Z.to_nat nmethods) b with
           | None => ([], SocksFailed "methods")
           | Some (methods, b) =>
             if negb (existsb (fun m => m =? 0) methods) then ([socks5Reply 255], SocksRefused 255)
             else let '(out, e) := socks_connect b in ([5; 0] :: out, e)
           end
         end
  end.

(** ** Admission *)

Definition isHTTPMethodByte (b : Z) : bool := (65 <=? b) && (b <=? 90).

(** What happens to the connection inside a tunnel. *)
Inductive tunnel_end :=
  | TunnelClosed
  | TunnelUnsupported (first : Z)
  | TunnelTLS (conn : bufr)
  | TunnelHTTP (conn : bufr).

Definition serveTunnelWithReader (br : bufr) : tunnel_end :=
  match Peek1 br with
  | None => TunnelClosed
  | Some (first, br) =>
    if first =? 22 then TunnelTLS br
    else if isHTTPMethodByte first then TunnelHTTP br
    else TunnelUnsupported first
  end.
(** [serveTunnel] puts a new reader on the connection. *)
Definition serveTunnel (conn : list (list Z)) : tunnel_end := serveTunnelWithReader (NewReader conn).

Section admission.
Context `{UnicodeTables} `{Regexp} `{MapRange}.
Variable ready : bool.
Variable elapsed : nat -> Z.
Variable duration : Z.
Variable pl : Pipeline (option requestScrubs).
Variable sniOnly : bool.                         (* tls.mode is sni-only *)

Definition finish (r : PipelineResult) : PipelineResult :=
  mkPipelineResult (pres_Host r) (pres_Method r) (pres_Path r) (pres_RemoteAddr r) (pres_SNI r) (pres_Mode r) duration
    (pres_Action r) (pres_StatusCode r) (pres_Tunnel r) (pres_RequestTransforms r) (pres_ResponseTransforms r) (pres_MCP r)
    (pres_BodyCapture r) (pres_Err r) (pres_ClientCanceled r).

Definition no_body : BufferedBody.t := BufferedBody.NewBufferedBody (Some empty_reader) 0.

(** The synthetic CONNECT request the pipeline judges. *)
Definition connect_request (target : string) (connectHeaders : option Header) : State :=
  mkReqState (mkRequest "CONNECT" target (mkURL "" None target "" "" "") (default ∅ connectHeaders) no_body 0 false) None.
Definition connect_mode : TransformMode := if sniOnly then ModeSNIOnly else ModeMITM.
Definition connect_context (target : string) : TransformContext :=
  mkContext (match SplitHostPort target with Some (h, _) => h | None => "" end) connect_mode None (negb sniOnly) None None.

(** [tunnelTransformCheck]: the tunnel's information when it is admitted, or the response
    to refuse with, if any; and the audit record. *)
Definition tunnelTransformCheck (remoteAddr target : string) (connectHeaders : option Header)
    : result (option Response) TunnelInfo * PipelineResult :=
  let tctx := connect_context target in
  let result := new_result target "CONNECT" "" remoteAddr (SNI tctx) connect_mode None in
  if negb ready then (Err (Some notReadyResponse), finish (markNotReady result))
  else
    let pr := ProcessRequest elapsed pl tctx (connect_request target connectHeaders) [] in
    let result := set_request_traces result (pr_traces pr) None in
    match pr_outcome pr with
    | Err (name, e) =>
      (Err None, finish (set_outcome result ActionContinue StatusBadGateway (Some ("transform " +:+ name +:+ " request: " +:+ e))))
    | Ok (Some rejectResp) =>
      (Err (Some rejectResp), finish (set_outcome result (ShortCircuitAction (pr_traces pr)) (StatusCode rejectResp) None))
    | Ok None =>
      (Ok (mkTunnel target (pr_traces pr)), finish (set_outcome result ActionContinue StatusOK None))
    end.

(** [handleSOCKS5] as a whole: what is written, and what is served of the
    connection, with the tunnel's information. *)
Definition handleSOCKS5 (remoteAddr : string) (br : bufr) : list (list Z) * option (tunnel_end * string * TunnelInfo) :=
  let '(out, e) := socks_negotiate br in
  match e with
  | SocksTarget target b =>
    match (tunnelTransformCheck remoteAddr target None).1 with
    | Err _ => (out ++ [socks5Reply 2], None)
    | Ok info => (out ++ [socks5Reply 0], Some (serveTunnel (b_src b), target, info))
    end
  | _ => (out, None)
  end.

(** [handleTunnelCONNECT]: a refusal, or what is served of the hijacked
    connection, whose reader keeps what it buffered. *)
Definition connect_host (host : string) : string :=
  match SplitHostPort host with Some _ => host | None => JoinHostPort host "443" end.
Definition close_connection (c : ClientResponse) : ClientResponse :=
  mkClientResponse (cr_StatusCode c) (<["Connection" := "close" :: raw_values (cr_Header c) "Connection"]> (cr_Header c)) (cr_Body c) (cr_Trailer c).
Definition handleTunnelCONNECT (remoteAddr host : string) (header : Header) (rw : bufr)
    : ClientResponse + (tunnel_end * string * TunnelInfo) :=
  let target := connect_host host in
  match (tunnelTransformCheck remoteAddr target (Some header)).1 with
  | Err None => inl (close_connection (http_Error "Forbidden" StatusForbidden))
  | Err (Some resp) => inl (close_connection (writeResponse None resp ∅))
  | Ok info => inr (serveTunnelWithReader rw, target, info)
  end.

(** The first byte on the tunnel port chooses the protocol; a proxy request
    that is neither CONNECT nor for an http URL is refused. *)
Inductive tunnel_protocol := ProtocolSOCKS5 (br : bufr) | ProtocolHTTP (br : bufr).
Definition handleTunnel (conn : list (list Z)) : option tunnel_protocol :=
  '(first, br) ← Peek1 (NewReader conn); Some (if first =? 5 then ProtocolSOCKS5 br else ProtocolHTTP br).
Inductive proxy_request := ProxyConnect | ProxyForward | ProxyRefused (c : ClientResponse).
Definition serveTunnelProxyHTTP (method scheme : string) : proxy_request :=
  if str_eqb method "CONNECT" then ProxyConnect
  else if negb (str_eqb scheme "http") then ProxyRefused (http_Error "unsupported proxy request scheme" StatusBadRequest)
  else ProxyForward.

(** ** SNI pass-through *)

Definition maxClientHelloBytes : nat := 16 * 1024.
(** [recordingConn.Read]: the connection has [avail] to give to a buffer of
    [n] bytes; [None] is [io.ErrShortBuffer]. *)
Definition recording_Read (n : nat) (buf avail : list Z) : option (list Z * list Z) :=
  if (maxClientHelloBytes <=? length buf)%nat then None
  else let got := take n avail in Some (got, buf ++ got).

(** [peekSNI]: what [crypto/tls] captured, if its callback ran, and what was
    recorded. *)
Definition peekSNI (captured : option string) (recorded : list Z) : option (string * list Z) :=
  (fun sni => (sni, recorded)) <$> captured.

Definition defaultSNIUpstream : string := "443".
Definition sni_request (sni : string) : State :=
  mkReqState (mkRequest "" sni (mkURL "https" None sni "" "" "") ∅ no_body 0 false) None.
Definition sni_context (sni : string) : TransformContext := mkContext sni ModeSNIOnly None false None None.

(** What [serveSNIPassthrough] does: the address it dials and the request it
    dials for, the bytes it replays to the upstream, and the audit record.
    [dial] gives the error of the dial, or of the replay's write. *)
Record passthrough := mkPassthrough {
  pt_dialed : option (string * State); pt_replayed : list Z; pt_relayed : bool; pt_audit : option PipelineResult }.
Definition serveSNIPassthrough (sniUpstreamPort remoteAddr : string) (peeked : option (string * list Z))
    (dial : string -> State -> result string (option string)) : passthrough :=
  match peeked with
  | None => mkPassthrough None [] false None
  | Some (sni, hello) =>
    let result := new_result sni "" "" remoteAddr sni ModeSNIOnly None in
    let refuse r := mkPassthrough None [] false (Some (finish r)) in
    if negb ready then refuse (markNotReady result)
    else if is_empty sni then refuse (set_outcome result ActionReject StatusBadRequest (Some "client hello missing sni"))
    else
      let pr := ProcessRequest elapsed pl (sni_context sni) (sni_request sni) [] in
      let result := set_request_traces result (pr_traces pr) None in
      match pr_outcome pr with
      | Err (name, e) => refuse (set_outcome result ActionContinue StatusBadGateway (Some ("transform " +:+ name +:+ " request: " +:+ e)))
      | Ok (Some rejectResp) => refuse (set_outcome result (ShortCircuitAction (pr_traces pr)) (StatusCode rejectResp) None)
      | Ok None =>
        let port := if is_empty sniUpstreamPort then defaultSNIUpstream else sniUpstreamPort in
        let address := JoinHostPort sni port in
        match dial address (pr_req pr) with
        | Err e => mkPassthrough (Some (address, pr_req pr)) [] false (Some (finish (set_outcome result ActionContinue StatusBadGateway (Some e))))
        | Ok (Some e) => mkPassthrough (Some (address, pr_req pr)) hello false
                           (Some (finish (set_outcome result ActionContinue StatusBadGateway (Some e))))
        | Ok None => mkPassthrough (Some (address, pr_req pr)) hello true (Some (finish (set_outcome result ActionContinue StatusOK None)))
        end
      end
  end.

End admission.
(** ** Facts: the buffered reader *)

(** What is still to be read. *)
Definition content (b : bufr) : list Z := b_buf b ++ concat (b_src b).

Lemma fill_content src :
  match fill src with
  | Some b => content b = concat src /\ b_buf b <> []
  | None => concat src = []
  end.
Proof.
  induction src as [|[|x chunk] src IH]; [done|exact IH|]. cbn [fill]. split; [|done]. unfold content. cbn [b_buf b_src concat].
  rewrite <- (take_drop bufio_size (x :: chunk)) at 3. rewrite <- app_assoc. f_equal.
  by destruct (drop bufio_size (x :: chunk)).
Qed.

Lemma ReadByte_spec b :
  match content b with
  | [] => ReadByte b = None
  | c :: rest => exists b', ReadByte b = Some (c, b') /\ content b' = rest
  end.
Proof.
  unfold ReadByte, Peek1, filled, content. destruct b as [[|c buf] src]; cbn [b_buf b_src app].
  - pose proof (fill_content src) as Hf. destruct (fill src) as [[[|c buf] src']|]; [by destruct Hf| |by rewrite Hf].
    unfold content in Hf. cbn [b_buf b_src] in Hf. destruct Hf as [<- _]. cbn. by exists (mkBufr buf src').
  - cbn. by exists (mkBufr buf src).
Qed.

Lemma ReadFull_spec l rest b :
  content b = l ++ rest -> exists b', ReadFull (length l) b = Some (l, b') /\ content b' = rest.
Proof.
  revert b. induction l as [|c l IH]; intros b Hc; [by exists b|]. cbn [length ReadFull].
  pose proof (ReadByte_spec b) as Hb. rewrite Hc in Hb. cbn [app] in Hb. destruct Hb as (b1 & -> & Hb1).
  cbn [mbind option_bind]. destruct (IH b1 Hb1) as (b2 & -> & Hb2). by exists b2.
Qed.

Lemma ReadFull_at n l rest b :
  n = length l -> content b = l ++ rest -> exists b', ReadFull n b = Some (l, b') /\ content b' = rest.
Proof. intros ->. apply ReadFull_spec. Qed.

(** Reading never skips the connection ahead of the buffer. *)
Lemma ReadByte_src b c b' : ReadByte b = Some (c, b') -> b_src b = [] -> b_src b' = [].
Proof.
  unfold ReadByte, Peek1, filled. destruct b as [[|x buf] src]; cbn [b_buf b_src]; intros Hr ->; [done|]. by injection Hr as _ <-.
Qed.

(** ** Facts: SOCKS5 *)

(** A connect request's address, and the host it stands for. *)
Inductive socks_encodes : string -> list Z -> Prop :=
  | encodes_v4 a : length a = 4%nat -> socks_encodes (IP_String a) (1 :: a)
  | encodes_domain d : (length d < 256)%nat -> socks_encodes (string_of_bytes d) (3 :: Z.of_nat (length d) :: d)
  | encodes_v6 a : length a = 16%nat -> socks_encodes (IP_String a) (4 :: a).

Lemma socks_address_reads host atyp addr rest b :
  socks_encodes host (atyp :: addr) -> content b = addr ++ rest ->
  exists b', socks_address atyp b = Some (Some (host, b')) /\ content b' = rest.
Proof.
  intros He Hc. unfold socks_address. inversion He as [a Ha | d Hd | a Ha]; subst.
  - destruct (ReadFull_at 4 addr rest b) as (b' & Hr & Hb'); [done|done|]. cbn [Z.eqb Pos.eqb]. rewrite Hr. by exists b'.
  - cbn [Z.eqb Pos.eqb]. pose proof (ReadByte_spec b) as Hb. rewrite Hc in Hb. cbn [app] in Hb. destruct Hb as (b1 & -> & Hb1).
    cbn [mbind option_bind]. destruct (ReadFull_at (Z.to_nat (Z.of_nat (length d))) d rest b1) as (b' & Hr & Hb'); [by rewrite Nat2Z.id|done|].
    rewrite Hr. by exists b'.
  - destruct (ReadFull_at 16 addr rest b) as (b' & Hr & Hb'); [done|done|]. cbn [Z.eqb Pos.eqb]. rewrite Hr. by exists b'.
Qed.

Definition socks_request (methods : list Z) (rsv : Z) (addr : list Z) (p1 p2 : Z) : list Z :=
  [5; Z.of_nat (length methods)] ++ methods ++ [5; 1; rsv] ++ addr ++ [p1; p2].

(** The request is understood, however the stream is cut into reads. *)
Lemma socks_negotiate_reads methods rsv host addr p1 p2 rest b :
  0 ∈ methods -> socks_encodes host addr -> content b = socks_request methods rsv addr p1 p2 ++ rest ->
  exists b', socks_negotiate b = ([[5; 0]], SocksTarget (JoinHostPort host (Itoa (p1 * 256 + p2))) b') /\ content b' = rest.
Proof.
  intros Hm He Hc. unfold socks_request in Hc. unfold socks_negotiate.
  pose proof (ReadByte_spec b) as Hb. rewrite Hc in Hb. cbn [app] in Hb. destruct Hb as (b1 & -> & Hb1). cbn [Z.eqb Pos.eqb negb].
  pose proof (ReadByte_spec b1) as Hb. rewrite Hb1 in Hb. destruct Hb as (b2 & -> & Hb2).
  rewrite <- app_assoc in Hb2. destruct (ReadFull_at (Z.to_nat (Z.of_nat (length methods))) methods _ b2 ltac:(by rewrite Nat2Z.id) Hb2) as (b3 & -> & Hb3).
  assert (existsb (fun m => m =? 0) methods = true) as -> by (apply existsb_elem; by exists 0). cbn [negb].
  unfold socks_connect. destruct addr as [|atyp addr]; [inversion He|]. cbn [app] in Hb3.
  destruct (ReadFull_at 4 [5; 1; rsv; atyp] ((addr ++ [p1; p2]) ++ rest) b3) as (b4 & -> & Hb4); [done|exact Hb3|].
  cbn [lookup list_lookup default negb Z.eqb Pos.eqb from_option id].
  change (default 0 ([5; 1; rsv; atyp] !! 0%nat)) with 5. change (default 0 ([5; 1; rsv; atyp] !! 1%nat)) with 1.
  change (default 0 ([5; 1; rsv; atyp] !! 3%nat)) with atyp. cbn [Z.eqb Pos.eqb negb].
  rewrite <- app_assoc in Hb4. destruct (socks_address_reads host atyp addr _ b4 He Hb4) as (b5 & -> & Hb5).
  destruct (ReadFull_at 2 [p1; p2] rest b5) as (b6 & -> & Hb6); [done|exact Hb5|].
  exists b6. split; [|done]. unfold bytes_value. cbn [foldl]. by rewrite Z.mul_0_l, Z.add_0_l.
Qed.

Lemma ReadFull_src n b l b' : ReadFull n b = Some (l, b') -> b_src b = [] -> b_src b' = [].
Proof.
  revert b l. induction n as [|n IH]; intros b l; cbn [ReadFull]; [by intros [= _ <-]|].
  destruct (ReadByte b) as [[c b1]|] eqn:Hb; [|done]. cbn [mbind option_bind].
  destruct (ReadFull n b1) as [[cs b2]|] eqn:Hf; [|done]. cbn [mbind option_bind]. intros [= _ <-] Hs.
  eapply IH; [done|]. by eapply ReadByte_src.
Qed.

Lemma socks_address_src atyp b host b' : socks_address atyp b = Some (Some (host, b')) -> b_src b = [] -> b_src b' = [].
Proof.
  unfold socks_address. destruct (atyp =? 1); [|destruct (atyp =? 3); [|destruct (atyp =? 4); [|done]]]; intros Hr Hs; apply (inj Some) in Hr.
  - destruct (ReadFull 4 b) as [[a b1]|] eqn:Hf; [|done]. injection Hr as _ <-. by eapply ReadFull_src.
  - destruct (ReadByte b) as [[n b1]|] eqn:Hb; [|done]. cbn [mbind option_bind] in Hr.
    destruct (ReadFull _ b1) as [[d b2]|] eqn:Hf; [|done]. injection Hr as _ <-. eapply ReadFull_src; [done|]. by eapply ReadByte_src.
  - destruct (ReadFull 16 b) as [[a b1]|] eqn:Hf; [|done]. injection Hr as _ <-. by eapply ReadFull_src.
Qed.

Lemma socks_connect_src b out target b' : socks_connect b = (out, SocksTarget target b') -> b_src b = [] -> b_src b' = [].
Proof.
  unfold socks_connect. destruct (ReadFull 4 b) as [[hd b1]|] eqn:H1; [|done].
  destruct (negb _); [done|]. destruct (negb _); [done|].
  destruct (socks_address _ b1) as [[[host b2]|]|] eqn:H2; [|done|done].
  destruct (ReadFull 2 b2) as [[pb b3]|] eqn:H3; [|done]. intros [= _ _ <-] Hs.
  eapply ReadFull_src; [done|]. eapply socks_address_src; [done|]. by eapply ReadFull_src.
Qed.

Lemma socks_negotiate_src b out target b' : socks_negotiate b = (out, SocksTarget target b') -> b_src b = [] -> b_src b' = [].
Proof.
  unfold socks_negotiate. destruct (ReadByte b) as [[ver b1]|] eqn:H1; [|done]. destruct (negb _); [done|].
  destruct (ReadByte b1) as [[n b2]|] eqn:H2; [|done]. destruct (ReadFull _ b2) as [[ms b3]|] eqn:H3; [|done].
  destruct (negb _); [done|]. destruct (socks_connect b3) as [o e] eqn:H4. intros [= _ ->] Hs.
  eapply socks_connect_src; [done|]. eapply ReadFull_src; [done|]. eapply ReadByte_src; [done|]. by eapply ReadByte_src.
Qed.

(** Only a target can follow, and only the admission answers it. *)
Lemma socks_negotiate_out b out e : socks_negotiate b = (out, e) -> socks5Reply 0 ∉ out.
Proof.
  unfold socks_negotiate. destruct (ReadByte b) as [[ver b1]|]; [|intros [= <- _]; set_solver].
  destruct (negb _); [intros [= <- _]; set_solver|].
  destruct (ReadByte b1) as [[n b2]|]; [|intros [= <- _]; set_solver].
  destruct (ReadFull _ b2) as [[ms b3]|]; [|intros [= <- _]; set_solver].
  destruct (negb _); [intros [= <- _]; set_solver|].
  destruct (socks_connect b3) as [o e'] eqn:Hc. intros [= <- _].
  enough (socks5Reply 0 ∉ o) by set_solver. revert Hc. unfold socks_connect.
  destruct (ReadFull 4 b3) as [[hd b4]|]; [|intros [= <- _]; set_solver].
  destruct (negb _); [intros [= <- _]; set_solver|]. destruct (negb _); [intros [= <- _]; set_solver|].
  destruct (socks_address _ b4) as [[[host b5]|]|]; [|intros [= <- _]; set_solver..].
  destruct (ReadFull 2 b5) as [[pb b6]|]; intros [= <- _]; set_solver.
Qed.

(** ** Properties *)

Section properties.
Context `{UnicodeTables} `{Regexp} `{MapRange}.

(** A SOCKS5 request is understood whole, however it arrives.  A client
    that offers no authentication and asks to connect to an IPv4 or IPv6
    address or a domain, in any cut of the bytes into reads, is answered
    that no authentication is used, the target is the encoded host and port,
    and exactly the bytes behind the request are left to be read. *)
Theorem socks_request_understood methods rsv host addr p1 p2 rest b :
  0 ∈ methods -> socks_encodes host addr -> content b = socks_request methods rsv addr p1 p2 ++ rest ->
  exists b', socks_negotiate b = ([[5; 0]], SocksTarget (JoinHostPort host (Itoa (p1 * 256 + p2))) b') /\ content b' = rest.
Proof. apply socks_negotiate_reads. Qed.

Section world.
Variables (ready : bool) (elapsed : nat -> Z) (duration : Z) (pl : Pipeline (option requestScrubs)) (sniOnly : bool).

Lemma tunnelTransformCheck_Ok remote target hs info audit :
  tunnelTransformCheck ready elapsed duration pl sniOnly remote target hs = (Ok info, audit) ->
  ready = true /\ Target info = target /\ Forall trace_continues (TunnelTransforms info) /\
  map tr_Name (TunnelTransforms info) = map Name (transforms pl) /\ pres_Action audit = ActionContinue /\ pres_StatusCode audit = 200.
Proof.
  unfold tunnelTransformCheck. destruct ready; [|done]. cbn [negb].
  unfold ProcessRequest. destruct (process_request_traces elapsed 0 (transforms pl) (connect_context sniOnly target)
    (connect_request target hs) []) as (new & Hnew & Hnames & Hexp).
  destruct (pr_outcome _) as [[rej|]|[n e]]; [done| |done]. intros [= <- <-]. cbn in Hexp. destruct Hexp as [Hlen Hall].
  rewrite Hnew. cbn [app Target TunnelTransforms]. do 2 (split; [done|]). split; [done|]. split; [|done]. by rewrite Hnames, take_ge by lia.
Qed.

(** A tunnel opens only when the pipeline admits it.  A SOCKS5 client
    gets the success reply exactly when its connection is served; then the
    proxy was ready, every transform ran on the CONNECT request for the
    negotiated target and let it continue, and the requests inside the
    tunnel carry those traces and that target. *)
Theorem socks_tunnel_admitted remote br out served :
  handleSOCKS5 ready elapsed duration pl sniOnly remote br = (out, served) ->
  (socks5Reply 0 ∈ out <-> is_Some served) /\
  forall e target info, served = Some (e, target, info) ->
    (exists out' b, socks_negotiate br = (out', SocksTarget target b)) /\ ready = true /\ Target info = target /\
    Forall trace_continues (TunnelTransforms info) /\ map tr_Name (TunnelTransforms info) = map Name (transforms pl).
Proof.
  unfold handleSOCKS5. destruct (socks_negotiate br) as [o e] eqn:Hn. pose proof (socks_negotiate_out _ _ _ Hn) as Ho.
  destruct e as [st|st|target b]; [intros [= <- <-]; split; [by split; [|intros [? ?]]|done]..|].
  destruct (tunnelTransformCheck ready elapsed duration pl sniOnly remote target None) as [[info|resp] audit] eqn:Hc; cbn [fst]; intros [= <- <-].
  - split; [split; [by eauto|]; intros _; set_solver|]. intros e t i [= _ <- <-].
    apply tunnelTransformCheck_Ok in Hc as (Hr & Ht & Hall & Hm & _). split; [eauto|done].
  - split; [|done]. split; [|by intros [? ?]]. intros Hin. apply elem_of_app in Hin as [?|Hin]; [done|].
    apply list_elem_of_singleton in Hin. discriminate Hin.
Qed.

(** In sni-only mode a connection goes to the server it named, on the
    fixed port.  [serveSNIPassthrough] dials only after the proxy was ready,
    the ClientHello named a server and every transform let that name
    continue; it dials that name on the configured port, 443 by default,
    whatever a CONNECT asked for; it replays the ClientHello it read, and
    the audit says 200 exactly when the connection was relayed. *)
Theorem sni_dials_judged port remote peeked dial address st :
  let out := serveSNIPassthrough ready elapsed duration pl port remote peeked dial in
  pt_dialed out = Some (address, st) ->
  exists sni hello traces, peeked = Some (sni, hello) /\ sni <> "" /\ ready = true /\
    address = JoinHostPort sni (if is_empty port then "443" else port) /\
    pr_outcome (ProcessRequest elapsed pl (sni_context sni) (sni_request sni) []) = Ok None /\
    st = pr_req (ProcessRequest elapsed pl (sni_context sni) (sni_request sni) []) /\
    traces = pr_traces (ProcessRequest elapsed pl (sni_context sni) (sni_request sni) []) /\
    Forall trace_continues traces /\ map tr_Name traces = map Name (transforms pl) /\
    (pt_relayed out = true -> pt_replayed out = hello) /\
    exists r, pt_audit out = Some r /\ (pres_StatusCode r = 200 <-> pt_relayed out = true).
Proof.
  cbn zeta. unfold serveSNIPassthrough. destruct peeked as [[sni hello]|]; [|done].
  destruct ready; [|done]. cbn [negb]. destruct (is_empty sni) eqn:He; [done|]. apply is_empty_false in He.
  set (pr := ProcessRequest elapsed pl (sni_context sni) (sni_request sni) []).
  assert (pr_outcome pr = Ok None -> Forall trace_continues (pr_traces pr) /\ map tr_Name (pr_traces pr) = map Name (transforms pl)) as Htr.
  { intros Hok. unfold pr, ProcessRequest in *. destruct (process_request_traces elapsed 0 (transforms pl) (sni_context sni)
      (sni_request sni) []) as (new & Hnew & Hnames & Hexp). rewrite Hok in Hexp. cbn in Hexp. destruct Hexp as [Hlen Hall].
    rewrite Hnew. cbn [app]. split; [done|]. by rewrite Hnames, take_ge by lia. }
  destruct (pr_outcome pr) as [[rej|]|[n e]] eqn:Hok; [done| |done]. destruct (Htr eq_refl) as [Hall Hm].
  fold defaultSNIUpstream. set (addr := JoinHostPort sni _). intros Hd. exists sni, hello, (pr_traces pr).
  split; [done|]. split; [done|]. split; [done|].
  destruct (dial addr (pr_req pr)) as [[e|]|e]; cbn [pt_dialed pt_relayed pt_replayed pt_audit] in *; injection Hd as <- <-;
    do 6 (split; [done|]); (split; [done|]); eexists; (split; [reflexivity|]); done.
Qed.

(** A SOCKS5 client that does not wait for the reply loses what it sent.
    When the negotiation and the first bytes of the tunnel arrive in one
    read, the tunnel is served from a new reader on the connection: the
    bytes the first reader had buffered are gone, here all of them, so the
    tunnel sees the end of the connection.  The CONNECT path keeps them. *)
Theorem socks_early_bytes_lost remote methods rsv host addr p1 p2 rest info audit :
  0 ∈ methods -> socks_encodes host addr ->
  (length (socks_request methods rsv addr p1 p2 ++ rest) <= bufio_size)%nat ->
  tunnelTransformCheck ready elapsed duration pl sniOnly remote (JoinHostPort host (Itoa (p1 * 256 + p2))) None = (Ok info, audit) ->
  exists br, handleTunnel [socks_request methods rsv addr p1 p2 ++ rest] = Some (ProtocolSOCKS5 br) /\
    (handleSOCKS5 ready elapsed duration pl sniOnly remote br).2
      = Some (TunnelClosed, JoinHostPort host (Itoa (p1 * 256 + p2)), info) /\
    (forall first rest', rest = first :: rest' -> first = 22 ->
       serveTunnelWithReader (mkBufr rest []) = TunnelTLS (mkBufr rest [])).
Proof.
  intros Hm He Hl Hc. set (chunk := socks_request methods rsv addr p1 p2 ++ rest) in *.
  exists (mkBufr chunk []). split.
  { unfold handleTunnel, Peek1, filled, NewReader. cbn [b_buf b_src].
    assert (exists c, chunk = 5 :: c) as [c Hch] by (unfold chunk, socks_request; eauto). rewrite Hch in *.
    cbn [fill]. rewrite take_ge, drop_ge by lia. done. }
  split.
  - destruct (socks_negotiate_reads methods rsv host addr p1 p2 rest (mkBufr chunk [])) as (b' & Hn & _); [done|done|by unfold content; rewrite app_nil_r|].
    unfold handleSOCKS5. rewrite Hn, Hc. cbn [fst snd]. by rewrite (socks_negotiate_src _ _ _ _ Hn eq_refl).
  - intros first rest' -> ->. done.
Qed.

End world.
End properties.

(** ** Witnesses *)

Section examples.
#[local] Existing Instance ascii_tables.
#[local] Existing Instance literal_regexp.
#[local] Existing Instance default_range.

Definition example_pl : Pipeline (option requestScrubs) := mkPipeline [] (mkLimits 0 0).
Definition example_domain : list Z := 3 :: 8 :: bytes_of_string "api.test".
Definition example_hello : list Z := [22; 3; 1].
Lemma example_encodes : socks_encodes "api.test" example_domain.
Proof. apply (encodes_domain (bytes_of_string "api.test")). cbn. lia. Qed.

(** The request in three reads, the second one empty. *)
Lemma socks_request_understood_witness :
  exists b', socks_negotiate (NewReader [[5; 2; 1]; []; [0; 5; 1; 0] ++ example_domain ++ [1; 187] ++ example_hello])
    = ([[5; 0]], SocksTarget "api.test:443" b') /\ content b' = example_hello.
Proof.
  apply (socks_request_understood [1; 0] 0 "api.test" example_domain 1 187 example_hello); [set_solver | apply example_encodes | reflexivity].
Defined.

Lemma socks_tunnel_admitted_witness :
  exists out served, handleSOCKS5 true (fun _ => 0) 0 example_pl false "" (NewReader [[5; 1; 0; 5; 1; 0] ++ example_domain ++ [1; 187]; example_hello])
    = (out, served) /\ (socks5Reply 0 ∈ out <-> is_Some served) /\ is_Some served.
Proof.
  destruct (handleSOCKS5 true (fun _ => 0) 0 example_pl false "" (NewReader [[5; 1; 0; 5; 1; 0] ++ example_domain ++ [1; 187]; example_hello]))
    as [out served] eqn:Hs.
  exists out, served. split; [done|].
  destruct (socks_tunnel_admitted true (fun _ => 0) 0 example_pl false "" _ out served Hs) as [Hiff _]. split; [exact Hiff|].
  vm_compute in Hs. injection Hs as _ <-. eauto.
Defined.

Lemma sni_dials_judged_witness : exists st,
  let out := serveSNIPassthrough true (fun _ => 0) 0 example_pl "" "" (Some ("api.test", example_hello)) (fun _ _ => Ok None) in
  pt_dialed out = Some ("api.test:443", st) /\ (pt_relayed out = true -> pt_replayed out = example_hello).
Proof.
  exists (sni_request "api.test"). cbn zeta. split; [reflexivity|].
  destruct (sni_dials_judged true (fun _ => 0) 0 example_pl "" "" (Some ("api.test", example_hello)) (fun _ _ => Ok None)
    "api.test:443" (sni_request "api.test") ltac:(reflexivity)) as (sni & hello & tr & [= <- <-] & _ & _ & _ & _ & _ & _ & _ & _ & Hr & _).
  exact Hr.
Defined.

Lemma socks_early_bytes_lost_witness :
  exists br info, handleTunnel [socks_request [0] 0 example_domain 1 187 ++ example_hello] = Some (ProtocolSOCKS5 br) /\
    (handleSOCKS5 true (fun _ => 0) 0 example_pl false "" br).2 = Some (TunnelClosed, "api.test:443", info).
Proof.
  destruct (tunnelTransformCheck true (fun _ => 0) 0 example_pl false "" "api.test:443" None) as [[info|] audit] eqn:Hc;
    [|vm_compute in Hc; discriminate Hc].
  destruct (socks_early_bytes_lost true (fun _ => 0) 0 example_pl false "" [0] 0 "api.test" example_domain 1 187 example_hello info audit)
    as (br & Hb & Hs & _); [set_solver | apply example_encodes | vm_compute; lia | exact Hc|].
  exists br, info. split; [exact Hb | exact Hs].
Defined.

End examples.
End Tunnel.
