(* ===== verification/Observers.v ===== *)
(** * Header allowlist, annotations and body capture
    (src/internal/transform/headerallowlist, annotate, bodycapture)

    Three transforms that never refuse a request: one strips the headers no
    entry allows, one copies headers into the audit, one keeps the body for
    it.  Configured patterns are matched by the [Regexp] interface. *)
From stdpp Require Import base gmap strings list option.
From Stdlib Require Import ZArith Lia Ascii.
From S2P Require Import Prelude GoUtf8 GoStrings GoNet Body GoHttp GoJson HostMatch Transform GoRegexp Utf8Codec Headers ProxyHttp.
Local Open Scope string_scope.
Local Open Scope list_scope.
Local Open Scope Z_scope.

(** ** The header allowlist *)

Module HeaderAllow.
Section header_allowlist.
Context `{UnicodeTables} `{Regexp} `{MapRange}.

Record config := mkConfig { ha_Headers : list string; ha_Rules : list RuleConfig }.
Inductive headerMatcher :=
  | MatchName (name : string)
  | MatchPattern (re : regexp).
Record HeaderAllowlist := mkHeaderAllowlist { matchers : list headerMatcher; rules : list Rule }.

Inductive header_error := HeadersRequired | BadPattern (p : string) | BadRules (e : nat * rule_error).

Definition matches (m : headerMatcher) (canonical : string) : bool :=
  match m with
  | MatchPattern re => MatchString re canonical
  | MatchName name => str_eqb name canonical
  end.

Definition parse_matcher (p : string) : result header_error headerMatcher :=
  if (2 <=? String.length p)%nat && HasPrefix p "/" && HasSuffix p "/" then
    match regexp_Compile ("(?i)" +:+ stake (String.length p - 2) (sdrop 1 p)) with
    | Some re => Ok (MatchPattern re)
    | None => Err (BadPattern p)
    end
  else Ok (MatchName (CanonicalHeaderKey p)).
Definition parseHeaderMatchers (patterns : list string) : result header_error (list headerMatcher) := rmap parse_matcher patterns.

Definition newFromConfig (c : config) : result header_error HeaderAllowlist :=
  if (length (ha_Headers c) =? 0)%nat then Err HeadersRequired
  else
    let* ms := parseHeaderMatchers (ha_Headers c) in
    match CompileRules (ha_Rules c) with
    | Ok rs => Ok (mkHeaderAllowlist ms rs)
    | Err e => Err (BadRules e)
    end.

Definition allowed (h : HeaderAllowlist) (name : string) : bool :=
  let canonical := CanonicalHeaderKey name in existsb (fun m => matches m canonical) (matchers h).

(** The loop over the header map.  An entry deleted before it is reached is
    not visited. *)
Definition strip_header (h : HeaderAllowlist) (st : Header * list string) (name : string) : Header * list string :=
  let '(header, stripped) := st in
  match header !! name with
  | None => st
  | Some _ => if allowed h name then st else (header_Del header name, stripped ++ [name])
  end.
Definition strip_headers (h : HeaderAllowlist) (header : Header) : Header * list string :=
  foldl (strip_header h) (header, []) (map fst (map_range header)).

Definition TransformRequest {C} (h : HeaderAllowlist) (tctx : TransformContext) (s : ReqState C)
    : result string TransformResult * TransformContext * ReqState C :=
  if negb (length (rules h) =? 0)%nat && negb (MatchAnyRule (rules h) (rq s)) then (Ok continue_result, tctx, s)
  else
    let '(header, stripped) := strip_headers h (ReqHeader (rq s)) in
    let tctx := if (length stripped =? 0)%nat then tctx else Annotate tctx "stripped_headers" (AList (map AStr stripped)) in
    (Ok continue_result, tctx, with_req s (set_ReqHeader (rq s) header)).

(** *** What is stripped *)

Lemma strip_canonical h l header stripped k :
  (forall k, k ∈ l -> CanonicalHeaderKey k = k) -> NoDup l ->
  (foldl (strip_header h) (header, stripped) l).1 !! k
  = if bool_decide (k ∈ l) && negb (allowed h k) then None else header !! k.
Proof.
  revert header stripped. induction l as [|n l IH]; intros header stripped Hcan Hnd; [done|].
  apply list.NoDup_cons in Hnd as [Hn Hnd]. cbn [foldl].
  assert (CanonicalHeaderKey n = n) as Hcn by (apply Hcan; left).
  assert (forall k, k ∈ l -> CanonicalHeaderKey k = k) as Hcan' by (intros; apply Hcan; by right).
  assert (k <> n -> bool_decide (k ∈ n :: l) = bool_decide (k ∈ l)) as Hb.
  { intros Hk. apply bool_decide_ext. rewrite elem_of_cons. naive_solver. }
  unfold strip_header at 2. destruct (header !! n) as [vs|] eqn:Hh; [destruct (allowed h n) eqn:Ha|].
  - rewrite IH by done. destruct (decide (k = n)) as [->|Hk]; [rewrite Ha; cbn [negb]; by rewrite !andb_false_r|]. by rewrite Hb.
  - rewrite IH by done. unfold header_Del. rewrite Hcn. destruct (decide (k = n)) as [->|Hk].
    + rewrite lookup_delete_eq, Ha, (bool_decide_true (n ∈ n :: l)) by (by left). by destruct (bool_decide (n ∈ l)).
    + by rewrite lookup_delete_ne, Hb by done.
  - rewrite IH by done. destruct (decide (k = n)) as [->|Hk]; [rewrite Hh; by repeat case_match|]. by rewrite Hb.
Qed.

Lemma map_range_keys (m : Header) k : k ∈ map fst (map_range m) <-> is_Some (m !! k).
Proof.
  rewrite list_elem_of_fmap. split.
  - intros ([k' v] & -> & Hin%map_range_lookup). eauto.
  - intros [v Hv]. exists (k, v). by rewrite map_range_lookup.
Qed.
Lemma map_range_keys_NoDup (m : Header) : NoDup (map fst (map_range m)).
Proof. rewrite map_range_perm. apply NoDup_fst_map_to_list. Qed.

(** A header survives the strip exactly if an entry allows it. *)
Lemma strip_headers_canonical h header k :
  canonical_header header -> (strip_headers h header).1 !! k = if allowed h k then header !! k else None.
Proof.
  intros Hc. unfold strip_headers.
  rewrite strip_canonical; [|intros x Hx; apply Hc; by apply map_range_keys | apply map_range_keys_NoDup].
  destruct (allowed h k); [by rewrite andb_false_r|]. rewrite andb_true_r.
  case_bool_decide as Hk; [done|]. destruct (header !! k) eqn:E; [|done]. destruct Hk. apply map_range_keys. eauto.
Qed.

(** An entry under a spelling that is not canonical stays. *)
Lemma strip_noncanonical h header name :
  CanonicalHeaderKey name <> name -> (strip_headers h header).1 !! name = header !! name.
Proof.
  intros Hn. unfold strip_headers. generalize (@nil string) as stripped. generalize header at 1 3 as st.
  induction (map fst (map_range header)) as [|n l IH]; intros st stripped; [done|]. cbn [foldl]. unfold strip_header at 2.
  destruct (st !! n); [|apply IH]. destruct (allowed h n); [apply IH|]. rewrite IH. unfold header_Del.
  apply lookup_delete_ne. intros Heq. apply Hn. rewrite <- Heq at 2. rewrite <- Heq. symmetry. by rewrite CanonicalHeaderKey_idem.
Qed.

Lemma strip_reported h l st name : name ∈ st.2 -> name ∈ (foldl (strip_header h) st l).2.
Proof.
  revert st. induction l as [|n l IH]; intros [header stripped] Hin; [done|]. cbn [foldl]. apply IH. unfold strip_header.
  destruct (header !! n); [|done]. destruct (allowed h n); [done|]. apply elem_of_app. by left.
Qed.
Lemma strip_reports h l header stripped name :
  CanonicalHeaderKey name <> name -> is_Some (header !! name) -> allowed h name = false -> name ∈ l ->
  name ∈ (foldl (strip_header h) (header, stripped) l).2.
Proof.
  intros Hn Hs Ha. revert header stripped Hs. induction l as [|n l IH]; intros header stripped Hs; [by intros ?%elem_of_nil|].
  cbn [foldl]. unfold strip_header at 2. intros [<-|Hin]%elem_of_cons.
  - destruct Hs as [vs Hvs]. rewrite Hvs, Ha. apply strip_reported. apply elem_of_app. right. by left.
  - destruct (header !! n); [|by apply IH]. destruct (allowed h n); [by apply IH|]. apply IH; [|done]. unfold header_Del.
    rewrite lookup_delete_ne; [done|]. intros Heq. apply Hn. rewrite <- Heq. apply CanonicalHeaderKey_idem.
Qed.

(** What an entry of the configuration allows. *)
Definition entry_allows (p k : string) : Prop :=
  if (2 <=? String.length p)%nat && HasPrefix p "/" && HasSuffix p "/"
  then exists re, regexp_Compile ("(?i)" +:+ stake (String.length p - 2) (sdrop 1 p)) = Some re /\ MatchString re (CanonicalHeaderKey k) = true
  else CanonicalHeaderKey p = CanonicalHeaderKey k.
Definition applies (c : config) (req : Request) : Prop :=
  ha_Rules c = [] \/ exists rc, rc ∈ ha_Rules c /\ rule_denotes rc (StripPort (ReqHost req)) (Method req) (Path (ReqURL req)).

Lemma parse_matcher_allows p m k : parse_matcher p = Ok m -> matches m (CanonicalHeaderKey k) = true <-> entry_allows p k.
Proof.
  unfold parse_matcher, entry_allows. destruct (_ && _ && _).
  - destruct (regexp_Compile _) as [re|] eqn:He; [|done]. intros [= <-]. cbn. split; [eauto|]. by intros (re' & [= <-] & ?).
  - intros [= <-]. cbn. apply str_eqb_eq.
Qed.

Lemma newFromConfig_allows c h k : newFromConfig c = Ok h -> allowed h k = true <-> exists p, p ∈ ha_Headers c /\ entry_allows p k.
Proof.
  unfold newFromConfig. destruct (length (ha_Headers c) =? 0)%nat; [done|].
  intros (ms & Hms%rmap_Ok & Hh)%rbind_Ok_inv. destruct (CompileRules (ha_Rules c)); [|done]. injection Hh as <-.
  unfold allowed. cbn [matchers]. induction Hms as [|p m ps ms Hp _ IH]; cbn [existsb].
  - split; [done|]. by intros (p & ?%elem_of_nil & _).
  - rewrite orb_true_iff, IH, (parse_matcher_allows p m k Hp). setoid_rewrite elem_of_cons. naive_solver.
Qed.

Lemma newFromConfig_applies c h req :
  newFromConfig c = Ok h -> negb (length (rules h) =? 0)%nat && negb (MatchAnyRule (rules h) req) = false <-> applies c req.
Proof.
  unfold newFromConfig. destruct (length (ha_Headers c) =? 0)%nat; [done|].
  intros (ms & _ & Hh)%rbind_Ok_inv. destruct (CompileRules (ha_Rules c)) as [rs|] eqn:Hr; [|done]. injection Hh as <-.
  unfold applies, MatchAnyRule. cbn [rules]. rewrite andb_false_iff, !negb_false_iff, Nat.eqb_eq.
  pose proof (CompileRules_matches _ _ (StripPort (ReqHost req)) (Method req) (Path (ReqURL req)) Hr) as ->.
  apply rmapi_Ok in Hr as [Hlen _]. rewrite <- length_zero_iff_nil, Hlen. done.
Qed.

(** The header allowlist lets through exactly what it lists.  On a request
    with canonical header names, to which the rules of the configuration
    apply, a header is kept, unchanged, if an entry of the configuration
    allows its name and removed otherwise; nothing else of the request is
    touched, requests the rules do not apply to are not touched at all, and
    no request is refused. *)
Theorem header_allowlist_exact {C} c h tctx (s : ReqState C) :
  newFromConfig c = Ok h -> canonical_header (ReqHeader (rq s)) ->
  exists tctx' s', TransformRequest h tctx s = (Ok continue_result, tctx', s') /\
    (~ applies c (rq s) -> s' = s /\ tctx' = tctx) /\
    (applies c (rq s) -> s' = with_req s (set_ReqHeader (rq s) (ReqHeader (rq s'))) /\
       forall k vs, ReqHeader (rq s') !! k = Some vs <->
                    ReqHeader (rq s) !! k = Some vs /\ exists p, p ∈ ha_Headers c /\ entry_allows p k).
Proof.
  intros Hc Hcan. unfold TransformRequest. pose proof (newFromConfig_applies c h (rq s) Hc) as Happ.
  destruct (negb _ && negb _).
  - eexists _, _. split; [done|]. split; [done|]. intros Ha%Happ. done.
  - pose proof (strip_headers_canonical h (ReqHeader (rq s))) as Hst.
    destruct (strip_headers h (ReqHeader (rq s))) as [header stripped]. eexists _, _. split; [done|].
    split; [intros Hn; destruct Hn; by apply Happ|]. intros _. split; [done|]. intros k vs. cbn.
    specialize (Hst k Hcan). cbn in Hst. rewrite Hst. rewrite <- (newFromConfig_allows c h k Hc). destruct (allowed h k); naive_solver.
Qed.

(** A header in another spelling is reported as stripped and sent.
    [Header.Del] removes the canonical name only: an entry an earlier
    transform wrote under another spelling, allowed by nothing, stays in the
    map although the audit lists it as stripped, and its values are among
    those the proxy sends upstream under the canonical name. *)
Theorem stripped_header_survives {C} h tctx (s : ReqState C) name vs v :
  rules h = [] -> ReqHeader (rq s) !! name = Some vs -> CanonicalHeaderKey name <> name -> allowed h name = false -> v ∈ vs ->
  exists tctx' s' names, TransformRequest h tctx s = (Ok continue_result, tctx', s') /\
    ReqHeader (rq s') !! name = Some vs /\
    annotations tctx' ≫= (.!! "stripped_headers") = Some (AList (map AStr names)) /\ name ∈ names /\
    v ∈ header_Values (copyHeaders ∅ (ReqHeader (rq s'))) name.
Proof.
  intros Hr Hvs Hn Ha Hv. unfold TransformRequest. rewrite Hr. cbn [length Nat.eqb negb andb].
  pose proof (strip_noncanonical h (ReqHeader (rq s)) name Hn) as Hst.
  assert (name ∈ (strip_headers h (ReqHeader (rq s))).2) as Hrep.
  { apply strip_reports; [done | eauto | done | apply map_range_keys; eauto]. }
  destruct (strip_headers h (ReqHeader (rq s))) as [header stripped]. cbn [fst snd] in *.
  destruct stripped as [|x stripped]; [by apply elem_of_nil in Hrep|]. cbn [length Nat.eqb].
  eexists _, _, (x :: stripped). split; [done|]. cbn. rewrite lookup_insert_eq. rewrite Hst. do 3 (split; [done|]).
  unfold header_Values. rewrite copyHeaders_values. apply list_elem_of_In, in_concat. exists vs. split; [|by apply list_elem_of_In].
  apply in_map_iff. exists (name, vs). split; [|apply list_elem_of_In, map_range_lookup; congruence].
  unfold variant_values. cbn. by rewrite (proj2 (str_eqb_eq _ _) eq_refl).
Qed.
End header_allowlist.
End HeaderAllow.

(** ** Annotations *)

Module Annotator.
Section annotate.
Context `{UnicodeTables}.

Record annotationGroup := mkGroup { ag_Rules : list RuleConfig; ag_Headers : list string }.
Record compiledGroup := mkCompiled { cg_rules : list Rule; cg_headers : list string }.
Record Annotate := mkAnnotate { groups : list compiledGroup }.
Inductive annotate_error := GroupsRequired | RulesRequired (i : nat) | GroupHeaders (i : nat) | GroupRules (i : nat) (e : nat * rule_error).

Definition compile_group (i : nat) (ag : annotationGroup) : result annotate_error compiledGroup :=
  if (length (ag_Rules ag) =? 0)%nat then Err (RulesRequired i)
  else if (length (ag_Headers ag) =? 0)%nat then Err (GroupHeaders i)
  else match CompileRules (ag_Rules ag) with
       | Err e => Err (GroupRules i e)
       | Ok compiled => Ok (mkCompiled compiled (map CanonicalHeaderKey (ag_Headers ag)))
       end.
Definition newFromConfig (cfg : list annotationGroup) : result annotate_error Annotate :=
  if (length cfg =? 0)%nat then Err GroupsRequired
  else let* gs := rmapi compile_group 0 cfg in Ok (mkAnnotate gs).

Definition annotate_header (req : Request) (tctx : TransformContext) (h : string) : TransformContext :=
  let v := header_Get (ReqHeader req) h in
  if is_empty v then tctx else Transform.Annotate tctx ("header:" +:+ h) (AStr v).
Definition annotate_group (req : Request) (tctx : TransformContext) (g : compiledGroup) : TransformContext :=
  if MatchAnyRule (cg_rules g) req then foldl (annotate_header req) tctx (cg_headers g) else tctx.
Definition TransformRequest {C} (a : Annotate) (tctx : TransformContext) (s : ReqState C)
    : result string TransformResult * TransformContext * ReqState C :=
  (Ok continue_result, foldl (annotate_group (rq s)) tctx (groups a), s).

(** The annotation of a header that a matching group lists. *)
Definition annotation (t : TransformContext) (k : string) : option any := annotations t ≫= (.!! k).
Definition listed (gs : list compiledGroup) (req : Request) (h : string) : Prop :=
  exists g, g ∈ gs /\ MatchAnyRule (cg_rules g) req = true /\ h ∈ cg_headers g.

Lemma annotate_header_lookup req tctx h k :
  annotation (annotate_header req tctx h) k
  = if bool_decide (k = "header:" +:+ h) && negb (is_empty (header_Get (ReqHeader req) h))
    then Some (AStr (header_Get (ReqHeader req) h)) else annotation tctx k.
Proof.
  unfold annotate_header, annotation. destruct (is_empty _); [by rewrite andb_false_r|]. rewrite andb_true_r. cbn.
  case_bool_decide as Hk; [subst k; by rewrite lookup_insert_eq|]. rewrite lookup_insert_ne by done.
  by destruct (annotations tctx).
Qed.

(** A fold of annotations writes, for each listed header that is present, its
    first value, and leaves every other key. *)
Definition writes (P : string -> Prop) (req : Request) (t t' : TransformContext) : Prop :=
  forall k, (exists h, P h /\ k = "header:" +:+ h /\ header_Get (ReqHeader req) h <> "" /\ annotation t' k = Some (AStr (header_Get (ReqHeader req) h)))
         \/ ((forall h, P h -> k = "header:" +:+ h -> header_Get (ReqHeader req) h = "") /\ annotation t' k = annotation t k).

Lemma header_key_inj h h' : "header:" +:+ h = "header:" +:+ h' -> h = h'.
Proof. cbn. by intros [= ->]. Qed.

Lemma writes_ext P Q req t t' : (forall h, P h <-> Q h) -> writes P req t t' -> writes Q req t t'.
Proof.
  intros Hpq Hw k. destruct (Hw k) as [(h & Hp & Hrest)|[Hn He]].
  - left. exists h. by rewrite <- Hpq.
  - right. split; [|done]. intros h Hq. apply Hn. by rewrite Hpq.
Qed.

Lemma writes_trans P Q req t t1 t' :
  writes P req t t1 -> writes Q req t1 t' -> writes (fun h => P h \/ Q h) req t t'.
Proof.
  intros H1 H2 k. destruct (H2 k) as [(h & Hq & Hrest)|[Hn2 He2]]; [left; exists h; by split; [right|]|].
  destruct (H1 k) as [(h & Hp & Hk & Hne & He1)|[Hn1 He1]].
  - left. exists h. split; [by left|]. do 2 (split; [done|]). congruence.
  - right. split; [naive_solver|]. congruence.
Qed.

Lemma annotate_header_writes req t h : writes (fun h' => h' = h) req t (annotate_header req t h).
Proof.
  intros k. rewrite annotate_header_lookup. destruct (decide (k = "header:" +:+ h)) as [->|Hk].
  - rewrite bool_decide_true by done. cbn [andb]. destruct (is_empty _) eqn:He; cbn [negb].
    + right. split; [|done]. intros h' -> _. by apply str_eqb_eq in He.
    + left. exists h. apply str_eqb_neq in He. done.
  - rewrite bool_decide_false by done. right. split; [|done]. by intros h' ->.
Qed.

Lemma annotate_headers_writes req l t : writes (fun h => h ∈ l) req t (foldl (annotate_header req) t l).
Proof.
  revert t. induction l as [|h l IH]; intros t; cbn [foldl].
  - intros k. right. split; [|done]. by intros h ?%elem_of_nil.
  - eapply writes_ext; [|eapply writes_trans; [apply annotate_header_writes | apply IH]]. intros h'. cbn. by rewrite elem_of_cons.
Qed.

Lemma annotate_groups_writes req gs t : writes (listed gs req) req t (foldl (annotate_group req) t gs).
Proof.
  revert t. induction gs as [|g gs IH]; intros t; cbn [foldl].
  - intros k. right. split; [|done]. by intros h (g & ?%elem_of_nil & _).
  - eapply (writes_ext (fun h => (MatchAnyRule (cg_rules g) req = true /\ h ∈ cg_headers g) \/ listed gs req h)).
    + intros h. unfold listed. setoid_rewrite elem_of_cons. naive_solver.
    + apply writes_trans with (annotate_group req t g); [|apply IH]. unfold annotate_group. destruct (MatchAnyRule _ _).
      * eapply writes_ext; [|apply annotate_headers_writes]. naive_solver.
      * intros k. right. split; [|done]. by intros h [? _].
Qed.

(** The audit of a request gets, for each configured header of a group one of
    whose rules denotes the request, the first value the request has for it;
    all other annotations stay, and the request is passed on unchanged. *)
Theorem annotate_exact {C} cfg a tctx (s : ReqState C) :
  newFromConfig cfg = Ok a ->
  exists tctx', TransformRequest a tctx s = (Ok continue_result, tctx', s) /\
    writes (fun h => exists ag name rc, ag ∈ cfg /\ name ∈ ag_Headers ag /\ h = CanonicalHeaderKey name /\ rc ∈ ag_Rules ag /\
                       rule_denotes rc (StripPort (ReqHost (rq s))) (Method (rq s)) (Path (ReqURL (rq s)))) (rq s) tctx tctx'.
Proof.
  unfold newFromConfig. destruct (length cfg =? 0)%nat; [done|]. intros (gs & [Hlen Hall]%rmapi_Ok & [= <-])%rbind_Ok_inv.
  eexists. split; [done|]. eapply writes_ext; [|apply annotate_groups_writes]. intros h. unfold listed. cbn [groups].
  assert (forall i ag, cfg !! i = Some ag -> exists g, gs !! i = Some g /\ cg_headers g = map CanonicalHeaderKey (ag_Headers ag) /\
    (MatchAnyRule (cg_rules g) (rq s) = true <-> exists rc, rc ∈ ag_Rules ag /\
       rule_denotes rc (StripPort (ReqHost (rq s))) (Method (rq s)) (Path (ReqURL (rq s))))) as Hg.
  { intros i ag Hi. destruct (Hall i ag Hi) as (g & Hgi & Hc). exists g. split; [done|]. unfold compile_group in Hc.
    destruct (length (ag_Rules ag) =? 0)%nat; [done|]. destruct (length (ag_Headers ag) =? 0)%nat; [done|].
    destruct (CompileRules (ag_Rules ag)) as [rs|] eqn:Hr; [|done]. injection Hc as <-. split; [done|].
    unfold MatchAnyRule. cbn [cg_rules]. by apply CompileRules_matches. }
  split.
  - intros (g & [i Hi]%list_elem_of_lookup & Hm & Hh). destruct (cfg !! i) as [ag|] eqn:Hag.
    + destruct (Hg i ag Hag) as (g' & Hg' & Hhs & Hiff). assert (g' = g) as -> by congruence.
      apply Hiff in Hm as (rc & Hrc & Hd). rewrite Hhs in Hh. apply list_elem_of_fmap in Hh as (name & -> & Hn).
      exists ag, name, rc. split; [by eapply list_elem_of_lookup_2|]. done.
    + apply lookup_ge_None in Hag. apply lookup_lt_Some in Hi. lia.
  - intros (ag & name & rc & [i Hi]%list_elem_of_lookup & Hn & -> & Hrc & Hd). destruct (Hg i ag Hi) as (g & Hgi & Hhs & Hiff).
    exists g. split; [by eapply list_elem_of_lookup_2|]. split; [apply Hiff; eauto|]. rewrite Hhs. apply list_elem_of_fmap. eauto.
Qed.
End annotate.
End Annotator.

(** ** Body capture *)

Module Capture.
Section capture.
Context `{UnicodeTables}.

Record config := mkConfig { bc_MaxRequestBodyBytes : Z; bc_Rules : list RuleConfig }.
Record bodyCapture := mkBodyCapture { rules : list Rule; maxRequestBodyBytes : Z }.
Definition defaultMaxRequestBodyBytes : Z := 16 * 1024.

Definition factory (c : config) : result (nat * rule_error) bodyCapture :=
  let* rs := CompileRules (bc_Rules c) in
  let maxBytes := bc_MaxRequestBodyBytes c in
  Ok (mkBodyCapture rs (if maxBytes <=? 0 then defaultMaxRequestBodyBytes else maxBytes)).

(** The loop that drops a rune cut at the end, [n] bytes at most. *)
Fixpoint drop_cut_rune (n : nat) (data : list Z) : list Z :=
  match n with
  | O => data
  | S n' =>
    if (length data =? 0)%nat then data
    else
      let '(r, size) := DecodeLastRune data in
      if negb (r =? RuneError) || (1 <? size)%nat then data
      else drop_cut_rune n' (take (length data - 1) data)
  end.

(** What is kept of a body, and whether it was cut. *)
Definition captured (max : Z) (data : list Z) : list Z * bool :=
  if max <? Z.of_nat (length data) then (drop_cut_rune (UTFMax - 1) (take (Z.to_nat max) data), true) else (data, false).

Definition set_capture (t : TransformContext) (c : BodyCaptureData) : TransformContext :=
  mkContext (SNI t) (CtxMode t) (Tunnel t) (TunnelAdmission t) (Some c) (annotations t).

(** [TransformRequest].  A request body is a [BufferedBody] here, so it is
    neither nil nor [http.NoBody]. *)
Definition TransformRequest {C} (b : bodyCapture) (tctx : TransformContext) (s : ReqState C)
    : result string TransformResult * TransformContext * ReqState C :=
  if negb (MatchAnyRule (rules b) (rq s)) then (Ok continue_result, tctx, s)
  else
    let '(out, body) := BufferedBody.ReadAll (ReqBody (rq s)) in
    let s := with_req s (set_ReqBody (rq s) body) in
    match out with
    | BufferedBody.GotErr e => (Ok continue_result, Annotate tctx "body_capture_error" (AStr e), s)
    | BufferedBody.GotBytes data =>
      if (length data =? 0)%nat then (Ok continue_result, tctx, s)
      else
        let '(data, truncated) := captured (maxRequestBodyBytes b) data in
        let tctx := set_capture tctx (mkCapture (string_of_bytes data) truncated) in
        (Ok continue_result,
         Annotate (Annotate tctx "captured_bytes" (AInt (Z.of_nat (length data)))) "truncated" (ABool truncated), s)
    | BufferedBody.GotEOF | BufferedBody.Panics => (Ok continue_result, tctx, s)
    end.

(** *** Cuts fall between runes *)

Lemma encode_runes_app a b : encode_runes (a ++ b) = encode_runes a ++ encode_runes b.
Proof. unfold encode_runes. by rewrite map_app, concat_app. Qed.

Lemma encode_runes_one r : encode_runes [r] = EncodeRune r.
Proof. apply app_nil_r. Qed.

(** A prefix of a text is whole runes and a part of the next one. *)
Lemma take_encode_runes rs m :
  exists k j, take m (encode_runes rs) = encode_runes (take k rs) ++ take j (EncodeRune (default 0%Z (rs !! k))) /\
    ((k < length rs)%nat /\ (j < length (EncodeRune (default 0%Z (rs !! k))))%nat /\ m = (length (encode_runes (take k rs)) + j)%nat
     \/ k = length rs /\ j = 0%nat /\ (length (encode_runes rs) <= m)%nat).
Proof.
  revert m. induction rs as [|r rs IH]; intros m.
  - exists 0%nat, 0%nat. split; [by destruct m|]. right. cbn. lia.
  - change (encode_runes (r :: rs)) with (EncodeRune r ++ encode_runes rs). destruct (decide (m < length (EncodeRune r))%nat) as [Hm|Hm].
    + exists 0%nat, m. cbn. rewrite take_app_le by lia. split; [done|]. left. lia.
    + destruct (IH (m - length (EncodeRune r))%nat) as (k & j & Ht & Hc). exists (S k), j. cbn [take lookup list_lookup].
      change (encode_runes (r :: take k rs)) with (EncodeRune r ++ encode_runes (take k rs)).
      rewrite take_app_ge by lia. rewrite Ht, <- app_assoc. split; [done|]. rewrite !length_app. cbn [length].
      destruct Hc as [(Hk & Hj & He)|(Hk & Hj & He)]; [left|right]; (split; [lia|]; split; [done|]; lia).
Qed.

Lemma drop_cut_whole n rs : Forall scalar rs -> drop_cut_rune n (encode_runes rs) = encode_runes rs.
Proof.
  intros Hrs. destruct n; [done|]. cbn [drop_cut_rune]. destruct (length _ =? 0)%nat eqn:Hl; [done|].
  destruct rs as [|r rs _] using rev_ind; [done|]. apply Forall_app in Hrs as [_ [Hr _]%list.Forall_cons].
  rewrite encode_runes_app. rewrite encode_runes_one, DecodeLastRune_encoded by done.
  destruct (r =? RuneError) eqn:He; [|done]. apply Z.eqb_eq in He as ->. done.
Qed.

Lemma drop_cut_partial n rs r j :
  Forall scalar rs -> scalar r -> (j < length (EncodeRune r))%nat -> (j <= n)%nat ->
  drop_cut_rune n (encode_runes rs ++ take j (EncodeRune r)) = encode_runes rs.
Proof.
  intros Hrs Hr. revert n. induction j as [|j IH]; intros n Hj Hn; [by rewrite take_0, app_nil_r, drop_cut_whole|].
  destruct n as [|n]; [lia|]. cbn [drop_cut_rune].
  rewrite (proj2 (Nat.eqb_neq (length _) 0)) by (rewrite length_app, length_take; lia).
  rewrite DecodeLastRune_partial by (try done; lia). cbn [Z.eqb RuneError Pos.eqb negb orb Nat.ltb Nat.leb].
  etransitivity; [|apply (IH n); lia]. f_equal. rewrite length_app, length_take, Nat.min_l by lia.
  rewrite take_app_ge by lia. f_equal. rewrite take_take. f_equal. lia.
Qed.

Lemma EncodeRune_length r : scalar r -> (1 <= length (EncodeRune r) <= 4)%nat.
Proof. intros Hr. destruct (EncodeRune_shape r Hr) as [(-> & _)|(lead & conts & -> & Hl & _)]; cbn; lia. Qed.

(** What is kept of a text is its longest prefix of whole characters within
    the limit. *)
Lemma captured_text max rs :
  0 <= max -> Forall scalar rs ->
  exists k, (captured max (encode_runes rs)).1 = encode_runes (take k rs) /\
    Z.of_nat (length (encode_runes (take k rs))) <= max /\
    ((captured max (encode_runes rs)).2 = false -> (length rs <= k)%nat) /\
    ((captured max (encode_runes rs)).2 = true -> (k < length rs)%nat /\ max < Z.of_nat (length (encode_runes (take (S k) rs)))).
Proof.
  intros Hmax Hrs. unfold captured. destruct (max <? _) eqn:Hl; cbn [fst snd].
  - apply Z.ltb_lt in Hl. destruct (take_encode_runes rs (Z.to_nat max)) as (k & j & Ht & [(Hk & Hj & Hm)|(_ & _ & Hm)]); [|lia].
    destruct (lookup_lt_is_Some_2 _ _ Hk) as [r Hr]. rewrite Hr in *. cbn [default from_option id] in *.
    assert (scalar r) as Hsr by (eapply Forall_lookup_1; eauto).
    exists k. rewrite Ht. rewrite drop_cut_partial; [|by apply Forall_take | done | done | pose proof (EncodeRune_length r Hsr); cbn; lia].
    split; [done|]. split; [lia|]. split; [done|]. intros _. split; [done|].
    rewrite (take_S_r _ _ _ Hr), encode_runes_app, length_app, encode_runes_one. lia.
  - apply Z.ltb_ge in Hl. exists (length rs). rewrite firstn_all. done.
Qed.

Lemma ReadAll_fresh d max :
  max <= 0 -> BufferedBody.ReadAll (BufferedBody.NewBufferedBody (Some (mkReader d None)) max)
  = (BufferedBody.GotBytes d, BufferedBody.mk true None d (length d) max).
Proof.
  intros Hmax. unfold BufferedBody.ReadAll, BufferedBody.buffer, BufferedBody.NewBufferedBody. cbn.
  rewrite (proj2 (Z.ltb_ge 0 max)) by lia. done.
Qed.
Lemma encode_runes_nonempty rs : Forall scalar rs -> rs <> [] -> length (encode_runes rs) <> 0%nat.
Proof.
  intros Hrs Hne. destruct Hrs as [|r rs Hr]; [done|]. change (encode_runes (r :: rs)) with (EncodeRune r ++ encode_runes rs).
  rewrite length_app. pose proof (EncodeRune_length r Hr). lia.
Qed.

(** What the audit keeps of a body is readable.  A matching request whose
    body is a text longer than the limit is captured as the longest prefix of
    whole characters within the limit, marked as cut; a shorter one is
    captured whole.  The request is always passed on, with its body still to
    be read from its start after the pipeline's reset. *)
Theorem capture_whole_characters {C} cfg b tctx (s : ReqState C) rs max :
  factory cfg = Ok b -> MatchAnyRule (rules b) (rq s) = true -> Forall scalar rs -> rs <> [] ->
  ReqBody (rq s) = BufferedBody.NewBufferedBody (Some (mkReader (encode_runes rs) None)) max -> max <= 0 ->
  exists tctx' s' c k, TransformRequest b tctx s = (Ok continue_result, tctx', s') /\
    BodyCapture tctx' = Some c /\ cap_RequestBody c = string_of_bytes (encode_runes (take k rs)) /\
    Z.of_nat (length (encode_runes (take k rs))) <= maxRequestBodyBytes b /\
    (cap_Truncated c = false -> (length rs <= k)%nat) /\
    (cap_Truncated c = true -> maxRequestBodyBytes b < Z.of_nat (length (encode_runes (take (S k) rs)))) /\
    (BufferedBody.ReadAll (BufferedBody.Reset (ReqBody (rq s')))).1 = BufferedBody.GotBytes (encode_runes rs).
Proof.
  intros Hf Hm Hrs Hne Hb Hmax. unfold TransformRequest. rewrite Hm, Hb, ReadAll_fresh by done. cbn [negb].
  rewrite (proj2 (Nat.eqb_neq _ _) (encode_runes_nonempty rs Hrs Hne)).
  destruct (captured_text (maxRequestBodyBytes b) rs) as (k & Hk1 & Hk2 & Hk3 & Hk4); [|done|].
  { apply rbind_Ok_inv in Hf as (rl & _ & [= <-]). cbn. destruct (_ <=? 0) eqn:E; [done|]. bool_prop. lia. }
  destruct (captured _ _) as [data tr]. cbn [fst snd] in *. subst data.
  eexists _, _, _, k. split; [done|]. split; [done|]. cbn [cap_RequestBody cap_Truncated]. split; [done|]. split; [done|].
  split; [done|]. split; [intros Ht; apply (Hk4 Ht)|]. done.
Qed.
End capture.
End Capture.

(** ** Examples *)

Section examples.
#[local] Existing Instance ascii_tables.
#[local] Existing Instance literal_regexp.
#[local] Existing Instance default_range.

Definition strip_config : HeaderAllow.config := HeaderAllow.mkConfig ["accept"; "/X-Ok/"] [].
Definition strip_allowlist : HeaderAllow.HeaderAllowlist :=
  HeaderAllow.mkHeaderAllowlist [HeaderAllow.MatchName "Accept"; HeaderAllow.MatchPattern ("(?i)X-Ok" : regexp)] [].
Definition strip_state (h : Header) : ReqState unit :=
  mkReqState (mkRequest "GET" "api.test" (mkURL "" None "" "/" "" "") h (BufferedBody.NewBufferedBodyFromBytes []) 0 false) ().
Definition plain_context : TransformContext := mkContext "" ModeMITM None false None None.

Lemma header_allowlist_exact_witness :
  exists tctx' s', HeaderAllow.TransformRequest strip_allowlist plain_context (strip_state {["Accept" := ["a"]; "Cookie" := ["c"]]})
    = (Ok continue_result, tctx', s') /\ ReqHeader (rq s') !! "Accept" = Some ["a"].
Proof.
  destruct (HeaderAllow.header_allowlist_exact strip_config strip_allowlist plain_context (strip_state {["Accept" := ["a"]; "Cookie" := ["c"]]}))
    as (tctx' & s' & He & _ & Happ).
  - reflexivity.
  - intros k [vs Hvs]. cbn in Hvs. apply lookup_insert_Some in Hvs as [[<- _]|[_ Hvs]]; [reflexivity|].
    apply lookup_singleton_Some in Hvs as [<- _]. reflexivity.
  - exists tctx', s'. split; [exact He|]. apply Happ; [by left|]. split; [reflexivity|].
    exists "accept". split; [by left | reflexivity].
Defined.

Lemma stripped_header_survives_witness :
  exists tctx' s' names, HeaderAllow.TransformRequest strip_allowlist plain_context (strip_state {["x-api-key" := ["secret"]]})
    = (Ok continue_result, tctx', s') /\ "x-api-key" ∈ names /\
    annotations tctx' ≫= (.!! "stripped_headers") = Some (AList (map AStr names)) /\
    "secret" ∈ header_Values (copyHeaders ∅ (ReqHeader (rq s'))) "x-api-key".
Proof.
  destruct (HeaderAllow.stripped_header_survives strip_allowlist plain_context (strip_state {["x-api-key" := ["secret"]]})
    "x-api-key" ["secret"] "secret") as (tctx' & s' & names & He & _ & Ha & Hn & Hv).
  - reflexivity.
  - reflexivity.
  - vm_compute. discriminate.
  - vm_compute. reflexivity.
  - by left.
  - exists tctx', s', names. by repeat split.
Defined.

Definition euro : list Z := [0x20AC; 0x20AC].
Definition capture_config : Capture.config := Capture.mkConfig 4 [mkRuleConfig "api.test" "" [] [] []].
Definition capture_transform : option Capture.bodyCapture :=
  match Capture.factory capture_config with Ok b => Some b | Err _ => None end.
Definition capture_state : ReqState unit :=
  mkReqState (mkRequest "GET" "api.test" (mkURL "" None "" "/" "" "") ∅
    (BufferedBody.NewBufferedBody (Some (mkReader (encode_runes euro) None)) 0) 0 false) ().

(** Two euro signs are six bytes; with four the second is cut off whole. *)
Lemma capture_whole_characters_witness : exists b tctx' s' c,
  capture_transform = Some b /\ Capture.TransformRequest b plain_context capture_state = (Ok continue_result, tctx', s') /\
  BodyCapture tctx' = Some c /\ length (bytes_of_string (cap_RequestBody c)) = 3%nat.
Proof.
  destruct capture_transform as [b|] eqn:Hb; [|vm_compute in Hb; discriminate Hb].
  assert (Capture.factory capture_config = Ok b) as Hf.
  { unfold capture_transform in Hb. destruct (Capture.factory capture_config); [by injection Hb as ->|discriminate Hb]. }
  assert (match capture_transform with Some b => MatchAnyRule (Capture.rules b) (rq capture_state) = true /\ Capture.maxRequestBodyBytes b = 4
          | None => False end) as Hm by (vm_compute; split; reflexivity).
  rewrite Hb in Hm. destruct Hm as [Hm H4].
  destruct (Capture.capture_whole_characters capture_config b plain_context capture_state euro 0) as (tctx' & s' & c & k & He & Hc & Hr & Hle & Hall & Hcut & _).
  - exact Hf.
  - exact Hm.
  - repeat constructor; unfold MaxRune; cbn; lia.
  - discriminate.
  - reflexivity.
  - lia.
  - exists b, tctx', s', c. split; [reflexivity|]. split; [exact He|]. split; [exact Hc|]. rewrite Hr.
    destruct k as [|[|k]].
    + exfalso. destruct (cap_Truncated c) eqn:Ht; [|specialize (Hall eq_refl); cbn in Hall; lia].
      specialize (Hcut eq_refl). rewrite H4 in Hcut. vm_compute in Hcut. discriminate Hcut.
    + reflexivity.
    + exfalso. rewrite H4 in Hle. rewrite take_ge in Hle by (cbn; lia). vm_compute in Hle. by apply Hle.
Defined.
End examples.
