(* ===== verification/GcpAuth.v ===== *)
(** * Google credentials (src/internal/transform/gcpjwt/gcpjwt.go,
      gcpauth/gcpauth.go, gcpauth/tokensource.go, gcpidtoken/gcpidtoken.go)

    [gcp_auth] gives matching requests an access token and [gcp_id_token] an
    ID token for a configured audience.  Both answer the token requests of
    client libraries themselves: the kind of token a request to Google's
    token endpoint asks for, read from its JWT assertion, decides which of
    the two answers. *)
From stdpp Require Import base gmap strings list option.
From Stdlib Require Import ZArith Lia Ascii.
From S2P Require Import Prelude GoUtf8 GoStrings GoNet Body GoHttp GoJson HostMatch Transform GoJsonParse GoEncoding GoRawEncoding McpRpc OAuth.
Local Open Scope string_scope.
Local Open Scope list_scope.
Local Open Scope Z_scope.

(** ** gcpjwt *)

Module GcpJwt.

Definition JWTBearerGrantType : string := "urn:ietf:params:oauth:grant-type:jwt-bearer".
Definition MaxTokenRequestBodyBytes : Z := 2 ^ 20.

(** [json.Unmarshal] into a struct of strings: the values of the fields, in
    their order. *)
Fixpoint update {A} (i : nat) (f : A -> option A) (l : list A) : option (list A) :=
  match i, l with
  | _, [] => Some []
  | O, x :: l' => (fun y => y :: l') <$> f x
  | S i', x :: l' => cons x <$> update i' f l'
  end.
Definition field_index (fields : list string) (name : string) : nat :=
  default 0%nat (fst <$> list_find (fun f => str_eqb f name = true) fields).
Definition store_member `{UnicodeTables} (fields : list string) (acc : option (list string)) (e : string * json) : option (list string) :=
  vals ← acc;
  match struct_field fields (fst e) with
  | None => Some vals
  | Some f => update (field_index fields f) (fun old => set_string old (snd e)) vals
  end.
Definition Unmarshal_strings `{UnicodeTables} (fields : list string) (raw : string) : option (list string) :=
  match json_parse raw with
  | Some JNull => Some (map (fun _ => "") fields)
  | Some (JObj _ m) => foldl (store_member fields) (Some (map (fun _ => "") fields)) m
  | _ => None
  end.
Definition string_member `{UnicodeTables} (field raw : string) : option string := Unmarshal_strings [field] raw ≫= head.

Section gcpjwt.
Context `{UnicodeTables}.

(** [tokenRequestBody]; a request's body is a [BufferedBody] here.  Its
    [Close] after a read has nothing left to close. *)
Definition tokenRequestBody (req : Request) : option string * Request :=
  if (ReqContentLength req <? 0) || (MaxTokenRequestBodyBytes <? ReqContentLength req) then (None, req)
  else
    let '(out, body) := BufferedBody.ReadAll (ReqBody req) in
    let req := set_ReqBody req (BufferedBody.Reset body) in
    match out with
    | BufferedBody.GotBytes b =>
      if MaxTokenRequestBodyBytes <? Z.of_nat (length (take (Z.to_nat (MaxTokenRequestBodyBytes + 1)) b)) then (None, req)
      else (Some (string_of_bytes b), req)
    | _ => (None, req)
    end.

Definition TargetAudienceFromAssertion (assertion : string) : option string :=
  match Split assertion "." with
  | [_; claims; _] =>
    raw ← RawURL_DecodeString claims;
    audience ← string_member "target_audience" raw;
    if is_empty audience then None else Some audience
  | _ => None
  end.

Definition query_Get (vals : gmap string (list string)) (k : string) : string := default "" (head (default [] (vals !! k))).

Definition JWTBearerTargetAudience (req : Request) : option string * Request :=
  let '(body, req) := tokenRequestBody req in
  match body with
  | None => (None, req)
  | Some body =>
    let '(values, bad) := ParseQuery body in
    if bad then (None, req)
    else if negb (str_eqb (query_Get values "grant_type") JWTBearerGrantType) then (None, req)
    else (TargetAudienceFromAssertion (query_Get values "assertion"), req)
  end.

(** Looking at a token request does not consume it: a readable body reads the
    same again, from its start. *)
Lemma tokenRequestBody_replays req d :
  BufferedBody.view (ReqBody req) = Some (d, None) -> BufferedBody.pos (ReqBody req) = 0%nat ->
  let req' := (tokenRequestBody req).2 in
  set_ReqBody req' (ReqBody req) = req /\ BufferedBody.view (ReqBody req') = Some (d, None) /\ BufferedBody.pos (ReqBody req') = 0%nat.
Proof.
  intros Hv Hp. cbn zeta. unfold tokenRequestBody. destruct ((ReqContentLength req <? 0) || _); [by destruct req|].
  pose proof (BufferedBody.run_view _ [BufferedBody.OReadAll; BufferedBody.OReset] _ Hv) as Hv'. cbn in Hv'.
  destruct (BufferedBody.ReadAll (ReqBody req)) as [out body]. cbn [fst snd] in *.
  assert (forall o : option string, set_ReqBody (o, set_ReqBody req (BufferedBody.Reset body)).2 (ReqBody req) = req /\
    BufferedBody.view (ReqBody (o, set_ReqBody req (BufferedBody.Reset body)).2) = Some (d, None) /\
    BufferedBody.pos (ReqBody (o, set_ReqBody req (BufferedBody.Reset body)).2) = 0%nat) as Hall
    by (intros o; cbn; split; [by destruct req | done]).
  destruct out; [destruct (_ <? _)|..]; apply Hall.
Qed.

Lemma JWTBearerTargetAudience_req req : (JWTBearerTargetAudience req).2 = (tokenRequestBody req).2.
Proof.
  unfold JWTBearerTargetAudience. destruct (tokenRequestBody req) as [[body|] req']; [|done].
  destruct (ParseQuery body) as [values []]; [done|]. by destruct (negb _).
Qed.

End gcpjwt.
End GcpJwt.

(** ** The libraries *)

Abbreviation token_error := OAuth.token_error.

(** What is set on the [jwt.Config] that [google.JWTConfigFromJSON] reads
    from a keyfile. *)
Record jwtSettings (A : Type) := mkSettings {
  js_account : A; js_Subject : string; js_TargetAudience : option string; js_UseIDToken : bool }.
Arguments mkSettings {A}.

Class GcpLibrary := {
  World : Type;
  TokenSource : Type;
  Token : World -> TokenSource -> result token_error string * TokenSource;
  token_error_text : token_error -> string;
  ServiceAccount : Type;
  JWTConfigFromJSON : string -> list string -> result string ServiceAccount;
  jwt_TokenSource : jwtSettings ServiceAccount -> TokenSource;
  FindDefaultCredentials : World -> list string -> result string (option TokenSource * string);
  readFile : World -> string -> result string string;
  Src : Type;
  src_name : Src -> string;
  src_get : World -> Src -> result string string;
  Node : Type;
  decode_provider_type : Node -> result string string;
  buildSource : Node -> option Src;
}.

(** An error with its text, or one that wraps the library's. *)
Inductive gcp_error := Plain (text : string) | Wrapped (prefix : string) (e : token_error).

Section gcp.
Context `{UnicodeTables} `{GcpLibrary}.

Definition Error (e : gcp_error) : string :=
  match e with Plain t => t | Wrapped p e => p +:+ ": " +:+ token_error_text e end.

(** Where the transform's token source comes from. *)
Inductive tokenSourceLoader :=
  | FromPath (path : string)
  | FromSource (nested : Src)
  | FromProvider (provider : Node).

(** The state both transforms keep behind their mutex. *)
Record loaded := mkLoaded { tokenSource : option TokenSource; principal : string }.

(** [loadTokenSource]: the loader runs until it succeeds, and never again. *)
Definition loadTokenSource (load : result gcp_error (TokenSource * string)) (st : loaded) : result gcp_error TokenSource * loaded :=
  match tokenSource st with
  | Some ts => (Ok ts, st)
  | None =>
    match load with
    | Err e => (Err e, st)
    | Ok (ts, p) => (Ok ts, mkLoaded (Some ts) p)
    end
  end.

(** [mintToken], with the texts of the two transforms. *)
Definition mintToken (minting empty : string) (load : result gcp_error (TokenSource * string)) (w : World) (st : loaded)
    : result gcp_error string * loaded :=
  let '(ts, st) := loadTokenSource load st in
  match ts with
  | Err e => (Err e, st)
  | Ok ts =>
    let '(tok, ts') := Token w ts in
    (match tok with
     | Err e => Err (Wrapped minting e)
     | Ok tok => if is_empty tok then Err (Plain empty) else Ok tok
     end, mkLoaded (Some ts') (principal st))
  end.

Definition client_email (keyJSON : string) : string := default "" (GcpJwt.string_member "client_email" keyJSON).

Lemma mintToken_nonempty minting empty load w st tok st' :
  mintToken minting empty load w st = (Ok tok, st') -> tok <> "".
Proof.
  unfold mintToken. destruct (loadTokenSource load st) as [[ts|] st1]; [|done].
  destruct (Token w ts) as [[t|] ts']; [|done]. destruct t; [done|]. by intros [= <- _].
Qed.

End gcp.

(** ** gcp_auth *)

Module GcpAccess.
Section gcp_auth.
Context `{UnicodeTables} `{GcpLibrary}.

(** A [yaml.Node] of kind zero is [None]. *)
Record config := mkConfig {
  c_KeyfilePath : string; c_Keyfile : option Node; c_CredentialsProvider : option Node;
  c_Subject : string; c_Scopes : list string; c_Rules : list RuleConfig }.

Inductive config_error :=
  | NotOneSource | NoScopes | SubjectWithProvider | BadRules (e : nat * rule_error) | BuildingKeyfile.

Record GCPAuth := mkGCPAuth {
  rules : list Rule;
  loader : tokenSourceLoader;
  subject : string;
  scopes : list string;
  state : loaded;
}.

Definition newFromConfig (c : config) : result config_error GCPAuth :=
  let hasPath := negb (is_empty (c_KeyfilePath c)) in
  let hasNested := bool_decide (is_Some (c_Keyfile c)) in
  let hasProvider := bool_decide (is_Some (c_CredentialsProvider c)) in
  if negb (length (List.filter id [hasPath; hasNested; hasProvider]) =? 1)%nat then Err NotOneSource
  else if (length (c_Scopes c) =? 0)%nat then Err NoScopes
  else if hasProvider && negb (is_empty (c_Subject c)) then Err SubjectWithProvider
  else
    match CompileRules (c_Rules c) with
    | Err e => Err (BadRules e)
    | Ok rules =>
      let made l := Ok (mkGCPAuth rules l (c_Subject c) (c_Scopes c) (mkLoaded None "")) in
      match c_Keyfile c, c_CredentialsProvider c with
      | _, Some provider => if hasPath then made (FromPath (c_KeyfilePath c)) else made (FromProvider provider)
      | Some node, None =>
        if hasPath then made (FromPath (c_KeyfilePath c))
        else match buildSource node with Some src => made (FromSource src) | None => Err BuildingKeyfile end
      | None, None => made (FromPath (c_KeyfilePath c))
      end
    end.

Definition tokenSourceFromKeyfile (keyJSON : string) (scopes : list string) (subject : string)
    : result gcp_error (TokenSource * string) :=
  match JWTConfigFromJSON keyJSON scopes with
  | Err e => Err (Plain ("parsing GCP service account keyfile: " +:+ e))
  | Ok cfg => Ok (jwt_TokenSource (mkSettings cfg subject None false), client_email keyJSON)
  end.

(** *** tokensource.go *)

Definition principalFromCredentialsJSON (raw : string) : string :=
  if is_empty raw then ""
  else match GcpJwt.Unmarshal_strings ["client_email"; "service_account_impersonation_url"] raw with
       | Some [email; url] => if is_empty email then url else email
       | _ => ""
       end.

Definition providerWorkloadIdentity : string := "workload_identity".

Definition buildWorkloadIdentity (w : World) (node : Node) (scopes : list string) : result gcp_error (TokenSource * string) :=
  match decode_provider_type node with
  | Err e => Err (Plain ("parsing workload_identity provider: " +:+ e))
  | Ok _ =>
    match FindDefaultCredentials w scopes with
    | Err e => Err (Plain ("loading GCP default credentials: " +:+ e))
    | Ok (None, _) => Err (Plain "GCP default credentials returned no token source")
    | Ok (Some ts, json) => Ok (ts, principalFromCredentialsJSON json)
    end
  end.

Definition BuildTokenSource (w : World) (node : Node) (scopes : list string) : result gcp_error (TokenSource * string) :=
  match decode_provider_type node with
  | Err e => Err (Plain ("parsing credentials_provider type: " +:+ e))
  | Ok ty =>
    if is_empty ty then Err (Plain "credentials_provider.type is required")
    else if str_eqb ty providerWorkloadIdentity then buildWorkloadIdentity w node scopes
    else Err (Plain ("unsupported credentials_provider type " +:+ strconv_Quote ty))
  end.

(** The loaders [newFromConfig] makes. *)
Definition tsLoader (w : World) (g : GCPAuth) : result gcp_error (TokenSource * string) :=
  match loader g with
  | FromPath path =>
    match readFile w path with
    | Err e => Err (Plain ("reading GCP keyfile " +:+ strconv_Quote path +:+ ": " +:+ e))
    | Ok data => tokenSourceFromKeyfile data (scopes g) (subject g)
    end
  | FromSource nested =>
    match src_get w nested with
    | Err e => Err (Plain ("loading GCP keyfile from " +:+ strconv_Quote (src_name nested) +:+ ": " +:+ e))
    | Ok v => tokenSourceFromKeyfile v (scopes g) (subject g)
    end
  | FromProvider node => BuildTokenSource w node (scopes g)
  end.

Definition set_state (g : GCPAuth) (st : loaded) : GCPAuth := mkGCPAuth (rules g) (loader g) (subject g) (scopes g) st.
Definition mint (w : World) (g : GCPAuth) : result gcp_error string * loaded :=
  mintToken "minting GCP access token" "GCP token source returned empty access token" (tsLoader w g) w (state g).

(** [isTokenEndpoint]: inspecting a token request may buffer its body. *)
Definition isTokenEndpoint (req : Request) : bool * Request :=
  let host := StripPort (ReqHost req) in
  let path := Path (ReqURL req) in
  if str_eqb host "oauth2.googleapis.com" then
    if str_eqb path "/token" then
      let '(audience, req) := GcpJwt.JWTBearerTargetAudience req in (negb (bool_decide (is_Some audience)), req)
    else (false, req)
  else if str_eqb host "metadata.google.internal" || str_eqb host "169.254.169.254" then
    (HasPrefix path "/computeMetadata/v1/instance/service-accounts/" && HasSuffix path "/token", req)
  else (false, req).

Definition stubTokenResponse : Response := OAuth.jsonResponse 200 OAuth.stubTokenJSON.

Definition TransformRequest {C} (w : World) (g : GCPAuth) (tctx : TransformContext) (s : ReqState C)
    : TransformResult * TransformContext * ReqState C * GCPAuth :=
  let '(stub, req) := isTokenEndpoint (rq s) in
  let s := with_req s req in
  if stub then (mkResult ActionStub (Some stubTokenResponse), Annotate tctx "stubbed" (AStr "oauth2_token_endpoint"), s, g)
  else if negb (length (rules g) =? 0)%nat && negb (MatchAnyRule (rules g) (rq s)) then (continue_result, tctx, s, g)
  else
    let '(tok, st) := mint w g in
    let g := set_state g st in
    match tok with
    | Err e =>
      (reject_result, Annotate (Annotate tctx "error" (AStr (Error e))) "rejected" (AStr "token_unavailable"), s, g)
    | Ok tok =>
      let s := with_req s (set_ReqHeader (rq s) (header_Set (ReqHeader (rq s)) "Authorization" ("Bearer " +:+ tok))) in
      let tctx := if is_empty (principal st) then tctx else Annotate tctx "service_account" (AStr (principal st)) in
      (continue_result, Annotate tctx "injected" (AList [AStr "header:Authorization"]), s, g)
    end.

End gcp_auth.
End GcpAccess.

(** ** gcp_id_token *)

Module GcpIdentity.
Section gcp_id_token.
Context `{UnicodeTables} `{GcpLibrary}.

Definition defaultHeader : string := "Authorization".
Definition serverlessHeader : string := "X-Serverless-Authorization".
Definition stubAudience : string := "iron-proxy-stub-audience".
Definition stubIDTokenLifetimeSeconds : Z := 3600.

Record config := mkConfig {
  c_KeyfilePath : string; c_Keyfile : option Node; c_Audience : string; c_Header : string; c_Rules : list RuleConfig }.
Inductive config_error :=
  | NotOneSource | NoAudience | BadRules (e : nat * rule_error) | NoRules | BadHeader | BuildingKeyfile.

Record GCPIDToken := mkGCPIDToken {
  rules : list Rule;
  audience : string;
  header : string;
  loader : tokenSourceLoader;
  state : loaded;
}.

Definition normalizeHeader (raw : string) : option string :=
  let h := ToLower (TrimSpace raw) in
  if is_empty h || str_eqb h "authorization" then Some defaultHeader
  else if str_eqb h "x-serverless-authorization" then Some serverlessHeader
  else None.

Definition newFromConfig (c : config) : result config_error GCPIDToken :=
  let hasPath := negb (is_empty (c_KeyfilePath c)) in
  let hasNested := bool_decide (is_Some (c_Keyfile c)) in
  if Bool.eqb hasPath hasNested then Err NotOneSource
  else if is_empty (c_Audience c) then Err NoAudience
  else
    match CompileRules (c_Rules c) with
    | Err e => Err (BadRules e)
    | Ok [] => Err NoRules
    | Ok rules =>
      match normalizeHeader (c_Header c) with
      | None => Err BadHeader
      | Some header =>
        let made l := Ok (mkGCPIDToken rules (c_Audience c) header l (mkLoaded None "")) in
        match c_Keyfile c with
        | None => made (FromPath (c_KeyfilePath c))
        | Some node => match buildSource node with Some src => made (FromSource src) | None => Err BuildingKeyfile end
        end
      end
    end.

Definition tokenSourceFromKeyfile (keyJSON audience : string) : result gcp_error (TokenSource * string) :=
  match JWTConfigFromJSON keyJSON [] with
  | Err e => Err (Plain ("parsing GCP service account keyfile: " +:+ e))
  | Ok cfg => Ok (jwt_TokenSource (mkSettings cfg "" (Some audience) true), client_email keyJSON)
  end.

Definition tsLoader (w : World) (g : GCPIDToken) : result gcp_error (TokenSource * string) :=
  match loader g with
  | FromPath path =>
    match readFile w path with
    | Err e => Err (Plain ("reading GCP service account keyfile " +:+ strconv_Quote path +:+ ": " +:+ e))
    | Ok data => tokenSourceFromKeyfile data (audience g)
    end
  | FromSource nested =>
    match src_get w nested with
    | Err e => Err (Plain ("loading GCP service account keyfile from " +:+ strconv_Quote (src_name nested) +:+ ": " +:+ e))
    | Ok v => tokenSourceFromKeyfile v (audience g)
    end
  | FromProvider _ => Err (Plain "no loader")
  end.

Definition set_state (g : GCPIDToken) (st : loaded) : GCPIDToken := mkGCPIDToken (rules g) (audience g) (header g) (loader g) st.
Definition mint (w : World) (g : GCPIDToken) : result gcp_error string * loaded :=
  mintToken "minting GCP ID token" "GCP ID token source returned empty token" (tsLoader w g) w (state g).

Definition classifyMintError (err : gcp_error) : string :=
  match err with
  | Wrapped _ (OAuth.RetrieveError code status) =>
    if negb (is_empty code) then code
    else match status with
         | Some s => "token_endpoint_http_" +:+ Itoa s
         | None => "token_endpoint_error"
         end
  | _ => "mint_failed"
  end.

Definition metadataIdentityAudience (req : Request) : option string :=
  let host := StripPort (ReqHost req) in
  if negb (str_eqb host "metadata.google.internal") && negb (str_eqb host "169.254.169.254") then None
  else
    let path := Path (ReqURL req) in
    if negb (HasPrefix path "/computeMetadata/v1/instance/service-accounts/") || negb (HasSuffix path "/identity") then None
    else let audience := GcpJwt.query_Get (ParseQuery (RawQuery (ReqURL req))).1 "audience" in
         if is_empty audience then None else Some audience.

Definition jwtBearerIDTokenAudience (req : Request) : option string * Request :=
  if negb (str_eqb (StripPort (ReqHost req)) "oauth2.googleapis.com") || negb (str_eqb (Path (ReqURL req)) "/token") then (None, req)
  else GcpJwt.JWTBearerTargetAudience req.

Definition metadataKind : string := "gcp_metadata_identity_endpoint".
Definition endpointKind : string := "gcp_oauth2_id_token_endpoint".

(** [stubRequest]: the audience and the kind of endpoint. *)
Definition stubRequest (req : Request) : option (string * string) * Request :=
  match metadataIdentityAudience req with
  | Some audience => (Some (audience, metadataKind), req)
  | None => let '(audience, req) := jwtBearerIDTokenAudience req in ((fun a => (a, endpointKind)) <$> audience, req)
  end.

(** [encodeJWTPart] and [fakeIDToken] at a Unix time; the claims are strings,
    a boolean and integers, which [json.Marshal] always encodes. *)
Definition encodeJWTPart (v : any) : string := RawURL_EncodeToString (Marshal_any v).
Definition stub_claims (audience : string) (now : Z) : any :=
  AMap [("iss", AStr "https://accounts.google.com"); ("aud", AStr audience); ("azp", AStr "iron-proxy-stub");
        ("sub", AStr "iron-proxy-stub"); ("email", AStr "stub@iron-proxy.local"); ("email_verified", ABool true);
        ("iat", AInt now); ("exp", AInt (now + stubIDTokenLifetimeSeconds))].
Definition fakeIDToken (now : Z) (audience : string) : string :=
  let audience := if is_empty audience then stubAudience else audience in
  encodeJWTPart (AMap [("alg", AStr "RS256"); ("typ", AStr "JWT")]) +:+ "." +:+ encodeJWTPart (stub_claims audience now)
  +:+ "." +:+ RawURL_EncodeToString "stub-signature".

Definition stubResponse (kind token : string) : Response :=
  if str_eqb kind metadataKind then
    mkResponse 200 {["Content-Type" := ["text/plain"]]} (BufferedBody.NewBufferedBodyFromBytes (bytes_of_string token))
               (Z.of_nat (String.length token))
  else OAuth.jsonResponse 200 ("{" +:+ OAuth.quoted "id_token" +:+ ":" +:+ OAuth.quoted token +:+ "," +:+ OAuth.quoted "expires_in"
         +:+ ":3600," +:+ OAuth.quoted "token_type" +:+ ":" +:+ OAuth.quoted "Bearer" +:+ "}").

Definition TransformRequest {C} (w : World) (now : Z) (g : GCPIDToken) (tctx : TransformContext) (s : ReqState C)
    : TransformResult * TransformContext * ReqState C * GCPIDToken :=
  let '(stub, req) := stubRequest (rq s) in
  let s := with_req s req in
  match stub with
  | Some (aud, kind) =>
    let tctx := Annotate tctx "stubbed" (AStr kind) in
    let tctx := if is_empty aud then tctx else Annotate tctx "audience" (AStr aud) in
    (mkResult ActionStub (Some (stubResponse kind (fakeIDToken now aud))), tctx, s, g)
  | None =>
    if negb (MatchAnyRule (rules g) (rq s)) then (continue_result, tctx, s, g)
    else
      let '(tok, st) := mint w g in
      let g := set_state g st in
      match tok with
      | Err e =>
        (reject_result, Annotate (Annotate tctx "error" (AStr (classifyMintError e))) "rejected" (AStr "token_unavailable"), s, g)
      | Ok tok =>
        let s := with_req s (set_ReqHeader (rq s) (header_Set (ReqHeader (rq s)) (header g) ("Bearer " +:+ tok))) in
        let tctx := if is_empty (principal st) then tctx else Annotate tctx "service_account" (AStr (principal st)) in
        (continue_result,
         Annotate (Annotate tctx "audience" (AStr (audience g))) "injected" (AList [AStr ("header:" +:+ header g)]), s, g)
      end
  end.

End gcp_id_token.
End GcpIdentity.

(** ** The two transforms together *)

Module Google.
Section google.
Context `{UnicodeTables} `{GcpLibrary}.
Implicit Types (req : Request).

(** What a token request's body decides, when it can be read. *)
Lemma tokenRequestBody_value req d :
  BufferedBody.view (ReqBody req) = Some (d, None) -> BufferedBody.pos (ReqBody req) = 0%nat ->
  (GcpJwt.tokenRequestBody req).1 =
    if (ReqContentLength req <? 0) || (GcpJwt.MaxTokenRequestBodyBytes <? ReqContentLength req) then None
    else if GcpJwt.MaxTokenRequestBodyBytes <? Z.of_nat (length (take (Z.to_nat (GcpJwt.MaxTokenRequestBodyBytes + 1)) d)) then None
    else Some (string_of_bytes d).
Proof.
  intros Hv Hp. unfold GcpJwt.tokenRequestBody. destruct (_ || _); [done|].
  pose proof (BufferedBody.ReadAll_view _ _ Hv) as Hr. destruct (BufferedBody.ReadAll (ReqBody req)) as [out body].
  cbn [fst] in Hr. rewrite Hr, Hp. change (drop 0 d) with d. by destruct (_ <? _).
Qed.

Lemma target_audience_stable req req' d :
  BufferedBody.view (ReqBody req) = Some (d, None) -> BufferedBody.pos (ReqBody req) = 0%nat ->
  BufferedBody.view (ReqBody req') = Some (d, None) -> BufferedBody.pos (ReqBody req') = 0%nat ->
  ReqContentLength req = ReqContentLength req' ->
  (GcpJwt.JWTBearerTargetAudience req).1 = (GcpJwt.JWTBearerTargetAudience req').1.
Proof.
  intros Hv Hp Hv' Hp' Hc. unfold GcpJwt.JWTBearerTargetAudience.
  pose proof (tokenRequestBody_value req d Hv Hp) as E. pose proof (tokenRequestBody_value req' d Hv' Hp') as E'.
  rewrite Hc, <- E' in E. destruct (GcpJwt.tokenRequestBody req) as [b r], (GcpJwt.tokenRequestBody req') as [b' r'].
  cbn [fst] in E. subst b'. destruct b as [body|]; [|done].
  destruct (ParseQuery body) as [values []]; [done|]. by destruct (negb _).
Qed.

Lemma token_host_not_metadata req :
  StripPort (ReqHost req) = "oauth2.googleapis.com" -> GcpIdentity.metadataIdentityAudience req = None.
Proof. intros Hh. unfold GcpIdentity.metadataIdentityAudience. by rewrite Hh. Qed.

Lemma access_endpoint req :
  StripPort (ReqHost req) = "oauth2.googleapis.com" -> Path (ReqURL req) = "/token" ->
  GcpAccess.isTokenEndpoint req =
    (negb (bool_decide (is_Some (GcpJwt.JWTBearerTargetAudience req).1)), (GcpJwt.tokenRequestBody req).2).
Proof.
  intros Hh Hp. unfold GcpAccess.isTokenEndpoint. rewrite Hh, Hp. cbn [str_eqb String.eqb].
  rewrite <- GcpJwt.JWTBearerTargetAudience_req. by destruct (GcpJwt.JWTBearerTargetAudience req).
Qed.

Lemma identity_endpoint req :
  StripPort (ReqHost req) = "oauth2.googleapis.com" -> Path (ReqURL req) = "/token" ->
  GcpIdentity.stubRequest req =
    ((fun a => (a, GcpIdentity.endpointKind)) <$> (GcpJwt.JWTBearerTargetAudience req).1, (GcpJwt.tokenRequestBody req).2).
Proof.
  intros Hh Hp. unfold GcpIdentity.stubRequest, GcpIdentity.jwtBearerIDTokenAudience.
  rewrite (token_host_not_metadata req Hh), Hh, Hp. cbn.
  rewrite <- GcpJwt.JWTBearerTargetAudience_req. by destruct (GcpJwt.JWTBearerTargetAudience req).
Qed.

(** A readable request to Google's token endpoint is answered by exactly
    one of the two transforms, whichever stands first in the pipeline:
    [gcp_id_token] when its JWT assertion asks for a target audience,
    [gcp_auth] otherwise; the first one's inspection leaves the body as it was
    for the second. *)
Theorem token_request_answered_once req d :
  StripPort (ReqHost req) = "oauth2.googleapis.com" -> Path (ReqURL req) = "/token" ->
  BufferedBody.view (ReqBody req) = Some (d, None) -> BufferedBody.pos (ReqBody req) = 0%nat ->
  let '(access, r1) := GcpAccess.isTokenEndpoint req in
  let '(ident, r2) := GcpIdentity.stubRequest req in
  access = negb (bool_decide (is_Some ident)) /\ r1 = r2 /\
  set_ReqBody r1 (ReqBody req) = req /\ BufferedBody.view (ReqBody r1) = Some (d, None) /\ BufferedBody.pos (ReqBody r1) = 0%nat /\
  (GcpAccess.isTokenEndpoint r1).1 = access /\ (GcpIdentity.stubRequest r1).1 = ident.
Proof.
  intros Hh Hp Hv Hpos. rewrite (access_endpoint _ Hh Hp), (identity_endpoint _ Hh Hp).
  destruct (GcpJwt.tokenRequestBody_replays req d Hv Hpos) as (Hs & Hv1 & Hp1). set (r1 := (GcpJwt.tokenRequestBody req).2) in *.
  assert (ReqHost r1 = ReqHost req /\ ReqURL r1 = ReqURL req /\ ReqContentLength r1 = ReqContentLength req) as (E1 & E2 & E3)
    by (by rewrite <- Hs).
  rewrite access_endpoint, identity_endpoint by congruence. cbn [fst].
  rewrite <- (target_audience_stable req r1 d) by done.
  split; [by destruct (GcpJwt.JWTBearerTargetAudience req).1|]. done.
Qed.

(** A request that leaves either transform after its token step carries a
    freshly minted, non-empty token and nothing else in that header; when no
    token can be minted the request is rejected, and never forwarded without
    one. *)
Theorem google_tokens_fail_closed {C} w now (g : GcpAccess.GCPAuth) (i : GcpIdentity.GCPIDToken) tctx (s : ReqState C) :
  (MatchAnyRule (GcpAccess.rules g) (rq s) = true -> GcpAccess.isTokenEndpoint (rq s) = (false, rq s) ->
   match GcpAccess.TransformRequest w g tctx s with
   | (res, _, s', g') =>
     (exists tok, (GcpAccess.mint w g).1 = Ok tok /\ tok <> "" /\ res = continue_result /\
        header_Values (ReqHeader (rq s')) "Authorization" = ["Bearer " +:+ tok])
     \/ (exists e, (GcpAccess.mint w g).1 = Err e /\ res = reject_result /\ s' = s)
   end) /\
  (MatchAnyRule (GcpIdentity.rules i) (rq s) = true -> GcpIdentity.stubRequest (rq s) = (None, rq s) ->
   match GcpIdentity.TransformRequest w now i tctx s with
   | (res, _, s', i') =>
     (exists tok, (GcpIdentity.mint w i).1 = Ok tok /\ tok <> "" /\ res = continue_result /\
        header_Values (ReqHeader (rq s')) (GcpIdentity.header i) = ["Bearer " +:+ tok])
     \/ (exists e, (GcpIdentity.mint w i).1 = Err e /\ res = reject_result /\ s' = s)
   end).
Proof.
  split; intros Hm Hs.
  - unfold GcpAccess.TransformRequest. rewrite Hs. cbn [with_req rq]. rewrite Hm, andb_false_r.
    destruct (GcpAccess.mint w g) as [[tok|e] st] eqn:Em.
    + left. exists tok. unfold GcpAccess.mint in Em. apply mintToken_nonempty in Em. repeat split; [done|].
      cbn [with_req rq set_ReqHeader ReqHeader]. unfold header_Values, raw_values, header_Set. by rewrite lookup_insert_eq.
    + right. exists e. repeat split. by destruct s.
  - unfold GcpIdentity.TransformRequest. rewrite Hs. cbn [with_req rq]. rewrite Hm.
    destruct (GcpIdentity.mint w i) as [[tok|e] st] eqn:Em.
    + left. exists tok. unfold GcpIdentity.mint in Em. apply mintToken_nonempty in Em. repeat split; [done|].
      cbn [with_req rq set_ReqHeader ReqHeader]. unfold header_Values, raw_values, header_Set. by rewrite lookup_insert_eq.
    + right. exists e. repeat split. by destruct s.
Qed.

Lemma string_in_raw s : string_in "."%char (RawURL_EncodeToString s) = false.
Proof.
  unfold RawURL_EncodeToString. pose proof (RawURL_no_dot s) as Hd. pose proof (base64_raw_bytes (bytes_of_string s)) as Hb.
  induction Hb as [|b l Hb _ IH]; [done|]. cbn [string_of_bytes string_in]. apply not_elem_of_cons in Hd as [Hn Hd].
  rewrite (IH Hd), orb_false_r. apply bool_decide_eq_false. intros E. apply Hn.
  apply (f_equal byte_of_ascii) in E. by rewrite byte_of_ascii_of_byte in E.
Qed.

(** The placeholder ID token is a well-formed JWT: its middle part decodes
    to the claims, which name the audience the client asked for and expire an
    hour after they were issued. *)
Theorem stub_token_parses now aud : aud <> "" ->
  exists h sig, Split (GcpIdentity.fakeIDToken now aud) "." = [h; GcpIdentity.encodeJWTPart (GcpIdentity.stub_claims aud now); sig] /\
    RawURL_DecodeString (GcpIdentity.encodeJWTPart (GcpIdentity.stub_claims aud now)) = Some (Marshal_any (GcpIdentity.stub_claims aud now)).
Proof.
  intros Ha. unfold GcpIdentity.fakeIDToken. destruct aud as [|c aud]; [done|]. cbn [is_empty]. eexists _, _. split.
  - apply (Split_Join [_; _; _] "."%char); [done|]. repeat constructor; apply string_in_raw.
  - apply RawURL_roundtrip.
Qed.

(** The loader is not asked again once it has succeeded: whatever the keyfile
    holds later, the transform mints with the source of the first one. *)
Lemma loaded_source_kept minting empty load load' w st ts :
  tokenSource st = Some ts -> mintToken minting empty load w st = mintToken minting empty load' w st /\
  exists ts', tokenSource (mintToken minting empty load w st).2 = Some ts'.
Proof.
  intros Hs. unfold mintToken, loadTokenSource. rewrite Hs. destruct (Token w ts) as [tok ts']. split; [done|]. by exists ts'.
Qed.

End google.

(** ** Examples *)

Definition example_gcp : GcpLibrary := {|
  World := bool;                              (* whether the keyfile is there *)
  TokenSource := string;
  Token w ts := (Ok ("ya29." +:+ ts), ts);
  token_error_text _ := "error";
  ServiceAccount := string;
  JWTConfigFromJSON key scopes := Ok key;
  jwt_TokenSource s := js_account _ s;
  FindDefaultCredentials w scopes := Err "no credentials";
  readFile w path := if w then Ok "key" else Err "no such file";
  Src := string;
  src_name s := s;
  src_get w s := Ok s;
  Node := string;
  decode_provider_type n := Ok n;
  buildSource n := Some n;
|}.
Local Existing Instances ascii_tables example_gcp.

Definition token_request (form : string) : Request :=
  mkRequest "POST" "oauth2.googleapis.com:443" (mkURL "https" None "oauth2.googleapis.com" "/token" "" "") ∅
    (BufferedBody.NewBufferedBody (Some (mkReader (bytes_of_string form) None)) 0) (Z.of_nat (String.length form)) true.
Definition assertion_form (claims : string) : string :=
  "grant_type=urn%3Aietf%3Aparams%3Aoauth%3Agrant-type%3Ajwt-bearer&assertion=e30." +:+ RawURL_EncodeToString claims +:+ ".sig".

Example token_request_ex :
  (GcpAccess.isTokenEndpoint (token_request (assertion_form "{}"))).1 = true /\
  (GcpIdentity.stubRequest (token_request (assertion_form (json_string_map [("target_audience", "https://svc.test")])))).1
    = Some ("https://svc.test", "gcp_oauth2_id_token_endpoint") /\
  (GcpAccess.isTokenEndpoint (token_request (assertion_form (json_string_map [("target_audience", "https://svc.test")])))).1 = false.
Proof. vm_compute. auto. Qed.

Lemma token_request_answered_once_witness :
  let req := token_request (assertion_form (json_string_map [("target_audience", "https://svc.test")])) in
  let '(access, r1) := GcpAccess.isTokenEndpoint req in
  let '(ident, r2) := GcpIdentity.stubRequest req in
  access = false /\ ident = Some ("https://svc.test", "gcp_oauth2_id_token_endpoint") /\
  access = negb (bool_decide (is_Some ident)) /\ (GcpAccess.isTokenEndpoint r1).1 = access /\ (GcpIdentity.stubRequest r1).1 = ident.
Proof.
  cbn zeta.
  pose proof (token_request_answered_once (token_request (assertion_form (json_string_map [("target_audience", "https://svc.test")])))
    (bytes_of_string (assertion_form (json_string_map [("target_audience", "https://svc.test")])))
    ltac:(vm_compute; reflexivity) ltac:(vm_compute; reflexivity) ltac:(vm_compute; reflexivity) ltac:(vm_compute; reflexivity)) as Ht.
  destruct (GcpAccess.isTokenEndpoint (token_request _)) as [access r1] eqn:Ea.
  destruct (GcpIdentity.stubRequest (token_request _)) as [ident r2] eqn:Ei.
  apply (f_equal fst) in Ea, Ei. vm_compute in Ea, Ei. cbn [fst] in Ea, Ei. subst access ident. tauto.
Defined.

Definition example_gcp_auth : GcpAccess.GCPAuth :=
  match GcpAccess.newFromConfig (GcpAccess.mkConfig "/etc/key.json" None None "" ["scope"] [mkRuleConfig "api.test" "" [] [] []]) with
  | Ok g => g
  | Err _ => GcpAccess.mkGCPAuth [] (FromPath "") "" [] (mkLoaded None "")
  end.
Definition example_id_token : GcpIdentity.GCPIDToken :=
  match GcpIdentity.newFromConfig (GcpIdentity.mkConfig "/etc/key.json" None "https://svc.test" "" [mkRuleConfig "api.test" "" [] [] []]) with
  | Ok g => g
  | Err _ => GcpIdentity.mkGCPIDToken [] "" "" (FromPath "") (mkLoaded None "")
  end.
Definition api_request : ReqState unit :=
  mkReqState (mkRequest "GET" "api.test" (mkURL "https" None "api.test" "/v1" "" "") ∅ (BufferedBody.NewBufferedBody None 0) 0 true) tt.

Lemma google_tokens_fail_closed_witness :
  exists tctx' s' g', GcpAccess.TransformRequest (false : World) example_gcp_auth (mkContext "" ModeMITM None false None None) api_request
    = (reject_result, tctx', s', g').
Proof.
  pose proof (proj1 (google_tokens_fail_closed (false : World) 0 example_gcp_auth example_id_token
    (mkContext "" ModeMITM None false None None) api_request) ltac:(vm_compute; reflexivity) ltac:(vm_compute; reflexivity)) as Ht.
  destruct (GcpAccess.TransformRequest _ _ _ _) as [[[res tctx'] s'] g'].
  destruct Ht as [(tok & Ht & _)|(e & _ & -> & _)]; [vm_compute in Ht; discriminate|]. by eexists _, _, _.
Defined.

End Google.
