(* ===== verification/Signing.v ===== *)
(** * Request signing (src/internal/transform/hmacsign/hmacsign.go,
      awsauth/awsauth.go, awsauth/credprovider.go)

    [hmac_sign] signs a message made from the request and puts the signature
    in configured headers; [aws_auth] replaces the placeholder AWS signature
    of a request by a real one.  Neither signs a body it has not seen
    whole. *)
From stdpp Require Import base gmap strings list option.
From Stdlib Require Import ZArith Lia Ascii.
From S2P Require Import Prelude GoUtf8 GoStrings GoNet Body GoHttp GoJson HostMatch Transform GoEncoding GoRawEncoding Headers OAuth.
Local Open Scope string_scope.
Local Open Scope list_scope.
Local Open Scope Z_scope.

(** ** The body that is signed *)

Section body.

(** The answers of the two transforms differ in the name they give. *)
Definition errorResponse (transform : string) (status : Z) (reason : string) : Response :=
  OAuth.jsonResponse status ("{" +:+ OAuth.quoted "error" +:+ ":" +:+ OAuth.quoted transform +:+ ","
                             +:+ OAuth.quoted "reason" +:+ ":" +:+ OAuth.quoted reason +:+ "}").
Definition refuse (transform : string) (status : Z) (reason : string) : TransformResult :=
  mkResult ActionReject (Some (errorResponse transform status reason)).

(** The checks of [readBodyForSigning] and of [payloadHash].  A request's
    body is a [BufferedBody] here, so it is neither nil nor [http.NoBody]. *)
Definition verified_body (transform : string) (allowChunked : bool) (tctx : TransformContext) (req : Request)
    : result TransformResult (list Z) * TransformContext * Request :=
  let '(out, body) := BufferedBody.ReadAll (ReqBody req) in
  let req := set_ReqBody req body in
  let cl := ReqContentLength req in
  match out with
  | BufferedBody.GotErr e =>
    (Err (refuse transform 400 "body_read_failed"),
     Annotate (Annotate tctx "rejected" (AStr "body_read_failed")) "error" (AStr e), req)
  | BufferedBody.GotBytes b =>
    if (0 <=? cl) && (Z.of_nat (length b) <? cl) then
      (Err (refuse transform 413 "body_truncated"),
       Annotate (Annotate (Annotate tctx "rejected" (AStr "body_truncated")) "content_length" (AInt cl))
                "buffered_length" (AInt (Z.of_nat (length b))), req)
    else if (cl <? 0) && negb allowChunked then
      (Err (refuse transform 400 "chunked_body_not_allowed"),
       Annotate tctx "rejected" (AStr "chunked_body_not_allowed"), req)
    else (Ok b, tctx, req)
  | BufferedBody.GotEOF | BufferedBody.Panics => (Err (refuse transform 400 "body_read_failed"), tctx, req)
  end.

(** A body of known length is signed whole: what was read is everything the
    client sent, however small the proxy's buffer limit. *)
Lemma verified_body_complete transform allow tctx req r b tctx' req' :
  ReqBody req = BufferedBody.NewBufferedBody (Some r) (BufferedBody.maxBytes (ReqBody req)) ->
  Z.of_nat (length (rd_data r)) = ReqContentLength req ->
  verified_body transform allow tctx req = (Ok b, tctx', req') -> b = rd_data r /\ rd_err (BufferedBody.limited (BufferedBody.maxBytes (ReqBody req)) r) = None.
Proof.
  intros Hb Hl. set (m := BufferedBody.maxBytes (ReqBody req)) in *. unfold verified_body. rewrite Hb.
  unfold BufferedBody.ReadAll, BufferedBody.buffer, BufferedBody.limited. cbn [BufferedBody.NewBufferedBody BufferedBody.once
    BufferedBody.original default from_option id BufferedBody.maxBytes BufferedBody.pos]. cbn zeta.
  set (l := if 0 <? m then limit_reader m r else r). destruct (rd_err l) as [e|] eqn:Ee; [done|].
  cbn [BufferedBody.data BufferedBody.pos set_ReqBody ReqContentLength]. rewrite drop_0.
  destruct ((0 <=? ReqContentLength req) && (Z.of_nat (length (rd_data l)) <? ReqContentLength req)) eqn:Et; [done|].
  destruct ((ReqContentLength req <? 0) && _); [done|]. intros [= <- _ _]. split; [|done].
  assert (ReqContentLength req <= Z.of_nat (length (rd_data l))) as Hge by lia.
  subst l. destruct (0 <? m) eqn:Em; [|done]. unfold limit_reader in *.
  destruct (Z.of_nat (length (rd_data r)) <? m) eqn:El; [done|]. cbn [rd_data] in *.
  rewrite length_take in Hge. apply take_ge. lia.
Qed.

(** A body as a transform finds it: the client's, through the proxy's limit,
    or bytes that an earlier transform put in its place, read and rewound any
    number of times. *)
Definition client_body (b : BufferedBody.t) (r : Reader) (max : Z) : Prop :=
  exists ops, b = BufferedBody.Reset (BufferedBody.run (BufferedBody.NewBufferedBody (Some r) max) ops).
Definition replaced_body (b : BufferedBody.t) (d : list Z) : Prop :=
  exists ops, b = BufferedBody.Reset (BufferedBody.run (BufferedBody.NewBufferedBodyFromBytes d) ops).

Lemma buffered_step b o d : BufferedBody.once b = true -> BufferedBody.data b = d ->
  BufferedBody.once (BufferedBody.step b o) = true /\ BufferedBody.data (BufferedBody.step b o) = d.
Proof. intros Ho Hd. destruct o as [n| |]; cbn; unfold BufferedBody.Read, BufferedBody.ReadAll, BufferedBody.buffer; rewrite ?Ho; cbn; [by case_match | done | done]. Qed.
Lemma client_run r max ops : let b := BufferedBody.run (BufferedBody.NewBufferedBody (Some r) max) ops in
  BufferedBody.once b = false /\ BufferedBody.Reset b = BufferedBody.NewBufferedBody (Some r) max \/
  BufferedBody.once b = true /\ BufferedBody.data b = rd_data (BufferedBody.limited max r).
Proof.
  cbn zeta. induction ops as [|o ops IH] using rev_ind; [by left|]. unfold BufferedBody.run in *. rewrite foldl_snoc.
  destruct IH as [[Ho Hb]|[Ho Hd]]; [|right; by apply buffered_step]. set (b := foldl _ _ ops) in *.
  assert (BufferedBody.original b = Some r /\ BufferedBody.maxBytes b = max) as [Hr Hm].
  { split; [apply (f_equal BufferedBody.original) in Hb | apply (f_equal BufferedBody.maxBytes) in Hb]; exact Hb. }
  destruct o as [n| |]; cbn; [| |by left]; right; unfold BufferedBody.Read, BufferedBody.ReadAll, BufferedBody.buffer; rewrite Ho, Hr, Hm; cbn;
    fold (BufferedBody.limited max r); destruct (rd_err _); cbn; try done; by case_match.
Qed.
Lemma client_ReadAll b r max x : client_body b r max -> (BufferedBody.ReadAll b).1 = BufferedBody.GotBytes x -> x = rd_data (BufferedBody.limited max r).
Proof.
  intros [ops ->] Hx. destruct (client_run r max ops) as [[Ho Hb]|[Ho Hd]].
  - rewrite Hb in Hx. unfold BufferedBody.ReadAll, BufferedBody.buffer in Hx. cbn in Hx. fold (BufferedBody.limited max r) in Hx.
    destruct (rd_err _); cbn in Hx; [done|]. by injection Hx as <-.
  - revert Hx. unfold BufferedBody.ReadAll, BufferedBody.buffer. cbn. rewrite Ho. cbn. rewrite drop_0, Hd. by intros [= <-].
Qed.
Lemma replaced_ReadAll b d x : replaced_body b d -> (BufferedBody.ReadAll b).1 = BufferedBody.GotBytes x -> x = d.
Proof.
  intros [ops ->]. assert (forall b0, BufferedBody.once b0 = true -> BufferedBody.data b0 = d -> BufferedBody.once (BufferedBody.run b0 ops) = true /\ BufferedBody.data (BufferedBody.run b0 ops) = d) as Hrun.
  { induction ops as [|o ops IH]; intros b0 Ho Hd; [done|]. destruct (buffered_step b0 o d Ho Hd). by apply IH. }
  destruct (Hrun (BufferedBody.NewBufferedBodyFromBytes d) eq_refl eq_refl) as [Ho Hd].
  unfold BufferedBody.ReadAll, BufferedBody.buffer. cbn. rewrite Ho. cbn. rewrite drop_0, Hd. by intros [= <-].
Qed.
(** What a limit leaves is all, when it is not less. *)
Lemma limited_whole max r n : Z.of_nat (length (rd_data r)) <= n -> n <= Z.of_nat (length (rd_data (BufferedBody.limited max r))) ->
  rd_data (BufferedBody.limited max r) = rd_data r.
Proof.
  unfold BufferedBody.limited, limit_reader. destruct (0 <? max); [|done]. destruct (Z.of_nat (length (rd_data r)) <? max); [done|]. cbn.
  rewrite length_take. intros Hr Hn. apply take_ge. lia.
Qed.
(** A body that passes the checks. *)
Lemma verified_body_ok transform allow tctx req b tctx' req' : verified_body transform allow tctx req = (Ok b, tctx', req') ->
  (BufferedBody.ReadAll (ReqBody req)).1 = BufferedBody.GotBytes b /\ (0 <= ReqContentLength req -> ReqContentLength req <= Z.of_nat (length b)) /\
  (ReqContentLength req < 0 -> allow = true).
Proof.
  unfold verified_body. destruct (BufferedBody.ReadAll (ReqBody req)) as [o body]. cbn. intros E. destruct o; try done.
  destruct ((0 <=? _) && _) eqn:E1; [done|]. destruct ((_ <? 0) && _) eqn:E2; [done|]. injection E as -> _ _. split; [done|]. split; [lia|].
  intros Hl. destruct allow; [done|]. lia.
Qed.
Lemma verified_body_refuses transform allow tctx req res tctx' req' : verified_body transform allow tctx req = (Err res, tctx', req') -> res_Action res = ActionReject.
Proof. unfold verified_body. destruct (BufferedBody.ReadAll _) as [[]?]; repeat case_match; try discriminate; by intros [= <- _ _]. Qed.

Lemma verified_body_req transform allow tctx req out tctx' req' :
  verified_body transform allow tctx req = (out, tctx', req') -> set_ReqBody req' (ReqBody req) = req.
Proof.
  unfold verified_body. destruct (BufferedBody.ReadAll (ReqBody req)) as [o body]. intros E.
  destruct o; repeat case_match; injection E as _ _ <-; by destruct req.
Qed.
End body.

(** ** hmac_sign *)

Module HmacSign.

Definition credentialSecretField : string := "secret".

Record messageData := mkMessage {
  m_Timestamp : string; m_Method : string; m_Path : string; m_PathWithQuery : string; m_Query : string; m_Host : string;
  m_Body : string }.
Record headerData := mkHeaderData { h_Timestamp : string; h_Signature : string; h_Credentials : gmap string string }.

Inductive algorithm := SHA256 | SHA512 | SHA1.

(** Secret sources, [text/template], the keyed hashes and the rendering of a
    time in RFC 3339, in a world that the sources' answers depend on. *)
Class SigningLibrary := {
  World : Type;
  Src : Type;
  src_get : World -> Src -> result string string;
  Template : Type;
  template_Parse : string -> option Template;
  Execute_message : Template -> messageData -> result string string;
  Execute_header : Template -> headerData -> result string string;
  HMAC : algorithm -> string -> string -> string;
  FormatRFC3339 : Z -> string;
}.

Inductive timestamp_format := UnixSeconds | UnixMillis | UnixNanos | RFC3339.
Inductive key_encoding := RawKey | Base64Key | HexKey.
Inductive output_encoding := Base64Out | HexOut.

(** [compileTimestampFormat], [compileAlgorithm], [compileKeyEncoding] and
    [compileOutputEncoding]. *)
Definition compileTimestampFormat (f : string) : option timestamp_format :=
  if is_empty f || str_eqb f "unix_seconds" then Some UnixSeconds
  else if str_eqb f "unix_millis" then Some UnixMillis
  else if str_eqb f "unix_nanos" then Some UnixNanos
  else if str_eqb f "rfc3339" then Some RFC3339
  else None.
Definition compileAlgorithm (a : string) : option algorithm :=
  if is_empty a || str_eqb a "sha256" then Some SHA256
  else if str_eqb a "sha512" then Some SHA512
  else if str_eqb a "sha1" then Some SHA1
  else None.
Definition compileKeyEncoding (e : string) : option key_encoding :=
  if is_empty e || str_eqb e "raw" then Some RawKey
  else if str_eqb e "base64" then Some Base64Key
  else if str_eqb e "hex" then Some HexKey
  else None.
Definition compileOutputEncoding (e : string) : option output_encoding :=
  if is_empty e || str_eqb e "base64" then Some Base64Out
  else if str_eqb e "hex" then Some HexOut
  else None.

Section hmac.
Context `{SigningLibrary} `{UnicodeTables} `{MapRange}.

(** What the compiled functions do; a time is its nanoseconds since 1970. *)
Definition timestampFn (f : timestamp_format) (t : Z) : string :=
  match f with
  | UnixSeconds => Itoa (t / 1000000000)
  | UnixMillis => Itoa (t / 1000000)
  | UnixNanos => Itoa t
  | RFC3339 => FormatRFC3339 t
  end.
Definition decodeKey (e : key_encoding) (b : string) : result string string :=
  match e with
  | RawKey => Ok b
  | Base64Key => match base64_DecodeString false b with Some k => Ok k | None => Err "decoding base64 key" end
  | HexKey => match hex_DecodeString b with Some k => Ok k | None => Err "decoding hex key" end
  end.
Definition encodeSignature (e : output_encoding) (b : string) : string :=
  match e with Base64Out => base64_EncodeToString b | HexOut => hex_EncodeToString b end.

Record HMACSign := mkHMACSign {
  rules : list Rule;
  credentials : gmap string Src;
  msgTmpl : Template;
  headerTmpls : list (string * Template);
  timestamp : timestamp_format;
  newHash : algorithm;
  keyEncoding : key_encoding;
  outputEncoding : output_encoding;
  allowChunkedBody : bool;
}.

Record config (Node : Type) := mkConfig {
  c_TimestampFormat : string;
  c_Algorithm : string; c_KeyEncoding : string; c_OutputEncoding : string; c_Message : string;
  c_Credentials : gmap string Node;
  c_Headers : list (string * string);
  c_AllowChunkedBody : bool;
  c_Rules : list RuleConfig;
}.

Inductive config_error :=
  | UnknownTimestamp (f : string) | UnknownAlgorithm (a : string) | UnknownKeyEncoding (e : string) | UnknownOutputEncoding (e : string)
  | NoMessage | BadMessage | NoHeaders | NoHeaderName (i : nat) | NoHeaderValue (i : nat) | BadHeader (i : nat)
  | NoCredentials | NoSecret | BadCredential (name : string) | BadRules (e : nat * rule_error) | NoRules.

Definition ensure {A} (e : config_error) (o : option A) : result config_error A := match o with Some a => Ok a | None => Err e end.

Definition compile_header (i : nat) (h : string * string) : result config_error (string * Template) :=
  if is_empty h.1 then Err (NoHeaderName i)
  else if is_empty h.2 then Err (NoHeaderValue i)
  else let* t := ensure (BadHeader i) (template_Parse h.2) in Ok (h.1, t).

Definition newFromConfig {Node} (build : Node -> option Src) (c : config Node) : result config_error HMACSign :=
  let* ts := ensure (UnknownTimestamp (c_TimestampFormat _ c)) (compileTimestampFormat (c_TimestampFormat _ c)) in
  let* alg := ensure (UnknownAlgorithm (c_Algorithm _ c)) (compileAlgorithm (c_Algorithm _ c)) in
  let* key := ensure (UnknownKeyEncoding (c_KeyEncoding _ c)) (compileKeyEncoding (c_KeyEncoding _ c)) in
  let* out := ensure (UnknownOutputEncoding (c_OutputEncoding _ c)) (compileOutputEncoding (c_OutputEncoding _ c)) in
  if is_empty (c_Message _ c) then Err NoMessage
  else
    let* msg := ensure BadMessage (template_Parse (c_Message _ c)) in
    if (length (c_Headers _ c) =? 0)%nat then Err NoHeaders
    else
      let* hdrs := rmapi compile_header 0 (c_Headers _ c) in
      if (size (c_Credentials _ c) =? 0)%nat then Err NoCredentials
      else if negb (bool_decide (is_Some (c_Credentials _ c !! credentialSecretField))) then Err NoSecret
      else
        let* creds := foldl (fun acc (kv : string * Node) =>
          let* m := acc in
          let* src := ensure (BadCredential kv.1) (build kv.2) in Ok (<[kv.1 := src]> m)) (Ok ∅) (map_range (c_Credentials _ c)) in
        match CompileRules (c_Rules _ c) with
        | Err e => Err (BadRules e)
        | Ok [] => Err NoRules
        | Ok rules => Ok (mkHMACSign rules creds msg hdrs ts alg key out (c_AllowChunkedBody _ c))
        end.

Definition pathWithQuery (path rawQuery : string) : string := if is_empty rawQuery then path else path +:+ "?" +:+ rawQuery.

Definition readBodyForSigning (h : HMACSign) := verified_body "hmac_sign" (allowChunkedBody h).

(** The credential loop: the values, or the credential that failed. *)
Definition credential_values (w : World) (h : HMACSign) : result (string * string) (gmap string string) :=
  foldl (fun acc (kv : string * Src) =>
           let* m := acc in
           match src_get w kv.2 with Ok v => Ok (<[kv.1 := v]> m) | Err e => Err (kv.1, e) end)
        (Ok ∅) (map_range (credentials h)).

(** The header loop: the headers set so far and, at a template that fails,
    its name and error. *)
Fixpoint inject (data : headerData) (tmpls : list (string * Template)) (hdr : Header) : Header * option (string * string) :=
  match tmpls with
  | [] => (hdr, None)
  | (name, t) :: tmpls' =>
    match Execute_header t data with
    | Err e => (hdr, Some (name, e))
    | Ok v => inject data tmpls' (headers_Set hdr name v)
    end
  end.

Definition message_of (ts : string) (req : Request) (body : list Z) : messageData :=
  mkMessage ts (Method req) (Path (ReqURL req)) (pathWithQuery (Path (ReqURL req)) (RawQuery (ReqURL req)))
            (RawQuery (ReqURL req)) (StripPort (ReqHost req)) (string_of_bytes body).

Definition reject (status : Z) (reason : string) (tctx : TransformContext) (notes : list (string * string))
    : TransformResult * TransformContext :=
  (refuse "hmac_sign" status reason,
   foldl (fun t (n : string * string) => Annotate t n.1 (AStr n.2)) (Annotate tctx "rejected" (AStr reason)) notes).

Definition TransformRequest {C} (w : World) (now : Z) (h : HMACSign) (tctx : TransformContext) (s : ReqState C)
    : TransformResult * TransformContext * ReqState C :=
  if negb (MatchAnyRule (rules h) (rq s)) then (continue_result, tctx, s)
  else
    let '(body, tctx, req) := readBodyForSigning h tctx (rq s) in
    let s := with_req s req in
    match body with
    | Err res => (res, tctx, s)
    | Ok body =>
      match credential_values w h with
      | Err (name, e) => (reject 502 "credential_unavailable" tctx [("credential", name); ("error", e)], s)
      | Ok creds =>
        let ts := timestampFn (timestamp h) now in
        match Execute_message (msgTmpl h) (message_of ts req body) with
        | Err e => (reject 500 "message_template_failed" tctx [("error", e)], s)
        | Ok msg =>
          match decodeKey (keyEncoding h) (default "" (creds !! credentialSecretField)) with
          | Err e => (reject 500 "key_decode_failed" tctx [("error", e)], s)
          | Ok key =>
            let signature := encodeSignature (outputEncoding h) (HMAC (newHash h) key msg) in
            let '(hdr, failed) := inject (mkHeaderData ts signature creds) (headerTmpls h) (ReqHeader req) in
            let s := with_req s (set_ReqHeader req hdr) in
            match failed with
            | Some (name, e) => (reject 500 "header_template_failed" tctx [("header", name); ("error", e)], s)
            | None =>
              (continue_result,
               Annotate tctx "injected" (AList (map (fun t => AStr ("header:" +:+ t.1)) (headerTmpls h))),
               with_req s (set_ReqBody (rq s) (BufferedBody.NewBufferedBodyFromBytes body)))
            end
          end
        end
      end
    end.

(** What a signed request carries: the body that was signed, and headers made
    from a signature over it. *)
Definition signed_request (w : World) (now : Z) (h : HMACSign) (req req' : Request) (body : list Z) : Prop :=
  exists creds msg key hdr,
    credential_values w h = Ok creds /\
    Execute_message (msgTmpl h) (message_of (timestampFn (timestamp h) now) req body) = Ok msg /\
    decodeKey (keyEncoding h) (default "" (creds !! credentialSecretField)) = Ok key /\
    inject (mkHeaderData (timestampFn (timestamp h) now) (encodeSignature (outputEncoding h) (HMAC (newHash h) key msg)) creds)
           (headerTmpls h) (ReqHeader req) = (hdr, None) /\
    req' = set_ReqBody (set_ReqHeader req hdr) (BufferedBody.NewBufferedBodyFromBytes body).

(** The work done on a request that a rule matches. *)
Lemma TransformRequest_signs {C} w now (h : HMACSign) tctx (s : ReqState C) res tctx' s' :
  MatchAnyRule (rules h) (rq s) = true -> TransformRequest w now h tctx s = (res, tctx', s') ->
  res_Action res = ActionReject \/
  res = continue_result /\ rctx s' = rctx s /\ exists body, signed_request w now h (rq s) (rq s') body /\
    exists t1 req1, readBodyForSigning h tctx (rq s) = (Ok body, t1, req1).
Proof.
  intros Hm. unfold TransformRequest, reject. rewrite Hm. cbn [negb]. unfold readBodyForSigning.
  destruct (verified_body _ _ _ _) as [[[body|res1] t1] req1] eqn:Ev; [|intros [= <- _ _]; left; by eapply verified_body_refuses].
  pose proof (verified_body_req _ _ _ _ _ _ _ Ev) as Hr.
  destruct (credential_values w h) as [creds|[n e]] eqn:Ec; [|intros [= <- _ _]; by left].
  assert (message_of (timestampFn (timestamp h) now) req1 body = message_of (timestampFn (timestamp h) now) (rq s) body) as Hmsg by (by rewrite <- Hr).
  destruct (Execute_message _ _) as [msg|e] eqn:Em; [|intros [= <- _ _]; by left]. rewrite Hmsg in Em.
  destruct (decodeKey _ _) as [key|e] eqn:Ek; [|intros [= <- _ _]; by left].
  destruct (inject _ _ _) as [hdr [[n e]|]] eqn:Ei; [intros [= <- _ _]; by left|]. intros [= <- _ <-]. right. split; [done|]. split; [done|].
  assert (ReqHeader (rq s) = ReqHeader req1) as Hh by (by rewrite <- Hr).
  exists body. split; [|by eexists _, _]. exists creds, msg, key, hdr. rewrite Hh. repeat split; [done..|]. cbn [with_req rq]. by rewrite <- Hr.
Qed.

(** C32: [hmac_sign] signs what is sent.  A request that no rule matches is
    let through as it is; one that a rule matches is rejected, or signed and
    let through: then the headers carry the signature, under the decoded key,
    of the message made from the request and a body, that body is what is
    sent on, and nothing else of the request changed.  The body is the one an
    earlier transform put in place, or else the client's, whole when its
    length was declared: a buffer limit that cuts it makes the transform
    reject.  Without a declared length a request is signed only where that is
    allowed. *)
Theorem hmac_signs_what_is_sent {C} w now (h : HMACSign) tctx (s : ReqState C) res tctx' s' :
  TransformRequest w now h tctx s = (res, tctx', s') ->
  (MatchAnyRule (rules h) (rq s) = false /\ res = continue_result /\ tctx' = tctx /\ s' = s) \/
  (MatchAnyRule (rules h) (rq s) = true /\ res_Action res = ActionReject) \/
  (MatchAnyRule (rules h) (rq s) = true /\ res = continue_result /\ rctx s' = rctx s /\
   exists body, signed_request w now h (rq s) (rq s') body /\
     (forall d, replaced_body (ReqBody (rq s)) d -> body = d) /\
     (forall r max, client_body (ReqBody (rq s)) r max ->
        if 0 <=? ReqContentLength (rq s) then Z.of_nat (length (rd_data r)) <= ReqContentLength (rq s) -> body = rd_data r
        else allowChunkedBody h = true /\ body = rd_data (BufferedBody.limited max r))).
Proof.
  intros Ht. destruct (MatchAnyRule (rules h) (rq s)) eqn:Em; [right | left; unfold TransformRequest in Ht; rewrite Em in Ht; by injection Ht as <- <- <-].
  destruct (TransformRequest_signs _ _ _ _ _ _ _ _ Em Ht) as [?|(-> & Hc & body & Hs & t1 & req1 & Hb)]; [by left|]. right. split_and!; [done..|].
  destruct (verified_body_ok _ _ _ _ _ _ _ Hb) as (Hall & Hlen & Hchunk). exists body. split; [done|]. split; [intros d Hd; by apply (replaced_ReadAll _ _ _ Hd)|].
  intros r max Hcl. pose proof (client_ReadAll _ _ _ _ Hcl Hall) as ->. destruct (0 <=? ReqContentLength (rq s)) eqn:El; bool_prop.
  - intros Hr. by apply (limited_whole max r (ReqContentLength (rq s))), Hlen.
  - split; [by apply Hchunk | done].
Qed.

End hmac.
End HmacSign.

(** ** aws_auth *)

Module AwsAuth.

Definition unsignedPayload : string := "UNSIGNED-PAYLOAD".
Definition sigV4Algorithm : string := "AWS4-HMAC-SHA256".
Definition providerStatic : string := "static".
Definition providerWorkloadIdentity : string := "workload_identity".

Record Credentials := mkCredentials { AccessKeyID : string; SecretAccessKey : string; SessionToken : string; Source : string }.

(** The default credential chain, loaded at the first [Retrieve]. *)
Record lazyDefaultChainProvider (Inner : Type) := mkLazy { lz_region : string; lz_inner : option Inner }.
Arguments mkLazy {Inner}. Arguments lz_region {Inner}. Arguments lz_inner {Inner}.

(** Secret sources and the AWS SDK: its configuration loader, the provider
    that gives, the cache around ours, the signer; and the SHA-256 hash.
    [Cache_Retrieve] may call the provider it is given. *)
Class AwsLibrary := {
  World : Type;
  Src : Type;
  src_get : World -> Src -> result string string;
  Inner : Type;
  LoadDefaultConfig : World -> option string -> result string (option Inner);
  inner_Retrieve : World -> Inner -> result string Credentials;
  Cache : Type;
  NewCredentialsCache : Cache;
  Cache_Retrieve : forall P : Type, (P -> result string Credentials * P) -> World -> Cache -> P -> result string Credentials * Cache * P;
  SignHTTP : Credentials -> Request -> string -> string -> string -> Z -> result string Request;
  Sum256 : string -> string;
  Node : Type;
  decode_provider : Node -> option (string * string);      (* type and region *)
  build : Node -> option Src;
}.

Section aws.
Context `{AwsLibrary} `{UnicodeTables}.

(** *** credprovider.go *)

Definition lazy_Retrieve (w : World) (p : lazyDefaultChainProvider Inner) : result string Credentials * lazyDefaultChainProvider Inner :=
  match lz_inner p with
  | Some inner => (inner_Retrieve w inner, p)
  | None =>
    match LoadDefaultConfig w (if is_empty (lz_region p) then None else Some (lz_region p)) with
    | Err e => (Err ("loading AWS default credential chain: " +:+ e), p)
    | Ok None => (Err "AWS default credential chain returned no credentials provider", p)
    | Ok (Some inner) => (inner_Retrieve w inner, mkLazy (lz_region p) (Some inner))
    end
  end.

Inductive provider :=
  | StaticSource (accessKey secretKey : Src)
  | Cached (c : Cache) (p : lazyDefaultChainProvider Inner).

Definition buildWorkloadIdentity (n : Node) : option provider :=
  tr ← decode_provider n; Some (Cached NewCredentialsCache (mkLazy tr.2 None)).
Definition BuildCredentialsProvider (n : Node) : option provider :=
  tr ← decode_provider n;
  if is_empty tr.1 then None
  else if str_eqb tr.1 providerWorkloadIdentity then buildWorkloadIdentity n
  else None.

(** *** awsauth.go *)

Definition static_Retrieve (w : World) (accessKey secretKey : Src) : result string Credentials :=
  match src_get w accessKey with
  | Err e => Err ("access_key_id: " +:+ e)
  | Ok ak =>
    match src_get w secretKey with
    | Err e => Err ("secret_access_key: " +:+ e)
    | Ok sk => Ok (mkCredentials ak sk "" "iron-proxy aws_auth static")
    end
  end.
Definition Retrieve (w : World) (p : provider) : result string Credentials * provider :=
  match p with
  | StaticSource ak sk => (static_Retrieve w ak sk, p)
  | Cached c lz => let '(r, c', lz') := Cache_Retrieve _ (lazy_Retrieve w) w c lz in (r, Cached c' lz')
  end.
Definition credsKind (p : provider) : string :=
  match p with StaticSource _ _ => providerStatic | Cached _ _ => providerWorkloadIdentity end.

Record AWSAuth := mkAWSAuth {
  rules : list Rule;
  allowedRegions : option (gset string);
  allowedServices : option (gset string);
  creds : provider;
  unsigned : bool;
  allowChunkedBody : bool;
}.

Definition buildAllowSet (items : list string) : option (gset string) :=
  match List.filter (fun v => negb (is_empty v)) items with
  | [] => None
  | l => Some (list_to_set l)
  end.

Record config := mkConfig {
  c_AccessKeyID : option Node; c_SecretAccessKey : option Node; c_CredentialsProvider : option Node;
  c_AllowedRegions : list string; c_AllowedServices : list string; c_UnsignedPayload : bool; c_AllowChunkedBody : bool;
  c_Rules : list RuleConfig }.
Inductive config_error :=
  | BothSources | NoSource | BadProvider | NoAccessKey | NoSecretKey | BadAccessKey | BadSecretKey
  | BadRules (e : nat * rule_error) | NoRules.

Definition config_provider (c : config) : result config_error provider :=
  match c_CredentialsProvider c with
  | Some n => match BuildCredentialsProvider n with Some p => Ok p | None => Err BadProvider end
  | None =>
    match c_AccessKeyID c, c_SecretAccessKey c with
    | None, _ => Err NoAccessKey
    | _, None => Err NoSecretKey
    | Some a, Some s =>
      match build a, build s with
      | None, _ => Err BadAccessKey
      | _, None => Err BadSecretKey
      | Some ak, Some sk => Ok (StaticSource ak sk)
      end
    end
  end.

Definition newFromConfig (c : config) : result config_error AWSAuth :=
  let hasStatic := bool_decide (is_Some (c_AccessKeyID c)) || bool_decide (is_Some (c_SecretAccessKey c)) in
  let hasProvider := bool_decide (is_Some (c_CredentialsProvider c)) in
  if hasStatic && hasProvider then Err BothSources
  else if negb hasStatic && negb hasProvider then Err NoSource
  else
    let* p := config_provider c in
    match CompileRules (c_Rules c) with
    | Err e => Err (BadRules e)
    | Ok [] => Err NoRules
    | Ok rules => Ok (mkAWSAuth rules (buildAllowSet (c_AllowedRegions c)) (buildAllowSet (c_AllowedServices c)) p
                                (c_UnsignedPayload c) (c_AllowChunkedBody c))
    end.

Record credentialScope := mkScope { region : string; service : string }.

Definition parseCredentialPath (cred : string) : result string credentialScope :=
  match Split cred "/" with
  | [_; _; r; s; t] =>
    if negb (str_eqb t "aws4_request") then
      Err ("malformed credential scope " +:+ strconv_Quote cred +:+ ": expected aws4_request terminator")
    else if is_empty r || is_empty s then
      Err ("malformed credential scope " +:+ strconv_Quote cred +:+ ": empty region or service")
    else Ok (mkScope r s)
  | parts => Err ("malformed credential scope " +:+ strconv_Quote cred +:+ ": expected 5 path segments, got "
                  +:+ Itoa (Z.of_nat (length parts)))
  end.
Fixpoint credential_part (parts : list string) : result string credentialScope :=
  match parts with
  | [] => Err "missing Credential field in Authorization header"
  | part :: parts' =>
    match CutPrefix (TrimSpace part) "Credential=" with
    | Some cred => parseCredentialPath cred
    | None => credential_part parts'
    end
  end.
Definition parseAuthHeaderScope (auth : string) : result string credentialScope :=
  match CutPrefix auth (sigV4Algorithm +:+ " ") with
  | None => Err ("not a " +:+ sigV4Algorithm +:+ " Authorization header")
  | Some rest => credential_part (Split rest ",")
  end.
Definition query_Get (req : Request) (k : string) : string :=
  default "" (head (default [] ((ParseQuery (RawQuery (ReqURL req))).1 !! k))).
Definition errNoSigV4 : string :=
  "request has no SigV4 signature (no Authorization header or X-Amz-Credential query param)".
Definition parseInboundScope (req : Request) : result string credentialScope :=
  let auth := header_Get (ReqHeader req) "Authorization" in
  if negb (is_empty auth) then parseAuthHeaderScope auth
  else
    let cred := query_Get req "X-Amz-Credential" in
    if negb (is_empty cred) then parseCredentialPath cred else Err errNoSigV4.

Definition signature_headers : list string := ["Authorization"; "X-Amz-Date"; "X-Amz-Security-Token"; "X-Amz-Content-Sha256"].
Definition stripInboundSignatureHeaders (req : Request) : Request :=
  set_ReqHeader req (foldl header_Del (ReqHeader req) signature_headers).

Definition payloadHash (a : AWSAuth) (tctx : TransformContext) (req : Request)
    : result TransformResult string * TransformContext * Request :=
  if unsigned a then (Ok unsignedPayload, tctx, req)
  else
    let '(body, tctx, req) := verified_body "aws_auth" (allowChunkedBody a) tctx req in
    match body with
    | Err res => (Err res, tctx, req)
    | Ok b => (Ok (hex_EncodeToString (Sum256 (string_of_bytes b))), tctx,
               set_ReqBody req (BufferedBody.NewBufferedBodyFromBytes b))
    end.

Definition set_creds (a : AWSAuth) (p : provider) : AWSAuth :=
  mkAWSAuth (rules a) (allowedRegions a) (allowedServices a) p (unsigned a) (allowChunkedBody a).
Definition allows (allowed : option (gset string)) (v : string) : bool :=
  match allowed with None => true | Some l => bool_decide (v ∈ l) end.
Definition reject (status : Z) (reason : string) (tctx : TransformContext) (notes : list (string * string))
    : TransformResult * TransformContext :=
  (refuse "aws_auth" status reason,
   foldl (fun t (n : string * string) => Annotate t n.1 (AStr n.2)) (Annotate tctx "rejected" (AStr reason)) notes).

(** The request handed to the signer: the placeholder's headers removed and
    the hash of the payload set. *)
Definition prepared (req : Request) (hash : string) : Request :=
  let req := stripInboundSignatureHeaders req in
  set_ReqHeader req (header_Set (ReqHeader req) "X-Amz-Content-Sha256" hash).

Definition TransformRequest {C} (w : World) (now : Z) (a : AWSAuth) (tctx : TransformContext) (s : ReqState C)
    : TransformResult * TransformContext * ReqState C * AWSAuth :=
  if str_eqb (Method (rq s)) "CONNECT" then (continue_result, tctx, s, a)
  else if negb (MatchAnyRule (rules a) (rq s)) then (continue_result, tctx, s, a)
  else
    match parseInboundScope (rq s) with
    | Err e => (reject 400 "missing_sigv4" tctx [("error", e)], s, a)
    | Ok scope =>
      if negb (allows (allowedRegions a) (region scope)) then
        (reject 403 "region_not_allowed" tctx [("region", region scope)], s, a)
      else if negb (allows (allowedServices a) (service scope)) then
        (reject 403 "service_not_allowed" tctx [("service", service scope)], s, a)
      else
        let '(cr, p) := Retrieve w (creds a) in
        let a := set_creds a p in
        match cr with
        | Err e => (reject 502 "credential_unavailable" tctx [("credential", credsKind p); ("error", e)], s, a)
        | Ok cr =>
          let '(hash, tctx, req) := payloadHash a tctx (rq s) in
          match hash with
          | Err res => (res, tctx, with_req s req, a)
          | Ok hash =>
            let req := prepared req hash in
            match SignHTTP cr req hash (service scope) (region scope) now with
            | Err e => (reject 500 "signing_failed" tctx [("error", e)], with_req s req, a)
            | Ok signed =>
              let injected := ["header:Authorization"; "header:X-Amz-Date"; "header:X-Amz-Content-Sha256"]
                              ++ (if is_empty (SessionToken cr) then [] else ["header:X-Amz-Security-Token"]) in
              (continue_result,
               Annotate (Annotate (Annotate tctx "injected" (AList (map AStr injected))) "service" (AStr (service scope)))
                        "region" (AStr (region scope)), with_req s signed, a)
            end
          end
        end
    end.

(** *** What reaches the signer *)

Lemma stripped_headers (h : Header) hash :
  let h' := header_Set (foldl header_Del h signature_headers) "X-Amz-Content-Sha256" hash in
  h' !! "X-Amz-Content-Sha256" = Some [hash] /\ h' !! "Authorization" = None /\ h' !! "X-Amz-Date" = None /\
  h' !! "X-Amz-Security-Token" = None.
Proof.
  unfold header_Set, signature_headers, header_Del. cbn [foldl].
  change (CanonicalHeaderKey "Authorization") with "Authorization".
  change (CanonicalHeaderKey "X-Amz-Date") with "X-Amz-Date".
  change (CanonicalHeaderKey "X-Amz-Security-Token") with "X-Amz-Security-Token".
  change (CanonicalHeaderKey "X-Amz-Content-Sha256") with "X-Amz-Content-Sha256".
  split; [by rewrite lookup_insert_eq|].
  repeat split; rewrite lookup_insert_ne by done; repeat (rewrite lookup_delete_eq || rewrite lookup_delete_ne by done); done.
Qed.

(** The hash given to the signer: the sentinel, or that of the body that is
    sent on. *)
Definition hash_of_sent (a : AWSAuth) (hash : string) (req : Request) : Prop :=
  (unsigned a = true /\ hash = unsignedPayload) \/
  (exists b, ReqBody req = BufferedBody.NewBufferedBodyFromBytes b /\ hash = hex_EncodeToString (Sum256 (string_of_bytes b))).

Lemma payloadHash_Ok a tctx req hash tctx' req' :
  payloadHash a tctx req = (Ok hash, tctx', req') ->
  hash_of_sent a hash req' /\ ReqURL req' = ReqURL req /\ ReqHeader req' = ReqHeader req /\
  (forall r, unsigned a = false -> Z.of_nat (length (rd_data r)) = ReqContentLength req ->
     ReqBody req = BufferedBody.NewBufferedBody (Some r) (BufferedBody.maxBytes (ReqBody req)) ->
     ReqBody req' = BufferedBody.NewBufferedBodyFromBytes (rd_data r)).
Proof.
  unfold payloadHash, hash_of_sent. destruct (unsigned a) eqn:Eu.
  { intros [= <- <- <-]. by repeat split; [left|..]. }
  destruct (verified_body _ _ _ _) as [[[b|] t1] r1] eqn:Ev; [|done]. intros [= <- <- <-].
  pose proof (verified_body_req _ _ _ _ _ _ _ Ev) as Hr. split; [right; by exists b|].
  split; [by rewrite <- Hr|]. split; [by rewrite <- Hr|].
  intros r _ Hl Hb. by destruct (verified_body_complete _ _ _ _ _ _ _ _ Hb Hl Ev) as [-> _].
Qed.

(** [aws_auth] only signs inside its scope.  A matching request that
    leaves it was signed for the region and the service its own placeholder
    names, both of them allowed by the configuration, with credentials that
    were just retrieved; the request the signer was given had lost every
    header of the placeholder, and its payload hash is that of the body that
    is sent. *)
Theorem aws_signs_within_scope {C} w now (a : AWSAuth) tctx (s : ReqState C) tctx' s' a' :
  str_eqb (Method (rq s)) "CONNECT" = false -> MatchAnyRule (rules a) (rq s) = true ->
  TransformRequest w now a tctx s = (continue_result, tctx', s', a') ->
  exists scope cr hash req,
    parseInboundScope (rq s) = Ok scope /\
    allows (allowedRegions a) (region scope) = true /\ allows (allowedServices a) (service scope) = true /\
    (Retrieve w (creds a)).1 = Ok cr /\
    SignHTTP cr req hash (service scope) (region scope) now = Ok (rq s') /\
    hash_of_sent a hash req /\
    ReqHeader req !! "X-Amz-Content-Sha256" = Some [hash] /\ ReqHeader req !! "Authorization" = None /\
    ReqHeader req !! "X-Amz-Date" = None /\ ReqHeader req !! "X-Amz-Security-Token" = None.
Proof.
  intros Hm Hr. unfold TransformRequest, reject, refuse, continue_result. rewrite Hm, Hr. cbn [negb].
  destruct (parseInboundScope (rq s)) as [scope|] eqn:Es; [|done].
  destruct (allows (allowedRegions a) _) eqn:Er; [|done]. destruct (allows (allowedServices a) _) eqn:Ev; [|done]. cbn [negb].
  destruct (Retrieve w (creds a)) as [[cr|] p] eqn:Ec; [|done].
  destruct (payloadHash _ _ _) as [[[hash|res] t1] req1] eqn:Ep.
  2: { intros E. injection E as -> _ _ _. unfold payloadHash in Ep. destruct (unsigned _); [done|].
       destruct (verified_body _ _ _ _) as [[[b|r] t2] r2] eqn:Eb; [done|]. injection Ep as -> _ _.
       unfold verified_body in Eb. destruct (BufferedBody.ReadAll _) as [[]?]; repeat case_match; discriminate. }
  destruct (SignHTTP _ _ _ _ _ _) as [signed|] eqn:Eg; [|done]. intros [= _ <- _].
  destruct (payloadHash_Ok _ _ _ _ _ _ Ep) as (Hh & _ & _). exists scope, cr, hash, (prepared req1 hash).
  pose proof (stripped_headers (ReqHeader req1) hash) as Hs. repeat split; try done; apply Hs.
Qed.

(** A pre-signed URL keeps its placeholder signature: [aws_auth] reads the
    scope from the query of such a request, removes placeholder headers only,
    and hands the signer a request whose URL still has the placeholder's
    signature and credential. *)
Theorem presigned_signature_survives (req : Request) hash :
  header_Get (ReqHeader req) "Authorization" = "" -> query_Get req "X-Amz-Credential" <> "" ->
  parseInboundScope req = parseCredentialPath (query_Get req "X-Amz-Credential") /\
  forall k, query_Get (prepared req hash) k = query_Get req k.
Proof.
  intros Ha Hc. unfold parseInboundScope. rewrite Ha. cbn [is_empty negb]. split; [|done].
  by destruct (query_Get req "X-Amz-Credential").
Qed.

End aws.

(** *** Examples *)

Definition example_aws : AwsLibrary := {|
  World := bool;
  Src := string;
  src_get w s := if w then Ok s else Err "unavailable";
  Inner := unit;
  LoadDefaultConfig w r := Ok None;
  inner_Retrieve w i := Err "none";
  Cache := unit;
  NewCredentialsCache := tt;
  Cache_Retrieve P f w c p := let '(r, p') := f p in (r, c, p');
  SignHTTP cr req hash svc reg now :=
    Ok (set_ReqHeader req (header_Set (ReqHeader req) "Authorization" (AccessKeyID cr +:+ "/" +:+ reg +:+ "/" +:+ svc +:+ "/" +:+ hash)));
  Sum256 b := b;
  Node := string;
  decode_provider n := Some (n, "");
  build n := Some n;
|}.
Local Existing Instances ascii_tables example_aws.

Definition example_awsauth : AWSAuth :=
  match newFromConfig (mkConfig (Some "AKREAL") (Some "secret") None ["us-east-1"] [] false false [mkRuleConfig "s3.test" "" [] [] []]) with
  | Ok a => a
  | Err _ => mkAWSAuth [] None None (StaticSource "" "") false false
  end.
Definition aws_request (auth query : string) : ReqState unit :=
  mkReqState (mkRequest "PUT" "s3.test" (mkURL "https" None "s3.test" "/k" "" query)
    (if is_empty auth then ∅ else {["Authorization" := [auth]; "X-Amz-Date" := ["20260101T000000Z"]]})
    (BufferedBody.NewBufferedBody (Some (mkReader (bytes_of_string "ab") None)) 0) 2 true) tt.
Definition placeholder_auth : string :=
  "AWS4-HMAC-SHA256 Credential=AKFAKE/20260101/us-east-1/s3/aws4_request, SignedHeaders=host, Signature=0".

Lemma aws_signs_within_scope_witness :
  exists tctx' s' a', TransformRequest (true : World) 0 example_awsauth (mkContext "" ModeMITM None false None None)
      (aws_request placeholder_auth "") = (continue_result, tctx', s', a') /\
    header_Get (ReqHeader (rq s')) "Authorization" = "AKREAL/us-east-1/s3/6162" /\
    exists scope cr hash req, parseInboundScope (rq (aws_request placeholder_auth "")) = Ok scope /\
      SignHTTP cr req hash (service scope) (region scope) 0 = Ok (rq s') /\ ReqHeader req !! "X-Amz-Date" = None.
Proof.
  eexists _, _, _. split; [vm_compute; reflexivity|]. split; [vm_compute; reflexivity|].
  edestruct (aws_signs_within_scope (H := example_aws) true 0 example_awsauth (mkContext "" ModeMITM None false None None) (aws_request placeholder_auth ""))
    as (scope & cr & hash & req & H1 & H2 & H3 & H4 & H5 & H6 & H7 & H8 & H9 & H10);
    [vm_compute; reflexivity | vm_compute; reflexivity | vm_compute; reflexivity|].
  by exists scope, cr, hash, req.
Defined.

Lemma presigned_signature_survives_witness :
  let req := rq (aws_request "" "X-Amz-Credential=AKFAKE%2F20260101%2Fus-east-1%2Fs3%2Faws4_request&X-Amz-Signature=f00d") in
  is_Ok (parseInboundScope req) = true /\ query_Get (prepared req "hash") "X-Amz-Signature" = "f00d".
Proof.
  cbn zeta. destruct (presigned_signature_survives
    (rq (aws_request "" "X-Amz-Credential=AKFAKE%2F20260101%2Fus-east-1%2Fs3%2Faws4_request&X-Amz-Signature=f00d")) "hash") as [H1 H2];
    [vm_compute; reflexivity | vm_compute; congruence|].
  rewrite H1, H2. vm_compute. auto.
Defined.

Definition example_signing : HmacSign.SigningLibrary := {|
  HmacSign.World := bool;
  HmacSign.Src := string;
  HmacSign.src_get w s := if w then Ok s else Err "unavailable";
  HmacSign.Template := string;
  HmacSign.template_Parse t := Some t;
  HmacSign.Execute_message t m := Ok (HmacSign.m_Timestamp m +:+ HmacSign.m_Body m);
  HmacSign.Execute_header t h := Ok (HmacSign.h_Signature h);
  HmacSign.HMAC a k m := k +:+ m;
  HmacSign.FormatRFC3339 t := "";
|}.
Local Existing Instances example_signing default_range.

Definition example_hmac : HmacSign.HMACSign :=
  match HmacSign.newFromConfig Some (HmacSign.mkConfig string "" "" "" "hex" "msg" {["secret" := "k"]} [("X-Sign", "v")] false [mkRuleConfig "s3.test" "" [] [] []]) with
  | Ok h => h
  | Err _ => HmacSign.mkHMACSign [] ∅ "" [] HmacSign.UnixSeconds HmacSign.SHA256 HmacSign.RawKey HmacSign.HexOut false
  end.

Lemma hmac_signs_what_is_sent_witness :
  exists tctx' s', HmacSign.TransformRequest (true : HmacSign.World) 5000000000 example_hmac (mkContext "" ModeMITM None false None None)
      (aws_request "" "") = (continue_result, tctx', s') /\
    raw_values (ReqHeader (rq s')) "X-Sign" = ["6b356162"] /\
    HmacSign.signed_request (true : HmacSign.World) 5000000000 example_hmac (rq (aws_request "" "")) (rq s') (bytes_of_string "ab").
Proof.
  eexists _, _. split; [vm_compute; reflexivity|]. split; [vm_compute; reflexivity|].
  refine (match HmacSign.hmac_signs_what_is_sent (H := example_signing) true 5000000000 example_hmac (mkContext "" ModeMITM None false None None)
           (aws_request "" "") continue_result _ _ _ with or_introl Hn => _ | or_intror (or_introl Hn) => _ | or_intror (or_intror Hs) => _ end).
  - vm_compute. reflexivity.
  - destruct Hn as [Hn _]. vm_compute in Hn. discriminate Hn.
  - destruct Hn as [_ Hn]. discriminate Hn.
  - destruct Hs as (_ & _ & _ & body & Hsig & _ & Hwhole).
    assert (body = bytes_of_string "ab") as ->; [|exact Hsig].
    apply (Hwhole (mkReader (bytes_of_string "ab") None) 0); [exists []; vm_compute; reflexivity | vm_compute; discriminate].
Defined.

End AwsAuth.
