(* ===== verification/SshWebsocket.v ===== *)
(** * The wstunnel stream (src/internal/sshproxy/websocket.go)

    [websocketConn] carries SSH in unmasked binary WebSocket frames.  [Read]
    skips control frames, answers pings, and hands out the payload of the data
    frames in whatever pieces the caller asks for. *)
From stdpp Require Import base strings list option.
From Stdlib Require Import ZArith Lia Ascii.
From S2P Require Import Prelude GoUtf8.
Local Open Scope string_scope.
Local Open Scope list_scope.
Local Open Scope Z_scope.

Module WsConn.

Inductive OpCode := OpContinuation | OpText | OpBinary | OpClose | OpPing | OpPong | OpReserved (n : Z).
Record Header := mkHeader { Fin : bool; Rsv : Z; Op : OpCode; Masked : bool; Length : Z }.

Inductive ws_error := EOF | UnexpectedEOF | Failed (text : string).

(** The frame library: reading a header from the bytes that are to come. *)
Class WsLibrary := {
  ReadHeader : list Z -> result ws_error (Header * list Z);
}.

(** The connection: the bytes to come, the part of the current data frame
    still unread, whether a fragmented message is open, and the frames
    written. *)
Record websocketConn := mkConn {
  reader : list Z;
  remaining : Z;
  fragmented : bool;
  written : list (OpCode * list Z);
}.

Section ws.
Context `{WsLibrary}.

(** The write of a frame; [fails] is what the underlying connection says. *)
Definition send (fails : option string) (op : OpCode) (payload : list Z) (c : websocketConn) : option ws_error * websocketConn :=
  match fails with
  | Some e => (Some (Failed e), c)
  | None => (None, mkConn (reader c) (remaining c) (fragmented c) (written c ++ [(op, payload)]))
  end.

Definition Write (fails : option string) (data : list Z) (c : websocketConn) : result ws_error nat * websocketConn :=
  let '(e, c') := send fails OpBinary data c in
  (match e with Some e => Err e | None => Ok (length data) end, c').

(** [io.ReadFull] of [n] bytes. *)
Definition ReadFull (n : nat) (r : list Z) : result ws_error (list Z * list Z) :=
  if (n <=? length r)%nat then Ok (take n r, drop n r)
  else Err (if (length r =? 0)%nat then EOF else UnexpectedEOF).

(** One round of the loop of [Read] that looks for a data frame. *)
Definition next_frame (fails : option string) (c : websocketConn) : option ws_error * websocketConn :=
  match ReadHeader (reader c) with
  | Err e => (Some e, c)
  | Ok (h, rest) =>
    let at_ rem frag := mkConn rest rem frag (written c) in
    if Masked h || negb (Rsv h =? 0) || (Length h <? 0) || (2 ^ 20 <? Length h) then
      (Some (Failed "invalid wstunnel frame"), at_ (remaining c) (fragmented c))
    else
      match Op h with
      | OpBinary =>
        if fragmented c then (Some (Failed "invalid wstunnel fragmentation"), at_ (remaining c) true)
        else (None, at_ (Length h) (negb (Fin h)))
      | OpContinuation =>
        if negb (fragmented c) then (Some (Failed "unexpected wstunnel continuation"), at_ (remaining c) false)
        else (None, at_ (Length h) (negb (Fin h)))
      | OpPing | OpPong | OpClose =>
        if negb (Fin h) || (125 <? Length h) then
          (Some (Failed "invalid wstunnel control frame"), at_ (remaining c) (fragmented c))
        else
          match ReadFull (Z.to_nat (Length h)) rest with
          | Err e => (Some e, mkConn [] (remaining c) (fragmented c) (written c))
          | Ok (payload, rest) =>
            let c := mkConn rest (remaining c) (fragmented c) (written c) in
            match Op h with
            | OpClose => (Some EOF, c)
            | OpPing => send fails OpPong payload c
            | _ => (None, c)
            end
          end
      | OpText | OpReserved _ => (Some (Failed "unsupported wstunnel frame"), at_ (remaining c) (fragmented c))
      end
  end.

(** The loop, one unit of fuel per round; [None] is fuel that ran out. *)
Fixpoint find_data (fuel : nat) (fails : option string) (c : websocketConn) : option (option ws_error * websocketConn) :=
  if negb (remaining c =? 0) then Some (None, c)
  else match fuel with
       | O => None
       | S fuel' =>
         let '(e, c') := next_frame fails c in
         match e with Some e => Some (Some e, c') | None => find_data fuel' fails c' end
       end.

(** [Read] into a buffer of [n] bytes when the reader below has [avail]
    bytes ready (it delivers at least one, or the end). *)
Definition Read (fails : option string) (n avail : nat) (c : websocketConn) : option (result ws_error (list Z) * websocketConn) :=
  if (n =? 0)%nat then Some (Ok [], c)
  else
    match find_data (S (length (reader c))) fails c with
    | None => None
    | Some (Some e, c') => Some (Err e, c')
    | Some (None, c') =>
      let n := Nat.min n (Z.to_nat (remaining c')) in
      match reader c' with
      | [] => Some (Err EOF, c')
      | _ =>
        let b := take (Nat.min n (S avail)) (reader c') in
        Some (Ok b, mkConn (drop (length b) (reader c')) (remaining c' - Z.of_nat (length b)) (fragmented c') (written c'))
      end
    end.

End ws.

(** ** What a peer sends *)

(** Frames as a peer sends them. *)
Record frame := mkFrame { f_header : Header; f_payload : list Z }.

(** The bytes of an unmasked header (RFC 6455, 5.2): the bits and the opcode,
    then the length in seven bits, or 126 and two bytes, or 127 and eight. *)
Definition op_number (op : OpCode) : Z :=
  match op with
  | OpContinuation => 0 | OpText => 1 | OpBinary => 2 | OpClose => 8 | OpPing => 9 | OpPong => 10
  | OpReserved n => n
  end.
Fixpoint big_endian (k : nat) (n : Z) : list Z :=
  match k with O => [] | S k' => big_endian k' (n / 256) ++ [n mod 256] end.
Definition length_bytes (n : Z) : list Z :=
  if n <? 126 then [n] else if n <? 2 ^ 16 then 126 :: big_endian 2 n else 127 :: big_endian 8 n.
Definition header_bytes (h : Header) : list Z :=
  ((if Fin h then 128 else 0) + 16 * Rsv h + op_number (Op h)) :: length_bytes (Length h).
(** The headers that can be written so. *)
Definition representable (h : Header) : Prop :=
  0 <= Rsv h < 8 /\ Masked h = false /\ 0 <= Length h < 2 ^ 63 /\
  match Op h with OpReserved n => 3 <= n <= 7 \/ 11 <= n <= 15 | _ => True end.

(** The library reads them, and nothing more, and tells the end of the
    connection. *)
Class WsLaws `{WsLibrary} := {
  ReadHeader_bytes h rest : representable h -> ReadHeader (header_bytes h ++ rest) = Ok (h, rest);
  ReadHeader_end : ReadHeader [] = Err EOF;
}.
Lemma header_bytes_nonempty h : header_bytes h <> [].
Proof. done. Qed.

Definition control (op : OpCode) : bool := match op with OpPing | OpPong | OpClose => true | _ => false end.

(** A sequence of frames that the protocol allows, [frag] telling whether a
    message is open. *)
Definition sound_header (f : frame) : Prop :=
  Masked (f_header f) = false /\ Rsv (f_header f) = 0 /\ Length (f_header f) = Z.of_nat (length (f_payload f)) /\
  (length (f_payload f) <= Z.to_nat (2 ^ 20))%nat.
Fixpoint sound (frag : bool) (fs : list frame) : Prop :=
  match fs with
  | [] => True
  | f :: fs' =>
    sound_header f /\
    match Op (f_header f) with
    | OpBinary => frag = false /\ sound (negb (Fin (f_header f))) fs'
    | OpContinuation => frag = true /\ sound (negb (Fin (f_header f))) fs'
    | OpPing | OpPong | OpClose => Fin (f_header f) = true /\ (length (f_payload f) <= 125)%nat /\ sound frag fs'
    | OpText | OpReserved _ => False
    end
  end.

(** The data the frames carry, up to the first close. *)
Fixpoint content (fs : list frame) : list Z :=
  match fs with
  | [] => []
  | f :: fs' =>
    match Op (f_header f) with
    | OpClose => []
    | OpBinary | OpContinuation => f_payload f ++ content fs'
    | _ => content fs'
    end
  end.

Section stream.
Context `{WsLaws}.

Definition wire (fs : list frame) : list Z := concat (map (fun f => header_bytes (f_header f) ++ f_payload f) fs).

Lemma sound_representable frag f fs : sound frag (f :: fs) -> representable (f_header f).
Proof.
  intros ((Hm & Hr & Hl & Hmax) & Hop). unfold representable. rewrite Hm, Hr, Hl. assert (Z.of_nat (length (f_payload f)) < 2 ^ 63) by lia.
  split; [lia|]. split; [done|]. split; [lia|]. by destruct (Op (f_header f)).
Qed.

(** The connection stands inside a data frame of which [p] is unread, with
    the frames [fs] behind it. *)
Definition stands (c : websocketConn) (p : list Z) (fs : list frame) : Prop :=
  reader c = p ++ wire fs /\ remaining c = Z.of_nat (length p) /\ sound (fragmented c) fs.

Lemma ReadFull_app a r : ReadFull (length a) (a ++ r) = Ok (a, r).
Proof.
  unfold ReadFull. rewrite length_app, (proj2 (Nat.leb_le _ _)) by lia. by rewrite take_app_length, drop_app_length.
Qed.

(** One round at the start of a frame: the frame is consumed, or the stream
    has ended. *)
Lemma next_frame_spec c f fs : stands c [] (f :: fs) ->
  match next_frame None c with
  | (None, c') => exists p', stands c' p' fs /\ content (f :: fs) = p' ++ content fs /\ (length (reader c') < length (reader c))%nat
  | (Some e, c') => e = EOF /\ content (f :: fs) = []
  end.
Proof.
  intros (Hr & Hrem & Hsound). pose proof (sound_representable _ _ _ Hsound) as Hrep. destruct Hsound as ((Hm & Hv & Hl & Hmax) & Hop).
  cbn [app] in Hr. unfold next_frame.
  unfold wire in Hr. cbn [map concat] in Hr. rewrite <- app_assoc in Hr. rewrite Hr, (ReadHeader_bytes _ _ Hrep).
  fold (wire fs) in Hr |- *. rewrite Hm, Hv, Hl, Z.eqb_refl. cbn [negb orb].
  rewrite (proj2 (Z.ltb_ge _ 0)), (proj2 (Z.ltb_ge (2 ^ 20) _)) by lia. cbn [orb].
  assert (Hlen : (length (f_payload f ++ wire fs) < length (header_bytes (f_header f) ++ f_payload f ++ wire fs))%nat).
  { rewrite (length_app (header_bytes _)). pose proof (header_bytes_nonempty (f_header f)). destruct (header_bytes (f_header f)); [done|]. cbn. lia. }
  cbn [content]. cbn [length Z.of_nat] in Hrem.
  destruct (Op (f_header f)) eqn:Eo; try done.
  - destruct Hop as [Hf Hs]. rewrite Hf. cbn [negb]. exists (f_payload f). unfold stands. cbn [reader remaining fragmented]. done.
  - destruct Hop as [Hf Hs]. rewrite Hf. exists (f_payload f). unfold stands. cbn [reader remaining fragmented]. done.
  - destruct Hop as (Hf & Hle & Hs). rewrite Hf, (proj2 (Z.ltb_ge 125 _)) by lia. cbn [negb orb].
    by rewrite Nat2Z.id, ReadFull_app.
  - destruct Hop as (Hf & Hle & Hs). rewrite Hf, (proj2 (Z.ltb_ge 125 _)) by lia. cbn [negb orb].
    rewrite Nat2Z.id, ReadFull_app. cbn [send]. exists []. unfold stands. cbn [reader remaining fragmented app length Z.of_nat].
    rewrite length_app in Hlen. split; [done|]. split; [done|]. lia.
  - destruct Hop as (Hf & Hle & Hs). rewrite Hf, (proj2 (Z.ltb_ge 125 _)) by lia. cbn [negb orb].
    rewrite Nat2Z.id, ReadFull_app. exists []. unfold stands. cbn [reader remaining fragmented app length Z.of_nat].
    rewrite length_app in Hlen. split; [done|]. split; [done|]. lia.
Qed.

(** The loop ends, at a data frame with bytes or at the end of the stream. *)
Lemma find_data_spec fuel c p fs : stands c p fs -> (length (reader c) < fuel)%nat ->
  exists e c', find_data fuel None c = Some (e, c') /\
    match e with
    | None => exists p' fs', stands c' p' fs' /\ p' <> [] /\ p ++ content fs = p' ++ content fs'
    | Some e => e = EOF /\ p ++ content fs = []
    end.
Proof.
  revert c p fs. induction fuel as [|fuel IH]; intros c p fs Hst Hf; [lia|]. cbn [find_data].
  destruct Hst as (Hr & Hrem & Hs) eqn:Est. destruct (remaining c =? 0) eqn:Ez; cbn [negb].
  2: { exists None, c. split; [done|]. exists p, fs. split; [done|]. split; [|done]. intros ->. by rewrite Hrem in Ez. }
  apply Z.eqb_eq in Ez. assert (p = []) as -> by (destruct p; [done | cbn in Hrem; lia]). cbn [app].
  destruct fs as [|f fs].
  { unfold next_frame. cbn in Hr. rewrite Hr, ReadHeader_end. exists (Some EOF), c. done. }
  pose proof (next_frame_spec c f fs (conj Hr (conj Hrem Hs))) as Hn. destruct (next_frame None c) as [[e|] c'].
  { exists (Some e), c'. split; [done|]. exact Hn. }
  destruct Hn as (p' & Hst' & Hc & Hlt). destruct (IH c' p' fs Hst' ltac:(lia)) as (e & c2 & Hfd & Hres).
  exists e, c2. split; [done|]. by rewrite Hc.
Qed.

Lemma Read_spec n avail c p fs : stands c p fs -> n <> 0%nat ->
  exists out c', Read None n avail c = Some (out, c') /\
    match out with
    | Ok b => b <> [] /\ (length b <= n)%nat /\ exists p' fs', stands c' p' fs' /\ p ++ content fs = b ++ p' ++ content fs'
    | Err e => e = EOF /\ p ++ content fs = []
    end.
Proof.
  intros Hst Hn. unfold Read. rewrite (proj2 (Nat.eqb_neq n 0)) by done.
  destruct (find_data_spec (S (length (reader c))) c p fs Hst ltac:(lia)) as (e & c' & Hfd & Hres). rewrite Hfd.
  destruct e as [e|]; [exists (Err e), c'; done|].
  destruct Hres as (p' & fs' & (Hr' & Hrem' & Hs') & Hne & Hc). rewrite Hc, Hr', Hrem', Nat2Z.id.
  clear Hr'.
  destruct (p' ++ wire fs') as [|x l] eqn:Ep; [by destruct p'|]. rewrite <- Ep. clear Ep x l.
  set (k := Nat.min (Nat.min n (length p')) (S avail)). assert (Hk : (k <= length p')%nat) by lia.
  assert (0 < length p')%nat by (destruct p'; [done | cbn; lia]).
  eexists _, _. split; [reflexivity|]. rewrite take_app_le by done. rewrite length_take, Nat.min_l by done.
  split; [intros E; apply (f_equal length) in E; rewrite length_take in E; cbn in E; lia|]. split; [lia|].
  exists (drop k p'), fs'. split.
  - unfold stands. cbn [reader remaining fragmented]. rewrite drop_app_le by done. rewrite length_drop. repeat split; [lia | done].
  - by rewrite app_assoc, take_drop.
Qed.

(** A caller that reads with the sizes of a list, until an error. *)
Fixpoint read_stream (sizes : list (nat * nat)) (c : websocketConn) : list Z * option ws_error :=
  match sizes with
  | [] => ([], None)
  | (n, avail) :: sizes' =>
    match Read None n avail c with
    | Some (Ok b, c') => let '(out, e) := read_stream sizes' c' in (b ++ out, e)
    | Some (Err e, _) => ([], Some e)
    | None => ([], Some (Failed "out of fuel"))
    end
  end.

Lemma read_stream_spec sizes c p fs : stands c p fs -> Forall (fun s => s.1 <> 0%nat) sizes ->
  exists out e rest, read_stream sizes c = (out, e) /\ p ++ content fs = out ++ rest /\
    ((e = None /\ (length sizes <= length out)%nat) \/ (e = Some EOF /\ rest = [])).
Proof.
  intros Hst Hs. revert c p fs Hst. induction Hs as [|[n avail] sizes Hn Hs IH]; intros c p fs Hst.
  { exists [], None, (p ++ content fs). split; [done|]. split; [done|]. left. split; [done | cbn; lia]. }
  cbn [read_stream fst] in *. destruct (Read_spec n avail c p fs Hst Hn) as (o & c' & -> & Ho).
  destruct o as [b|e].
  - destruct Ho as (Hb & _ & p' & fs' & Hst' & Hc). destruct (IH c' p' fs' Hst') as (out & e & rest & -> & Hc' & He).
    exists (b ++ out), e, rest. split; [done|]. rewrite Hc, Hc', app_assoc. split; [done|].
    destruct He as [[-> Hlen]|He]; [left|by right]. split; [done|]. rewrite length_app. destruct b; [done|]. cbn. lia.
  - destruct Ho as [-> Hc]. exists [], (Some EOF), []. rewrite Hc. split; [done|]. split; [done|]. by right.
Qed.

(** C35: The frames disappear: whatever sound frames a peer sends, however
    fragmented and with whatever pings between them, and whatever buffer sizes
    the caller and the network choose, the bytes [Read] returns are a prefix
    of the concatenated data payloads, each read returns at least one byte,
    and a caller that keeps reading gets all of them and then the end of the
    stream. *)
Theorem websocket_read_refines fs sizes :
  sound false fs -> Forall (fun s => s.1 <> 0%nat) sizes ->
  exists out e rest, read_stream sizes (mkConn (wire fs) 0 false []) = (out, e) /\
    content fs = out ++ rest /\
    ((e = None /\ (length sizes <= length out)%nat) \/ (e = Some EOF /\ rest = [])) /\
    ((length (content fs) < length sizes)%nat -> e = Some EOF /\ out = content fs).
Proof.
  intros Hs Hn. destruct (read_stream_spec sizes (mkConn (wire fs) 0 false []) [] fs) as (out & e & rest & Hr & Hc & He); [|done|].
  { by split; [|split]. }
  exists out, e, rest. cbn [app] in Hc. split; [done|]. split; [done|]. split; [done|]. intros Hlen.
  destruct He as [[-> Hl]|[-> ->]]; [|by rewrite Hc, app_nil_r].
  rewrite Hc, length_app in Hlen. lia.
Qed.

End stream.

(** ** A reader of RFC 6455 headers

    [ReadHeader] as the protocol has it: two bytes, the extended length, which
    is less than 2^63, and the mask of a masked frame. *)
Definition number_op (n : Z) : OpCode :=
  if n =? 0 then OpContinuation else if n =? 1 then OpText else if n =? 2 then OpBinary else if n =? 8 then OpClose
  else if n =? 9 then OpPing else if n =? 10 then OpPong else OpReserved n.
Definition read_big_endian (b : list Z) : Z := foldl (fun n x => n * 256 + x) 0 b.
Definition rfc_ReadHeader (r : list Z) : result ws_error (Header * list Z) :=
  match r with
  | [] => Err EOF
  | [_] => Err UnexpectedEOF
  | b0 :: b1 :: rest =>
    let len := b1 mod 128 in
    let more := if len =? 126 then 2%nat else if len =? 127 then 8%nat else 0%nat in
    let masked := 128 <=? b1 in
    let skip := (more + (if masked then 4 else 0))%nat in
    if (length rest <? skip)%nat then Err (if (length rest =? 0)%nat then EOF else UnexpectedEOF)
    else
      let n := if len <? 126 then len else read_big_endian (take more rest) in
      if 2 ^ 63 <=? n then Err (Failed "header error: the most significant bit must be 0")
      else Ok (mkHeader (128 <=? b0) (b0 / 16 mod 8) (number_op (b0 mod 16)) masked n, drop skip rest)
  end.
Definition rfc_ws : WsLibrary := {| ReadHeader := rfc_ReadHeader |}.

Lemma length_big_endian k n : length (big_endian k n) = k.
Proof. revert n. induction k as [|k IH]; intros n; cbn; [done|]. rewrite length_app, IH. cbn. lia. Qed.
Lemma read_big_endian_bytes k n : 0 <= n < 256 ^ Z.of_nat k -> read_big_endian (big_endian k n) = n.
Proof.
  revert n. induction k as [|k IH]; intros n Hn; [cbn in *; lia|]. cbn [big_endian]. unfold read_big_endian. rewrite foldl_snoc. fold (read_big_endian (big_endian k (n / 256))).
  rewrite Nat2Z.inj_succ, Z.pow_succ_r in Hn by lia. rewrite IH.
  - pose proof (Z.div_mod n 256). lia.
  - split; [apply Z.div_pos; lia | apply Z.div_lt_upper_bound; lia].
Qed.
Lemma first_byte (fin : bool) rsv op : 0 <= rsv < 8 -> 0 <= op < 16 -> let b := (if fin then 128 else 0) + 16 * rsv + op in
  (128 <=? b) = fin /\ b / 16 mod 8 = rsv /\ b mod 16 = op.
Proof. cbn zeta. intros Hr Ho. destruct fin; split_and!; Z.to_euclidean_division_equations; lia. Qed.
Lemma number_op_number op : match op with OpReserved n => 3 <= n <= 7 \/ 11 <= n <= 15 | _ => True end ->
  0 <= op_number op < 16 /\ number_op (op_number op) = op.
Proof.
  destruct op as [| | | | | |n]; cbn; try (intros _; split; [lia | done]). intros Hn. split; [lia|]. unfold number_op.
  by repeat (rewrite (proj2 (Z.eqb_neq n _)) by lia).
Qed.
(** The length of a representable header comes back. *)
Lemma read_length n rest : 0 <= n < 2 ^ 63 -> exists b1 l, length_bytes n = b1 :: l /\ 0 <= b1 < 128 /\
  let more := if b1 =? 126 then 2%nat else if b1 =? 127 then 8%nat else 0%nat in
  length l = more /\ (if b1 <? 126 then b1 else read_big_endian (take more (l ++ rest))) = n.
Proof.
  intros Hn. unfold length_bytes. destruct (n <? 126) eqn:E1; bool_prop.
  - exists n, []. split; [done|]. split; [lia|]. rewrite (proj2 (Z.eqb_neq n 126)), (proj2 (Z.eqb_neq n 127)), (proj2 (Z.ltb_lt n 126)) by lia. done.
  - destruct (n <? 2 ^ 16) eqn:E2; bool_prop; [exists 126, (big_endian 2 n) | exists 127, (big_endian 8 n)]; (split; [done|]; split; [lia|]; split; [apply length_big_endian|]).
    + change (read_big_endian (take 2 (big_endian 2 n ++ rest)) = n). rewrite take_app_le, take_ge by (by rewrite length_big_endian). apply read_big_endian_bytes. cbn. lia.
    + change (read_big_endian (take 8 (big_endian 8 n ++ rest)) = n). rewrite take_app_le, take_ge by (by rewrite length_big_endian). apply read_big_endian_bytes.
      change (256 ^ Z.of_nat 8) with (2 ^ 64). lia.
Qed.
Definition rfc_ws_laws : WsLaws (H := rfc_ws).
Proof.
  split; [|done]. intros [fin rsv op masked len] rest (Hr & Hm & Hl & Ho). cbn in Hr, Hm, Hl, Ho. subst masked.
  destruct (read_length len rest Hl) as (b1 & l & Hlb & Hb1 & Hll & Hrd). destruct (number_op_number op Ho) as [Hop Hno].
  destruct (first_byte fin rsv (op_number op) Hr Hop) as (Hf & Hv & Hn). unfold header_bytes. cbn [Fin Rsv Op Length ReadHeader rfc_ws]. rewrite Hlb. cbn [app rfc_ReadHeader].
  rewrite (Z.mod_small b1 128), (proj2 (Z.leb_gt 128 b1)), Nat.add_0_r by lia. cbn zeta in Hll, Hrd.
  rewrite <- Hll in Hrd. rewrite <- Hll, length_app, (proj2 (Nat.ltb_ge _ _)) by lia. rewrite Hrd, (proj2 (Z.leb_gt (2 ^ 63) len)) by lia.
  by rewrite Hf, Hv, Hn, Hno, drop_app_length.
Qed.
Local Existing Instances rfc_ws rfc_ws_laws.

(** ** Example *)

Definition data_frame (fin : bool) (op : OpCode) (payload : list Z) : frame :=
  mkFrame (mkHeader fin 0 op false (Z.of_nat (length payload))) payload.
Definition example_frames : list frame :=
  [data_frame false OpBinary [83; 83]; data_frame true OpPing [1]; data_frame true OpContinuation [72]; data_frame true OpClose []].

Lemma websocket_read_refines_witness :
  content example_frames = [83; 83; 72] /\
  exists out e rest, read_stream [(1, 0); (9, 5); (1, 1); (4, 4)]%nat (mkConn (wire example_frames) 0 false []) = (out, e) /\
    out = content example_frames /\ e = Some EOF /\ content example_frames = out ++ rest.
Proof.
  split; [reflexivity|].
  destruct (websocket_read_refines example_frames [(1, 0); (9, 5); (1, 1); (4, 4)]%nat) as (out & e & rest & H1 & H2 & _ & H4).
  - cbn. unfold sound_header. cbn. repeat split; lia.
  - repeat constructor; cbn; lia.
  - exists out, e, rest. destruct (H4 ltac:(cbn; lia)). done.
Defined.

End WsConn.
