(* ===== verification/SshProxy.v ===== *)
(** * The SSH proxy (src/internal/sshproxy: policy.go, config.go, server.go,
      transport.go)

    The listener accepts its paired sandbox's key only, asks an authorizer
    what the key may reach, logs in there with a credential the sandbox never
    sees, and relays session channels under a default-deny policy for as long
    as the authorizer keeps approving. *)
From stdpp Require Import base gmap strings list option.
From Stdlib Require Import ZArith Lia Ascii.
From S2P Require Import Prelude GoUtf8 GoStrings GoNet Body GoHttp GoJson HostMatch Transform DnsGuard GoJsonParse GoEncoding GoRawEncoding GoTime AuditLog GoUrl.
Local Open Scope string_scope.
Local Open Scope list_scope.
Local Open Scope Z_scope.

Module Ssh.

(** ** Libraries

    x/crypto/ssh, YAML nodes and secret sources, the network and the
    WebSocket dialer.  [Unmarshal_string] is [ssh.Unmarshal] into a struct of
    one string: the field afterwards, and whether there was no error.
    [dial_ws] gives the negotiated protocol with the connection. *)
Class SshLibrary := {
  Unmarshal_string : list Z -> string * bool;
  PublicKey : Type;
  key_Marshal : PublicKey -> list Z;
  key_Type : PublicKey -> string;
  MarshalAuthorizedKey : PublicKey -> string;
  ParseAuthorizedKey : string -> option PublicKey;
  Signer : Type;
  ParsePrivateKey : string -> option Signer;
  Node : Type;
  node_Decode : Node -> option any;
  Src : Type;
  BuildSource : Node -> option Src;
  World : Type;
  src_get : World -> Src -> option string;
  NetConn : Type;
  dial_tcp : World -> (string -> option DenyError) -> string -> result string NetConn;
  dial_ws : World -> (string -> option DenyError) -> string -> list string -> result string (string * NetConn);
  HMAC_SHA256 : list Z -> string -> string;
  rand_nonce : World -> option (list Z);
  SshConn : Type;
}.

(** ** policy.go *)

Inductive requestDecision := forwardRequest | dropRequest | refuseRequest.

Definition sessionRequestPolicy `{SshLibrary} (typ : string) (payload : list Z) : requestDecision * string :=
  if str_eqb typ "exec" then
    let '(command, ok) := Unmarshal_string payload in
    if negb ok then (refuseRequest, "") else (forwardRequest, command)
  else if str_eqb typ "subsystem" || str_eqb typ "signal" then
    let '(name, ok) := Unmarshal_string payload in
    if negb ok || (str_eqb typ "subsystem" && negb (str_eqb name "sftp")) then (refuseRequest, name)
    else (forwardRequest, name)
  else if str_eqb typ "env" || str_eqb typ "eow@openssh.com" then (dropRequest, "")
  else (refuseRequest, "").

(** ** Grants *)

(** Times are nanoseconds. *)
Record Grant (Node : Type) := mkGrant {
  g_ID : string; g_Principal : string; g_Destination : string; g_Generation : string; g_Username : string;
  g_HostKey : string; g_TLSIdentity : bool; g_PrivateKey : Node; g_ExpiresAt : Z }.
Arguments mkGrant {Node}. Arguments g_ID {Node}. Arguments g_Principal {Node}. Arguments g_Destination {Node}.
Arguments g_Generation {Node}. Arguments g_Username {Node}. Arguments g_HostKey {Node}. Arguments g_TLSIdentity {Node}.
Arguments g_PrivateKey {Node}. Arguments g_ExpiresAt {Node}.

Record Authorization := mkAuthorization { a_Route : string; a_PublicKey : string; a_Destination : string }.

(** [errAccessDenied], bare or wrapped with a text, [errCapabilityDenied], and
    the operational errors. *)
Inductive ssh_error := AccessDenied (why : option string) | CapabilityDenied | Operational (text : string).
Definition error_text (e : ssh_error) : string :=
  match e with
  | AccessDenied None => "SSH access denied"
  | AccessDenied (Some why) => "SSH access denied: " +:+ why
  | CapabilityDenied => "SSH capability denied"
  | Operational t => t
  end.

Definition maxGrant : Z := 15 * Minute.

Section grants.
Context `{UnicodeTables} {Node : Type}.

(** [validateGrant]; the clock is read twice. *)
Definition validateGrant (now1 now2 : Z) (g : option (Grant Node)) : option ssh_error :=
  match g with
  | None => Some (Operational "invalid SSH grant")
  | Some g =>
    if existsb is_empty [g_ID g; g_Principal g; g_Generation g; g_Username g; g_Destination g]
       || negb (now1 <? g_ExpiresAt g) || (maxGrant <? g_ExpiresAt g - now2)
    then Some (Operational "invalid SSH grant")
    else if g_TLSIdentity g then
      match url_Parse (g_Destination g) with
      | Some u => if negb (str_eqb (Scheme (p_url u)) "wss") || negb (is_empty (g_HostKey g))
                  then Some (Operational "invalid TLS identity grant") else None
      | None => Some (Operational "invalid TLS identity grant")
      end
    else if is_empty (g_HostKey g) then Some (Operational "SSH host key required")
    else None
  end.

(** [reflect.DeepEqual] on decoded YAML. *)
Fixpoint DeepEqual (a b : any) : bool :=
  match a, b with
  | ANil, ANil => true
  | ABool x, ABool y => Bool.eqb x y
  | AInt x, AInt y => x =? y
  | AFloat x, AFloat y => float64_eqb x y
  | AStr x, AStr y => str_eqb x y
  | AList l, AList l' =>
    (fix go l l' := match l, l' with
                    | [], [] => true
                    | x :: l, y :: l' => DeepEqual x y && go l l'
                    | _, _ => false
                    end) l l'
  | AMap m, AMap m' =>
    (length m =? length m')%nat &&
    (fix go m := match m with
                 | [] => true
                 | (k, x) :: m => match map_get m' k with Some y => DeepEqual x y && go m | None => false end
                 end) m
  | _, _ => false
  end.

(** [sameGrant]: every field but the expiry, the key's source decoded. *)
Definition sameGrant (decode : Node -> option any) (a b : Grant Node) : bool :=
  str_eqb (g_ID a) (g_ID b) && str_eqb (g_Principal a) (g_Principal b) && str_eqb (g_Destination a) (g_Destination b)
  && str_eqb (g_Generation a) (g_Generation b) && str_eqb (g_Username a) (g_Username b) && str_eqb (g_HostKey a) (g_HostKey b)
  && Bool.eqb (g_TLSIdentity a) (g_TLSIdentity b)
  && match decode (g_PrivateKey a), decode (g_PrivateKey b) with
     | Some x, Some y => DeepEqual x y
     | _, _ => false
     end.
End grants.

(** [parseRoute]: the route and the destination a user name asks for. *)
Definition parseRoute (value : string) : result string (string * string) :=
  if HasPrefix value "ee:" then
    if (4096 <? Z.of_nat (String.length value)) then Err "invalid SSH target"
    else match RawURL_DecodeString (sdrop 3 value) with
         | Some data => if is_empty data || (2048 <? Z.of_nat (String.length data)) then Err "invalid SSH target" else Ok ("ee", data)
         | None => Err "invalid SSH target"
         end
  else if is_empty value || (128 <? Z.of_nat (String.length value)) then Err "invalid SSH route"
  else Ok (value, "").

(** ** HTTPAuthorizer *)

(** What the endpoint answered: nothing, or a status and a body that may not
    be readable; the body is cut at one megabyte and decoded as YAML. *)
Record authorizeReply := mkReply { rp_status : Z; rp_body : result string string }.
Definition authorize_body (a : Authorization) : string :=
  json_object ([("route", json_string (a_Route a)); ("public_key", json_string (a_PublicKey a))]
               ++ (if is_empty (a_Destination a) then [] else [("destination", json_string (a_Destination a))])).
Definition HTTPAuthorizer {Node} (decode : string -> option (Grant Node)) (reply : result string authorizeReply)
    : result ssh_error (option (Grant Node)) :=
  match reply with
  | Err _ => Err (Operational "authorization unavailable")
  | Ok r =>
    if rp_status r =? 200 then
      match rp_body r with
      | Err _ => Err (Operational "authorization response unavailable")
      | Ok data =>
        match decode (stake (Z.to_nat (2 ^ 20)) data) with
        | Some g => Ok (Some g)
        | None => Err (Operational "invalid authorization response")
        end
      end
    else if (rp_status r =? 401) || (rp_status r =? 403) then Err (AccessDenied None)
    else Err (Operational ("authorization unavailable: status " +:+ Itoa (rp_status r)))
  end.

Section server.
Context `{UnicodeTables} `{SshLibrary}.
Abbreviation grant := (Grant Node).

(** [signer]. *)
Definition signer (w : World) (n : Node) : result ssh_error Signer :=
  match BuildSource n with
  | None => Err (Operational "SSH credential source invalid")
  | Some src =>
    match src_get w src with
    | None => Err (Operational "SSH credential unavailable")
    | Some v => match ParsePrivateKey v with Some k => Ok k | None => Err (Operational "SSH credential invalid") end
    end
  end.

(** ** transport.go *)

Definition tunnelToken (w : World) : option string :=
  nonce ← rand_nonce w;
  let payload := Marshal_any (AMap [("id", AStr (string_of_bytes (hex_encode nonce)));
    ("p", AMap [("Tcp", AMap [("proxy_protocol", ABool false)])]); ("r", AStr "127.0.0.1"); ("rp", AInt 22)]) in
  let text := RawURL_EncodeToString (json_object [("alg", json_string "HS256"); ("typ", json_string "JWT")]) +:+ "."
              +:+ RawURL_EncodeToString payload in
  Some (text +:+ "." +:+ RawURL_EncodeToString (HMAC_SHA256 nonce text)).

(** [transport]: the WebSocket's early bytes stay in front of its stream, so
    a connection is all there is to give. *)
Definition transport (w : World) (target : string) (guard : Guard) : result string NetConn :=
  match url_Parse target with
  | None => Err "invalid SSH destination"
  | Some u =>
    if bool_decide (is_Some (UserInfo (p_url u))) || is_empty (URLHost (p_url u)) || negb (is_empty (RawQuery (p_url u)))
       || negb (is_empty (p_fragment u)) then Err "invalid SSH destination"
    else
      let control := DialControl (Some guard) in
      if str_eqb (Scheme (p_url u)) "tcp" then
        if negb (is_empty (Path (p_url u))) then Err "invalid TCP destination" else dial_tcp w control (URLHost (p_url u))
      else if str_eqb (Scheme (p_url u)) "wss" then
        match tunnelToken w with
        | None => Err "tunnel nonce unavailable"
        | Some token =>
          match dial_ws w control target ["v1"; "authorization.bearer." +:+ token] with
          | Err e => Err ("SSH WebSocket connection failed: " +:+ e)
          | Ok (protocol, conn) => if str_eqb protocol "v1" then Ok conn else Err "unsupported SSH WebSocket protocol"
          end
        end
      else Err "SSH transport must be tcp or wss"
  end.

(** ** connect *)

(** [ssh.ClientConfig]; the callback accepts a host key or does not. *)
Record clientConfig := mkClientConfig {
  cc_User : string; cc_Auth : Signer; cc_HostKeyAlgorithms : list string; cc_HostKeyCallback : PublicKey -> bool }.

Record session := mkSession { s_auth : Authorization; s_grant : option grant; s_conn : option SshConn }.
Definition no_session : session := mkSession (mkAuthorization "" "" "") None None.

(** What happens outside during one call: the authorizer's answer, the two
    clock readings of the validation, setting deadlines, the login, whether
    the context ended meanwhile, and the time. *)
Record attempt := mkAttempt {
  at_world : World;
  at_Authorize : Authorization -> result ssh_error (option grant);
  at_now1 : Z; at_now2 : Z;
  at_deadline : option string;
  at_login : clientConfig -> NetConn -> result string SshConn;
  at_ctxErr : option string;
  at_clear : option string;
  at_took : Z;                              (* how long it all took *)
}.

(** What [connect] does outside, in order. *)
Inductive effect := Asked (a : Authorization) | Dialled (target : string) | LoggedIn (user : string).

Definition host_algorithms (expected : PublicKey) : list string :=
  if str_eqb (key_Type expected) "ssh-rsa" then ["rsa-sha2-512"; "rsa-sha2-256"] else [key_Type expected].

(** The host key a grant pins: none with [TLSIdentity]. *)
Definition pinned (g : grant) : result ssh_error (option PublicKey) :=
  if g_TLSIdentity g then Ok None
  else match ParseAuthorizedKey (g_HostKey g) with
       | Some k => Ok (Some k)
       | None => Err (Operational "invalid upstream host identity")
       end.
Definition login_config (g : grant) (credential : Signer) (expected : option PublicKey) : clientConfig :=
  mkClientConfig (g_Username g) credential (from_option host_algorithms [] expected)
    (fun actual => match expected with Some k => bool_decide (key_Marshal k = key_Marshal actual) | None => true end).

(** From the credential on. *)
Definition connect_upstream (guard : Guard) (at_ : attempt) (auth : Authorization) (g : grant)
    : result ssh_error SshConn * list effect :=
  match signer (at_world at_) (g_PrivateKey g) with
  | Err e => (Err e, [])
  | Ok credential =>
    match pinned g with
    | Err e => (Err e, [])
    | Ok expected =>
      match transport (at_world at_) (g_Destination g) guard with
      | Err e => (Err (Operational ("SSH upstream unavailable: " +:+ e)), [Dialled (g_Destination g)])
      | Ok netConn =>
        match at_deadline at_ with
        | Some e => (Err (Operational e), [Dialled (g_Destination g)])
        | None =>
          let log := [Dialled (g_Destination g); LoggedIn (g_Username g)] in
          match at_login at_ (login_config g credential expected) netConn, at_ctxErr at_ with
          | Ok conn, None => match at_clear at_ with Some e => (Err (Operational e), log) | None => (Ok conn, log) end
          | Err e, None => (Err (Operational ("SSH upstream login failed: " +:+ e)), log)
          | Ok _, Some c => (Err (Operational ("SSH upstream login failed: " +:+ c)), log)
          | Err e, Some c => (Err (Operational ("SSH upstream login failed: " +:+ e +:+ string_of_bytes [10] +:+ c)), log)
          end
        end
      end
    end
  end.

Definition connect (guard : Guard) (at_ : attempt) (user : string) (key : PublicKey)
    : session * option ssh_error * list effect :=
  match parseRoute user with
  | Err e => (no_session, Some (AccessDenied (Some e)), [])
  | Ok (route, destination) =>
    let auth := mkAuthorization route (TrimSpace (MarshalAuthorizedKey key)) destination in
    match at_Authorize at_ auth with
    | Err e => (mkSession auth None None, Some e, [Asked auth])
    | Ok g =>
      match validateGrant (at_now1 at_) (at_now2 at_) g, g with
      | None, Some g =>
        let '(r, log) := connect_upstream guard at_ auth g in
        match r with
        | Err e => (mkSession auth (Some g) None, Some e, Asked auth :: log)
        | Ok conn => (mkSession auth (Some g) (Some conn), None, Asked auth :: log)
        end
      | Some e, _ => (mkSession auth None None, Some e, [Asked auth])
      | None, None => (mkSession auth None None, Some (Operational "invalid SSH grant"), [Asked auth])
      end
    end
  end.

(** ** audit *)

Definition audit (took : Z) (remote : string) (sess : option session) (method path name : string) (err : option ssh_error)
    : PipelineResult :=
  let notes := match sess with
    | None => []
    | Some s =>
      (if is_empty (a_Route (s_auth s)) then [] else [("route", AStr (a_Route (s_auth s)))])
      ++ match s_grant s with
         | None => []
         | Some g => [("principal", AStr (g_Principal g)); ("grant_id", AStr (g_ID g))]
         end
    end in
  let host := default "" (s ← sess; g ← s_grant s; u ← url_Parse (g_Destination g); Some (URLHost (p_url u))) in
  let '(action, reason, failure) := match err with
    | Some (AccessDenied w) => (ActionReject, [("reason", AStr (error_text (AccessDenied w)))], None)
    | Some CapabilityDenied => (ActionReject, [("reason", AStr (error_text CapabilityDenied))], None)
    | Some (Operational t) => (ActionContinue, [], Some t)
    | None => (ActionContinue, [], None)
    end in
  mkPipelineResult host method path remote "" ModeSSH took action 0 None
    [mkTrace name action took failure (Some (list_to_map (notes ++ reason)))] [] None None failure false.

(** ** handle *)

Record Server := mkServer { ClientPublicKey : PublicKey; srv_Guard : Guard }.

(** [LoadFromNode]: no server when the block is absent or null, else the
    server with the signer of its host key, its listener's address, and the
    authorizer's URL and token. *)
Record sshConfig := mkSshConfig {
  sc_Listen : string; sc_HostKey : Node; sc_ClientPublicKey : string; sc_AuthorizeURL : string; sc_TokenEnv : string }.
Record loadedServer := mkLoadedServer {
  ls_server : Server; ls_HostKey : Signer; ls_listen : string; ls_authorizeURL : string; ls_token : string }.
Definition LoadFromNode (w : World) (decode : Node -> option sshConfig) (Getenv : string -> string) (listens : string -> bool)
    (guard : Guard) (node : option Node) : result ssh_error (option loadedServer) :=
  match node with
  | None => Ok None
  | Some n =>
    match decode n with
    | None => Err (Operational "SSH listen address and authorization URL required")
    | Some cfg =>
      if is_empty (sc_Listen cfg) || is_empty (sc_AuthorizeURL cfg)
      then Err (Operational "SSH listen address and authorization URL required")
      else
        let* host := signer w (sc_HostKey cfg) in
        match ParseAuthorizedKey (sc_ClientPublicKey cfg) with
        | None => Err (Operational "sandbox SSH public key invalid")
        | Some key =>
          let token := Getenv (sc_TokenEnv cfg) in
          if is_empty token then Err (Operational "SSH proxy token unavailable")
          else if negb (listens (sc_Listen cfg)) then Err (Operational "SSH listener unavailable")
          else Ok (Some (mkLoadedServer (mkServer key guard) host (sc_Listen cfg) (sc_AuthorizeURL cfg) token))
        end
    end
  end.

(** The callbacks the SSH library makes during a handshake. *)
Inductive callback := KeyOffered (key : PublicKey) | KeyVerified (user : string) (key : PublicKey) (at_ : attempt).

Definition PublicKeyCallback (s : Server) (key : PublicKey) : option ssh_error :=
  if bool_decide (key_Marshal key = key_Marshal (ClientPublicKey s)) then None else Some (AccessDenied None).

Record handshake := mkHandshake { attempted : bool; sess : option session; events : list PipelineResult; effects : list effect }.

Definition handshake_step (s : Server) (remote : string) (h : handshake) (c : callback) : handshake :=
  match c with
  | KeyOffered _ => h
  | KeyVerified user key at_ =>
    let '(next, err, log) := connect (srv_Guard s) at_ user key in
    mkHandshake true (match err with None => Some next | Some _ => sess h end)
      (events h ++ [audit (at_took at_) remote (Some next) "auth" (a_Route (s_auth next)) "ssh_authorization" err]) (effects h ++ log)
  end.
(** The callbacks of a connection, and how [ssh.NewServerConn] ended. *)
Definition run_handshake (s : Server) (remote : string) (cbs : list callback) (failed : option string) (took : Z) : handshake :=
  let h := foldl (handshake_step s remote) (mkHandshake false None [] []) cbs in
  match failed with
  | Some e =>
    if attempted h then h
    else mkHandshake false (sess h)
           (events h ++ [audit took remote None "auth" "" "ssh_authorization" (Some (AccessDenied (Some e)))]) (effects h)
  | None => h
  end.

(** ** Channels and requests *)

Record request := mkRequest { rq_Type : string; rq_Payload : list Z }.

(** What a request of the client leads to: forwarded or not, the reply, the
    audit entry. *)
Record relayed := mkRelayed { rl_forwarded : option request; rl_reply : bool; rl_audit : option PipelineResult }.

(** One round of the loop over the client's requests; [up] is what sending
    upstream gives: the reply, and the error. *)
Definition relay_request (remote : string) (s : session) (took : Z) (up : bool * option string) (r : request) : relayed :=
  let '(decision, detail) := sessionRequestPolicy (rq_Type r) (rq_Payload r) in
  match decision with
  | forwardRequest =>
    mkRelayed (Some r) up.1 (Some (audit took remote (Some s) (rq_Type r) detail "ssh_policy" (Operational <$> up.2)))
  | refuseRequest => mkRelayed None false (Some (audit took remote (Some s) (rq_Type r) detail "ssh_policy" (Some CapabilityDenied)))
  | dropRequest => mkRelayed None false None
  end.
Definition relay_requests (remote : string) (s : session) (reqs : list (Z * (bool * option string) * request)) : list relayed :=
  map (fun ur => relay_request remote s ur.1.1 ur.1.2 ur.2) reqs.

(** The channels a client opens: sessions are bridged, everything else is
    refused and audited. *)
Inductive channel_outcome := Bridged | Refused (entry : PipelineResult).
Definition open_channel (remote : string) (s : session) (took : Z) (channelType : string) : channel_outcome :=
  if str_eqb channelType "session" then Bridged
  else Refused (audit took remote (Some s) channelType "" "ssh_policy" (Some CapabilityDenied)).

(** ** renew *)

(** A lease: open or cancelled, the time, and when its timer fires. *)
Record lease := mkLease { l_open : bool; l_now : Z; l_expiry : Z }.

(** Time passes, the timer firing when it is due; or a tick of the renewal
    brings an answer, validated at the time it arrives. *)
Inductive lease_event := Passes (d : Z) | Renews (answer : result ssh_error (option grant)).

Definition renew_step (g : grant) (l : lease) (e : lease_event) : lease :=
  match e with
  | Passes d => mkLease (l_open l && (l_now l + d <? l_expiry l)) (l_now l + d) (l_expiry l)
  | Renews answer =>
    if negb (l_open l) then l
    else match answer with
         | Ok (Some next) =>
           if bool_decide (validateGrant (l_now l) (l_now l) (Some next) = None) && sameGrant node_Decode g next
           then mkLease true (l_now l) (g_ExpiresAt next)
           else mkLease false (l_now l) (l_expiry l)
         | _ => mkLease false (l_now l) (l_expiry l)
         end
  end.
Definition start_lease (now : Z) (g : grant) : lease := mkLease (now <? g_ExpiresAt g) now (g_ExpiresAt g).
Definition run_lease (now : Z) (g : grant) (es : list lease_event) : lease := foldl (renew_step g) (start_lease now g) es.

(** ** keepalive *)

(** What comes of a probe: a reply, an error, silence for three intervals, or
    the end of the session. *)
Inductive probe := ProbeReply | ProbeError | ProbeSilence | ProbeDone.
Fixpoint keepalive (probes : list probe) : bool :=     (* whether the session is cancelled by it *)
  match probes with
  | [] => false
  | ProbeReply :: probes' => keepalive probes'
  | ProbeError :: _ | ProbeSilence :: _ => true
  | ProbeDone :: _ => false
  end.

(** ** What the libraries promise

    The server library verifies a key only after the key callback approved
    the same key; the dialers run the control hook on the address they
    connect to; the client library completes a handshake only when the host
    key callback accepted the key the host presented. *)
Class SshLaws := {
  peer : NetConn -> string;
  host_key : SshConn -> PublicKey;
  dial_tcp_controlled w control host c : dial_tcp w control host = Ok c -> control (peer c) = None;
  dial_ws_controlled w control url protocols p c : dial_ws w control url protocols = Ok (p, c) -> control (peer c) = None;
}.
Fixpoint verified_after_approval (s : Server) (approved : list PublicKey) (cbs : list callback) : Prop :=
  match cbs with
  | [] => True
  | KeyOffered k :: cbs' =>
    verified_after_approval s (match PublicKeyCallback s k with None => k :: approved | Some _ => approved end) cbs'
  | KeyVerified _ k _ :: cbs' =>
    (exists k', k' ∈ approved /\ key_Marshal k' = key_Marshal k) /\ verified_after_approval s approved cbs'
  end.

(** *** Routes *)

(** Nothing but a bounded, non-empty destination is taken from a user name,
    and every such destination can be written as one. *)
Lemma parseRoute_destination route dest value :
  parseRoute value = Ok (route, dest) -> (dest = "" /\ route = value) \/ (route = "ee" /\ dest <> "").
Proof.
  unfold parseRoute. destruct (HasPrefix value "ee:").
  - destruct (4096 <? _); [done|]. destruct (RawURL_DecodeString _) as [data|]; [|done].
    destruct data; [done|]. cbn [is_empty orb]. destruct (2048 <? _); [done|]. intros [= <- <-]. by right.
  - destruct (_ || _); [done|]. intros [= <- <-]. by left.
Qed.

Lemma base64_raw_length alphabet b : (3 * length (base64_raw alphabet b) <= 4 * length b + 3)%nat.
Proof.
  remember (length b) as n eqn:Hn. revert b Hn. induction n as [n IH] using lt_wf_ind. intros b ->.
  destruct b as [|x [|y [|z rest]]]; cbn [base64_raw length]; [lia..|]. pose proof (IH (length rest) ltac:(cbn; lia) rest eq_refl). lia.
Qed.

Lemma RawURL_length s : (3 * String.length (RawURL_EncodeToString s) <= 4 * String.length s + 3)%nat.
Proof.
  unfold RawURL_EncodeToString. rewrite <- (length_bytes_of_string (string_of_bytes _)), <- (length_bytes_of_string s).
  rewrite bytes_of_string_of_bytes by apply base64_raw_bytes. apply base64_raw_length.
Qed.

(** A destination of up to 2048 bytes, written the way clients write it,
    is the destination the authorizer is asked about, byte for byte. *)
Theorem route_roundtrip dest :
  dest <> "" -> Z.of_nat (String.length dest) <= 2048 ->
  parseRoute ("ee:" +:+ RawURL_EncodeToString dest) = Ok ("ee", dest).
Proof.
  intros Hne Hlen. unfold parseRoute. rewrite HasPrefix_app.
  pose proof (RawURL_length dest) as Hl.
  rewrite (proj2 (Z.ltb_ge 4096 _)) by (cbn [String.append String.length]; lia).
  rewrite (sdrop_app_length "ee:" (RawURL_EncodeToString dest) : sdrop 3 _ = _), RawURL_roundtrip.
  destruct dest; [done|]. cbn [is_empty orb]. by rewrite (proj2 (Z.ltb_ge 2048 _)).
Qed.

(** *** Grants *)

Lemma validateGrant_valid now1 now2 (g : option grant) :
  validateGrant now1 now2 g = None -> exists g', g = Some g' /\ now1 < g_ExpiresAt g' /\ g_ExpiresAt g' <= now2 + maxGrant /\
    g_Destination g' <> "" /\
    (if g_TLSIdentity g' then g_HostKey g' = "" /\ exists u, url_Parse (g_Destination g') = Some u /\ Scheme (p_url u) = "wss"
     else g_HostKey g' <> "").
Proof.
  unfold validateGrant. destruct g as [g|]; [|done].
  destruct (existsb _ _ || negb (now1 <? g_ExpiresAt g) || (maxGrant <? g_ExpiresAt g - now2)) eqn:E; [done|].
  apply orb_false_iff in E as [[E1 E2%negb_false_iff%Z.ltb_lt]%orb_false_iff E3%Z.ltb_ge]. intros Hv. exists g.
  split; [done|]. split; [done|]. split; [lia|]. split.
  - cbn [existsb] in E1. intros Hd. rewrite Hd in E1. cbn [is_empty] in E1. by rewrite !orb_true_r in E1.
  - destruct (g_TLSIdentity g); [|by destruct (g_HostKey g)].
    destruct (url_Parse (g_Destination g)) as [u|]; [|done].
    destruct (str_eqb (Scheme (p_url u)) "wss") eqn:Es; [|done]. cbn [negb orb] in Hv. apply str_eqb_eq in Es.
    destruct (g_HostKey g); [|done]. split; [done|]. by exists u.
Qed.

(** *** Connections *)

Context `{SshLaws}.

Lemma transport_guarded w target guard c : transport w target guard = Ok c -> DialControl (Some guard) (peer c) = None.
Proof.
  unfold transport. destruct (url_Parse target) as [u|]; [|done]. destruct (_ || _); [done|].
  destruct (str_eqb _ "tcp"); [destruct (negb _); [done|]; apply dial_tcp_controlled|].
  destruct (str_eqb _ "wss"); [|done]. destruct (tunnelToken w) as [t|]; [|done].
  destruct (dial_ws _ _ _ _) as [[p c']|] eqn:Ed; [|done]. destruct (str_eqb p "v1"); [|done]. intros [= <-].
  by eapply dial_ws_controlled.
Qed.

(** What a login of the client library amounts to. *)
Definition checks_host_key (login : clientConfig -> NetConn -> result string SshConn) : Prop :=
  forall cfg nc conn, login cfg nc = Ok conn -> cc_HostKeyCallback cfg (host_key conn) = true.

(** A grant in force: approved for this authorization and valid when it was
    checked. *)
Definition approved (at_ : attempt) (a : Authorization) (g : grant) : Prop :=
  at_Authorize at_ a = Ok (Some g) /\ at_now1 at_ < g_ExpiresAt g /\ g_ExpiresAt g <= at_now2 at_ + maxGrant.

Lemma connect_upstream_effects guard at_ auth g r log :
  connect_upstream guard at_ auth g = (r, log) -> forall e, e ∈ log -> e = Dialled (g_Destination g) \/ e = LoggedIn (g_Username g).
Proof.
  unfold connect_upstream. intros E e He. repeat case_match; simplify_eq; set_solver.
Qed.

(** C33: Nothing upstream is touched without a grant.  [connect] dials or logs
    in only where a grant says that the authorizer gave for this very route
    and key and that was unexpired and at most fifteen minutes long; when it
    succeeds, the connection goes to an address the deny list lets through,
    the host has the key the grant pins (or the grant relies on TLS and the
    destination is a wss URL), and the user and the credential are the
    grant's. *)
Theorem ssh_connects_as_granted guard at_ user key s err log :
  checks_host_key (at_login at_) -> connect guard at_ user key = (s, err, log) ->
  (forall e, e ∈ log -> e = Asked (s_auth s) \/
     exists g, s_grant s = Some g /\ approved at_ (s_auth s) g /\ (e = Dialled (g_Destination g) \/ e = LoggedIn (g_Username g))) /\
  (err = None -> exists g conn nc credential,
     s_grant s = Some g /\ approved at_ (s_auth s) g /\ s_conn s = Some conn /\
     a_PublicKey (s_auth s) = TrimSpace (MarshalAuthorizedKey key) /\
     transport (at_world at_) (g_Destination g) guard = Ok nc /\ DialControl (Some guard) (peer nc) = None /\
     signer (at_world at_) (g_PrivateKey g) = Ok credential /\
     (exists cfg, at_login at_ cfg nc = Ok conn /\ cc_User cfg = g_Username g /\ cc_Auth cfg = credential) /\
     (if g_TLSIdentity g then exists u, url_Parse (g_Destination g) = Some u /\ Scheme (p_url u) = "wss"
      else exists k, ParseAuthorizedKey (g_HostKey g) = Some k /\ key_Marshal (host_key conn) = key_Marshal k)).
Proof.
  intros Hlogin. unfold connect. destruct (parseRoute user) as [[route dest]|e]; [|intros [= <- <- <-]; split; [set_solver|done]].
  set (auth := mkAuthorization route (TrimSpace (MarshalAuthorizedKey key)) dest).
  destruct (at_Authorize at_ auth) as [g|e] eqn:Ea; [|intros [= <- <- <-]; split; [set_solver|done]].
  destruct (validateGrant _ _ _) as [e|] eqn:Ev; [intros [= <- <- <-]; split; [set_solver|done]|].
  destruct (validateGrant_valid _ _ _ Ev) as (g' & -> & Hexp & Hmax & _ & Hid).
  destruct (connect_upstream guard at_ auth g') as [r lg] eqn:Eu.
  assert (approved at_ auth g') as Hap by done.
  assert (forall e, e ∈ Asked auth :: lg -> e = Asked auth \/ exists g, Some g' = Some g /\ approved at_ auth g /\
            (e = Dialled (g_Destination g) \/ e = LoggedIn (g_Username g))) as Hlog.
  { intros e [->|He]%elem_of_cons; [by left|]. right. exists g'. split; [done|]. split; [done|].
    by eapply connect_upstream_effects. }
  destruct r as [conn|e]; intros [= <- <- <-]; cbn [s_auth s_grant s_conn]; [|by split].
  split; [done|]. intros _. unfold connect_upstream in Eu.
  destruct (signer _ _) as [cred|] eqn:Ec; [|done]. destruct (pinned g') as [expected|] eqn:Ep; [|done].
  destruct (transport _ _ _) as [nc|] eqn:Et; [|done]. destruct (at_deadline at_); [done|].
  destruct (at_login _ _ _) as [conn'|] eqn:El; [|by destruct (at_ctxErr at_)]. destruct (at_ctxErr at_); [done|].
  destruct (at_clear at_); [done|]. injection Eu as -> <-. exists g', conn, nc, cred. repeat split; try done.
  - by apply transport_guarded in Et.
  - by exists (login_config g' cred expected).
  - unfold pinned in Ep. destruct (g_TLSIdentity g'); [apply Hid|].
    destruct (ParseAuthorizedKey (g_HostKey g')) as [k|] eqn:Ek; [|done]. injection Ep as <-. exists k. split; [done|].
    apply Hlogin in El. cbn in El. by apply bool_decide_eq_true in El.
Qed.

(** *** Handshakes *)

Definition verified (c : callback) : bool := match c with KeyVerified _ _ _ => true | KeyOffered _ => false end.

Lemma verified_keys s approved_ cbs :
  Forall (fun k => key_Marshal k = key_Marshal (ClientPublicKey s)) approved_ -> verified_after_approval s approved_ cbs ->
  forall user k at_, KeyVerified user k at_ ∈ cbs -> key_Marshal k = key_Marshal (ClientPublicKey s).
Proof.
  revert approved_. induction cbs as [|c cbs IH]; intros approved_ Hap Hv user k at_ Hin; [set_solver|].
  destruct c as [k0|u0 k0 at0]; cbn [verified_after_approval] in Hv.
  - apply elem_of_cons in Hin as [[=]|Hin]. refine (IH _ _ Hv user k at_ Hin). unfold PublicKeyCallback.
    case_bool_decide; [by constructor | done].
  - destruct Hv as [(k' & Hk' & Hm) Hv]. apply elem_of_cons in Hin as [[= -> -> ->]|Hin]; [|by eapply IH].
    rewrite list.Forall_forall in Hap. by rewrite <- Hm, (Hap k' Hk').
Qed.

Lemma handshake_fold s remote cbs h : let h' := foldl (handshake_step s remote) h cbs in
  (forall e, e ∈ effects h' -> e ∈ effects h \/
     exists user k at_, KeyVerified user k at_ ∈ cbs /\ e ∈ (connect (srv_Guard s) at_ user k).2) /\
  length (events h') = (length (events h) + length (List.filter verified cbs))%nat /\
  attempted h' = attempted h || existsb verified cbs.
Proof.
  revert h. induction cbs as [|c cbs IH]; intros h; cbn [foldl List.filter existsb].
  { rewrite orb_false_r. split; [auto|]. cbn. split; [lia|done]. }
  destruct (IH (handshake_step s remote h c)) as (He & Hn & Ha). destruct c as [k|user k at_]; cbn [verified] in *.
  - cbn [handshake_step] in *. split; [|done]. intros e Hin. destruct (He e Hin) as [?|(u & k' & a & Hc & Hl)]; [by left|].
    right. exists u, k', a. split; [by right|done].
  - cbn [handshake_step] in *. destruct (connect (srv_Guard s) at_ user k) as [[next err] log] eqn:Ec.
    cbn [effects events attempted] in *. rewrite Hn, length_app, Ha, orb_true_r. cbn [length orb]. split; [|split; [lia|done]].
    intros e Hin. destruct (He e Hin) as [[?|?]%elem_of_app|(u & k' & a & Hc & Hl)]; [by left| |].
    + right. exists user, k, at_. rewrite Ec. split; [by left|done].
    + right. exists u, k', a. split; [by right|done].
Qed.

(** The authorizer is asked, and anything upstream is touched, only for a
    client that proved possession of the paired key; every such attempt leaves
    one audit entry, and a handshake without any leaves one too when it
    fails. *)
Theorem ssh_serves_paired_key_only s remote cbs failed took :
  verified_after_approval s [] cbs ->
  let h := run_handshake s remote cbs failed took in
  (forall e, e ∈ effects h -> exists user k at_, KeyVerified user k at_ ∈ cbs /\
     key_Marshal k = key_Marshal (ClientPublicKey s) /\ e ∈ (connect (srv_Guard s) at_ user k).2) /\
  length (events h) = (if existsb verified cbs then length (List.filter verified cbs)
                       else if bool_decide (is_Some failed) then 1 else 0)%nat.
Proof.
  intros Hv. cbn zeta. unfold run_handshake.
  destruct (handshake_fold s remote cbs (mkHandshake false None [] [])) as (He & Hn & Ha). cbn [effects events attempted] in *.
  set (h := foldl (handshake_step s remote) _ cbs) in *.
  assert (forall e, e ∈ effects h -> exists user k at_, KeyVerified user k at_ ∈ cbs /\
     key_Marshal k = key_Marshal (ClientPublicKey s) /\ e ∈ (connect (srv_Guard s) at_ user k).2) as Heff.
  { intros e Hin. destruct (He e Hin) as [[]%elem_of_nil|(u & k & a & Hc & Hl)]. exists u, k, a. split; [done|]. split; [|done].
    by eapply (verified_keys s [] cbs). }
  assert (existsb verified cbs = false -> length (List.filter verified cbs) = 0%nat) as Hzero.
  { clear. induction cbs as [|c cbs IH]; cbn; [done|]. destruct (verified c); [done|]. apply IH. }
  destruct failed as [e|]; rewrite ?Ha; cbn [orb length] in *; destruct (existsb verified cbs); cbn [effects events];
    split; try done; rewrite ?length_app, Hn, ?Hzero by done; done.
Qed.

(** *** Requests *)

(** Session requests are denied by default.  Whatever the client sends and
    the upstream answers, a request goes upstream only unchanged, and only as
    a command, the sftp subsystem or a signal; it is audited with the command
    or the name it carries.  Every other request is answered with a refusal
    and audited as rejected, except the two kinds of client bookkeeping. *)
Theorem ssh_requests_default_deny remote s reqs i took up r out :
  reqs !! i = Some (took, up, r) -> relay_requests remote s reqs !! i = Some out ->
  match rl_forwarded out with
  | Some sent =>
    sent = r /\ rl_reply out = up.1 /\ (Unmarshal_string (rq_Payload r)).2 = true /\
    (rq_Type r = "exec" \/ rq_Type r = "signal" \/
     rq_Type r = "subsystem" /\ (Unmarshal_string (rq_Payload r)).1 = "sftp") /\
    exists e, rl_audit out = Some e /\ pres_Method e = rq_Type r /\ pres_Path e = (Unmarshal_string (rq_Payload r)).1 /\
      pres_Action e = ActionContinue /\ pres_Err e = up.2
  | None =>
    rl_reply out = false /\
    ((rq_Type r = "env" \/ rq_Type r = "eow@openssh.com") /\ rl_audit out = None \/
     exists e, rl_audit out = Some e /\ pres_Method e = rq_Type r /\ pres_Action e = ActionReject)
  end.
Proof.
  intros Hr. unfold relay_requests. rewrite list_lookup_fmap, Hr. cbn [fmap option_fmap option_map fst snd]. intros [= <-].
  unfold relay_request, sessionRequestPolicy. destruct (str_eqb (rq_Type r) "exec") eqn:E1.
  { apply str_eqb_eq in E1. destruct (Unmarshal_string (rq_Payload r)) as [cmd [|]]; cbn [negb fst snd rl_forwarded rl_reply rl_audit].
    - split; [done|]. split; [done|]. split; [done|]. split; [by left|]. eexists. split; [done|]. cbn. destruct up as [? [?|]]; done.
    - split; [done|]. right. by eexists. }
  destruct (str_eqb (rq_Type r) "subsystem" || str_eqb (rq_Type r) "signal") eqn:E2.
  { destruct (Unmarshal_string (rq_Payload r)) as [name [|]]; cbn [negb orb fst snd].
    - destruct (str_eqb (rq_Type r) "subsystem" && negb (str_eqb name "sftp")) eqn:E3; cbn [rl_forwarded rl_reply rl_audit].
      { split; [done|]. right. by eexists. }
      split; [done|]. split; [done|]. split; [done|]. split.
      + right. destruct (str_eqb (rq_Type r) "subsystem") eqn:E4; cbn [orb andb] in *.
        * right. apply str_eqb_eq in E4. apply negb_false_iff, str_eqb_eq in E3. done.
        * left. by apply str_eqb_eq in E2.
      + eexists. split; [done|]. cbn. destruct up as [? [?|]]; done.
    - cbn [rl_forwarded rl_reply rl_audit]. split; [done|]. right. by eexists. }
  destruct (str_eqb (rq_Type r) "env" || str_eqb (rq_Type r) "eow@openssh.com") eqn:E3; cbn [rl_forwarded rl_reply rl_audit].
  - split; [done|]. left. split; [|done]. apply orb_true_iff in E3 as [E%str_eqb_eq|E%str_eqb_eq]; [by left|by right].
  - split; [done|]. right. by eexists.
Qed.

(** *** Leases *)

(** An approval of the lease's grant, unchanged but for its expiry, at a
    time. *)
Definition approval (g : grant) (t : Z) (e : lease_event) : Prop :=
  exists next, e = Renews (Ok (Some next)) /\ sameGrant node_Decode g next = true /\
    t < g_ExpiresAt next /\ g_ExpiresAt next <= t + maxGrant.

Definition is_passing (e : lease_event) : Prop := match e with Passes _ => True | Renews _ => False end.
(** Where the timer of an open lease comes from: the grant, while there was
    no renewal, and then the last answer. *)
Definition lease_inv (g : grant) (now0 : Z) (l : lease) (es : list lease_event) : Prop :=
  l_open l = true -> l_now l < l_expiry l /\
    ((Forall is_passing es /\ l_expiry l = g_ExpiresAt g) \/
     exists before next later, es = before ++ Renews (Ok (Some next)) :: later /\ Forall is_passing later /\
       approval g (l_now (run_lease now0 g before)) (Renews (Ok (Some next))) /\ l_expiry l = g_ExpiresAt next /\
       l_expiry l <= l_now (run_lease now0 g before) + maxGrant).

Lemma run_lease_snoc now g es e : run_lease now g (es ++ [e]) = renew_step g (run_lease now g es) e.
Proof. unfold run_lease. by rewrite foldl_app. Qed.

Lemma lease_inv_run g now es : Forall (fun e => match e with Passes d => 0 <= d | Renews _ => True end) es ->
  lease_inv g now (run_lease now g es) es.
Proof.
  induction es as [|e es IH] using rev_ind; intros Hp.
  { unfold run_lease, start_lease, lease_inv. cbn. intros Ho%Z.ltb_lt. split; [lia|left; by split]. }
  apply Forall_app in Hp as [Hp He]. specialize (IH Hp). rewrite run_lease_snoc. set (l := run_lease now g es) in *.
  destruct e as [d|answer]; cbn [renew_step]; unfold lease_inv; cbn [l_open l_now l_expiry].
  - intros [Ho Hlt%Z.ltb_lt]%andb_true_iff. split; [done|]. destruct (IH Ho) as [_ [[Hpass He0]|(b & next & la & Hes & Hla & Hx)]].
    + left. split; [apply Forall_app; split; [done | by apply Forall_singleton] | done].
    + right. exists b, next, (la ++ [Passes d]). split; [rewrite Hes, <- app_assoc; done|]. split; [apply Forall_app; split; [done | by apply Forall_singleton] | done].
  - destruct (l_open l) eqn:Ho; cbn [negb]; [|rewrite Ho; done].
    destruct answer as [[next|]|]; [|done|done]. destruct (bool_decide _ && _) eqn:E; [|done]. cbn [l_open l_now l_expiry]. intros _.
    apply andb_true_iff in E as [Ev%bool_decide_eq_true Es].
    destruct (validateGrant_valid _ _ _ Ev) as (g' & [= <-] & Hx1 & Hx2 & _). split; [done|]. right.
    exists es, next, []. split; [done|]. split; [constructor|]. split; [by exists next|]. done.
Qed.

(** C34: A session lives on approvals only.  While it is open its time is
    before the expiry of its grant, if there was no renewal yet, and else
    before the expiry written in the last answer of the authorizer, which is
    for the same grant, with no field but the expiry changed, and at most
    fifteen minutes after the answer came.  An answer that is an error, is
    invalid or changes the grant closes the session for good. *)
Theorem ssh_lease_bounded now g es :
  Forall (fun e => match e with Passes d => 0 <= d | Renews _ => True end) es ->
  let l := run_lease now g es in
  (l_open l = true ->
     (Forall is_passing es /\ l_now l < g_ExpiresAt g) \/
     exists before next later, es = before ++ Renews (Ok (Some next)) :: later /\ Forall is_passing later /\
       approval g (l_now (run_lease now g before)) (Renews (Ok (Some next))) /\
       l_now l < g_ExpiresAt next <= l_now (run_lease now g before) + maxGrant) /\
  (forall e, l_open l = false -> l_open (renew_step g l e) = false) /\
  (forall answer, (forall t, t = l_now l -> ~ approval g t (Renews answer)) -> l_open (renew_step g l (Renews answer)) = false).
Proof.
  intros Hp. cbn zeta. pose proof (lease_inv_run g now es Hp) as Hinv. set (l := run_lease now g es) in *. split; [|split].
  - intros Ho. destruct (Hinv Ho) as [Hlt [[Hpass He]|(b & next & la & Hes & Hla & Ha & He & Hm)]]; rewrite He in *; [by left|].
    right. by exists b, next, la.
  - intros e Ho. destruct e as [d|answer]; cbn [renew_step]; rewrite Ho; done.
  - intros answer Hno. cbn [renew_step]. destruct (l_open l) eqn:Ho; [|done]. cbn [negb].
    destruct answer as [[next|]|]; [|done|done]. destruct (bool_decide _ && _) eqn:E; [|done]. exfalso.
    apply andb_true_iff in E as [Ev%bool_decide_eq_true Es]. apply (Hno (l_now l) eq_refl). exists next.
    destruct (validateGrant_valid _ _ _ Ev) as (g' & [= <-] & Hx1 & Hx2 & _). done.
Qed.

End server.

(** ** Examples

    Keys, hosts and credentials are their texts; a host presents the key it
    is named by. *)
Definition example_ssh : SshLibrary := {|
  Unmarshal_string b := match b with
    | a :: b1 :: c :: n :: rest => if bool_decide (a = 0 /\ b1 = 0 /\ c = 0) && (n =? Z.of_nat (length rest)) then (string_of_bytes rest, true) else ("", false)
    | _ => ("", false)
    end;
  PublicKey := string;
  key_Marshal := bytes_of_string;
  key_Type _ := "ssh-ed25519";
  MarshalAuthorizedKey k := k;
  ParseAuthorizedKey t := Some t;
  Signer := string;
  ParsePrivateKey v := Some v;
  Node := string;
  node_Decode n := Some (AStr n);
  Src := string;
  BuildSource n := Some n;
  World := unit;
  src_get w s := Some s;
  NetConn := string;
  dial_tcp w control host := match control host with None => Ok host | Some _ => Err "denied" end;
  dial_ws w control url protocols := match control "203.0.113.9:443" with None => Ok ("v1", "203.0.113.9:443") | Some _ => Err "denied" end;
  HMAC_SHA256 k m := m;
  rand_nonce w := Some (repeat 7 16);
  SshConn := string;
|}.
Definition example_ssh_laws : SshLaws (H0 := example_ssh).
Proof.
  refine {| peer := fun c : @NetConn example_ssh => c : string; host_key := fun c : @SshConn example_ssh => c : @PublicKey example_ssh |}.
  - intros w control host c. cbn. destruct (control host) eqn:E; [done|]. intros [= <-]. done.
  - intros w control url protocols p c. cbn. destruct (control _) eqn:E; [done|]. intros [= <- <-]. done.
Defined.
Local Existing Instances ascii_tables example_ssh example_ssh_laws.

Definition client_key : @PublicKey example_ssh := "client-key".
Definition other_key : @PublicKey example_ssh := "other-key".
Definition example_grant : Grant (@Node example_ssh) :=
  mkGrant "g1" "user" "tcp://198.51.100.4:22" "1" "git" "host-key" false "source" Minute.
Definition example_attempt : attempt :=
  mkAttempt (H0 := example_ssh) tt (fun _ => Ok (Some example_grant)) 0 0 None (fun cfg nc => if cc_HostKeyCallback cfg "host-key" then Ok "host-key" else Err "mismatch")
            None None 5.
Definition example_guard : Guard := match NewGuard ["10.0.0.0/8"] with Ok g => g | Err _ => mkGuard [] end.

Lemma ssh_connects_as_granted_witness :
  exists s log, connect example_guard example_attempt "prod" client_key = (s, None, log) /\
    log = [Asked (mkAuthorization "prod" "client-key" ""); Dialled "tcp://198.51.100.4:22"; LoggedIn "git"] /\
    exists g conn, s_grant s = Some g /\ s_conn s = Some conn /\
      exists k, ParseAuthorizedKey (g_HostKey g) = Some k /\ key_Marshal (host_key conn) = key_Marshal k.
Proof.
  destruct (connect example_guard example_attempt "prod" client_key) as [[s err] log] eqn:E.
  assert (checks_host_key (at_login example_attempt)) as Hl.
  { intros cfg nc conn Hc. cbn in Hc. destruct (cc_HostKeyCallback cfg "host-key") eqn:Ec; [|done]. by injection Hc as <-. }
  destruct (ssh_connects_as_granted example_guard example_attempt "prod" client_key s err log Hl E) as [_ Hok].
  exists s, log. vm_compute in E. injection E as Es Ee Elog. subst err log. split; [done|]. split; [reflexivity|].
  destruct (Hok eq_refl) as (g & conn & nc & cr & Hg & _ & Hc & _ & _ & _ & _ & _ & Hk). exists g, conn. split; [done|]. split; [done|].
  assert (g_TLSIdentity g = false) as Ht by (rewrite <- Es in Hg; injection Hg as <-; reflexivity). by rewrite Ht in Hk.
Defined.

Definition example_server : Server := mkServer client_key example_guard.
Definition example_callbacks : list callback :=
  [KeyOffered other_key; KeyOffered client_key; KeyVerified "prod" client_key example_attempt].
Lemma ssh_serves_paired_key_only_witness :
  let h := run_handshake example_server "192.0.2.1:50000" example_callbacks None 0 in
  effects h <> [] /\ length (events h) = 1%nat /\
  forall e, e ∈ effects h -> exists user k at_, KeyVerified user k at_ ∈ example_callbacks /\ key_Marshal k = bytes_of_string "client-key".
Proof.
  cbn zeta.
  destruct (ssh_serves_paired_key_only example_server "192.0.2.1:50000" example_callbacks None 0) as [H1 H2].
  { vm_compute. split; [|done]. exists "client-key". split; [by left | done]. }
  split; [vm_compute; done|]. split; [by rewrite H2|].
  intros e He. destruct (H1 e He) as (u & k & a & Hin & Hk & _). by exists u, k, a.
Defined.

Lemma ssh_requests_default_deny_witness :
  exists out, relay_requests "192.0.2.1:50000" no_session [(3, (true, None), mkRequest "exec" [0; 0; 0; 2; 105; 100])] !! 0%nat = Some out /\
    rl_forwarded out = Some (mkRequest "exec" [0; 0; 0; 2; 105; 100]) /\
    exists e, rl_audit out = Some e /\ pres_Method e = "exec" /\ pres_Path e = "id".
Proof.
  destruct (relay_requests "192.0.2.1:50000" no_session [(3, (true, None), mkRequest "exec" [0; 0; 0; 2; 105; 100])] !! 0%nat) as [out|] eqn:E; [|done].
  pose proof (ssh_requests_default_deny "192.0.2.1:50000" no_session [(3, (true, None), mkRequest "exec" [0; 0; 0; 2; 105; 100])] 0 3 (true, None)
    (mkRequest "exec" [0; 0; 0; 2; 105; 100]) out eq_refl E) as Ht.
  assert (rl_forwarded out = Some (mkRequest "exec" [0; 0; 0; 2; 105; 100])) as Hf by (injection E as <-; reflexivity).
  exists out. split; [done|]. split; [done|]. rewrite Hf in Ht. destruct Ht as (_ & _ & _ & _ & e & He & Hm & Hp & _). by exists e.
Defined.

Definition renewed_grant : Grant (@Node example_ssh) :=
  mkGrant "g1" "user" "tcp://198.51.100.4:22" "1" "git" "host-key" false "source" (Minute * 10).
Definition example_lease_events : list (lease_event (H0 := example_ssh)) :=
  [Passes (Second * 5); Renews (Ok (Some renewed_grant)); Passes (Minute * 9)].
Lemma ssh_lease_bounded_witness :
  let l := run_lease 0 example_grant example_lease_events in
  l_open l = true /\ l_now l < g_ExpiresAt renewed_grant /\ l_open (renew_step example_grant l (Renews (Err CapabilityDenied))) = false.
Proof.
  cbn zeta. destruct (ssh_lease_bounded 0 example_grant example_lease_events) as (H1 & H2 & H3).
  { repeat constructor; vm_compute; congruence. }
  assert (l_open (run_lease 0 example_grant example_lease_events) = true) as Ho by (vm_compute; reflexivity).
  split; [exact Ho|]. split; [|apply H3; intros t _ (next & [=] & _)].
  destruct (H1 Ho) as [[Hf _]|(b & next & la & Hes & Hla & _ & Hx & _)].
  - exfalso. rewrite list.Forall_forall in Hf. apply (Hf (Renews (Ok (Some renewed_grant)))). unfold example_lease_events. apply list_elem_of_In. right. left. reflexivity.
  - assert (next = renewed_grant) as <-; [|exact Hx]. unfold example_lease_events in Hes. destruct b as [|x [|y [|z b]]]; [discriminate Hes | by injection Hes | discriminate Hes|].
    injection Hes as _ _ _ Hes. destruct b; discriminate Hes.
Defined.

Lemma route_roundtrip_witness : parseRoute "ee:d3NzOi8vaC9w" = Ok ("ee", "wss://h/p").
Proof. refine (route_roundtrip "wss://h/p" _ _); vm_compute; congruence. Defined.

End Ssh.
