(* ===== verification/SshServe.v ===== *)
(** * Serving SSH connections (src/internal/sshproxy/server.go)

    The accept loop, the goroutines of one connection from the handshake to
    the end of its session, detached ones included, and the bridge between a
    client's channel and the upstream's, as state machines.  The SSH library
    and the peers are their environment: connections end at any time; a
    goroutine comes back only when what it waits for has happened. *)
From stdpp Require Import base strings list option relations.
From Stdlib Require Import ZArith Lia.
From S2P Require Import Prelude.
Local Open Scope nat_scope.

(** ** Serve *)

Module SshListener.
(** What [Serve] requires of the server. *)
Record fields := mkFields { has_HostKey : bool; has_ClientPublicKey : bool; has_Authorize : bool; has_Guard : bool; has_Audit : bool; has_Logger : bool }.
Definition complete (s : fields) : bool := has_HostKey s && has_ClientPublicKey s && has_Authorize s && has_Guard s && has_Audit s && has_Logger s.

(** The context, the listener, the accept loop with what it will return, the
    handlers that run, and whether [Serve] is back. *)
Inductive loop := Accepting | Leaving (ok : bool).
Record serving := mkServing { s_canceled : bool; s_listening : bool; s_loop : loop; s_handlers : nat; s_returned : option bool }.
Definition Serve (s : fields) : serving :=
  if complete s then mkServing false true Accepting 0 None else mkServing false true (Leaving false) 0 (Some false).

Inductive step : serving -> serving -> Prop :=
  | accepts c n : step (mkServing c true Accepting n None) (mkServing c true Accepting (S n) None)
  | parent_cancels l lp n r : step (mkServing false l lp n r) (mkServing true l lp n r)
  (* context.AfterFunc, which an accept error stops *)
  | closes_listener lp n r : lp <> Leaving false -> step (mkServing true true lp n r) (mkServing true false lp n r)
  | accept_fails c l n : step (mkServing c l Accepting n None) (mkServing true l (Leaving c) n None)
  | handler_returns c l lp n r : step (mkServing c l lp (S n) r) (mkServing c l lp n r)
  | returns c l ok : step (mkServing c l (Leaving ok) 0 None) (mkServing c l (Leaving ok) 0 (Some ok)).

Definition inv (s : serving) : Prop :=
  (forall ok, s_loop s = Leaving ok -> s_returned s = None -> s_canceled s = true) /\
  (is_Some (s_returned s) -> s_handlers s = 0 /\ exists ok, s_loop s = Leaving ok).
Lemma listener_step s s' : inv s -> step s s' -> inv s'.
Proof. intros [Hc Hr]. destruct 1; unfold inv in *; cbn in *; split; naive_solver. Qed.
Lemma listener_reach f s : rtc step (Serve f) s -> inv s.
Proof.
  assert (inv (Serve f)) as Hi by (unfold Serve; destruct (complete f); split; cbn; naive_solver).
  intros Hr. by eapply (rtc_invariant step), Hi; [eauto using listener_step|].
Qed.

(** [Serve] comes back with every handler gone; and, told to stop, it can
    come back without an error once its handlers return. *)
Theorem serve_waits_for_handlers f s : rtc step (Serve f) s ->
  (forall ok, s_returned s = Some ok -> s_handlers s = 0) /\
  (s_canceled s = true -> s_loop s = Accepting -> exists s', rtc step s s' /\ s_returned s' = Some true /\ s_listening s' = false).
Proof.
  intros Hr. destruct (listener_reach f s Hr) as [Hc Hret]. split; [intros ok Hok; apply Hret; by rewrite Hok|].
  intros Hcan Hl. destruct s as [c l lp n r]. cbn in *. subst c lp. destruct r as [ok|]; [destruct (Hret ltac:(done)) as [_ [? ?]]; done|].
  exists (mkServing true false (Leaving true) 0 (Some true)). split; [|done].
  transitivity (mkServing true false Accepting n None); [destruct l; [eapply rtc_l; [by apply closes_listener | apply rtc_refl] | apply rtc_refl]|].
  eapply rtc_l; [apply accept_fails|]. transitivity (mkServing true false (Leaving true) 0 None); [|eapply rtc_l; [apply returns | apply rtc_refl]].
  clear Hr Hret Hc. induction n as [|n IH]; [apply rtc_refl|]. eapply rtc_l; [apply handler_returns | exact IH].
Qed.
End SshListener.

(** ** One connection after its handshake *)

Module SshConnection.
(** [renew] waits for the context or its ticker, or is in [Authorize], which
    a cancelled context makes fail; [true] is a call of [cancel]. *)
Inductive renewing := RWaiting | RAsking | RBack.
Inductive renew_turn (canceled : bool) : renewing -> bool -> renewing -> Prop :=
  | renew_ctx : canceled = true -> renew_turn canceled RWaiting false RBack
  | renew_tick : renew_turn canceled RWaiting false RAsking
  | renew_kept : canceled = false -> renew_turn canceled RAsking false RWaiting
  | renew_revoked : renew_turn canceled RAsking true RBack.

(** [keepalive] on a connection that is [live] or closed: between probes, with
    a probe out, back while the goroutine of its probe is still in
    [SendRequest], and back with no goroutine left. *)
Inductive probing := KWaiting | KProbing | KGone | KBack.
Inductive keepalive_turn (canceled live : bool) : probing -> bool -> probing -> Prop :=
  | keep_ctx : canceled = true -> keepalive_turn canceled live KWaiting false KBack
  | keep_tick : keepalive_turn canceled live KWaiting false KProbing
  | keep_answered : live = true -> keepalive_turn canceled live KProbing false KWaiting
  | keep_failed : live = false -> keepalive_turn canceled live KProbing true KBack
  | keep_timeout : keepalive_turn canceled live KProbing true KGone
  | keep_probing_ctx : canceled = true -> keepalive_turn canceled live KProbing false KGone
  (* the answer comes late, or the connection ends *)
  | probe_returns : keepalive_turn canceled live KGone false KBack.

(** The goroutines [handle] waits for next to the bridges; [true] is one that
    still runs. *)
Record workers := mkWorkers { w_wait : bool; w_renew : renewing; w_keep_down : probing; w_keep_up : probing;
  w_discard_down : bool; w_discard_up : bool; w_reject : bool }.
Definition all_workers : workers := mkWorkers true RWaiting KWaiting KWaiting true true true.
Inductive worker_turn (canceled down up : bool) : workers -> bool -> workers -> Prop :=
  (* sess.conn.Wait *)
  | wait_ends rn kd ku dd du rj : up = false -> worker_turn canceled down up (mkWorkers true rn kd ku dd du rj) true (mkWorkers false rn kd ku dd du rj)
  | renews w rn rn' k kd ku dd du rj : renew_turn canceled rn k rn' ->
      worker_turn canceled down up (mkWorkers w rn kd ku dd du rj) k (mkWorkers w rn' kd ku dd du rj)
  | keeps_down w rn kd kd' k ku dd du rj : keepalive_turn canceled down kd k kd' ->
      worker_turn canceled down up (mkWorkers w rn kd ku dd du rj) k (mkWorkers w rn kd' ku dd du rj)
  | keeps_up w rn kd ku ku' k dd du rj : keepalive_turn canceled up ku k ku' ->
      worker_turn canceled down up (mkWorkers w rn kd ku dd du rj) k (mkWorkers w rn kd ku' dd du rj)
  (* requests and channels end with their connection *)
  | discards_down w rn kd ku du rj : down = false -> worker_turn canceled down up (mkWorkers w rn kd ku true du rj) false (mkWorkers w rn kd ku false du rj)
  | discards_up w rn kd ku dd rj : up = false -> worker_turn canceled down up (mkWorkers w rn kd ku dd true rj) false (mkWorkers w rn kd ku dd false rj)
  | rejects_end w rn kd ku dd du : up = false -> worker_turn canceled down up (mkWorkers w rn kd ku dd du true) false (mkWorkers w rn kd ku dd du false).

(** ** The goroutines of a bridge *)

(** [bridge] itself: in [OpenChannel], in [Accept], in the loop over the
    client's requests or in the [SendRequest] of one, at [<-closed], at
    [<-input], and back. *)
Inductive bridging := Opening | Accepting | Looping | Forwarding | AtClosed | AtInput | Back.
(** The relay of the upstream's requests: in its loop, or in the client's
    answer to one. *)
Inductive relaying := RelayIdle | RelayAsks | RelayOver.
(** The closing goroutine: at [output.Wait], at [<-requests], done. *)
Inductive closing := AtOutput | AtRequests | Closed.
(** Its goroutines, the detached [DiscardRequests], and what the peers did to
    the two channels: the end of their data, the close of the channel; and
    whether the upstream was asked to close its channel ([up.Close]). *)
Record bridge := mkBr { br_main : bridging; br_out : bool; br_err : bool; br_relay : relaying; br_closer : closing; br_input : bool; br_discard : bool;
  br_up_eof : bool; br_down_eof : bool; br_up_closed : bool; br_down_closed : bool; br_asked : bool }.
Definition opening : bridge := mkBr Opening false false RelayOver Closed false false false false false false false.

(** A channel is gone when its peer closed it or its connection ended: then
    reads, writes and [SendRequest] on it come back and its requests end.  A
    [Close] of one's own only asks the peer to close. *)
Inductive bridge_turn (down up : bool) : bridge -> bridge -> Prop :=
  | up_eof m o e q c i ds de uc dc ak : bridge_turn down up (mkBr m o e q c i ds false de uc dc ak) (mkBr m o e q c i ds true de uc dc ak)
  | down_eof m o e q c i ds ue uc dc ak : bridge_turn down up (mkBr m o e q c i ds ue false uc dc ak) (mkBr m o e q c i ds ue true uc dc ak)
  | up_closes m o e q c i ds ue de dc ak : bridge_turn down up (mkBr m o e q c i ds ue de false dc ak) (mkBr m o e q c i ds ue de true dc ak)
  | down_closes m o e q c i ds ue de uc ak : bridge_turn down up (mkBr m o e q c i ds ue de uc false ak) (mkBr m o e q c i ds ue de uc true ak)
  | opens o e q c i ds ue de uc dc ak : up = true ->
      bridge_turn down up (mkBr Opening o e q c i ds ue de uc dc ak) (mkBr Accepting o e q c i ds ue de uc dc ak)
  (* nc.Reject *)
  | open_fails o e q c i ds ue de uc dc ak : bridge_turn down up (mkBr Opening o e q c i ds ue de uc dc ak) (mkBr Back o e q c i ds ue de uc dc ak)
  | accepts o e q c i ds ue de uc dc ak : down = true ->
      bridge_turn down up (mkBr Accepting o e q c i ds ue de uc dc ak) (mkBr Looping true true RelayIdle AtOutput true ds ue de uc dc ak)
  | accept_fails o e q c i ds ue de uc dc ak : down = false ->
      bridge_turn down up (mkBr Accepting o e q c i ds ue de uc dc ak) (mkBr Back o e q c i true ue de uc dc true)
  | discard_ends m o e q c i ue de uc dc ak : uc || negb up = true ->
      bridge_turn down up (mkBr m o e q c i true ue de uc dc ak) (mkBr m o e q c i false ue de uc dc ak)
  | out_ends m e q c i ds ue de uc dc ak : ue || uc || negb up || dc || negb down = true ->
      bridge_turn down up (mkBr m true e q c i ds ue de uc dc ak) (mkBr m false e q c i ds ue de uc dc ak)
  | err_ends m o q c i ds ue de uc dc ak : ue || uc || negb up || dc || negb down = true ->
      bridge_turn down up (mkBr m o true q c i ds ue de uc dc ak) (mkBr m o false q c i ds ue de uc dc ak)
  | input_ends m o e q c ds ue de uc dc ak : de || dc || negb down || uc || negb up = true ->
      bridge_turn down up (mkBr m o e q c true ds ue de uc dc ak) (mkBr m o e q c false ds ue de uc dc ak)
  | relay_asks m o e c i ds ue de uc dc ak : uc || negb up = false ->
      bridge_turn down up (mkBr m o e RelayIdle c i ds ue de uc dc ak) (mkBr m o e RelayAsks c i ds ue de uc dc ak)
  (* the client answers, or its channel is gone *)
  | relay_answered m o e c i ds ue de uc dc ak : bridge_turn down up (mkBr m o e RelayAsks c i ds ue de uc dc ak) (mkBr m o e RelayIdle c i ds ue de uc dc ak)
  | relay_ends m o e c i ds ue de uc dc ak : uc || negb up = true ->
      bridge_turn down up (mkBr m o e RelayIdle c i ds ue de uc dc ak) (mkBr m o e RelayOver c i ds ue de uc dc ak)
  | output_over m q i ds ue de uc dc ak : bridge_turn down up (mkBr m false false q AtOutput i ds ue de uc dc ak) (mkBr m false false q AtRequests i ds ue de uc dc ak)
  | closer_ends m o e i ds ue de uc dc ak : bridge_turn down up (mkBr m o e RelayOver AtRequests i ds ue de uc dc ak) (mkBr m o e RelayOver Closed i ds ue de uc dc ak)
  | forwards o e q c i ds ue de uc dc ak : dc || negb down = false ->
      bridge_turn down up (mkBr Looping o e q c i ds ue de uc dc ak) (mkBr Forwarding o e q c i ds ue de uc dc ak)
  (* the upstream answers, or its channel is gone *)
  | forwarded o e q c i ds ue de uc dc ak : bridge_turn down up (mkBr Forwarding o e q c i ds ue de uc dc ak) (mkBr Looping o e q c i ds ue de uc dc ak)
  (* the client's requests are over: up.Close *)
  | requests_over o e q c i ds ue de uc dc ak : dc || negb down = true ->
      bridge_turn down up (mkBr Looping o e q c i ds ue de uc dc ak) (mkBr AtClosed o e q c i ds ue de uc dc true)
  | passes_closed o e q i ds ue de uc dc ak : bridge_turn down up (mkBr AtClosed o e q Closed i ds ue de uc dc ak) (mkBr AtInput o e q Closed i ds ue de uc dc ak)
  | passes_input o e q c ds ue de uc dc ak : bridge_turn down up (mkBr AtInput o e q c false ds ue de uc dc ak) (mkBr Back o e q c false ds ue de uc dc ak).

(** ** The connection *)

#[global] Instance renewing_eq_dec : EqDecision renewing.
Proof. solve_decision. Defined.
#[global] Instance probing_eq_dec : EqDecision probing.
Proof. solve_decision. Defined.
#[global] Instance bridging_eq_dec : EqDecision bridging.
Proof. solve_decision. Defined.
#[global] Instance closing_eq_dec : EqDecision closing.
Proof. solve_decision. Defined.

#[global] Instance relaying_eq_dec : EqDecision relaying.
Proof. solve_decision. Defined.
#[global] Instance workers_eq_dec : EqDecision workers.
Proof. solve_decision. Defined.

Record conn := mkConn { c_canceled : bool; c_down : bool; c_up : bool; c_workers : workers; c_bridges : list bridge; c_looping : bool; c_returned : bool }.
Definition start : conn := mkConn false true true all_workers [] true false.

(** What [wg.Wait] waits for. *)
Definition worker_joined (w : workers) : bool :=
  negb (w_wait w) && bool_decide (w_renew w = RBack) && bool_decide (w_keep_down w = KGone \/ w_keep_down w = KBack)
  && bool_decide (w_keep_up w = KGone \/ w_keep_up w = KBack) && negb (w_discard_down w) && negb (w_discard_up w) && negb (w_reject w).
Definition joined (c : conn) : bool := worker_joined (c_workers c) && forallb (fun b => bool_decide (br_main b = Back)) (c_bridges c).

Inductive step : conn -> conn -> Prop :=
  (* the parent's context, or the expiry of the lease *)
  | cancelled d u w bs lp r : step (mkConn false d u w bs lp r) (mkConn true d u w bs lp r)
  | client_leaves c u w bs lp r : step (mkConn c true u w bs lp r) (mkConn c false u w bs lp r)
  | upstream_leaves c d w bs lp r : step (mkConn c d true w bs lp r) (mkConn c d false w bs lp r)
  (* context.AfterFunc, on either connection *)
  | closes_down u w bs lp r : step (mkConn true true u w bs lp r) (mkConn true false u w bs lp r)
  | closes_up d w bs lp r : step (mkConn true d true w bs lp r) (mkConn true d false w bs lp r)
  | works c d u w k w' bs lp r : worker_turn c d u w k w' -> step (mkConn c d u w bs lp r) (mkConn (c || k) d u w' bs lp r)
  | bridges c d u w pre b b' post lp r : bridge_turn d u b b' -> step (mkConn c d u w (pre ++ b :: post) lp r) (mkConn c d u w (pre ++ b' :: post) lp r)
  (* a session channel; one of another type is refused and the loop goes on *)
  | bridge_starts c d u w bs : step (mkConn c d u w bs true false) (mkConn c d u w (opening :: bs) true false)
  (* the client's channels are over: cancel, and close the upstream *)
  | loop_ends c u w bs : step (mkConn c false u w bs true false) (mkConn true false false w bs false false)
  | returns c d u w bs : joined (mkConn c d u w bs false false) = true -> step (mkConn c d u w bs false false) (mkConn c d u w bs false true).

(** Nothing of the session is left, detached goroutines included. *)
Definition worker_gone (w : workers) : Prop := w = mkWorkers false RBack KBack KBack false false false.
Definition bridge_gone (b : bridge) : Prop :=
  br_main b = Back /\ br_out b = false /\ br_err b = false /\ br_relay b = RelayOver /\ br_closer b = Closed /\ br_input b = false /\ br_discard b = false.
#[global] Instance bridge_gone_dec b : Decision (bridge_gone b).
Proof. unfold bridge_gone. apply _. Defined.
Definition all_gone (c : conn) : Prop := worker_gone (c_workers c) /\ Forall bridge_gone (c_bridges c).

(** ** What is left to do *)

Definition flag (b : bool) : nat := if b then 1 else 0.
Definition renew_left (r : renewing) : nat := match r with RWaiting => 2 | RAsking => 1 | RBack => 0 end.
Definition probe_left (k : probing) : nat := match k with KWaiting => 3 | KProbing => 2 | KGone => 1 | KBack => 0 end.
Definition worker_left (w : workers) : nat :=
  flag (w_wait w) + renew_left (w_renew w) + probe_left (w_keep_down w) + probe_left (w_keep_up w)
  + flag (w_discard_down w) + flag (w_discard_up w) + flag (w_reject w).
Definition main_left (m : bridging) : nat :=
  match m with Opening => 11 | Accepting => 10 | Forwarding => 4 | Looping => 3 | AtClosed => 2 | AtInput => 1 | Back => 0 end.
Definition relay_left (q : relaying) : nat := match q with RelayAsks => 2 | RelayIdle => 1 | RelayOver => 0 end.
Definition closer_left (c : closing) : nat := match c with AtOutput => 2 | AtRequests => 1 | Closed => 0 end.
Definition bridge_left (b : bridge) : nat :=
  main_left (br_main b) + flag (br_out b) + flag (br_err b) + relay_left (br_relay b) + closer_left (br_closer b) + flag (br_input b) + flag (br_discard b)
  + flag (negb (br_up_eof b)) + flag (negb (br_down_eof b)) + flag (negb (br_up_closed b)) + flag (negb (br_down_closed b)).
Definition left (c : conn) : nat := worker_left (c_workers c) + sum_list (map bridge_left (c_bridges c)) + flag (negb (c_returned c)).

Lemma worker_left_decreases w k w' : worker_turn true false false w k w' -> worker_left w' < worker_left w.
Proof.
  destruct 1 as [| w rn rn' k kd ku dd du rj Ht| w rn kd kd' k ku dd du rj Ht| w rn kd ku ku' k dd du rj Ht| | |]; unfold worker_left; cbn; try lia;
    destruct Ht; cbn; try done; lia.
Qed.
(** Both channels of a bridge are gone. *)
Definition channels_gone (d u : bool) (b : bridge) : Prop := br_down_closed b || negb d = true /\ br_up_closed b || negb u = true.
Lemma bridge_left_decreases d u b b' : channels_gone d u b -> bridge_turn d u b b' -> bridge_left b' < bridge_left b /\ channels_gone d u b'.
Proof.
  intros [Hd Hu]. destruct 1; unfold bridge_left, channels_gone;
    cbn [br_main br_out br_err br_relay br_closer br_input br_discard br_up_eof br_down_eof br_up_closed br_down_closed main_left relay_left closer_left flag negb] in *;
    try congruence; (split; [lia | done]).
Qed.

(** ** The invariant *)

(** The goroutines of a bridge start together, and it comes back after
    them. *)
Definition bridge_inv (b : bridge) : Prop :=
  (br_closer b <> AtOutput -> br_out b = false /\ br_err b = false) /\ (br_closer b = Closed -> br_relay b = RelayOver) /\
  match br_main b with
  | Opening | Accepting => br_closer b = Closed /\ br_input b = false /\ br_discard b = false
  | AtClosed => br_asked b = true
  | AtInput => br_closer b = Closed /\ br_asked b = true
  | Back => br_closer b = Closed /\ br_input b = false
  | _ => True
  end.
Lemma bridge_inv_turn d u b b' : bridge_inv b -> bridge_turn d u b b' -> bridge_inv b'.
Proof.
  intros (Ho & Hr & Hm) Ht. unfold bridge_inv. destruct Ht; cbn in *; (split; [|split]); try done; try (destruct m; done);
    try (intros Hc; specialize (Ho Hc)); try (intros Hc; specialize (Hr Hc)); try (destruct m); intuition congruence.
Qed.

Definition inv (c : conn) : Prop :=
  Forall bridge_inv (c_bridges c) /\ (c_looping c = false -> c_canceled c = true /\ c_down c = false /\ c_up c = false) /\
  (c_returned c = true -> c_looping c = false /\ joined c = true).

Lemma joined_worker_turn c d u w k w' : worker_joined w = true -> worker_turn c d u w k w' -> worker_joined w' = true.
Proof.
  unfold worker_joined. intros Hj Ht. destruct Ht as [| w rn rn' k kd ku dd du rj Ht| w rn kd kd' k ku dd du rj Ht| w rn kd ku ku' k dd du rj Ht| | |]; cbn in *; bool_prop; try done;
    destruct Ht; bool_prop; naive_solver.
Qed.
Lemma back_turn d u b b' : br_main b = Back -> bridge_turn d u b b' -> br_main b' = Back.
Proof. intros Hb. by destruct 1; cbn in *. Qed.

Lemma connection_step c c' : inv c -> step c c' -> inv c'.
Proof.
  intros (Hb & Hl & Hr) Hst.
  destruct Hst as [d u w bs lp r|c u w bs lp r|c d w bs lp r|u w bs lp r|d w bs lp r|c d u w k w' bs lp r Ht|c d u w pre b b' post lp r Ht|c d u w bs|c u w bs|c d u w bs Hj];
    unfold inv; cbn in *; (split; [try exact Hb | split; [try (intros Hlp; destruct (Hl Hlp) as (? & ? & ?); done) | try (intros Hret; destruct (Hr Hret); done)]]); try done.
  - intros Hlp. by destruct (Hl Hlp) as (-> & -> & ->).
  - intros Hret. destruct (Hr Hret) as [Hlp Hj]. split; [done|].
    unfold joined in *. cbn in *. apply andb_true_iff in Hj as [Hw Hbs]. rewrite Hbs, andb_true_r. by eapply joined_worker_turn.
  - apply list.Forall_app in Hb as [Hpre [Hx Hpost]%list.Forall_cons]. apply list.Forall_app. split; [done|]. apply list.Forall_cons. split; [by eapply bridge_inv_turn | done].
  - intros Hret. destruct (Hr Hret) as [Hlp Hj]. split; [done|]. unfold joined in *. cbn in *. rewrite forallb_app in *. cbn in *. bool_prop.
    assert (br_main b' = Back) as Hbb by (by eapply back_turn). by repeat match goal with H : ?x = true |- _ => rewrite H; clear H end; rewrite bool_decide_true.
  - apply list.Forall_cons. split; [|done]. unfold bridge_inv. cbn. split_and!; done.
Qed.
Lemma connection_reach c : rtc step start c -> inv c.
Proof.
  assert (inv start) as Hi by (split_and!; cbn; [constructor | done | done]).
  intros Hr. by eapply (rtc_invariant step), Hi; [eauto using connection_step|].
Qed.

(** ** Progress *)

Lemma renew_progress rn : rn <> RBack -> exists k rn', renew_turn true rn k rn'.
Proof. destruct rn; [intros _; eexists _, _; by apply renew_ctx | intros _; eexists _, _; apply renew_revoked | done]. Qed.
Lemma keepalive_progress live kp : kp <> KBack -> exists k kp', keepalive_turn true live kp k kp'.
Proof.
  destruct kp; [intros _; eexists _, _; by apply keep_ctx | intros _; eexists _, _; by apply keep_probing_ctx | intros _; eexists _, _; apply probe_returns | done].
Qed.
Lemma worker_progress w : ~ worker_gone w -> exists k w', worker_turn true false false w k w'.
Proof.
  intros Hg. destruct w as [wt rn kd ku dd du rj]. destruct wt; [eexists _, _; by apply wait_ends|].
  destruct (decide (rn = RBack)) as [->|Hn]; [|destruct (renew_progress rn Hn) as (k & rn' & Ht); eexists _, _; by apply renews].
  destruct (decide (kd = KBack)) as [->|Hn]; [|destruct (keepalive_progress false kd Hn) as (k & kd' & Ht); eexists _, _; by apply keeps_down].
  destruct (decide (ku = KBack)) as [->|Hn]; [|destruct (keepalive_progress false ku Hn) as (k & ku' & Ht); eexists _, _; by apply keeps_up].
  destruct dd; [eexists _, _; by apply discards_down|]. destruct du; [eexists _, _; by apply discards_up|]. destruct rj; [eexists _, _; by apply rejects_end | done].
Qed.

(** The closing goroutine ends once the channels are gone. *)
Lemma closer_progress d u m o e q c i ds ue de uc dc ak : dc || negb d = true -> uc || negb u = true -> c <> Closed ->
  exists b', bridge_turn d u (mkBr m o e q c i ds ue de uc dc ak) b'.
Proof.
  intros Hd Hu Hc. assert (ue || uc || negb u || dc || negb d = true) as He by (destruct ue, uc, u, dc, d; done).
  destruct o; [eexists; by apply out_ends|]. destruct e; [eexists; by apply err_ends|].
  destruct c; [eexists; apply output_over | | done].
  destruct q; [eexists; by apply relay_ends | eexists; apply relay_answered | eexists; apply closer_ends].
Qed.
Lemma bridge_progress d u b : bridge_inv b -> channels_gone d u b -> ~ bridge_gone b -> exists b', bridge_turn d u b b'.
Proof.
  intros (Ho & Hr & Hm) [Hd Hu] Hg. destruct b as [m o e q c i ds ue de uc dc ak]. cbn in *.
  destruct m; [eexists; apply open_fails | destruct d; eexists; [by apply accepts | by apply accept_fails] | eexists; by apply requests_over | eexists; apply forwarded | ..].
  - destruct (decide (c = Closed)) as [->|Hc]; [eexists; apply passes_closed | by apply closer_progress].
  - destruct i; [eexists; apply input_ends; by destruct de, dc, d, uc, u | eexists; apply passes_input].
  - destruct ds; [eexists; by apply discard_ends|]. exfalso. apply Hg. destruct Hm as [-> ->]. destruct (Ho ltac:(done)) as [-> ->]. by rewrite (Hr eq_refl).
Qed.

(** Once the loop over the client's channels is over, every step is one step
    less, and one is possible until nothing is left. *)
Lemma left_decreases c c' : inv c -> c_looping c = false -> step c c' -> left c' < left c /\ c_looping c' = false.
Proof.
  intros (_ & Hl & _) Hlp. destruct (Hl Hlp) as (Hc & Hd & Hu). destruct 1 as [| | | | |c d u w k w' bs lp r Ht|c d u w pre b b' post lp r Ht| | |]; cbn in *; subst; try done; unfold left; cbn.
  - apply worker_left_decreases in Ht. split; [lia | done].
  - apply bridge_left_decreases in Ht as [Ht _]; [|by split; rewrite orb_true_r]. rewrite !map_app, !sum_list_with_app. cbn. split; [lia | done].
  - split; [lia | done].
Qed.

Lemma connection_progress c : inv c -> c_looping c = false -> (c_returned c = true /\ all_gone c) \/ exists c', step c c'.
Proof.
  intros (Hb & Hl & Hr) Hlp. destruct c as [cc d u w bs lp r]. destruct (Hl Hlp) as (Hc & Hd & Hu). cbn in *. subst cc d u lp.
  destruct (decide (w = mkWorkers false RBack KBack KBack false false false)) as [Hw|Hw]; [|right; destruct (worker_progress w Hw) as (k & w' & Ht); eexists; by apply works].
  destruct (decide (Forall bridge_gone bs)) as [Hg|Hg].
  - destruct r; [by left|]. right. eexists. apply returns. unfold joined. cbn. subst w. cbn. apply forallb_forall. intros b Hin.
    apply bool_decide_eq_true. rewrite list.Forall_forall in Hg. apply (Hg b). by apply list_elem_of_In.
  - right. apply not_Forall_Exists in Hg; [|apply _]. apply list.Exists_exists in Hg as (b & Hin & Hng). apply list_elem_of_split in Hin as (pre & post & ->).
    rewrite list.Forall_forall in Hb. destruct (bridge_progress false false b) as (b' & Ht); [apply Hb; set_solver | by split; rewrite orb_true_r | done|].
    eexists. by apply bridges.
Qed.
(** So every run of what is left reaches the end. *)
Lemma connection_ends c : inv c -> c_looping c = false -> exists c', rtc step c c' /\ c_returned c' = true /\ all_gone c'.
Proof.
  remember (left c) as n eqn:Hn. revert c Hn. induction n as [n IH] using lt_wf_ind. intros c -> Hi Hlp.
  destruct (connection_progress c Hi Hlp) as [[Hr Hg]|(c1 & Hst)]; [by exists c|]. destruct (left_decreases c c1 Hi Hlp Hst) as [Hlt Hlp1].
  destruct (IH _ Hlt c1 eq_refl (connection_step _ _ Hi Hst) Hlp1) as (c2 & Hr & Hc). exists c2. split; [by eapply rtc_l | done].
Qed.
Lemma looping_ends c : inv c -> c_looping c = true -> c_canceled c = true \/ c_down c = false -> exists c', rtc step c c' /\ inv c' /\ c_looping c' = false.
Proof.
  intros Hi Hlp Hc. pose proof Hi as (_ & _ & Hr). destruct c as [cc d u w bs lp r]. cbn in *. subst lp.
  assert (r = false) as -> by (destruct r; [by destruct (Hr eq_refl)|done]).
  assert (exists c1, rtc step (mkConn cc d u w bs true false) (mkConn c1 false u w bs true false)) as (c1 & Hd).
  { destruct d; [|by exists cc; apply rtc_refl]. destruct Hc as [->|?]; [|done]. exists true. apply rtc_once, closes_down. }
  assert (rtc step (mkConn cc d u w bs true false) (mkConn true false false w bs false false)) as Hrun by (eapply rtc_r; [exact Hd | apply loop_ends]).
  eexists. split; [exact Hrun|]. split; [|done]. by eapply (rtc_invariant step); [eauto using connection_step | exact Hrun | exact Hi].
Qed.

(** C26: An SSH session always ends, and completely.  A cancelled context (the
    client or the upstream left, the lease ended or was not renewed, a peer
    stopped answering, the proxy shuts down) closes the client's connection,
    which ends the loop over its channels; from then on every step of every
    goroutine, the detached ones included, brings the session nearer to its
    end, and one is possible until [handle] is back and no goroutine of it is
    left: so from any reachable state with a cancelled context or without the
    client, the session comes to that end.  When [handle] returns, both
    connections are closed and everything it waits for is over.  A bridge
    that waits for its goroutines has asked the upstream to close its
    channel, and when both channels are closed it ends by itself, while the
    session goes on. *)
Theorem ssh_session_terminates c : rtc step start c ->
  (c_returned c = true -> c_canceled c = true /\ c_down c = false /\ c_up c = false /\ joined c = true) /\
  (c_canceled c = true -> c_down c = true -> exists c', step c c' /\ c_down c' = false) /\
  (c_looping c = false -> (forall c', step c c' -> left c' < left c /\ c_looping c' = false) /\ (c_returned c = true /\ all_gone c \/ exists c', step c c')) /\
  (c_canceled c = true \/ c_down c = false -> exists c', rtc step c c' /\ c_returned c' = true /\ all_gone c') /\
  (forall b, b ∈ c_bridges c -> (br_main b = AtClosed \/ br_main b = AtInput -> br_asked b = true) /\
     (channels_gone (c_down c) (c_up c) b ->
        (forall b', bridge_turn (c_down c) (c_up c) b b' -> bridge_left b' < bridge_left b /\ channels_gone (c_down c) (c_up c) b') /\
        (bridge_gone b \/ exists b', bridge_turn (c_down c) (c_up c) b b'))).
Proof.
  intros Hr. pose proof (connection_reach c Hr) as Hi. pose proof Hi as (Hb & Hl & Hret). split_and!.
  - intros Hx. destruct (Hret Hx) as [Hlp Hj]. destruct (Hl Hlp) as (? & ? & ?). done.
  - intros Hc Hd. destruct c as [cc d u w bs lp r]. cbn in *. subst. eexists. split; [apply closes_down | done].
  - intros Hlp. split; [intros c' Hst; by apply left_decreases | by apply connection_progress].
  - intros Hc. destruct (c_looping c) eqn:Hlp; [|by apply connection_ends]. destruct (looping_ends c Hi Hlp Hc) as (c1 & Hr1 & Hi1 & Hlp1).
    destruct (connection_ends c1 Hi1 Hlp1) as (c2 & Hr2 & H2). exists c2. split; [by etransitivity | done].
  - intros b Hin. rewrite list.Forall_forall in Hb. specialize (Hb b Hin). split.
    + destruct Hb as (_ & _ & Hm). intros [Hx|Hx]; rewrite Hx in Hm; [exact Hm | exact (proj2 Hm)].
    + intros Hg. split; [intros b' Ht; by eapply bridge_left_decreases|]. destruct (decide (bridge_gone b)) as [|Hn]; [by left | right; by apply bridge_progress].
Qed.
(** A session whose client opened a channel, whose lease is not renewed while
    a probe of the upstream is out. *)
Definition demo_workers : workers := mkWorkers true RBack KWaiting KProbing true true true.
Definition demo_bridge : bridge := mkBr Looping true true RelayIdle AtOutput true false false false false false false.
Definition demo_conn : conn := mkConn true true true demo_workers [demo_bridge] true false.
Lemma ssh_session_terminates_witness : rtc step start demo_conn /\ exists c', rtc step demo_conn c' /\ c_returned c' = true /\ all_gone c'.
Proof.
  assert (rtc step start demo_conn) as Hr.
  { eapply rtc_l; [apply bridge_starts|]. eapply rtc_l; [apply (bridges _ _ _ _ [] _ (mkBr Accepting false false RelayOver Closed false false false false false false false) []); by apply opens|].
    eapply rtc_l; [apply (bridges _ _ _ _ [] _ demo_bridge []); by apply accepts|]. eapply rtc_l; [apply works, keeps_up, keep_tick|].
    eapply rtc_l; [apply works, renews, renew_tick|]. eapply rtc_l; [apply works, renews, renew_revoked | apply rtc_refl]. }
  split; [exact Hr|]. exact (proj1 (proj2 (proj2 (proj2 (ssh_session_terminates _ Hr)))) (or_introl eq_refl)).
Defined.
End SshConnection.

(** ** One session channel *)

Module SshBridge.
(** What the upstream sends on its channel, standard output, standard error
    and requests such as the exit status, and what of it the client was
    given; a stream is over when its copy loop is back. *)
Record stream (A : Type) := mkStream { st_pending : list A; st_given : list A; st_over : bool }.
Arguments mkStream {A} _ _ _.
Arguments st_pending {A} _.
Arguments st_given {A} _.
Arguments st_over {A} _.
Definition fresh {A} (l : list A) : stream A := mkStream l [] false.

(** One turn of a copy loop: a chunk is given; at the end of what the
    upstream sends, the loop is back; when either side is gone, it may drop
    the rest. *)
Inductive flow {A} (ended broken : bool) : stream A -> stream A -> Prop :=
  | gives chunk rest given : flow ended broken (mkStream (chunk ++ rest) given false) (mkStream rest (given ++ chunk) false)
  | reaches_end given : ended = true -> flow ended broken (mkStream [] given false) (mkStream [] given true)
  | is_cut pending given : broken = true -> flow ended broken (mkStream pending given false) (mkStream [] given true).

(** The loop over the client's requests, then the wait for the rest. *)
Inductive relaying := Relaying | UpClosed | Returned.
Record bridge (R : Type) := mkBridge {
  b_out : stream Z; b_err : stream Z; b_reqs : stream R; b_eof : bool; b_closed : bool; b_input_over : bool;
  b_ended : bool; b_broken : bool; b_main : relaying }.
Arguments mkBridge {R}.
Arguments b_out {R} _.
Arguments b_err {R} _.
Arguments b_reqs {R} _.
Arguments b_eof {R} _.
Arguments b_closed {R} _.
Arguments b_input_over {R} _.
Arguments b_ended {R} _.
Arguments b_broken {R} _.
Arguments b_main {R} _.

Section bridge.
Context {R : Type}.

Definition open_bridge (out err : list Z) (reqs : list R) : bridge R := mkBridge (fresh out) (fresh err) (fresh reqs) false false false false false Relaying.

Inductive step : bridge R -> bridge R -> Prop :=
  | copies_out o o' e r f c i en br m : flow en br o o' -> step (mkBridge o e r f c i en br m) (mkBridge o' e r f c i en br m)
  | copies_err o e e' r f c i en br m : flow en br e e' -> step (mkBridge o e r f c i en br m) (mkBridge o e' r f c i en br m)
  | relays_request o e r r' f c i en br m : flow en br r r' -> step (mkBridge o e r f c i en br m) (mkBridge o e r' f c i en br m)
  (* the closing goroutine: end of output, then, after the requests, the close *)
  | closes_write o e r c i en br m : st_over o = true -> st_over e = true -> step (mkBridge o e r false c i en br m) (mkBridge o e r true c i en br m)
  | closes_down o e r i en br m : st_over r = true -> step (mkBridge o e r true false i en br m) (mkBridge o e r true true i en br m)
  | input_ends o e r f c en br m : step (mkBridge o e r f c false en br m) (mkBridge o e r f c true en br m)
  | upstream_ends o e r f c i br m : step (mkBridge o e r f c i false br m) (mkBridge o e r f c i true br m)
  (* the client closes its channel, or a connection ends *)
  | breaks o e r f c i en m : step (mkBridge o e r f c i en false m) (mkBridge o e r f c i en true m)
  | requests_end o e r f c i en br : c = true \/ br = true -> step (mkBridge o e r f c i en br Relaying) (mkBridge o e r f c i en br UpClosed)
  | returns o e r f en br : step (mkBridge o e r f true true en br UpClosed) (mkBridge o e r f true true en br Returned).

(** A stream so far: in order, nothing lost unless a side was gone, and over
    only at its end. *)
Definition stream_inv {A} (total : list A) (broken : bool) (s : stream A) : Prop :=
  (exists lost, st_given s ++ st_pending s ++ lost = total /\ (broken = false -> lost = [])) /\
  (broken = false -> st_over s = true -> st_pending s = []).
Lemma flow_inv {A} (total : list A) ended broken s s' : flow ended broken s s' -> stream_inv total broken s -> stream_inv total broken s'.
Proof.
  intros Hf [(lost & Ht & Hl) Ho]. destruct Hf as [chunk rest given|given He|pending given Hb]; unfold stream_inv; cbn in *.
  - split; [|done]. exists lost. split; [|done]. by rewrite <- Ht, <- !app_assoc.
  - split; [|done]. by exists lost.
  - split; [|by rewrite Hb]. exists (pending ++ lost). split; [done | by rewrite Hb].
Qed.
Lemma stream_inv_broken {A} (total : list A) s : stream_inv total false s -> stream_inv total true s.
Proof. intros [(lost & Ht & _) _]. split; [by exists lost | done]. Qed.
Lemma flow_over {A} ended broken (s s' : stream A) : flow ended broken s s' -> st_over s = false.
Proof. by destruct 1. Qed.

Definition inv (out err : list Z) (reqs : list R) (b : bridge R) : Prop :=
  stream_inv out (b_broken b) (b_out b) /\ stream_inv err (b_broken b) (b_err b) /\ stream_inv reqs (b_broken b) (b_reqs b) /\
  (b_eof b = true -> st_over (b_out b) = true /\ st_over (b_err b) = true) /\ (b_closed b = true -> b_eof b = true /\ st_over (b_reqs b) = true) /\
  (b_main b = Returned -> b_closed b = true /\ b_input_over b = true).
Lemma bridge_step out err reqs b b' : inv out err reqs b -> step b b' -> inv out err reqs b'.
Proof.
  intros (Ho & He & Hr & Hf & Hc & Hm) Hst. destruct Hst as [o o' e r f c i en br m Hfl|o e e' r f c i en br m Hfl|o e r r' f c i en br m Hfl| | | | | | |]; unfold inv in *; cbn in *.
  - pose proof (flow_over _ _ _ _ Hfl). split_and!; [by eapply flow_inv | done | done | intros ->; destruct (Hf eq_refl); congruence | done | done].
  - pose proof (flow_over _ _ _ _ Hfl). split_and!; [done | by eapply flow_inv | done | intros ->; destruct (Hf eq_refl); congruence | done | done].
  - pose proof (flow_over _ _ _ _ Hfl). split_and!; [done | done | by eapply flow_inv | done | intros ->; destruct (Hc eq_refl); congruence | done].
  - split_and!; try done. intuition (subst; done || congruence).
  - split_and!; try done. intuition (subst; done || congruence).
  - split_and!; try done. intuition (subst; done || congruence).
  - split_and!; done.
  - split_and!; try done; by apply stream_inv_broken.
  - split_and!; done.
  - split_and!; done.
Qed.
Lemma bridge_reach out err reqs b : rtc step (open_bridge out err reqs) b -> inv out err reqs b.
Proof.
  assert (forall A (l : list A), stream_inv l false (fresh l)) as Hs by (intros A l; split; [exists []; by rewrite !app_nil_r | done]).
  assert (inv out err reqs (open_bridge out err reqs)) as Hi by (split_and!; cbn; (apply Hs || done)).
  intros Hr. by eapply (rtc_invariant step), Hi; [eauto using bridge_step|].
Qed.

(** C27: A client gets everything before its channel closes.  Whatever the
    order in which the copies run, the client is given a prefix of the
    upstream's output and requests, in order; the end of output is sent only
    after both streams are over; and when the channel is closed while neither
    side has gone away, the client was given all of the output, the error
    output and the requests, the exit status among them.  The bridge returns
    only after the channel is closed. *)
Theorem bridge_delivers out err reqs b : rtc step (open_bridge out err reqs) b ->
  (exists l, out = st_given (b_out b) ++ l) /\ (exists l, err = st_given (b_err b) ++ l) /\ (exists l, reqs = st_given (b_reqs b) ++ l) /\
  (b_eof b = true -> b_broken b = false -> st_given (b_out b) = out /\ st_given (b_err b) = err) /\
  (b_closed b = true -> b_broken b = false -> st_given (b_reqs b) = reqs /\ st_given (b_out b) = out /\ st_given (b_err b) = err) /\
  (b_main b = Returned -> b_closed b = true).
Proof.
  intros (Ho & He & Hr & Hf & Hc & Hm)%bridge_reach.
  assert (forall A (l : list A) br s, stream_inv l br s -> (exists l', l = st_given s ++ l') /\ (br = false -> st_over s = true -> st_given s = l)) as Hs.
  { intros A l br s [(lost & <- & Hl) Hov]. split; [by eexists|]. intros Hb Hover. by rewrite (Hl Hb), (Hov Hb Hover), !app_nil_r. }
  apply Hs in Ho as [Ho1 Ho2], He as [He1 He2], Hr as [Hr1 Hr2].
  assert (b_eof b = true -> b_broken b = false -> st_given (b_out b) = out /\ st_given (b_err b) = err) as Heof by (intros Hx Hb; destruct (Hf Hx); auto).
  split_and!; [done | done | done | done | | by intros [? _]%Hm]. intros Hx Hb. destruct (Hc Hx) as [Hx' Hov]. split; [by apply Hr2 | by apply Heof].
Qed.

Lemma stream_can_end {A} ended broken (s : stream A) : ended = true \/ broken = true -> exists s', st_over s' = true /\ rtc (flow ended broken) s s'.
Proof.
  destruct s as [p g [|]]; [intros _; eexists; split; [|apply rtc_refl]; done|]. intros [-> | ->].
  - exists (mkStream [] (g ++ p) true). split; [done|]. eapply rtc_l; [rewrite <- (app_nil_r p) at 1; apply gives|]. eapply rtc_l; [by apply reaches_end | apply rtc_refl].
  - exists (mkStream [] g true). split; [done|]. eapply rtc_l; [by apply is_cut | apply rtc_refl].
Qed.
Lemma flows_step {A} ended broken (F : stream A -> bridge R) s s' :
  (forall x y, flow ended broken x y -> step (F x) (F y)) -> rtc (flow ended broken) s s' -> rtc step (F s) (F s').
Proof. intros HF. induction 1 as [|x y z Hxy _ IH]; [apply rtc_refl|]. eapply rtc_l; [by apply HF | exact IH]. Qed.

(** A bridge whose upstream has ended or one of whose sides is gone can
    always return. *)
Theorem bridge_can_return out err reqs b : rtc step (open_bridge out err reqs) b -> b_ended b = true \/ b_broken b = true ->
  exists b', rtc step b b' /\ b_main b' = Returned.
Proof.
  intros (_ & _ & _ & Hf & Hc & Hm)%bridge_reach Hend. destruct b as [o e r f c i en br m]. cbn in *.
  destruct (stream_can_end en br o Hend) as (o' & Ho & Hro), (stream_can_end en br e Hend) as (e' & He & Hre), (stream_can_end en br r Hend) as (r' & Hr & Hrr).
  assert (rtc step (mkBridge o e r f c i en br m) (mkBridge o' e' r' true true true en br m)) as Hrun.
  { transitivity (mkBridge o' e r f c i en br m); [apply (flows_step en br (fun x => mkBridge x e r f c i en br m)); [intros; by apply copies_out | done]|].
    transitivity (mkBridge o' e' r f c i en br m); [apply (flows_step en br (fun x => mkBridge o' x r f c i en br m)); [intros; by apply copies_err | done]|].
    transitivity (mkBridge o' e' r' f c i en br m); [apply (flows_step en br (fun x => mkBridge o' e' x f c i en br m)); [intros; by apply relays_request | done]|].
    transitivity (mkBridge o' e' r' f c true en br m); [destruct i; [apply rtc_refl | apply rtc_once, input_ends]|].
    transitivity (mkBridge o' e' r' true c true en br m); [destruct f; [apply rtc_refl | apply rtc_once; by apply closes_write]|].
    destruct c; [apply rtc_refl | apply rtc_once; by apply closes_down]. }
  exists (mkBridge o' e' r' true true true en br Returned). split; [|done]. etransitivity; [exact Hrun|].
  destruct m; [eapply rtc_l; [apply requests_end; by left | apply rtc_once, returns] | apply rtc_once, returns | apply rtc_refl].
Qed.
End bridge.

Lemma bridge_delivers_witness :
  let b := mkBridge (mkStream [] [104; 105]%Z true) (mkStream [] [] true) (mkStream [] ["exit-status"%string] true) true true false true false Relaying in
  rtc step (open_bridge [104; 105]%Z [] ["exit-status"%string]) b /\ st_given (b_reqs b) = ["exit-status"%string].
Proof.
  cbv zeta.
  assert (rtc step (open_bridge [104; 105]%Z [] ["exit-status"%string])
            (mkBridge (mkStream [] [104; 105]%Z true) (mkStream [] [] true) (mkStream [] ["exit-status"%string] true) true true false true false Relaying)) as Hr.
  { eapply rtc_l; [apply upstream_ends|]. eapply rtc_l; [apply copies_out, (gives _ _ [104; 105]%Z [])|]. eapply rtc_l; [apply copies_out; by apply reaches_end|].
    eapply rtc_l; [apply copies_err; by apply reaches_end|]. eapply rtc_l; [by apply closes_write|].
    eapply rtc_l; [apply relays_request, (gives _ _ ["exit-status"%string] [])|]. eapply rtc_l; [apply relays_request; by apply reaches_end|].
    eapply rtc_l; [by apply closes_down | apply rtc_refl]. }
  split; [exact Hr|].
  exact (proj1 (proj1 (proj2 (proj2 (proj2 (proj2 (bridge_delivers _ _ _ _ Hr))))) eq_refl eq_refl)).
Defined.
End SshBridge.
