(* ===== verification/OtelAudit.v ===== *)
(** * OpenTelemetry audit (src/internal/transform/otelaudit.go,
      src/internal/otel/provider.go)

    The second sink of the audit records: a log record per request with the
    attributes of the JSON line, and the choice of the exporter's settings.
    The theorems compare the two sinks. *)
From stdpp Require Import base gmap strings list option.
From Stdlib Require Import ZArith Lia Ascii.
From S2P Require Import Prelude GoUtf8 GoStrings GoNet Body GoHttp GoJson Transform GoJsonParse AuditLog.
Local Open Scope string_scope.
Local Open Scope list_scope.
Local Open Scope Z_scope.

Module Otel.

(** ** otelaudit.go *)

(** [log.Value]; the zero value is empty. *)
Inductive log_value :=
  | VEmpty
  | VBool (b : bool)
  | VString (s : string)
  | VInt64 (n : Z)
  | VFloat64 (f : float64)
  | VSlice (l : list log_value)
  | VMap (l : list (string * log_value)).

Inductive severity := SeverityInfo1 | SeverityWarn1 | SeverityError1.

Record otel_record := mkRecord {
  rec_Body : string; rec_Severity : severity; rec_SeverityText : string; rec_attrs : list (string * log_value) }.

Definition otelSeverity (r : PipelineResult) : severity :=
  match pres_Err r with
  | Some _ => SeverityError1
  | None => if bool_decide (pres_Action r = ActionReject) then SeverityWarn1 else SeverityInfo1
  end.
Definition otelSeverityText (r : PipelineResult) : string :=
  match pres_Err r with
  | Some _ => "ERROR"
  | None => if bool_decide (pres_Action r = ActionReject) then "WARN" else "INFO"
  end.

(** [toLogValue]; every value the proxy annotates with is one of these. *)
Fixpoint toLogValue (v : any) : log_value :=
  match v with
  | ANil => VEmpty
  | ABool b => VBool b
  | AStr s => VString s
  | AInt n => VInt64 n
  | AFloat f => VFloat64 f
  | AList l => VSlice (map toLogValue l)
  | AMap m => VMap (map (fun e => (fst e, toLogValue (snd e))) m)
  end.

Section otel.
Context `{MapRange}.

(** [annotationsValue]: through JSON and back, which fails only on a number
    that is not finite. *)
Definition annotationsValue (annotations : Annotations) : log_value :=
  match Unmarshal_any (Marshal_any (AMap (map_range annotations))) with
  | Some v => toLogValue v
  | None => VString "{}"
  end.

Definition transformTracesValue (traces : list TransformTrace) : log_value :=
  VSlice (map (fun tr => VMap
    ([("name", VString (tr_Name tr)); ("action", VString (traceActionString tr)); ("duration_ms", VFloat64 (duration_ms (tr_Duration tr)))]
     ++ match tr_Err tr with Some e => [("error", VString e)] | None => [] end
     ++ match tr_Annotations tr with
        | Some a => if (size a =? 0)%nat then [] else [("annotations", annotationsValue a)]
        | None => []
        end)) traces).

(** The record [NewOTELAuditFunc] emits for a result. *)
Definition otel_audit (r : PipelineResult) : otel_record :=
  let action := match pres_Err r with Some _ => "error" | None => actionString (pres_Action r) end in
  let attrs :=
    [("host", VString (pres_Host r)); ("method", VString (pres_Method r)); ("path", VString (pres_Path r));
     ("remote_addr", VString (pres_RemoteAddr r)); ("sni", VString (pres_SNI r)); ("mode", VString (Mode_String (pres_Mode r)));
     ("action", VString action); ("status_code", VInt64 (pres_StatusCode r));
     ("duration_ms", VFloat64 (duration_ms (pres_Duration r)))]
    ++ (if bool_decide (pres_Action r = ActionReject) then
          match first_with ActionReject (pres_RequestTransforms r) with Some n => [("rejected_by", VString n)] | None => [] end
        else [])
    ++ (if bool_decide (pres_Action r = ActionStub) then
          match first_with ActionStub (pres_RequestTransforms r) with Some n => [("stubbed_by", VString n)] | None => [] end
        else [])
    ++ match pres_Err r with Some e => [("error", VString e)] | None => [] end
    ++ (if bool_decide (pres_RequestTransforms r = []) then []
        else [("request_transforms", transformTracesValue (pres_RequestTransforms r))])
    ++ (if bool_decide (pres_ResponseTransforms r = []) then []
        else [("response_transforms", transformTracesValue (pres_ResponseTransforms r))])
    ++ match pres_MCP r with
       | Some m =>
         if is_empty (MCPServer m) then []
         else [("mcp", VMap ([("server", VString (MCPServer m))]
                ++ (if (length (MCPMessages m) =? 0)%nat then [] else [("messages", VSlice (map toLogValue (MCPMessages m)))])
                ++ (if (length (MCPGateway m) =? 0)%nat then [] else [("gateway", toLogValue (AMap (MCPGateway m)))])))]
       | None => []
       end
    ++ match pres_BodyCapture r with
       | Some c =>
         if is_empty (cap_RequestBody c) then []
         else [("body_capture", VMap [("request_body", VString (cap_RequestBody c)); ("request_body_truncated", VBool (cap_Truncated c))])]
       | None => []
       end in
  mkRecord "request" (otelSeverity r) (otelSeverityText r) attrs.

(** [ChainAuditFuncs] calls every sink, in order, with the same result. *)
Definition ChainAuditFuncs {E} (funcs : list (PipelineResult -> E)) (r : PipelineResult) : list E := map (fun f => f r) funcs.

(** ** provider.go *)

Record ExportConfig := mkExport { DefaultEndpoint : string; DefaultHeaders : gmap string string }.

Definition endpointFromEnv (Getenv : string -> string) : bool :=
  negb (is_empty (Getenv "OTEL_EXPORTER_OTLP_LOGS_ENDPOINT")) || negb (is_empty (Getenv "OTEL_EXPORTER_OTLP_ENDPOINT")).
Definition headersFromEnv (Getenv : string -> string) : bool :=
  negb (is_empty (Getenv "OTEL_EXPORTER_OTLP_LOGS_HEADERS")) || negb (is_empty (Getenv "OTEL_EXPORTER_OTLP_HEADERS")).
Definition Enabled (Getenv : string -> string) (c : ExportConfig) : bool :=
  negb (is_empty (DefaultEndpoint c)) || endpointFromEnv Getenv.

Inductive exporter_option := WithEndpointURL (u : string) | WithHeaders (h : gmap string string).
(** [httpOptions] and [grpcOptions], which differ in the package only. *)
Definition exporterOptions (Getenv : string -> string) (c : ExportConfig) : list exporter_option :=
  (if negb (is_empty (DefaultEndpoint c)) && negb (endpointFromEnv Getenv) then [WithEndpointURL (DefaultEndpoint c)] else [])
  ++ (if negb (size (DefaultHeaders c) =? 0)%nat && negb (headersFromEnv Getenv) then [WithHeaders (DefaultHeaders c)] else []).

Inductive protocol := HttpProtobuf | Grpc.
(** What [NewLoggerProvider] asks for: the exporter, its options, the service
    name. *)
Definition NewLoggerProvider (Getenv : string -> string) (c : ExportConfig) : option (protocol * list exporter_option * string) :=
  let p := Getenv "OTEL_EXPORTER_OTLP_PROTOCOL" in
  let service := Getenv "OTEL_SERVICE_NAME" in
  let service := if is_empty service then "iron-proxy" else service in
  if is_empty p || str_eqb p "http/protobuf" then Some (HttpProtobuf, exporterOptions Getenv c, service)
  else if str_eqb p "grpc" then Some (Grpc, exporterOptions Getenv c, service)
  else None.

(** ** The two sinks *)

Definition attr_of (key : string) (l : list (string * log_value)) : option log_value := snd <$> List.find (fun e => str_eqb (fst e) key) l.
Definition severity_of (l : log_level) : severity :=
  match l with LevelInfo => SeverityInfo1 | LevelWarn => SeverityWarn1 | LevelError => SeverityError1 end.

(** The action the JSON line of a result reports. *)
Definition line_action (r : PipelineResult) : option any :=
  match snd (audit_line r) with
  | AttrGroup _ l :: _ =>
    match List.find (fun a => match a with AttrAny k _ => str_eqb k "action" | _ => false end) l with
    | Some (AttrAny _ v) => Some v
    | _ => None
    end
  | _ => None
  end.

Lemma line_action_spec r : line_action r =
  Some (AStr (if pres_ClientCanceled r then "client_cancel" else match pres_Err r with Some _ => "error" | None => actionString (pres_Action r) end)).
Proof. done. Qed.

(** C40: The two audit sinks tell the same story about a request the client did
    not cancel: the same action, the same severity, and the same refusing
    transform or none. *)
Theorem audit_sinks_agree r : pres_ClientCanceled r = false ->
  (toLogValue <$> line_action r) = attr_of "action" (rec_attrs (otel_audit r)) /\
  severity_of (fst (audit_line r)) = rec_Severity (otel_audit r) /\
  (forall n, AttrAny "rejected_by" (AStr n) ∈ snd (audit_line r) <-> ("rejected_by", VString n) ∈ rec_attrs (otel_audit r)).
Proof.
  intros Hc. rewrite line_action_spec, Hc. split; [done|]. split.
  { unfold audit_line. cbn [fst rec_Severity otel_audit]. rewrite Hc. unfold otelSeverity.
    destruct (pres_Err r); [done|]. by destruct (bool_decide _). }
  intros n. rewrite audit_rejected_by. unfold otel_audit. cbn [rec_attrs]. rewrite !elem_of_app. split.
  - intros [Ha Hf]. rewrite Ha, Hf. right. left. rewrite bool_decide_eq_true_2 by done. by apply list_elem_of_singleton.
  - intros Hin. destruct_or!; repeat case_match; rewrite ?elem_of_cons, ?elem_of_nil in Hin;
      rewrite ?bool_decide_eq_true in *; naive_solver.
Qed.

(** A request the client cancelled is reported as such by the JSON line
    only: the telemetry record gives it the action of an ordinary request, and
    no telemetry record says through which tunnel a request came. *)
Theorem otel_hides_client_cancel r : pres_ClientCanceled r = true -> pres_Err r = None -> pres_Action r = ActionContinue ->
  line_action r = Some (AStr "client_cancel") /\
  attr_of "action" (rec_attrs (otel_audit r)) = Some (VString "allow") /\
  forall t, otel_audit r = otel_audit (mkPipelineResult (pres_Host r) (pres_Method r) (pres_Path r) (pres_RemoteAddr r) (pres_SNI r)
    (pres_Mode r) (pres_Duration r) (pres_Action r) (pres_StatusCode r) t (pres_RequestTransforms r) (pres_ResponseTransforms r)
    (pres_MCP r) (pres_BodyCapture r) (pres_Err r) (pres_ClientCanceled r)).
Proof.
  intros Hc He Ha. rewrite line_action_spec, Hc. split; [done|]. split; [|done].
  unfold otel_audit, attr_of. cbn [rec_attrs]. rewrite He, Ha. done.
Qed.

End otel.

Definition cancelled_result : PipelineResult :=
  mkPipelineResult "api.test" "GET" "/" "192.0.2.1:5" "" ModeMITM 0 ActionContinue 0 (Some (mkTunnel "api.test:443" [])) [] [] None None None true.
Lemma otel_hides_client_cancel_witness :
  line_action cancelled_result = Some (AStr "client_cancel") /\
  attr_of "action" (rec_attrs (otel_audit (H := default_range) cancelled_result)) = Some (VString "allow").
Proof. destruct (otel_hides_client_cancel (H := default_range) cancelled_result eq_refl eq_refl eq_refl) as (H1 & H2 & _). done. Defined.

Definition rejected_result : PipelineResult :=
  mkPipelineResult "api.test" "GET" "/" "192.0.2.1:5" "" ModeMITM 0 ActionReject 403 None
    [mkTrace "allowlist" ActionReject 0 None None] [] None None None false.
Lemma audit_sinks_agree_witness :
  pres_ClientCanceled rejected_result = false /\
  ("rejected_by", VString "allowlist") ∈ rec_attrs (otel_audit (H := default_range) rejected_result).
Proof.
  split; [reflexivity|]. apply (audit_sinks_agree (H := default_range) rejected_result eq_refl).
  apply audit_rejected_by. split; reflexivity.
Defined.

End Otel.
