(* ===== verification/CertCache.v ===== *)
(** * Leaf certificates and CA generation (src/internal/certcache/cache.go, src/internal/cagen/cagen.go, src/cmd/iron-proxy/generate_ca.go)

    The certificates the proxy terminates TLS with: the CA loaded from two
    files, one leaf per server name minted on demand and kept in an LRU cache,
    and the command that writes a new CA.  crypto/x509, PEM and the expirable
    LRU are parameters with their documented behaviour as laws; times are wall
    clock nanoseconds. *)
From stdpp Require Import base gmap strings list option fin_maps.
From Stdlib Require Import ZArith Lia Ascii.
From S2P Require Import Prelude GoUtf8 GoStrings GoTime.
Local Open Scope string_scope.
Local Open Scope list_scope.
Local Open Scope Z_scope.

(** ** crypto/x509 and encoding/pem *)

Record Certificate (Pub Der : Type) := mkCertificate {
  SerialNumber : Z; CommonName : string; DNSNames : list string;
  NotBefore : Z; NotAfter : Z;
  KeyUsage : Z; ServerAuth : bool;
  IsCA : bool; BasicConstraintsValid : bool; MaxPathLen : Z; MaxPathLenZero : bool;
  PublicKey : option Pub; Raw : option Der;
}.
Arguments mkCertificate {Pub Der}. Arguments SerialNumber {Pub Der}. Arguments CommonName {Pub Der}. Arguments DNSNames {Pub Der}.
Arguments NotBefore {Pub Der}. Arguments NotAfter {Pub Der}. Arguments KeyUsage {Pub Der}. Arguments ServerAuth {Pub Der}.
Arguments IsCA {Pub Der}. Arguments BasicConstraintsValid {Pub Der}. Arguments MaxPathLen {Pub Der}. Arguments MaxPathLenZero {Pub Der}.
Arguments PublicKey {Pub Der}. Arguments Raw {Pub Der}.

Definition KeyUsageDigitalSignature : Z := 1.
Definition KeyUsageCertSign : Z := 32.
Definition KeyUsageCRLSign : Z := 64.

Inductive Algorithm := RSA4096 | Ed25519.

Class X509 := {
  Key : Type; Pub : Type; Der : Type; Pem : Type;
  Public : Key -> Pub;
  is_signer : Key -> bool;
  GenerateKey : Algorithm -> nat -> result string Key;
  GenerateECDSA : nat -> result string Key;
  rand_Int : nat -> result string Z;
  CreateCertificate : Certificate Pub Der -> Certificate Pub Der -> Pub -> Key -> result string Der;
  ParseCertificate : Der -> result string (Certificate Pub Der);
  CheckSignature : Der -> Pub -> bool;
  MarshalPKCS8 : Key -> result string Der;
  ParsePKCS8 : Der -> result string Key;
  ParsePKCS1 : Der -> result string Key;
  ParseEC : Der -> result string Key;
  pem_Encode : string -> Der -> Pem;
  pem_Decode : Pem -> option Der;
  pem_prefix : nat -> Pem -> Pem;
}.

(** Times in a certificate are whole seconds. *)
Definition seconds (t : Z) : Z := t / Second * Second.

Class X509Laws `{X509} := {
  (** A certificate holds what its template says, for the key given, signed by the signer. *)
  created_parses t parent pub key der : CreateCertificate t parent pub key = Ok der ->
    exists c, ParseCertificate der = Ok c /\ Raw c = Some der /\ PublicKey c = Some pub /\
      CommonName c = CommonName t /\ DNSNames c = DNSNames t /\ NotBefore c = seconds (NotBefore t) /\ NotAfter c = seconds (NotAfter t) /\
      KeyUsage c = KeyUsage t /\ ServerAuth c = ServerAuth t /\ IsCA c = IsCA t && BasicConstraintsValid t /\
      CheckSignature der (Public key) = true;
  (** The signer must hold the key of the parent. *)
  created_by_parent t parent pub key der : CreateCertificate t parent pub key = Ok der ->
    PublicKey parent = None \/ PublicKey parent = Some (Public key);
  pkcs8_roundtrip key der : MarshalPKCS8 key = Ok der -> ParsePKCS8 der = Ok key;
  generated_signs alg seed key : GenerateKey alg seed = Ok key -> is_signer key = true;
  pem_roundtrip typ der : pem_Decode (pem_Encode typ der) = Some der;
}.

(** ** The expirable LRU

    [contents] is what a [Get] can still return; eviction and expiry may drop
    entries whenever the cache is used. *)
Class LRU (V : Type) := {
  lru : Type;
  NewLRU : Z -> Z -> lru;
  Get : Z -> string -> lru -> option V * lru;
  Add : Z -> string -> V -> lru -> lru;
  Remove : string -> lru -> lru;
  contents : lru -> gmap string V;
  Len (l : lru) : nat := size (contents l);
}.
Arguments lru _ {_}.

Class LRULaws (V : Type) `{LRU V} := {
  new_empty size ttl : contents (NewLRU size ttl) = ∅;
  Get_contents now k l v l' : Get now k l = (v, l') -> contents l' ⊆ contents l /\ forall x, v = Some x -> contents l !! k = Some x;
  Add_contents now k x l : contents (Add now k x l) ⊆ <[k := x]> (contents l);
  Remove_contents k l : contents (Remove k l) ⊆ delete k (contents l);
}.

(** ** internal/certcache/cache.go *)

Module CertCache.
Record tls_Certificate (K P D : Type) := mkTLSCert { chain : list (option D); PrivateKey : K; Leaf : option (Certificate P D) }.
Arguments mkTLSCert {K P D}. Arguments chain {K P D}. Arguments PrivateKey {K P D}. Arguments Leaf {K P D}.

Inductive cert_error :=
  | ReadingCert | NoCertPEM | BadCert (e : string) | ReadingKey | NoKeyPEM | BadKey (e : string) | NotSigner
  | NotCA | NoCertSign | Generating (domain e : string).

(** The clocks of one call: the LRU's, the wall clock at the check of the
    cached leaf and at the minting, and the randomness drawn. *)
Record moment := mkMoment { mo_mono : Z; mo_check : Z; mo_mint : Z; mo_key : nat; mo_serial : nat }.

Section cache.
Context `{HX : X509} `{HL : LRU (tls_Certificate Key Pub Der)}.

Record Cache := mkCache { caCert : Certificate Pub Der; caKey : Key; leafExpiry : Z; cache : lru (tls_Certificate Key Pub Der) }.

Definition NewFromCA (caCert : Certificate Pub Der) (caKey : Key) (maxSize leafExpiry : Z) : result cert_error Cache :=
  if negb (IsCA caCert) then Err NotCA
  else if Z.land (KeyUsage caCert) KeyUsageCertSign =? 0 then Err NoCertSign
  else Ok (mkCache caCert caKey leafExpiry (NewLRU maxSize leafExpiry)).

Definition leaf_template (serial : Z) (domain : string) (now expiry : Z) : Certificate Pub Der :=
  mkCertificate serial domain [domain] (now - Minute) (now + expiry) KeyUsageDigitalSignature true false false 0 false None None.

Definition generate (m : moment) (domain : string) (c : Cache) : result string (tls_Certificate Key Pub Der) :=
  let* key := GenerateECDSA (mo_key m) in
  let* serial := rand_Int (mo_serial m) in
  let* certDER := CreateCertificate (leaf_template serial domain (mo_mint m) (leafExpiry c)) (caCert c) (Public key) (caKey c) in
  let* leaf := ParseCertificate certDER in
  Ok (mkTLSCert [Some certDER; Raw (caCert c)] key (Some leaf)).

Definition set_cache (c : Cache) (l : lru (tls_Certificate Key Pub Der)) : Cache := mkCache (caCert c) (caKey c) (leafExpiry c) l.

(** A leaf that is still valid on the wall clock. *)
Definition still_valid (now : Z) (cert : tls_Certificate Key Pub Der) : bool :=
  match Leaf cert with Some leaf => now <? NotAfter leaf | None => false end.

Definition mint (m : moment) (domain : string) (c : Cache) : result cert_error (tls_Certificate Key Pub Der) * Cache :=
  match generate m domain c with
  | Err e => (Err (Generating domain e), c)
  | Ok cert => (Ok cert, set_cache c (Add (mo_mono m) domain cert (cache c)))
  end.
Definition GetOrCreate (m : moment) (domain : string) (c : Cache) : result cert_error (tls_Certificate Key Pub Der) * Cache :=
  match Get (mo_mono m) domain (cache c) with
  | (Some cert, l) =>
    if still_valid (mo_check m) cert then (Ok cert, set_cache c l)
    else mint m domain (set_cache c (Remove domain l))
  | (None, l) => mint m domain (set_cache c l)
  end.

(** The key formats, tried in this order. *)
Definition parse_key (der : Der) : result string Key :=
  match ParsePKCS8 der with
  | Ok k => Ok k
  | Err _ => match ParsePKCS1 der with Ok k => Ok k | Err _ => ParseEC der end
  end.

Definition loadCA (ReadFile : string -> option Pem) (certPath keyPath : string) : result cert_error (Certificate Pub Der * Key) :=
  match ReadFile certPath with
  | None => Err ReadingCert
  | Some certPEM =>
    match pem_Decode certPEM with
    | None => Err NoCertPEM
    | Some der =>
      match ParseCertificate der with
      | Err e => Err (BadCert e)
      | Ok caCert =>
        match ReadFile keyPath with
        | None => Err ReadingKey
        | Some keyPEM =>
          match pem_Decode keyPEM with
          | None => Err NoKeyPEM
          | Some kder =>
            match parse_key kder with
            | Err e => Err (BadKey e)
            | Ok key => if is_signer key then Ok (caCert, key) else Err NotSigner
            end
          end
        end
      end
    end
  end.

Definition New (ReadFile : string -> option Pem) (caCertPath caKeyPath : string) (maxSize leafExpiry : Z) : result cert_error Cache :=
  let* ca := loadCA ReadFile caCertPath caKeyPath in NewFromCA ca.1 ca.2 maxSize leafExpiry.

(** ** Every certificate handed out is for the name asked and unexpired *)

Definition leaf_for (c : Cache) (domain : string) (cert : tls_Certificate Key Pub Der) : Prop :=
  exists der leaf, chain cert = [Some der; Raw (caCert c)] /\ Leaf cert = Some leaf /\ ParseCertificate der = Ok leaf /\
    DNSNames leaf = [domain] /\ CommonName leaf = domain /\ IsCA leaf = false /\ ServerAuth leaf = true /\
    PublicKey leaf = Some (Public (PrivateKey cert)) /\ CheckSignature der (Public (caKey c)) = true.

Definition cache_ok (c : Cache) : Prop := forall d cert, contents (cache c) !! d = Some cert -> leaf_for c d cert.

Context {HXL : X509Laws} {HLL : LRULaws (tls_Certificate Key Pub Der)}.

Lemma generate_leaf m domain c cert : generate m domain c = Ok cert ->
  leaf_for c domain cert /\ exists leaf, Leaf cert = Some leaf /\ NotBefore leaf = seconds (mo_mint m - Minute) /\ NotAfter leaf = seconds (mo_mint m + leafExpiry c).
Proof.
  unfold generate, rbind. destruct (GenerateECDSA _) as [key|]; [|done]. destruct (rand_Int _) as [serial|]; [|done].
  destruct (CreateCertificate _ _ _ _) as [der|] eqn:Ec; [|done].
  destruct (created_parses _ _ _ _ _ Ec) as (leaf & Hp & Hr & Hk & Hcn & Hd & Hnb & Hna & _ & Hsa & Hca & Hsig).
  rewrite Hp. intros [= <-]. split.
  - exists der, leaf. split_and!; done.
  - by exists leaf.
Qed.

Lemma cache_ok_sub c l : cache_ok c -> contents l ⊆ contents (cache c) -> cache_ok (set_cache c l).
Proof. intros Hok Hsub d cert Hd. exact (Hok d cert (lookup_weaken _ _ _ _ Hd Hsub)). Qed.

Lemma mint_ok m domain c cert c' : cache_ok c -> mint m domain c = (cert, c') ->
  cache_ok c' /\ caCert c' = caCert c /\ caKey c' = caKey c /\ leafExpiry c' = leafExpiry c /\
  forall v, cert = Ok v -> leaf_for c domain v /\
    exists leaf, Leaf v = Some leaf /\ NotBefore leaf = seconds (mo_mint m - Minute) /\ NotAfter leaf = seconds (mo_mint m + leafExpiry c).
Proof.
  intros Hok. unfold mint. destruct (generate m domain c) as [v|e] eqn:Eg; intros [= <- <-]; [|by split_and!].
  apply generate_leaf in Eg as [Hf Ht]. split_and!; try done; [|by intros v' [= <-]].
  intros d cert Hd.
  pose proof (lookup_weaken _ _ _ _ Hd (Add_contents _ _ _ _)) as Hl. apply lookup_insert_Some in Hl as [[<- <-]|[_ Hl]]; [exact Hf | exact (Hok d cert Hl)].
Qed.

(** A call keeps the invariant, and its answer is a leaf for the name that
    was valid on the clock it was checked or minted with. *)
Lemma GetOrCreate_ok m domain c cert c' : cache_ok c -> GetOrCreate m domain c = (cert, c') ->
  cache_ok c' /\ caCert c' = caCert c /\ caKey c' = caKey c /\ leafExpiry c' = leafExpiry c /\
  forall v, cert = Ok v -> leaf_for c domain v /\ exists leaf, Leaf v = Some leaf /\
    (mo_check m < NotAfter leaf \/ NotBefore leaf = seconds (mo_mint m - Minute) /\ NotAfter leaf = seconds (mo_mint m + leafExpiry c)).
Proof.
  intros Hok. unfold GetOrCreate. destruct (Get _ domain (cache c)) as [g l] eqn:Eg.
  destruct (Get_contents _ _ _ _ _ Eg) as [Hsub Hhit].
  assert (forall l0 cert c', contents l0 ⊆ contents (cache c) -> mint m domain (set_cache c l0) = (cert, c') ->
            cache_ok c' /\ caCert c' = caCert c /\ caKey c' = caKey c /\ leafExpiry c' = leafExpiry c /\
            forall v, cert = Ok v -> leaf_for c domain v /\ exists leaf, Leaf v = Some leaf /\
              (mo_check m < NotAfter leaf \/ NotBefore leaf = seconds (mo_mint m - Minute) /\ NotAfter leaf = seconds (mo_mint m + leafExpiry c))) as Hmint.
  { intros l0 r c1 Hl0 Hm. destruct (mint_ok _ _ _ _ _ (cache_ok_sub _ _ Hok Hl0) Hm) as (H1 & H2 & H3 & H4 & H5).
    split_and!; try done. intros v Hv. destruct (H5 v Hv) as (Hf & leaf & Hlf & Hnb & Hna). split; [exact Hf|]. exists leaf. by split; [|right]. }
  destruct g as [hit|]; [|by apply Hmint]. destruct (still_valid (mo_check m) hit) eqn:Ev.
  - intros [= <- <-]. split_and!; try done; [by apply cache_ok_sub|]. intros v [= <-]. split; [by apply Hok, Hhit|].
    unfold still_valid in Ev. destruct (Leaf hit) as [leaf|]; [|done]. exists leaf. apply Z.ltb_lt in Ev. by split; [|left].
  - apply Hmint. etrans; [apply Remove_contents|]. etrans; [apply delete_subseteq | done].
Qed.

(** The calls of the handshakes, one after another under the lock. *)
Definition run (calls : list (moment * string)) (c : Cache) : Cache := fold_left (fun c '(m, d) => (GetOrCreate m d c).2) calls c.

Lemma run_ok calls c : cache_ok c -> cache_ok (run calls c) /\ caCert (run calls c) = caCert c /\ caKey (run calls c) = caKey c /\ leafExpiry (run calls c) = leafExpiry c.
Proof.
  revert c. induction calls as [|[m d] calls IH]; intros c Hok; [done|]. cbn.
  destruct (GetOrCreate m d c) as [r c'] eqn:E. destruct (GetOrCreate_ok _ _ _ _ _ Hok E) as (Hok' & <- & <- & <- & _). by apply IH.
Qed.

Lemma seconds_after t e : Second <= e -> t < seconds (t + e).
Proof. unfold seconds, Second, Millisecond. intros He. pose proof (Z.mod_pos_bound (t + e) (1000 * 1000000)). pose proof (Z.div_mod (t + e) (1000 * 1000000)). lia. Qed.

(** Whatever names were asked before and however the wall clock moved,
    the certificate handed out for a server name is a leaf for exactly that
    name, signed by the CA the proxy was started with and followed by it in
    the chain, with the private key handed out, not a CA itself, and not
    expired at the call, with a leaf lifetime of a second or more. *)
Theorem minted_leaf_matches ca key maxSize expiry c0 calls m domain cert c' :
  NewFromCA ca key maxSize expiry = Ok c0 -> Second <= expiry -> mo_check m <= mo_mint m ->
  GetOrCreate m domain (run calls c0) = (Ok cert, c') ->
  leaf_for c0 domain cert /\ caCert c0 = ca /\ caKey c0 = key /\ exists leaf, Leaf cert = Some leaf /\ mo_check m < NotAfter leaf.
Proof.
  intros Hn He Hm Hg. unfold NewFromCA in Hn. destruct (IsCA ca); cbn in Hn; [|done]. destruct (_ =? 0); [done|]. injection Hn as Hn.
  assert (cache_ok c0) as Hok by (rewrite <- Hn; intros d v Hd; cbn in Hd; by rewrite new_empty, lookup_empty in Hd).
  destruct (run_ok calls c0 Hok) as (Hok1 & Hcc & Hck & Hle).
  destruct (GetOrCreate_ok _ _ _ _ _ Hok1 Hg) as (_ & _ & _ & _ & Hv). destruct (Hv cert eq_refl) as (Hf & leaf & Hlf & Hvalid).
  split_and!; [unfold leaf_for in *; by rewrite Hcc, Hck in Hf | by rewrite <- Hn | by rewrite <- Hn |].
  exists leaf. split; [done|]. destruct Hvalid as [Hc|[_ ->]]; [done|].
  rewrite Hle, <- Hn. cbn. pose proof (seconds_after (mo_mint m) expiry He). lia.
Qed.

(** A CA key that is not the key of the CA certificate mints nothing. *)
Definition stranger (c : Cache) : Prop := PublicKey (caCert c) <> None /\ PublicKey (caCert c) <> Some (Public (caKey c)).

Lemma stranger_generate m domain c : stranger c -> exists e, generate m domain c = Err e.
Proof.
  intros [Hn Hk]. unfold generate, rbind. destruct (GenerateECDSA _); [|eauto]. destruct (rand_Int _); [|eauto].
  destruct (CreateCertificate _ _ _ _) eqn:Ec; [|eauto]. by apply created_by_parent in Ec as [Hc|Hc].
Qed.
Lemma stranger_GetOrCreate m domain c : stranger c -> contents (cache c) = ∅ ->
  exists e l, GetOrCreate m domain c = (Err e, set_cache c l) /\ contents l = ∅.
Proof.
  intros Hs He. unfold GetOrCreate. destruct (Get _ domain (cache c)) as [g l] eqn:Eg.
  destruct (Get_contents _ _ _ _ _ Eg) as [Hsub Hhit]. rewrite He in Hsub, Hhit.
  assert (contents l = ∅) as Hl by (apply (anti_symm (⊆)); [done | apply map_empty_subseteq]).
  destruct g as [hit|]; [by specialize (Hhit hit eq_refl)|]. unfold mint.
  destruct (stranger_generate m domain (set_cache c l) Hs) as [e ->]. eauto.
Qed.
Lemma stranger_never_mints c : stranger c -> contents (cache c) = ∅ ->
  forall calls m domain, exists e, (GetOrCreate m domain (run calls c)).1 = Err e.
Proof.
  intros Hs He calls. revert c Hs He. induction calls as [|[m0 d0] calls IH]; intros c Hs He m domain.
  - destruct (stranger_GetOrCreate m domain c Hs He) as (e & l & Hg & _). exists e. cbn. by rewrite Hg.
  - cbn. destruct (stranger_GetOrCreate m0 d0 c Hs He) as (e & l & -> & Hl). by apply IH.
Qed.
End cache.
End CertCache.

(** ** internal/cagen/cagen.go *)

Module CaGen.
Import CertCache.

Definition ParseAlgorithm (s : string) : option Algorithm :=
  if str_eqb s "rsa4096" then Some RSA4096 else if str_eqb s "ed25519" then Some Ed25519 else None.

Record Options := mkOptions { Name : string; ExpiryHours : Z; Alg : Algorithm }.

(** A product of [time.Duration]s at its width. *)
Definition int64 (n : Z) : Z := (n + 2 ^ 63) mod 2 ^ 64 - 2 ^ 63.

(** Files by path with their permissions, and what fails. *)
Record disk (P : Type) := mkDisk {
  files : gmap string (P * Z);
  mkdir_fails : string -> bool; open_fails : string -> bool; write_stops : string -> option nat }.
Arguments mkDisk {P}. Arguments files {P}. Arguments mkdir_fails {P}. Arguments open_fails {P}. Arguments write_stops {P}.

Inductive write_error := CreatingDir | Creating (path : string) | Writing (path : string).
Inductive command_error := BadAlgorithm | GenerateFailed (e : string) | WriteFailed (e : write_error).

Section cagen.
Context `{HX : X509}.

Record Result := mkResult { CertPEM : Pem; KeyPEM : Pem }.

Definition ca_template (serial : Z) (name : string) (now expiry : Z) : Certificate Pub Der :=
  mkCertificate serial name [] (now - Minute) (now + expiry) (Z.lor KeyUsageCertSign KeyUsageCRLSign) false true true 0 true None None.

Definition Generate (now : Z) (key_rand serial_rand : nat) (opts : Options) : result string Result :=
  let* signer := GenerateKey (Alg opts) key_rand in
  let* serial := rand_Int serial_rand in
  let template := ca_template serial (Name opts) now (int64 (ExpiryHours opts * Hour)) in
  let* certDER := CreateCertificate template template (Public signer) signer in
  let* keyDER := MarshalPKCS8 signer in
  Ok (mkResult (pem_Encode "CERTIFICATE" certDER) (pem_Encode "PRIVATE KEY" keyDER)).

Definition set_files (d : disk Pem) (m : gmap string (Pem * Z)) : disk Pem := mkDisk m (mkdir_fails d) (open_fails d) (write_stops d).
Definition ReadFile (d : disk Pem) (path : string) : option Pem := fst <$> files d !! path.

(** [O_CREATE|O_EXCL]: an existing file is an error and is left alone. *)
Definition writeExclusive (path : string) (data : Pem) (perm : Z) (d : disk Pem) : option write_error * disk Pem :=
  if open_fails d path then (Some (Creating path), d)
  else
    match files d !! path with
    | Some _ => (Some (Creating path), d)
    | None =>
      match write_stops d path with
      | Some n => (Some (Writing path), set_files d (<[path := (pem_prefix n data, perm)]> (files d)))
      | None => (None, set_files d (<[path := (data, perm)]> (files d)))
      end
    end.

(** [filepath.Join] of a directory and a name. *)
Definition filepath_Join (dir name : string) : string := if is_empty dir then path_Clean name else path_Clean (dir +:+ "/" +:+ name).

Definition WriteFiles (outdir : string) (r : Result) (d : disk Pem) : result write_error (string * string) * disk Pem :=
  if mkdir_fails d outdir then (Err CreatingDir, d)
  else
    let certPath := filepath_Join outdir "ca.crt" in
    match writeExclusive certPath (CertPEM r) 420 d with
    | (Some e, d) => (Err e, d)
    | (None, d) =>
      let keyPath := filepath_Join outdir "ca.key" in
      match writeExclusive keyPath (KeyPEM r) 384 d with
      | (Some e, d) => (Err e, d)
      | (None, d) => (Ok (certPath, keyPath), d)
      end
    end.

(** The command, its flags parsed. *)
Definition runGenerateCA (now : Z) (key_rand serial_rand : nat) (outdir name : string) (expiryHours : Z) (algStr : string) (d : disk Pem)
  : result command_error (string * string) * disk Pem :=
  match ParseAlgorithm algStr with
  | None => (Err BadAlgorithm, d)
  | Some alg =>
    match Generate now key_rand serial_rand (mkOptions name expiryHours alg) with
    | Err e => (Err (GenerateFailed e), d)
    | Ok r =>
      match WriteFiles outdir r d with
      | (Err e, d) => (Err (WriteFailed e), d)
      | (Ok paths, d) => (Ok paths, d)
      end
    end
  end.

(** ** What is written *)

Lemma writeExclusive_spec path data perm d e d' : writeExclusive path data perm d = (e, d') ->
  files d ⊆ files d' /\ mkdir_fails d' = mkdir_fails d /\ (e = None -> files d !! path = None /\ files d' = <[path := (data, perm)]> (files d)).
Proof.
  unfold writeExclusive. destruct (open_fails d path); [by intros [= <- <-]|].
  destruct (files d !! path) eqn:Ef; [by intros [= <- <-]|].
  destruct (write_stops d path); intros [= <- <-]; cbn; (split_and!; [by apply insert_subseteq | done | done]).
Qed.

Lemma WriteFiles_spec outdir r d res d' : WriteFiles outdir r d = (res, d') ->
  files d ⊆ files d' /\
  forall cp kp, res = Ok (cp, kp) -> files d' !! cp = Some (CertPEM r, 420) /\ files d' !! kp = Some (KeyPEM r, 384).
Proof.
  unfold WriteFiles. destruct (mkdir_fails d outdir); [by intros [= <- <-]|].
  destruct (writeExclusive _ (CertPEM r) _ d) as [[e|] d1] eqn:E1; destruct (writeExclusive_spec _ _ _ _ _ _ E1) as (Hs1 & _ & H1); [by intros [= <- <-]|].
  destruct (H1 eq_refl) as [_ Hf1]. destruct (writeExclusive _ (KeyPEM r) _ d1) as [[e|] d2] eqn:E2;
    destruct (writeExclusive_spec _ _ _ _ _ _ E2) as (Hs2 & _ & H2); intros [= <- <-]; (split; [by etrans|]); [done|].
  destruct (H2 eq_refl) as [Hn Hf2]. intros cp kp [= <- <-]. rewrite Hf2. split; [|apply lookup_insert_eq].
  rewrite lookup_insert_ne; [by rewrite Hf1, lookup_insert_eq|]. intros Heq. rewrite Heq, Hf1, lookup_insert_eq in Hn. done.
Qed.

Context {HXL : X509Laws} {HL : LRU (tls_Certificate Key Pub Der)} {HLL : LRULaws (tls_Certificate Key Pub Der)}.

(** What a generated CA is: a self-signed CA certificate and its key. *)
Lemma Generate_spec now kr sr opts r : Generate now kr sr opts = Ok r ->
  exists key cder kder ca, CertPEM r = pem_Encode "CERTIFICATE" cder /\ KeyPEM r = pem_Encode "PRIVATE KEY" kder /\
    ParseCertificate cder = Ok ca /\ ParsePKCS8 kder = Ok key /\ is_signer key = true /\ PublicKey ca = Some (Public key) /\
    IsCA ca = true /\ KeyUsage ca = 96 /\ CommonName ca = Name opts /\ NotAfter ca = seconds (now + int64 (ExpiryHours opts * Hour)).
Proof.
  unfold Generate, rbind. destruct (GenerateKey _ kr) as [key|] eqn:Ek; [|done]. destruct (rand_Int sr); [|done].
  destruct (CreateCertificate _ _ _ _) as [cder|] eqn:Ec; [|done]. destruct (MarshalPKCS8 key) as [kder|] eqn:Em; [|done].
  intros [= <-]. destruct (created_parses _ _ _ _ _ Ec) as (ca & Hp & _ & Hpk & Hcn & _ & _ & Hna & Hku & _ & Hca & _).
  exists key, cder, kder, ca. split_and!; try done; [by apply pkcs8_roundtrip | by eapply generated_signs].
Qed.

(** C36: A CA that generate-ca reports written is one the proxy starts with:
    the two files hold the new certificate and key, loading them gives a CA
    certificate for that key, and nothing that was on the disk has changed,
    whatever the command reports. *)
Theorem generated_ca_accepted now kr sr outdir name hours algStr d res d' maxSize expiry :
  runGenerateCA now kr sr outdir name hours algStr d = (res, d') ->
  files d ⊆ files d' /\
  forall cp kp, res = Ok (cp, kp) ->
    exists c, New (ReadFile d') cp kp maxSize expiry = Ok c /\ PublicKey (caCert c) = Some (Public (caKey c)) /\ CommonName (caCert c) = name.
Proof.
  unfold runGenerateCA. destruct (ParseAlgorithm algStr) as [alg|]; [|by intros [= <- <-]].
  destruct (Generate _ _ _ _) as [r|e] eqn:Eg; [|by intros [= <- <-]].
  destruct (WriteFiles outdir r d) as [w d1] eqn:Ew. destruct (WriteFiles_spec _ _ _ _ _ Ew) as [Hsub Hw].
  destruct w as [paths|e]; intros [= <- <-]; (split; [done|]); [|done]. intros cp kp [= ->].
  destruct (Hw cp kp eq_refl) as [Hc Hk]. destruct (Generate_spec _ _ _ _ _ Eg) as (key & cder & kder & ca & HC & HK & Hp & Hpk & Hs & Hpub & Hca & Hku & Hcn & _).
  unfold New, loadCA, ReadFile. rewrite Hc, Hk. cbn [fmap option_fmap option_map fst]. rewrite HC, HK, !pem_roundtrip, Hp.
  unfold parse_key. rewrite Hpk, Hs. cbn [rbind fst snd]. unfold NewFromCA. rewrite Hca, Hku. cbn. eauto.
Qed.

(** With a key of an earlier CA and no certificate beside it, the command
    fails but leaves its certificate; the proxy starts with the pair, and no
    handshake it terminates ever gets a certificate. *)
Theorem failed_generation_breaks_tls now kr sr outdir name hours alg d old okder okey r maxSize expiry :
  Generate now kr sr (mkOptions name hours alg) = Ok r ->
  mkdir_fails d outdir = false -> (forall p, open_fails d p = false) -> (forall p, write_stops d p = None) ->
  let certPath := filepath_Join outdir "ca.crt" in let keyPath := filepath_Join outdir "ca.key" in
  certPath <> keyPath -> files d !! certPath = None -> files d !! keyPath = Some old ->
  pem_Decode old.1 = Some okder -> ParsePKCS8 okder = Ok okey -> is_signer okey = true ->
  (forall ca cder, pem_Decode (CertPEM r) = Some cder -> ParseCertificate cder = Ok ca -> PublicKey ca <> Some (Public okey)) ->
  exists d' c, WriteFiles outdir r d = (Err (Creating keyPath), d') /\ New (ReadFile d') certPath keyPath maxSize expiry = Ok c /\
    forall calls m domain, exists e, (GetOrCreate m domain (run calls c)).1 = Err e.
Proof.
  intros Hg Hmk Hop Hws certPath keyPath Hne Hnone Hold Hdec Hparse Hsig Hdiff.
  destruct (Generate_spec _ _ _ _ _ Hg) as (key & cder & kder & ca & HC & HK & Hp & Hpk & Hs & Hpub & Hca & Hku & _).
  set (d1 := set_files d (<[certPath := (CertPEM r, 420)]> (files d))).
  exists d1, (mkCache ca okey expiry (NewLRU maxSize expiry)).
  assert (files d1 !! keyPath = Some old) as Hk1 by (unfold d1; cbn; by rewrite lookup_insert_ne).
  split_and!.
  - unfold WriteFiles. rewrite Hmk. fold certPath keyPath. unfold writeExclusive at 1. rewrite Hop, Hnone, Hws. fold d1.
    unfold writeExclusive. replace (open_fails d1 keyPath) with false by (symmetry; apply Hop). by rewrite Hk1.
  - unfold New, loadCA, ReadFile. rewrite Hk1. unfold d1. cbn [files set_files]. rewrite lookup_insert_eq. cbn [fmap option_fmap option_map fst].
    rewrite HC, pem_roundtrip, Hp, Hdec. unfold parse_key. rewrite Hparse, Hsig. cbn [rbind fst snd]. unfold NewFromCA. by rewrite Hca, Hku.
  - apply stranger_never_mints; [|cbn; apply new_empty]. split; cbn; [by rewrite Hpub|].
    apply (Hdiff ca cder); [by rewrite HC, pem_roundtrip | done].
Qed.
End cagen.
End CaGen.

(** ** A concrete library *)

Module CertExamples.
Import CertCache CaGen.

(** Keys are numbers and their own public halves; an encoding is what it encodes. *)
Inductive demo_der := DerCert (serial : Z) (cn : string) (names : list string) (nb na ku : Z) (sa ca : bool) (pub signer : Z) | DerKey (k : Z).
Definition demo_parse (d : demo_der) : result string (Certificate Z demo_der) :=
  match d with
  | DerCert serial cn names nb na ku sa ca pub signer => Ok (mkCertificate serial cn names nb na ku sa ca ca 0 false (Some pub) (Some d))
  | DerKey _ => Err "not a certificate"
  end.
Definition demo_create (t parent : Certificate Z demo_der) (pub key : Z) : result string demo_der :=
  if match PublicKey parent with Some p => p =? key | None => true end
  then Ok (DerCert (SerialNumber t) (CommonName t) (DNSNames t) (seconds (NotBefore t)) (seconds (NotAfter t)) (KeyUsage t) (ServerAuth t)
             (IsCA t && BasicConstraintsValid t) pub key)
  else Err "provided PrivateKey does not match parent's PublicKey".
Definition demo_key (d : demo_der) : result string Z := match d with DerKey k => Ok k | _ => Err "not a key" end.
Definition demo_x509 : X509 := {|
  Key := Z; Pub := Z; Der := demo_der; Pem := option demo_der;
  Public := fun k => k; is_signer := fun _ => true;
  GenerateKey := fun _ seed => Ok (Z.of_nat seed); GenerateECDSA := fun seed => Ok (Z.of_nat seed); rand_Int := fun seed => Ok (Z.of_nat seed);
  CreateCertificate := demo_create; ParseCertificate := demo_parse;
  CheckSignature := fun d p => match d with DerCert _ _ _ _ _ _ _ _ _ s => s =? p | _ => false end;
  MarshalPKCS8 := fun k => Ok (DerKey k); ParsePKCS8 := demo_key; ParsePKCS1 := fun _ => Err "not PKCS1"; ParseEC := fun _ => Err "not EC";
  pem_Encode := fun _ d => Some d; pem_Decode := fun p => p; pem_prefix := fun _ _ => None |}.

Lemma demo_create_spec (t parent : Certificate Z demo_der) pub key der : demo_create t parent pub key = Ok der ->
  der = DerCert (SerialNumber t) (CommonName t) (DNSNames t) (seconds (NotBefore t)) (seconds (NotAfter t)) (KeyUsage t) (ServerAuth t)
          (IsCA t && BasicConstraintsValid t) pub key /\ (PublicKey parent = None \/ PublicKey parent = Some key).
Proof.
  unfold demo_create. destruct (PublicKey parent) as [p|]; [destruct (p =? key) eqn:E; [|done]; apply Z.eqb_eq in E as ->|]; intros [= <-]; eauto.
Qed.
Lemma demo_x509_laws : @X509Laws demo_x509.
Proof.
  split.
  - intros t parent pub key der Hc. apply demo_create_spec in Hc as [-> _]. eexists. split; [reflexivity|]. cbn. split_and!; try done. apply Z.eqb_refl.
  - intros t parent pub key der Hc. by apply demo_create_spec in Hc as [_ Hc].
  - by intros key der [= <-].
  - done.
  - done.
Qed.

(** A cache that keeps everything. *)
Definition demo_lru (V : Type) : LRU V := {|
  lru := gmap string V; NewLRU := fun _ _ => ∅; Get := fun _ k l => (l !! k, l); Add := fun _ k v l => <[k := v]> l;
  Remove := fun k l => delete k l; contents := fun l => l |}.
Lemma demo_lru_laws V : @LRULaws V (demo_lru V).
Proof. split; try done. by intros now k l v l' [= <- <-]. Qed.

Definition demo_disk : disk (option demo_der) := mkDisk ∅ (fun _ => false) (fun _ => false) (fun _ => None).
Definition demo_ca := runGenerateCA (HX := demo_x509) 0 7 1 "out" "iron-proxy CA" 8760 "ed25519" demo_disk.

Lemma generated_ca_accepted_witness :
  exists c, New (HX := demo_x509) (HL := demo_lru _) (ReadFile (HX := demo_x509) demo_ca.2) "out/ca.crt" "out/ca.key" 10 Hour = Ok c.
Proof.
  destruct demo_ca as [res d'] eqn:E.
  destruct (generated_ca_accepted (HX := demo_x509) (HXL := demo_x509_laws) (HL := demo_lru _) 0 7 1 "out" "iron-proxy CA" 8760 "ed25519" demo_disk res d' 10 Hour E) as [_ Hc].
  destruct (Hc "out/ca.crt" "out/ca.key") as (c & Hnew & _); [|exists c; exact Hnew].
  change res with (res, d').1. rewrite <- E. vm_compute. reflexivity.
Defined.

Definition demo_cert : Certificate Z demo_der :=
  match demo_parse (DerCert 1 "iron-proxy CA" [] 0 (Hour * 8760) 96 false true 7 7) with Ok c => c | Err _ => ca_template (HX := demo_x509) 0 "" 0 0 end.
Definition demo_moment (now : Z) : moment := mkMoment now now now 3 4.
Definition demo_cache : Cache (HX := demo_x509) (HL := demo_lru _) := mkCache (HX := demo_x509) (HL := demo_lru _) demo_cert 7 Hour ∅.
Definition demo_calls : list (moment * string) := [(demo_moment 0, "example.com")].
Definition demo_answer := GetOrCreate (HX := demo_x509) (HL := demo_lru _) (demo_moment (Hour * 2)) "example.com" (run demo_calls demo_cache).
Lemma demo_answer_ok : match demo_answer.1 with Ok _ => true | Err _ => false end = true.
Proof. vm_compute. reflexivity. Qed.
Lemma minted_leaf_matches_witness :
  match demo_answer.1 with Ok cert => leaf_for demo_cache "example.com" cert | Err _ => False end.
Proof.
  pose proof demo_answer_ok as Hok. destruct demo_answer as [[cert|e] c'] eqn:E; [|discriminate Hok].
  exact (proj1 (minted_leaf_matches (HX := demo_x509) (HL := demo_lru _) (HXL := demo_x509_laws) (HLL := demo_lru_laws _)
            demo_cert 7 10 Hour demo_cache demo_calls (demo_moment (Hour * 2)) "example.com" cert c'
            eq_refl ltac:(vm_compute; discriminate) ltac:(vm_compute; discriminate) E)).
Defined.

(** The key of an earlier CA is still there. *)
Definition stale_disk : disk (option demo_der) := mkDisk {["out/ca.key" := (Some (DerKey 5), 384)]} (fun _ => false) (fun _ => false) (fun _ => None).
Definition demo_result : Result (HX := demo_x509) := @mkResult demo_x509 (Some (DerCert 1 "iron-proxy CA" [] (seconds (- Minute)) (seconds (Hour * 8760)) 96 false true 7 7)) (Some (DerKey 7)).
Lemma failed_generation_breaks_tls_witness :
  exists d' c, WriteFiles (HX := demo_x509) "out" demo_result stale_disk = (Err (Creating "out/ca.key"), d') /\
    New (HX := demo_x509) (HL := demo_lru _) (ReadFile (HX := demo_x509) d') "out/ca.crt" "out/ca.key" 10 Hour = Ok c /\
    forall calls m domain, exists e, (GetOrCreate m domain (run calls c)).1 = Err e.
Proof.
  apply (failed_generation_breaks_tls (HX := demo_x509) (HL := demo_lru _) (HXL := demo_x509_laws) (HLL := demo_lru_laws _)
           0 7 1 "out" "iron-proxy CA" 8760 Ed25519 stale_disk (Some (DerKey 5), 384) (DerKey 5) 5 demo_result 10 Hour);
    try reflexivity; try (vm_compute; discriminate).
  intros ca cder [= <-] [= <-]. discriminate.
Defined.
End CertExamples.
