(* ===== verification/GrpcTransform.v ===== *)
(** * The gRPC transform (src/internal/transform/grpc/grpc.go)

    A transform that asks an external TransformService what to do with a
    request or a response: its construction, the conversions to and from the
    protobuf messages, and both handlers.  The service, structpb, TLS files
    and grpc.NewClient are parameters. *)
From stdpp Require Import base gmap strings list option.
From Stdlib Require Import ZArith Lia Ascii.
From S2P Require Import Prelude GoUtf8 GoStrings GoNet Body GoHttp GoUrl GoJson HostMatch Transform.
Local Open Scope string_scope.
Local Open Scope list_scope.
Local Open Scope Z_scope.

Module Grpc.

(** ** The messages (gen/transform/v1)

    A bytes field is nil or a slice; a message field is nil or a message. *)

Definition HeaderMap := gmap string (list string).
Record HttpRequest := mkHttpRequest {
  pb_Method : string; pb_Url : string; pb_Headers : HeaderMap; pb_Body : option (list Z); pb_Host : string; pb_RemoteAddr : string }.
Record HttpResponse := mkHttpResponse { pb_StatusCode : Z; pb_RespHeaders : HeaderMap; pb_RespBody : option (list Z) }.
Inductive pb_action := ActionUnspecified | ActionContinue_ | ActionReject_ | ActionOther (n : Z).

Section messages.
Context {Value : Type}.
Record TunnelRequestTransform := mkTunnelTransform { tt_Name : string; tt_Annotations : option (gmap string Value) }.
Record pb_TunnelInfo := mkPbTunnel { pt_Target : string; pt_RequestTransforms : list TunnelRequestTransform }.
Record pb_Context := mkPbContext { pc_Sni : string; pc_ClientCertDer : list Z; pc_Tunnel : option pb_TunnelInfo }.
End messages.
Arguments TunnelRequestTransform : clear implicits. Arguments pb_TunnelInfo : clear implicits. Arguments pb_Context : clear implicits.

Record RequestVerdict := mkRequestVerdict {
  rv_Action : pb_action; rv_Response : option HttpResponse; rv_ModifiedRequest : option HttpRequest; rv_Annotations : gmap string string }.
Record ResponseVerdict := mkResponseVerdict {
  sv_Action : pb_action; sv_ModifiedResponse : option HttpResponse; sv_Annotations : gmap string string }.

(** What standard proto3 encoders put on the wire: an empty bytes field is not sent. *)
Definition wire_bytes (b : option (list Z)) : option (list Z) := match b with Some [] => None | _ => b end.
Definition wire_request (p : HttpRequest) : HttpRequest :=
  mkHttpRequest (pb_Method p) (pb_Url p) (pb_Headers p) (wire_bytes (pb_Body p)) (pb_Host p) (pb_RemoteAddr p).

(** ** Configuration *)

Record tlsConfig := mkTLS { tls_Enabled : bool; tls_CACert : string; tls_Cert : string; tls_Key : string }.
Record grpcConfig := mkGrpcConfig {
  g_Name : string; g_Target : string; g_TLS : tlsConfig; g_SendRequestBody : bool; g_SendResponseBody : bool; g_Rules : list RuleConfig }.

Inductive grpc_error :=
  | NameRequired | TargetRequired | ReadingCA (e : string) | NoCertificates | CertAndKeyRequired | BadKeyPair (e : string)
  | BadRules (e : nat * rule_error) | NewClientFailed (e : string).

(** The credentials of the connection: plaintext, or TLS with optional roots
    and an optional client certificate. *)
Inductive credentials (Pool Pair : Type) := Insecure | TLS (roots : option Pool) (cert : option Pair).
Arguments Insecure {Pool Pair}. Arguments TLS {Pool Pair} _ _.

Record GRPCTransform (Conn : Type) := mkGRPC {
  name : string; sendRequestBody : bool; sendResponseBody : bool; rules : list Rule; conn : Conn }.
Arguments mkGRPC {Conn}. Arguments name {Conn}. Arguments sendRequestBody {Conn}. Arguments sendResponseBody {Conn}.
Arguments rules {Conn}. Arguments conn {Conn}.

Section construction.
Context `{UnicodeTables} {Pem Pool Pair Conn : Type}.
Variable ReadFile : string -> result string Pem.
Variable AppendCertsFromPEM : Pem -> option Pool.
Variable LoadX509KeyPair : string -> string -> result string Pair.
Variable NewClient : string -> credentials Pool Pair -> result string Conn.

Definition root_pool (cfg : tlsConfig) : result grpc_error (option Pool) :=
  if is_empty (tls_CACert cfg) then Ok None
  else
    match ReadFile (tls_CACert cfg) with
    | Err e => Err (ReadingCA e)
    | Ok pem => match AppendCertsFromPEM pem with Some pool => Ok (Some pool) | None => Err NoCertificates end
    end.
Definition client_pair (cfg : tlsConfig) : result grpc_error (option Pair) :=
  if is_empty (tls_Cert cfg) && is_empty (tls_Key cfg) then Ok None
  else if is_empty (tls_Cert cfg) || is_empty (tls_Key cfg) then Err CertAndKeyRequired
  else match LoadX509KeyPair (tls_Cert cfg) (tls_Key cfg) with Ok p => Ok (Some p) | Err e => Err (BadKeyPair e) end.
Definition buildTransportCredentials (cfg : tlsConfig) : result grpc_error (credentials Pool Pair) :=
  if negb (tls_Enabled cfg) then Ok Insecure
  else let* pool := root_pool cfg in let* cert := client_pair cfg in Ok (TLS pool cert).

Definition newGRPCTransform (cfg : grpcConfig) : result grpc_error (GRPCTransform Conn) :=
  let* creds := buildTransportCredentials (g_TLS cfg) in
  match CompileRules (g_Rules cfg) with
  | Err e => Err (BadRules e)
  | Ok rules =>
    match NewClient (g_Target cfg) creds with
    | Err e => Err (NewClientFailed e)
    | Ok conn => Ok (mkGRPC (g_Name cfg) (g_SendRequestBody cfg) (g_SendResponseBody cfg) rules conn)
    end
  end.
Definition factory (cfg : grpcConfig) : result grpc_error (GRPCTransform Conn) :=
  if is_empty (g_Name cfg) then Err NameRequired
  else if is_empty (g_Target cfg) then Err TargetRequired
  else newGRPCTransform cfg.
End construction.

(** ** Conversions *)

(** [URL.String], also of the relative URL of a proxied request. *)
Definition url_text (u : URL) : string :=
  if is_empty (Scheme u) && is_empty (URLHost u) && bool_decide (UserInfo u = None) then
    let path := EscapedPath u in
    (if Contains (cut_or path "/").1 ":" then "./" else "") +:+ path +:+ query_part false (RawQuery u)
  else url_String u.

Definition int32 (n : Z) : Z := (n + 2 ^ 31) mod 2 ^ 32 - 2 ^ 31.

Definition headersToProto (h : Header) : HeaderMap := h.
Definition protoToHeaders (h : HeaderMap) : Header := h.

Definition protoToHTTPResponse (pb : HttpResponse) : Response :=
  mkResponse (if pb_StatusCode pb =? 0 then 403 else pb_StatusCode pb) (protoToHeaders (pb_RespHeaders pb))
    (BufferedBody.NewBufferedBodyFromBytes (default [] (pb_RespBody pb))) 0.

Section modified.
Context `{UnicodeTables}.
Definition modified_url (pb : HttpRequest) (u : URL) : URL :=
  if is_empty (pb_Url pb) then u else match url_Parse (pb_Url pb) with Some p => p_url p | None => u end.
Definition applyModifiedRequest (pb : HttpRequest) (req : Request) : Request :=
  let method := if is_empty (pb_Method pb) then Method req else pb_Method pb in
  let host := if is_empty (pb_Host pb) then ReqHost req else pb_Host pb in
  let header := if (0 <? size (pb_Headers pb))%nat then protoToHeaders (pb_Headers pb) else ReqHeader req in
  let '(body, length) :=
    match pb_Body pb with
    | Some b => (BufferedBody.NewBufferedBodyFromBytes b, Z.of_nat (List.length b))
    | None => (ReqBody req, ReqContentLength req)
    end in
  mkRequest method host (modified_url pb (ReqURL req)) header body length (ReqTLS req).
End modified.

Definition applyModifiedResponse (pb : HttpResponse) (resp : Response) : Response :=
  mkResponse (if pb_StatusCode pb =? 0 then StatusCode resp else pb_StatusCode pb)
    (if (0 <? size (pb_RespHeaders pb))%nat then protoToHeaders (pb_RespHeaders pb) else RespHeader resp)
    (match pb_RespBody pb with Some b => BufferedBody.NewBufferedBodyFromBytes b | None => RespBody resp end)
    (RespContentLength resp).

(** ** The handlers *)

Section handlers.
Context `{UnicodeTables} {C Conn Value : Type}.
Variable NewValue : any -> option Value.
(** The two calls of the service, each answered or failed. *)
Variable rpc_TransformRequest : Conn -> pb_Context Value * HttpRequest -> result string RequestVerdict.
Variable rpc_TransformResponse : Conn -> pb_Context Value * HttpRequest * HttpResponse -> result string ResponseVerdict.
(** The client of the request: its address and certificate. *)
Variable remoteAddr : string.
Variable clientCert : option (list Z).

Definition annotationsToStruct (a : option Annotations) : option (gmap string Value) :=
  let fields := omap NewValue (default ∅ a) in
  if (size fields =? 0)%nat then None else Some fields.
Definition tunnelTransformsToProto (traces : list TransformTrace) : list (TunnelRequestTransform Value) :=
  map (fun tr => mkTunnelTransform (tr_Name tr) (annotationsToStruct (tr_Annotations tr))) traces.
Definition transformContextToProto (tctx : TransformContext) : pb_Context Value :=
  mkPbContext (SNI tctx) (default [] clientCert)
    ((fun t => mkPbTunnel (Target t) (tunnelTransformsToProto (TunnelTransforms t))) <$> Tunnel tctx).

(** [readBody]: [None] is the panic of reading a body that was handed out. *)
Definition readBody (b : BufferedBody.t) : option (result string (list Z) * BufferedBody.t) :=
  match BufferedBody.ReadAll b with
  | (BufferedBody.GotBytes d, b) => Some (Ok d, b)
  | (BufferedBody.GotErr e, b) => Some (Err e, b)
  | (BufferedBody.GotEOF, b) => Some (Ok [], b)
  | (BufferedBody.Panics, _) => None
  end.
Definition sent_body (sendBody : bool) (b : BufferedBody.t) : option (result string (option (list Z)) * BufferedBody.t) :=
  if sendBody then
    match readBody b with
    | None => None
    | Some (Err e, b) => Some (Err e, b)
    | Some (Ok d, b) => Some (Ok (Some d), b)
    end
  else Some (Ok None, b).

Definition httpRequestToProto (req : Request) (sendBody : bool) : option (result string HttpRequest * Request) :=
  match sent_body sendBody (ReqBody req) with
  | None => None
  | Some (Err e, b) => Some (Err e, set_ReqBody req b)
  | Some (Ok body, b) =>
    Some (Ok (mkHttpRequest (Method req) (url_text (ReqURL req)) (headersToProto (ReqHeader req)) body (ReqHost req) remoteAddr), set_ReqBody req b)
  end.
Definition httpResponseToProto (resp : Response) (sendBody : bool) : option (result string HttpResponse * Response) :=
  match sent_body sendBody (RespBody resp) with
  | None => None
  | Some (Err e, b) => Some (Err e, set_RespBody resp b)
  | Some (Ok body, b) => Some (Ok (mkHttpResponse (int32 (StatusCode resp)) (headersToProto (RespHeader resp)) body), set_RespBody resp b)
  end.

Definition annotate_all (l : list (string * string)) (tctx : TransformContext) : TransformContext :=
  fold_left (fun t kv => Annotate t (fst kv) (AStr (snd kv))) l tctx.

Definition failed (g : GRPCTransform Conn) (what e : string) : string :=
  "grpc transform " +:+ strconv_Quote (name g) +:+ ": " +:+ what +:+ ": " +:+ e.

Definition skips (g : GRPCTransform Conn) (req : Request) : bool := (0 <? length (rules g))%nat && negb (MatchAnyRule (rules g) req).

(** What the verdict on a request does. *)
Definition apply_request_verdict (v : RequestVerdict) (s : ReqState C) : TransformResult * ReqState C :=
  match rv_Action v with
  | ActionReject_ => (mkResult ActionReject (protoToHTTPResponse <$> rv_Response v), s)
  | _ => (continue_result, match rv_ModifiedRequest v with Some pb => with_req s (applyModifiedRequest pb (rq s)) | None => s end)
  end.
Definition TransformRequest (g : GRPCTransform Conn) (tctx : TransformContext) (s : ReqState C)
  : option (result string TransformResult * TransformContext * ReqState C) :=
  if skips g (rq s) then Some (Ok continue_result, tctx, s)
  else
    match httpRequestToProto (rq s) (sendRequestBody g) with
    | None => None
    | Some (Err e, req) => Some (Err (failed g "marshaling request" e), tctx, with_req s req)
    | Some (Ok pbReq, req) =>
      match rpc_TransformRequest (conn g) (transformContextToProto tctx, pbReq) with
      | Err e => Some (Err (failed g "TransformRequest" e), tctx, with_req s req)
      | Ok v =>
        let '(res, s) := apply_request_verdict v (with_req s req) in
        Some (Ok res, annotate_all (map_to_list (rv_Annotations v)) tctx, s)
      end
    end.

Definition apply_response_verdict (v : ResponseVerdict) (resp : Response) : TransformResult * Response :=
  match sv_Action v with
  | ActionReject_ => (mkResult ActionReject (protoToHTTPResponse <$> sv_ModifiedResponse v), resp)
  | _ => (continue_result, match sv_ModifiedResponse v with Some pb => applyModifiedResponse pb resp | None => resp end)
  end.
Definition TransformResponse (g : GRPCTransform Conn) (tctx : TransformContext) (s : ReqState C) (resp : Response)
  : option (result string TransformResult * TransformContext * ReqState C * Response) :=
  if skips g (rq s) then Some (Ok continue_result, tctx, s, resp)
  else
    match httpRequestToProto (rq s) (sendRequestBody g) with
    | None => None
    | Some (Err e, req) => Some (Err (failed g "marshaling request" e), tctx, with_req s req, resp)
    | Some (Ok pbReq, req) =>
      match httpResponseToProto resp (sendResponseBody g) with
      | None => None
      | Some (Err e, resp) => Some (Err (failed g "marshaling response" e), tctx, with_req s req, resp)
      | Some (Ok pbResp, resp) =>
        match rpc_TransformResponse (conn g) (transformContextToProto tctx, pbReq, pbResp) with
        | Err e => Some (Err (failed g "TransformResponse" e), tctx, with_req s req, resp)
        | Ok v =>
          let '(res, resp) := apply_response_verdict v resp in
          Some (Ok res, annotate_all (map_to_list (sv_Annotations v)) tctx, with_req s req, resp)
        end
      end
    end.

(** ** What the service decides *)

Lemma readBody_spec b d e : BufferedBody.view b = Some (d, e) -> BufferedBody.pos b = 0%nat ->
  exists b', readBody b = Some (match e with Some x => Err x | None => Ok d end, b') /\ (e = None -> BufferedBody.view b' = Some (d, None)).
Proof.
  unfold BufferedBody.view, readBody, BufferedBody.ReadAll, BufferedBody.buffer. intros Hv Hpos.
  destruct (BufferedBody.once b) eqn:Eo.
  - injection Hv as <- <-. rewrite Hpos, drop_0. cbn. eexists. split; [done|]. by rewrite Eo.
  - destruct (BufferedBody.original b) as [r|]; [|done]. injection Hv as <- <-. unfold BufferedBody.limited.
    destruct (rd_err _) as [x|] eqn:Er; cbn; [eexists; by split|]. rewrite Hpos, drop_0. eexists. by split.
Qed.

(** The request the service is shown. *)
Definition shown (g : GRPCTransform Conn) (req : Request) (d : list Z) : HttpRequest :=
  mkHttpRequest (Method req) (url_text (ReqURL req)) (headersToProto (ReqHeader req)) (if sendRequestBody g then Some d else None) (ReqHost req) remoteAddr.

Lemma httpRequestToProto_spec g req d e : BufferedBody.view (ReqBody req) = Some (d, e) -> BufferedBody.pos (ReqBody req) = 0%nat ->
  exists b', BufferedBody.view b' = Some (d, if sendRequestBody g then None else e) /\
    httpRequestToProto req (sendRequestBody g) = Some (Ok (shown g req d), set_ReqBody req b') \/
  exists x, sendRequestBody g = true /\ e = Some x /\ httpRequestToProto req (sendRequestBody g) = Some (Err x, set_ReqBody req b').
Proof.
  intros Hv Hp. unfold httpRequestToProto, sent_body, shown. destruct (sendRequestBody g).
  - destruct (readBody_spec _ _ _ Hv Hp) as (b' & Hr & Hv'). exists b'. rewrite Hr. destruct e as [x|]; [right; by exists x | left; split; [by apply Hv' | done]].
  - exists (ReqBody req). by left.
Qed.

(** The gRPC transform fails closed and does what the service says.  A
    request its rules select, with a body nothing has taken yet, never
    panics; it continues or is rejected only on an answer of the service to
    exactly this request (with its whole body when bodies are sent), a reject
    is a reject with the response of the service, and a continued request is
    the one shown with the changes of the service applied; a body that cannot
    be read and a call that fails are errors, which refuse the request. *)
Theorem grpc_request_judged g tctx s d e :
  skips g (rq s) = false -> BufferedBody.view (ReqBody (rq s)) = Some (d, e) -> BufferedBody.pos (ReqBody (rq s)) = 0%nat ->
  exists r tctx' s', TransformRequest g tctx s = Some (r, tctx', s') /\
    match r with
    | Err _ => (sendRequestBody g = true /\ e <> None) \/ exists x, rpc_TransformRequest (conn g) (transformContextToProto tctx, shown g (rq s) d) = Err x
    | Ok res =>
      exists v b', rpc_TransformRequest (conn g) (transformContextToProto tctx, shown g (rq s) d) = Ok v /\
        BufferedBody.view b' = Some (d, if sendRequestBody g then None else e) /\
        match rv_Action v with
        | ActionReject_ => res = mkResult ActionReject (protoToHTTPResponse <$> rv_Response v)
        | _ => res = continue_result /\
               rq s' = default (set_ReqBody (rq s) b') ((fun pb => applyModifiedRequest pb (set_ReqBody (rq s) b')) <$> rv_ModifiedRequest v)
        end
    end.
Proof.
  intros Hs Hv Hp. unfold TransformRequest. rewrite Hs.
  destruct (httpRequestToProto_spec g (rq s) d e Hv Hp) as (b' & [[Hb ->]|(x & Hsb & -> & ->)]).
  - destruct (rpc_TransformRequest (conn g) _) as [v|x] eqn:Er.
    + destruct (apply_request_verdict v _) as [res s'] eqn:Ea. eexists _, _, _. split; [done|]. exists v, b'. split_and!; [done | done |].
      unfold apply_request_verdict in Ea. destruct (rv_Action v); injection Ea as <- <-; try done; (split; [done|]); by destruct (rv_ModifiedRequest v).
    + eexists _, _, _. split; [done|]. right. by exists x.
  - eexists _, _, _. split; [done|]. by left.
Qed.

(** On the way back the request is shown again; when its body went upstream
    unread and bodies are sent, reading it panics. *)
Theorem streamed_body_panics g tctx s resp :
  skips g (rq s) = false -> sendRequestBody g = true ->
  BufferedBody.once (ReqBody (rq s)) = false -> BufferedBody.original (ReqBody (rq s)) <> None ->
  TransformResponse g tctx (with_req s (set_ReqBody (rq s) (BufferedBody.StreamingReader (ReqBody (rq s))).2)) resp = None.
Proof.
  intros Hs Hsb Ho Hor. unfold TransformResponse. replace (skips g _) with false by (rewrite <- Hs; done).
  unfold httpRequestToProto, sent_body, readBody, BufferedBody.ReadAll, BufferedBody.buffer. rewrite Hsb. cbn.
  unfold BufferedBody.StreamingReader. destruct (BufferedBody.original (ReqBody (rq s))); [|done]. cbn. by rewrite Ho.
Qed.

(** What the service cannot say: an answer whose request has no headers and an
    empty body forwards the headers and the body it wanted removed, and a URL
    that does not parse forwards the old one. *)
Theorem modified_request_cannot_strip pb (req : Request) :
  pb_Headers pb = ∅ -> pb_Body pb = Some [] -> url_Parse (pb_Url pb) = None ->
  let req' := applyModifiedRequest (wire_request pb) req in
  ReqHeader req' = ReqHeader req /\ ReqBody req' = ReqBody req /\ ReqURL req' = ReqURL req.
Proof.
  intros Hh Hb Hu. unfold applyModifiedRequest, wire_request, modified_url. cbn. rewrite Hh, Hb. cbn. rewrite Hu. by destruct (is_empty _).
Qed.
End handlers.

(** ** Concrete runs *)

Section examples.
Local Existing Instance ascii_tables.
Definition no_value (v : any) : option unit := Some ().
(** A service that refuses requests with a body and moves the others. *)
Definition example_service (_ : unit) (call : pb_Context unit * HttpRequest) : result string RequestVerdict :=
  match pb_Body (snd call) with
  | Some (_ :: _) => Ok (mkRequestVerdict ActionReject_ (Some (mkHttpResponse 0 ∅ None)) None ∅)
  | _ => Ok (mkRequestVerdict ActionUnspecified None (Some (mkHttpRequest "" "/new" ∅ None "" "")) ∅)
  end.
Definition example_transform (paths : list string) : GRPCTransform unit :=
  match CompileRules [mkRuleConfig "example.com" "" [] paths []] with Ok rs => mkGRPC "judge" true false rs () | Err _ => mkGRPC "judge" true false [] () end.
Definition example_request (path : string) : ReqState unit :=
  mkReqState (mkRequest "POST" "example.com" (mkURL "" None "" path "" "") ∅ (BufferedBody.NewBufferedBody (Some (mkReader [1; 2] None)) 0) 2 false) ().
Definition example_context : TransformContext := mkContext "" ModeMITM None false None None.

Lemma grpc_request_judged_witness :
  exists r tctx' s', TransformRequest no_value example_service "10.0.0.2:1" None (example_transform ["/new"]) example_context (example_request "/new") = Some (r, tctx', s') /\
    r = Ok (mkResult ActionReject (Some (mkResponse 403 ∅ (BufferedBody.NewBufferedBodyFromBytes []) 0))).
Proof.
  destruct (grpc_request_judged no_value example_service "10.0.0.2:1" None (example_transform ["/new"]) example_context (example_request "/new") [1; 2] None
              ltac:(vm_compute; reflexivity) ltac:(vm_compute; reflexivity) ltac:(vm_compute; reflexivity)) as (r & t' & s' & Heq & Hr).
  exists r, t', s'. split; [exact Heq|]. destruct r as [res|x].
  - destruct Hr as (v & b' & Hv & _ & Hres). vm_compute in Hv. injection Hv as <-. exact (f_equal Ok Hres).
  - exfalso. destruct Hr as [[_ Hne]|[x' Hx]]; [by apply Hne | vm_compute in Hx; discriminate Hx].
Defined.

Lemma streamed_body_panics_witness :
  let s := example_request "/new" in
  TransformResponse no_value (fun _ _ => Err "down") "10.0.0.2:1" None (example_transform ["/new"]) example_context
    (with_req s (set_ReqBody (rq s) (BufferedBody.StreamingReader (ReqBody (rq s))).2)) (protoToHTTPResponse (mkHttpResponse 200 ∅ None)) = None.
Proof.
  apply (streamed_body_panics no_value (fun _ _ => Err "down") "10.0.0.2:1" None (example_transform ["/new"]) example_context (example_request "/new"));
    [vm_compute; reflexivity | reflexivity | reflexivity | discriminate].
Defined.

Lemma modified_request_cannot_strip_witness :
  ReqBody (applyModifiedRequest (wire_request (mkHttpRequest "" "://" ∅ (Some []) "" "")) (rq (example_request "/a"))) = ReqBody (rq (example_request "/a")).
Proof.
  exact (proj1 (proj2 (modified_request_cannot_strip (mkHttpRequest "" "://" ∅ (Some []) "" "") (rq (example_request "/a"))
    eq_refl eq_refl ltac:(vm_compute; reflexivity)))).
Defined.
End examples.
End Grpc.
