(* ===== verification/PgConfig.v ===== *)
(** * The Postgres listener's configuration (src/internal/postgres/config.go)

    One listener fronts several databases.  Each upstream pins session
    settings and may set a role; clients share one credential.  Reading YAML
    is a parameter, as are the secret sources of the connection strings and
    the environment. *)
From stdpp Require Import base gmap strings list option.
From Stdlib Require Import ZArith Lia Ascii.
From S2P Require Import Prelude GoUtf8 GoStrings GoNet Body GoHttp HostMatch Transform GoRegexp ScrubPairs Secrets.
Local Open Scope string_scope.
Local Open Scope list_scope.
Local Open Scope nat_scope.

Module PgListener.

(** ** Configuration *)

Record Setting := mkSetting { s_Name : string; s_Value : string }.
Record ClientConfig := mkClientConfig { cl_User : string; cl_PasswordEnv : string }.
(** A [yaml.Node] whose kind is zero is [None]. *)
Record UpstreamConfig (Node : Type) := mkUpstreamConfig {
  uc_Database : string; uc_DSN : option Node; uc_Role : string; uc_Settings : list Setting }.
Arguments mkUpstreamConfig {Node}. Arguments uc_Database {Node}. Arguments uc_DSN {Node}.
Arguments uc_Role {Node}. Arguments uc_Settings {Node}.
Record ListenerConfig (Node : Type) := mkListenerConfig {
  lc_Listen : string; lc_Client : ClientConfig; lc_Upstreams : list (UpstreamConfig Node) }.
Arguments mkListenerConfig {Node}. Arguments lc_Listen {Node}. Arguments lc_Client {Node}. Arguments lc_Upstreams {Node}.

(** ** The compiled listener *)

Record Upstream := mkUpstream {
  up_database : string; up_role : string; up_settings : list Setting;
  up_pinnedGUCs : gset string; up_dsn : secretSource }.
Record Listener := mkListener {
  l_name : string; l_listen : string; l_clientUser : string; l_clientPassword : string;
  l_upstreams : gmap string Upstream }.

Inductive pg_error :=
  | ListenRequired | ClientUserRequired | ClientPasswordRequired | UpstreamRequired
  | PasswordUnset (env : string)
  | DatabaseRequired (ctx : string) | DSNRequired (ctx : string) | DuplicateDatabase (db : string)
  | BadDSNSource (ctx : string)
  | SettingNameRequired (ctx : string) (i : nat) | BadSettingName (ctx : string) (i : nat) (name : string)
  | ReservedSetting (ctx : string) (i : nat) (name : string) | DuplicateSetting (ctx : string) (name : string).

Definition listenerName : string := "postgres".

Definition lookup_upstream (l : Listener) (database : string) : option Upstream := l_upstreams l !! database.
Definition VerifyClient (l : Listener) (user password : string) : bool :=
  str_eqb user (l_clientUser l) && str_eqb password (l_clientPassword l).

(** [gucNameRe]: an identifier, or two joined by a dot. *)
Definition guc_letter (c : Z) : bool :=
  (65 <=? c)%Z && (c <=? 90)%Z || (97 <=? c)%Z && (c <=? 122)%Z || (c =? 95)%Z.
Definition guc_ident (s : string) : bool :=
  match bytes_of_string s with
  | [] => false
  | c :: l => guc_letter c && forallb (fun d => guc_letter d || (48 <=? d)%Z && (d <=? 57)%Z) l
  end.
Definition gucNameRe (s : string) : bool :=
  match Split s "." with
  | [a] => guc_ident a
  | [a; b] => guc_ident a && guc_ident b
  | _ => false
  end.

Section compile.
Context `{UnicodeTables}.

(** One turn of the loop of [compileSettings], from the settings and the names
    pinned so far. *)
Definition compile_setting (ctx : string) (i : nat) (s : Setting) (out : list Setting) (pinned : gset string)
    : result pg_error (list Setting * gset string) :=
  if is_empty (s_Name s) then Err (SettingNameRequired ctx i)
  else if negb (gucNameRe (s_Name s)) then Err (BadSettingName ctx i (s_Name s))
  else
    let lower := ToLower (s_Name s) in
    if str_eqb lower "role" || str_eqb lower "session_authorization" then Err (ReservedSetting ctx i (s_Name s))
    else if bool_decide (lower ∈ pinned) then Err (DuplicateSetting ctx (s_Name s))
    else Ok (out ++ [s], {[ lower ]} ∪ pinned).
Fixpoint compile_settings (ctx : string) (i : nat) (settings : list Setting) (out : list Setting) (pinned : gset string)
    : result pg_error (list Setting * gset string) :=
  match settings with
  | [] => Ok (out, pinned)
  | s :: rest => let* (out', pinned') := compile_setting ctx i s out pinned in compile_settings ctx (S i) rest out' pinned'
  end.
Definition compileSettings (ctx : string) (settings : list Setting) : result pg_error (list Setting * gset string) :=
  compile_settings ctx 0 settings [] ∅.

Section sources.
Context {Node : Type} (buildSource : Node -> option secretSource).

Definition upstream_ctx (j : nat) (uc : UpstreamConfig Node) : string :=
  if is_empty (uc_Database uc) then "postgres.upstreams[" +:+ Itoa (Z.of_nat j) +:+ "]"
  else "postgres.upstreams[" +:+ strconv_Quote (uc_Database uc) +:+ "]".

(** One turn of the loop of [Compile]. *)
Definition compile_upstream (j : nat) (uc : UpstreamConfig Node) (upstreams : gmap string Upstream)
    : result pg_error (gmap string Upstream) :=
  let uctx := upstream_ctx j uc in
  if is_empty (uc_Database uc) then Err (DatabaseRequired uctx)
  else match uc_DSN uc with
       | None => Err (DSNRequired uctx)
       | Some node =>
         match upstreams !! uc_Database uc with
         | Some _ => Err (DuplicateDatabase (uc_Database uc))
         | None =>
           match buildSource node with
           | None => Err (BadDSNSource uctx)
           | Some dsnSource =>
             let* (settings, pinned) := compileSettings uctx (uc_Settings uc) in
             Ok (<[uc_Database uc := mkUpstream (uc_Database uc) (uc_Role uc) settings pinned dsnSource]> upstreams)
           end
         end
       end.
Fixpoint compile_upstreams (j : nat) (ucs : list (UpstreamConfig Node)) (upstreams : gmap string Upstream)
    : result pg_error (gmap string Upstream) :=
  match ucs with
  | [] => Ok upstreams
  | uc :: rest => let* m := compile_upstream j uc upstreams in compile_upstreams (S j) rest m
  end.

(** [Compile]; [Ok None] is an empty block. *)
Definition Compile (Getenv : string -> string) (c : ListenerConfig Node) : result pg_error (option Listener) :=
  let cl := lc_Client c in
  if is_empty (lc_Listen c) && (length (lc_Upstreams c) =? 0) && is_empty (cl_User cl) && is_empty (cl_PasswordEnv cl)
  then Ok None
  else if is_empty (lc_Listen c) then Err ListenRequired
  else if is_empty (cl_User cl) then Err ClientUserRequired
  else if is_empty (cl_PasswordEnv cl) then Err ClientPasswordRequired
  else if length (lc_Upstreams c) =? 0 then Err UpstreamRequired
  else
    let clientPassword := Getenv (cl_PasswordEnv cl) in
    if is_empty clientPassword then Err (PasswordUnset (cl_PasswordEnv cl))
    else
      let* upstreams := compile_upstreams 0 (lc_Upstreams c) ∅ in
      Ok (Some (mkListener listenerName (lc_Listen c) (cl_User cl) clientPassword upstreams)).
End sources.

(** [NewManagedUpstream]; a nil source is [None]. *)
Definition NewManagedUpstream (database : string) (dsn : option secretSource) (role : string) (settings : list Setting)
    : result pg_error Upstream :=
  if is_empty database then Err (DatabaseRequired "")
  else
    let ctx := "postgres upstream[" +:+ strconv_Quote database +:+ "]" in
    match dsn with
    | None => Err (DSNRequired ctx)
    | Some src =>
      let* (compiled, pinned) := compileSettings ctx settings in
      Ok (mkUpstream database role compiled pinned src)
    end.
End compile.

Fixpoint add_upstreams (us : list Upstream) (m : gmap string Upstream) : result pg_error (gmap string Upstream) :=
  match us with
  | [] => Ok m
  | u :: rest =>
    match m !! up_database u with
    | Some _ => Err (DuplicateDatabase (up_database u))
    | None => add_upstreams rest (<[up_database u := u]> m)
    end
  end.
Definition NewListener (listen clientUser clientPassword : string) (upstreams : list Upstream) : result pg_error Listener :=
  if is_empty listen then Err ListenRequired
  else if is_empty clientUser then Err ClientUserRequired
  else if is_empty clientPassword then Err ClientPasswordRequired
  else if length upstreams =? 0 then Err UpstreamRequired
  else let* m := add_upstreams upstreams ∅ in
       Ok (mkListener listenerName listen clientUser clientPassword m).

Fixpoint with_upstreams (extra : list Upstream) (m : gmap string Upstream) (dropped : list string)
    : gmap string Upstream * list string :=
  match extra with
  | [] => (m, dropped)
  | u :: rest =>
    match m !! up_database u with
    | Some _ => with_upstreams rest m (dropped ++ [up_database u])
    | None => with_upstreams rest (<[up_database u := u]> m) dropped
    end
  end.
Definition WithUpstreams (l : Listener) (extra : list Upstream) : Listener * list string :=
  let '(m, dropped) := with_upstreams extra (l_upstreams l) [] in
  (mkListener (l_name l) (l_listen l) (l_clientUser l) (l_clientPassword l) m, dropped).

Definition dquote : ascii := "034"%char.
Fixpoint quote_body (s : string) : string :=
  match s with
  | "" => ""
  | String c s' => if Ascii.eqb c dquote then String dquote (String dquote (quote_body s')) else String c (quote_body s')
  end.
Definition QuoteIdent (s : string) : string := String dquote (quote_body s +:+ String dquote "").

(** ** What is accepted *)

Section wf.
Context `{UnicodeTables}.

Definition lower_name (s : Setting) : string := ToLower (s_Name s).
Definition setting_ok (s : Setting) : Prop :=
  gucNameRe (s_Name s) = true /\ lower_name s <> "role" /\ lower_name s <> "session_authorization".
Definition settings_ok (l : list Setting) : Prop := Forall setting_ok l /\ NoDup (map lower_name l).

(** The settings are pinned under their lower-case names, none twice, and
    neither the role nor the session's user is among them. *)
Definition upstream_wf (u : Upstream) : Prop :=
  up_database u <> "" /\ settings_ok (up_settings u) /\ up_pinnedGUCs u = list_to_set (map lower_name (up_settings u)).
Definition listener_wf (l : Listener) : Prop :=
  l_listen l <> "" /\ l_clientUser l <> "" /\ l_clientPassword l <> "" /\ l_upstreams l <> ∅ /\
  map_Forall ((fun db u => up_database u = db /\ upstream_wf u)) (l_upstreams l).

Lemma gucNameRe_nonempty s : gucNameRe s = true -> is_empty s = false.
Proof. destruct s; [vm_compute; done | done]. Qed.

Lemma compile_setting_Ok ctx i s out pinned r :
  compile_setting ctx i s out pinned = Ok r <->
  setting_ok s /\ (lower_name s ∉ pinned) /\ r = (out ++ [s], {[ lower_name s ]} ∪ pinned).
Proof.
  unfold compile_setting, setting_ok. fold (lower_name s). destruct (gucNameRe (s_Name s)) eqn:Hg.
  - rewrite (gucNameRe_nonempty _ Hg). cbn [negb].
    destruct (str_eqb (lower_name s) "role") eqn:H1; [apply str_eqb_eq in H1; naive_solver|].
    destruct (str_eqb (lower_name s) "session_authorization") eqn:H2; [apply str_eqb_eq in H2; naive_solver|].
    apply str_eqb_neq in H1, H2. cbn [orb]. case_bool_decide; naive_solver.
  - destruct (is_empty _); naive_solver.
Qed.

Lemma compile_settings_Ok ctx i l out pinned r :
  compile_settings ctx i l out pinned = Ok r <->
  settings_ok l /\ Forall (fun s => lower_name s ∉ pinned) l /\ r = (out ++ l, list_to_set (map lower_name l) ∪ pinned).
Proof.
  revert i out pinned. induction l as [|s l IH]; intros i out pinned; cbn [compile_settings].
  - rewrite app_nil_r. split.
    + intros [= <-]. split; [by split; constructor|]. split; [done|]. f_equal. cbn. set_solver.
    + intros (_ & _ & ->). do 2 f_equal. cbn. set_solver.
  - split.
    + intros ([out' pinned'] & (Hs & Hn & [= -> ->])%compile_setting_Ok & ((Hl & Hnd) & Hp & ->)%IH)%rbind_Ok_inv.
      rewrite list.Forall_forall in Hp. split; [split|split].
      * by constructor.
      * cbn. apply list.NoDup_cons. split; [|done]. intros (x & Hx & Hin)%list_elem_of_fmap. apply (Hp x Hin). set_solver.
      * constructor; [done|]. apply list.Forall_forall. intros x Hx. specialize (Hp x Hx). set_solver.
      * rewrite <- app_assoc. cbn. f_equal. set_solver.
    + intros ([[Hs Hl]%list.Forall_cons [Hn Hnd]%list.NoDup_cons] & [Hp Hps]%list.Forall_cons & ->).
      rewrite (proj2 (compile_setting_Ok ctx i s out pinned _) (conj Hs (conj Hp eq_refl))). cbn [rbind].
      apply IH. split; [done|]. rewrite <- app_assoc. split; [|f_equal; cbn; set_solver].
      apply list.Forall_forall. intros x Hx. rewrite list.Forall_forall in Hps. specialize (Hps x Hx).
      intros [He|Hin]%elem_of_union; [|done]. apply Hn. apply list_elem_of_fmap. exists x. set_solver.
Qed.

Lemma compileSettings_Ok ctx l r :
  compileSettings ctx l = Ok r <-> settings_ok l /\ r = (l, list_to_set (map lower_name l)).
Proof.
  unfold compileSettings. rewrite compile_settings_Ok. cbn [app]. rewrite (right_id_L ∅ (∪)).
  split; [tauto|]. intros [? ->]. split; [done|]. split; [|done]. apply list.Forall_forall. set_solver.
Qed.

(** ** Listeners the program can build *)

Inductive managed : Upstream -> Prop :=
  | managed_New database dsn role settings u : NewManagedUpstream database dsn role settings = Ok u -> managed u.

Lemma managed_wf u : managed u -> upstream_wf u.
Proof.
  intros [database dsn role settings u' Hu]. unfold NewManagedUpstream in Hu.
  destruct (is_empty database) eqn:He; [done|]. apply str_eqb_neq in He. destruct dsn as [src|]; [|done].
  apply rbind_Ok_inv in Hu as ([l p] & [Hs [= -> ->]]%compileSettings_Ok & [= <-]). by repeat split; try apply Hs.
Qed.

Section sources.
Context {Node : Type} (buildSource : Node -> option secretSource).

(** What one configured upstream denotes. *)
Definition denotes_upstream (uc : UpstreamConfig Node) (u : Upstream) : Prop :=
  exists node src, uc_Database uc <> "" /\ uc_DSN uc = Some node /\ buildSource node = Some src /\ settings_ok (uc_Settings uc) /\
    u = mkUpstream (uc_Database uc) (uc_Role uc) (uc_Settings uc) (list_to_set (map lower_name (uc_Settings uc))) src.

Lemma denotes_upstream_wf uc u : denotes_upstream uc u -> up_database u = uc_Database uc /\ upstream_wf u.
Proof. intros (node & src & Hd & _ & _ & Hs & ->). by repeat split; try apply Hs. Qed.

Lemma compile_upstream_Ok j uc m m' :
  compile_upstream buildSource j uc m = Ok m' <->
  m !! uc_Database uc = None /\ exists u, denotes_upstream uc u /\ m' = <[uc_Database uc := u]> m.
Proof.
  unfold compile_upstream, denotes_upstream. destruct (is_empty (uc_Database uc)) eqn:He.
  { apply str_eqb_eq in He. naive_solver. }
  apply str_eqb_neq in He. destruct (uc_DSN uc) as [node|]; [|naive_solver].
  destruct (m !! uc_Database uc); [naive_solver|]. destruct (buildSource node) as [src|] eqn:Hb; [|by split; [|intros (_ & u & (n & s & _ & [= <-] & Hb' & _) & _); congruence]].
  split.
  - intros ([l p] & [Hs [= -> ->]]%compileSettings_Ok & [= <-])%rbind_Ok_inv. split; [done|]. eexists. split; [|done]. by exists node, src.
  - intros (_ & u & (node' & src' & _ & [= <-] & Hb' & Hs & ->) & ->). rewrite Hb in Hb'. injection Hb' as <-.
    by rewrite (proj2 (compileSettings_Ok _ _ _) (conj Hs eq_refl)).
Qed.

Lemma compile_upstreams_Ok j ucs m m' :
  compile_upstreams buildSource j ucs m = Ok m' ->
  (forall db u, m' !! db = Some u <-> m !! db = Some u \/ exists uc, uc ∈ ucs /\ uc_Database uc = db /\ denotes_upstream uc u)
  /\ NoDup (map uc_Database ucs) /\ Forall (fun uc => m !! uc_Database uc = None) ucs.
Proof.
  revert j m. induction ucs as [|uc ucs IH]; intros j m; cbn [compile_upstreams].
  - intros [= <-]. split; [|by split; constructor]. intros db u. split; [by left|]. by intros [?|(uc & ?%elem_of_nil & _)].
  - intros (m1 & (Hm & u0 & Hd & ->)%compile_upstream_Ok & (Hiff & Hnd & Hnone)%IH)%rbind_Ok_inv.
    assert (forall db u, (<[uc_Database uc:=u0]> m !! db = Some u) <-> m !! db = Some u \/ (uc_Database uc = db /\ u = u0)) as Hins.
    { intros db u. rewrite lookup_insert_Some. split; [naive_solver|]. intros [Hm'|[<- <-]]; [|by left].
      right. split; [|done]. intros <-. congruence. }
    assert (forall uc', uc' ∈ ucs -> uc_Database uc <> uc_Database uc' /\ m !! uc_Database uc' = None) as Hout.
    { intros uc' Hin. rewrite list.Forall_forall in Hnone. by destruct (proj1 (lookup_insert_None _ _ _ _) (Hnone uc' Hin)). }
    split; [|split].
    + intros db u. rewrite Hiff, Hins. setoid_rewrite elem_of_cons. split.
      * intros [[?|[<- ->]]|(uc' & ? & ? & ?)]; [by left | right; exists uc; by eauto | right; exists uc'; by eauto].
      * intros [?|(uc' & [->|Hin] & Hdb & Hd')]; [by left; left | | by right; eauto].
        left; right. split; [done|]. destruct Hd as (n1 & s1 & _ & H1 & H2 & _ & ->), Hd' as (n2 & s2 & _ & H3 & H4 & _ & ->). congruence.
    + cbn. apply list.NoDup_cons. split; [|done]. intros (uc' & Heq & Hin)%list_elem_of_fmap. by destruct (Hout uc' Hin).
    + constructor; [done|]. apply list.Forall_forall. intros uc' Hin. apply (Hout uc' Hin).
Qed.

Lemma Compile_Ok Getenv c l :
  Compile buildSource Getenv c = Ok (Some l) ->
  l_listen l = lc_Listen c /\ l_clientUser l = cl_User (lc_Client c) /\ l_clientPassword l = Getenv (cl_PasswordEnv (lc_Client c)) /\
  l_listen l <> "" /\ l_clientUser l <> "" /\ l_clientPassword l <> "" /\ lc_Upstreams c <> [] /\ NoDup (map uc_Database (lc_Upstreams c)) /\
  forall db u, l_upstreams l !! db = Some u <-> exists uc, uc ∈ lc_Upstreams c /\ uc_Database uc = db /\ denotes_upstream uc u.
Proof.
  unfold Compile. destruct (_ && _ && _ && _); [done|].
  destruct (is_empty (lc_Listen c)) eqn:H1; [done|]. destruct (is_empty (cl_User _)) eqn:H2; [done|].
  destruct (is_empty (cl_PasswordEnv _)); [done|]. destruct (lc_Upstreams c) as [|uc ucs] eqn:Hu; [done|]. cbn [length Nat.eqb].
  destruct (is_empty (Getenv _)) eqn:H4; [done|].
  intros (m & (Hiff & Hnd & _)%compile_upstreams_Ok & [= <-])%rbind_Ok_inv. cbn [l_listen l_clientUser l_clientPassword l_upstreams].
  apply str_eqb_neq in H1, H2, H4. do 8 (split; [done|]). intros db u. rewrite Hiff, lookup_empty. naive_solver.
Qed.

(** A listener comes from a configuration, from the control plane's
    upstreams, or from another by adding upstreams. *)
Inductive built : Listener -> Prop :=
  | built_Compile Getenv c l : Compile buildSource Getenv c = Ok (Some l) -> built l
  | built_NewListener listen user password us l :
      Forall managed us -> NewListener listen user password us = Ok l -> built l
  | built_WithUpstreams l extra :
      built l -> Forall managed extra -> built (WithUpstreams l extra).1.

End sources.

Definition upstreams_wf (m : gmap string Upstream) : Prop := map_Forall (fun db u => (up_database u = db /\ upstream_wf u)) m.

Lemma upstreams_wf_insert m u : upstreams_wf m -> upstream_wf u -> upstreams_wf (<[up_database u := u]> m).
Proof. intros Hm Hu. by apply map_Forall_insert_2. Qed.

Lemma add_upstreams_wf us m m' :
  add_upstreams us m = Ok m' -> Forall upstream_wf us -> upstreams_wf m -> upstreams_wf m' /\ (us <> [] \/ m <> ∅ -> m' <> ∅).
Proof.
  revert m. induction us as [|u us IH]; intros m; cbn [add_upstreams]; [intros [= <-]; naive_solver|].
  destruct (m !! up_database u); [done|]. intros Ha [Hu Hus]%list.Forall_cons Hm.
  destruct (IH _ Ha Hus (upstreams_wf_insert _ _ Hm Hu)) as [Hw Hn]. split; [done|]. intros _. apply Hn. right. apply insert_non_empty.
Qed.

Lemma with_upstreams_wf extra m dropped :
  Forall upstream_wf extra -> upstreams_wf m -> m <> ∅ ->
  upstreams_wf (with_upstreams extra m dropped).1 /\ (with_upstreams extra m dropped).1 <> ∅.
Proof.
  revert m dropped. induction extra as [|u extra IH]; intros m dropped; cbn [with_upstreams]; [done|].
  intros [Hu Hx]%list.Forall_cons Hm Hn. destruct (m !! up_database u); [by apply IH|].
  apply IH; [done | by apply upstreams_wf_insert | apply insert_non_empty].
Qed.

(** Adding upstreams changes none that is there. *)
Lemma with_upstreams_keeps extra m dropped : m ⊆ (with_upstreams extra m dropped).1.
Proof.
  revert m dropped. induction extra as [|u extra IH]; intros m dropped; cbn [with_upstreams]; [done|].
  destruct (m !! up_database u) eqn:E; [apply IH|]. etransitivity; [by apply (insert_subseteq m _ u E) | apply IH].
Qed.

(** Every listener the program can build is well formed. *)
Lemma built_wf {Node} (buildSource : Node -> option secretSource) l : built buildSource l -> listener_wf l.
Proof.
  induction 1 as [Getenv c l Hc|listen user password us l Hus Hl|l extra Hb IH Hx].
  - destruct (Compile_Ok _ _ _ _ Hc) as (_ & _ & _ & H1 & H2 & H3 & Hn & _ & Hiff). do 3 (split; [done|]).
    assert (forall db u, l_upstreams l !! db = Some u -> up_database u = db /\ upstream_wf u) as Hwf.
    { intros db u Hu. apply Hiff in Hu as (uc & _ & <- & Hd). by eapply denotes_upstream_wf. }
    split; [|done]. unfold Compile in Hc. repeat (case_match; [done|]).
    apply rbind_Ok_inv in Hc as (m & Hm & [= <-]). cbn in *. destruct (lc_Upstreams c) as [|uc ucs]; [done|].
    cbn [compile_upstreams] in Hm. apply rbind_Ok_inv in Hm as (m1 & (_ & u & _ & ->)%compile_upstream_Ok & (Hi & _)%compile_upstreams_Ok).
    intros ->. specialize (Hi (uc_Database uc) u). rewrite lookup_empty, lookup_insert_eq in Hi. discriminate (proj2 Hi (or_introl eq_refl)).
  - unfold NewListener in Hl. destruct (is_empty listen) eqn:H1; [done|]. destruct (is_empty user) eqn:H2; [done|].
    destruct (is_empty password) eqn:H3; [done|]. destruct us as [|u us]; [done|]. cbn [length Nat.eqb] in Hl.
    apply rbind_Ok_inv in Hl as (m & Hm & [= <-]). apply str_eqb_neq in H1, H2, H3.
    destruct (add_upstreams_wf _ _ _ Hm) as [Hw Hn]; [by eapply list.Forall_impl; [exact Hus|apply managed_wf] | apply map_Forall_empty |].
    do 3 (split; [done|]). split; [by apply Hn; left | exact Hw].
  - destruct IH as (H1 & H2 & H3 & Hn & Hw). unfold WithUpstreams.
    destruct (with_upstreams_wf extra (l_upstreams l) []) as [Hw' Hn']; [by eapply list.Forall_impl; [exact Hx|apply managed_wf] | done.. |].
    destruct (with_upstreams extra (l_upstreams l) []) as [m d]. cbn in *. do 3 (split; [done|]). by split.
Qed.
End wf.

(** ** Quoted identifiers

    How Postgres reads a quoted identifier: two quotes stand for one, a
    single quote ends it. *)
Definition cons_first (c : ascii) (r : option (string * string)) : option (string * string) :=
  match r with Some (a, b) => Some (String c a, b) | None => None end.
Fixpoint read_quoted (s : string) : option (string * string) :=
  match s with
  | "" => None
  | String c s' =>
    if Ascii.eqb c dquote then
      match s' with
      | String d s'' => if Ascii.eqb d dquote then cons_first dquote (read_quoted s'') else Some ("", s')
      | "" => Some ("", "")
      end
    else cons_first c (read_quoted s')
  end.
Definition read_ident (s : string) : option (string * string) :=
  match s with String c s' => if Ascii.eqb c dquote then read_quoted s' else None | "" => None end.

Lemma QuoteIdent_reads s rest : HasPrefix rest (String dquote "") = false -> read_ident (QuoteIdent s +:+ rest) = Some (s, rest).
Proof.
  intros Hr. unfold QuoteIdent, read_ident. cbn [String.append]. rewrite Ascii.eqb_refl.
  induction s as [|c s IH]; cbn [quote_body String.append].
  - destruct rest as [|d rest]; [done|]. cbn. rewrite (proj2 (Ascii.eqb_neq d dquote)); [done|]. intros ->. by destruct rest.
  - destruct (Ascii.eqb c dquote) eqn:E; cbn [String.append read_quoted].
    + apply Ascii.eqb_eq in E as ->. rewrite !Ascii.eqb_refl. by rewrite IH.
    + rewrite E, IH. done.
Qed.

(** ** Properties *)

(** C20: Every listener the program can build is well formed.  Whether it is
    compiled from a configuration, made of the control plane's upstreams, or
    extended with such upstreams: it has an address and a non-empty
    credential, at least one upstream, each stored under its own non-empty
    database name; and each upstream's pinned names are exactly the lower-case
    names of the settings it applies, which are distinct identifiers, neither
    the role nor the session's user.  Extending a listener changes no
    upstream it has. *)
Theorem listener_well_formed `{UnicodeTables} {Node} (buildSource : Node -> option secretSource) l :
  built buildSource l ->
  listener_wf l /\ forall extra, l_upstreams l ⊆ l_upstreams (WithUpstreams l extra).1.
Proof.
  intros Hb. split; [by eapply built_wf|]. intros extra. pose proof (with_upstreams_keeps extra (l_upstreams l) []) as Hk.
  unfold WithUpstreams. by destruct (with_upstreams extra (l_upstreams l) []).
Qed.

Section examples.
#[local] Existing Instance ascii_tables.
Definition two_databases : ListenerConfig string :=
  mkListenerConfig ":5432" (mkClientConfig "app" "PGPASS")
    [mkUpstreamConfig "orders" (Some "a") "reader" [mkSetting "App.Tenant" "7"]; mkUpstreamConfig "users" (Some "b") "" []].
Definition two_compiled : option Listener :=
  match Compile (fun dsn => Some (mkSource "env" (Some dsn))) (fun _ => "secret") two_databases with Ok l => l | Err _ => None end.

Lemma listener_well_formed_witness : exists l u,
  two_compiled = Some l /\ l_upstreams l !! "orders" = Some u /\ up_pinnedGUCs u = {["app.tenant"]} /\ listener_wf l.
Proof.
  destruct two_compiled as [l|] eqn:Hl; [|vm_compute in Hl; discriminate Hl].
  assert (built (fun dsn => Some (mkSource "env" (Some dsn))) l) as Hb.
  { apply (built_Compile _ (fun _ => "secret") two_databases). revert Hl. unfold two_compiled.
    by destruct (Compile _ _ _) as [o|]; [intros ->|]. }
  assert (match two_compiled with Some l => bool_decide (up_pinnedGUCs <$> l_upstreams l !! "orders" = Some {["app.tenant"]}) | None => false end = true)
    as Hv by (vm_compute; reflexivity).
  rewrite Hl in Hv. apply bool_decide_eq_true in Hv. destruct (l_upstreams l !! "orders") as [u|] eqn:Hu; [|discriminate Hv].
  exists l, u. split; [reflexivity|]. split; [exact Hu|]. split; [by injection Hv|].
  apply (listener_well_formed (fun dsn => Some (mkSource "env" (Some dsn))) l Hb).
Defined.
End examples.
End PgListener.
