(* ===== verification/Config.v ===== *)
(** * Configuration (src/internal/config: config.go, env.go, sync.go, s3.go,
      logger.go, upstream_proxy.go)

    A configuration file, the [IRON_*] environment over it and the defaults
    under it, what a valid configuration is, and the configuration the
    control plane delivers.  YAML is a parameter: a node is opaque, and an
    absent block is no node. *)
From stdpp Require Import base gmap strings list option.
From Stdlib Require Import ZArith Lia Ascii.
From S2P Require Import Prelude GoUtf8 GoStrings GoNet GoHttp GoJson GoJsonParse GoTime DnsGuard McpRpc.
From S2P Require Import ScrubPairs Secrets PgConfig.
Local Open Scope string_scope.
Local Open Scope list_scope.
Local Open Scope Z_scope.

Module Config.

(** The YAML library: [yaml.Unmarshal] into a node, which is left empty by an
    empty text; a document node and its content. *)
Class Yaml := {
  Node : Type;
  yaml_Unmarshal : string -> option (option Node);
  is_document : Node -> bool;
  Content : Node -> list Node;
}.

(** ** config.go *)

Record DNSRecord := mkDNSRecord { rec_Name : string; rec_Type : string; rec_Value : string }.
Record DNS := mkDNS {
  Enabled : option bool; dns_Listen : string; ProxyIP : string; UpstreamResolver : string;
  Passthrough : list string; Records : list DNSRecord }.
Definition IsEnabled (d : DNS) : bool := default true (Enabled d).

(** [CIDRList] and [UpstreamProxy]. *)
Record CIDRList := mkCIDRs { Values : list string; Set_ : bool }.
Record UpstreamProxy := mkUpstreamProxy { HTTPProxy : string; HTTPSProxy : string; NoProxy : string }.

Record ProxyConfig := mkProxyConfig {
  HTTPListen : string; HTTPSListen : string; TunnelListen : string;
  cfg_MaxRequestBodyBytes : Z; cfg_MaxResponseBodyBytes : Z; UpstreamResponseHeaderTimeout : Z;
  UpstreamDenyCIDRs : CIDRList; Upstream_Proxy : UpstreamProxy }.

Record TLSConfig := mkTLSConfig { TLSMode : string; CACert : string; CAKey : string; CertCacheSize : Z; LeafCertExpiryHours : Z }.
Definition TLSModeMITM : string := "mitm".
Definition TLSModeSNIOnly : string := "sni-only".

Record Management := mkManagement { mg_Listen : string; APIKeyEnv : string }.

Definition DefaultUpstreamResponseHeaderTimeout : Z := 30 * Second.
Definition DefaultControlPlanePollInterval : Z := 10 * Second.

Section config.
Context `{UnicodeTables} `{Yaml}.

Record Transform := mkTransform { t_Name : string; t_Config : option Node }.
Record t := mkConfig {
  SSH : option Node;
  c_DNS : DNS;
  c_Proxy : ProxyConfig;
  c_TLS : TLSConfig;
  c_Transforms : list Transform;
  c_MCP : option Node;
  c_MCPGateway : option Node;
  c_Postgres : option Node;
  MetricsListen : string;
  c_Management : Management;
  PollInterval : Z;
  LogLevel : string;
}.
(** Go's zero value. *)
Definition zero : t :=
  mkConfig None (mkDNS None "" "" "" [] []) (mkProxyConfig "" "" "" 0 0 0 (mkCIDRs [] false) (mkUpstreamProxy "" "" ""))
    (mkTLSConfig "" "" "" 0 0) [] None None None "" (mkManagement "" "") 0 "".

(** [Duration.UnmarshalYAML] on a string. *)
Definition Duration_of (s : string) : option Z := if is_empty s then Some 0 else ParseDuration s.

Definition or_string (s d : string) : string := if is_empty s then d else s.
Definition or_int (n d : Z) : Z := if n =? 0 then d else n.

Definition applyDefaults (c : t) : t :=
  let d := c_DNS c in let p := c_Proxy c in let tl := c_TLS c in let m := c_Management c in
  mkConfig (SSH c)
    (mkDNS (Enabled d) (if IsEnabled d then or_string (dns_Listen d) ":53" else dns_Listen d) (ProxyIP d) (UpstreamResolver d)
       (Passthrough d) (Records d))
    (mkProxyConfig (or_string (HTTPListen p) ":80") (or_string (HTTPSListen p) ":443") (TunnelListen p)
       (or_int (cfg_MaxRequestBodyBytes p) (2 ^ 20)) (cfg_MaxResponseBodyBytes p)
       (or_int (UpstreamResponseHeaderTimeout p) DefaultUpstreamResponseHeaderTimeout)
       (if Set_ (UpstreamDenyCIDRs p) then UpstreamDenyCIDRs p else mkCIDRs defaultDenyCIDRs true) (Upstream_Proxy p))
    (mkTLSConfig (or_string (TLSMode tl) TLSModeMITM) (CACert tl) (CAKey tl) (or_int (CertCacheSize tl) 1000)
       (or_int (LeafCertExpiryHours tl) 72))
    (c_Transforms c) (c_MCP c) (c_MCPGateway c) (c_Postgres c)
    (or_string (MetricsListen c) ":9090")
    (if negb (is_empty (mg_Listen m)) && is_empty (APIKeyEnv m) then mkManagement (mg_Listen m) "IRON_MANAGEMENT_API_KEY" else m)
    (or_int (PollInterval c) DefaultControlPlanePollInterval)
    (or_string (LogLevel c) "info").

Inductive config_error :=
  | InvalidEnv (var : string)
  | EmptyCIDREntry | BadCIDR (e : cidr_error)
  | FileError (e : string) | InvalidS3URL (url : string)
  | Required (field : string) | InvalidField (field : string) | NotPositive (field : string)
  | EnvNotSet (var : string) | RecordError (i : nat) (field : string).

(** [parseLogLevel]. *)
Definition parseLogLevel (s : string) : option Z :=
  if str_eqb s "debug" then Some (-4) else if str_eqb s "info" then Some 0
  else if str_eqb s "warn" then Some 4 else if str_eqb s "error" then Some 8 else None.

Fixpoint validate_records (i : nat) (rs : list DNSRecord) : option config_error :=
  match rs with
  | [] => None
  | r :: rs =>
    if is_empty (rec_Name r) then Some (RecordError i "name")
    else if negb (str_eqb (rec_Type r) "A" || str_eqb (rec_Type r) "CNAME") then Some (RecordError i "type")
    else if is_empty (rec_Value r) then Some (RecordError i "value")
    else validate_records (S i) rs
  end.

(** [Validate]: the first error, if any. *)
Definition Validate (Getenv : string -> string) (c : t) : option config_error :=
  let tl := c_TLS c in let m := c_Management c in
  if IsEnabled (c_DNS c) && is_empty (ProxyIP (c_DNS c)) then Some (Required "dns.proxy_ip")
  else if str_eqb (TLSMode tl) TLSModeMITM && is_empty (CACert tl) then Some (Required "tls.ca_cert")
  else if str_eqb (TLSMode tl) TLSModeMITM && is_empty (CAKey tl) then Some (Required "tls.ca_key")
  else if negb (str_eqb (TLSMode tl) TLSModeMITM || str_eqb (TLSMode tl) TLSModeSNIOnly) then Some (InvalidField "tls.mode")
  else match parseLogLevel (LogLevel c) with
  | None => Some (InvalidField "log.level")
  | Some _ =>
    if UpstreamResponseHeaderTimeout (c_Proxy c) <=? 0 then Some (NotPositive "proxy.upstream_response_header_timeout")
    else if PollInterval c <=? 0 then Some (NotPositive "control_plane.poll_interval")
    else match ValidateCIDRs (Values (UpstreamDenyCIDRs (c_Proxy c))) with
    | Some e => Some (BadCIDR e)
    | None =>
      if negb (is_empty (mg_Listen m)) && is_empty (APIKeyEnv m) then Some (Required "management.api_key_env")
      else if negb (is_empty (mg_Listen m)) && is_empty (Getenv (APIKeyEnv m)) then Some (EnvNotSet (APIKeyEnv m))
      else validate_records 0 (Records (c_DNS c))
    end
  end.

(** ** env.go *)

(** [strconv.ParseBool]. *)
Definition ParseBool (s : string) : option bool :=
  if existsb (str_eqb s) ["1"; "t"; "T"; "true"; "TRUE"; "True"] then Some true
  else if existsb (str_eqb s) ["0"; "f"; "F"; "false"; "FALSE"; "False"] then Some false
  else None.

Definition splitCIDREnvList (v : string) : result config_error (list string) :=
  rmap (fun part => let trimmed := TrimSpace part in if is_empty trimmed then Err EmptyCIDREntry else Ok trimmed) (Split v ",").

(** A variable that is set replaces the field, after parsing. *)
Definition env_string (Getenv : string -> string) (var old : string) : string := or_string (Getenv var) old.
Definition env_parse {A} (Getenv : string -> string) (var : string) (parse : string -> option A) (old : A) : result config_error A :=
  if is_empty (Getenv var) then Ok old
  else match parse (Getenv var) with Some a => Ok a | None => Err (InvalidEnv var) end.
Definition env_cidrs (Getenv : string -> string) (old : CIDRList) : result config_error CIDRList :=
  let v := Getenv "IRON_PROXY_UPSTREAM_DENY_CIDRS" in
  if is_empty v then Ok old
  else let* cidrs := splitCIDREnvList v in
       match ValidateCIDRs cidrs with
       | Some e => Err (BadCIDR e)
       | None => Ok (mkCIDRs cidrs true)
       end.

Definition applyEnvOverrides (Getenv : string -> string) (c : t) : result config_error t :=
  let d := c_DNS c in let p := c_Proxy c in let tl := c_TLS c in let m := c_Management c in
  let str := env_string Getenv in
  let* ssh := (let raw := Getenv "IRON_SSH_CONFIG_JSON" in
               if is_empty raw then Ok (SSH c)
               else match yaml_Unmarshal raw with
                    | None => Err (InvalidEnv "IRON_SSH_CONFIG_JSON")
                    | Some None => Ok (SSH c)
                    | Some (Some n) => Ok (Some n)
                    end) in
  let* enabled := env_parse Getenv "IRON_DNS_ENABLED" (fun v => Some <$> ParseBool v) (Enabled d) in
  let* maxReq := env_parse Getenv "IRON_PROXY_MAX_REQUEST_BODY_BYTES" Atoi (cfg_MaxRequestBodyBytes p) in
  let* maxResp := env_parse Getenv "IRON_PROXY_MAX_RESPONSE_BODY_BYTES" Atoi (cfg_MaxResponseBodyBytes p) in
  let* cacheSize := env_parse Getenv "IRON_TLS_CERT_CACHE_SIZE" Atoi (CertCacheSize tl) in
  let* leafHours := env_parse Getenv "IRON_TLS_LEAF_CERT_EXPIRY_HOURS" Atoi (LeafCertExpiryHours tl) in
  let* timeout := env_parse Getenv "IRON_PROXY_UPSTREAM_RESPONSE_HEADER_TIMEOUT" ParseDuration (UpstreamResponseHeaderTimeout p) in
  let* cidrs := env_cidrs Getenv (UpstreamDenyCIDRs p) in
  let* poll := env_parse Getenv "IRON_CONTROL_PLANE_POLL_INTERVAL" ParseDuration (PollInterval c) in
  Ok (mkConfig ssh
       (mkDNS enabled (str "IRON_DNS_LISTEN" (dns_Listen d)) (str "IRON_DNS_PROXY_IP" (ProxyIP d))
          (str "IRON_DNS_UPSTREAM_RESOLVER" (UpstreamResolver d)) (Passthrough d) (Records d))
       (mkProxyConfig (str "IRON_PROXY_HTTP_LISTEN" (HTTPListen p)) (str "IRON_PROXY_HTTPS_LISTEN" (HTTPSListen p))
          (str "IRON_PROXY_TUNNEL_LISTEN" (TunnelListen p)) maxReq maxResp timeout cidrs (Upstream_Proxy p))
       (mkTLSConfig (str "IRON_TLS_MODE" (TLSMode tl)) (str "IRON_TLS_CA_CERT" (CACert tl)) (str "IRON_TLS_CA_KEY" (CAKey tl))
          cacheSize leafHours)
       (c_Transforms c) (c_MCP c) (c_MCPGateway c) (c_Postgres c)
       (str "IRON_METRICS_LISTEN" (MetricsListen c))
       (mkManagement (str "IRON_MANAGEMENT_LISTEN" (mg_Listen m)) (APIKeyEnv m)) poll (str "IRON_LOG_LEVEL" (LogLevel c))).

(** ** s3.go and LoadConfig *)

Definition parseS3URL (url : string) : option (string * string) :=
  let rest := default url (CutPrefix url "s3://") in
  match IndexByte rest "/" with
  | None => None
  | Some idx => if (idx =? 0)%nat || (idx =? String.length rest - 1)%nat then None else Some (stake idx rest, sdrop (S idx) rest)
  end.

(** Reading a file or an object and decoding it, with unknown fields refused. *)
Record Files := mkFiles {
  parse_file : string -> result string t;
  parse_object : string -> string -> result string t }.
Definition parseFileOrS3 (files : Files) (path : string) : result config_error t :=
  if HasPrefix path "s3://" then
    match parseS3URL path with
    | None => Err (InvalidS3URL path)
    | Some (bucket, key) => match parse_object files bucket key with Ok c => Ok c | Err e => Err (FileError e) end
    end
  else match parse_file files path with Ok c => Ok c | Err e => Err (FileError e) end.

Definition LoadConfig (files : Files) (Getenv : string -> string) (path : string) : result config_error t :=
  let* cfg := (if is_empty path then Ok zero else parseFileOrS3 files path) in
  let* cfg := applyEnvOverrides Getenv cfg in
  Ok (applyDefaults cfg).

(** ** upstream_proxy.go *)

(** [proxyConfig]: [httpproxy.FromEnvironment] wins field by field. *)
Definition proxyConfig (env u : UpstreamProxy) : UpstreamProxy :=
  mkUpstreamProxy (or_string (HTTPProxy env) (HTTPProxy u)) (or_string (HTTPSProxy env) (HTTPSProxy u)) (or_string (NoProxy env) (NoProxy u)).

(** ** sync.go *)

Definition isNonNullJSON (data : string) : bool := negb (is_empty data) && negb (str_eqb data "null").

Definition yamlNodeFromRawJSON (raw : string) : option Node :=
  match yaml_Unmarshal raw with
  | Some (Some doc) => if is_document doc then head (Content doc) else None
  | _ => None
  end.
(** [yamlNodeFromJSON] of a map with one [json.RawMessage], which
    [json.Marshal] compacts and refuses when it is not JSON. *)
Definition yamlNodeFromJSON (key raw : string) : option Node :=
  match json_parse raw with
  | None => None
  | Some _ => yamlNodeFromRawJSON (json_object [(key, json_compact raw)])
  end.

Inductive sync_error := ParsingRules | ParsingSecrets | ParsingTransforms | ParsingTransform (i : nat) | TransformName (i : nat)
  | TransformConfig (i : nat) (name : string) | ParsingMCP | ParsingPostgres | ParsingEntry (i : nat) | EntryField (id field : string).

(** [json.Unmarshal] into a slice of raw messages. *)
Definition raw_entries (raw : string) : option (list string) :=
  match json_parse raw with
  | Some (JArr _ l) => Some (map json_raw l)
  | Some JNull => Some []
  | _ => None
  end.

Definition store_transform_member (acc : option (string * string)) (e : string * json) : option (string * string) :=
  match acc with
  | None => None
  | Some (name, config) =>
    match struct_field ["name"; "config"] (fst e) with
    | Some "name" => (fun n => (n, config)) <$> set_string name (snd e)
    | Some _ => Some (name, json_raw (snd e))
    | None => acc
    end
  end.
Definition Unmarshal_transform (text : string) : option (string * string) :=
  match json_parse text with
  | Some JNull => Some ("", "")
  | Some (JObj _ m) => fold_left store_transform_member m (Some ("", ""))
  | _ => None
  end.

(** One turn of the loop in [transformsFromArray]; a null entry is skipped. *)
Definition transform_entry (i : nat) (re : string) : result sync_error (option Transform) :=
  if negb (isNonNullJSON re) then Ok None
  else match Unmarshal_transform re with
       | None => Err (ParsingTransform i)
       | Some (name, config) =>
         if is_empty name then Err (TransformName i)
         else if isNonNullJSON config then
           match yamlNodeFromRawJSON config with
           | None => Err (TransformConfig i name)
           | Some n => Ok (Some (mkTransform name (Some n)))
           end
         else Ok (Some (mkTransform name None))
       end.
Definition transformsFromArray (raw : string) : result sync_error (list Transform) :=
  if negb (isNonNullJSON raw) then Ok []
  else match raw_entries raw with
       | None => Err ParsingTransforms
       | Some es => let* out := rmapi transform_entry 0 es in Ok (omap id out)
       end.

Definition block_transform (key name : string) (err : sync_error) (raw : string) : result sync_error (list Transform) :=
  if isNonNullJSON raw then
    match yamlNodeFromJSON key raw with Some n => Ok [mkTransform name (Some n)] | None => Err err end
  else Ok [].
Definition TransformsFromSync (rules secrets transformsRaw : string) : result sync_error (list Transform) :=
  let* r := block_transform "rules" "allowlist" ParsingRules rules in
  let* s := block_transform "secrets" "secrets" ParsingSecrets secrets in
  let* extra := transformsFromArray transformsRaw in
  Ok (r ++ s ++ extra).

(** [MCPFromSync]: [Ok None] is a block that is not present. *)
Definition MCPFromSync (raw : string) : result sync_error (option Node) :=
  if negb (isNonNullJSON raw) then Ok None
  else match yamlNodeFromRawJSON raw with Some n => Ok (Some n) | None => Err ParsingMCP end.

Record PostgresSyncEntry := mkSyncEntry {
  ForeignID : string; Database : string; DSN : secretSource; Role : string; Settings : list PgListener.Setting }.

(** The struct an entry decodes to; its DSN is raw. *)
Record rawEntry := mkRawEntry { re_ForeignID : string; re_Database : string; re_DSN : string; re_Role : string; re_Settings : list (string * string) }.
Definition store_setting_member (acc : option (string * string)) (e : string * json) : option (string * string) :=
  match acc with
  | None => None
  | Some (name, value) =>
    match struct_field ["name"; "value"] (fst e) with
    | Some "name" => (fun n => (n, value)) <$> set_string name (snd e)
    | Some _ => (fun v => (name, v)) <$> set_string value (snd e)
    | None => acc
    end
  end.
Definition set_setting (old : string * string) (j : json) : option (string * string) :=
  match j with
  | JNull => Some old
  | JObj _ m => fold_left store_setting_member m (Some old)
  | _ => None
  end.
(** Elements are decoded over the ones already there. *)
Fixpoint set_settings (old : list (string * string)) (l : list json) : option (list (string * string)) :=
  match l with
  | [] => Some []
  | j :: l =>
    s ← set_setting (default ("", "") (head old)) j;
    rest ← set_settings (tail old) l;
    Some (s :: rest)
  end.
Definition store_entry_member (acc : option rawEntry) (e : string * json) : option rawEntry :=
  match acc with
  | None => None
  | Some r =>
    let '(mkRawEntry f d n ro st) := r in
    match struct_field ["foreign_id"; "database"; "dsn"; "role"; "settings"] (fst e) with
    | None => Some r
    | Some "foreign_id" => (fun x => mkRawEntry x d n ro st) <$> set_string f (snd e)
    | Some "database" => (fun x => mkRawEntry f x n ro st) <$> set_string d (snd e)
    | Some "dsn" => Some (mkRawEntry f d (json_raw (snd e)) ro st)
    | Some "role" => (fun x => mkRawEntry f d n x st) <$> set_string ro (snd e)
    | Some _ => match snd e with
                | JNull => Some (mkRawEntry f d n ro [])
                | JArr _ l => (fun x => mkRawEntry f d n ro x) <$> set_settings st l
                | _ => None
                end
    end
  end.
Definition Unmarshal_entry (text : string) : option rawEntry :=
  match json_parse text with
  | Some JNull => Some (mkRawEntry "" "" "" "" [])
  | Some (JObj _ m) => fold_left store_entry_member m (Some (mkRawEntry "" "" "" "" []))
  | _ => None
  end.

Section postgres.
Variable buildSource : Node -> option secretSource.
Definition postgres_entry (i : nat) (re : string) : result sync_error (option PostgresSyncEntry) :=
  if negb (isNonNullJSON re) then Ok None
  else match Unmarshal_entry re with
       | None => Err (ParsingEntry i)
       | Some e =>
         if is_empty (re_ForeignID e) then Err (EntryField (Itoa (Z.of_nat i)) "foreign_id")
         else if negb (isNonNullJSON (re_DSN e)) then Err (EntryField (re_ForeignID e) "dsn")
         else if is_empty (re_Database e) then Err (EntryField (re_ForeignID e) "database")
         else match yamlNodeFromRawJSON (re_DSN e) ≫= buildSource with
              | None => Err (EntryField (re_ForeignID e) "dsn source")
              | Some src => Ok (Some (mkSyncEntry (re_ForeignID e) (re_Database e) src (re_Role e)
                                        (map (fun s => PgListener.mkSetting (fst s) (snd s)) (re_Settings e))))
              end
       end.
Definition PostgresFromSync (raw : string) : result sync_error (list PostgresSyncEntry) :=
  if negb (isNonNullJSON raw) then Ok []
  else match raw_entries raw with
       | None => Err ParsingPostgres
       | Some es => let* out := rmapi postgres_entry 0 es in Ok (omap id out)
       end.
End postgres.
(** ** What a valid configuration is good for *)

Definition record_ok (r : DNSRecord) : Prop :=
  rec_Name r <> "" /\ (rec_Type r = "A" \/ rec_Type r = "CNAME") /\ rec_Value r <> "".

Lemma validate_records_ok i rs : validate_records i rs = None -> Forall record_ok rs.
Proof.
  revert i. induction rs as [|r rs IH]; intros i; cbn [validate_records]; [by constructor|].
  destruct (is_empty (rec_Name r)) eqn:En; [done|]. apply is_empty_false in En.
  destruct (str_eqb (rec_Type r) "A" || _) eqn:Et; [|done]. destruct (is_empty (rec_Value r)) eqn:Ev; [done|]. apply is_empty_false in Ev.
  intros Hr%IH. constructor; [|done]. split_and!; [done | | done]. apply orb_true_iff in Et. by rewrite !str_eqb_eq in Et.
Qed.

Lemma ValidateCIDRs_guard cidrs : ValidateCIDRs cidrs = None -> exists g, NewGuard cidrs = Ok g.
Proof. pose proof (NewGuard_spec cidrs) as Hs. destruct (NewGuard cidrs) as [g|e]; [eauto|]. by rewrite Hs. Qed.

(** The requirements of the parts [main] builds next. *)
Record deployable (Getenv : string -> string) (c : t) : Prop := mkDeployable {
  dp_guard : exists g, NewGuard (Values (UpstreamDenyCIDRs (c_Proxy c))) = Ok g;
  dp_timeout : 0 < UpstreamResponseHeaderTimeout (c_Proxy c);
  dp_poll : 0 < PollInterval c;
  dp_mode : TLSMode (c_TLS c) = TLSModeMITM /\ CACert (c_TLS c) <> "" /\ CAKey (c_TLS c) <> "" \/ TLSMode (c_TLS c) = TLSModeSNIOnly;
  dp_dns : IsEnabled (c_DNS c) = true -> ProxyIP (c_DNS c) <> "";
  dp_key : mg_Listen (c_Management c) <> "" -> Getenv (APIKeyEnv (c_Management c)) <> "";
  dp_records : Forall record_ok (Records (c_DNS c));
}.

Lemma Validate_deployable Getenv c : Validate Getenv c = None -> deployable Getenv c.
Proof.
  unfold Validate. destruct (IsEnabled _ && _) eqn:Ed; [done|]. destruct (str_eqb (TLSMode _) TLSModeMITM && is_empty (CACert _)) eqn:Ec; [done|].
  destruct (str_eqb (TLSMode _) TLSModeMITM && is_empty (CAKey _)) eqn:Ek; [done|]. destruct (str_eqb (TLSMode _) TLSModeMITM || _) eqn:Em; cbn [negb]; [|done].
  destruct (parseLogLevel _); [|done]. destruct (UpstreamResponseHeaderTimeout _ <=? 0) eqn:Et; [done|].
  destruct (PollInterval c <=? 0) eqn:Ep; [done|]. destruct (ValidateCIDRs _) eqn:Ev; [done|].
  destruct (negb _ && is_empty (APIKeyEnv _)); [done|]. destruct (negb _ && is_empty (Getenv _)) eqn:Eg; [done|].
  intros Hr%validate_records_ok. apply Z.leb_gt in Et, Ep. split; try done.
  - by apply ValidateCIDRs_guard.
  - destruct (str_eqb (TLSMode _) TLSModeMITM) eqn:E1; cbn [andb orb] in *.
    + apply str_eqb_eq in E1. apply is_empty_false in Ec, Ek. by left.
    + apply str_eqb_eq in Em. by right.
  - intros He. rewrite He in Ed. by apply is_empty_false in Ed.
  - intros Hm%is_empty_false. rewrite Hm in Eg. by apply is_empty_false in Eg.
Qed.

Lemma LoadConfig_deny files Getenv path c :
  LoadConfig files Getenv path = Ok c ->
  exists cfg, (if is_empty path then Ok zero else parseFileOrS3 files path) = Ok cfg /\
    (if is_empty (Getenv "IRON_PROXY_UPSTREAM_DENY_CIDRS") then
       Values (UpstreamDenyCIDRs (c_Proxy c)) =
         if Set_ (UpstreamDenyCIDRs (c_Proxy cfg)) then Values (UpstreamDenyCIDRs (c_Proxy cfg)) else defaultDenyCIDRs
     else splitCIDREnvList (Getenv "IRON_PROXY_UPSTREAM_DENY_CIDRS") = Ok (Values (UpstreamDenyCIDRs (c_Proxy c)))).
Proof.
  unfold LoadConfig. intros (cfg & Hcfg & (cfg1 & He & [= <-])%rbind_Ok_inv)%rbind_Ok_inv. exists cfg. split; [exact Hcfg|].
  unfold applyEnvOverrides in He. do 7 (apply rbind_Ok_inv in He as (? & _ & He)). apply rbind_Ok_inv in He as (cidrs & Hc & He).
  apply rbind_Ok_inv in He as (? & _ & [= <-]). cbn [applyDefaults c_Proxy UpstreamDenyCIDRs]. unfold env_cidrs in Hc.
  destruct (is_empty (Getenv "IRON_PROXY_UPSTREAM_DENY_CIDRS")); [injection Hc as <-; by destruct (Set_ _)|].
  apply rbind_Ok_inv in Hc as (l & Hl & Hc). destruct (ValidateCIDRs l); [done|]. injection Hc as <-. done.
Qed.

(** A configuration that loads and validates can be deployed, and it
    guards by default.  Its deny list compiles, its timeouts are positive, a
    terminating proxy has its CA, an enabled DNS server an address, an enabled
    management API a key in the environment and every record is complete;
    the deny list is the environment's when that is set, the file's when it
    has one, an empty one included, and otherwise the default, which refuses
    the metadata and loopback addresses. *)
Theorem valid_config_deploys files Getenv path c :
  LoadConfig files Getenv path = Ok c -> Validate Getenv c = None ->
  deployable Getenv c /\
  exists cfg g, (if is_empty path then Ok zero else parseFileOrS3 files path) = Ok cfg /\
    NewGuard (Values (UpstreamDenyCIDRs (c_Proxy c))) = Ok g /\
    if is_empty (Getenv "IRON_PROXY_UPSTREAM_DENY_CIDRS") then
      if Set_ (UpstreamDenyCIDRs (c_Proxy cfg)) then Values (UpstreamDenyCIDRs (c_Proxy c)) = Values (UpstreamDenyCIDRs (c_Proxy cfg))
      else (forall a, a ∈ metadataAddresses -> IsDenied (Some g) a = true) /\
           (forall v, 0 <= v < 2 ^ 24 -> IsDenied (Some g) (Addr4 (Z.shiftl 127 24 + v)) = true)
    else splitCIDREnvList (Getenv "IRON_PROXY_UPSTREAM_DENY_CIDRS") = Ok (Values (UpstreamDenyCIDRs (c_Proxy c))).
Proof.
  intros Hl Hv%Validate_deployable. split; [done|]. destruct Hv as [[g Hg] _ _ _ _ _ _].
  destruct (LoadConfig_deny _ _ _ _ Hl) as (cfg & Hcfg & Hd). exists cfg, g. split_and!; [done | done |].
  destruct (is_empty (Getenv _)); [|done]. destruct (Set_ _); [done|]. rewrite Hd in Hg.
  destruct default_guard_denies as (g' & Hg' & Hm & Hlo & _). rewrite Hg' in Hg. by injection Hg as <-.
Qed.

(** The transforms of a sync: the allowlist first, then the secrets, then the
    delivered ones in order; nothing stands for a block that is missing. *)
Lemma TransformsFromSync_names rules secrets ts l :
  TransformsFromSync rules secrets ts = Ok l ->
  exists extra, transformsFromArray ts = Ok extra /\
    map t_Name l = (if isNonNullJSON rules then ["allowlist"] else []) ++ (if isNonNullJSON secrets then ["secrets"] else []) ++ map t_Name extra.
Proof.
  unfold TransformsFromSync. intros (r & Hr & (s & Hs & (extra & He & [= <-])%rbind_Ok_inv)%rbind_Ok_inv)%rbind_Ok_inv.
  exists extra. split; [done|]. rewrite !map_app. unfold block_transform in *. f_equal; [|f_equal].
  - destruct (isNonNullJSON rules); [|by injection Hr as <-]. destruct (yamlNodeFromJSON "rules" _); [|done]. by injection Hr as <-.
  - destruct (isNonNullJSON secrets); [|by injection Hs as <-]. destruct (yamlNodeFromJSON "secrets" _); [|done]. by injection Hs as <-.
Qed.
End config.

Section examples.
(** A YAML whose nodes are their texts. *)
Definition text_yaml : Yaml := {| Node := string; yaml_Unmarshal := fun s => Some (Some s); is_document := fun _ => true; Content := fun s => [s] |}.
Local Existing Instances ascii_tables text_yaml.
Definition example_env (v : string) : string :=
  if str_eqb v "IRON_DNS_PROXY_IP" then "10.0.0.1" else if str_eqb v "IRON_TLS_MODE" then "sni-only" else "".
Definition no_files : Files := mkFiles (fun _ => Err "no such file") (fun _ _ => Err "no such object").
Definition example_config : t := match LoadConfig no_files example_env "" with Ok c => c | Err _ => zero end.
Lemma valid_config_deploys_witness :
  deployable example_env example_config /\ Values (UpstreamDenyCIDRs (c_Proxy example_config)) = defaultDenyCIDRs.
Proof.
  split; [|vm_compute; reflexivity].
  exact (proj1 (valid_config_deploys no_files example_env "" example_config ltac:(vm_compute; reflexivity) ltac:(vm_compute; reflexivity))).
Defined.
End examples.
End Config.
