(* ===== verification/DnsServer.v ===== *)
(** * The DNS server (src/internal/dns/server.go)

    Every name resolves to the proxy, except static records and the names
    that pass through to the upstream resolver.  The wire library and the
    resolver are parameters. *)
From stdpp Require Import base gmap strings list option.
From Stdlib Require Import ZArith Lia Ascii.
From S2P Require Import Prelude GoUtf8 GoStrings GoNet HostMatch Config.
Local Open Scope string_scope.
Local Open Scope list_scope.
Local Open Scope Z_scope.

Module DnsServer.
Import Config.

(** [dns.Fqdn]: the name itself when it is fully qualified, else the name
    with a dot. *)
Class DnsLib := {
  Fqdn : string -> string;
  Fqdn_cases s : Fqdn s = s \/ Fqdn s = s +:+ ".";
  Fqdn_idem s : Fqdn (Fqdn s) = Fqdn s;
}.

Definition TypeA : Z := 1.
Definition TypeCNAME : Z := 5.
Record Question := mkQuestion { q_Name : string; q_Qtype : Z }.
(** Answers carry the name asked for, class IN and a TTL of 60; an [A] may
    have no address. *)
Inductive RR := A (name : string) (ip : option Z) | CNAME (name target : string).

Record Server := mkServer { proxyIP : Z; passthrough : list string; records : gmap string DNSRecord }.

Section server.
Context `{UnicodeTables} `{DnsLib}.

(** [New]; [None] is an invalid proxy address. *)
Definition New (cfg : DNS) : option Server :=
  match ParseIP (ProxyIP cfg) with
  | None => None
  | Some ip =>
    match To4 ip with
    | None => None
    | Some _ =>
      Some (mkServer ip (Passthrough cfg)
              (fold_left (fun m r => <[Fqdn (ToLower (rec_Name r)) := r]> m) (Records cfg) ∅))
    end
  end.

Definition staticRecord (s : Server) (q : Question) (name : string) : option RR :=
  match records s !! name with
  | None => None
  | Some rec =>
    if str_eqb (rec_Type rec) "A" && (q_Qtype q =? TypeA) then
      match ParseIP (rec_Value rec) with
      | None => None
      | Some ip => Some (A (q_Name q) (To4 ip))
      end
    else if str_eqb (rec_Type rec) "CNAME" && (q_Qtype q =? TypeCNAME) then
      Some (CNAME (q_Name q) (Fqdn (rec_Value rec)))
    else None
  end.

Definition isPassthrough (s : Server) (name : string) : bool :=
  existsb (fun pattern => MatchGlob pattern (TrimSuffix name ".")) (passthrough s).

(** [LookupHost] of the upstream resolver. *)
Variable LookupHost : string -> result string (list string).

Definition handlePassthrough (q : Question) (name : string) : list RR :=
  match LookupHost (TrimSuffix name ".") with
  | Err _ => []
  | Ok addrs =>
    omap (fun addr => match ParseIP addr ≫= To4 with
                      | Some v4 => if q_Qtype q =? TypeA then Some (A (q_Name q) (Some v4)) else None
                      | None => None
                      end) addrs
  end.
Definition handleIntercept (s : Server) (q : Question) : list RR :=
  if q_Qtype q =? TypeA then [A (q_Name q) (To4 (proxyIP s))] else [].

(** One turn of the loop over the questions. *)
Definition answer_question (s : Server) (q : Question) : list RR :=
  let name := ToLower (q_Name q) in
  match staticRecord s q name with
  | Some rr => [rr]
  | None => if isPassthrough s name then handlePassthrough q name else handleIntercept s q
  end.
(** [handleQuery]: the answer section of the reply. *)
Definition handleQuery (s : Server) (qs : list Question) : list RR := flat_map (answer_question s) qs.

(** ** What a reply says *)

(** The record a name has: the last of the configuration that has it. *)
Definition record_of (cfg : DNS) (name : string) : option DNSRecord :=
  List.find (fun r => str_eqb (Fqdn (ToLower (rec_Name r))) name) (rev (Records cfg)).

Lemma find_snoc {X} (f : X -> bool) l x :
  List.find f (l ++ [x]) = match List.find f l with Some y => Some y | None => if f x then Some x else None end.
Proof. induction l as [|y l IH]; cbn; [done|]. by destruct (f y). Qed.

Lemma records_lookup (rs : list DNSRecord) (m : gmap string DNSRecord) name :
  fold_left (fun m r => <[Fqdn (ToLower (rec_Name r)) := r]> m) rs m !! name
  = match List.find (fun r => str_eqb (Fqdn (ToLower (rec_Name r))) name) (rev rs) with
    | Some r => Some r
    | None => m !! name
    end.
Proof.
  revert m. induction rs as [|r rs IH]; intros m; [done|]. cbn [fold_left rev]. rewrite IH, find_snoc.
  destruct (List.find _ (rev rs)); [done|]. destruct (str_eqb _ name) eqn:E.
  - apply str_eqb_eq in E as <-. apply lookup_insert_eq.
  - apply str_eqb_neq in E. by apply lookup_insert_ne.
Qed.

Lemma New_spec cfg s :
  New cfg = Some s ->
  (exists v4, ParseIP (ProxyIP cfg) ≫= To4 = Some v4 /\ To4 (proxyIP s) = Some v4) /\ passthrough s = Passthrough cfg /\ forall name, records s !! name = record_of cfg name.
Proof.
  unfold New. destruct (ParseIP _) as [ip|]; [|done]. destruct (To4 ip) eqn:E4; [|done]. intros [= <-]. cbn. split_and!; [eauto | done |].
  intros name. rewrite records_lookup. unfold record_of. destruct (List.find _ _); [done | apply lookup_empty].
Qed.

(** What the configuration says of a question: the IPv4 address of an A
    record, the target of a CNAME record, and, of an A record with an IPv6
    address, an answer without an address. *)
Inductive recorded (cfg : DNS) (q : Question) : RR -> Prop :=
  | address_record rec v4 : record_of cfg (ToLower (q_Name q)) = Some rec -> rec_Type rec = "A" -> q_Qtype q = TypeA ->
      ParseIP (rec_Value rec) ≫= To4 = Some v4 -> recorded cfg q (A (q_Name q) (Some v4))
  | void_record rec ip : record_of cfg (ToLower (q_Name q)) = Some rec -> rec_Type rec = "A" -> q_Qtype q = TypeA ->
      ParseIP (rec_Value rec) = Some ip -> To4 ip = None -> recorded cfg q (A (q_Name q) None)
  | alias_record rec : record_of cfg (ToLower (q_Name q)) = Some rec -> rec_Type rec = "CNAME" -> q_Qtype q = TypeCNAME ->
      recorded cfg q (CNAME (q_Name q) (Fqdn (rec_Value rec))).
Definition unrecorded (cfg : DNS) (q : Question) : Prop := forall rr, ~ recorded cfg q rr.
(** A passthrough pattern has the name. *)
Definition exempt (cfg : DNS) (q : Question) : Prop :=
  exists pattern, pattern ∈ Passthrough cfg /\ MatchGlob pattern (TrimSuffix (ToLower (q_Name q)) ".") = true.

(** Where an answer comes from. *)
Inductive source (cfg : DNS) (q : Question) : RR -> Prop :=
  | from_record rr : recorded cfg q rr -> source cfg q rr
  | from_upstream addrs addr v4 : unrecorded cfg q -> exempt cfg q -> q_Qtype q = TypeA ->
      LookupHost (TrimSuffix (ToLower (q_Name q)) ".") = Ok addrs -> addr ∈ addrs -> ParseIP addr ≫= To4 = Some v4 ->
      source cfg q (A (q_Name q) (Some v4))
  | from_proxy v4 : unrecorded cfg q -> ~ exempt cfg q -> q_Qtype q = TypeA -> ParseIP (ProxyIP cfg) ≫= To4 = Some v4 ->
      source cfg q (A (q_Name q) (Some v4)).

Lemma staticRecord_spec cfg s q rr : New cfg = Some s -> staticRecord s q (ToLower (q_Name q)) = Some rr <-> recorded cfg q rr.
Proof.
  intros (_ & _ & Hrec)%New_spec. unfold staticRecord. rewrite Hrec. split.
  - destruct (record_of cfg _) as [rec|] eqn:Er; [|done].
    destruct (str_eqb (rec_Type rec) "A" && (q_Qtype q =? TypeA)) eqn:Ea.
    + apply andb_true_iff in Ea as [Ht%str_eqb_eq Hq%Z.eqb_eq]. destruct (ParseIP (rec_Value rec)) as [ip|] eqn:Ep; [|done]. intros [= <-]. destruct (To4 ip) as [v4|] eqn:E4.
      * apply (address_record _ _ rec); [done..|]. by rewrite Ep.
      * by apply (void_record _ _ rec ip).
    + clear Ea. destruct (_ && _) eqn:Ec; [|done]. apply andb_true_iff in Ec as [Ht%str_eqb_eq Hq%Z.eqb_eq]. intros [= <-]. by apply alias_record.
  - destruct 1 as [rec v4 Hr Ht Hq Hv|rec ip Hr Ht Hq Hp H4|rec Hr Ht Hq]; rewrite Hr, Ht, Hq; cbn.
    + destruct (ParseIP (rec_Value rec)) as [ip|]; [|done]. cbn in Hv. by rewrite Hv.
    + by rewrite Hp, H4.
    + done.
Qed.
Lemma staticRecord_none cfg s q : New cfg = Some s -> staticRecord s q (ToLower (q_Name q)) = None <-> unrecorded cfg q.
Proof.
  intros Hn. split.
  - intros Hs rr Hr. apply (staticRecord_spec cfg s q rr Hn) in Hr. by rewrite Hs in Hr.
  - intros Hu. destruct (staticRecord _ _ _) as [rr|] eqn:E; [|done]. apply (staticRecord_spec cfg s q rr Hn) in E. by destruct (Hu rr).
Qed.
Lemma isPassthrough_spec cfg s q : New cfg = Some s -> isPassthrough s (ToLower (q_Name q)) = true <-> exempt cfg q.
Proof. intros (_ & Hpass & _)%New_spec. unfold isPassthrough, exempt. rewrite Hpass. split; [by intros ?%existsb_elem | intros ?; by apply existsb_elem]. Qed.

Lemma answer_source cfg s q rr : New cfg = Some s -> rr ∈ answer_question s q <-> source cfg q rr.
Proof.
  intros Hn. pose proof (staticRecord_spec cfg s q) as Hsp. pose proof (staticRecord_none cfg s q Hn) as Hno. pose proof (isPassthrough_spec cfg s q Hn) as Hex.
  destruct (New_spec cfg s Hn) as ((p4 & Hp4 & Hs4) & _ & _). unfold answer_question.
  destruct (staticRecord s q (ToLower (q_Name q))) as [r|] eqn:Es.
  - assert (recorded cfg q r) as Hr by (by apply Hsp). rewrite list_elem_of_singleton. split; [intros ->; by apply from_record|].
    destruct 1 as [rr' Hr'|? ? ? Hu|? Hu]; [|by destruct (Hu r)..]. apply (Hsp rr' Hn) in Hr'. congruence.
  - assert (unrecorded cfg q) as Hu by (by apply Hno). assert (forall rr', ~ recorded cfg q rr') as Hu' by exact Hu.
    destruct (isPassthrough s (ToLower (q_Name q))) eqn:Ep.
    + assert (exempt cfg q) as He by (by apply Hex). unfold handlePassthrough. split.
      * destruct (LookupHost _) as [addrs|] eqn:El; [|by intros ?%elem_of_nil]. intros (addr & Ha & Hv)%list_elem_of_omap.
        destruct (ParseIP addr ≫= To4) as [v4|] eqn:E4; [|done]. destruct (q_Qtype q =? TypeA) eqn:Eq; [|done]. bool_prop. injection Hv as <-. by eapply from_upstream.
      * destruct 1 as [rr' Hr'|addrs addr v4 _ _ Hq Hl Hin Hv|? _ Hne]; [by destruct (Hu' rr')| | done]. rewrite Hl. apply list_elem_of_omap. exists addr. by rewrite Hv, Hq.
    + assert (~ exempt cfg q) as He by (intros He%Hex; congruence). unfold handleIntercept. rewrite Hs4. split.
      * destruct (q_Qtype q =? TypeA) eqn:Eq; [|by intros ?%elem_of_nil]. bool_prop. intros ->%list_elem_of_singleton. by apply from_proxy.
      * destruct 1 as [rr' Hr'|? ? ? _ Hx|v4 _ _ Hq Hv]; [by destruct (Hu' rr') | done|]. rewrite Hq. cbn. apply list_elem_of_singleton. congruence.
Qed.

(** C30: The server names no address of its own choosing.  The answers of a
    reply are exactly these: for a name with a configured record of the type
    asked for, the last one of the configuration counting, the address or the
    target written in it; for another name that a passthrough pattern
    matches, the IPv4 addresses the upstream resolver gave; for any other
    name, whatever its spelling, the configured address of the proxy, and
    that alone.  An answer without an address comes only from a record whose
    address is an IPv6 one. *)
Theorem dns_intercepts cfg s qs :
  New cfg = Some s ->
  (forall rr, rr ∈ handleQuery s qs <-> exists q, q ∈ qs /\ source cfg q rr) /\
  (forall q, unrecorded cfg q -> ~ exempt cfg q ->
     exists v4, ParseIP (ProxyIP cfg) ≫= To4 = Some v4 /\
       answer_question s q = if q_Qtype q =? TypeA then [A (q_Name q) (Some v4)] else []) /\
  (forall n, A n None ∈ handleQuery s qs ->
     exists q rec ip, q ∈ qs /\ record_of cfg (ToLower (q_Name q)) = Some rec /\ rec_Type rec = "A" /\ ParseIP (rec_Value rec) = Some ip /\ To4 ip = None).
Proof.
  intros Hn. assert (forall rr, rr ∈ handleQuery s qs <-> exists q, q ∈ qs /\ source cfg q rr) as Hall.
  { intros rr. unfold handleQuery. rewrite list_elem_of_In, in_flat_map. apply exist_proper. intros q. rewrite <- !list_elem_of_In. by rewrite (answer_source cfg s q rr Hn). }
  split_and!; [done | |].
  - intros q Hu He. destruct (New_spec cfg s Hn) as ((v4 & Hv & Hs4) & _ & _). exists v4. split; [done|]. unfold answer_question.
    rewrite (proj2 (staticRecord_none cfg s q Hn) Hu). destruct (isPassthrough s _) eqn:Ep; [by apply (isPassthrough_spec cfg s q Hn) in Ep|].
    unfold handleIntercept. by rewrite Hs4.
  - intros n (q & Hq & Hs)%Hall. inversion Hs as [rr Hr| |]. inversion Hr as [|rec ip|]. by exists q, rec, ip.
Qed.

(** A static address that is an IPv6 one is answered without an address:
    [New] and the configuration check accept it, and [To4] of it is nil. *)
Theorem static_ipv6_has_no_address cfg s q rec ip :
  New cfg = Some s -> record_of cfg (ToLower (q_Name q)) = Some rec -> rec_Type rec = "A" -> q_Qtype q = TypeA ->
  ParseIP (rec_Value rec) = Some ip -> To4 ip = None -> answer_question s q = [A (q_Name q) None].
Proof.
  intros (_ & _ & Hrec)%New_spec Hr Ht Hq Hip H4. unfold answer_question, staticRecord.
  by rewrite Hrec, Hr, Ht, Hq, Hip, H4.
Qed.
End server.

Section examples.
Local Existing Instance ascii_tables.
(** Names without escapes. *)
Definition plain_fqdn (s : string) : string := if HasSuffix s "." then s else s +:+ ".".
#[refine] Definition plain_dns : DnsLib := {| Fqdn := plain_fqdn |}.
Proof.
  - intros s. unfold plain_fqdn. destruct (HasSuffix s "."); auto.
  - intros s. unfold plain_fqdn. destruct (HasSuffix s ".") eqn:E; [by rewrite E|].
    assert (HasSuffix (s +:+ ".") "." = true) as -> by (apply HasSuffix_spec; eauto). done.
Defined.
Local Existing Instance plain_dns.

Definition example_dns : DNS :=
  mkDNS None ":53" "10.0.0.1" "" ["*.internal"] [mkDNSRecord "static.test" "A" "192.0.2.7"; mkDNSRecord "six.test" "A" "2001:db8::1"].
Definition example_server : Server := default (mkServer 0 [] ∅) (New example_dns).
Definition example_lookup (h : string) : result string (list string) := Ok ["192.0.2.9"; "2001:db8::9"].
Example dns_example :
  handleQuery example_lookup example_server
    [mkQuestion "EVIL.example." TypeA; mkQuestion "db.internal." TypeA; mkQuestion "Static.Test." TypeA; mkQuestion "six.test." TypeA; mkQuestion "evil.example." 28]
  = [A "EVIL.example." (Some 0x0A000001); A "db.internal." (Some 0xC0000209); A "Static.Test." (Some 0xC0000207); A "six.test." None].
Proof. vm_compute. reflexivity. Qed.

Lemma dns_intercepts_witness :
  (exists v4, ParseIP (ProxyIP example_dns) ≫= To4 = Some v4 /\
     answer_question example_lookup example_server (mkQuestion "EVIL.example." TypeA) = [A "EVIL.example." (Some v4)]) /\
  A "Static.Test." (Some 0xC0000207) ∈ handleQuery example_lookup example_server [mkQuestion "Static.Test." TypeA].
Proof.
  assert (New example_dns = Some example_server) as Hn by (vm_compute; reflexivity). split.
  - refine (proj1 (proj2 (dns_intercepts example_lookup example_dns example_server [] Hn)) (mkQuestion "EVIL.example." TypeA) _ _).
    + intros rr Hr. destruct Hr as [rec v4 Hr|rec ip Hr|rec Hr]; vm_compute in Hr; discriminate Hr.
    + intros (pattern & ->%list_elem_of_singleton & Hm). vm_compute in Hm. discriminate Hm.
  - apply (proj1 (dns_intercepts example_lookup example_dns example_server [mkQuestion "Static.Test." TypeA] Hn)). exists (mkQuestion "Static.Test." TypeA).
    split; [apply list_elem_of_singleton; reflexivity|]. apply from_record, (address_record _ (mkQuestion "Static.Test." TypeA) (mkDNSRecord "static.test" "A" "192.0.2.7"));
      vm_compute; reflexivity.
Defined.
Lemma static_ipv6_has_no_address_witness :
  answer_question example_lookup example_server (mkQuestion "six.test." TypeA) = [A "six.test." None].
Proof.
  apply (static_ipv6_has_no_address example_lookup example_dns example_server (mkQuestion "six.test." TypeA)
           (mkDNSRecord "six.test" "A" "2001:db8::1") 0x20010db8000000000000000000000001); vm_compute; reflexivity.
Defined.
End examples.
End DnsServer.
