(* ===== verification/PgSession.v ===== *)
(** * Postgres sessions (src/internal/postgres/session.go, auth.go)

    [runSession] from the startup packet to the relay, and the relay as two
    goroutines whose steps interleave: client to server with the statement
    policy, server to client as a pass-through.  The wire codec, the driver
    and the database are parameters: a session is run on the messages and
    results they deliver. *)
From stdpp Require Import base gmap strings list option relations.
From Stdlib Require Import ZArith Lia Ascii.
From S2P Require Import Prelude GoUtf8 GoStrings GoNet Body GoHttp HostMatch Transform GoRegexp ScrubPairs Secrets.
From S2P Require Import GoJson GoJsonParse PgSql PgSafety PgCache PgPolicy PgConfig.
Local Open Scope string_scope.
Local Open Scope list_scope.
Local Open Scope Z_scope.

Module PgRelay.
Import PgListener.

(** ** Messages of the wire protocol

    The messages the code tells apart; all others are a tag and a payload. *)
Inductive FrontendMessage :=
  | Terminate
  | Query (text : string)
  | Parse (name text : string) (parameterOIDs : list Z)
  | FunctionCall (oid : Z) (payload : list Z)
  | Sync
  | PasswordMessage (password : string)
  | OtherFrontend (tag : Z) (payload : list Z).

Inductive BackendMessage :=
  | ErrorResponse (severity code message : string)
  | ReadyForQuery (txStatus : Z)
  | AuthenticationOk
  | AuthenticationCleartextPassword
  | ParameterStatus (name value : string)
  | BackendKeyData (processID : Z) (secretKey : list Z)
  | OtherBackend (tag : Z) (payload : list Z).

Inductive StartupMessage :=
  | Startup (parameters : gmap string string)
  | SSLRequest | GSSEncRequest | CancelRequest
  | OtherStartup.

(** ** The relay *)

Definition rejectError (reason : RejectReason) : BackendMessage :=
  let error code text := ErrorResponse "ERROR" code ("blocked by iron-proxy policy: " +:+ text) in
  match reason with
  | RejectDoBlock => error "0A000" "DO blocks are not supported (their plpgsql body cannot be inspected for embedded role changes)"
  | RejectPinnedSetting => error "42501" "this session setting is managed by the proxy; clients may not SET or RESET it"
  | RejectResetAll => error "42501" "RESET ALL would reset the proxy-managed role and session settings"
  | RejectDiscardAll => error "42501" "DISCARD ALL would reset the proxy-managed role and session settings"
  | RejectSetConfig => error "42501" "set_config is not supported because session settings are managed by the proxy"
  | RejectSettingsCatalogWrite =>
    error "42501" "writing to pg_settings, or defining a view or rule over it, is not supported because session settings are managed by the proxy"
  | RejectCallbackDefinition =>
    error "0A000" "definitions that bind functions as callbacks (aggregates, operators, types, casts, and similar) are not supported"
  | RejectFunctionCall => error "0A000" "the legacy FunctionCall protocol is not supported"
  | RejectUninspectableRoutine =>
    error "0A000" "function and procedure definitions must use inspectable SQL or PL/pgSQL without dynamic SQL"
  | RejectClientRoleChange =>
    error "42501" "role is managed by the proxy; clients may not issue SET ROLE / SET SESSION AUTHORIZATION / RESET ROLE"
  end.

Record relay := mkRelay { r_upstream : Upstream; r_txStatus : Z; r_skipExtended : bool }.
Definition tx_idle : Z := 73.
Definition newRelay (u : Upstream) : relay := mkRelay u tx_idle false.
Definition set_skip (r : relay) (b : bool) : relay := mkRelay (r_upstream r) (r_txStatus r) b.

(** What [writeReject] and [writeReadyForQuery] write. *)
Definition writeReject (r : relay) (reason : RejectReason) (withReadyForQuery : bool) : list BackendMessage :=
  rejectError reason :: if withReadyForQuery then [ReadyForQuery (r_txStatus r)] else [].
Definition writeReadyForQuery (r : relay) : list BackendMessage := [ReadyForQuery (r_txStatus r)].

(** [writeClient] of one message from the upstream. *)
Definition writeClient (r : relay) (m : BackendMessage) : relay * list BackendMessage :=
  (match m with ReadyForQuery tx => mkRelay (r_upstream r) tx (r_skipExtended r) | _ => r end, [m]).

Section relay.
Context `{UnicodeTables} `{PgParser} {C : Type} `{LruCache C}.

(** What one client message leads to: the relay, what goes upstream, what is
    written to the client, and whether the loop goes on. *)
Record outcome := mkOutcome { o_relay : relay; o_upstream : list FrontendMessage; o_client : list BackendMessage; o_goes_on : bool }.

(** One turn of the loop of [clientToServer].  [flushed] tells whether the
    upstream took the message.  There is no answer only if the classification
    runs out of fuel. *)
Definition client_message (m : FrontendMessage) (flushed : bool) (r : relay) (c : C) : option (outcome * C) :=
  let judge text := ClassifyClientStatement (S (String.length text)) text (up_pinnedGUCs (r_upstream r)) c in
  match m with
  | Terminate => Some (mkOutcome r [m] [] false, c)
  | Query text =>
    let r := set_skip r false in
    match judge text with
    | None => None
    | Some (Some reason, c') => Some (mkOutcome r [] (writeReject r reason true) true, c')
    | Some (None, c') => Some (mkOutcome r [m] [] flushed, c')
    end
  | Parse _ text _ =>
    match judge text with
    | None => None
    | Some (Some reason, c') => Some (mkOutcome (set_skip r true) [] (writeReject r reason false) true, c')
    | Some (None, c') => Some (mkOutcome r [m] [] flushed, c')
    end
  | FunctionCall _ _ =>
    if r_skipExtended r then Some (mkOutcome r [] [] true, c)
    else Some (mkOutcome r [] (writeReject r RejectFunctionCall true) true, c)
  | Sync =>
    if r_skipExtended r then Some (mkOutcome (set_skip r false) [] (writeReadyForQuery r) true, c)
    else Some (mkOutcome r [m] [] flushed, c)
  | PasswordMessage _ | OtherFrontend _ _ =>
    if r_skipExtended r then Some (mkOutcome r [] [] true, c) else Some (mkOutcome r [m] [] flushed, c)
  end.

(** ** Interleavings

    A running relay, with what has happened so far: the client messages
    received, those sent upstream, the replies received from the upstream,
    and everything written to the client, synthetic messages marked. *)
Record conf := mkConf {
  cf_relay : relay; cf_cache : C; cf_c2s : bool; cf_s2c : bool;
  cf_consumed : list FrontendMessage; cf_forwarded : list FrontendMessage;
  cf_received : list BackendMessage; cf_log : list (bool * BackendMessage) }.

Definition start (u : Upstream) (c : C) : conf := mkConf (newRelay u) c true true [] [] [] [].

(** The goroutines of one relay, and other sessions that use the cache.  Each
    write to the client is atomic under [clientWriteMu]; a goroutine ends on
    a read error, on [Terminate] or on a failed flush. *)
Inductive step : conf -> conf -> Prop :=
  | step_client m flushed o c' k :
      cf_c2s k = true -> client_message m flushed (cf_relay k) (cf_cache k) = Some (o, c') ->
      step k (mkConf (o_relay o) c' (o_goes_on o) (cf_s2c k) (cf_consumed k ++ [m]) (cf_forwarded k ++ o_upstream o)
                (cf_received k) (cf_log k ++ map (pair true) (o_client o)))
  | step_client_end k :
      step k (mkConf (cf_relay k) (cf_cache k) false (cf_s2c k) (cf_consumed k) (cf_forwarded k) (cf_received k) (cf_log k))
  | step_server m k :
      cf_s2c k = true ->
      step k (mkConf (writeClient (cf_relay k) m).1 (cf_cache k) (cf_c2s k) (cf_s2c k) (cf_consumed k) (cf_forwarded k)
                (cf_received k ++ [m]) (cf_log k ++ map (pair false) (writeClient (cf_relay k) m).2))
  | step_server_end k :
      step k (mkConf (cf_relay k) (cf_cache k) (cf_c2s k) false (cf_consumed k) (cf_forwarded k) (cf_received k) (cf_log k))
  | step_cache c k :
      cache_ok c ->
      step k (mkConf (cf_relay k) c (cf_c2s k) (cf_s2c k) (cf_consumed k) (cf_forwarded k) (cf_received k) (cf_log k)).

(** ** What the relay is to do

    The reference: texts are judged by their meaning; between a rejected
    [Parse] and the next [Sync] or [Query] the relay is skipping. *)
Definition ends_skip (m : FrontendMessage) : bool := match m with Query _ | Sync => true | _ => false end.
Definition skipping (pinned : gset string) (ms : list FrontendMessage) : Prop :=
  exists pre name text oids post, ms = pre ++ Parse name text oids :: post /\ ~ permitted pinned text /\
    Forall (fun m => ends_skip m = false) post.

(** Which messages go upstream after [ms], and which of the others the proxy
    has to answer with a [ReadyForQuery] of its own. *)
Definition goes_upstream (pinned : gset string) (ms : list FrontendMessage) (m : FrontendMessage) : Prop :=
  match m with
  | Terminate => True
  | Query text | Parse _ text _ => permitted pinned text
  | FunctionCall _ _ => False
  | Sync | PasswordMessage _ | OtherFrontend _ _ => ~ skipping pinned ms
  end.
Definition owes_ready (pinned : gset string) (ms : list FrontendMessage) (m : FrontendMessage) : Prop :=
  match m with
  | Query _ | Sync => True
  | FunctionCall _ _ => ~ skipping pinned ms
  | _ => False
  end.
Inductive relays (pinned : gset string) : list FrontendMessage -> list FrontendMessage -> nat -> Prop :=
  | relays_nil : relays pinned [] [] 0
  | relays_keep ms fs n m : relays pinned ms fs n -> goes_upstream pinned ms m -> relays pinned (ms ++ [m]) (fs ++ [m]) n
  | relays_answer ms fs n m :
      relays pinned ms fs n -> ~ goes_upstream pinned ms m -> owes_ready pinned ms m -> relays pinned (ms ++ [m]) fs (S n)
  | relays_drop ms fs n m :
      relays pinned ms fs n -> ~ goes_upstream pinned ms m -> ~ owes_ready pinned ms m -> relays pinned (ms ++ [m]) fs n.

Lemma skipping_nil pinned : ~ skipping pinned [].
Proof. intros (pre & ? & ? & ? & post & Heq & _). by destruct pre. Qed.

Lemma skipping_snoc pinned ms m :
  skipping pinned (ms ++ [m]) <->
  (exists name text oids, m = Parse name text oids /\ ~ permitted pinned text) \/ (skipping pinned ms /\ ends_skip m = false).
Proof.
  split.
  - intros (pre & name & text & oids & post & Heq & Hp & Hpost). destruct (decide (post = [])) as [->|Hne].
    + apply app_inj_tail in Heq as [_ ->]. left. eauto.
    + destruct (exists_last Hne) as (post' & m' & ->). rewrite app_comm_cons, app_assoc in Heq.
      apply app_inj_tail in Heq as [-> ->]. apply Forall_app in Hpost as [Hpost [Hm _]%list.Forall_cons].
      right. split; [|done]. by exists pre, name, text, oids, post'.
  - intros [(name & text & oids & -> & Hp)|[(pre & name & text & oids & post & -> & Hp & Hpost) Hm]].
    + exists ms, name, text, oids, []. by split_and!.
    + exists pre, name, text, oids, (post ++ [m]). rewrite <- app_assoc. split_and!; [done..|]. apply Forall_app. split; [done|]. by repeat constructor.
Qed.

Lemma skipping_ended pinned ms m : ends_skip m = true -> ~ skipping pinned (ms ++ [m]).
Proof. rewrite skipping_snoc. intros Hm [(? & ? & ? & -> & _)|[_ ?]]; [done | congruence]. Qed.
Lemma skipping_kept pinned ms m :
  ends_skip m = false -> (forall name text oids, m = Parse name text oids -> permitted pinned text) ->
  skipping pinned (ms ++ [m]) <-> skipping pinned ms.
Proof.
  rewrite skipping_snoc. intros Hm Hp. split; [|by right].
  intros [(name & text & oids & -> & Hn)|[? _]]; [by destruct Hn; eapply Hp | done].
Qed.

Lemma ready_rejected r reason b tx : ReadyForQuery tx ∈ writeReject r reason b -> tx = r_txStatus r.
Proof.
  unfold writeReject. intros [Hr|Hr]%elem_of_cons; [by destruct reason|].
  destruct b; [apply list_elem_of_singleton in Hr; congruence | by apply elem_of_nil in Hr].
Qed.
Lemma ready_none tx (P : Prop) : ReadyForQuery tx ∈ @nil BackendMessage -> P.
Proof. by intros ?%elem_of_nil. Qed.

(** What the relay guarantees at every point. *)
Definition synthetic_ready (e : bool * BackendMessage) : bool :=
  match e with (true, ReadyForQuery _) => true | _ => false end.
Definition replies (l : list (bool * BackendMessage)) : list BackendMessage :=
  map snd (List.filter (fun e => negb (fst e)) l).
Definition synthetic_readies (l : list (bool * BackendMessage)) : nat := length (List.filter synthetic_ready l).

Lemma rejected_count r reason b : synthetic_readies (map (pair true) (writeReject r reason b)) = if b then 1%nat else 0%nat.
Proof. by destruct reason, b. Qed.
Lemma relays_count pinned ms fs fs' n n' : relays pinned ms fs n -> fs = fs' -> n = n' -> relays pinned ms fs' n'.
Proof. by intros ? <- <-. Qed.

(** Finish a case of one turn: how the reference moves, and count the answers. *)
Tactic Notation "relay_by" tactic3(t) :=
  eapply relays_count; [solve [t] | try reflexivity; symmetry; apply app_nil_r | cbn [o_client]; rewrite ?rejected_count; cbn; lia].

(** One turn of the client loop does what the reference says. *)
Lemma client_message_refines m flushed r c o c' ms fs n :
  cache_ok c -> client_message m flushed r c = Some (o, c') ->
  let pinned := up_pinnedGUCs (r_upstream r) in
  relays pinned ms fs n -> (r_skipExtended r = true <-> skipping pinned ms) ->
  cache_ok c' /\ r_upstream (o_relay o) = r_upstream r /\ r_txStatus (o_relay o) = r_txStatus r /\
  relays pinned (ms ++ [m]) (fs ++ o_upstream o) (n + synthetic_readies (map (pair true) (o_client o))) /\
  (r_skipExtended (o_relay o) = true <-> skipping pinned (ms ++ [m])) /\
  (forall tx, ReadyForQuery tx ∈ o_client o -> tx = r_txStatus r).
Proof.
  intros Hc Hm pinned Hrel Hskip.
  destruct m as [|text|name text oids|oid p| |pw|tag p]; cbn [client_message] in Hm.
  - injection Hm as <- <-. split_and!; [done..| | |intros tx; apply ready_none]; [relay_by (by apply relays_keep)|].
    by rewrite skipping_kept.
  - destruct (ClassifyClientStatement _ text _ c) as [[[reason|] c1]|] eqn:Hcl; [| |done];
      destruct (ClassifyClientStatement_permitted _ _ _ _ _ _ Hc Hcl) as [Hp Hc1]; injection Hm as <- <-.
    + split_and!; [done..| | |intros tx Hr; cbn [o_client] in Hr; apply ready_rejected in Hr; exact Hr]; [relay_by (apply relays_answer; [done | by intros ?%Hp | done])|].
      split; [done|]. by intros ?%skipping_ended.
    + split_and!; [done..| | |intros tx; apply ready_none]; [relay_by (apply relays_keep; [done | by apply Hp])|].
      split; [done|]. by intros ?%skipping_ended.
  - destruct (ClassifyClientStatement _ text _ c) as [[[reason|] c1]|] eqn:Hcl; [| |done];
      destruct (ClassifyClientStatement_permitted _ _ _ _ _ _ Hc Hcl) as [Hp Hc1]; injection Hm as <- <-.
    + split_and!; [done..| | |intros tx Hr; cbn [o_client] in Hr; apply ready_rejected in Hr; exact Hr]; [relay_by (apply relays_drop; [done | by intros ?%Hp | by intros []])|].
      split; [|done]. intros _. apply skipping_snoc. left. exists name, text, oids. split; [done|]. by intros ?%Hp.
    + split_and!; [done..| | |intros tx; apply ready_none]; [relay_by (apply relays_keep; [done | by apply Hp])|].
      rewrite skipping_kept; [done..|]. intros ? ? ? [= -> -> ->]. by apply Hp.
  - destruct (r_skipExtended r) eqn:Hs; injection Hm as <- <-.
    + split_and!; [done..| | |intros tx; apply ready_none]; [|cbn; by rewrite Hs, skipping_kept].
      relay_by (apply relays_drop; [done | by intros [] | intros Hn; by apply Hn, Hskip]).
    + split_and!; [done..| | |intros tx Hr; cbn [o_client] in Hr; apply ready_rejected in Hr; exact Hr]; [|cbn; by rewrite Hs, skipping_kept].
      relay_by (apply relays_answer; [done | by intros [] | intros ?%Hskip; congruence]).
  - destruct (r_skipExtended r) eqn:Hs; injection Hm as <- <-.
    + split_and!; [done..| | |]; [| |by intros tx [= ->]%list_elem_of_singleton].
      * relay_by (apply relays_answer; [done | intros Hn; by apply Hn, Hskip | done]).
      * split; [done|]. by intros ?%skipping_ended.
    + split_and!; [done..| | |intros tx; apply ready_none]; [relay_by (apply relays_keep; [done | intros ?%Hskip; congruence])|].
      cbn. rewrite Hs. split; [done|]. by intros ?%skipping_ended.
  - destruct (r_skipExtended r) eqn:Hs; injection Hm as <- <-;
      (split_and!; [done..| | |intros tx; apply ready_none]; [|cbn; by rewrite Hs, skipping_kept]).
    + relay_by (apply relays_drop; [done | intros Hn; by apply Hn, Hskip | by intros []]).
    + relay_by (apply relays_keep; [done | intros ?%Hskip; congruence]).
  - destruct (r_skipExtended r) eqn:Hs; injection Hm as <- <-;
      (split_and!; [done..| | |intros tx; apply ready_none]; [|cbn; by rewrite Hs, skipping_kept]).
    + relay_by (apply relays_drop; [done | intros Hn; by apply Hn, Hskip | by intros []]).
    + relay_by (apply relays_keep; [done | intros ?%Hskip; congruence]).
Qed.

(** ** The invariant of a running relay *)

(** The transaction status the client last heard of from the upstream. *)
Definition status_after (tx : Z) (e : bool * BackendMessage) : Z :=
  match e with (false, ReadyForQuery tx') => tx' | _ => tx end.
Definition last_status (l : list (bool * BackendMessage)) : Z := foldl status_after tx_idle l.
Definition honest_status (l : list (bool * BackendMessage)) : Prop :=
  forall i tx, l !! i = Some (true, ReadyForQuery tx) -> tx = last_status (take i l).

Lemma last_status_synthetic l ms : last_status (l ++ map (pair true) ms) = last_status l.
Proof. unfold last_status. rewrite foldl_app. generalize (foldl status_after tx_idle l). by induction ms as [|[] ms IH]; cbn. Qed.

Lemma honest_status_synthetic l ms :
  honest_status l -> (forall tx, ReadyForQuery tx ∈ ms -> tx = last_status l) -> honest_status (l ++ map (pair true) ms).
Proof.
  intros Hl Hms i tx. rewrite lookup_app_Some. intros [Hi|[Hle Hi]].
  - rewrite take_app_le by (apply lookup_lt_Some in Hi; lia). by apply Hl.
  - apply list_lookup_fmap_Some in Hi as (m & [= <-] & Hi). rewrite take_app_ge by done.
    replace (take (i - length l) (map (pair true) ms)) with (map (pair true) (take (i - length l) ms)) by apply fmap_take.
    rewrite last_status_synthetic. by apply Hms, (list_elem_of_lookup_2 _ _ _ Hi).
Qed.

Lemma honest_status_reply l m : honest_status l -> honest_status (l ++ [(false, m)]).
Proof.
  intros Hl i tx. rewrite lookup_app_Some. intros [Hi|[Hle Hi]].
  - rewrite take_app_le by (apply lookup_lt_Some in Hi; lia). by apply Hl.
  - apply list_lookup_singleton_Some in Hi as [_ [=]].
Qed.

Lemma replies_app l1 l2 : replies (l1 ++ l2) = replies l1 ++ replies l2.
Proof. unfold replies. by rewrite List.filter_app, map_app. Qed.
Lemma replies_synthetic ms : replies (map (pair true) ms) = [].
Proof. by induction ms. Qed.
Lemma synthetic_readies_app l1 l2 : synthetic_readies (l1 ++ l2) = (synthetic_readies l1 + synthetic_readies l2)%nat.
Proof. unfold synthetic_readies. by rewrite List.filter_app, length_app. Qed.

Record relay_inv (u : Upstream) (k : conf) : Prop := mkInv {
  inv_cache : cache_ok (cf_cache k);
  inv_upstream : r_upstream (cf_relay k) = u;
  inv_skip : r_skipExtended (cf_relay k) = true <-> skipping (up_pinnedGUCs u) (cf_consumed k);
  inv_relays : relays (up_pinnedGUCs u) (cf_consumed k) (cf_forwarded k) (synthetic_readies (cf_log k));
  inv_replies : replies (cf_log k) = cf_received k;
  inv_status : r_txStatus (cf_relay k) = last_status (cf_log k);
  inv_honest : honest_status (cf_log k) }.

Lemma relay_inv_start u c : cache_ok c -> relay_inv u (start u c).
Proof. intros Hc. split; try done; [|constructor]. split; [done|]. by intros ?%skipping_nil. Qed.

Lemma relay_inv_step u k k' : step k k' -> relay_inv u k -> relay_inv u k'.
Proof.
  intros Hs [Hc Hu Hsk Hr Hrep Hst Hh]. destruct Hs as [m flushed o c' k Hon Hm|k|m k Hon|k|c k Hok]; [|by split| |by split..].
  - subst u. destruct (client_message_refines _ _ _ _ _ _ _ _ _ Hc Hm Hr Hsk) as (Hc' & Hu' & Htx & Hr' & Hsk' & Htxs).
    split; cbn [cf_relay cf_cache cf_consumed cf_forwarded cf_received cf_log]; [done | done | done | by rewrite synthetic_readies_app | | |].
    + by rewrite replies_app, replies_synthetic, app_nil_r.
    + by rewrite last_status_synthetic, Htx.
    + apply honest_status_synthetic; [done|]. intros tx Hin. by rewrite (Htxs tx Hin).
  - split; cbn [cf_relay cf_cache cf_consumed cf_forwarded cf_received cf_log writeClient fst snd map]; [done| | | | | |].
    + by destruct m.
    + by destruct m.
    + rewrite synthetic_readies_app. cbn. by rewrite Nat.add_0_r.
    + by rewrite replies_app, Hrep.
    + unfold last_status. rewrite foldl_app. cbn. by destruct m.
    + by apply honest_status_reply.
Qed.

Lemma relay_inv_steps u k k' : rtc step k k' -> relay_inv u k -> relay_inv u k'.
Proof. apply rtc_invariant. eauto using relay_inv_step. Qed.

(** What the reference lets through. *)
Definition gated (pinned : gset string) (m : FrontendMessage) : Prop :=
  match m with FunctionCall _ _ => False | Query text | Parse _ text _ => permitted pinned text | _ => True end.
Lemma relays_gated pinned ms fs n : relays pinned ms fs n -> Forall (gated pinned) fs /\ fs `sublist_of` ms.
Proof.
  induction 1 as [|ms fs n m _ [IHf IHs] Hm|ms fs n m _ [IHf IHs]|ms fs n m _ [IHf IHs]].
  - split; [constructor|done].
  - split; [|by apply sublist_app]. apply Forall_app. split; [done|]. repeat constructor. by destruct m.
  - split; [done|]. by apply sublist_inserts_r.
  - split; [done|]. by apply sublist_inserts_r.
Qed.
End relay.

(** ** The handshake *)

(** [receiveStartup]: at most three messages are read; the end of the list is
    a read error.  [write_ok] tells whether a refusal could be written. *)
Inductive startup_error := StartupRead | StartupWrite | StartupUnexpected | StartupTooMany.
Fixpoint receive_startup (attempts : nat) (write_ok : nat -> bool) (msgs : list StartupMessage)
    : result startup_error (option (gmap string string)) * list Z :=
  match attempts with
  | O => (Err StartupTooMany, [])
  | S n =>
    match msgs with
    | [] => (Err StartupRead, [])
    | Startup params :: _ => (Ok (Some params), [])
    | SSLRequest :: rest | GSSEncRequest :: rest =>
      if write_ok n then let '(r, raw) := receive_startup n write_ok rest in (r, 78 :: raw)
      else (Err StartupWrite, [])
    | CancelRequest :: _ => (Ok None, [])
    | OtherStartup :: _ => (Err StartupUnexpected, [])
    end
  end.
Definition receiveStartup (write_ok : nat -> bool) (msgs : list StartupMessage) := receive_startup 3 write_ok msgs.

Section handshake.
Context `{UnicodeTables}.

Definition writeFatal (code message : string) : BackendMessage := ErrorResponse "FATAL" code message.

(** A Go map read: the zero value for a missing key. *)
Definition param (params : gmap string string) (k : string) : string := default "" (params !! k).

(** What the session sends to the database before the relay. *)
Inductive command :=
  | ExecParams (sql : string) (params : list string)
  | Exec (sql : string).

(** The world of one session: the client's messages, the driver and the
    database. *)
Record SessionWorld := mkSessionWorld {
  sw_startup : list StartupMessage;
  sw_write_ok : nat -> bool;
  sw_challenge_ok : bool;                          (* the challenge could be written *)
  sw_password : option FrontendMessage;            (* the reply to it, or a read error *)
  sw_ParseConfig : string -> option string;        (* pgconn.ParseConfig: the database of a DSN *)
  sw_connect : string -> bool;                     (* pgconn.ConnectConfig *)
  sw_exec : nat -> command -> option string;       (* the error of the n-th command *)
  sw_hijack : option (list (string * string));     (* PgConn.Hijack: the parameter statuses *)
  sw_random : option (list Z);                     (* eight random bytes *)
  sw_flush_ok : bool }.

(** [authenticateClient]: what is written, and whether it succeeds. *)
Definition authenticateClient (l : Listener) (params : gmap string string) (challenge_ok : bool) (reply : option FrontendMessage)
    : list BackendMessage * bool :=
  let user := param params "user" in
  if is_empty user then ([writeFatal "28000" "no user provided in startup message"], false)
  else if negb (str_eqb user (l_clientUser l)) then ([writeFatal "28000" ("unknown user " +:+ strconv_Quote user)], false)
  else if negb challenge_ok then ([AuthenticationCleartextPassword], false)
  else match reply with
       | None => ([AuthenticationCleartextPassword], false)
       | Some (PasswordMessage password) =>
         if VerifyClient l user password then ([AuthenticationCleartextPassword], true)
         else ([AuthenticationCleartextPassword; writeFatal "28P01" "password authentication failed"], false)
       | Some _ => ([AuthenticationCleartextPassword; writeFatal "08P01" "expected password message"], false)
       end.

(** [randomBackendKey] on the bytes drawn. *)
Definition randomBackendKey (buf : list Z) : Z * list Z :=
  let b i := default 0 (buf !! i) in
  (Z.lor (Z.lor (Z.shiftl (b 0%nat) 24) (Z.shiftl (b 1%nat) 16)) (Z.lor (Z.shiftl (b 2%nat) 8) (b 3%nat)), drop 4 buf).

(** [dialUpstream]: the DSN connected to, or a configuration error with its
    message, or another error. *)
Inductive dial_error := DialConfig (message : string) | DialOther.
Definition missingDSNDatabase (configured : string) : string :=
  "upstream DSN for database " +:+ strconv_Quote configured
  +:+ " does not name a database; the DSN must specify the database it connects to".
Definition databaseMismatch (configured dsn : string) : string :=
  "upstream database mismatch: client connected to database " +:+ strconv_Quote configured
  +:+ " but its DSN connects to " +:+ strconv_Quote dsn +:+ "; the route database and DSN database must match".
Definition dialUpstream (w : SessionWorld) (u : Upstream) : result dial_error string :=
  match src_Get (up_dsn u) with
  | None => Err DialOther
  | Some dsn =>
    match sw_ParseConfig w dsn with
    | None => Err DialOther
    | Some database =>
      if is_empty database then Err (DialConfig (missingDSNDatabase (up_database u)))
      else if negb (str_eqb database (up_database u)) then Err (DialConfig (databaseMismatch (up_database u) database))
      else if sw_connect w dsn then Ok dsn else Err DialOther
    end
  end.

(** [applySessionSetup]: the commands run, and the error that stopped them. *)
Definition set_config_sql : string := "SELECT set_config($1, $2, false)".
Definition set_command (s : Setting) : command := ExecParams set_config_sql [s_Name s; s_Value s].
Definition role_command (role : string) : command := Exec ("SET ROLE " +:+ QuoteIdent role).
Fixpoint apply_settings (exec : nat -> command -> option string) (i : nat) (settings : list Setting)
    : list command * option string :=
  match settings with
  | [] => ([], None)
  | s :: rest =>
    match exec i (set_command s) with
    | Some e => ([set_command s], Some ("upstream rejected setting " +:+ strconv_Quote (s_Name s) +:+ ": " +:+ e))
    | None => let '(cs, r) := apply_settings exec (S i) rest in (set_command s :: cs, r)
    end
  end.
Definition applySessionSetup (exec : nat -> command -> option string) (u : Upstream) : list command * option string :=
  let '(cs, r) := apply_settings exec 0 (up_settings u) in
  match r with
  | Some e => (cs, Some e)
  | None =>
    if is_empty (up_role u) then (cs, None)
    else
      let c := role_command (up_role u) in
      (cs ++ [c], match exec (length cs) c with
                  | Some e => Some ("upstream rejected SET ROLE " +:+ QuoteIdent (up_role u) +:+ ": " +:+ e)
                  | None => None
                  end)
  end.

(** [completeClientHandshake]: what is written, in the order the statuses are
    ranged over, and whether the key could be drawn and the flush succeeded. *)
Definition completeClientHandshake (statuses : list (string * string)) (random : option (list Z)) (flush_ok : bool)
    : list BackendMessage * bool :=
  match random with
  | None => ([], false)
  | Some buf =>
    let '(pid, secret) := randomBackendKey buf in
    (AuthenticationOk :: map (fun '(n, v) => ParameterStatus n v) statuses ++ [BackendKeyData pid secret; ReadyForQuery tx_idle], flush_ok)
  end.

(** [runSession]: the bytes and messages written to the client, the DSN that
    was connected to, the commands it was sent, and the relay if it starts. *)
Record session := mkSession {
  ss_raw : list Z; ss_client : list BackendMessage; ss_dialed : option string; ss_commands : list command; ss_relay : option relay }.
Definition runSession (l : Listener) (w : SessionWorld) : session :=
  let '(startup, raw) := receiveStartup (sw_write_ok w) (sw_startup w) in
  match startup with
  | Err _ | Ok None => mkSession raw [] None [] None
  | Ok (Some params) =>
    let dbName := param params "database" in
    if is_empty dbName then mkSession raw [writeFatal "3D000" "no database specified in startup message"] None [] None
    else match lookup_upstream l dbName with
    | None => mkSession raw [writeFatal "3D000" ("no upstream for database " +:+ strconv_Quote dbName)] None [] None
    | Some u =>
      let '(out, ok) := authenticateClient l params (sw_challenge_ok w) (sw_password w) in
      if negb ok then mkSession raw out None [] None
      else match dialUpstream w u with
      | Err (DialConfig message) => mkSession raw (out ++ [writeFatal "3D000" message]) None [] None
      | Err DialOther => mkSession raw (out ++ [writeFatal "08006" "upstream connection failed"]) None [] None
      | Ok dsn =>
        match applySessionSetup (sw_exec w) u with
        | (cs, Some e) => mkSession raw (out ++ [writeFatal "08006" e]) (Some dsn) cs None
        | (cs, None) =>
          match sw_hijack w with
          | None => mkSession raw (out ++ [writeFatal "08006" "upstream hijack failed"]) (Some dsn) cs None
          | Some statuses =>
            let '(hello, done) := completeClientHandshake statuses (sw_random w) (sw_flush_ok w) in
            mkSession raw (out ++ hello) (Some dsn) cs (if done then Some (newRelay u) else None)
          end
        end
      end
    end
  end.

(** ** What a session has done *)

(** The client presented the listener's credential and named a database of
    the listener; the DSN connects to that database. *)
Definition session_admitted (l : Listener) (w : SessionWorld) (u : Upstream) (dsn : string) : Prop :=
  exists params, (receiveStartup (sw_write_ok w) (sw_startup w)).1 = Ok (Some params) /\
    param params "user" = l_clientUser l /\ sw_password w = Some (PasswordMessage (l_clientPassword l)) /\
    l_upstreams l !! param params "database" = Some u /\
    src_Get (up_dsn u) = Some dsn /\ sw_ParseConfig w dsn = Some (up_database u) /\ up_database u <> "".

Lemma authenticateClient_ok l params b reply out :
  authenticateClient l params b reply = (out, true) ->
  param params "user" = l_clientUser l /\ reply = Some (PasswordMessage (l_clientPassword l)).
Proof.
  unfold authenticateClient. destruct (is_empty _); [done|]. destruct (str_eqb _ (l_clientUser l)) eqn:Hu; [|done]. cbn [negb].
  destruct b; [|done]. cbn [negb]. destruct reply as [[]|]; try done.
  destruct (VerifyClient l _ password) eqn:Hv; [|done]. intros _. unfold VerifyClient in Hv. bool_prop.
  apply str_eqb_eq in Hu. split; [done|]. match goal with Hp : str_eqb password _ = true |- _ => apply str_eqb_eq in Hp as -> end. done.
Qed.

Lemma dialUpstream_ok w u dsn :
  dialUpstream w u = Ok dsn -> src_Get (up_dsn u) = Some dsn /\ sw_ParseConfig w dsn = Some (up_database u) /\ up_database u <> "".
Proof.
  unfold dialUpstream. destruct (src_Get _) as [d|]; [|done]. destruct (sw_ParseConfig w d) as [db|] eqn:Hp; [|done].
  destruct (is_empty db) eqn:He; [done|]. destruct (str_eqb db _) eqn:Hd; [|done]. cbn [negb]. destruct (sw_connect w d); [|done].
  intros [= <-]. apply str_eqb_eq in Hd as <-. by apply str_eqb_neq in He.
Qed.

Lemma apply_settings_ok exec i settings cs r :
  apply_settings exec i settings = (cs, r) ->
  (r = None -> cs = map set_command settings /\ forall j c, cs !! j = Some c -> exec (i + j)%nat c = None).
Proof.
  revert i cs r. induction settings as [|s settings IH]; intros i cs r; cbn [apply_settings]; [by intros [= <- <-]|].
  destruct (exec i (set_command s)) as [e|] eqn:He; [by intros [= <- <-]|].
  destruct (apply_settings exec (S i) settings) as [cs' r'] eqn:Ha. intros [= <- <-] Hr. destruct (IH _ _ _ Ha Hr) as [-> Hall].
  split; [done|]. intros [|j] c; cbn; [intros [= <-]; by rewrite Nat.add_0_r|]. intros Hj. rewrite Nat.add_succ_r. by apply Hall.
Qed.

Definition setup_commands (u : Upstream) : list command :=
  map set_command (up_settings u) ++ if is_empty (up_role u) then [] else [role_command (up_role u)].

Lemma applySessionSetup_ok exec u cs :
  applySessionSetup exec u = (cs, None) -> cs = setup_commands u /\ forall j c, cs !! j = Some c -> exec j c = None.
Proof.
  unfold applySessionSetup, setup_commands. destruct (apply_settings exec 0 (up_settings u)) as [cs' [e|]] eqn:Ha; [done|].
  destruct (apply_settings_ok _ _ _ _ _ Ha eq_refl) as [Heq Hall].
  destruct (is_empty (up_role u)); [intros [= <-]; rewrite app_nil_r; by split|].
  destruct (exec (length cs') (role_command (up_role u))) as [e|] eqn:He; [done|]. intros [= <-]. split; [by rewrite Heq|].
  intros j c. rewrite lookup_app_Some. intros [Hj|[Hj Hc]]; [by apply Hall|].
  apply list_lookup_singleton_Some in Hc as [Hz <-]. by replace j with (length cs') by lia.
Qed.

Lemma runSession_dialed l w dsn : ss_dialed (runSession l w) = Some dsn -> exists u, session_admitted l w u dsn.
Proof.
  unfold runSession, session_admitted. destruct (receiveStartup _ _) as [[[params|]|e] raw]; [|done..].
  destruct (is_empty _); [done|]. unfold lookup_upstream. destruct (l_upstreams l !! _) as [u|] eqn:Hu; [|done].
  destruct (authenticateClient _ _ _ _) as [out [|]] eqn:Ha; [|done]. cbn [negb].
  destruct (authenticateClient_ok _ _ _ _ _ Ha) as [Huser Hpw].
  destruct (dialUpstream w u) as [d|[|]] eqn:Hd; [|done..]. destruct (dialUpstream_ok _ _ _ Hd) as (H1 & H2 & H3).
  intros Hs. exists u, params. assert (d = dsn) as ->; [|done].
  destruct (applySessionSetup _ u) as [cs [e|]]; [by injection Hs|].
  destruct (sw_hijack w); [|by injection Hs]. destruct (completeClientHandshake _ _ _). by injection Hs.
Qed.

Lemma runSession_relay l w r :
  ss_relay (runSession l w) = Some r ->
  exists u dsn, r = newRelay u /\ session_admitted l w u dsn /\ ss_dialed (runSession l w) = Some dsn /\
    ss_commands (runSession l w) = setup_commands u /\
    forall j c, ss_commands (runSession l w) !! j = Some c -> sw_exec w j c = None.
Proof.
  intros Hr. assert (exists dsn, ss_dialed (runSession l w) = Some dsn) as [dsn Hdial].
  { revert Hr. unfold runSession. repeat case_match; try done; cbn; eauto. }
  revert Hr Hdial. unfold runSession, session_admitted. destruct (receiveStartup _ _) as [[[params|]|e] raw]; [|done..].
  destruct (is_empty _); [done|]. unfold lookup_upstream. destruct (l_upstreams l !! _) as [u|] eqn:Hu; [|done].
  destruct (authenticateClient _ _ _ _) as [out [|]] eqn:Ha; [|done]. cbn [negb].
  destruct (authenticateClient_ok _ _ _ _ _ Ha) as [Huser Hpw].
  destruct (dialUpstream w u) as [d|[|]] eqn:Hd; [|done..]. destruct (dialUpstream_ok _ _ _ Hd) as (H1 & H2 & H3).
  destruct (applySessionSetup (sw_exec w) u) as [cs [e|]] eqn:Hc; [done|]. destruct (applySessionSetup_ok _ _ _ Hc) as [-> Hall].
  destruct (sw_hijack w) as [st|]; [|done]. destruct (completeClientHandshake _ _ _) as [hello [|]]; [|done]. cbn.
  intros [= <-] [= ->]. exists u, dsn. split; [done|]. split; [by exists params|]. done.
Qed.
End handshake.

(** ** Properties *)

Section properties.
Context `{UnicodeTables} `{PgParser} {C : Type} `{LruCache C}.

(** C8: A session is confined to its role and settings.  When [runSession]
    starts the relay, on a listener built from any configuration: the client
    named a database of the listener and presented its credential; the DSN
    connects to that very database; every configured setting and then the
    role were set there, in order and without error, and nothing else was;
    and from then on, in every interleaving of the two goroutines with each
    other and with the other users of the classification cache, each
    statement that reached the database is permitted with exactly those
    settings pinned, no function call by number did, and the messages
    arrived in the client's order. *)
Theorem session_confined {Node} (buildSource : Node -> option secretSource) l w r c k :
  built buildSource l -> ss_relay (runSession l w) = Some r -> cache_ok c -> rtc step (start (r_upstream r) c) k ->
  exists u dsn, session_admitted l w u dsn /\ ss_dialed (runSession l w) = Some dsn /\
    ss_commands (runSession l w) = map set_command (up_settings u) ++ (if is_empty (up_role u) then [] else [role_command (up_role u)]) /\
    (forall j cmd, ss_commands (runSession l w) !! j = Some cmd -> sw_exec w j cmd = None) /\
    Forall (gated (list_to_set (map lower_name (up_settings u)))) (cf_forwarded k) /\
    cf_forwarded k `sublist_of` cf_consumed k.
Proof.
  intros Hb Hr Hc Hrun. destruct (runSession_relay _ _ _ Hr) as (u & dsn & -> & Hadm & Hd & Hcmd & Hall).
  apply (relay_inv_steps u) in Hrun; [|by apply relay_inv_start].
  destruct (relays_gated _ _ _ _ (inv_relays _ _ Hrun)) as [Hg Hsub].
  exists u, dsn. assert (up_pinnedGUCs u = list_to_set (map lower_name (up_settings u))) as <-.
  { destruct (built_wf _ _ Hb) as (_ & _ & _ & _ & Hwf). destruct Hadm as (params & _ & _ & _ & Hu & _). apply (Hwf _ _ Hu). }
  by split_and!.
Qed.

(** C17: The relay is its reference, for every interleaving.  What has gone
    upstream is what the reference sends for the messages received so far,
    in which texts are judged by their meaning alone and nothing but a
    rejected [Parse] makes it skip; the proxy has written exactly one
    [ReadyForQuery] of its own for each [Query], [Sync] and function call
    that it kept and that a client waits on; and the upstream's replies
    reached the client complete and in order. *)
Theorem relay_refines u c k :
  cache_ok c -> rtc step (start u c) k ->
  relays (up_pinnedGUCs u) (cf_consumed k) (cf_forwarded k) (synthetic_readies (cf_log k)) /\ replies (cf_log k) = cf_received k.
Proof. intros Hc Hrun. apply (relay_inv_steps u) in Hrun; [|by apply relay_inv_start]. by destruct Hrun. Qed.

(** A [ReadyForQuery] the proxy makes up carries the transaction status
    of the last one the client got from the database, or idle before the
    first, in every interleaving. *)
Theorem relay_status_honest u c k i tx :
  cache_ok c -> rtc step (start u c) k -> cf_log k !! i = Some (true, ReadyForQuery tx) -> tx = last_status (take i (cf_log k)).
Proof. intros Hc Hrun. apply (relay_inv_steps u) in Hrun; [|by apply relay_inv_start]. apply (inv_honest _ _ Hrun). Qed.
End properties.

(** A run on a list of client messages, each taken by the upstream. *)
Section runs.
Context `{UnicodeTables} `{PgParser} {C : Type} `{LruCache C}.

Definition after (k : conf (C := C)) (m : FrontendMessage) (o : outcome) (c' : C) : conf (C := C) :=
  mkConf (o_relay o) c' (o_goes_on o) (cf_s2c k) (cf_consumed k ++ [m]) (cf_forwarded k ++ o_upstream o)
    (cf_received k) (cf_log k ++ map (pair true) (o_client o)).
Lemma run_message m (k : conf (C := C)) o c' k' :
  cf_c2s k = true -> client_message m true (cf_relay k) (cf_cache k) = Some (o, c') -> rtc step (after k m o c') k' -> rtc step k k'.
Proof. intros Hk Ho. by apply rtc_l, (step_client m true o c' k). Qed.

Lemma parse_allowed name text oids r c c' :
  ClassifyClientStatement (S (String.length text)) text (up_pinnedGUCs (r_upstream r)) c = Some (None, c') ->
  client_message (Parse name text oids) true r c = Some (mkOutcome r [Parse name text oids] [] true, c').
Proof. intros Hv. cbn [client_message]. by rewrite Hv. Qed.
Lemma parse_rejected name text oids r c reason c' :
  ClassifyClientStatement (S (String.length text)) text (up_pinnedGUCs (r_upstream r)) c = Some (Some reason, c') ->
  client_message (Parse name text oids) true r c = Some (mkOutcome (set_skip r true) [] (writeReject r reason false) true, c').
Proof. intros Hv. cbn [client_message]. by rewrite Hv. Qed.

Lemma judged_text sql pinned (c : C) v c' :
  cache_ok c -> ClassifyClientStatement (S (String.length sql)) sql pinned c = Some (v, c') ->
  (permitted pinned sql -> v = None) /\ (~ permitted pinned sql -> exists reason, v = Some reason) /\ cache_ok c'.
Proof.
  intros Hc Hv. destruct (ClassifyClientStatement_permitted _ _ _ _ _ _ Hc Hv) as [Hp Hc'].
  split; [apply Hp|]. split; [|done]. intros Hn. destruct v as [reason|]; [eauto|]. by destruct Hn; apply Hp.
Qed.
End runs.

(** A rejected statement does not undo its batch.  When a client sends two
    extended queries in one batch and the second is rejected, the first has
    been sent and executed, the [Sync] is kept, and the client is told that
    the batch failed and the session is idle; the database, which has not
    seen a [Sync], commits the first statement with a later one.  A [Parse]
    that follows the rejected one is sent as well, though the proxy is
    skipping. *)
Theorem rejected_batch_prefix_survives `{PgParserLaws} {C} `{LruCache C} u (c : C) name good bad oids bind execute :
  cache_ok c -> permitted (up_pinnedGUCs u) good -> ~ permitted (up_pinnedGUCs u) bad ->
  exists k reason, rtc step (start u c) k /\
    cf_consumed k = [Parse name good oids; OtherFrontend 66 bind; OtherFrontend 69 execute; Parse name bad oids;
                     Parse name good oids; OtherFrontend 66 bind; OtherFrontend 69 execute; Sync] /\
    cf_forwarded k = [Parse name good oids; OtherFrontend 66 bind; OtherFrontend 69 execute; Parse name good oids] /\
    cf_log k = [(true, rejectError reason); (true, ReadyForQuery tx_idle)].
Proof.
  intros Hc Hgood Hbad.
  destruct (ClassifyClientStatement_total good (up_pinnedGUCs u) c Hc) as (v1 & c1 & Hv1 & _).
  destruct (judged_text _ _ _ _ _ Hc Hv1) as (Hok1 & _ & Hc1). specialize (Hok1 Hgood). subst v1.
  destruct (ClassifyClientStatement_total bad (up_pinnedGUCs u) c1 Hc1) as (v2 & c2 & Hv2 & _).
  destruct (judged_text _ _ _ _ _ Hc1 Hv2) as (_ & Hrej & Hc2). destruct (Hrej Hbad) as [reason ->].
  destruct (ClassifyClientStatement_total good (up_pinnedGUCs u) c2 Hc2) as (v3 & c3 & Hv3 & _).
  destruct (judged_text _ _ _ _ _ Hc2 Hv3) as (Hok3 & _ & Hc3). specialize (Hok3 Hgood). subst v3.
  eexists _, reason. split.
  - eapply (run_message (Parse name good oids)); [reflexivity | by apply parse_allowed|].
    eapply (run_message (OtherFrontend 66 bind)); [reflexivity..|]. eapply (run_message (OtherFrontend 69 execute)); [reflexivity..|].
    eapply (run_message (Parse name bad oids)); [reflexivity | by apply parse_rejected|].
    eapply (run_message (Parse name good oids)); [reflexivity | by apply parse_allowed|].
    eapply (run_message (OtherFrontend 66 bind)); [reflexivity..|]. eapply (run_message (OtherFrontend 69 execute)); [reflexivity..|].
    eapply (run_message Sync); [reflexivity..|]. apply rtc_refl.
  - split; [reflexivity|]. split; reflexivity.
Qed.

(** ** A session to run *)

Section examples.
#[local] Existing Instance ascii_tables.
#[local] Existing Instance toy_parser.
#[local] Existing Instance lru_list.

Definition example_source (dsn : string) : option secretSource := Some (mkSource "env" (Some dsn)).
Definition example_config : ListenerConfig string :=
  mkListenerConfig ":5432" (mkClientConfig "app" "PGPASS")
    [mkUpstreamConfig "orders" (Some "postgres://db/orders") "reader" [mkSetting "app.tenant" "7"]].
Definition example_compiled := Compile example_source (fun _ => "secret") example_config.
Definition example_world : SessionWorld :=
  mkSessionWorld [SSLRequest; Startup {["user" := "app"; "database" := "orders"]}] (fun _ => true) true
    (Some (PasswordMessage "secret")) (fun _ => Some "orders") (fun _ => true) (fun _ _ => None)
    (Some [("server_version", "16")]) (Some [0; 0; 1; 2; 3; 4; 5; 6]) true.
Definition example_upstream : Upstream :=
  mkUpstream "orders" "reader" [mkSetting "app.tenant" "7"] {["app.tenant"]} (mkSource "env" (Some "postgres://db/orders")).
Definition example_l : Listener := mkListener "postgres" ":5432" "app" "secret" {["orders" := example_upstream]}.

Lemma relay_example_built : built example_source example_l.
Proof. apply (built_Compile _ (fun _ => "secret") example_config). vm_compute. reflexivity. Qed.

Example session_ex :
  ss_raw (runSession example_l example_world) = [78] /\
  ss_commands (runSession example_l example_world) =
    [ExecParams "SELECT set_config($1, $2, false)" ["app.tenant"; "7"]; role_command "reader"] /\
  ss_relay (runSession example_l example_world) = Some (newRelay example_upstream).
Proof. vm_compute. repeat split; reflexivity. Qed.

(** The client asks for one row and then for another role. *)
Definition example_c2 : list (string * Op) :=
  match ClassifyClientStatement 11 "SELECT 1" {["app.tenant"]} [] with
  | Some (_, c) => match ClassifyClientStatement 11 "SET ROLE a" {["app.tenant"]} c with Some (_, c') => c' | None => [] end
  | None => []
  end.
Definition example_k : conf :=
  mkConf (newRelay example_upstream) example_c2 true true [Query "SELECT 1"; Query "SET ROLE a"] [Query "SELECT 1"] []
    [(true, rejectError RejectClientRoleChange); (true, ReadyForQuery tx_idle)].
Lemma example_run : rtc step (start example_upstream []) example_k.
Proof.
  eapply (run_message (Query "SELECT 1")); [reflexivity | vm_compute; reflexivity|].
  eapply (run_message (Query "SET ROLE a")); [reflexivity | vm_compute; reflexivity|]. apply rtc_refl.
Qed.

Lemma session_confined_witness :
  exists u dsn, session_admitted example_l example_world u dsn /\
    ss_commands (runSession example_l example_world) = [set_command (mkSetting "app.tenant" "7"); role_command "reader"] /\
    Forall (gated (list_to_set (map lower_name (up_settings u)))) [Query "SELECT 1"].
Proof.
  destruct (session_confined example_source example_l example_world (newRelay example_upstream) [] example_k)
    as (u & dsn & Ha & _ & _ & _ & Hg & _).
  - exact relay_example_built.
  - vm_compute. reflexivity.
  - exact lru_empty_ok.
  - exact example_run.
  - exists u, dsn. split; [exact Ha|]. split; [vm_compute; reflexivity | exact Hg].
Defined.

Lemma relay_refines_witness : relays {["app.tenant"]} [Query "SELECT 1"; Query "SET ROLE a"] [Query "SELECT 1"] 1.
Proof. apply (relay_refines example_upstream [] example_k); [exact lru_empty_ok | exact example_run]. Defined.

Lemma relay_status_honest_witness : tx_idle = last_status (take 1 (cf_log example_k)).
Proof. apply (relay_status_honest example_upstream [] example_k 1); [exact lru_empty_ok | exact example_run | reflexivity]. Defined.

Lemma toy_permitted sql :
  match @ClassifyClientStatement ascii_tables toy_parser _ lru_list 40 sql {["app.tenant"]} [] with
  | Some (None, _) => permitted {["app.tenant"]} sql
  | Some (Some _, _) => ~ permitted {["app.tenant"]} sql
  | None => True
  end.
Proof.
  destruct (ClassifyClientStatement 40 sql {["app.tenant"]} []) as [[v c']|] eqn:E; [|done].
  destruct (ClassifyClientStatement_permitted _ _ _ _ _ _ lru_empty_ok E) as [Hp _]. destruct v; [|by apply Hp]. by intros ?%Hp.
Qed.

Lemma rejected_batch_prefix_survives_witness :
  exists k, rtc step (start example_upstream []) k /\
    cf_forwarded k = [Parse "" "SELECT 1" []; OtherFrontend 66 []; OtherFrontend 69 []; Parse "" "SELECT 1" []].
Proof.
  destruct (@rejected_batch_prefix_survives ascii_tables toy_parser toy_laws _ lru_list example_upstream [] "" "SELECT 1" "SET ROLE a" [] [] [])
    as (k & reason & Hr & _ & Hf & _).
  - exact lru_empty_ok.
  - exact (toy_permitted "SELECT 1").
  - exact (toy_permitted "SET ROLE a").
  - exists k. split; [exact Hr | exact Hf].
Defined.
End examples.
End PgRelay.
