(* ===== verification/PgServer.v ===== *)
(** * The Postgres server and its manager (src/internal/postgres/server.go, manager.go)

    The manager replaces its running server on a reload; each server binds,
    accepts and stops in its own goroutine.  The steps of all servers and of
    the manager interleave; sockets are the environment. *)
From stdpp Require Import base gmap strings list option relations.
From Stdlib Require Import ZArith Lia Ascii.
From S2P Require Import Prelude GoUtf8 GoStrings GoNet Body GoHttp HostMatch Transform GoRegexp ScrubPairs Secrets.
From S2P Require Import PgConfig.

Module PgServing.
Import PgListener.

(** [Server]: [sv_netLn] is nil before the bind, then tells whether the
    socket is open; [sv_returned] that [ListenAndServe] is over. *)
Record Server := mkServer { sv_listener : Listener; sv_netLn : option bool; sv_shutdown : bool; sv_returned : bool }.
Definition NewServer (l : Listener) : Server := mkServer l None false false.

(** The first half of [ListenAndServe]: [net.Listen] succeeds or not. *)
Definition listen (ok : bool) (s : Server) : Server :=
  if ok then mkServer (sv_listener s) (Some true) (sv_shutdown s) (sv_returned s)
  else mkServer (sv_listener s) (sv_netLn s) (sv_shutdown s) true.
(** One turn of the accept loop: on an open socket a connection is handled
    with the server's listener, on a closed one the loop returns. *)
Definition accept (s : Server) : Server * option Listener :=
  match sv_netLn s with
  | Some true => (s, Some (sv_listener s))
  | _ => (mkServer (sv_listener s) (sv_netLn s) (sv_shutdown s) true, None)
  end.
Definition Shutdown (s : Server) : Server :=
  mkServer (sv_listener s) (match sv_netLn s with None => None | Some _ => Some false end) true (sv_returned s).

(** [Manager], with every server it ever started, by number, and the
    connections they handled, by server and listener. *)
Record Manager := mkManager { mg_server : option nat; mg_servers : gmap nat Server; mg_next : nat; mg_handled : list (nat * Listener) }.
Definition NewManager : Manager := mkManager None ∅ 0 [].

Definition launch (l : Listener) (m : Manager) : Manager :=
  mkManager (Some (mg_next m)) (<[mg_next m := NewServer l]> (mg_servers m)) (S (mg_next m)) (mg_handled m).
Definition Start (l : option Listener) (m : Manager) : Manager :=
  match l with None => m | Some l => launch l m end.
Definition stop (m : Manager) : Manager :=
  match mg_server m with
  | None => m
  | Some i => mkManager None (alter Shutdown i (mg_servers m)) (mg_next m) (mg_handled m)
  end.
Definition Reload (l : option Listener) (m : Manager) : Manager :=
  match l with None => stop m | Some l => launch l (stop m) end.
(** [Manager.Shutdown] closes the server and keeps it. *)
Definition Manager_Shutdown (m : Manager) : Manager :=
  match mg_server m with
  | None => m
  | Some i => mkManager (Some i) (alter Shutdown i (mg_servers m)) (mg_next m) (mg_handled m)
  end.

Definition set_server (m : Manager) (i : nat) (s : Server) (l : list (nat * Listener)) : Manager :=
  mkManager (mg_server m) (<[i := s]> (mg_servers m)) (mg_next m) (mg_handled m ++ l).

Inductive step : Manager -> Manager -> Prop :=
  | step_start l m : step m (Start l m)
  | step_reload l m : step m (Reload l m)
  | step_shutdown m : step m (Manager_Shutdown m)
  | step_listen i s ok m :
      mg_servers m !! i = Some s -> sv_netLn s = None -> sv_returned s = false -> step m (set_server m i (listen ok s) [])
  | step_accept i s m :
      mg_servers m !! i = Some s -> is_Some (sv_netLn s) -> sv_returned s = false ->
      step m (set_server m i (accept s).1 (match (accept s).2 with Some l => [(i, l)] | None => [] end)).

(** ** A stopped server *)

(** Server [i] was started, and its socket is closed. *)
Definition closed_at (i : nat) (m : Manager) : Prop :=
  (i < mg_next m)%nat /\ exists s, mg_servers m !! i = Some s /\ sv_netLn s = Some false.
Definition handled_by (i : nat) (m : Manager) : list Listener := map snd (List.filter (fun e => Nat.eqb (fst e) i) (mg_handled m)).

Lemma closed_alter i j m :
  closed_at i m -> closed_at i (mkManager None (alter Shutdown j (mg_servers m)) (mg_next m) (mg_handled m)).
Proof.
  intros (Hi & s & Hs & Hn). split; [done|]. cbn. destruct (decide (i = j)) as [<-|Hne].
  - exists (Shutdown s). rewrite lookup_alter_eq, Hs. split; [done|]. cbn. by rewrite Hn.
  - exists s. by rewrite lookup_alter_ne.
Qed.

Lemma closed_launch i l m : closed_at i m -> closed_at i (launch l m).
Proof. intros (Hi & s & Hs & Hn). split; [cbn; lia|]. exists s. cbn. rewrite lookup_insert_ne by lia. done. Qed.
Lemma closed_stop i m : closed_at i m -> closed_at i (stop m).
Proof. unfold stop. destruct (mg_server m); [|done]. apply closed_alter. Qed.

Lemma closed_step i m m' : step m m' -> closed_at i m -> closed_at i m' /\ handled_by i m' = handled_by i m.
Proof.
  intros Hst Hc. destruct Hst as [l m|l m|m|j s ok m Hs Hn Hr|j s m Hs Hn Hr].
  - destruct l as [l|]; [|done]. split; [by apply closed_launch | done].
  - assert (handled_by i (stop m) = handled_by i m) as Hh by (unfold stop; by destruct (mg_server m)).
    destruct l as [l|]; (split; [|exact Hh]); [apply closed_launch|]; by apply closed_stop.
  - unfold Manager_Shutdown. destruct (mg_server m) as [j|]; [|done]. split; [|done]. exact (closed_alter i j m Hc).
  - destruct Hc as (Hi & s' & Hs' & Hn'). assert (i <> j) as Hne by (intros ->; congruence).
    split; [split; [done|]; exists s'; cbn; by rewrite lookup_insert_ne|]. unfold handled_by. cbn. by rewrite app_nil_r.
  - destruct Hc as (Hi & s' & Hs' & Hn'). destruct (decide (i = j)) as [<-|Hne].
    + assert (s' = s) as -> by congruence. unfold accept. rewrite Hn'. cbn. split.
      * split; [done|]. eexists. cbn. rewrite lookup_insert_eq. done.
      * unfold handled_by. cbn. by rewrite app_nil_r.
    + split; [split; [done|]; exists s'; cbn; by rewrite lookup_insert_ne|].
      unfold handled_by. cbn. rewrite List.filter_app, map_app. rewrite <- (app_nil_r (map snd _)) at 2. f_equal.
      destruct (accept s).2; cbn; [|done]. by rewrite (proj2 (Nat.eqb_neq j i)).
Qed.

Lemma closed_steps i m m' : rtc step m m' -> closed_at i m -> handled_by i m' = handled_by i m.
Proof.
  induction 1 as [m|m m1 m' Hs _ IH]; [done|]. intros Hc. destruct (closed_step _ _ _ Hs Hc) as [Hc1 <-]. by apply IH.
Qed.

(** The manager's server is one it started. *)
Definition manager_ok (m : Manager) : Prop :=
  (forall i, mg_server m = Some i -> is_Some (mg_servers m !! i)) /\ (forall i, is_Some (mg_servers m !! i) -> (i < mg_next m)%nat).
Lemma manager_ok_new : manager_ok NewManager.
Proof. split; [done|]. intros i [s Hs]. cbn in Hs. by rewrite lookup_empty in Hs. Qed.
Lemma manager_ok_alter j m o :
  manager_ok m -> (forall i, o = Some i -> is_Some (mg_servers m !! i)) ->
  manager_ok (mkManager o (alter Shutdown j (mg_servers m)) (mg_next m) (mg_handled m)).
Proof.
  intros [H1 H2] Ho. split; cbn; intros i; rewrite lookup_alter_is_Some; [by apply Ho | apply H2].
Qed.
Lemma manager_ok_launch l m : manager_ok m -> manager_ok (launch l m).
Proof.
  intros [H1 H2]. split; cbn.
  - intros i [= <-]. rewrite lookup_insert_eq. eauto.
  - intros i. rewrite lookup_insert_is_Some. intros [->|[_ Hi]]; [lia|]. specialize (H2 i Hi). lia.
Qed.
Lemma manager_ok_set m i s s' l : manager_ok m -> mg_servers m !! i = Some s' -> manager_ok (set_server m i s l).
Proof.
  intros [H1 H2] Hi. split; cbn; intros j.
  - intros Hj. rewrite lookup_insert_is_Some. destruct (decide (i = j)); [by left | right; eauto].
  - rewrite lookup_insert_is_Some. intros [->|[_ Hj]]; [|by apply H2]. apply H2. eauto.
Qed.
Lemma manager_ok_step m m' : step m m' -> manager_ok m -> manager_ok m'.
Proof.
  intros Hst Hm. assert (manager_ok (stop m)) as Hstop.
  { unfold stop. destruct (mg_server m); [|done]. by apply manager_ok_alter. }
  destruct Hst as [l m|l m|m|j s ok m Hs Hn Hr|j s m Hs Hn Hr].
  - destruct l; [by apply manager_ok_launch | done].
  - destruct l; [by apply manager_ok_launch | done].
  - unfold Manager_Shutdown. destruct (mg_server m) as [i|] eqn:Hi; [|done]. apply manager_ok_alter; [done|].
    intros j [= <-]. by apply Hm.
  - by eapply manager_ok_set.
  - by eapply manager_ok_set.
Qed.
Lemma manager_ok_steps m m' : rtc step m m' -> manager_ok m -> manager_ok m'.
Proof. apply rtc_invariant. eauto using manager_ok_step. Qed.

(** ** Properties *)

(** A reload retires a server that was listening.  If the manager's server
    has bound its address, then after the reload, whatever happens, it
    handles no further connection. *)
Theorem reload_stops_bound m i s l m' :
  rtc step NewManager m -> mg_server m = Some i -> mg_servers m !! i = Some s -> is_Some (sv_netLn s) ->
  rtc step (Reload l m) m' -> handled_by i m' = handled_by i m.
Proof.
  intros Hm Hi Hs [b Hb] Hrun. apply manager_ok_steps in Hm; [|apply manager_ok_new].
  assert (closed_at i (stop m)) as Hc.
  { unfold stop. rewrite Hi. split; [cbn; apply Hm; by rewrite Hs; eauto|]. exists (Shutdown s). cbn. rewrite lookup_alter_eq, Hs, Hb. done. }
  assert (handled_by i (Reload l m) = handled_by i m) as <- by (unfold Reload, stop; rewrite Hi; by destruct l).
  apply (closed_steps _ _ _ Hrun). unfold Reload. destruct l; [by apply closed_launch | done].
Qed.

(** A reload that comes before the bind is lost.  When the server has not
    bound its address yet, [Shutdown] only sets a flag that
    [ListenAndServe] does not look at before it accepts: the retired server
    can still bind, and then handles connections with the old listener
    after the reload. *)
Theorem reload_before_bind_lost m i s l :
  rtc step NewManager m -> mg_server m = Some i -> mg_servers m !! i = Some s ->
  sv_netLn s = None -> sv_returned s = false ->
  exists m', rtc step (Reload l m) m' /\ mg_server m' <> Some i /\ handled_by i m' = handled_by i m ++ [sv_listener s].
Proof.
  intros Hm Hi Hs Hn Hr. apply manager_ok_steps in Hm; [|apply manager_ok_new].
  assert (i < mg_next m)%nat as Hlt by (apply Hm; rewrite Hs; eauto).
  set (m1 := Reload l m).
  assert (mg_servers m1 !! i = Some (Shutdown s) /\ mg_server m1 <> Some i /\ handled_by i m1 = handled_by i m) as (Hs1 & Hi1 & Hh1).
  { unfold m1, Reload, stop. rewrite Hi. destruct l; cbn; (split; [|split; [|done]]).
    - rewrite lookup_insert_ne by lia. by rewrite lookup_alter_eq, Hs.
    - intros [= ?]. lia.
    - by rewrite lookup_alter_eq, Hs.
    - done. }
  set (s2 := listen true (Shutdown s)). set (m2 := set_server m1 i s2 []).
  exists (set_server m2 i s2 [(i, sv_listener s)]). split_and!.
  - eapply rtc_l; [apply (step_listen i (Shutdown s) true m1 Hs1); cbn; by rewrite ?Hn|].
    eapply rtc_l; [|apply rtc_refl]. apply (step_accept i s2 m2); [|by eexists|done]. cbn. by rewrite lookup_insert_eq.
  - done.
  - unfold handled_by in *. cbn. rewrite app_nil_r, List.filter_app, map_app, Hh1. cbn. by rewrite Nat.eqb_refl.
Qed.

Section examples.
Definition example_listener (name : string) : Listener := mkListener name ":5432" "app" "pw" ∅.

Lemma reload_before_bind_lost_witness :
  exists m', rtc step (Reload (Some (example_listener "new")) (Start (Some (example_listener "old")) NewManager)) m' /\
    handled_by 0 m' = [example_listener "old"].
Proof.
  destruct (reload_before_bind_lost (Start (Some (example_listener "old")) NewManager) 0 (NewServer (example_listener "old"))
    (Some (example_listener "new"))) as (m' & Hr & _ & Hh); try reflexivity.
  - eapply rtc_once. constructor.
  - exists m'. split; [exact Hr | exact Hh].
Defined.

Lemma reload_stops_bound_witness :
  let old := set_server (Start (Some (example_listener "old")) NewManager) 0 (listen true (NewServer (example_listener "old"))) [] in
  forall m', rtc step (Reload None old) m' -> handled_by 0 m' = [].
Proof.
  intros old m' Hm'. apply (reload_stops_bound old 0 (listen true (NewServer (example_listener "old"))) None m'); try done.
  eapply rtc_l; [apply (step_start (Some (example_listener "old")))|]. eapply rtc_once.
  by apply (step_listen 0 (NewServer (example_listener "old")) true).
Defined.
End examples.
End PgServing.
