(* ===== verification/Managed.v ===== *)
(** * Running the proxy (src/cmd/iron-proxy/main.go)

    How the parts are put together: the pipeline, the MCP policy, the gateway
    and the Postgres listener built from a configuration, the configuration
    the control plane delivers applied to them while they serve, and the
    reload of the management API.  YAML decoders and the transform factories
    are parameters. *)
From stdpp Require Import base gmap strings list option relations.
From Stdlib Require Import ZArith Lia Ascii.
From S2P Require Import Prelude GoUtf8 GoStrings GoNet Body GoHttp GoJson GoJsonParse GoTime GoRegexp HostMatch Transform DnsGuard PrivateConn.
From S2P Require Import ScrubPairs Secrets McpPolicy McpGateway PgConfig PgServer Config ControlPlane.
Local Open Scope string_scope.
Local Open Scope list_scope.
Local Open Scope Z_scope.

Module Managed.
Import Config ControlPlane.

Inductive run_error :=
  | UnknownTransform (name : string) | BadTransform (name e : string)
  | PipelineSync (e : sync_error) | PipelineBuild (e : run_error)
  | MCPSync (e : sync_error) | MCPDecode | MCPCompile (e : mcp_error)
  | GatewayDecode | GatewayCompile (e : Gateway.gateway_error)
  | PostgresDecode | PostgresCompile (e : PgListener.pg_error) | PostgresSync.

Section managed.
Context `{UnicodeTables} `{Regexp} `{Yaml} {C : Type}.

(** The decoders of the blocks, the factories by name, and the environment. *)
Variable registry : gmap string (option Node -> result string (Transformer C)).
Variable decode_mcp : Node -> option McpConfig.
Variable decode_gateway : Node -> option (list (Gateway.RouteConfig Node)).
Variable decode_postgres : Node -> option (PgListener.ListenerConfig Node).
Variable BuildSource : Node -> option secretSource.
Variable template_Parse : gmap string (list string -> string) -> string -> option (string -> option string).
Variable Getenv : string -> string.
Variable limits : BodyLimits.

(** What serves: the pipeline holder, the identities of the pipelines made
    and which of them have the audit function, the MCP policy, the gateway and
    the Postgres manager. *)
Record App := mkApp {
  holder : Holder C;
  next_pipeline : nat;
  audited : gset nat;
  mcpHolder : option Policy;
  gatewayHolder : option Gateway.t;
  pgManager : PgServing.Manager;
}.

(** ** Building *)

Definition build_transform (tc : Config.Transform) : result run_error (Transformer C) :=
  match Lookup registry (t_Name tc) with
  | Err _ => Err (UnknownTransform (t_Name tc))
  | Ok factory => match factory (t_Config tc) with Ok tr => Ok tr | Err e => Err (BadTransform (t_Name tc) e) end
  end.
Definition buildPipeline (ts : list Config.Transform) : result run_error (Pipeline C) :=
  let* l := rmap build_transform ts in Ok (mkPipeline l limits).

(** [mcp.LoadFromNode], [mcpgateway.LoadFromNode] and [postgres.LoadFromNode]. *)
Definition mcp_LoadFromNode (node : option Node) : result run_error (option Policy) :=
  match node with
  | None => Ok None
  | Some n => match decode_mcp n with
              | None => Err MCPDecode
              | Some c => match Compile c with Ok p => Ok p | Err e => Err (MCPCompile e) end
              end
  end.
Definition gateway_LoadFromNode (node : option Node) : result run_error (option Gateway.t) :=
  match Gateway.LoadFromNode BuildSource template_Parse decode_gateway node with
  | None => Err GatewayDecode
  | Some (Ok g) => Ok g
  | Some (Err e) => Err (GatewayCompile e)
  end.
Definition postgres_LoadFromNode (node : option Node) : result run_error (option PgListener.Listener) :=
  match node with
  | None => Ok None
  | Some n => match decode_postgres n with
              | None => Err PostgresDecode
              | Some c => match PgListener.Compile BuildSource Getenv c with Ok l => Ok l | Err e => Err (PostgresCompile e) end
              end
  end.

(** ** Applying a sync *)

(** [holder.Load().AuditFunc()] of the current pipeline. *)
Definition current_audited (a : App) : bool :=
  match current (holder a) with Some p => bool_decide (ptr_id p ∈ audited a) | None => false end.
(** A new pipeline with an audit function or none, stored in the holder. *)
Definition store_pipeline (audit : bool) (pl : Pipeline C) (a : App) : App :=
  mkApp (Store (holder a) (Some (mkPtr (next_pipeline a) pl))) (S (next_pipeline a))
    (if audit then {[next_pipeline a]} ∪ audited a else audited a) (mcpHolder a) (gatewayHolder a) (pgManager a).
(** [holder.Load().SetAuditFunc(auditFunc)]. *)
Definition set_audit (a : App) : App :=
  mkApp (holder a) (next_pipeline a) (match current (holder a) with Some p => {[ptr_id p]} ∪ audited a | None => audited a end)
    (mcpHolder a) (gatewayHolder a) (pgManager a).

Definition sync_pipeline (rules secrets transforms : string) : result run_error (Pipeline C) :=
  match TransformsFromSync rules secrets transforms with
  | Err e => Err (PipelineSync e)
  | Ok ts => match buildPipeline ts with Ok p => Ok p | Err e => Err (PipelineBuild e) end
  end.
Definition applyPipelineSync (rules secrets transforms : string) (a : App) : option run_error * App :=
  match sync_pipeline rules secrets transforms with
  | Err e => (Some e, a)
  | Ok pl => (None, store_pipeline (current_audited a) pl a)
  end.

Definition set_mcp (p : option Policy) (a : App) : App :=
  mkApp (holder a) (next_pipeline a) (audited a) p (gatewayHolder a) (pgManager a).
Definition applyMCPSync (raw : string) (a : App) : option run_error * App :=
  match MCPFromSync raw with
  | Err e => (Some (MCPSync e), a)
  | Ok None => (None, a)
  | Ok (Some node) => match mcp_LoadFromNode (Some node) with
                      | Err e => (Some e, a)
                      | Ok policy => (None, set_mcp policy a)
                      end
  end.

Definition pgListenEnv : string := "IRON_PROXY_PG_LISTEN".
Definition pgClientUserEnv : string := "IRON_PROXY_PG_CLIENT_USER".
Definition pgClientPasswordEnv : string := "IRON_PROXY_PG_CLIENT_PASSWORD".

(** The loop of [postgresListenerFromSync]: entries that do not build and
    databases seen before are skipped. *)
Fixpoint synced_upstreams (entries : list PostgresSyncEntry) (seen : gset string) : list PgListener.Upstream :=
  match entries with
  | [] => []
  | e :: entries =>
    match PgListener.NewManagedUpstream (Database e) (Some (DSN e)) (Role e) (Settings e) with
    | Err _ => synced_upstreams entries seen
    | Ok u =>
      if bool_decide (PgListener.up_database u ∈ seen) then synced_upstreams entries seen
      else u :: synced_upstreams entries ({[PgListener.up_database u]} ∪ seen)
    end
  end.
(** [None] is an invalid payload; [Some None] is no listener. *)
Definition postgresListenerFromSync (local : option PgListener.Listener) (raw : string) : option (option PgListener.Listener) :=
  match PostgresFromSync BuildSource raw with
  | Err _ => None
  | Ok entries =>
    let synced := synced_upstreams entries ∅ in
    match local with
    | Some l => Some (Some (PgListener.WithUpstreams l synced).1)
    | None =>
      if (length synced =? 0)%nat then Some None
      else
        let listen := Getenv pgListenEnv in
        let user := Getenv pgClientUserEnv in
        let password := Getenv pgClientPasswordEnv in
        if is_empty listen || is_empty user || is_empty password then Some None
        else match PgListener.NewListener listen user password synced with
             | Err _ => Some None
             | Ok l => Some (Some l)
             end
    end
  end.

Definition set_pg (m : PgServing.Manager) (a : App) : App :=
  mkApp (holder a) (next_pipeline a) (audited a) (mcpHolder a) (gatewayHolder a) m.
Definition applyPostgresSync (local : option PgListener.Listener) (raw : string) (a : App) : option run_error * App :=
  match postgresListenerFromSync local raw with
  | None => (Some PostgresSync, a)
  | Some l => (None, set_pg (PgServing.Reload l (pgManager a)) a)
  end.

(** One step of the callback: skipped when the raw message is nil. *)
Definition when_present (present : bool) (f : App -> option run_error * App) (a : App) : option run_error * App :=
  if present then f a else (None, a).
Definition and_then (r : option run_error * App) (f : App -> option run_error * App) : option run_error * App :=
  match r with (None, a) => f a | _ => r end.

(** The callback [initManaged] gives the poller; it tests the raw messages
    for nil, which a JSON null is not. *)
Definition onUpdate (local : option PgListener.Listener) (u : SyncUpdate) (a : App) : option run_error * App :=
  and_then (and_then
    (when_present (negb (is_empty (u_Rules u)) || negb (is_empty (u_Secrets u)) || negb (is_empty (u_Transforms u)))
       (applyPipelineSync (u_Rules u) (u_Secrets u) (u_Transforms u)) a)
    (when_present (negb (is_empty (u_MCP u))) (applyMCPSync (u_MCP u))))
    (when_present (negb (is_empty (u_Postgres u))) (applyPostgresSync local (u_Postgres u))).

(** ** Starting *)

(** [buildInitialMCPHolder]. *)
Definition buildInitialMCPHolder (cfg : Config.t) (initialMCP : string) : result run_error (option Policy) :=
  match MCPFromSync initialMCP with
  | Err e => Err (MCPSync e)
  | Ok node => mcp_LoadFromNode (match node with Some n => Some n | None => c_MCP cfg end)
  end.

Inductive started_as := Exits | Runs (a : App) (l : option PgListener.Listener) (ingestToken : string) (p : Poller).

(** [initManaged] with what the first sync gave. *)
Definition initManaged (now : Z) (cfg : Config.t) (local : option PgListener.Listener) (got : result cp_error SyncResponse) : started_as :=
  if match got with Err e => isRevocationError e | Ok _ => false end then Exits
  else
    let syncResp := match got with Ok r => Some r | Err _ => None end in
    let r := default no_response syncResp in
    match sync_pipeline (Rules r) (Secrets r) (Transforms r), buildInitialMCPHolder cfg (MCP r), gateway_LoadFromNode (c_MCPGateway cfg) with
    | Ok pl, Ok policy, Ok gateway =>
      let listener := match postgresListenerFromSync local (Postgres r) with Some l => l | None => local end in
      Runs (mkApp (NewPipelineHolder (Some (mkPtr 0 pl))) 1 ∅ policy gateway PgServing.NewManager) listener (IngestToken r)
           (SeedStatus now syncResp (NewPollerWithInterval (ConfigHash r) (PollInterval cfg)))
    | _, _, _ => Exits
    end.

(** [managedReady]; no poller is always ready. *)
Definition managedReady (p : option Poller) : bool := match p with None => true | Some p => SyncedOnce (status p) end.

Definition initStandalone (cfg : Config.t) : result run_error App :=
  let* pl := buildPipeline (c_Transforms cfg) in
  let* policy := mcp_LoadFromNode (c_MCP cfg) in
  let* gateway := gateway_LoadFromNode (c_MCPGateway cfg) in
  Ok (mkApp (NewPipelineHolder (Some (mkPtr 0 pl))) 1 ∅ policy gateway PgServing.NewManager).

(** ** Reloading *)

Inductive reload_error := ReloadConfig (e : config_error) | ReloadBuild (e : run_error).
Definition build_all (cfg : Config.t) : result run_error (Pipeline C * option Policy * option Gateway.t * option PgListener.Listener) :=
  let* pl := buildPipeline (c_Transforms cfg) in
  let* policy := mcp_LoadFromNode (c_MCP cfg) in
  let* gateway := gateway_LoadFromNode (c_MCPGateway cfg) in
  let* listener := postgres_LoadFromNode (c_Postgres cfg) in
  Ok (pl, policy, gateway, listener).

(** The closure of [newReloadFunc]. *)
Definition reload (files : Files) (path : string) (a : App) : option reload_error * App :=
  match LoadConfig files Getenv path with
  | Err e => (Some (ReloadConfig e), a)
  | Ok cfg =>
    match Validate Getenv cfg with
    | Some e => (Some (ReloadConfig e), a)
    | None =>
      match build_all cfg with
      | Err e => (Some (ReloadBuild e), a)
      | Ok (pl, policy, gateway, listener) =>
        let a := store_pipeline (current_audited a) pl a in
        (None, mkApp (holder a) (next_pipeline a) (audited a) policy gateway (PgServing.Reload listener (pgManager a)))
      end
    end
  end.

(** ** Environment of the response retry *)

Definition splitCommaSeparated (value : string) : list string :=
  List.filter (fun p => negb (is_empty p)) (map TrimSpace (Split value ",")).
Definition parseResponseRetryStatuses (value : string) : option (list Z) := mapM Atoi (splitCommaSeparated value).

(** ** What an update does *)

(** The callback as the poller sees it: it logs the error it gets. *)
Definition callback (local : option PgListener.Listener) (u : SyncUpdate) (a : App) : option string * App :=
  let '(e, a') := onUpdate local u a in ((fun _ => "update refused") <$> e, a').

Definition current_transforms (a : App) : option (list (Transformer C)) := (fun p => transforms (ptr_pipeline p)) <$> current (holder a).

(** An update that goes through has installed exactly what it carries: with
    a pipeline member present, the pipeline of its own members and no other. *)
Lemma onUpdate_pipeline local u a a' :
  onUpdate local u a = (None, a') ->
  if negb (is_empty (u_Rules u)) || negb (is_empty (u_Secrets u)) || negb (is_empty (u_Transforms u))
  then exists pl, sync_pipeline (u_Rules u) (u_Secrets u) (u_Transforms u) = Ok pl /\ current_transforms a' = Some (transforms pl)
  else current_transforms a' = current_transforms a.
Proof.
  assert (forall raw b b', applyMCPSync raw b = (None, b') -> current_transforms b' = current_transforms b) as Hmcp.
  { intros raw b b'. unfold applyMCPSync. repeat case_match; intros [= <-]; done. }
  assert (forall raw b b', applyPostgresSync local raw b = (None, b') -> current_transforms b' = current_transforms b) as Hpg.
  { intros raw b b'. unfold applyPostgresSync. repeat case_match; intros [= <-]; done. }
  unfold onUpdate, and_then, when_present. intros Hu.
  destruct (if _ || _ || _ then _ else (None, a)) as [[e|] a1] eqn:E1; [discriminate Hu|].
  destruct (if negb (is_empty (u_MCP u)) then _ else (None, a1)) as [[e|] a2] eqn:E2; [discriminate Hu|].
  assert (current_transforms a' = current_transforms a1) as ->.
  { transitivity (current_transforms a2).
    - destruct (is_empty (u_Postgres u)); cbn in Hu; [by injection Hu as <- | by eapply Hpg].
    - destruct (is_empty (u_MCP u)); cbn in E2; [by injection E2 as <- | by eapply Hmcp]. }
  destruct (_ || _); [|by injection E1 as <-]. unfold applyPipelineSync in E1.
  destruct (sync_pipeline _ _ _) as [pl|e] eqn:Es; [|done]. injection E1 as <-. by exists pl.
Qed.

Lemma sync_pipeline_null : sync_pipeline "null" "null" "null" = Ok (mkPipeline [] limits).
Proof. vm_compute. reflexivity. Qed.

(** An update of the MCP policy alone can open the proxy.  When the
    control plane sends the members it leaves out as JSON nulls, the callback
    takes them for present: it installs a pipeline without any transform, no
    allowlist among them, through which every request passes, and it stops
    the Postgres listener that was synced before. *)
Theorem null_members_wipe_pipeline mcp a a' elapsed tctx req :
  onUpdate None (mkUpdate "null" "null" "null" mcp "null") a = (None, a') ->
  PgServing.mg_server (pgManager a') = None /\
  exists p, current (holder a') = Some p /\ transforms (ptr_pipeline p) = [] /\
    pr_outcome (ProcessRequest elapsed (ptr_pipeline p) tctx req []) = Ok None.
Proof.
  intros Hu. split.
  - unfold onUpdate in Hu. cbn [u_Postgres u_MCP] in Hu. destruct (and_then (when_present _ _ _) _) as [[e|] a1] in Hu; [done|].
    cbn in Hu. injection Hu as <-. cbn. unfold PgServing.stop. destruct (PgServing.mg_server (pgManager a1)) eqn:E; [done|by rewrite E].
  - pose proof (onUpdate_pipeline _ _ _ _ Hu) as (pl & Hs & Hc). cbn [u_Rules u_Secrets u_Transforms] in Hs.
    rewrite sync_pipeline_null in Hs. injection Hs as <-. unfold current_transforms in Hc.
    destruct (current (holder a')) as [p|]; [|done]. injection Hc as Hc. exists p. split_and!; [done | done |].
    unfold ProcessRequest. by rewrite Hc.
Qed.

(** A reload that fails has changed nothing. *)
Lemma reload_failed files path a e a' : reload files path a = (Some e, a') -> a' = a.
Proof.
  unfold reload. destruct (LoadConfig files Getenv path) as [cfg|ec]; [|by intros [= _ <-]].
  destruct (Validate Getenv cfg); [by intros [= _ <-]|]. by destruct (build_all cfg) as [[[[pl policy] gateway] listener]|eb]; intros [=].
Qed.


(** A managed proxy serves nothing before its first configuration.  The
    gate opens only when the sync at startup brought a configuration, or the
    poller has applied one. *)
Theorem managed_ready_after_config now cfg local got a l tok p0 r :
  initManaged now cfg local got = Runs a l tok p0 ->
  rtc (step (Some (callback local))) (started p0 a) r ->
  managedReady (Some (rn_poller r)) = true <-> (exists resp, got = Ok resp) \/ rn_applied r <> [].
Proof.
  unfold initManaged. destruct (match got with Err e => isRevocationError e | Ok _ => false end); [done|].
  destruct (sync_pipeline _ _ _); [|done]. destruct (buildInitialMCPHolder _ _); [|done]. destruct (gateway_LoadFromNode _); [|done]. intros [= _ _ _ <-] Hr.
  apply poller_inv_reachable in Hr as [_ _ _ Hz Hs _]. cbn [managedReady].
  destruct (decide (rn_applied r = [])) as [He|He].
  - rewrite (Hz He). destruct got as [resp|e]; cbn; [naive_solver|]. split; [done|]. intros [[? ?]|?]; done.
  - destruct (Hs He) as [_ ->]. split; [by right | done].
Qed.

(** ** The audit function at startup

    [initManaged] starts the poller before [main] sets the audit function on
    the pipeline the holder has.  An update in flight has read the audit
    function of the old pipeline and stores the new one later. *)
Record startup := mkStartup { su_main_done : bool; su_inflight : option (bool * Pipeline C); su_app : App }.
Inductive startup_step : startup -> startup -> Prop :=
  | su_main f a : startup_step (mkStartup false f a) (mkStartup true f (set_audit a))
  | su_read m pl a : startup_step (mkStartup m None a) (mkStartup m (Some (current_audited a, pl)) a)
  | su_store m au pl a : startup_step (mkStartup m (Some (au, pl)) a) (mkStartup m None (store_pipeline au pl a)).

Definition unaudited (s : startup) : Prop :=
  su_main_done s = true /\ current_audited (su_app s) = false /\ (forall au pl, su_inflight s = Some (au, pl) -> au = false) /\
  (forall i, i ∈ audited (su_app s) -> (i < next_pipeline (su_app s))%nat).

Lemma unaudited_step s s' : startup_step s s' -> unaudited s -> unaudited s'.
Proof.
  intros Hs (Hm & Hc & Hf & Hi). destruct Hs as [f a|m pl a|m au pl a]; cbn in *; [done|..]; unfold unaudited; cbn.
  - split_and!; [done | done | by intros ? ? [= <- _] | done].
  - rewrite (Hf au pl eq_refl) in *. split_and!; [done | | done |].
    + unfold current_audited. cbn. apply bool_decide_eq_false. intros Hin%Hi. lia.
    + intros i Hin%Hi. lia.
Qed.

(** The identities in use are those made so far. *)
Definition ids_used (a : App) : Prop :=
  (forall i, i ∈ audited a -> (i < next_pipeline a)%nat) /\ (forall p, current (holder a) = Some p -> (ptr_id p < next_pipeline a)%nat).

(** Audit can be lost at startup.  When the poller has a configuration in
    hand while [main] sets the audit function, the pipeline it stores has
    none, and neither has any later one. *)
Theorem audit_lost_at_startup a (pl : Pipeline C) :
  ids_used a -> current_audited a = false ->
  exists s, rtc startup_step (mkStartup false None a) s /\ su_main_done s = true /\ current_transforms (su_app s) = Some (transforms pl) /\
    forall s', rtc startup_step s s' -> current_audited (su_app s') = false.
Proof.
  intros [Hi Hp] Hc. exists (mkStartup true None (store_pipeline false pl (set_audit a))). split_and!; [|done|done|].
  - eapply rtc_l; [apply (su_read _ pl)|]. rewrite Hc. eapply rtc_l; [apply su_main|]. eapply rtc_l; [apply su_store|]. apply rtc_refl.
  - assert (forall i, i ∈ audited (set_audit a) -> (i < next_pipeline a)%nat) as Hs.
    { intros i. cbn. destruct (current (holder a)) as [p|]; [|auto]. intros [->%elem_of_singleton|?]%elem_of_union; auto. }
    assert (unaudited (mkStartup true None (store_pipeline false pl (set_audit a)))) as Hu.
    { split_and!; [done | | done |]; cbn [su_app].
      - unfold current_audited. cbn [store_pipeline holder current Store audited ptr_id]. apply bool_decide_eq_false.
        intros Hin%Hs. cbn in Hin. lia.
      - intros i Hin%Hs. cbn. lia. }
    intros s' Hr. enough (unaudited s') as (_ & ? & _) by done. clear -Hr Hu. induction Hr; eauto using unaudited_step.
Qed.

(** The status can name a configuration that was refused.  A Postgres block
    that does not parse stops a later update and keeps its hash from being
    reported, but at startup the proxy falls back to the local listener and
    reports the hash as applied. *)
Theorem startup_reports_refused_postgres now cfg local resp a l tok p0 :
  initManaged now cfg local (Ok resp) = Runs a l tok p0 -> postgresListenerFromSync local (Postgres resp) = None ->
  l = local /\ configHash p0 = ConfigHash resp /\ st_ConfigHash (status p0) = ConfigHash resp /\
  forall b b' u, Postgres resp <> "" -> u_Postgres u = Postgres resp -> onUpdate local u b <> (None, b').
Proof.
  intros Hi Hp. cbn -[sync_pipeline buildInitialMCPHolder gateway_LoadFromNode postgresListenerFromSync] in Hi. rewrite Hp in Hi.
  destruct (sync_pipeline _ _ _); [|done]. destruct (buildInitialMCPHolder _ _); [|done]. destruct (gateway_LoadFromNode _); [|done].
  injection Hi as <- <- <- <-. split_and!; try done. intros b b' u Hne%is_empty_false Hu. unfold onUpdate. rewrite Hu, Hne.
  destruct (and_then (when_present _ _ _) _) as [[e|] b1]; [done|]. cbn [and_then when_present negb]. unfold applyPostgresSync. by rewrite Hp.
Qed.

End managed.

(** ** Concrete runs *)

Section examples.
Local Existing Instances ascii_tables literal_regexp text_yaml.

(** A transform that refuses everything, by the name of the allowlist. *)
Definition refusing : Transformer unit :=
  mkTransformer "allowlist" (fun t s => (Ok reject_result, t, s)) (fun t s r => (Ok continue_result, t, s, r)) None None.
Definition example_registry : gmap string (option Node -> result string (Transformer unit)) := {["allowlist" := fun _ => Ok refusing]}.
Definition example_limits : BodyLimits := mkLimits 0 0.
Definition no_mcp (n : Node) : option McpConfig := Some (mkMcpConfig (mkErrorConfig None None) []).
Definition no_gateway (n : Node) : option (list (Gateway.RouteConfig Node)) := Some [].
Definition no_postgres (n : Node) : option (PgListener.ListenerConfig Node) := None.
Definition no_source (n : Node) : option secretSource := None.
Definition no_template (fs : gmap string (list string -> string)) (f : string) : option (string -> option string) := None.
Definition guarded_app : App := mkApp (NewPipelineHolder (Some (mkPtr 0 (mkPipeline [refusing] example_limits)))) 1 {[0%nat]} None None PgServing.NewManager.

Definition wiped : option run_error * App :=
  onUpdate example_registry no_mcp no_source example_env example_limits None (mkUpdate "null" "null" "null" "{}" "null") guarded_app.
Lemma null_members_wipe_pipeline_witness :
  PgServing.mg_server (pgManager wiped.2) = None /\ exists p, current (holder wiped.2) = Some p /\ transforms (ptr_pipeline p) = [].
Proof.
  destruct (null_members_wipe_pipeline example_registry no_mcp no_source example_env example_limits "{}" guarded_app wiped.2 (fun _ => 0)
              (mkContext "" ModeMITM None false None None)
              (mkReqState (mkRequest "GET" "example.com" (mkURL "" None "" "/" "" "") ∅ (BufferedBody.NewBufferedBody None 0) 0 false) ())) as (Hpg & p & Hp & Ht & _);
    [vm_compute; reflexivity|]. split; [exact Hpg|]. exists p. split; [exact Hp | exact Ht].
Defined.

Definition unreachable_plane : result cp_error SyncResponse := Err (Transport "down").
Definition managed_start (got : result cp_error SyncResponse) : started_as :=
  initManaged example_registry no_mcp no_gateway no_source no_template example_env example_limits 0 example_config None got.
Lemma managed_ready_after_config_witness :
  match managed_start unreachable_plane with
  | Runs a _ _ p0 => managedReady (Some p0) = true <-> (exists resp, unreachable_plane = Ok resp) \/ @nil SyncResponse <> []
  | Exits => False
  end.
Proof.
  destruct (managed_start unreachable_plane) as [|a l tok p0] eqn:E; [vm_compute in E; discriminate E|].
  exact (managed_ready_after_config example_registry no_mcp no_gateway no_source no_template example_env example_limits 0 example_config None
           unreachable_plane a l tok p0 (started p0 a) E (rtc_refl _ _)).
Defined.

(** A file whose transform is unknown. *)
Definition bad_files : Files :=
  mkFiles (fun _ => Ok (mkConfig None (mkDNS None "" "" "" [] []) (c_Proxy zero) (c_TLS zero) [mkTransform "no_such" None] None None None "" (mkManagement "" "") 0 ""))
          (fun _ _ => Err "no such object").
End examples.
End Managed.
