(* ===== verification/Management.v ===== *)
(** * The management API (src/internal/management/server.go, src/internal/metrics/server.go, src/cmd/iron-proxy/main.go)

    The authenticated HTTP API of the operator over the running proxy: the
    request multiplexer, the three handlers with their guards, the options
    [main] gives them in each mode, and the reload as the sequence of stores
    it is when two of them are served at once.  Error texts and the rendering
    of a time are parameters. *)
From stdpp Require Import base gmap strings list option.
From Stdlib Require Import ZArith Lia Ascii.
From S2P Require Import Prelude GoUtf8 GoStrings GoNet Body GoHttp GoJson GoJsonParse GoTime GoRegexp HostMatch Transform DnsGuard PrivateConn.
From S2P Require Import ScrubPairs Secrets McpPolicy McpGateway RetryHandler PgConfig PgServer Config ControlPlane Managed.
Local Open Scope string_scope.
Local Open Scope list_scope.
Local Open Scope Z_scope.

(** ** http.ServeMux with patterns that are plain paths *)

Module Mux.
(** [cleanPath] of net/http. *)
Definition cleanPath (p : string) : string :=
  if is_empty p then "/"
  else
    let p := if HasPrefix p "/" then p else "/" +:+ p in
    let np := path_Clean p in
    if HasSuffix p "/" && negb (str_eqb np "/") then np +:+ "/" else np.

(** The segments of a path, each decoded where it can be. *)
Definition segments (p : string) : list string := map (fun s => default s (PathUnescape s)) (Split p "/").

Inductive route := StarRequest | Redirect (path : string) | NoPattern | Pattern (pattern : string).

Definition find_pattern (patterns : list string) (path : string) : option string :=
  List.find (fun p => bool_decide (Split p "/" = segments path)) patterns.
Definition match_path (patterns : list string) (path : string) : route :=
  match find_pattern patterns path with Some p => Pattern p | None => NoPattern end.

(** [ServeMux.ServeHTTP] up to the handler. *)
Definition findHandler (patterns : list string) (r : Request) : route :=
  if str_eqb (Path (ReqURL r)) "*" then StarRequest
  else
    let escaped := EscapedPath (ReqURL r) in
    if str_eqb (Method r) "CONNECT" then match_path patterns escaped
    else
      let path := cleanPath escaped in
      if negb (str_eqb path escaped) then Redirect path else match_path patterns path.
End Mux.

Module Management.
Import Mux.

(** ** internal/management/server.go *)

(** What a reload may fail with. *)
Inductive reload_failure := ValidationError (e : string) | OtherError (e : string).

Record reply := mkReply { rp_Status : Z; rp_Header : Header; rp_Body : string }.
Inductive answer := BadStar | Moved (path : string) | Missing | Replied (rp : reply).

Definition newline : string := String (ascii_of_byte 10) "".
Definition writeJSON (h : Header) (status : Z) (body : string) : reply :=
  mkReply status (header_Set h "Content-Type" "application/json") (body +:+ newline).
Definition errorResponse (e : string) : string := json_object [("error", json_string e)].
Definition statusResponse (s : string) : string := json_object [("status", json_string s)].
Definition refuse (status : Z) (e : string) : reply := writeJSON ∅ status (errorResponse e).
Definition not_allowed (allow : string) : reply := writeJSON (header_Set ∅ "Allow" allow) 405 (errorResponse "method not allowed").

Section server.
Context {S : Type}.

(** [Options] over the state the functions act on; [None] is nil. *)
Record Options := mkOptions {
  APIKey : string;
  Reload : option (S -> option reload_failure * S);
  StatusFn : option (S -> string);
  SyncNow : option (S -> S);
}.

Definition bearer : string := "Bearer ".
Definition authorize (o : Options) (r : Request) : bool :=
  match CutPrefix (header_Get (ReqHeader r) "Authorization") bearer with
  | None => false
  | Some got => str_eqb got (APIKey o)
  end.

Definition handleReload (o : Options) (r : Request) (s : S) : reply * S :=
  if negb (authorize o r) then (refuse 401 "unauthorized", s)
  else if negb (str_eqb (Method r) "POST") then (not_allowed "POST", s)
  else
    match Reload o with
    | None => (refuse 404 "reload is unavailable in managed mode", s)
    | Some reload =>
      match reload s with
      | (None, s') => (writeJSON ∅ 200 (statusResponse "ok"), s')
      | (Some (ValidationError e), s') => (refuse 422 e, s')
      | (Some (OtherError _), s') => (refuse 500 "internal error", s')
      end
    end.

Definition handleStatus (o : Options) (r : Request) (s : S) : reply * S :=
  if negb (authorize o r) then (refuse 401 "unauthorized", s)
  else if negb (str_eqb (Method r) "GET") then (not_allowed "GET", s)
  else
    match StatusFn o with
    | None => (refuse 404 "status is unavailable in standalone mode", s)
    | Some status => (writeJSON ∅ 200 (status s), s)
    end.

Definition handleSync (o : Options) (r : Request) (s : S) : reply * S :=
  if negb (authorize o r) then (refuse 401 "unauthorized", s)
  else if negb (str_eqb (Method r) "POST") then (not_allowed "POST", s)
  else
    match SyncNow o with
    | None => (refuse 404 "sync is unavailable in standalone mode", s)
    | Some syncNow => (writeJSON ∅ 202 (statusResponse "sync requested"), syncNow s)
    end.

(** The routes of [New], in its order. *)
Definition routes (o : Options) : list (string * (Request -> S -> reply * S)) :=
  [("/v1/reload", handleReload o); ("/v1/status", handleStatus o); ("/v1/sync", handleSync o)].

Definition handler_of (o : Options) (pattern : string) : option (Request -> S -> reply * S) :=
  snd <$> List.find (fun e => str_eqb (fst e) pattern) (routes o).
Definition serve (o : Options) (r : Request) (s : S) : answer * S :=
  match findHandler (map fst (routes o)) r with
  | StarRequest => (BadStar, s)
  | Redirect path => (Moved path, s)
  | NoPattern => (Missing, s)
  | Pattern p =>
    match handler_of o p with
    | None => (Missing, s)
    | Some h => let '(rp, s') := h r s in (Replied rp, s')
    end
  end.

(** ** What a request can do *)

Lemma authorize_spec o r : authorize o r = true <-> header_Get (ReqHeader r) "Authorization" = bearer +:+ APIKey o.
Proof.
  unfold authorize, CutPrefix. destruct (HasPrefix _ bearer) eqn:Hp.
  - apply HasPrefix_spec in Hp as [t Ht]. rewrite Ht, sdrop_app_length, str_eqb_eq. split; [by intros -> | apply (inj (String.append bearer))].
  - split; [done|]. intros Hh. rewrite Hh, HasPrefix_app in Hp. discriminate Hp.
Qed.

(** Every request leaves the state as it was, or is an authorized POST that
    reloads or syncs; only a reload or a status answers 200. *)
Lemma serve_cases o r s ans s' : serve o r s = (ans, s') ->
  (s' = s /\ (StatusFn o = None -> forall rp, ans = Replied rp -> rp_Status rp <> 200)) \/
  (authorize o r = true /\ Method r = "POST" /\ exists rp, ans = Replied rp /\
    ((exists reload, Reload o = Some reload /\ s' = (reload s).2 /\
        rp_Status rp = match (reload s).1 with None => 200 | Some (ValidationError _) => 422 | Some (OtherError _) => 500 end) \/
     (exists syncNow, SyncNow o = Some syncNow /\ s' = syncNow s /\ rp_Status rp = 202))).
Proof.
  unfold serve. destruct (findHandler _ r) as [|q| |p]; try (by intros [= <- <-]; left).
  unfold handler_of. cbn [routes List.find fst].
  destruct (str_eqb "/v1/reload" p); [|destruct (str_eqb "/v1/status" p); [|destruct (str_eqb "/v1/sync" p); [|by intros [= <- <-]; left]]]; cbn;
    unfold handleReload, handleStatus, handleSync; (destruct (authorize o r); [|intros [= <- <-]; left; split; [done | by intros _ rp [= <-]]]);
    destruct (str_eqb (Method r) _) eqn:Em; try (intros [= <- <-]; left; split; [done | by intros _ rp [= <-]]); apply str_eqb_eq in Em; cbn.
  - destruct (Reload o) as [reload|]; [|intros [= <- <-]; left; split; [done | by intros _ rp [= <-]]].
    destruct (reload s) as [[[e|e]|] s1] eqn:Er; intros [= <- <-]; right; do 2 (split; [done|]); eexists; (split; [done|]); left; exists reload; by rewrite Er.
  - destruct (StatusFn o); intros [= <- <-]; left; (split; [done|]); [done | by intros _ rp [= <-]].
  - destruct (SyncNow o) as [syncNow|]; [|intros [= <- <-]; left; split; [done | by intros _ rp [= <-]]].
    intros [= <- <-]. right. do 2 (split; [done|]). eexists. split; [done|]. right. by exists syncNow.
Qed.
End server.
Arguments Options : clear implicits.

(** ** internal/metrics/server.go *)

Definition metrics_serve (r : Request) : answer :=
  match findHandler ["/healthz"] r with
  | StarRequest => BadStar
  | Redirect path => Moved path
  | NoPattern => Missing
  | Pattern _ => Replied (mkReply 200 ∅ "OK")
  end.

(** ** The API in front of the running proxy (main.go) *)

Import Config ControlPlane Managed.

Section main.
Context `{UnicodeTables} `{Regexp} `{Yaml} {C : Type}.
Variable registry : gmap string (option Node -> result string (Transformer C)).
Variable decode_mcp : Node -> option McpConfig.
Variable decode_gateway : Node -> option (list (Gateway.RouteConfig Node)).
Variable decode_postgres : Node -> option (PgListener.ListenerConfig Node).
Variable BuildSource : Node -> option secretSource.
Variable template_Parse : gmap string (list string -> string) -> string -> option (string -> option string).
Variable Getenv : string -> string.
Variable limits : BodyLimits.
(** The rendering of errors and times. *)
Variable error_text : reload_error -> string.
Variable time_JSON : Z -> string.

(** The state behind the API: what serves, and the poller of managed mode. *)
Definition running : Type := App (C := C) * option Poller.

Definition do_reload : Files -> string -> App -> option reload_error * App :=
  Managed.reload registry decode_mcp decode_gateway decode_postgres BuildSource template_Parse Getenv limits.

(** The JSON of [poller.Status()]. *)
Definition status_JSON (st : ControlPlane.Status) : string :=
  json_object [("config_hash", json_string (st_ConfigHash st)); ("principal_id", json_string (st_PrincipalID st));
               ("principal_status", json_string (st_PrincipalStatus st)); ("synced_once", if SyncedOnce st then "true" else "false");
               ("last_sync_at", time_JSON (LastSyncAt st))].

Definition newReloadFunc (files : Files) (path : string) (st : running) : option reload_failure * running :=
  let '(e, a') := do_reload files path st.1 in ((fun e => ValidationError (error_text e)) <$> e, (a', st.2)).

(** The options of [main]; [None] when no address is configured. *)
Definition mgmtOpts (cfg : Config.t) (managed : bool) (files : Files) (path : string) : option (Options running) :=
  if is_empty (mg_Listen (c_Management cfg)) then None
  else
    let key := Getenv (APIKeyEnv (c_Management cfg)) in
    Some (if managed
          then mkOptions key None (Some (fun st => default "null" (status_JSON ∘ status <$> st.2))) (Some (fun st => (st.1, Poke <$> st.2)))
          else mkOptions key (Some (newReloadFunc files path)) None None).

Lemma newReloadFunc_effect files path st rp :
  rp_Status rp = match (newReloadFunc files path st).1 with None => 200 | Some (ValidationError _) => 422 | Some (OtherError _) => 500 end ->
  if rp_Status rp =? 200 then do_reload files path st.1 = (None, (newReloadFunc files path st).2.1) /\ (newReloadFunc files path st).2.2 = st.2
  else (newReloadFunc files path st).2 = st.
Proof.
  unfold newReloadFunc. destruct (do_reload files path st.1) as [[e|] a'] eqn:E; cbn; intros ->; [|done].
  apply reload_failed in E as ->. by destruct st.
Qed.

(** The management API changes the proxy only for a caller that presents
    the configured key, which a validated configuration makes non-empty, and
    only by POST: in managed mode the one effect is a poke of the poller; in
    standalone mode a 200 says that the configuration of the file now serves,
    and with every other answer everything serves as before. *)
Theorem management_api_guarded cfg managed files path o r st ans st' :
  Validate Getenv cfg = None -> mgmtOpts cfg managed files path = Some o -> serve o r st = (ans, st') ->
  (st' <> st -> Method r = "POST" /\ exists key, key <> "" /\ key = Getenv (APIKeyEnv (c_Management cfg)) /\
                 header_Get (ReqHeader r) "Authorization" = "Bearer " +:+ key) /\
  (managed = true -> st' <> st -> st' = (st.1, Poke <$> st.2)) /\
  (managed = false ->
     match ans with
     | Replied rp => if rp_Status rp =? 200 then do_reload files path st.1 = (None, st'.1) /\ st'.2 = st.2 else st' = st
     | _ => st' = st
     end).
Proof.
  intros Hv Ho Hs. unfold mgmtOpts in Ho. destruct (is_empty (mg_Listen _)) eqn:El; [done|]. apply is_empty_false in El.
  pose proof (dp_key _ _ (Validate_deployable _ _ Hv) El) as Hkey. injection Ho as Ho.
  assert (APIKey o = Getenv (APIKeyEnv (c_Management cfg))) as Hk by (by rewrite <- Ho; destruct managed).
  destruct (serve_cases o r st ans st' Hs) as [[-> Hno]|(Ha & Hm & rp & -> & Hdo)].
  - split_and!; [done | done |]. intros ->. rewrite <- Ho in Hno. destruct ans as [| | |rp]; try done.
    specialize (Hno eq_refl rp eq_refl). apply Z.eqb_neq in Hno. by rewrite Hno.
  - apply authorize_spec in Ha. split_and!.
    + intros _. split; [done|]. exists (APIKey o). by rewrite Hk in *.
    + intros -> _. rewrite <- Ho in Hdo. destruct Hdo as [(f & Hf & _)|(f & Hf & -> & _)]; [done|]. by injection Hf as <-.
    + intros ->. rewrite <- Ho in Hdo. destruct Hdo as [(f & Hf & -> & Hst)|(f & Hf & _)]; [|done].
      injection Hf as <-. by apply newReloadFunc_effect.
Qed.

(** ** Two reloads at once

    net/http serves every request on its own, and the closure of
    [newReloadFunc] takes no lock: its loads and stores interleave with those
    of another reload. *)

Record built := mkBuilt { b_pipeline : Pipeline C; b_policy : option Policy; b_gateway : option Gateway.t; b_listener : option PgListener.Listener }.
Inductive reload_phase :=
  | Begin | StorePipeline (b : built) | StoreMCP (b : built) | StoreGateway (b : built) | ReloadPostgres (b : built)
  | Finished (e : option reload_error).

Definition load_and_build (files : Files) (path : string) : result reload_error built :=
  match LoadConfig files Getenv path with
  | Err e => Err (ReloadConfig e)
  | Ok cfg =>
    match Validate Getenv cfg with
    | Some e => Err (ReloadConfig e)
    | None =>
      match build_all registry decode_mcp decode_gateway decode_postgres BuildSource template_Parse Getenv limits cfg with
      | Err e => Err (ReloadBuild e)
      | Ok (pl, policy, gateway, listener) => Ok (mkBuilt pl policy gateway listener)
      end
    end
  end.

(** One statement of the closure: everything up to the first store, then each store. *)
Definition reload_statement (files : Files) (path : string) (ph : reload_phase) (a : App (C := C)) : reload_phase * App (C := C) :=
  match ph with
  | Begin => (match load_and_build files path with Ok b => StorePipeline b | Err e => Finished (Some e) end, a)
  | StorePipeline b => (StoreMCP b, store_pipeline (current_audited a) (b_pipeline b) a)
  | StoreMCP b => (StoreGateway b, mkApp (holder a) (next_pipeline a) (audited a) (b_policy b) (gatewayHolder a) (pgManager a))
  | StoreGateway b => (ReloadPostgres b, mkApp (holder a) (next_pipeline a) (audited a) (mcpHolder a) (b_gateway b) (pgManager a))
  | ReloadPostgres b =>
    (Finished None, mkApp (holder a) (next_pipeline a) (audited a) (mcpHolder a) (gatewayHolder a) (PgServing.Reload (b_listener b) (pgManager a)))
  | Finished e => (Finished e, a)
  end.

(** Alone, the statements are the reload. *)
Lemma reload_statements_alone files path a :
  Nat.iter 5 (fun '(ph, a) => reload_statement files path ph a) (Begin, a) =
  let '(e, a') := do_reload files path a in (Finished e, a').
Proof.
  unfold do_reload, Managed.reload. cbn [Nat.iter nat_rect reload_statement]. unfold load_and_build.
  destruct (LoadConfig files Getenv path) as [cfg|ec]; [|done]. destruct (Validate Getenv cfg); [done|].
  by destruct (build_all _ _ _ _ _ _ _ _ cfg) as [[[[pl policy] gateway] listener]|eb].
Qed.

(** Two requests in flight; [true] is the first. *)
Record race := mkRace { rc_first : reload_phase; rc_second : reload_phase; rc_app : App (C := C) }.
Definition race_statement (files1 files2 : Files) (path : string) (first : bool) (s : race) : race :=
  if first then let '(ph, a) := reload_statement files1 path (rc_first s) (rc_app s) in mkRace ph (rc_second s) a
  else let '(ph, a) := reload_statement files2 path (rc_second s) (rc_app s) in mkRace (rc_first s) ph a.
Definition run_race (files1 files2 : Files) (path : string) (schedule : list bool) (s : race) : race :=
  fold_left (fun s first => race_statement files1 files2 path first s) schedule s.

(** Two reloads that each succeed alone can both report success and leave the
    pipeline of one file with the MCP policy and gateway of the other. *)
Theorem concurrent_reloads_mix files1 files2 path a b1 b2 :
  load_and_build files1 path = Ok b1 -> load_and_build files2 path = Ok b2 ->
  exists schedule a', run_race files1 files2 path schedule (mkRace Begin Begin a) = mkRace (Finished None) (Finished None) a' /\
    (ptr_pipeline <$> current (holder a')) = Some (b_pipeline b2) /\ mcpHolder a' = b_policy b1 /\ gatewayHolder a' = b_gateway b1.
Proof.
  intros Hb1 Hb2. exists [true; false; true; false; false; false; false; true; true; true].
  unfold run_race. cbn [fold_left]. unfold race_statement at 10. cbn [rc_first rc_app reload_statement]. rewrite Hb1.
  unfold race_statement at 9. cbn [rc_second rc_app reload_statement]. rewrite Hb2. cbn. eauto.
Qed.

(** ** The response retry handler from the environment *)

Context `{MapRange}.
Inductive retry_env_error := BadAllowance | BadStatuses | BadHandler (e : Retry.retry_error).
Definition responseRetryHandlerFromEnv (timeout : Z) (guard : option Guard) : result retry_env_error (option (Retry.Handler * list Z)) :=
  let handlerURL := Getenv "IRON_RESPONSE_RETRY_HANDLER_URL" in
  if is_empty handlerURL then Ok None
  else
    match ParseBool (or_string (Getenv "IRON_RESPONSE_RETRY_HANDLER_ALLOW_HTTP") "false") with
    | None => Err BadAllowance
    | Some allowHTTP =>
      match parseResponseRetryStatuses (Getenv "IRON_RESPONSE_RETRY_STATUSES") with
      | None => Err BadStatuses
      | Some statuses =>
        match Retry.New (Retry.mkOptions handlerURL (Getenv "IRON_RESPONSE_RETRY_COMPLETE_URL") (Getenv "IRON_RESPONSE_RETRY_HANDLER_TOKEN")
                (Getenv "IRON_RESPONSE_RETRY_HANDLER_SANDBOX_ID") statuses allowHTTP
                (splitCommaSeparated (or_string (Getenv "IRON_RESPONSE_RETRY_COMPLETION_HEADERS") "Payment-Receipt"))
                (splitCommaSeparated (Getenv "IRON_RESPONSE_RETRY_HANDLER_ALLOW_CIDRS")) guard timeout None) with
        | Err e => Err (BadHandler e)
        | Ok handler => Ok (Some (handler, statuses))
        end
      end
    end.
End main.

Section examples.
Local Existing Instances ascii_tables literal_regexp text_yaml default_range.
Definition api_env (v : string) : string :=
  if str_eqb v "IRON_MANAGEMENT_API_KEY" then "k1" else example_env v.
Definition api_config : Config.t :=
  match LoadConfig (mkFiles (fun _ => Ok (mkConfig None (mkDNS None "" "" "" [] []) (c_Proxy zero) (c_TLS zero) [] None None None "" (mkManagement ":9092" "") 0 ""))
                      (fun _ _ => Err "no such object")) api_env "f.yaml" with Ok c => c | Err _ => zero end.
Definition api_options (files : Files) : option (Options (running (C := unit))) :=
  mgmtOpts example_registry no_mcp no_gateway no_postgres no_source no_template api_env example_limits (fun _ => "invalid") (fun _ => "null")
    api_config false files "f.yaml".
Definition reload_request (authorization : string) : Request :=
  mkRequest "POST" "localhost" (mkURL "" None "" "/v1/reload" "" "") (header_Set ∅ "Authorization" authorization) (BufferedBody.NewBufferedBody None 0) 0 false.
Definition allow_files : Files :=
  mkFiles (fun _ => Ok (mkConfig None (mkDNS None "" "" "" [] []) (c_Proxy zero) (c_TLS zero) [mkTransform "allowlist" None] None None None "" (mkManagement "" "") 0 ""))
          (fun _ _ => Err "no such object").
Definition api_reply (files : Files) (authorization : string) : option (answer * running (C := unit)) :=
  (fun o => serve o (reload_request authorization) (guarded_app, None)) <$> api_options files.

Example reload_answers :
  map (fun x => match x with Some (Replied rp, _) => rp_Status rp | _ => 0 end)
    [api_reply allow_files "Bearer k1"; api_reply bad_files "Bearer k1"; api_reply allow_files "Bearer "; api_reply allow_files "k1"] = [200; 422; 401; 401].
Proof. vm_compute. reflexivity. Qed.

Lemma management_api_guarded_witness :
  match api_reply bad_files "Bearer k1" with Some (_, st') => st' = (guarded_app, None) | None => False end.
Proof.
  destruct (api_reply bad_files "Bearer k1") as [[ans st']|] eqn:E; [|vm_compute in E; discriminate E].
  unfold api_reply in E. destruct (api_options bad_files) as [o|] eqn:Eo; [|done]. injection E as E.
  destruct (management_api_guarded example_registry no_mcp no_gateway no_postgres no_source no_template api_env example_limits
              (fun _ => "invalid") (fun _ => "null") api_config false bad_files "f.yaml" o (reload_request "Bearer k1") (guarded_app, None) ans st'
              ltac:(vm_compute; reflexivity) Eo E) as (_ & _ & Hstand).
  specialize (Hstand eq_refl). destruct ans as [| | |rp]; try exact Hstand.
  destruct (rp_Status rp =? 200) eqn:E2; [|exact Hstand].
  destruct Hstand as [Hr _]. vm_compute in Hr. discriminate Hr.
Defined.

(** The file had a transform, and has none now. *)
Definition empty_files : Files :=
  mkFiles (fun _ => Ok (mkConfig None (mkDNS None "" "" "" [] []) (c_Proxy zero) (c_TLS zero) [] None None None "" (mkManagement "" "") 0 ""))
          (fun _ _ => Err "no such object").
Definition example_build (files : Files) : result reload_error (built (C := unit)) :=
  load_and_build example_registry no_mcp no_gateway no_postgres no_source no_template api_env example_limits files "f.yaml".
Lemma concurrent_reloads_mix_witness :
  match example_build allow_files, example_build empty_files with
  | Ok b1, Ok b2 =>
    exists schedule a',
      run_race example_registry no_mcp no_gateway no_postgres no_source no_template api_env example_limits allow_files empty_files "f.yaml"
        schedule (mkRace Begin Begin guarded_app) = mkRace (Finished None) (Finished None) a' /\
      (ptr_pipeline <$> current (holder a')) = Some (b_pipeline b2) /\ mcpHolder a' = b_policy b1 /\ gatewayHolder a' = b_gateway b1
  | _, _ => False
  end.
Proof.
  destruct (example_build allow_files) as [b1|e] eqn:E1; [|vm_compute in E1; discriminate E1].
  destruct (example_build empty_files) as [b2|e] eqn:E2; [|vm_compute in E2; discriminate E2].
  exact (concurrent_reloads_mix example_registry no_mcp no_gateway no_postgres no_source no_template api_env example_limits
           allow_files empty_files "f.yaml" guarded_app b1 b2 E1 E2).
Defined.
End examples.
End Management.
