(* ===== verification/JudgeBreaker.v ===== *)
(** * The judge's circuit breaker (src/internal/transform/judge/resilience.go)

    A breaker that opens after a number of consecutive failures and probes
    after a cooldown.  Its calls are settled in any order by the requests that
    hold a permit, so its life is a step relation over the permits that are
    out and the clock. *)
From stdpp Require Import base list option relations.
From Stdlib Require Import ZArith Lia.
From S2P Require Import Prelude.
Local Open Scope Z_scope.

Module Breaker.

Definition defaultConsecutiveFailures : Z := 5.
Definition defaultCooldown : Z := 10 * 1000000000.

Record breakerConfig := mkBreakerConfig { ConsecutiveFailures : Z; Cooldown : Z }.

Inductive breakerState := stateClosed | stateOpen | stateHalfOpen.
#[global] Instance breakerState_eq_dec : EqDecision breakerState.
Proof. solve_decision. Defined.

(** Times are nanoseconds; the zero time is [0]. *)
Record circuitBreaker := mkBreaker {
  threshold : Z; cooldown : Z; failures : Z; openedAt : Z; state : breakerState; halfOpenInUse : bool }.

Definition newCircuitBreaker (cfg : breakerConfig) : circuitBreaker :=
  mkBreaker (if ConsecutiveFailures cfg <=? 0 then defaultConsecutiveFailures else ConsecutiveFailures cfg)
            (if Cooldown cfg <=? 0 then defaultCooldown else Cooldown cfg) 0 0 stateClosed false.

(** [allow] at a time: a permit, marked if it is a probe, or a refusal. *)
Definition allow (now : Z) (b : circuitBreaker) : option bool * circuitBreaker :=
  match state b with
  | stateClosed => (Some false, b)
  | stateOpen =>
    if now - openedAt b <? cooldown b then (None, b)
    else (Some true, mkBreaker (threshold b) (cooldown b) (failures b) (openedAt b) stateHalfOpen true)
  | stateHalfOpen =>
    if halfOpenInUse b then (None, b)
    else (Some true, mkBreaker (threshold b) (cooldown b) (failures b) (openedAt b) stateHalfOpen true)
  end.

(** The body of the permit [makePermit] returns; it runs once. *)
Definition settle (now : Z) (halfOpen success : bool) (b : circuitBreaker) : circuitBreaker :=
  let inUse := if halfOpen then false else halfOpenInUse b in
  if success then mkBreaker (threshold b) (cooldown b) 0 0 stateClosed inUse
  else if halfOpen then mkBreaker (threshold b) (cooldown b) (failures b) now stateOpen inUse
  else
    let f := failures b + 1 in
    if threshold b <=? f then mkBreaker (threshold b) (cooldown b) f now stateOpen inUse
    else mkBreaker (threshold b) (cooldown b) f (openedAt b) (state b) inUse.

(** ** The life of a breaker *)

Record life := mkLife { lf_breaker : circuitBreaker; lf_clock : Z; lf_permits : list bool }.
Inductive step : life -> life -> Prop :=
  | step_tick d l : 0 <= d -> step l (mkLife (lf_breaker l) (lf_clock l + d) (lf_permits l))
  | step_allow p b l : allow (lf_clock l) (lf_breaker l) = (Some p, b) -> step l (mkLife b (lf_clock l) (lf_permits l ++ [p]))
  | step_refuse b l : allow (lf_clock l) (lf_breaker l) = (None, b) -> step l (mkLife b (lf_clock l) (lf_permits l))
  | step_settle l1 p l2 success l :
      lf_permits l = l1 ++ p :: l2 ->
      step l (mkLife (settle (lf_clock l) p success (lf_breaker l)) (lf_clock l) (l1 ++ l2)).

Definition born (cfg : breakerConfig) (t : Z) : life := mkLife (newCircuitBreaker cfg) t [].

(** It is closed only while the failures in a row are fewer than the
    threshold; half open only while a probe is out; open since a time past. *)
Record breaker_inv (l : life) : Prop := mkInv {
  inv_threshold : 0 < threshold (lf_breaker l);
  inv_cooldown : 0 < cooldown (lf_breaker l);
  inv_closed : state (lf_breaker l) = stateClosed -> failures (lf_breaker l) < threshold (lf_breaker l);
  inv_half : state (lf_breaker l) = stateHalfOpen -> halfOpenInUse (lf_breaker l) = true /\ true ∈ lf_permits l;
  inv_open : state (lf_breaker l) = stateOpen -> openedAt (lf_breaker l) <= lf_clock l }.

Lemma breaker_inv_born cfg t : breaker_inv (born cfg t).
Proof.
  unfold born, newCircuitBreaker. split; cbn; try done; unfold defaultConsecutiveFailures, defaultCooldown.
  - destruct (_ <=? 0) eqn:E; bool_prop; lia.
  - destruct (_ <=? 0) eqn:E; bool_prop; lia.
  - intros _. destruct (ConsecutiveFailures cfg <=? 0) eqn:E; bool_prop; lia.
Qed.

Lemma breaker_inv_step l l' : step l l' -> breaker_inv l -> breaker_inv l'.
Proof.
  intros Hs [Ht Hc Hcl Hh Ho]. destruct Hs as [d l Hd|p b l Ha|b l Ha|l1 p l2 success l Hp]; destruct (lf_breaker l) as [th co f at_ st iu] eqn:Hb; cbn in *.
  - split; cbn; rewrite ?Hb; cbn; try done. intros ?%Ho. lia.
  - destruct st; cbn in Ha; repeat case_match; simplify_eq; split; cbn; try done; try set_solver.
  - destruct st; cbn in Ha; repeat case_match; simplify_eq; split; cbn; done.
  - rewrite Hp in Hh. unfold settle. cbn. destruct success; [by split|]. destruct p; [split; cbn; try done; lia|].
    destruct (th <=? f + 1) eqn:Ef; [split; cbn; try done; lia|]. apply Z.leb_gt in Ef. split; cbn; try done.
    intros [Hi Hin]%Hh. split; [done|]. set_solver.
Qed.

Lemma breaker_inv_steps l l' : rtc step l l' -> breaker_inv l -> breaker_inv l'.
Proof. apply rtc_invariant. eauto using breaker_inv_step. Qed.
Lemma breaker_inv_reachable cfg t l : rtc step (born cfg t) l -> breaker_inv l.
Proof. intros Hr. eapply breaker_inv_steps; [exact Hr | apply breaker_inv_born]. Qed.

(** C18: The breaker opens when it should and always recovers.  In every
    reachable state, whatever order calls are granted and settled in: it is
    closed only while fewer failures in a row than the threshold were seen;
    while it is open and the cooldown has not passed since it opened, no call
    is granted; and once no permit is out, a call is granted at the latest
    one cooldown later. *)
Theorem breaker_recovers cfg t l :
  rtc step (born cfg t) l ->
  (state (lf_breaker l) = stateClosed -> failures (lf_breaker l) < threshold (lf_breaker l)) /\
  (state (lf_breaker l) = stateOpen -> forall now, now < openedAt (lf_breaker l) + cooldown (lf_breaker l) ->
     (allow now (lf_breaker l)).1 = None) /\
  (lf_permits l = [] -> forall d, cooldown (lf_breaker l) <= d -> exists p b, allow (lf_clock l + d) (lf_breaker l) = (Some p, b)).
Proof.
  intros [Ht Hc Hcl Hh Ho]%breaker_inv_reachable. split; [done|]. split.
  - intros Hst now Hnow. unfold allow. rewrite Hst. by rewrite (proj2 (Z.ltb_lt _ _)) by lia.
  - intros Hp d Hd. unfold allow. destruct (state (lf_breaker l)) eqn:Hst; [eauto| |].
    + specialize (Ho eq_refl). rewrite (proj2 (Z.ltb_ge _ _)) by lia. eauto.
    + destruct (Hh eq_refl) as [_ Hin]. rewrite Hp in Hin. by apply elem_of_nil in Hin.
Qed.

Lemma two_probes_run co t :
  0 < co ->
  rtc step (mkLife (mkBreaker 1 co 0 0 stateClosed false) t [])
           (mkLife (mkBreaker 1 co 2 (t + co) stateHalfOpen true) (t + co + co) [true; true]).
Proof.
  intros Hco. assert (forall x, (x + co - x <? co) = false) as Hcool by (intros; apply Z.ltb_ge; lia).
  eapply rtc_l; [apply (step_allow false); reflexivity|]. cbn.
  eapply rtc_l; [apply (step_allow false); reflexivity|]. cbn.
  eapply rtc_l; [apply (step_settle [] false [false] false); reflexivity|]. cbn.
  eapply rtc_l; [apply (step_tick co); lia|]. cbn.
  eapply rtc_l; [apply (step_allow true); unfold allow; cbn; rewrite Hcool; reflexivity|]. cbn.
  eapply rtc_l; [apply (step_settle [] false [true] false); reflexivity|]. cbn.
  eapply rtc_l; [apply (step_tick co); lia|]. cbn.
  eapply rtc_l; [apply (step_allow true); unfold allow; cbn; rewrite Hcool; reflexivity|]. apply rtc_refl.
Qed.

(** More than one probe can be out.  A call granted before the breaker
    opened that fails while a probe is out opens the breaker again, and the
    next cooldown grants a second probe next to the first. *)
Theorem two_probes_out cfg t :
  ConsecutiveFailures cfg = 1 ->
  exists l, rtc step (born cfg t) l /\ lf_permits l = [true; true] /\ state (lf_breaker l) = stateHalfOpen.
Proof.
  intros Hcf. pose proof (inv_cooldown _ (breaker_inv_born cfg t)) as Hco. unfold born, newCircuitBreaker in *. rewrite Hcf in *. cbn in *.
  eexists. split; [by apply two_probes_run|]. done.
Qed.

Lemma breaker_recovers_witness :
  exists p b, allow (0 + 30) (lf_breaker (mkLife (settle 0 false false (newCircuitBreaker (mkBreakerConfig 1 30))) 0 [])) = (Some p, b).
Proof.
  apply (breaker_recovers (mkBreakerConfig 1 30) 0 (mkLife (settle 0 false false (newCircuitBreaker (mkBreakerConfig 1 30))) 0 []));
    [|reflexivity|vm_compute; discriminate].
  eapply rtc_l; [apply (step_allow false); reflexivity|]. eapply rtc_once. by apply (step_settle [] false [] false).
Defined.
Lemma two_probes_out_witness : exists l, rtc step (born (mkBreakerConfig 1 30) 0) l /\ lf_permits l = [true; true].
Proof. destruct (two_probes_out (mkBreakerConfig 1 30) 0 eq_refl) as (l & Hl & Hp & _). exists l. by split. Defined.
End Breaker.
