(* ===== verification/Judge.v ===== *)
(** * The judge transform (src/internal/transform/judge/transform.go, prompt.go)

    A language model is asked to allow or deny the requests its rules match;
    a circuit breaker and a fallback decide when it cannot be asked.  The model
    and the text of the embedded system prompt are parameters. *)
From stdpp Require Import base gmap strings list option.
From Stdlib Require Import ZArith Lia Ascii.
From S2P Require Import Prelude GoUtf8 GoStrings GoNet Body GoHttp GoJson HostMatch Transform GoJsonParse McpRpc Utf8Codec GoUrl Observers JudgeBreaker.
Local Open Scope string_scope.
Local Open Scope list_scope.
Local Open Scope Z_scope.

Module Judge.
Import Breaker.

(** ** prompt.go *)

Definition MaxBodyBytes : Z := 16384.
Definition MaxURLBytes : Z := 2048.
Definition MaxHeaderBytes : Z := 4096.
Definition MaxHeaderValueBytes : Z := 512.

Definition priorityHeaders : list string :=
  ["Host"; "Origin"; "Referer"; "X-Forwarded-For"; "X-Forwarded-Host"; "Content-Type"; "Content-Length";
   "Content-Encoding"; "Transfer-Encoding"; "Authorization"; "Cookie"].
Definition priorityHeadersCanonical : list string := map CanonicalHeaderKey priorityHeaders.

Record headerKV := mkKV { kv_Name : string; kv_Value : string }.
Record requestEnvelope := mkEnvelope {
  env_Method : string; env_URL : string; env_Host : string; env_Headers : list headerKV;
  env_Body : string; env_Warnings : list string; env_MultipartSummary : string }.
Record Decision := mkDecision { dec_Decision : string; dec_Reason : string }.

Definition str_len (s : string) : Z := Z.of_nat (String.length s).
Definition cap_string (n : Z) (s : string) : string := stake (Z.to_nat n) s.

(** [fmt.Sprintf] of a template with one [%s]. *)
Definition buildSystemPrompt (template policy : string) : string :=
  let '(before, behind) := default (template, "") (Cut template "%s") in
  before +:+ json_string policy +:+ behind.

Definition joinHeader (vs : list string) : string := Join vs ", ".
Definition capHeaderValue (v : string) : string :=
  if str_len v <=? MaxHeaderValueBytes then v
  else cap_string MaxHeaderValueBytes v +:+ "... [truncated, original " +:+ Itoa (str_len v) +:+ " bytes]".

Section prompt.
Context `{UnicodeTables} `{MapRange}.

(** [emit] over a list of headers until the budget is reached: what is
    emitted, how much is used, and whether something was left out. *)
Fixpoint emit_headers (used : Z) (l : list (string * string)) : list headerKV * Z * bool :=
  match l with
  | [] => ([], used, false)
  | (name, value) :: rest =>
    let cost := str_len name + str_len value in
    if MaxHeaderBytes <? used + cost then ([], used, true)
    else let '(out, used', truncated) := emit_headers (used + cost) rest in (mkKV name value :: out, used', truncated)
  end.

(** The header map under canonical names; of several spellings the one
    visited last stays. *)
Definition canonical_map (h : Header) : Header :=
  foldl (fun m e => <[CanonicalHeaderKey e.1 := e.2]> m) ∅ (map_range h).
Definition priority_entries (canonical : Header) : list (string * string) :=
  omap (fun cname => match canonical !! cname with
                     | Some (v :: vs) => Some (cname, capHeaderValue (joinHeader (v :: vs)))
                     | _ => None
                     end) priorityHeadersCanonical.
Definition remaining_entries (canonical : Header) : list (string * string) :=
  map (fun k => (k, capHeaderValue (joinHeader (raw_values canonical k))))
      (List.filter (fun k => negb (existsb (str_eqb k) priorityHeadersCanonical)) (sorted_keys canonical)).
Definition headers_warning : string := "headers truncated to fit " +:+ Itoa MaxHeaderBytes +:+ " byte budget".
Definition collectHeaders (h : Header) (warnings : list string) : list headerKV * list string :=
  if (size h =? 0)%nat then ([], warnings)
  else
    let canonical := canonical_map h in
    let '(out1, used, truncated1) := emit_headers 0 (priority_entries canonical) in
    let '(out2, _, truncated2) :=
      if truncated1 then ([], used, true) else emit_headers used (remaining_entries canonical) in
    (out1 ++ out2, if truncated1 || truncated2 then warnings ++ [headers_warning] else warnings).

(** [buildEnvelope] up to the encoding. *)
Definition body_warning : string := "body omitted: contains non-UTF-8 bytes".
Definition envelope_of (req : Request) (body : list Z) (bodyTruncated : bool) : requestEnvelope :=
  let url := url_String (ReqURL req) in
  let '(url, warnings) :=
    if str_len url <=? MaxURLBytes then (url, [])
    else (cap_string MaxURLBytes url, ["url truncated from " +:+ Itoa (str_len url) +:+ " to " +:+ Itoa MaxURLBytes +:+ " bytes"]) in
  let '(headers, warnings) := collectHeaders (ReqHeader req) warnings in
  let '(text, warnings) :=
    if (length body =? 0)%nat then ("", warnings)
    else if utf8_Valid body then (string_of_bytes body, warnings)
    else ("", warnings ++ [body_warning]) in
  let '(warnings, multipart) :=
    if bodyTruncated then
      (warnings ++ ["body truncated to " +:+ Itoa MaxBodyBytes +:+ " bytes; content beyond this cap was not shown"],
       if HasPrefix (ToLower (header_Get (ReqHeader req) "Content-Type")) "multipart/"
       then "<truncated multipart body; full parsing in v0.14>" else "")
    else (warnings, "") in
  mkEnvelope (Method req) url (ReqHost req) headers text warnings multipart.

(** Its JSON; the marshalling of these fields cannot fail. *)
Definition marshal_kv (kv : headerKV) : string := json_object [("name", json_string (kv_Name kv)); ("value", json_string (kv_Value kv))].
Definition marshal_envelope (e : requestEnvelope) : string :=
  json_object
    ([("method", json_string (env_Method e)); ("url", json_string (env_URL e)); ("host", json_string (env_Host e));
      ("headers", match env_Headers e with [] => "null" | l => json_array (map marshal_kv l) end)]
     ++ (if is_empty (env_Body e) then [] else [("body", json_string (env_Body e))])
     ++ (match env_Warnings e with [] => [] | l => [("warnings", json_array (map json_string l))] end)
     ++ (if is_empty (env_MultipartSummary e) then [] else [("multipart_summary", json_string (env_MultipartSummary e))])).
Definition buildEnvelope (req : Request) (body : list Z) (bodyTruncated : bool) : string :=
  marshal_envelope (envelope_of req body bodyTruncated).

(** [parseDecision]. *)
Definition trimPrefixFold (s prefix : string) : option string :=
  if (String.length s <? String.length prefix)%nat then None
  else if EqualFold (stake (String.length prefix) s) prefix then Some (sdrop (String.length prefix) s) else None.
Definition fence : string := "```".
Definition ascii_spaces : string := string_of_bytes [32; 9; 13; 10].
Definition stripCodeFence (s : string) : string :=
  match CutPrefix s fence with
  | None => s
  | Some s =>
    let s := default s (trimPrefixFold s "json") in
    TrimSpace (TrimSuffix (TrimLeft s ascii_spaces) fence)
  end.
Definition store_decision (acc : option Decision) (e : string * json) : option Decision :=
  match acc with
  | None => None
  | Some (mkDecision d r) =>
    match struct_field ["decision"; "reason"] (fst e) with
    | Some "decision" => (fun d' => mkDecision d' r) <$> set_string d (snd e)
    | Some _ => (fun r' => mkDecision d r') <$> set_string r (snd e)
    | None => Some (mkDecision d r)
    end
  end.
Definition decision_of_json (j : json) : option Decision :=
  match j with
  | JNull => Some (mkDecision "" "")
  | JObj _ m => fold_left store_decision m (Some (mkDecision "" ""))
  | _ => None
  end.
Definition decisionAllow : string := "ALLOW".
Definition decisionDeny : string := "DENY".
Inductive decision_error := BadJSON | UnknownDecision (value : string).
Definition parseDecision (raw : string) : result decision_error Decision :=
  match json_parse (stripCodeFence (TrimSpace raw)) ≫= decision_of_json with
  | None => Err BadJSON
  | Some d =>
    let v := ToUpper (TrimSpace (dec_Decision d)) in
    if str_eqb v decisionAllow || str_eqb v decisionDeny then Ok (mkDecision v (dec_Reason d)) else Err (UnknownDecision v)
  end.

(** ** transform.go *)

Inductive fallbackMode := fallbackDeny | fallbackSkip.
Definition parseFallback (s : string) : option fallbackMode :=
  if str_eqb s "" || str_eqb s "deny" then Some fallbackDeny
  else if str_eqb s "skip" then Some fallbackSkip
  else None.
Definition fallbackString (m : fallbackMode) : string := match m with fallbackDeny => "deny" | fallbackSkip => "skip" end.
Definition fallbackDecisionString (m : fallbackMode) : string :=
  match m with fallbackDeny => "FALLBACK_DENY" | fallbackSkip => "FALLBACK_ALLOW" end.

(** The model: its name, and what it answers to a system prompt and an
    envelope. *)
Record Response := mkLlmResponse { lr_RawOutput : string; lr_Model : string; lr_InputTokens : Z; lr_OutputTokens : Z }.
Record Adapter := mkAdapter { ad_Model : string; ad_Complete : string -> string -> result string Response }.

Record judgeConfig := mkJudgeConfig {
  jc_Name : string; jc_Prompt : string; jc_Fallback : string; jc_MaxConcurrent : Z; jc_Timeout : Z;
  jc_CircuitBreaker : breakerConfig; jc_Rules : list RuleConfig }.
Record t := mkJudge {
  j_name : string; j_prompt : string; j_fallback : fallbackMode; j_timeout : Z; j_rules : list Rule; j_adapter : Adapter;
  j_maxConcurrent : Z }.
Inductive judge_error := NameRequired | PromptRequired | RulesRequired | BadFallback (s : string) | BadProvider | BadRules (e : nat * rule_error).

Definition defaultMaxConcurrent : Z := 100.
Definition defaultTimeout : Z := 8 * 1000000000.
Definition newFromConfig (c : judgeConfig) (adapter : Adapter) (rules : list Rule) : result judge_error (t * circuitBreaker) :=
  match parseFallback (jc_Fallback c) with
  | None => Err (BadFallback (jc_Fallback c))
  | Some fb =>
    Ok (mkJudge (jc_Name c) (jc_Prompt c) fb (if jc_Timeout c <=? 0 then defaultTimeout else jc_Timeout c) rules adapter
          (if jc_MaxConcurrent c <=? 0 then defaultMaxConcurrent else jc_MaxConcurrent c),
        newCircuitBreaker (jc_CircuitBreaker c))
  end.
(** [factory]; [newAdapter] reads the provider block. *)
Definition factory (newAdapter : option Adapter) (c : judgeConfig) : result judge_error (t * circuitBreaker) :=
  if is_empty (jc_Name c) then Err NameRequired
  else if is_empty (jc_Prompt c) then Err PromptRequired
  else if (length (jc_Rules c) =? 0)%nat then Err RulesRequired
  else match parseFallback (jc_Fallback c) with
       | None => Err (BadFallback (jc_Fallback c))
       | Some _ =>
         match newAdapter with
         | None => Err BadProvider
         | Some adapter =>
           match CompileRules (jc_Rules c) with
           | Err e => Err (BadRules e)
           | Ok rules => newFromConfig c adapter rules
           end
         end
       end.

Definition applyFallback (j : t) : TransformResult :=
  match j_fallback j with fallbackDeny => reject_result | fallbackSkip => continue_result end.

Definition capRawOutput (s : string) : string := if str_len s <=? 2048 then s else cap_string 2048 s +:+ "...".
Definition capReason (s : string) : string := if str_len s <=? 512 then s else cap_string 512 s.

(** [io.ReadAll] of the first [n] bytes of a buffered body. *)
Definition ReadLimited (n : nat) (b : BufferedBody.t) : BufferedBody.outcome * BufferedBody.t :=
  match BufferedBody.buffer b with
  | None => (BufferedBody.Panics, b)
  | Some (Some e, b') => (BufferedBody.GotErr e, b')
  | Some (None, b') =>
    let out := take n (drop (BufferedBody.pos b') (BufferedBody.data b')) in
    (BufferedBody.GotBytes out,
     BufferedBody.mk (BufferedBody.once b') (BufferedBody.original b') (BufferedBody.data b')
       (BufferedBody.pos b' + length out)%nat (BufferedBody.maxBytes b'))
  end.
(** [readCappedBody]. *)
Definition readCappedBody (b : BufferedBody.t) : result string (list Z * bool) * BufferedBody.t :=
  let '(out, b') := ReadLimited (S (Z.to_nat MaxBodyBytes)) b in
  (match out with
   | BufferedBody.GotBytes data =>
     if MaxBodyBytes <? Z.of_nat (length data) then Ok (take (Z.to_nat MaxBodyBytes) data, true) else Ok (data, false)
   | BufferedBody.GotErr e => Err e
   | BufferedBody.GotEOF | BufferedBody.Panics => Ok ([], false)
   end, b').

(** One run of the transform: the times it asks the breaker and settles its
    permit, whether it got a slot before its context ended, and the duration
    it logs. *)
Record run := mkRun { rn_allow : Z; rn_settle : Z; rn_slot : bool; rn_duration : float64; rn_ctxErr : string }.

Definition emitDuration (rn : run) (tctx : TransformContext) : TransformContext :=
  Annotate tctx "judge.duration_ms" (AFloat (rn_duration rn)).
Definition emitFallback (rn : run) (mode : fallbackMode) (reason : string) (tctx : TransformContext) : TransformContext :=
  emitDuration rn
    (Annotate (Annotate (Annotate tctx "judge.fallback_applied" (AStr (fallbackString mode)))
                        "judge.decision" (AStr (fallbackDecisionString mode)))
              "judge.reason" (AStr (capReason reason))).

(** The error's text, without what the JSON decoder adds. *)
Definition decision_text (e : decision_error) : string :=
  match e with
  | BadJSON => "parsing decision: "
  | UnknownDecision v => "unknown decision value: " +:+ strconv_Quote v
  end.

(** What a run leads to: the result, the context, the request, the breaker,
    and the question put to the model. *)
Record judged {C} := mkJudged {
  jd_result : result string TransformResult; jd_ctx : TransformContext; jd_req : ReqState C;
  jd_breaker : circuitBreaker; jd_asked : option (string * string) }.
Arguments judged : clear implicits.

Definition TransformRequest {C} (template : string) (j : t) (rn : run) (b : circuitBreaker) (tctx : TransformContext) (s : ReqState C)
    : judged C :=
  if negb (MatchAnyRule (j_rules j) (rq s)) then mkJudged C (Ok continue_result) tctx s b None
  else
    let tctx := Annotate (Annotate tctx "judge.instance" (AStr (j_name j))) "judge.model" (AStr (ad_Model (j_adapter j))) in
    match allow (rn_allow rn) b with
    | (None, b) =>
      mkJudged C (Ok (applyFallback j))
        (emitFallback rn (j_fallback j) "circuit breaker open" (Annotate tctx "judge.circuit_breaker_tripped" (ABool true))) s b None
    | (Some probe, b) =>
      let permit success := settle (rn_settle rn) probe success b in
      if negb (rn_slot rn) then mkJudged C (Err (rn_ctxErr rn)) (emitDuration rn tctx) s (permit false) None
      else
        let '(read, body') := readCappedBody (ReqBody (rq s)) in
        let s := with_req s (set_ReqBody (rq s) body') in
        match read with
        | Err e =>
          mkJudged C (Ok (applyFallback j)) (emitFallback rn (j_fallback j) ("reading request body: " +:+ e) tctx) s (permit false) None
        | Ok (body, bodyTruncated) =>
          let question := (buildSystemPrompt template (j_prompt j), buildEnvelope (rq s) body bodyTruncated) in
          match ad_Complete (j_adapter j) question.1 question.2 with
          | Err e =>
            mkJudged C (Ok (applyFallback j)) (emitFallback rn (j_fallback j) ("adapter error: " +:+ e) tctx) s (permit false) (Some question)
          | Ok resp =>
            let tctx := Annotate (Annotate tctx "judge.input_tokens" (AInt (lr_InputTokens resp)))
                                 "judge.output_tokens" (AInt (lr_OutputTokens resp)) in
            let tctx := if is_empty (lr_Model resp) then tctx else Annotate tctx "judge.model" (AStr (lr_Model resp)) in
            match parseDecision (lr_RawOutput resp) with
            | Err e =>
              mkJudged C (Ok (applyFallback j))
                (emitFallback rn (j_fallback j) ("parsing decision: " +:+ decision_text e)
                   (Annotate tctx "judge.raw_output" (AStr (capRawOutput (lr_RawOutput resp))))) s (permit false) (Some question)
            | Ok d =>
              mkJudged C (Ok (if str_eqb (dec_Decision d) decisionDeny then reject_result else continue_result))
                (emitDuration rn (Annotate (Annotate tctx "judge.decision" (AStr (dec_Decision d)))
                                           "judge.reason" (AStr (capReason (dec_Reason d))))) s (permit true) (Some question)
            end
          end
        end
    end.

(** ** The gate *)

(** The model was asked about this request and allowed it. *)
Definition model_allows (template : string) (j : t) (rn : run) (b : circuitBreaker) (req : Request) : Prop :=
  exists probe b' body truncated body' resp d, allow (rn_allow rn) b = (Some probe, b') /\ rn_slot rn = true /\
    readCappedBody (ReqBody req) = (Ok (body, truncated), body') /\
    ad_Complete (j_adapter j) (buildSystemPrompt template (j_prompt j)) (buildEnvelope (set_ReqBody req body') body truncated) = Ok resp /\
    parseDecision (lr_RawOutput resp) = Ok d /\ dec_Decision d = decisionAllow.

Lemma parseDecision_values raw d : parseDecision raw = Ok d -> dec_Decision d = decisionAllow \/ dec_Decision d = decisionDeny.
Proof.
  unfold parseDecision. destruct (_ ≫= _) as [d0|]; [|done]. cbn zeta.
  destruct (str_eqb _ decisionAllow) eqn:Ha; cbn [orb]; [intros [= <-]; left; by apply str_eqb_eq in Ha|].
  destruct (str_eqb _ decisionDeny) eqn:Hd; [|done]. intros [= <-]. right. by apply str_eqb_eq in Hd.
Qed.

(** C12: The judge fails closed.  With the fallback deny a matching request
    continues exactly when the breaker granted a call, a slot was free, the
    body could be read, and the model, asked about this very request,
    answered ALLOW; in every other case it is rejected or the run ends with
    the error of its context.  And every granted call is settled, as a
    success exactly when the model's answer could be read. *)
Theorem judge_fails_closed {C} template j rn b tctx (s : ReqState C) :
  MatchAnyRule (j_rules j) (rq s) = true -> j_fallback j = fallbackDeny ->
  let out := TransformRequest template j rn b tctx s in
  (jd_result out = Ok continue_result <-> model_allows template j rn b (rq s)) /\
  (jd_result out <> Ok continue_result -> jd_result out = Ok reject_result \/ jd_result out = Err (rn_ctxErr rn)) /\
  match allow (rn_allow rn) b with
  | (None, b') => jd_breaker out = b' /\ jd_asked out = None
  | (Some probe, b') => exists success, jd_breaker out = settle (rn_settle rn) probe success b'
  end.
Proof.
  cbn zeta. intros Hm Hf. unfold TransformRequest, model_allows, applyFallback. rewrite Hm, Hf. cbn [negb].
  destruct (allow (rn_allow rn) b) as [[probe|] b'] eqn:Ha.
  2:{ cbn [jd_result jd_breaker jd_asked]. split; [split; [done|]; by intros (? & ? & ? & ? & ? & ? & ? & ? & _)|]. split; [by left|done]. }
  destruct (rn_slot rn) eqn:Hs; cbn [negb].
  2:{ cbn [jd_result jd_breaker jd_asked]. split; [split; [done|]; by intros (? & ? & ? & ? & ? & ? & ? & ? & ? & _)|]. split; [by right|by eexists]. }
  destruct (readCappedBody (ReqBody (rq s))) as [[[body tr]|e] body'] eqn:Hr.
  2:{ cbn [jd_result jd_breaker jd_asked]. split; [split; [done|]; intros (? & ? & ? & ? & ? & ? & ? & ? & ? & Hx & _); congruence|]. split; [by left|by eexists]. }
  cbn [rq with_req fst snd].
  destruct (ad_Complete _ _ _) as [resp|e] eqn:Hc.
  2:{ cbn [jd_result jd_breaker jd_asked]. split; [split; [done|]; intros (? & ? & ? & ? & ? & ? & ? & ? & ? & [= <- <- <-] & Hx & _); congruence|]. split; [by left|by eexists]. }
  destruct (parseDecision (lr_RawOutput resp)) as [d|e] eqn:Hd; cbn [jd_result jd_breaker].
  2:{ split; [split; [done|]; intros (? & ? & ? & ? & ? & ? & ? & ? & ? & [= <- <- <-] & Hx & Hy & _)|]; [congruence|]. split; [by left|by eexists]. }
  destruct (parseDecision_values _ _ Hd) as [Hv|Hv]; rewrite Hv.
  - change (str_eqb decisionAllow decisionDeny) with false. split; [|split; [done|by eexists]]. split; [|done]. intros _.
    by exists probe, b', body, tr, body', resp, d.
  - change (str_eqb decisionDeny decisionDeny) with true. split; [|split; [by left|by eexists]]. split; [done|].
    intros (? & ? & ? & ? & ? & ? & ? & ? & ? & [= <- <- <-] & Hx & Hy & Hz).
    assert (decisionAllow <> decisionDeny) by done. congruence.
Qed.

(** ** What the client can do to the breaker *)

Lemma failing_body {C} template j rn b tctx (s : ReqState C) e body' :
  MatchAnyRule (j_rules j) (rq s) = true -> rn_slot rn = true -> readCappedBody (ReqBody (rq s)) = (Err e, body') ->
  state b = stateClosed -> 
  jd_breaker (TransformRequest template j rn b tctx s) = settle (rn_settle rn) false false b.
Proof.
  intros Hm Hs Hr Hb. unfold TransformRequest. rewrite Hm. cbn [negb]. unfold allow. rewrite Hb, Hs. cbn [negb]. by rewrite Hr.
Qed.

(** The breaker after a sequence of runs on the same unreadable request. *)
Definition after_runs {C} (template : string) (j : t) (tctx : TransformContext) (s : ReqState C) (b : circuitBreaker) (runs : list run) : circuitBreaker :=
  foldl (fun b rn => jd_breaker (TransformRequest template j rn b tctx s)) b runs.

Lemma after_failing_runs {C} template j tctx (s : ReqState C) e body' b runs last :
  MatchAnyRule (j_rules j) (rq s) = true -> Forall (fun rn => rn_slot rn = true) (runs ++ [last]) ->
  readCappedBody (ReqBody (rq s)) = (Err e, body') ->
  state b = stateClosed -> failures b + Z.of_nat (length runs) + 1 = threshold b -> 
  after_runs template j tctx s b (runs ++ [last])
  = mkBreaker (threshold b) (cooldown b) (threshold b) (rn_settle last) stateOpen (halfOpenInUse b).
Proof.
  intros Hm. revert b. induction runs as [|rn runs IH]; intros b [Hs Hsl]%list.Forall_cons Hr Hst Hf.
  - unfold after_runs. cbn. rewrite (failing_body _ _ _ _ _ _ _ _ Hm Hs Hr Hst). unfold settle.
    cbn [length] in Hf. rewrite (proj2 (Z.leb_le _ _)) by lia. f_equal. lia.
  - unfold after_runs in *. cbn [app foldl]. rewrite (failing_body _ _ _ _ _ _ _ _ Hm Hs Hr Hst).
    cbn [length] in Hf. unfold settle. rewrite (proj2 (Z.leb_gt _ _)) by lia.
    rewrite IH; [done | done | done | done |]. cbn [failures threshold]. lia.
Qed.

(** Requests that cannot be read switch the judge off.  A body the client
    breaks off counts as a failure of the model: after as many such requests
    in a row as the breaker's threshold, with the fallback skip, every
    matching request within the cooldown continues without the model being
    asked. *)
Theorem unreadable_bodies_disable_judge {C} template j cfg tctx (bad good : ReqState C) e body' runs last rn tctx' :
  j_fallback j = fallbackSkip ->
  MatchAnyRule (j_rules j) (rq bad) = true -> readCappedBody (ReqBody (rq bad)) = (Err e, body') ->
  Forall (fun rn => rn_slot rn = true) (runs ++ [last]) ->
  Z.of_nat (length runs) + 1 = threshold (newCircuitBreaker cfg) ->
  let b := after_runs template j tctx bad (newCircuitBreaker cfg) (runs ++ [last]) in
  rn_allow rn - rn_settle last < cooldown (newCircuitBreaker cfg) -> MatchAnyRule (j_rules j) (rq good) = true ->
  jd_result (TransformRequest template j rn b tctx' good) = Ok continue_result /\
  jd_asked (TransformRequest template j rn b tctx' good) = None.
Proof.
  cbn zeta. intros Hf Hm Hr Hs Ht Ha Hg.
  rewrite (after_failing_runs _ _ _ _ e body' _ _ _ Hm Hs Hr) by done.
  unfold TransformRequest. rewrite Hg. cbn [negb]. unfold allow. cbn [state openedAt cooldown].
  rewrite (proj2 (Z.ltb_lt _ _)) by lia. cbn. unfold applyFallback. by rewrite Hf.
Qed.

(** ** What the model is shown *)

Definition kv_cost (kv : headerKV) : Z := str_len (kv_Name kv) + str_len (kv_Value kv).
Definition total_cost (l : list headerKV) : Z := foldr (fun kv n => kv_cost kv + n) 0 l.

Lemma total_cost_cons name value l : total_cost (mkKV name value :: l) = str_len name + str_len value + total_cost l.
Proof. done. Qed.
Lemma total_cost_app l1 l2 : total_cost (l1 ++ l2) = total_cost l1 + total_cost l2.
Proof. unfold total_cost. induction l1 as [|kv l1 IH]; cbn [app foldr]; [done|]. rewrite IH. lia. Qed.

Lemma emit_headers_spec used l out used' truncated :
  emit_headers used l = (out, used', truncated) -> used <= MaxHeaderBytes ->
  used' = used + total_cost out /\ used' <= MaxHeaderBytes /\
  exists rest, l = map (fun kv => (kv_Name kv, kv_Value kv)) out ++ rest /\ (truncated = false <-> rest = []).
Proof.
  revert used out used' truncated. induction l as [|[name value] l IH]; intros used out used' truncated; cbn [emit_headers].
  - intros [= <- <- <-] Hu. cbn. split; [lia|]. split; [done|]. by exists [].
  - destruct (MaxHeaderBytes <? _) eqn:Hc; [intros [= <- <- <-] Hu; cbn; split; [lia|]; split; [done|]; by exists ((name, value) :: l)|].
    apply Z.ltb_ge in Hc. destruct (emit_headers (used + _) l) as [[o u] tr] eqn:He. intros [= <- <- <-] Hu.
    destruct (IH _ _ _ _ He Hc) as (-> & Hle & rest & -> & Hrest). rewrite total_cost_cons. split; [lia|]. split; [lia|]. exists rest. done.
Qed.

Lemma collectHeaders_spec h warnings out warnings' :
  collectHeaders h warnings = (out, warnings') ->
  total_cost out <= MaxHeaderBytes /\
  exists rest, (if (size h =? 0)%nat then [] else priority_entries (canonical_map h) ++ remaining_entries (canonical_map h))
               = map (fun kv => (kv_Name kv, kv_Value kv)) out ++ rest /\
    warnings' = warnings ++ if bool_decide (rest = []) then [] else [headers_warning].
Proof.
  unfold collectHeaders. destruct (size h =? 0)%nat; [intros [= <- <-]; split; [done|]; exists []; split; [done|]; by rewrite bool_decide_true, app_nil_r|].
  destruct (emit_headers 0 _) as [[out1 used] tr1] eqn:H1.
  destruct (emit_headers_spec _ _ _ _ _ H1) as (-> & Hle1 & rest1 & Heq1 & Htr1); [done|].
  destruct tr1.
  - intros [= <- <-]. rewrite app_nil_r. split; [done|]. exists (rest1 ++ remaining_entries (canonical_map h)).
    rewrite Heq1, <- app_assoc. split; [done|]. rewrite bool_decide_false; [done|]. intros [-> _]%app_eq_nil. discriminate (proj2 Htr1 eq_refl).
  - destruct (emit_headers _ (remaining_entries _)) as [[out2 used2] tr2] eqn:H2.
    destruct (emit_headers_spec _ _ _ _ _ H2) as (-> & Hle2 & rest2 & Heq2 & Htr2); [done|]. cbn [orb].
    intros [= <- <-]. split; [rewrite total_cost_app; lia|]. exists rest2.
    rewrite Heq1, Heq2, (proj1 Htr1 eq_refl), app_nil_r, map_app, app_assoc. split; [done|].
    destruct tr2; [rewrite bool_decide_false; [done|]; intros ?%Htr2; done|]. rewrite bool_decide_true by (by apply Htr2). by rewrite app_nil_r.
Qed.

(** The headers shown to the model are bounded and ordered.  Their names
    and values take at most the budget; they are a prefix of the sequence
    that has the security-relevant headers first and the others sorted
    behind them; and the envelope warns exactly when something of it was
    left out. *)
Theorem envelope_headers_bounded req body truncated :
  total_cost (env_Headers (envelope_of req body truncated)) <= MaxHeaderBytes /\
  exists rest, (if (size (ReqHeader req) =? 0)%nat then []
                else priority_entries (canonical_map (ReqHeader req)) ++ remaining_entries (canonical_map (ReqHeader req)))
               = map (fun kv => (kv_Name kv, kv_Value kv)) (env_Headers (envelope_of req body truncated)) ++ rest /\
    (rest <> [] -> headers_warning ∈ env_Warnings (envelope_of req body truncated)).
Proof.
  unfold envelope_of. destruct (if str_len _ <=? MaxURLBytes then _ else _) as [url w0].
  destruct (collectHeaders (ReqHeader req) w0) as [hs w1] eqn:Hc. destruct (collectHeaders_spec _ _ _ _ Hc) as (Hle & rest & Heq & ->).
  set (w1 := w0 ++ _). assert (rest <> [] -> headers_warning ∈ w1) as Hin.
  { intros Hr. unfold w1. rewrite bool_decide_false by done. set_solver. }
  destruct (if (length body =? 0)%nat then _ else _) as [text w2] eqn:Ht.
  assert (rest <> [] -> headers_warning ∈ w2) as Hin2.
  { intros Hr. specialize (Hin Hr). destruct (length body =? 0)%nat; [by injection Ht as _ <-|].
    destruct (utf8_Valid body); injection Ht as _ <-; [done|]. apply elem_of_app. by left. }
  destruct (if truncated then _ else _) as [w3 mp] eqn:Hm. cbn [env_Headers env_Warnings]. split; [done|]. exists rest. split; [done|].
  intros Hr. specialize (Hin2 Hr). destruct truncated; simplify_eq; [|done]. apply elem_of_app. by left.
Qed.

(** A character across the cap hides the whole body.  When a text longer
    than the cap has a character that straddles it, the part that was read is
    not valid UTF-8, so the model is shown no body at all. *)
Theorem straddling_rune_hides_body req rs max :
  Forall scalar rs -> MaxBodyBytes < Z.of_nat (length (encode_runes rs)) ->
  (forall k, Z.of_nat (length (encode_runes (take k rs))) <> MaxBodyBytes) ->
  ReqBody req = BufferedBody.NewBufferedBody (Some (mkReader (encode_runes rs) None)) max -> max <= 0 ->
  utf8_Valid (encode_runes rs) = true /\
  exists part body', readCappedBody (ReqBody req) = (Ok (part, true), body') /\
    env_Body (envelope_of (set_ReqBody req body') part true) = "" /\ body_warning ∈ env_Warnings (envelope_of (set_ReqBody req body') part true).
Proof.
  intros Hrs Hlen Hcut Hb Hmax. split.
  { unfold utf8_Valid. rewrite <- (app_nil_r (encode_runes rs)). by rewrite valid_encode_runes. }
  set (cap := Z.to_nat MaxBodyBytes). assert (Z.of_nat cap = MaxBodyBytes) as Hcap by done.
  assert (utf8_Valid (take cap (encode_runes rs)) = false) as Hinv.
  { destruct (Capture.take_encode_runes rs cap) as (k & j & Ht & [(Hk & Hj & Hm)|(_ & _ & Hm)]); [|lia].
    destruct (lookup_lt_is_Some_2 _ _ Hk) as [r Hr]. rewrite Hr in *. cbn [default from_option id] in *.
    assert (scalar r) as Hsr by (eapply Forall_lookup_1; eauto).
    unfold utf8_Valid. rewrite Ht, valid_encode_runes by (by apply Forall_take). apply partial_invalid; [done|].
    specialize (Hcut k). lia. }
  assert (exists body', readCappedBody (ReqBody req) = (Ok (take cap (encode_runes rs), true), body')) as [body' Hread].
  { rewrite Hb. unfold readCappedBody, ReadLimited, BufferedBody.buffer, BufferedBody.NewBufferedBody. cbn -[Z.to_nat take MaxBodyBytes].
    rewrite (proj2 (Z.ltb_ge 0 max)) by lia. cbn -[Z.to_nat take MaxBodyBytes].
    rewrite drop_0, length_take. fold cap. rewrite (proj2 (Z.ltb_lt _ _)) by lia. rewrite take_take, Nat.min_l by lia. by eexists. }
  exists (take cap (encode_runes rs)), body'. split; [done|]. unfold envelope_of.
  assert (length (take cap (encode_runes rs)) <> 0)%nat as Hne by (rewrite length_take; unfold MaxBodyBytes in *; lia).
  destruct (if str_len _ <=? MaxURLBytes then _ else _) as [url w0]. destruct (collectHeaders _ w0) as [hs w1].
  rewrite (proj2 (Nat.eqb_neq _ _) Hne), Hinv. cbn [env_Body env_Warnings]. split; [done|]. set_solver.
Qed.
End prompt.

(** ** Examples *)

Section examples.
#[local] Existing Instance ascii_tables.
#[local] Existing Instance default_range.

Definition long_value : string := string_of_bytes (repeat 120 600).
Definition inflated_headers : Header :=
  {["Origin" := [long_value]; "Referer" := [long_value]; "X-Forwarded-For" := [long_value]; "X-Forwarded-Host" := [long_value];
    "Content-Type" := [long_value]; "Content-Length" := [long_value]; "Content-Encoding" := [long_value];
    "Transfer-Encoding" := [long_value]; "Authorization" := ["Bearer token"]]}.

(** Long headers can hide the credentials from the model.  The headers
    that are shown first can themselves use up the budget: with eight of
    them long, Authorization is not shown. *)
Theorem inflated_headers_hide_credentials :
  header_Get inflated_headers "Authorization" = "Bearer token" /\
  existsb (fun kv => str_eqb (kv_Name kv) "Authorization") (collectHeaders inflated_headers []).1 = false /\
  (collectHeaders inflated_headers []).2 = [headers_warning].
Proof. vm_compute. repeat split; reflexivity. Qed.

Definition answer_allow : string := json_object [("decision", json_string "allow"); ("reason", json_string "ok")].
Definition example_adapter (out : string) : Adapter := mkAdapter "m" (fun _ _ => Ok (mkLlmResponse out "" 1 1)).
Definition example_judge (fb : fallbackMode) : t :=
  mkJudge "j" "only reads" fb 0 (match CompileRules [mkRuleConfig "api.test" "" [] [] []] with Ok r => r | Err _ => [] end)
    (example_adapter answer_allow) 1.
Definition example_run_at (t : Z) : run := mkRun t t true (float64_of_Z 0) "".
Definition state_with (b : BufferedBody.t) : ReqState unit :=
  mkReqState (mkRequest "GET" "api.test" (mkURL "" None "" "/" "" "") ∅ b 0 false) ().
Definition example_breaker : circuitBreaker := newCircuitBreaker (mkBreakerConfig 2 100).

Lemma judge_fails_closed_witness :
  jd_result (TransformRequest "%s" (example_judge fallbackDeny) (example_run_at 0) example_breaker plain_context
               (state_with (BufferedBody.NewBufferedBodyFromBytes []))) = Ok continue_result /\
  model_allows "%s" (example_judge fallbackDeny) (example_run_at 0) example_breaker (rq (state_with (BufferedBody.NewBufferedBodyFromBytes []))).
Proof.
  assert (jd_result (TransformRequest "%s" (example_judge fallbackDeny) (example_run_at 0) example_breaker plain_context
               (state_with (BufferedBody.NewBufferedBodyFromBytes []))) = Ok continue_result) as Hr by (vm_compute; reflexivity).
  split; [exact Hr|].
  apply (judge_fails_closed "%s" (example_judge fallbackDeny) (example_run_at 0) example_breaker plain_context
           (state_with (BufferedBody.NewBufferedBodyFromBytes []))); [vm_compute; reflexivity | reflexivity | exact Hr].
Defined.

Lemma unreadable_bodies_disable_judge_witness :
  let bad := state_with (BufferedBody.NewBufferedBody (Some (mkReader [] (Some "cut"))) 0) in
  let good := state_with (BufferedBody.NewBufferedBodyFromBytes []) in
  let b := after_runs "%s" (example_judge fallbackSkip) plain_context bad example_breaker [example_run_at 0; example_run_at 1] in
  jd_asked (TransformRequest "%s" (example_judge fallbackSkip) (example_run_at 2) b plain_context good) = None.
Proof.
  intros bad good b.
  destruct (readCappedBody (ReqBody (rq bad))) as [r body'] eqn:Hr.
  assert (r = Err "cut") as -> by (vm_compute in Hr; congruence).
  apply (unreadable_bodies_disable_judge "%s" (example_judge fallbackSkip) (mkBreakerConfig 2 100) plain_context bad good "cut" body'
           [example_run_at 0] (example_run_at 1) (example_run_at 2) plain_context);
    [reflexivity | vm_compute; reflexivity | exact Hr | by repeat constructor | reflexivity | reflexivity | vm_compute; reflexivity].
Defined.

Lemma encode_ascii_length n : length (encode_runes (repeat 97 n)) = n.
Proof. induction n as [|n IH]; [done|]. cbn [repeat]. change (encode_runes (97 :: repeat 97 n)) with (EncodeRune 97 ++ encode_runes (repeat 97 n)). rewrite length_app, IH. done. Qed.
Lemma take_repeat {A} (x : A) n k : take k (repeat x n) = repeat x (Nat.min k n).
Proof. revert k. induction n as [|n IH]; intros [|k]; cbn; [done..|]. by rewrite IH. Qed.

Definition one_short : nat := Z.to_nat 16383.
Lemma straddling_rune_hides_body_witness :
  exists part body', readCappedBody (BufferedBody.NewBufferedBody (Some (mkReader (encode_runes (repeat 97 one_short ++ [0x20AC])) None)) 0)
    = (Ok (part, true), body') /\
    env_Body (envelope_of (set_ReqBody (rq (state_with (BufferedBody.NewBufferedBodyFromBytes []))) body') part true) = "".
Proof.
  set (req := rq (state_with (BufferedBody.NewBufferedBody (Some (mkReader (encode_runes (repeat 97 one_short ++ [0x20AC])) None)) 0))).
  destruct (straddling_rune_hides_body req (repeat 97 one_short ++ [0x20AC]) 0) as (_ & part & body' & Hr & He & _).
  - apply Forall_app. split; [|repeat constructor; cbn; unfold MaxRune; lia].
    apply list.Forall_forall. intros x Hx. apply list_elem_of_In, repeat_spec in Hx as ->. repeat split; unfold MaxRune; lia.
  - rewrite Capture.encode_runes_app, length_app, encode_ascii_length. change (length (encode_runes [8364])) with 3%nat.
    unfold MaxBodyBytes, one_short. lia.
  - intros k. destruct (decide (k <= one_short)%nat) as [Hk|Hk].
    + rewrite take_app_le by (rewrite repeat_length; exact Hk). rewrite take_repeat, encode_ascii_length. unfold MaxBodyBytes, one_short in *. lia.
    + rewrite take_ge by (rewrite length_app, repeat_length; cbn; lia). rewrite Capture.encode_runes_app, length_app, encode_ascii_length.
      change (length (encode_runes [8364])) with 3%nat. unfold MaxBodyBytes, one_short. lia.
  - reflexivity.
  - lia.
  - exists part, body'. split; [exact Hr | exact He].
Defined.
End examples.
End Judge.
