(* ===== verification/LlmClients.v ===== *)
(** * The model clients of the judge (src/internal/transform/judge/llm)

    The two HTTP adapters that put the judge's question to a language model:
    their construction, the request each sends, and how an answer is read.
    The HTTP exchange is a parameter.  The question arrives intact: what is
    inside a request cannot leave its place in the JSON the model is shown. *)
From stdpp Require Import base gmap strings list option.
From Stdlib Require Import ZArith Lia Ascii.
From S2P Require Import Prelude GoUtf8 GoStrings GoNet Body GoHttp GoJson HostMatch Transform GoJsonParse McpRpc Utf8Codec GoJsonRoundtrip GoUrl JudgeBreaker Judge.
Local Open Scope string_scope.
Local Open Scope list_scope.
Local Open Scope Z_scope.

Module Llm.
Import Judge.

(** ** transport.go *)

Definition defaultMaxTokens : Z := 256.

Inductive llm_error :=
  | ModelRequired (provider : string) | KeyEnvRequired (provider : string) | KeyEnvEmpty (provider envVar : string)
  | TypeRequired | UnknownProvider (providerType : string).

Definition resolveAPIKey (Getenv : string -> string) (provider envVar : string) : result llm_error string :=
  if is_empty envVar then Err (KeyEnvRequired provider)
  else
    let v := Getenv envVar in
    if is_empty v then Err (KeyEnvEmpty provider envVar) else Ok v.

Definition truncateForError (b : string) : string := if (String.length b <=? 512)%nat then b else stake 512 b +:+ "...".

(** ** anthropic.go and openai.go: construction *)

Definition defaultAnthropicBaseURL : string := "https://api.anthropic.com".
Definition anthropicVersion : string := "2023-06-01".
Definition defaultOpenAIBaseURL : string := "https://api.openai.com".

Record providerConfig := mkProviderConfig { pc_Model : string; pc_APIKeyEnv : string; pc_BaseURL : string; pc_MaxTokens : Z }.
Record client := mkClient { cl_model : string; cl_apiKey : string; cl_baseURL : string; cl_maxTokens : Z }.

Definition new_client (Getenv : string -> string) (provider defaultBase : string) (c : providerConfig) : result llm_error client :=
  if is_empty (pc_Model c) then Err (ModelRequired provider)
  else
    let* apiKey := resolveAPIKey Getenv provider (pc_APIKeyEnv c) in
    let baseURL := TrimRight (if is_empty (pc_BaseURL c) then defaultBase else pc_BaseURL c) "/" in
    Ok (mkClient (pc_Model c) apiKey baseURL (if pc_MaxTokens c <=? 0 then defaultMaxTokens else pc_MaxTokens c)).
Definition newAnthropic (Getenv : string -> string) (c : providerConfig) : result llm_error client := new_client Getenv "anthropic" defaultAnthropicBaseURL c.
Definition newOpenAI (Getenv : string -> string) (c : providerConfig) : result llm_error client := new_client Getenv "openai" defaultOpenAIBaseURL c.

(** ** The requests *)

Record llm_request := mkLlmRequest { lq_URL : string; lq_Header : Header; lq_Body : string }.

Definition message (role content : string) : string := json_object [("role", json_string role); ("content", json_string content)].

Definition anthropic_body (a : client) (system user : string) (maxTokens : Z) : string :=
  json_object [("model", json_string (cl_model a)); ("max_tokens", Itoa maxTokens); ("system", json_string system);
               ("messages", json_array [message "user" user])].
Definition anthropic_request (a : client) (system user : string) (maxTokens : Z) : llm_request :=
  mkLlmRequest (cl_baseURL a +:+ "/v1/messages")
    (header_Set (header_Set (header_Set ∅ "Content-Type" "application/json") "x-api-key" (cl_apiKey a)) "anthropic-version" anthropicVersion)
    (anthropic_body a system user maxTokens).

Definition openai_body (a : client) (system user : string) (maxTokens : Z) : string :=
  json_object [("model", json_string (cl_model a)); ("max_completion_tokens", Itoa maxTokens);
               ("messages", json_array [message "system" system; message "user" user])].
Definition openai_request (a : client) (system user : string) (maxTokens : Z) : llm_request :=
  mkLlmRequest (cl_baseURL a +:+ "/v1/chat/completions")
    (header_Set (header_Set ∅ "Content-Type" "application/json") "Authorization" ("Bearer " +:+ cl_apiKey a))
    (openai_body a system user maxTokens).

(** ** The answers *)

Section decode.
Context `{UnicodeTables}.

Definition set_struct {A} (store : option A -> string * json -> option A) (old : A) (j : json) : option A :=
  match j with JNull => Some old | JObj _ m => fold_left store m (Some old) | _ => None end.
(** A slice is decoded into the elements it already has. *)
Fixpoint set_elems {A} (elem : A -> json -> option A) (zero : A) (old : list A) (l : list json) : option (list A) :=
  match l with
  | [] => Some []
  | j :: l => match elem (default zero (head old)) j, set_elems elem zero (tail old) l with Some a, Some rest => Some (a :: rest) | _, _ => None end
  end.
Definition set_slice {A} (elem : A -> json -> option A) (zero : A) (old : list A) (j : json) : option (list A) :=
  match j with JNull => Some [] | JArr _ l => set_elems elem zero old l | _ => None end.

(** Two string members, two integer members. *)
Definition store_strings (k1 k2 : string) (acc : option (string * string)) (e : string * json) : option (string * string) :=
  match acc with
  | None => None
  | Some (a, b) =>
    match struct_field [k1; k2] (fst e) with
    | None => Some (a, b)
    | Some f => if str_eqb f k1 then (fun x => (x, b)) <$> set_string a (snd e) else (fun x => (a, x)) <$> set_string b (snd e)
    end
  end.
Definition store_usage (k1 k2 : string) (acc : option (Z * Z)) (e : string * json) : option (Z * Z) :=
  match acc with
  | None => None
  | Some (a, b) =>
    match struct_field [k1; k2] (fst e) with
    | None => Some (a, b)
    | Some f => if str_eqb f k1 then (fun x => (x, b)) <$> set_int a (snd e) else (fun x => (a, x)) <$> set_int b (snd e)
    end
  end.

Record anthropicResponse := mkAnthropic { an_Content : list (string * string); an_Model : string; an_Usage : Z * Z }.
Definition store_anthropic (acc : option anthropicResponse) (e : string * json) : option anthropicResponse :=
  match acc with
  | None => None
  | Some (mkAnthropic c m u) =>
    match struct_field ["content"; "model"; "usage"] (fst e) with
    | None => Some (mkAnthropic c m u)
    | Some "content" => (fun x => mkAnthropic x m u) <$> set_slice (set_struct (store_strings "type" "text")) ("", "") c (snd e)
    | Some "model" => (fun x => mkAnthropic c x u) <$> set_string m (snd e)
    | Some _ => (fun x => mkAnthropic c m x) <$> set_struct (store_usage "input_tokens" "output_tokens") u (snd e)
    end
  end.
Definition Unmarshal_anthropic (body : string) : option anthropicResponse :=
  json_parse body ≫= set_struct store_anthropic (mkAnthropic [] "" (0, 0)).

(** A choice is its message: role and content. *)
Definition store_choice (acc : option (string * string)) (e : string * json) : option (string * string) :=
  match acc with
  | None => None
  | Some msg => match struct_field ["message"] (fst e) with None => Some msg | Some _ => set_struct (store_strings "role" "content") msg (snd e) end
  end.
Record openaiResponse := mkOpenai { oa_Model : string; oa_Choices : list (string * string); oa_Usage : Z * Z }.
Definition store_openai (acc : option openaiResponse) (e : string * json) : option openaiResponse :=
  match acc with
  | None => None
  | Some (mkOpenai m c u) =>
    match struct_field ["model"; "choices"; "usage"] (fst e) with
    | None => Some (mkOpenai m c u)
    | Some "model" => (fun x => mkOpenai x c u) <$> set_string m (snd e)
    | Some "choices" => (fun x => mkOpenai m x u) <$> set_slice (set_struct store_choice) ("", "") c (snd e)
    | Some _ => (fun x => mkOpenai m c x) <$> set_struct (store_usage "prompt_tokens" "completion_tokens") u (snd e)
    end
  end.
Definition Unmarshal_openai (body : string) : option openaiResponse :=
  json_parse body ≫= set_struct store_openai (mkOpenai "" [] (0, 0)).

Definition or_model (m d : string) : string := if is_empty m then d else m.
Definition anthropic_text (blocks : list (string * string)) : string :=
  Join (map snd (List.filter (fun b => str_eqb (fst b) "text") blocks)) "".
Definition anthropic_answer (a : client) (body : string) : result string Judge.Response :=
  match Unmarshal_anthropic body with
  | None => Err "unmarshaling anthropic response"
  | Some r => Ok (mkLlmResponse (anthropic_text (an_Content r)) (or_model (an_Model r) (cl_model a)) (fst (an_Usage r)) (snd (an_Usage r)))
  end.
Definition openai_answer (a : client) (body : string) : result string Judge.Response :=
  match Unmarshal_openai body with
  | None => Err "unmarshaling openai response"
  | Some r =>
    match oa_Choices r with
    | [] => Err "openai response contained no choices"
    | (_, content) :: _ => Ok (mkLlmResponse content (or_model (oa_Model r) (cl_model a)) (fst (oa_Usage r)) (snd (oa_Usage r)))
    end
  end.

(** ** Complete *)

(** The exchange: a status with a body that may break off, or an error. *)
Variable Do : llm_request -> result string (Z * result string string).

Definition complete (provider : string) (a : client) (q : llm_request) (answer : client -> string -> result string Judge.Response) : result string Judge.Response :=
  if negb (bool_decide (is_Some (url_Parse (lq_URL q)))) then Err ("building " +:+ provider +:+ " request") else
  match Do q with
  | Err e => Err ("calling " +:+ provider +:+ ": " +:+ e)
  | Ok (_, Err e) => Err ("reading " +:+ provider +:+ " response: " +:+ e)
  | Ok (status, Ok body) =>
    if (status <? 200) || (300 <=? status) then Err (provider +:+ " returned " +:+ Itoa status +:+ ": " +:+ truncateForError body)
    else answer a body
  end.
Definition max_tokens (a : client) (asked : Z) : Z := if asked <=? 0 then cl_maxTokens a else asked.
Definition anthropic_Complete (a : client) (asked : Z) (system user : string) : result string Judge.Response :=
  complete "anthropic" a (anthropic_request a system user (max_tokens a asked)) anthropic_answer.
Definition openai_Complete (a : client) (asked : Z) (system user : string) : result string Judge.Response :=
  complete "openai" a (openai_request a system user (max_tokens a asked)) openai_answer.

(** [NewAdapter]; the judge leaves the token limit to the adapter. *)
Definition NewAdapter (Getenv : string -> string) (providerType : string) (c : providerConfig) : result llm_error Adapter :=
  if str_eqb providerType "anthropic" then
    let* a := newAnthropic Getenv c in Ok (mkAdapter (cl_model a) (anthropic_Complete a 0))
  else if str_eqb providerType "openai" then
    let* a := newOpenAI Getenv c in Ok (mkAdapter (cl_model a) (openai_Complete a 0))
  else if is_empty providerType then Err TypeRequired
  else Err (UnknownProvider providerType).

(** An adapter answers only what the provider answered with success. *)
Theorem complete_sound provider a q answer r : complete provider a q answer = Ok r ->
  exists status body, Do q = Ok (status, Ok body) /\ 200 <= status < 300 /\ answer a body = Ok r.
Proof.
  unfold complete. destruct (negb _); [done|]. destruct (Do q) as [[status [body|e]]|e]; try done.
  destruct ((status <? 200) || _) eqn:E; [done|]. apply orb_false_iff in E as [E1%Z.ltb_ge E2%Z.leb_gt]. intros Ha. exists status, body. by split_and!.
Qed.
End decode.

(** ** The question arrives intact *)

(** What an envelope means, [f] being applied to its texts. *)
Definition header_value (f : string -> string) (kv : headerKV) : jval := VObj [("name", VStr (f (kv_Name kv))); ("value", VStr (f (kv_Value kv)))].
Definition envelope_value (f : string -> string) (e : requestEnvelope) : jval :=
  VObj ([("method", VStr (f (env_Method e))); ("url", VStr (f (env_URL e))); ("host", VStr (f (env_Host e)));
         ("headers", match env_Headers e with [] => VNull | l => VArr (map (header_value f) l) end)]
        ++ (if is_empty (env_Body e) then [] else [("body", VStr (f (env_Body e)))])
        ++ (match env_Warnings e with [] => [] | l => [("warnings", VArr (map (VStr ∘ f) l))] end)
        ++ (if is_empty (env_MultipartSummary e) then [] else [("multipart_summary", VStr (f (env_MultipartSummary e)))])).
(** Its texts. *)
Definition envelope_texts (e : requestEnvelope) : list string :=
  [env_Method e; env_URL e; env_Host e] ++ flat_map (fun kv => [kv_Name kv; kv_Value kv]) (env_Headers e) ++ [env_Body e] ++ env_Warnings e ++ [env_MultipartSummary e].
(** In valid UTF-8 they mean what they are. *)
Lemma envelope_value_utf8 e : Forall utf8_text (envelope_texts e) -> envelope_value sanitize e = envelope_value (fun s => s) e.
Proof.
  unfold envelope_texts. rewrite !list.Forall_app. intros (Ht & Hh & Hb & Hw & Hm). rewrite !list.Forall_cons in Ht. destruct Ht as (H1 & H2 & H3 & _).
  rewrite list.Forall_singleton in Hb, Hm. unfold envelope_value. rewrite !sanitize_utf8 by done.
  assert (map (header_value sanitize) (env_Headers e) = map (header_value (fun s => s)) (env_Headers e)) as Eh.
  { induction (env_Headers e) as [|kv l IH]; [done|]. cbn in Hh |- *. rewrite !list.Forall_cons in Hh. destruct Hh as (Hn & Hv & Hl). rewrite (IH Hl). f_equal. unfold header_value. by rewrite (sanitize_utf8 _ Hn), (sanitize_utf8 _ Hv). }
  assert (map (VStr ∘ sanitize) (env_Warnings e) = map (VStr ∘ (fun s => s)) (env_Warnings e)) as Ew.
  { induction Hw as [|x l Hx _ IH]; [done|]. cbn. by rewrite sanitize_utf8, IH. }
  destruct (env_Headers e), (env_Warnings e); by rewrite ?Eh, ?Ew.
Qed.

(** The entries of an object with their values; keys of ASCII. *)
Lemma reads_entries d text l v : Forall (fun e => reads d (snd (fst e)) (snd e)) l -> 0 <= d ->
  text = json_object (map fst l) -> v = VObj (map (fun e => (sanitize (fst (fst e)), snd e)) l) -> reads (d + 1) text v.
Proof. intros Hl Hd -> ->. by apply reads_object. Qed.

Lemma reads_kv kv : reads 1 (marshal_kv kv) (header_value sanitize kv).
Proof.
  apply (reads_entries 0 _ [(("name", json_string (kv_Name kv)), VStr (sanitize (kv_Name kv))); (("value", json_string (kv_Value kv)), VStr (sanitize (kv_Value kv)))]);
    [repeat constructor; apply reads_string | lia | done | done].
Qed.

Lemma reads_map {A} d (f : A -> string) (g : A -> jval) l : (forall x, reads d (f x) (g x)) -> 0 <= d -> reads (d + 1) (json_array (map f l)) (VArr (map g l)).
Proof.
  intros Hfg Hd. replace (map f l) with (map fst (map (fun x => (f x, g x)) l)) by (by rewrite map_map).
  replace (map g l) with (map snd (map (fun x => (f x, g x)) l)) by (by rewrite map_map).
  apply reads_array; [|done]. apply list.Forall_fmap, list.Forall_true. intros x. apply Hfg.
Qed.

Lemma reads_headers l : reads 2 (match l with [] => "null" | l => json_array (map marshal_kv l) end) (match l with [] => VNull | l => VArr (map (header_value sanitize) l) end).
Proof. destruct l as [|kv l]; [eapply reads_weaken; [apply reads_null | lia] | apply (reads_map 1); [apply reads_kv | lia]]. Qed.

Lemma reads_envelope e : reads 3 (marshal_envelope e) (envelope_value sanitize e).
Proof.
  pose proof (fun s => reads_weaken 0 2 _ _ (reads_string s) ltac:(lia)) as Hstr.
  apply (reads_entries 2 _
    ([(("method", json_string (env_Method e)), VStr (sanitize (env_Method e))); (("url", json_string (env_URL e)), VStr (sanitize (env_URL e)));
      (("host", json_string (env_Host e)), VStr (sanitize (env_Host e)));
      (("headers", match env_Headers e with [] => "null" | l => json_array (map marshal_kv l) end), match env_Headers e with [] => VNull | l => VArr (map (header_value sanitize) l) end)]
     ++ (if is_empty (env_Body e) then [] else [(("body", json_string (env_Body e)), VStr (sanitize (env_Body e)))])
     ++ (match env_Warnings e with [] => [] | l => [(("warnings", json_array (map json_string l)), VArr (map (VStr ∘ sanitize) l))] end)
     ++ (if is_empty (env_MultipartSummary e) then [] else [(("multipart_summary", json_string (env_MultipartSummary e)), VStr (sanitize (env_MultipartSummary e)))]))).
  - repeat (apply list.Forall_app; split).
    + do 3 (apply list.Forall_cons; split; [apply Hstr|]). apply list.Forall_singleton. pose proof (reads_headers (env_Headers e)) as Hh. cbn. by destruct (env_Headers e).
    + destruct (is_empty _); [constructor | apply list.Forall_singleton, Hstr].
    + destruct (env_Warnings e) as [|w l]; [constructor|]. apply list.Forall_singleton, (reads_weaken 1); [|lia]. apply (reads_map 0); [|lia].
      intros x. apply reads_string.
    + destruct (is_empty _); [constructor | apply list.Forall_singleton, Hstr].
  - lia.
  - unfold marshal_envelope. rewrite !map_app. by destruct (is_empty (env_Body e)), (env_Warnings e), (is_empty (env_MultipartSummary e)).
  - unfold envelope_value. rewrite !map_app. by destruct (is_empty (env_Body e)), (env_Warnings e), (is_empty (env_MultipartSummary e)).
Qed.

Lemma utf8_envelope e : utf8_text (marshal_envelope e).
Proof.
  apply utf8_json_object. repeat (apply list.Forall_app; split).
  - do 3 (apply list.Forall_cons; split; [apply utf8_json_string|]). apply list.Forall_singleton. cbn [snd].
    destruct (env_Headers e) as [|kv l]; [by apply utf8_text_ascii|]. apply utf8_json_array, list.Forall_fmap, list.Forall_true.
    intros x. apply utf8_json_object. repeat (apply list.Forall_cons; split; [apply utf8_json_string|]). constructor.
  - destruct (is_empty _); [constructor | apply list.Forall_singleton, utf8_json_string].
  - destruct (env_Warnings e) as [|w l]; [constructor|]. apply list.Forall_singleton, utf8_json_array, list.Forall_fmap, list.Forall_true.
    intros x. apply utf8_json_string.
  - destruct (is_empty _); [constructor | apply list.Forall_singleton, utf8_json_string].
Qed.

Definition message_value (role content : string) : jval := VObj [("role", VStr role); ("content", VStr content)].
Lemma reads_message role content : sanitize role = role -> reads 1 (message role content) (message_value role (sanitize content)).
Proof.
  intros Hr. apply (reads_entries 0 _ [(("role", json_string role), VStr role); (("content", json_string content), VStr (sanitize content))]);
    [|lia|done|done]. repeat (apply list.Forall_cons; split); [| apply reads_string | constructor]. cbn. rewrite <- Hr at 2. apply reads_string.
Qed.

Definition question_value (openai : bool) (a : client) (system user : string) (maxTokens : Z) : jval :=
  if openai then
    VObj [("model", VStr (sanitize (cl_model a))); ("max_completion_tokens", VNum (Itoa maxTokens));
          ("messages", VArr [message_value "system" (sanitize system); message_value "user" user])]
  else
    VObj [("model", VStr (sanitize (cl_model a))); ("max_tokens", VNum (Itoa maxTokens)); ("system", VStr (sanitize system));
          ("messages", VArr [message_value "user" user])].
Definition question_body (openai : bool) (a : client) (system user : string) (maxTokens : Z) : string :=
  if openai then openai_body a system user maxTokens else anthropic_body a system user maxTokens.

Lemma reads_question openai a system user maxTokens : 0 <= maxTokens -> utf8_text user ->
  reads 3 (question_body openai a system user maxTokens) (question_value openai a system user maxTokens).
Proof.
  intros Hn Hu. pose proof (fun s => reads_weaken 0 2 _ _ (reads_string s) ltac:(lia)) as Hstr.
  pose proof (reads_weaken 0 2 _ _ (reads_Itoa maxTokens Hn) ltac:(lia)) as Hnum.
  pose proof (reads_message "user" user eq_refl) as Hmsg. rewrite (sanitize_utf8 user Hu) in Hmsg.
  destruct openai.
  - apply (reads_entries 2 _ [(("model", json_string (cl_model a)), VStr (sanitize (cl_model a))); (("max_completion_tokens", Itoa maxTokens), VNum (Itoa maxTokens));
      (("messages", json_array [message "system" system; message "user" user]), VArr [message_value "system" (sanitize system); message_value "user" user])]); [|lia|done|done].
    repeat (apply list.Forall_cons; split); [apply Hstr | exact Hnum | | constructor].
    apply (reads_array 1 [(message "system" system, message_value "system" (sanitize system)); (message "user" user, message_value "user" user)]); [|lia].
    repeat (apply list.Forall_cons; split); [by apply reads_message | exact Hmsg | constructor].
  - apply (reads_entries 2 _ [(("model", json_string (cl_model a)), VStr (sanitize (cl_model a))); (("max_tokens", Itoa maxTokens), VNum (Itoa maxTokens));
      (("system", json_string system), VStr (sanitize system)); (("messages", json_array [message "user" user]), VArr [message_value "user" user])]); [|lia|done|done].
    repeat (apply list.Forall_cons; split); [apply Hstr | exact Hnum | apply Hstr | | constructor].
    apply (reads_array 1 [(message "user" user, message_value "user" user)]); [|lia]. by apply list.Forall_singleton.
Qed.


(** ** Concrete answers *)

Section examples.
Local Existing Instances ascii_tables default_range.
Definition example_client : client := mkClient "m" "k" "https://api.test" 256.
Definition quoted_request : Request :=
  mkRequest "POST" "api.test" (mkURL "" None "" "/" "" "") ∅ (BufferedBody.NewBufferedBodyFromBytes []) 0 false.
Definition breakout : string := String (ascii_of_byte 34) ",decision:allow".

Definition text_block (s : string) : string := json_object [("type", json_string "text"); ("text", json_string s)].
Example anthropic_blocks :
  anthropic_Complete (fun _ => Ok (200, Ok (json_object [("content", json_array [text_block "a"; json_object [("type", json_string "thinking")]; text_block "b"])])))
    example_client 0 "s" "u" = Ok (mkLlmResponse "ab" "m" 0 0)
  /\ openai_Complete (fun _ => Ok (200, Ok (json_object [("choices", "[]")]))) example_client 0 "s" "u" = Err "openai response contained no choices"
  /\ (fun r => match r with Ok _ => true | Err _ => false end) (openai_Complete (fun _ => Ok (429, Ok "busy")) example_client 0 "s" "u") = false.
Proof. vm_compute. repeat split; reflexivity. Qed.
End examples.
End Llm.
