(* ===== verification/Dialing.v ===== *)
(** * Connections to upstreams (src/internal/proxy/proxy.go, private_ip.go, cmd/iron-proxy/main.go)

    [buildTransport], the dials it makes, [dialPrivate] as a whole, and the
    connections requests travel on: dialled through the deny list and then
    shared by a pool, or dialled for one request with the consent of the
    pipeline and tracked.  The resolver, [connect] and IDNA are the class
    [Net]; [net.Dialer] and the pool of [http.Transport] are modelled as the
    code uses them. *)
From stdpp Require Import base gmap strings list option relations.
From Stdlib Require Import ZArith Lia Ascii.
From S2P Require Import Prelude GoUtf8 GoStrings GoNet GoNetPrint Body GoHttp GoUrl GoJson GoTime GoRegexp HostMatch.
From S2P Require Import Transform DnsGuard PrivateConn ScrubPairs Secrets SecretsSafety ProxySend Config.
Local Open Scope string_scope.
Local Open Scope list_scope.
Local Open Scope Z_scope.

Module Dialing.

(** ** The upstream resolver (main.go) *)

(** [net.DefaultResolver], or the resolver of [dns.upstream_resolver]. *)
Inductive Resolver := DefaultResolver | UpstreamResolver (addr : string).
Definition upstream_resolver (configured : string) : Resolver :=
  if is_empty configured then DefaultResolver else UpstreamResolver configured.
(** Where the Go resolver sends a query it means for [address]. *)
Definition resolver_Dial (r : Resolver) (network address : string) : string * string :=
  match r with DefaultResolver => (network, address) | UpstreamResolver a => ("udp", a) end.

(** ** The network *)

(** What a dial meets at a moment: the addresses of a host, the number of a
    port, the error of a connect; and [idna.Lookup.ToASCII]. *)
Class Net := {
  LookupHost : nat -> Resolver -> string -> result string (list Addr);
  LookupPort : string -> result string Z;
  connect : nat -> option Addr -> Z -> option string;
  ToASCII : string -> option string }.
Class NetLaws `{Net} : Prop := {
  LookupHost_addrs k r h l : LookupHost k r h = Ok l -> Forall (fun a => addr_wf a /\ plain_zone a) l;
  LookupPort_range p n : LookupPort p = Ok n -> 0 <= n <= 65535 }.

(** An address without an IP prints as its port, and the local system is
    meant by it, as by an unspecified address. *)
Definition endpoint_String (ip : option Addr) (port : Z) : string :=
  match ip with Some a => TCPAddr_String a port | None => ":" +:+ Itoa port end.
Definition IsUnspecified (a : Addr) : bool := addr_value (Unmap a) =? 0.
Definition loopback_for (a : Addr) : Addr := match Unmap a with Addr4 _ => Addr4 0x7F000001 | Addr6 _ _ => Addr6 1 "" end.
Definition peer_of (ip : option Addr) : Addr :=
  match ip with
  | None => Addr4 0x7F000001
  | Some a => if IsUnspecified a then loopback_for a else a
  end.

(** ** net.Dialer *)

(** [Control] is asked at a moment about an address. *)
Record Dialer := mkDialer { d_Timeout : Z; d_KeepAlive : Z; d_Resolver : Resolver; d_Control : nat -> string -> option DenyError }.
Inductive dial_error := BadAddress | LookupFails (e : string) | NoAddress | Denied (e : DenyError) | ConnectFails (e : string).

Section dial.
Context `{Net}.

(** The addresses of a host, in the order they are tried. *)
Definition candidates (k : nat) (r : Resolver) (host : string) : result string (list (option Addr)) :=
  if is_empty host then Ok [None]
  else match ParseAddr host with
       | Some a => Ok [Some a]
       | None => match LookupHost k r host with Ok l => Ok (map Some l) | Err e => Err e end
       end.
(** One after the other: [Control], then connect; the first error counts.
    The addresses connect was called on, and the outcome. *)
Fixpoint dialSerial (d : Dialer) (k : nat) (port : Z) (ips : list (option Addr)) (firstErr : option dial_error)
    : list (option Addr) * result dial_error (option Addr) :=
  match ips with
  | [] => ([], Err (default NoAddress firstErr))
  | ip :: ips' =>
    match d_Control d k (endpoint_String ip port) with
    | Some e => dialSerial d (S k) port ips' (Some (default (Denied e) firstErr))
    | None =>
      match connect k ip port with
      | None => ([ip], Ok ip)
      | Some e => let '(tried, r) := dialSerial d (S k) port ips' (Some (default (ConnectFails e) firstErr)) in (ip :: tried, r)
      end
    end
  end.
Definition DialContext (d : Dialer) (k : nat) (address : string) : list (option Addr) * result dial_error (option Addr * Z) :=
  match SplitHostPort address with
  | None => ([], Err BadAddress)
  | Some (host, port) =>
    match LookupPort port, candidates k (d_Resolver d) host with
    | Err e, _ | _, Err e => ([], Err (LookupFails e))
    | Ok n, Ok ips => let '(tried, r) := dialSerial d k n ips None in (tried, match r with Ok ip => Ok (ip, n) | Err e => Err e end)
    end
  end.

(** ** http.Transport *)

Record Transport := mkTransport {
  tr_MinVersion : Z; tr_Proxy : option (URL -> result string (option URL)); tr_Dialer : Dialer; tr_ForceAttemptHTTP2 : bool;
  tr_MaxIdleConns : Z; tr_IdleConnTimeout : Z; tr_TLSHandshakeTimeout : Z; tr_ResponseHeaderTimeout : Z }.

Definition VersionTLS12 : Z := 0x0303.
Definition buildTransport (resolver : Resolver) (guard : option Guard) (responseHeaderTimeout : Z)
    (proxyFunc : option (URL -> result string (option URL))) : Transport :=
  let dialer := mkDialer (30 * Second) (30 * Second) resolver (fun _ => DialControl guard) in
  let responseHeaderTimeout := if responseHeaderTimeout <=? 0 then Config.DefaultUpstreamResponseHeaderTimeout else responseHeaderTimeout in
  mkTransport VersionTLS12 proxyFunc dialer true 100 (90 * Second) (10 * Second) responseHeaderTimeout.

(** [canonicalAddr] and the connect method of a request. *)
Definition port_of_scheme (scheme : string) : string :=
  if str_eqb scheme "http" then "80" else if str_eqb scheme "https" then "443"
  else if str_eqb scheme "socks5" || str_eqb scheme "socks5h" then "1080" else "".
Definition idnaASCII (s : string) : string := if is_ascii_string s then s else default s (ToASCII s).
Definition canonicalAddr (u : URL) : string :=
  JoinHostPort (idnaASCII (Hostname u)) (if is_empty (Port u) then port_of_scheme (Scheme u) else Port u).
Record connectMethod := mkMethod { cm_proxyURL : option URL; cm_targetScheme : string; cm_targetAddr : string }.
Definition connectMethodForRequest (t : Transport) (u : URL) : result string connectMethod :=
  match tr_Proxy t with
  | None => Ok (mkMethod None (Scheme u) (canonicalAddr u))
  | Some f => match f u with Ok p => Ok (mkMethod p (Scheme u) (canonicalAddr u)) | Err e => Err e end
  end.
Definition cm_addr (cm : connectMethod) : string :=
  match cm_proxyURL cm with Some p => canonicalAddr p | None => cm_targetAddr cm end.
Definition cm_key (cm : connectMethod) : string * string * string :=
  match cm_proxyURL cm with
  | None => ("", cm_targetScheme cm, cm_targetAddr cm)
  | Some p => (url_String p, cm_targetScheme cm,
               if (str_eqb (Scheme p) "http" || str_eqb (Scheme p) "https") && str_eqb (cm_targetScheme cm) "http" then "" else cm_targetAddr cm)
  end.
End dial.

(** ** Facts: dials *)

Definition good_ip (ip : option Addr) : Prop := match ip with None => True | Some a => addr_wf a /\ plain_zone a end.

Lemma ParseAddr_plain s a : has_bracket s = false -> ParseAddr s = Some a -> plain_zone a.
Proof.
  unfold has_bracket, ParseAddr, plain_zone. intros [Hl Hr]%orb_false_iff. destruct (addr_family s) as [c|]; [|done].
  destruct (decide (c = "."%char)) as [->|Hd]; [by intros (v & Hv & ->)%fmap_Some|].
  destruct (decide (c = ":"%char)) as [->|Hc]; [|intros Hn; exfalso; destruct c as [[] [] [] [] [] [] [] []]; done].
  unfold parseIPv6. destruct (match IndexByte s "%" with Some i => _ | None => _ end) as [body zone] eqn:Ez.
  assert (has_bracket (default "" zone) = false) as Hz.
  { destruct (IndexByte s "%") as [i|]; injection Ez as <- <-; [|done]. cbn. unfold has_bracket. by rewrite !string_in_sdrop. }
  destruct (bool_decide _); [done|]. cbv zeta. destruct (HasPrefix body "::" && _); [by intros [= <-]|].
  destruct (parse_groups 8 _ [] _) as [[[gs e] rest]|]; [|done]. destruct (negb _); [done|].
  destruct (length gs <? 8)%nat; [destruct e as [k|]; [|done] | destruct (bool_decide _); [done|]]; by intros [= <-].
Qed.

Section dial_facts.
Context `{NetLaws}.

Lemma candidates_good k r host ips : has_bracket host = false -> candidates k r host = Ok ips -> Forall good_ip ips.
Proof.
  intros Hb. unfold candidates. destruct (is_empty host); [intros [= <-]; by repeat constructor|]. destruct (ParseAddr host) as [a|] eqn:Ea.
  - intros [= <-]. repeat constructor; [by eapply ParseAddr_wf | by eapply ParseAddr_plain].
  - destruct (LookupHost k r host) as [l|e] eqn:El; [|done]. intros [= <-]. apply LookupHost_addrs in El. apply list.Forall_fmap. by eapply Forall_impl.
Qed.

Lemma dialSerial_spec d port ips : forall k e tried r, dialSerial d k port ips e = (tried, r) ->
  (forall ip, ip ∈ tried -> ip ∈ ips /\ exists k', d_Control d k' (endpoint_String ip port) = None) /\
  match r with Ok ip => ip ∈ tried | Err _ => True end.
Proof.
  induction ips as [|ip ips IH]; intros k e tried r; cbn [dialSerial].
  { intros [= <- <-]. split; [|done]. intros ip Hip. by apply elem_of_nil in Hip. }
  destruct (d_Control d k (endpoint_String ip port)) as [x|] eqn:Ec.
  { intros Hd. destruct (IH _ _ _ _ Hd) as [Ht Hr]. split; [|done]. intros ip' [Hin Hk]%Ht. split; [by right | done]. }
  destruct (connect k ip port) as [x|].
  - destruct (dialSerial d (S k) port ips _) as [tried' r'] eqn:Ed. intros [= <- <-]. destruct (IH _ _ _ _ Ed) as [Ht Hr]. split.
    + intros ip' [-> | Hin]%elem_of_cons; [split; [by left | by exists k]|]. apply Ht in Hin as [Hin Hk]. split; [by right | done].
    + destruct r'; [by right | done].
  - intros [= <- <-]. split; [|by left]. intros ip' ->%list_elem_of_singleton. split; [by left | by exists k].
Qed.

(** The address a dial ends with: one the host had at the time, and let
    through. *)
Definition dialed (d : Dialer) (address : string) (ip : option Addr) (n : Z) : Prop :=
  exists host port ips k0 k, SplitHostPort address = Some (host, port) /\ LookupPort port = Ok n /\ candidates k0 (d_Resolver d) host = Ok ips /\ ip ∈ ips /\
    d_Control d k (endpoint_String ip n) = None.
Lemma DialContext_dialed d k address tried ip n : DialContext d k address = (tried, Ok (ip, n)) -> dialed d address ip n.
Proof.
  unfold DialContext. destruct (SplitHostPort address) as [[host port]|] eqn:Es; [|done]. destruct (LookupPort port) as [m|] eqn:Ep; [|done].
  destruct (candidates k _ host) as [ips|] eqn:Ec; [|done]. destruct (dialSerial _ _ _ _ _) as [tr r] eqn:Ed. destruct r as [ip'|]; [|done].
  intros [= -> -> ->]. destruct (dialSerial_spec _ _ _ _ _ _ _ Ed) as [Ht Hin]. apply Ht in Hin as [Hin [k' Hk]]. by exists host, port, ips, k, k'.
Qed.
Lemma dialed_good d address ip n : dialed d address ip n -> good_ip ip /\ 0 <= n <= 65535.
Proof.
  intros (host & port & ips & k0 & k & Hs & Hp & Hc & Hin & _). apply SplitHostPort_host in Hs. apply candidates_good in Hc; [|done].
  split; [by apply (proj1 (list.Forall_forall _ _) Hc)|]. by apply LookupPort_range in Hp.
Qed.

(** What [DialControl] lets through is not denied, unless it has no IP. *)
Lemma control_admits g a n : good_ip (Some a) -> 0 <= n -> DialControl g (endpoint_String (Some a) n) = None -> IsDenied g a = false.
Proof.
  intros [Hw Hz] Hn Hc. destruct (TCPAddr_host a n Hw Hz Hn) as (h & p & Hs & Hp). rewrite <- (IsDenied_Unmap g a).
  apply not_true_iff_false. intros Hd. assert (is_Some (DialControl g (endpoint_String (Some a) n))) as [x Hx]; [|by rewrite Hc in Hx].
  apply DialControl_denies. exists (Unmap a). split; [|done]. unfold dial_host. cbn [endpoint_String]. by rewrite Hs.
Qed.
End dial_facts.

(** ** dialPrivate *)

Section sends.
Context `{HN : Net} `{UnicodeTables} `{Regexp} `{MapRange}.
Variable guard : option Guard.
Variable t : Transport.

(** The view of a request the pipeline's consent is asked for. *)
Definition policy_of (s : State) : State :=
  let u := ReqURL (rq s) in
  mkReqState (mkRequest (Method (rq s)) "" (mkURL "" None (URLHost u) (Path u) (RawPath u) "") ∅ (BufferedBody.NewBufferedBody None 0) 0 false) None.

(** [pls] is the pipeline the holder has at each moment. *)
Definition private_dialer (pls : nat -> Pipeline (option requestScrubs)) (policy : State) : Dialer :=
  mkDialer (30 * Second) (30 * Second) (d_Resolver (tr_Dialer t)) (fun k => private_control guard policy (pls k)).
(** [dialPrivate]: the socket [conn], where it goes, and the holder; [None]
    is an error, after which no socket is left open. *)
Definition dial_private (pls : nat -> Pipeline (option requestScrubs)) (k : nat) (h : Holder (option requestScrubs)) (conn : nat) (address : string) (req : State)
    : option (option Addr * Z) * Holder (option requestScrubs) :=
  match DialContext (private_dialer pls (policy_of req)) k address with
  | (_, Err _) => (None, h)
  | (_, Ok (ip, n)) =>
    match dialPrivate guard (policy_of req) h conn (TCPAddr_String (peer_of ip) n) with
    | (Ok _, h') => (Some (ip, n), h')
    | (Err _, h') => (None, h')
    end
  end.

(** ** Requests on connections *)

(** A request on a connection: of the shared transport, or dialled for it. *)
Record Wire := mkWire { wr_req : State; wr_direct : bool; wr_conn : nat; wr_ip : option Addr; wr_port : Z }.
Definition wr_peer (w : Wire) : Addr := peer_of (wr_ip w).
(** The pipeline holder, the idle connections of the shared transport by
    their key, every socket opened, and what was sent, in order. *)
Record net_state := mkNetState {
  ns_holder : Holder (option requestScrubs); ns_pool : list (string * string * string * nat);
  ns_socks : gmap nat (option Addr * Z); ns_sent : list Wire }.

Definition upstream_for (s : State) : option (result string (option string)) :=
  match tr_Proxy t with
  | None => None
  | Some f => Some (match f (ReqURL (rq s)) with Ok (Some u) => Ok (Some (url_String u)) | Ok None => Ok None | Err e => Err e end)
  end.
(** What [RoundTrip] decides for a request at a time. *)
Definition decides (h : Holder (option requestScrubs)) (s : State) (r : send) : Prop :=
  exists now ptr, current h = Some ptr /\ RoundTrip now (upstream_for s) (ptr_pipeline ptr) s = r.

Inductive step : net_state -> net_state -> Prop :=
  | send_dialed h pool socks sent s cm k tried ip n c (keep : bool) :
      decides h s SendShared -> connectMethodForRequest t (ReqURL (rq s)) = Ok cm ->
      DialContext (tr_Dialer t) k (cm_addr cm) = (tried, Ok (ip, n)) -> socks !! c = None ->
      step (mkNetState h pool socks sent)
           (mkNetState h (if keep then (cm_key cm, c) :: pool else pool) (<[c := (ip, n)]> socks) (sent ++ [mkWire s false c ip n]))
  | send_reused h pool socks sent s cm c ip n :
      decides h s SendShared -> connectMethodForRequest t (ReqURL (rq s)) = Ok cm -> (cm_key cm, c) ∈ pool -> socks !! c = Some (ip, n) ->
      step (mkNetState h pool socks sent) (mkNetState h pool socks (sent ++ [mkWire s false c ip n]))
  | send_direct h pool socks sent s pls k c ip n h' :
      decides h s SendDirect -> socks !! c = None -> dial_private pls k h c (canonicalAddr (ReqURL (rq s))) s = (Some (ip, n), h') ->
      step (mkNetState h pool socks sent) (mkNetState h' pool (<[c := (ip, n)]> socks) (sent ++ [mkWire s true c ip n]))
  | send_passthrough h pool socks sent s address pls k c ip n h' :
      socks !! c = None -> dial_private pls k h c address s = (Some (ip, n), h') ->
      step (mkNetState h pool socks sent) (mkNetState h' pool (<[c := (ip, n)]> socks) (sent ++ [mkWire s true c ip n]))
  | private_fails h pool socks sent s address pls k c h' :
      socks !! c = None -> dial_private pls k h c address s = (None, h') ->
      step (mkNetState h pool socks sent) (mkNetState h' pool (<[c := (None, 0)]> socks) sent)
  | pool_drops h pool pool' socks sent : pool' ⊆+ pool -> step (mkNetState h pool socks sent) (mkNetState h pool' socks sent)
  | reloads h next pool socks sent : step (mkNetState h pool socks sent) (mkNetState (Store h next) pool socks sent)
  | private_closes h c pool socks sent : is_Some (connections h !! c) -> step (mkNetState h pool socks sent) (mkNetState (CloseConn h c) pool socks sent).

Definition net_start (initial : option (PipelinePtr (option requestScrubs))) : net_state := mkNetState (NewPipelineHolder initial) [] ∅ [].
End sends.

(** ** Where requests travel *)

Section travel.
Context `{HL : NetLaws} `{UnicodeTables} `{Regexp} `{MapRange}.
Variable guard : option Guard.
Variable t : Transport.

(** A request on the shared transport is on a connection that was dialled for
    a request of the same key. *)
Definition wire_ok (w : Wire) : Prop :=
  if wr_direct w then good_ip (wr_ip w) /\ 0 <= wr_port w <= 65535
  else
    exists cm u cm', connectMethodForRequest t (ReqURL (rq (wr_req w))) = Ok cm /\ connectMethodForRequest t u = Ok cm' /\ cm_key cm' = cm_key cm /\
      dialed (tr_Dialer t) (cm_addr cm') (wr_ip w) (wr_port w).

Record net_inv (st : net_state) : Prop := mkNetInv {
  ni_holder : holder_inv (ns_holder st);
  ni_known : forall c, is_Some (connections (ns_holder st) !! c) \/ c ∈ closed_conns (ns_holder st) -> is_Some (ns_socks st !! c);
  ni_pool : forall k c, (k, c) ∈ ns_pool st -> exists ip n u cm, ns_socks st !! c = Some (ip, n) /\ connectMethodForRequest t u = Ok cm /\ cm_key cm = k /\
              dialed (tr_Dialer t) (cm_addr cm) ip n;
  ni_sent : forall w, w ∈ ns_sent st -> wire_ok w /\ is_Some (ns_socks st !! wr_conn w);
  ni_private : forall w, w ∈ ns_sent st -> wr_direct w = true -> forall k, (k, wr_conn w) ∉ ns_pool st;
  ni_once : forall i j w w', ns_sent st !! i = Some w -> ns_sent st !! j = Some w' -> wr_direct w = true -> wr_conn w' = wr_conn w -> i = j }.

Lemma net_inv_start initial : net_inv (net_start initial).
Proof.
  split; cbn.
  - intros c f Hc. cbn in Hc. by rewrite lookup_empty in Hc.
  - intros c [[f Hf] | Hc]; [by rewrite lookup_empty in Hf | set_solver].
  - intros k c Hc. by apply elem_of_nil in Hc.
  - intros w Hw. by apply elem_of_nil in Hw.
  - intros w Hw. by apply elem_of_nil in Hw.
  - intros i j w w' Hw. by rewrite lookup_nil in Hw.
Qed.

(** A request that is logged on a socket no direct request has used. *)
Lemma log_once l w : (forall w', w' ∈ l -> wr_direct w' = true \/ wr_direct w = true -> wr_conn w' <> wr_conn w) ->
  (forall i j v v', l !! i = Some v -> l !! j = Some v' -> wr_direct v = true -> wr_conn v' = wr_conn v -> i = j) ->
  forall i j v v', (l ++ [w]) !! i = Some v -> (l ++ [w]) !! j = Some v' -> wr_direct v = true -> wr_conn v' = wr_conn v -> i = j.
Proof.
  intros Hnew Honce i j v v' Hi Hj Hv Hc. rewrite lookup_app_Some in Hi, Hj.
  destruct Hi as [Hi | [Hi Hi']], Hj as [Hj | [Hj Hj']].
  - by eapply Honce.
  - apply list_lookup_singleton_Some in Hj' as [_ <-]. exfalso. apply (Hnew v); [by eapply list_elem_of_lookup_2 | by left | done].
  - apply list_lookup_singleton_Some in Hi' as [_ <-]. exfalso. apply (Hnew v'); [by eapply list_elem_of_lookup_2 | by right | done].
  - apply list_lookup_singleton_Some in Hi' as [? _], Hj' as [? _]. lia.
Qed.

Definition known (h : Holder (option requestScrubs)) (c : nat) : Prop := is_Some (connections h !! c) \/ c ∈ closed_conns h.

(** A private dial keeps the holder's invariant, and knows one more socket;
    when it gives the socket, the pipeline allows its peer. *)
Lemma dial_private_spec pls k h c address s r h' : holder_inv h -> ~ known h c -> dial_private guard t pls k h c address s = (r, h') ->
  holder_inv h' /\ (forall c', known h' c' -> c' = c \/ known h c') /\
  match r with
  | None => True
  | Some (ip, n) => good_ip ip /\ 0 <= n <= 65535 /\
      exists p, current h = Some p /\ private_allowed guard (policy_of s) (ptr_pipeline p) (TCPAddr_String (peer_of ip) n) = true
  end.
Proof.
  intros Hi Hk. unfold dial_private. destruct (DialContext _ _ _) as [tried [[ip n]|e]] eqn:Ed; [|intros [= <- <-]; naive_solver].
  apply DialContext_dialed, dialed_good in Ed as [Hg Hn]. unfold dialPrivate, TrackPrivateConnection.
  assert (connections h !! c = None) as Hc by (destruct (connections h !! c) eqn:E; [exfalso; apply Hk; left; by rewrite E | done]).
  assert (c ∉ closed_conns h) as Ho by (intros ?; apply Hk; by right).
  set (allowed := fun p => private_allowed guard (policy_of s) p (TCPAddr_String (peer_of ip) n)).
  assert (holder_inv (mkHolder (current h) (connections h) ({[c]} ∪ closed_conns h) (closed_pipelines h)) /\
          forall c', known (mkHolder (current h) (connections h) ({[c]} ∪ closed_conns h) (closed_pipelines h)) c' -> c' = c \/ known h c') as [Hfi Hfk].
  { split; [intros x f Hx; cbn in *; destruct (Hi x f Hx) as [Hxc Hp]; split; [|done]; rewrite not_elem_of_union, not_elem_of_singleton; split; [congruence | done]|].
    intros x [Hx | Hx]; cbn in Hx; [right; by left|]. apply elem_of_union in Hx as [->%elem_of_singleton | Hx]; [by left | right; by right]. }
  revert Hfi Hfk. destruct (current h) as [p|] eqn:Ep; intros Hfi Hfk; [|cbn; by intros [= <- <-]].
  assert (forall X Y : result string (Holder (option requestScrubs)), (if private_allowed guard (policy_of s) (ptr_pipeline p) (TCPAddr_String (peer_of ip) n) then X else Y) = if allowed (ptr_pipeline p) then X else Y) as Hfold by done.
  rewrite Hfold. destruct (allowed (ptr_pipeline p)) eqn:Ea; [|cbn; by intros [= <- <-]]. cbn.
  intros [= <- <-]. split_and!; [|  | done | lia | lia | by exists p].
  - eapply holder_inv_step; [exact Hi|]. apply (step_track h c allowed); [done | done|]. unfold TrackPrivateConnection. by rewrite Ep, Ea.
  - intros x [[f Hf] | Hx]; cbn in *; [|right; by right]. rewrite lookup_insert in Hf. case_decide; [by left|]. right. left. by exists f.
Qed.
Lemma known_Store h next c : known (Store h next) c -> known h c.
Proof.
  unfold known, Store. cbn. intros [[f Hf] | Hc].
  - apply map_lookup_filter_Some in Hf as [Hf _]. left. by exists f.
  - apply elem_of_union in Hc as [Hc | Hc]; [by right|]. apply elem_of_dom in Hc as [f Hf]. apply map_lookup_filter_Some in Hf as [Hf _]. left. by exists f.
Qed.
Lemma known_CloseConn h x c : is_Some (connections h !! x) -> known (CloseConn h x) c -> known h c.
Proof.
  unfold known, CloseConn. cbn. intros Hx [[f Hf] | Hc].
  - rewrite lookup_delete in Hf. case_decide; [done|]. left. by exists f.
  - apply elem_of_union in Hc as [->%elem_of_singleton | Hc]; [by left | by right].
Qed.

(** One more socket does not disturb the rest. *)
Lemma sock_kept (socks : gmap nat (option Addr * Z)) c v x : socks !! c = None -> socks !! x = Some v -> forall w, <[c := w]> socks !! x = Some v.
Proof. intros Hc Hx w. rewrite lookup_insert_ne; [done|]. intros ->. by rewrite Hc in Hx. Qed.
Lemma sock_is_kept (socks : gmap nat (option Addr * Z)) c x w : is_Some (socks !! x) -> is_Some (<[c := w]> socks !! x).
Proof. intros Hx. rewrite lookup_insert. by case_decide. Qed.

(** The invariant after a fresh socket [c], with a request on it. *)
Lemma net_inv_fresh h pool socks sent h' w v pool' :
  net_inv (mkNetState h pool socks sent) -> socks !! wr_conn w = None -> holder_inv h' ->
  (forall c', known h' c' -> c' = wr_conn w \/ known h c') -> wire_ok w ->
  (forall k c, (k, c) ∈ pool' -> (k, c) ∈ pool \/ c = wr_conn w /\ wr_direct w = false /\
     exists u cm, connectMethodForRequest t u = Ok cm /\ cm_key cm = k /\ v = (wr_ip w, wr_port w) /\ dialed (tr_Dialer t) (cm_addr cm) (wr_ip w) (wr_port w)) ->
  net_inv (mkNetState h' pool' (<[wr_conn w := v]> socks) (sent ++ [w])).
Proof.
  intros [Hh Hk Hp Hs Hpr Ho] Hc Hh' Hk' Hw Hpool. cbn in *.
  assert (forall w', w' ∈ sent -> wr_conn w' <> wr_conn w) as Hne.
  { intros w' [_ [x Hx]]%Hs E. by rewrite E, Hc in Hx. }
  assert (forall k c, (k, c) ∈ pool -> c <> wr_conn w) as Hnp.
  { intros k c (ip & n & u & cm & Hx & _)%Hp E. by rewrite E, Hc in Hx. }
  split; cbn; [done | | | | |].
  - intros c [-> | Hkn]%Hk'; [by rewrite lookup_insert_eq|]. apply sock_is_kept. by apply Hk.
  - intros k c [Hin | (-> & _ & u & cm & Hm & Hkey & -> & Hd)]%Hpool.
    + destruct (Hp k c Hin) as (ip & n & u & cm & Hx & ?). exists ip, n, u, cm. split; [by apply sock_kept | done].
    + exists (wr_ip w), (wr_port w), u, cm. by rewrite lookup_insert_eq.
  - intros w' [Hin | ->%list_elem_of_singleton]%elem_of_app; [|by rewrite lookup_insert_eq]. destruct (Hs w' Hin). split; [done | by apply sock_is_kept].
  - intros w' Hin Hd k [Hx | (Hx & Hf & _)]%Hpool.
    + apply elem_of_app in Hin as [Hin | ->%list_elem_of_singleton]; [by apply (Hpr w' Hin Hd k) | by apply (Hnp k (wr_conn w))].
    + apply elem_of_app in Hin as [Hin | ->%list_elem_of_singleton]; [by apply (Hne w') | by rewrite Hf in Hd].
  - apply log_once; [|done]. intros w' Hin _. by apply Hne.
Qed.

Lemma net_inv_step st st' : net_inv st -> step guard t st st' -> net_inv st'.
Proof.
  intros Hinv Hst. pose proof Hinv as [Hh Hk Hp Hs Hpr Ho].
  assert (forall c, ns_socks st !! c = None -> ~ known (ns_holder st) c) as Hnew by (intros c Hc [x Hx]%Hk; by rewrite Hc in Hx).
  destruct Hst as [h pool socks sent s cm k tried ip n c keep Hd Hm Hdial Hc | h pool socks sent s cm c ip n Hd Hm Hin Hc
                  | h pool socks sent s pls k c ip n h' Hd Hc Hdial | h pool socks sent s address pls k c ip n h' Hc Hdial
                  | h pool socks sent s address pls k c h' Hc Hdial | h pool pool' socks sent Hsub | h next pool socks sent | h c pool socks sent Hc]; cbn in *.
  - apply DialContext_dialed in Hdial. apply (net_inv_fresh h pool socks sent h (mkWire s false c ip n)); try done; cbn.
    + by right.
    + exists cm, (ReqURL (rq s)), cm. done.
    + intros k' c' Hin. destruct keep; [|by left]. apply elem_of_cons in Hin as [[= -> ->] | Hin]; [|by left]. right. split_and!; [done | done|]. by exists (ReqURL (rq s)), cm.
  - split; cbn; try done.
    + intros w [Hw | ->%list_elem_of_singleton]%elem_of_app; [by apply Hs|]. cbn. split; [|by rewrite Hc].
      destruct (Hp _ _ Hin) as (ip' & n' & u & cm' & Hx & Hm' & Hkey & Hdl). rewrite Hc in Hx. injection Hx as <- <-. exists cm, u, cm'. done.
    + intros w [Hw | ->%list_elem_of_singleton]%elem_of_app; [by apply Hpr | done].
    + apply log_once; [|done]. intros w' Hw' [Hd' | Hd']; [|done]. cbn. intros E. apply (Hpr w' Hw' Hd' (cm_key cm)). by rewrite E.
  - destruct (dial_private_spec _ _ _ _ _ _ _ _ Hh (Hnew c Hc) Hdial) as (Hh' & Hk' & Hg & Hn & Hal).
    apply (net_inv_fresh h pool socks sent h' (mkWire s true c ip n)); try done. intros k' c' Hin. by left.
  - destruct (dial_private_spec _ _ _ _ _ _ _ _ Hh (Hnew c Hc) Hdial) as (Hh' & Hk' & Hg & Hn & Hal).
    apply (net_inv_fresh h pool socks sent h' (mkWire s true c ip n)); try done. intros k' c' Hin. by left.
  - destruct (dial_private_spec _ _ _ _ _ _ _ _ Hh (Hnew c Hc) Hdial) as (Hh' & Hk' & _).
    split; cbn; try done.
    + intros c' [-> | Hkn]%Hk'; [by rewrite lookup_insert_eq|]. apply sock_is_kept. by apply Hk.
    + intros k' c' (ip & n & u & cm & Hx & ?)%Hp. exists ip, n, u, cm. split; [by apply sock_kept | done].
    + intros w [Hw Hx]%Hs. split; [done | by apply sock_is_kept].
  - assert (forall x, x ∈ pool' -> x ∈ pool) as Hsub' by (intros x Hx; by eapply elem_of_submseteq). split; cbn; try done.
    + intros k c Hin%Hsub'. by apply Hp.
    + intros w Hw Hd k Hin%Hsub'. by apply (Hpr w Hw Hd k).
  - split; cbn; try done; [by eapply holder_inv_step; [|constructor]|]. intros c Hc. apply Hk. by apply (known_Store h next).
  - split; cbn; try done; [by eapply holder_inv_step; [|constructor]|]. intros c' Hc'. apply Hk. by apply (known_CloseConn h c).
Qed.
Lemma net_inv_steps st st' : rtc (step guard t) st st' -> net_inv st -> net_inv st'.
Proof. apply (rtc_invariant _ _ net_inv_step). Qed.

(** The step in which a request was sent. *)
Lemma step_log st st' : step guard t st st' -> ns_sent st' = ns_sent st \/ exists w, ns_sent st' = ns_sent st ++ [w].
Proof. destruct 1; cbn; eauto. Qed.
Lemma sent_at initial st i w : rtc (step guard t) (net_start initial) st -> ns_sent st !! i = Some w ->
  exists st1 st2, rtc (step guard t) (net_start initial) st1 /\ step guard t st1 st2 /\ rtc (step guard t) st2 st /\
    ns_sent st2 = ns_sent st1 ++ [w] /\ length (ns_sent st1) = i.
Proof.
  intros Hr. revert i w. revert st Hr. refine (rtc_ind_r _ _ _ _); [intros i w Hi; cbn in Hi; by rewrite lookup_nil in Hi|]. intros y z Hy Hyz IH i w Hi.
  assert (ns_sent y !! i = Some w \/ ns_sent z = ns_sent y ++ [w] /\ length (ns_sent y) = i) as [Hold|[Hnew Hlen]].
  { destruct (step_log y z Hyz) as [E|[w' E]]; rewrite E in Hi; [by left|]. rewrite E.
    apply lookup_app_Some in Hi as [Hi|[Hge Hi]]; [by left|]. right. apply list_lookup_singleton_Some in Hi as [Hz ->]. split; [done|lia]. }
  - destruct (IH i w Hold) as (st1 & st2 & Hr1 & Hst & Hr2 & Hw). exists st1, st2. split_and!; [done | done | by eapply rtc_r | apply Hw..].
  - exists y, z. by split_and!; [..|apply rtc_refl| |].
Qed.

(** A request on its own connection is there by the test of the pipeline the
    holder had then. *)
Lemma direct_by_consent st st' w : net_inv st -> step guard t st st' -> ns_sent st' = ns_sent st ++ [w] -> wr_direct w = true ->
  exists p, current (ns_holder st) = Some p /\
    private_allowed guard (policy_of (wr_req w)) (ptr_pipeline p) (TCPAddr_String (wr_peer w) (wr_port w)) = true.
Proof.
  intros Hinv Hst. pose proof Hinv as [Hh Hk _ _ _ _].
  assert (forall c, ns_socks st !! c = None -> ~ known (ns_holder st) c) as Hnew by (intros c Hc [x Hx]%Hk; by rewrite Hc in Hx).
  destruct Hst as [h pool socks sent s cm k tried ip n c keep Hd Hm Hdial Hc | h pool socks sent s cm c ip n Hd Hm Hin Hc
                  | h pool socks sent s pls k c ip n h' Hd Hc Hdial | h pool socks sent s address pls k c ip n h' Hc Hdial
                  | h pool socks sent s address pls k c h' Hc Hdial | h pool pool' socks sent Hsub | h next pool socks sent | h c pool socks sent Hc];
    cbn in *; intros E; try (by apply (f_equal length) in E; rewrite length_app in E; cbn in E; lia); apply (inj (sent ++.)) in E; injection E as <-; try done;
    intros _; by destruct (dial_private_spec _ _ _ _ _ _ _ _ Hh (Hnew c Hc) Hdial) as (_ & _ & _ & _ & Hal).
Qed.
End travel.

(** The pipeline offers, for the policy, a private prefix that has the
    address, in every transform that has a say. *)
Definition consented {C} (p : Pipeline C) (policy : ReqState C) (a : Addr) : Prop :=
  (exists tr f, tr ∈ transforms p /\ PrivateIPs tr = Some f) /\
  forall tr f, tr ∈ transforms p -> PrivateIPs tr = Some f -> exists q, q ∈ f policy /\ prefix_contains q (WithZone (Unmap a) "") = true.
(** The local system is meant. *)
Definition local_endpoint (ip : option Addr) : bool := match ip with None => true | Some a => IsUnspecified a end.
Definition no_upstream_proxy (f : option (URL -> result string (option URL))) : Prop :=
  match f with None => True | Some f => forall u, f u = Ok None end.

Lemma peer_good ip : good_ip ip -> good_ip (Some (peer_of ip)).
Proof.
  destruct ip as [a|]; cbn; [|intros _; repeat split; lia]. destruct (IsUnspecified a); [|done]. intros _. unfold loopback_for. destruct (Unmap a); repeat split; cbn; lia.
Qed.
Lemma allowed_consented {C} g (policy : ReqState C) p a n : good_ip (Some a) -> 0 <= n <= 65535 ->
  private_allowed g policy p (TCPAddr_String a n) = true -> IsDenied g a = true -> consented p policy a.
Proof.
  intros [Hw Hz] Hn Ha Hd. pose proof (TCPAddr_ParseAddrPort a n Hw Hz Hn) as Hp. rewrite <- (IsDenied_Unmap g a) in Hd.
  pose proof (private_dial_needs_consent g policy p _ _ Hp Hd Ha) as Hc. by rewrite Unmap_idem in Hc.
Qed.

(** The [i]-th request was sent with the consent of the pipeline the holder
    had in that step. *)
Definition admitted_when_sent `{Net} `{UnicodeTables} `{Regexp} `{MapRange} guard t initial (st : net_state) (i : nat) (w : Wire) : Prop :=
  exists st1 st2 p, rtc (step guard t) (net_start initial) st1 /\ step guard t st1 st2 /\ rtc (step guard t) st2 st /\
    ns_sent st2 = ns_sent st1 ++ [w] /\ length (ns_sent st1) = i /\
    current (ns_holder st1) = Some p /\ consented (ptr_pipeline p) (policy_of (wr_req w)) (wr_peer w).

Section properties.
Context `{HL : NetLaws} `{UnicodeTables} `{Regexp} `{MapRange}.
Variables (resolver : Resolver) (guard : option Guard) (timeout : Z) (proxyFunc : option (URL -> result string (option URL))).
Let t : Transport := buildTransport resolver guard timeout proxyFunc.

(** What every request sent so far tells of its connection. *)
Lemma travel_admitted initial st i w :
  rtc (step guard t) (net_start initial) st -> ns_sent st !! i = Some w ->
  (IsDenied guard (wr_peer w) = true ->
     if wr_direct w then admitted_when_sent guard t initial st i w else local_endpoint (wr_ip w) = true) /\
  (wr_direct w = true -> forall j w', ns_sent st !! j = Some w' -> wr_conn w' = wr_conn w -> j = i) /\
  (wr_direct w = false -> no_upstream_proxy proxyFunc -> dialed (tr_Dialer t) (canonicalAddr (ReqURL (rq (wr_req w)))) (wr_ip w) (wr_port w)).
Proof.
  intros Hr Hi. destruct (net_inv_steps guard t _ _ Hr (net_inv_start t initial)) as [_ _ _ Hs _ Ho].
  destruct (Hs w (list_elem_of_lookup_2 _ _ _ Hi)) as [Hw _]. unfold wire_ok in Hw. split_and!.
  - intros Hd. destruct (wr_direct w) eqn:Edir.
    + destruct Hw as (Hg & Hn). destruct (sent_at guard t initial st i w Hr Hi) as (st1 & st2 & Hr1 & Hst & Hr2 & Hlog & Hlen).
      destruct (direct_by_consent guard t st1 st2 w (net_inv_steps guard t _ _ Hr1 (net_inv_start t initial)) Hst Hlog Edir) as (p & Hp & Ha).
      exists st1, st2, p. split_and!; try done. apply (allowed_consented guard _ (ptr_pipeline p) _ (wr_port w)); [by apply peer_good | done..].
    + destruct Hw as (cm & u & cm' & _ & _ & _ & Hdl). destruct (dialed_good _ _ _ _ Hdl) as [Hg Hn]. destruct Hdl as (host & port & ips & k0 & k & _ & _ & _ & _ & Hc).
      destruct (wr_ip w) as [a|] eqn:Ea; [|done]. cbn. destruct (IsUnspecified a) eqn:Eu; [done|]. unfold wr_peer in Hd. rewrite Ea in Hd. cbn in Hd. rewrite Eu in Hd.
      rewrite (control_admits guard a (wr_port w) Hg ltac:(lia) Hc) in Hd. done.
  - intros Hd j w' Hj Hc. symmetry. by apply (Ho i j w w').
  - intros Hd Hnp. rewrite Hd in Hw. destruct Hw as (cm & u & cm' & Hm & Hm' & Hk & Hdl).
    assert (forall u cm, connectMethodForRequest t u = Ok cm -> cm = mkMethod None (Scheme u) (canonicalAddr u)) as Hcm.
    { intros u0 cm0. unfold connectMethodForRequest. cbn. destruct proxyFunc as [f|]; [rewrite (Hnp u0)|]; by intros [= <-]. }
    apply Hcm in Hm as ->, Hm' as ->. cbn in Hk, Hdl. by injection Hk as _ <-.
Qed.

(** The deny list does not keep the shared transport off the local system.
    With the default list, which denies the loopback addresses, a host that
    resolves to an unspecified address is connected to, and its peer is the
    loopback address. *)
Theorem unspecified_reaches_loopback a k address host port n :
  a = Addr4 0 \/ a = Addr6 0 "" -> NewGuard defaultDenyCIDRs = Ok (default (mkGuard []) guard) -> is_Some guard ->
  SplitHostPort address = Some (host, port) -> LookupPort port = Ok n -> candidates k resolver host = Ok [Some a] -> connect k (Some a) n = None ->
  DialContext (tr_Dialer t) k address = ([Some a], Ok (Some a, n)) /\ IsDenied guard (peer_of (Some a)) = true.
Proof.
  intros Ha Hg [g ->] Hs Hp Hc Hcon. cbn [default] in Hg.
  assert (DialControl (Some g) (endpoint_String (Some a) n) = None /\ IsDenied (Some g) (peer_of (Some a)) = true) as [Hdc Hd].
  { assert (IsDenied (Some g) (peer_of (Some a)) = true /\ IsDenied (Some g) (Unmap a) = false) as [Hd Hu].
    { vm_compute in Hg. injection Hg as <-. destruct Ha as [-> | ->]; split; vm_compute; reflexivity. }
    split; [|done]. destruct (DialControl _ _) eqn:E; [|done]. assert (is_Some (DialControl (Some g) (endpoint_String (Some a) n))) as Hsome by (by rewrite E).
    apply DialControl_denies in Hsome as (b & Hb & Hdb). apply LookupPort_range in Hp.
    destruct (TCPAddr_host a n) as (h & p & Hsp & Hpa); [by destruct Ha as [-> | ->]; cbn; lia | by destruct Ha as [-> | ->] | lia |].
    unfold dial_host in Hb. cbn [endpoint_String] in Hb. rewrite Hsp, Hpa in Hb. injection Hb as <-. by rewrite Hu in Hdb. }
  split; [|done]. unfold DialContext. rewrite Hs, Hp. cbn [t buildTransport tr_Dialer d_Resolver]. rewrite Hc. cbn [dialSerial d_Control]. by rewrite Hdc, Hcon.
Qed.
End properties.

(** ** A concrete network *)

Section examples.
Local Existing Instances ascii_tables literal_regexp default_range.
Definition demo_lookup (k : nat) (r : Resolver) (h : string) : result string (list Addr) :=
  if str_eqb h "api.test" then Ok [Addr4 0x5DB8D822] else if str_eqb h "zero.test" then Ok [Addr4 0]
  else if str_eqb h "private.test" then Ok [Addr4 0x7F000001] else Err "no such host".
Definition demo_port (p : string) : result string Z := match ParsePort p with Some n => Ok n | None => Err "unknown port" end.
Definition demo_net : Net := {| LookupHost := demo_lookup; LookupPort := demo_port; connect := fun _ _ _ => None; ToASCII := fun _ => None |}.
Local Existing Instance demo_net.
Lemma decimal_nonneg p n : decimal p = Some n -> 0 <= n.
Proof. unfold decimal. destruct (is_empty p); [done|]. intros Hd. by apply decimal_acc_range in Hd. Qed.
Lemma demo_net_laws : NetLaws (H := demo_net).
Proof.
  split.
  - intros k r h l. cbn. unfold demo_lookup. repeat case_match; try done; intros [= <-]; (constructor; [|constructor]); split; cbn; (lia || done).
  - intros p n. cbn. unfold demo_port, ParsePort, bounded. destruct (decimal p) as [m|] eqn:E; [|done]. destruct (m <=? 65535) eqn:El; [|done].
    intros [= <-]. apply decimal_nonneg in E. bool_prop. lia.
Qed.
Local Existing Instance demo_net_laws.

Definition demo_guard : Guard := match NewGuard defaultDenyCIDRs with Ok g => g | Err _ => mkGuard [] end.
Definition demo_pipeline : PipelinePtr (option requestScrubs) := mkPtr 0 (mkPipeline [] (mkLimits 0 0)).
Definition demo_request : State :=
  mkReqState (mkRequest "GET" "api.test" (mkURL "https" None "api.test" "/v1" "" "") ∅ (BufferedBody.NewBufferedBody None 0) 0 true) None.
Definition demo_transport : Transport := buildTransport DefaultResolver (Some demo_guard) 0 None.
Definition demo_wire : Wire := mkWire demo_request false 7 (Some (Addr4 0x5DB8D822)) 443.
Definition demo_sent : net_state :=
  mkNetState (NewPipelineHolder (Some demo_pipeline)) [("", "https", "api.test:443", 7%nat)] {[7%nat := (Some (Addr4 0x5DB8D822), 443)]} [demo_wire].
(** A request to a denied address, by the consent of the pipeline, which a
    reload then withdraws. *)
Definition demo_offers : Transformer (option requestScrubs) :=
  mkTransformer "allowlist" (fun t s => (Ok continue_result, t, s)) (fun t s r => (Ok continue_result, t, s, r)) None
    (Some (fun _ => [mkPrefix (Addr4 0x7F000000) 8])).
Definition demo_private_pipeline : PipelinePtr (option requestScrubs) := mkPtr 1 (mkPipeline [demo_offers] (mkLimits 0 0)).
Definition demo_private_request : State :=
  mkReqState (mkRequest "GET" "private.test" (mkURL "https" None "private.test" "/v1" "" "") ∅ (BufferedBody.NewBufferedBody None 0) 0 true) None.
Definition demo_private_wire : Wire := mkWire demo_private_request true 3 (Some (Addr4 0x7F000001)) 443.
Definition demo_private_dial : option (option Addr * Z) * Holder (option requestScrubs) :=
  dial_private (Some demo_guard) demo_transport (fun _ => ptr_pipeline demo_private_pipeline) 0 (NewPipelineHolder (Some demo_private_pipeline)) 3
    "private.test:443" demo_private_request.
Definition demo_private_sent : net_state :=
  mkNetState (Store demo_private_dial.2 (Some demo_pipeline)) [] {[3%nat := (Some (Addr4 0x7F000001), 443)]} [demo_private_wire].
Lemma demo_private_sends : rtc (step (Some demo_guard) demo_transport) (net_start (Some demo_private_pipeline)) demo_private_sent.
Proof.
  apply (rtc_l _ _ (mkNetState demo_private_dial.2 [] {[3%nat := (Some (Addr4 0x7F000001), 443)]} [demo_private_wire])); [|apply rtc_once, reloads].
  apply (send_direct _ _ _ [] ∅ [] demo_private_request (fun _ => ptr_pipeline demo_private_pipeline) 0 3 (Some (Addr4 0x7F000001)) 443).
  - exists 0, demo_private_pipeline. by split.
  - apply lookup_empty.
  - assert (demo_private_dial.1 = Some (Some (Addr4 0x7F000001), 443)) as <- by (vm_compute; reflexivity).
    change (canonicalAddr _) with "private.test:443". exact (surjective_pairing demo_private_dial).
Qed.
Lemma demo_sends : rtc (step (Some demo_guard) demo_transport) (net_start (Some demo_pipeline)) demo_sent.
Proof.
  eapply rtc_l; [|apply rtc_refl].
  eapply (send_dialed _ _ _ [] ∅ [] demo_request (mkMethod None "https" "api.test:443") 0 [Some (Addr4 0x5DB8D822)] (Some (Addr4 0x5DB8D822)) 443 7 true).
  - exists 0, demo_pipeline. by split.
  - reflexivity.
  - vm_compute. reflexivity.
  - apply lookup_empty.
Qed.
Lemma unspecified_reaches_loopback_witness :
  DialContext (tr_Dialer demo_transport) 0 "zero.test:80" = ([Some (Addr4 0)], Ok (Some (Addr4 0), 80)) /\ IsDenied (Some demo_guard) (Addr4 0x7F000001) = true.
Proof.
  apply (unspecified_reaches_loopback DefaultResolver (Some demo_guard) 0 None (Addr4 0) 0 "zero.test:80" "zero.test" "80" 80);
    [by left | vm_compute; reflexivity | by exists demo_guard | reflexivity..].
Defined.
End examples.
End Dialing.
