(* ===== verification/Lifecycle.v ===== *)
(** * Starting and stopping (src/cmd/iron-proxy/main.go, src/internal/proxy/proxy.go, tunnel.go)

    How [main] assembles the running proxy from its configuration, next to the
    poller that a managed start has running by then, and what makes it exit
    instead, the order in which it shuts down, the accept loops
    of the proxy next to [Shutdown], and the listener that serves one tunnelled
    connection.  Sockets, signals and net/http are the environment of the step
    relations. *)
From stdpp Require Import base gmap strings list option relations.
From Stdlib Require Import ZArith Lia Ascii.
From S2P Require Import Prelude GoUtf8 GoStrings GoNet Body GoHttp GoJson GoJsonParse GoTime GoRegexp HostMatch Transform DnsGuard PrivateConn.
From S2P Require Import AuditLog ScrubPairs Secrets McpPolicy McpGateway RetryHandler OtelAudit CertCache PgConfig PgServer Config DnsServer ControlPlane Managed Management SshProxy.
Local Open Scope string_scope.
Local Open Scope list_scope.
Local Open Scope Z_scope.

(** ** One tunnelled connection (tunnel.go) *)

Module OneConn.
(** [oneConnListener]: the connection was handed out, the channel is closed. *)
Record listener := mkListener { ln_taken : bool; ln_done : bool }.
Definition newOneConnListener : listener := mkListener false false.
Inductive accepted := GotConn | Blocks | ErrClosed.
Definition Accept (l : listener) : accepted * listener :=
  if negb (ln_taken l) then (GotConn, mkListener true (ln_done l))
  else if ln_done l then (ErrClosed, l) else (Blocks, l).
Definition closeDone (l : listener) : listener := mkListener (ln_taken l) true.

(** [serveOneHTTPConn]: where the connection is, how many handlers run, and
    whether a handler has taken the connection over. *)
Inductive conn_state := Waiting | Active | Hijacked | Closed.
Inductive phase := Serving | Draining | Done.
Record server := mkServer { s_ln : listener; s_conn : conn_state; s_handlers : nat; s_hijacked : bool; s_phase : phase }.
Definition start : server := mkServer newOneConnListener Waiting 0 false Serving.

Inductive step : server -> server -> Prop :=
  | step_accept l' n h : forall l, Accept l = (GotConn, l') -> step (mkServer l Waiting n h Serving) (mkServer l' Active n h Serving)
  | step_request l n h ph : step (mkServer l Active n h ph) (mkServer l Active (S n) h ph)
  | step_finish l c n h ph : step (mkServer l c (S n) h ph) (mkServer l c n h ph)
  | step_hijack l n h ph : step (mkServer l Active (S n) h ph) (mkServer (closeDone l) Hijacked (S n) true ph)
  | step_closed l n h ph : step (mkServer l Active n h ph) (mkServer (closeDone l) Closed n h ph)
  | step_serve_returns l l' c n h : Accept l = (ErrClosed, l') -> step (mkServer l c n h Serving) (mkServer l' c n h Draining)
  | step_return l c n h : (h = true -> n = 0%nat) -> step (mkServer l c n h Draining) (mkServer l c n h Done).

Record inv (s : server) : Prop := mkInv {
  inv_waiting : s_conn s = Waiting <-> ln_taken (s_ln s) = false;
  inv_fresh : s_conn s = Waiting -> s_handlers s = 0%nat /\ s_hijacked s = false /\ s_phase s = Serving;
  inv_done : ln_done (s_ln s) = true <-> s_conn s = Hijacked \/ s_conn s = Closed;
  inv_hijacked : s_hijacked s = true <-> s_conn s = Hijacked;
  inv_phase : s_phase s <> Serving -> ln_done (s_ln s) = true;
  inv_drained : s_phase s = Done -> s_hijacked s = true -> s_handlers s = 0%nat;
}.

Lemma one_conn_step s s' : inv s -> step s s' -> inv s'.
Proof.
  intros [Hw Hf Hd Hh Hp Hdr]. inversion 1 as [l' n h l Ha|l n h ph|l c n h ph|l n h ph|l n h ph|l l' c n h Ha|l c n h Hz]; subst; cbn in *.
  - unfold Accept in Ha. destruct (ln_taken l); cbn in Ha; [by destruct (ln_done l)|]. injection Ha as <-. destruct (Hf eq_refl) as (-> & -> & _).
    assert (ln_done l = false) as Hdl by (destruct (ln_done l); [by destruct (proj1 Hd eq_refl)|done]). rewrite Hdl. split; cbn; try naive_solver.
  - split; cbn; naive_solver.
  - split; cbn; naive_solver lia.
  - split; cbn; naive_solver.
  - assert (h = false) as -> by (destruct h; [discriminate (proj1 Hh eq_refl) | done]). split; cbn; naive_solver.
  - unfold Accept in Ha. destruct (ln_taken l) eqn:Et; cbn in Ha; [|done]. destruct (ln_done l) eqn:El; [|done]. injection Ha as <-.
    split; cbn; rewrite ?Et, ?El; naive_solver.
  - split; cbn; naive_solver.
Qed.

Lemma inv_start : inv start.
Proof. split; cbn; naive_solver. Qed.

Lemma inv_steps s s' : rtc step s s' -> inv s -> inv s'.
Proof. apply (rtc_invariant _ _ one_conn_step). Qed.

(** A tunnelled connection is served to its end.  When [serveOneHTTPConn]
    returns, the one connection was accepted and is closed, or a handler took
    it over and every handler has returned: the deferred close of the tunnel
    never cuts off a WebSocket. *)
Theorem tunnel_served_to_end s :
  rtc step start s -> s_phase s = Done ->
  s_conn s = Closed \/ (s_conn s = Hijacked /\ s_handlers s = 0%nat).
Proof.
  intros Hr Hd. assert (inv s) as [Hw Hf Hdn Hh Hp Hdr].
  { exact (inv_steps start s Hr inv_start). }
  assert (ln_done (s_ln s) = true) as [Hc|Hc]%Hdn by (apply Hp; by rewrite Hd); [|by left].
  right. split; [done|]. apply Hdr; [done|]. by apply Hh.
Qed.

Lemma tunnel_served_to_end_witness :
  rtc step start (mkServer (mkListener true true) Hijacked 0 true Done) /\ (Hijacked = Closed \/ (Hijacked = Hijacked /\ 0%nat = 0%nat)).
Proof.
  assert (rtc step start (mkServer (mkListener true true) Hijacked 0 true Done)) as Hr.
  { eapply rtc_l; [by apply (step_accept (mkListener true false))|]. eapply rtc_l; [apply step_request|]. eapply rtc_l; [apply step_hijack|].
    eapply rtc_l; [apply step_finish|]. eapply rtc_l; [by apply (step_serve_returns _ (mkListener true true))|]. eapply rtc_l; [by apply step_return|]. apply rtc_refl. }
  split; [exact Hr|]. exact (tunnel_served_to_end _ Hr eq_refl).
Defined.
End OneConn.

(** ** The accept loops and Shutdown (proxy.go, tunnel.go) *)

Module AcceptLoop.
(** [listenTunnel] and [serveHTTPSSNI]: before the listener is stored, in the
    loop, or back with what it returned. *)
Inductive loop := Unbound | Accepting | Returned (ok : bool).
(** The listener field of the proxy: nil, open or closed. *)
Inductive socket := NoSocket | Open | Shut.
(** [Shutdown] with respect to one loop: not called, the loop told to stop
    ([tunnelDone] closed, the context cancelled), and past the close of the
    listener it saw. *)
Inductive stopping := NotStopping | Told | Stopped.
Record proxy := mkProxy { p_loop : loop; p_socket : socket; p_stop : stopping; p_handled : nat }.
Definition started : proxy := mkProxy Unbound NoSocket NotStopping 0.

Definition told (s : stopping) : bool := match s with NotStopping => false | _ => true end.
Definition close_if_set (s : socket) : socket := match s with NoSocket => NoSocket | _ => Shut end.

Inductive step : proxy -> proxy -> Prop :=
  | bind_ok st n : step (mkProxy Unbound NoSocket st n) (mkProxy Accepting Open st n)
  | bind_fails st n : step (mkProxy Unbound NoSocket st n) (mkProxy (Returned false) NoSocket st n)
  | accept st n : step (mkProxy Accepting Open st n) (mkProxy Accepting Open st (S n))
  | accept_error s st n : step (mkProxy Accepting s st n) (mkProxy (if told st then Returned true else Accepting) s st n)
  | tell l s n : step (mkProxy l s NotStopping n) (mkProxy l s Told n)
  | close l s n : step (mkProxy l s Told n) (mkProxy l (close_if_set s) Stopped n).

(** Once the listener is shut, it stays shut and nothing more is handled. *)
Lemma shut_step p p' : step p p' -> p_socket p = Shut -> p_socket p' = Shut /\ p_handled p' = p_handled p.
Proof. intros Hst Hs. inversion Hst; subst; cbn in *; by subst. Qed.
Lemma shut_steps p p' : rtc step p p' -> p_socket p = Shut -> p_handled p' = p_handled p.
Proof. induction 1 as [|x y z Hxy _ IH]; [done|]. intros Hs. destruct (shut_step x y Hxy Hs) as [Hy <-]. by apply IH. Qed.

(** Shutting down a proxy that listens: no connection is handled after it,
    and the loop can return without an error. *)
Theorem shutdown_stops_accepting n p :
  rtc step (mkProxy Accepting (close_if_set Open) Stopped n) p ->
  p_handled p = n /\ (p_loop p = Accepting \/ p_loop p = Returned true) /\ exists p', rtc step p p' /\ p_loop p' = Returned true.
Proof.
  intros Hr. split; [exact (shut_steps _ _ Hr eq_refl)|].
  assert (forall q q', rtc step q q' -> p_socket q = Shut /\ p_stop q = Stopped /\ (p_loop q = Accepting \/ p_loop q = Returned true) ->
            p_socket q' = Shut /\ p_stop q' = Stopped /\ (p_loop q' = Accepting \/ p_loop q' = Returned true)) as Hinv.
  { induction 1 as [|x y z Hxy _ IH]; [done|]. intros (Hs & Hst & Hl). apply IH. inversion Hxy; subst; cbn in *; naive_solver. }
  destruct (Hinv _ _ Hr) as (Hs & Hst & Hl); [cbn; by split_and!; [| | left]|]. split; [done|].
  destruct p as [l s st m]. cbn in *. subst s st. destruct Hl as [-> | ->]; [|eexists; split; [apply rtc_refl | done]].
  eexists. split; [eapply rtc_l; [apply accept_error | apply rtc_refl] | done].
Qed.

(** A shutdown that runs before the listener is stored sees none, and closes
    none: the loop then binds and serves any number of connections. *)
Theorem early_shutdown_keeps_serving n : exists p, rtc step started p /\ p_stop p = Stopped /\ p_loop p = Accepting /\ p_handled p = n.
Proof.
  exists (mkProxy Accepting Open Stopped n). split; [|done].
  eapply rtc_l; [apply tell|]. eapply rtc_l; [apply close|]. eapply rtc_l; [apply bind_ok|].
  induction n as [|n IH]; [apply rtc_refl|]. eapply rtc_r; [exact IH | apply accept].
Qed.
End AcceptLoop.

(** ** main *)

Module Main.
Import Config ControlPlane Managed Management.

Inductive exit_reason :=
  | BadConfig (e : config_error) | BadLogLevel | NoFileToReload | BadPostgres (e : run_error) | ManagedExits | StandaloneFails (e : run_error)
  | Invalid (e : config_error) | BadOtelProtocol | CertFails (e : CertCache.cert_error) | DnsFails | GuardFails (e : cidr_error)
  | SshFails (e : Ssh.ssh_error) | SshRequired | RetryFails (e : retry_env_error).

Definition ingestEndpoint : string := "https://ingest.iron.sh/v1/logs".
(** The default exporter of managed mode. *)
Definition otelConfig (ingestToken : string) : Otel.ExportConfig :=
  if is_empty ingestToken then Otel.mkExport "" ∅
  else Otel.mkExport ingestEndpoint {["Authorization" := "Bearer " +:+ ingestToken]}.

Section main.
Context `{UnicodeTables} `{Regexp} `{Yaml} `{MapRange} `{DnsServer.DnsLib} {C : Type}.
Context `{HX : X509} `{HL : LRU (CertCache.tls_Certificate Key Pub Der)}.
Variable registry : gmap string (option Node -> result string (Transformer C)).
Variable decode_mcp : Node -> option McpConfig.
Variable decode_gateway : Node -> option (list (Gateway.RouteConfig Node)).
Variable decode_postgres : Node -> option (PgListener.ListenerConfig Node).
Variable BuildSource : Node -> option secretSource.
Variable template_Parse : gmap string (list string -> string) -> string -> option (string -> option string).
Variable Getenv : string -> string.
Variable error_text : reload_error -> string.
Variable time_JSON : Z -> string.
(** The files of the configuration and of the CA; the SSH library, with the
    YAML nodes it decodes, the world of its secret sources and the addresses
    that can be listened on. *)
Variable files : Files.
Variable ReadPem : string -> option Pem.
Context `{SL : Ssh.SshLibrary}.
Variables (ssh_node : Node -> Ssh.Node) (decode_ssh : Ssh.Node -> option Ssh.sshConfig) (ssh_world : Ssh.World) (listens : string -> bool).

Record Running := mkRunning {
  r_cfg : Config.t; r_app : App (C := C); r_poller : option Poller; r_pg : option PgListener.Listener;
  r_otel : option (Otel.protocol * list Otel.exporter_option * string);
  r_certs : option CertCache.Cache; r_dns : option DnsServer.Server; r_guard : Guard; r_ssh : option Ssh.loadedServer;
  r_retry : option (Retry.Handler * list Z); r_mgmt : option (Management.Options (running (C := C))) }.

Definition limits_of (cfg : Config.t) : BodyLimits := mkLimits (cfg_MaxRequestBodyBytes (c_Proxy cfg)) (cfg_MaxResponseBodyBytes (c_Proxy cfg)).

(** The pipeline, by the mode: [initManaged] or [initStandalone]. *)
Definition init_app (now : Z) (managed : bool) (cfg : Config.t) (local : option PgListener.Listener) (got : result cp_error SyncResponse)
  : result exit_reason (App (C := C) * option Poller * option PgListener.Listener * string) :=
  if managed then
    match initManaged registry decode_mcp decode_gateway BuildSource template_Parse Getenv (limits_of cfg) now cfg local got with
    | Exits => Err ManagedExits
    | Runs a l token p => Ok (a, Some p, l, token)
    end
  else
    match initStandalone registry decode_mcp decode_gateway BuildSource template_Parse (limits_of cfg) cfg with
    | Err e => Err (StandaloneFails e)
    | Ok a => Ok (a, None, local, "")
    end.

(** The certificate cache, not needed in sni-only mode. *)
Definition init_certs (cfg : Config.t) : result exit_reason (option CertCache.Cache) :=
  if str_eqb (TLSMode (c_TLS cfg)) TLSModeSNIOnly then Ok None
  else
    match CertCache.New ReadPem (CACert (c_TLS cfg)) (CAKey (c_TLS cfg)) (CertCacheSize (c_TLS cfg)) (CaGen.int64 (LeafCertExpiryHours (c_TLS cfg) * Hour)) with
    | Err e => Err (CertFails e)
    | Ok c => Ok (Some c)
    end.
Definition init_dns (cfg : Config.t) : result exit_reason (option DnsServer.Server) :=
  if IsEnabled (c_DNS cfg) then match DnsServer.New (c_DNS cfg) with None => Err DnsFails | Some s => Ok (Some s) end else Ok None.
Definition init_otel (ingestToken : string) : result exit_reason (option (Otel.protocol * list Otel.exporter_option * string)) :=
  if Otel.Enabled Getenv (otelConfig ingestToken) then
    match Otel.NewLoggerProvider Getenv (otelConfig ingestToken) with None => Err BadOtelProtocol | Some p => Ok (Some p) end
  else Ok None.
Definition init_ssh (requireSSH : bool) (guard : Guard) (cfg : Config.t) : result exit_reason (option Ssh.loadedServer) :=
  match Ssh.LoadFromNode ssh_world decode_ssh Getenv listens guard (ssh_node <$> SSH cfg) with
  | Err e => Err (SshFails e)
  | Ok server => if requireSSH && negb (bool_decide (is_Some server)) then Err SshRequired else Ok server
  end.

(** The deny list, and the retry handler, which dials through it. *)
Definition init_guard (cfg : Config.t) : result exit_reason Guard :=
  match NewGuard (Values (UpstreamDenyCIDRs (c_Proxy cfg))) with Err e => Err (GuardFails e) | Ok guard => Ok guard end.
Definition init_retry (guard : Guard) (cfg : Config.t) : result exit_reason (option (Retry.Handler * list Z)) :=
  match responseRetryHandlerFromEnv Getenv (UpstreamResponseHeaderTimeout (c_Proxy cfg)) (Some guard) with Err e => Err (RetryFails e) | Ok retry => Ok retry end.

(** *** The poller next to main

    [initManaged] starts the poller before [main] goes on.  What it does to
    the shared state meanwhile, one step at a time: it reads the audit
    function for a pipeline it has built, stores that pipeline, stores an MCP
    policy, reloads Postgres, and takes a response. *)
Inductive poll_event :=
  | PollReads (pl : Pipeline C) | PollStores | PollPolicy (policy : option Policy) | PollPostgres (l : option PgListener.Listener)
  | PollTakes (now : Z) (resp : SyncResponse).
Record polling := mkPolling { po_read : option (bool * Pipeline C); po_app : App (C := C); po_poller : Poller }.
Definition polled (s : polling) (e : poll_event) : polling :=
  match e with
  | PollReads pl => mkPolling (Some (current_audited (po_app s), pl)) (po_app s) (po_poller s)
  | PollStores => match po_read s with Some (au, pl) => mkPolling None (store_pipeline au pl (po_app s)) (po_poller s) | None => s end
  | PollPolicy policy => mkPolling (po_read s) (set_mcp policy (po_app s)) (po_poller s)
  | PollPostgres l => mkPolling (po_read s) (set_pg (PgServing.Reload l (pgManager (po_app s))) (po_app s)) (po_poller s)
  | PollTakes now resp =>
    mkPolling (po_read s) (po_app s) (recordSync now resp (mkPoller (ConfigHash resp) (interval (po_poller s)) (status (po_poller s)) (poke (po_poller s))))
  end.
(** An update has read the audit function and not stored its pipeline. *)
Definition under_way (es : list poll_event) : bool :=
  foldl (fun b e => match e with PollReads _ => true | PollStores => false | _ => b end) false es.

(** [SetAuditFunc] on the pipeline the holder has then; with a poller, after
    and before some of its steps. *)
Definition audit_beside (before after : list poll_event) (app : App) (poller : option Poller) : App * option Poller :=
  match poller with
  | None => (set_audit app, None)
  | Some p =>
    let s := foldl polled (mkPolling None app p) before in
    let s := foldl polled (mkPolling (po_read s) (set_audit (po_app s)) (po_poller s)) after in
    (po_app s, Some (po_poller s))
  end.

(** [main] up to the start of the servers; the poller, in managed mode, takes
    the steps [before] until the audit function is set and [after] from then
    on. *)
Definition main_start (now : Z) (configPath tokenFlag : string) (requireSSH : bool) (got : result cp_error SyncResponse) (before after : list poll_event)
  : result exit_reason Running :=
  match LoadConfig files Getenv configPath with
  | Err e => Err (BadConfig e)
  | Ok cfg =>
    if negb (bool_decide (is_Some (parseLogLevel (LogLevel cfg)))) then Err BadLogLevel
    else
      let managed := negb (is_empty (or_string tokenFlag (Getenv "IRON_PROXY_TOKEN"))) in
      if negb (is_empty (mg_Listen (c_Management cfg))) && negb managed && is_empty configPath then Err NoFileToReload
      else
        match postgres_LoadFromNode decode_postgres BuildSource Getenv (c_Postgres cfg) with
        | Err e => Err (BadPostgres e)
        | Ok local =>
          let* init := init_app now managed cfg local got in
          let '(app, poller, pg, ingestToken) := init in
          match Validate Getenv cfg with
          | Some e => Err (Invalid e)
          | None =>
            let* otel := init_otel ingestToken in
            let '(app, poller) := audit_beside before after app poller in
            let* certs := init_certs cfg in
            let* dns := init_dns cfg in
            let* guard := init_guard cfg in
            let* ssh := init_ssh requireSSH guard cfg in
            let* retry := init_retry guard cfg in
            let mgmt := mgmtOpts registry decode_mcp decode_gateway decode_postgres BuildSource template_Parse Getenv (limits_of cfg) error_text time_JSON
                          cfg managed files configPath in
            Ok (mkRunning cfg app poller pg otel certs dns guard ssh retry mgmt)
          end
        end
  end.

(** What a sync of the poller does is a sequence of those steps. *)
Definition reached (p : Poller) (a : App) (p' : Poller) (a' : App) : Prop :=
  exists es, foldl polled (mkPolling None a p) es = mkPolling None a' p' /\ under_way es = false.
Lemma reached_refl p a : reached p a p a.
Proof. by exists []. Qed.
Lemma reached_trans p a p1 a1 p2 a2 : reached p a p1 a1 -> reached p1 a1 p2 a2 -> reached p a p2 a2.
Proof.
  intros (es1 & He1 & Hu1) (es2 & He2 & Hu2). exists (es1 ++ es2). rewrite foldl_app, He1. split; [done|].
  unfold under_way in *. by rewrite foldl_app, Hu1.
Qed.
Lemma and_then_reached p a (r : option run_error * App) f : reached p a p r.2 -> (forall b, reached p b p (f b).2) -> reached p a p (and_then (C := C) r f).2.
Proof. intros Hr Hf. destruct r as [[e|] b]; cbn in *; [done|]. by eapply reached_trans. Qed.
Lemma when_present_reached p a (b : bool) f : reached p a p (f a).2 -> reached p a p (when_present (C := C) b f a).2.
Proof. destruct b; [done|]. intros _. apply reached_refl. Qed.
Lemma update_reached limits local u p a : reached p a p (onUpdate registry decode_mcp BuildSource Getenv limits local u a).2.
Proof.
  unfold onUpdate. repeat (apply and_then_reached; [|intros b]); apply when_present_reached.
  - unfold applyPipelineSync. destruct (sync_pipeline _ _ _ _ _) as [pl|]; [|apply reached_refl]. by exists [PollReads pl; PollStores].
  - unfold applyMCPSync. destruct (MCPFromSync _) as [[node|]|]; [|apply reached_refl..]. destruct (mcp_LoadFromNode _ _) as [policy|]; [by exists [PollPolicy policy] | apply reached_refl].
  - unfold applyPostgresSync. destruct (postgresListenerFromSync _ _ _ _) as [l|]; [by exists [PollPostgres l] | apply reached_refl].
Qed.
Lemma sync_is_polled limits local now got p a err p' a' :
  sync (Some (callback registry decode_mcp BuildSource Getenv limits local)) now got p a = (err, p', a') -> reached p a p' a'.
Proof.
  unfold sync. destruct got as [resp|e]; [|intros [= <- <- <-]; apply reached_refl].
  assert (reached p a p (if carries_update resp then callback registry decode_mcp BuildSource Getenv limits local (update_of resp) a else (None, a)).2) as Hu.
  { destruct (carries_update resp); [|apply reached_refl]. unfold callback. pose proof (update_reached limits local (update_of resp) p a) as Hup. by destruct (onUpdate _ _ _ _ _ _ _ _). }
  destruct (if carries_update resp then _ else _) as [[e|] a1]; intros [= <- <- <-]; [exact Hu|]. eapply reached_trans; [exact Hu|]. by exists [PollTakes now resp].
Qed.

Lemma init_app_spec now managed cfg local got app poller pg token :
  init_app now managed cfg local got = Ok (app, poller, pg, token) -> (is_Some poller <-> managed = true) /\ is_Some (current (holder app)).
Proof.
  unfold init_app. destruct managed.
  - unfold initManaged. destruct (match got with Err _ => _ | Ok _ => _ end); [done|].
    destruct (sync_pipeline _ _ _ _ _) as [pl|]; [|done]. destruct (buildInitialMCPHolder _ _ _) as [policy|]; [|done].
    destruct (gateway_LoadFromNode _ _ _ _) as [gateway|]; [|done]. by intros [= <- <- <- <-].
  - unfold initStandalone, rbind. destruct (buildPipeline _ _ _) as [pl|]; [|done]. destruct (mcp_LoadFromNode _ _) as [policy|]; [|done].
    destruct (gateway_LoadFromNode _ _ _ _) as [gateway|]; [|done]. intros [= <- <- <- <-]. split; [by split; [intros []|] | done].
Qed.

Lemma set_audit_audits (a : App (C := C)) : is_Some (current (holder a)) -> current_audited (set_audit a) = true.
Proof. intros [p Hp]. unfold current_audited, set_audit. cbn. rewrite Hp. apply bool_decide_eq_true. set_solver. Qed.
Lemma polled_holds s es : is_Some (current (holder (po_app s))) -> is_Some (current (holder (po_app (foldl polled s es)))).
Proof. revert s. induction es as [|e es IH]; intros s Hs; [done|]. apply IH. destruct e; cbn; try done. by destruct (po_read s) as [[au pl]|]. Qed.
Lemma polled_under_way s es : po_read s = None -> under_way es = false -> po_read (foldl polled s es) = None.
Proof.
  intros Hs. unfold under_way. assert (forall b, b = true \/ po_read s = None -> foldl (fun b e => match e with PollReads _ => true | PollStores => false | _ => b end) b es = false -> po_read (foldl polled s es) = None) as Hgen.
  { clear Hs. revert s. induction es as [|e es IH]; intros s b Hb; cbn; [intros ->; by destruct Hb|]. apply IH. destruct e; cbn; try (by left); try done.
    right. by destruct (po_read s) as [[au pl]|] eqn:E. }
  intros Hu. by apply (Hgen false); [right|].
Qed.
(** The pipelines that are stored from an audited state on are audited. *)
Lemma polled_audited s es : current_audited (po_app s) = true -> (forall au pl, po_read s = Some (au, pl) -> au = true) ->
  current_audited (po_app (foldl polled s es)) = true.
Proof.
  revert s. induction es as [|e es IH]; intros s Hs Hr; [done|]. cbn. apply IH; destruct e as [pl| |policy|l|t resp]; cbn; try done.
  - destruct (po_read s) as [[au pl]|] eqn:E; [|done]. rewrite (Hr au pl eq_refl). unfold current_audited. cbn. apply bool_decide_eq_true. set_solver.
  - intros au pl' [= <- _]. exact Hs.
  - destruct (po_read s) as [[au pl]|] eqn:E; [done|]. by rewrite E.
Qed.
Lemma audit_beside_spec before after app poller app' poller' : is_Some (current (holder app)) -> audit_beside before after app poller = (app', poller') ->
  (is_Some poller' <-> is_Some poller) /\ ((is_Some poller -> under_way before = false) -> current_audited app' = true).
Proof.
  intros Hc. unfold audit_beside. destruct poller as [p|]; intros [= <- <-]; [|split; [done|]; intros _; by apply set_audit_audits]. split; [done|].
  intros Hu. apply polled_audited; cbn; [by apply set_audit_audits, polled_holds|]. rewrite polled_under_way; [done | done | by apply Hu].
Qed.

Lemma init_certs_spec cfg certs : deployable Getenv cfg -> init_certs cfg = Ok certs -> (TLSMode (c_TLS cfg) = TLSModeMITM <-> is_Some certs).
Proof.
  intros Hdep. unfold init_certs. destruct (str_eqb (TLSMode (c_TLS cfg)) TLSModeSNIOnly) eqn:Em.
  - apply str_eqb_eq in Em. rewrite Em. intros [= <-]. split; [done | by intros []].
  - destruct (CertCache.New _ _ _ _ _); [|done]. intros [= <-]. split; [done|]. intros _.
    destruct (dp_mode _ _ Hdep) as [(Hm & _)|Hm]; [done|]. by rewrite Hm in Em.
Qed.

(** A configured SSH block is loaded, under the deny list, or [main] exits. *)
Lemma init_ssh_spec requireSSH guard cfg ssh : init_ssh requireSSH guard cfg = Ok ssh ->
  (is_Some ssh <-> is_Some (SSH cfg)) /\ (requireSSH = true -> is_Some ssh) /\
  (forall l, ssh = Some l -> Ssh.LoadFromNode ssh_world decode_ssh Getenv listens guard (ssh_node <$> SSH cfg) = Ok (Some l) /\ Ssh.srv_Guard (Ssh.ls_server l) = guard).
Proof.
  unfold init_ssh. destruct (Ssh.LoadFromNode _ _ _ _ _ _) as [server|e] eqn:El; [|done].
  destruct (requireSSH && negb (bool_decide (is_Some server))) eqn:Er; [done|]. intros [= <-].
  assert ((is_Some server <-> is_Some (SSH cfg)) /\ forall l, server = Some l -> Ssh.srv_Guard (Ssh.ls_server l) = guard) as [Hiff Hg].
  { destruct (SSH cfg) as [n|]; cbn in El; [|injection El as <-; split; [split; [by intros [] | by intros []] | done]].
    destruct (decode_ssh (ssh_node n)) as [c|]; [|done]. destruct (_ || _); [done|]. apply rbind_Ok_inv in El as (host & _ & El).
    destruct (Ssh.ParseAuthorizedKey _); [|done]. destruct (is_empty _); [done|]. destruct (negb (listens _)); [done|]. injection El as <-. split; [done|]. by intros l [= <-]. }
  split; [exact Hiff|]. split; [intros ->; destruct server; [done|]; discriminate Er|]. intros l ->. split; [done | by apply Hg].
Qed.

(** C38: What runs is what was configured and validated.  When [main] gets to
    starting its servers, the configuration was loaded and passed validation,
    outgoing connections have exactly the configured deny list, TLS is
    terminated only with a loaded CA and always in MITM mode, the DNS server
    runs when enabled, the readiness gate belongs to the poller exactly in
    managed mode, SSH runs exactly when configured, by the loaded block and
    under the same deny list, and always when required, and the management
    API, where configured, has a non-empty key.  The pipeline the holder has
    then is audited in standalone mode; in managed mode the poller has been
    running since, and the pipeline is audited whatever it did, unless an
    update of it was under way when the audit function was set. *)
Theorem main_runs_validated now configPath tokenFlag requireSSH got before after r :
  main_start now configPath tokenFlag requireSSH got before after = Ok r ->
  LoadConfig files Getenv configPath = Ok (r_cfg r) /\ Validate Getenv (r_cfg r) = None /\
  (or_string tokenFlag (Getenv "IRON_PROXY_TOKEN") = "" \/ under_way before = false -> current_audited (r_app r) = true) /\
  NewGuard (Values (UpstreamDenyCIDRs (c_Proxy (r_cfg r)))) = Ok (r_guard r) /\
  (TLSMode (c_TLS (r_cfg r)) = TLSModeMITM <-> is_Some (r_certs r)) /\
  (IsEnabled (c_DNS (r_cfg r)) = true <-> is_Some (r_dns r)) /\
  (is_Some (r_poller r) <-> or_string tokenFlag (Getenv "IRON_PROXY_TOKEN") <> "") /\
  (is_Some (r_ssh r) <-> is_Some (SSH (r_cfg r))) /\ (requireSSH = true -> is_Some (r_ssh r)) /\
  (forall l, r_ssh r = Some l -> Ssh.LoadFromNode ssh_world decode_ssh Getenv listens (r_guard r) (ssh_node <$> SSH (r_cfg r)) = Ok (Some l) /\
     Ssh.srv_Guard (Ssh.ls_server l) = r_guard r) /\
  (forall o, r_mgmt r = Some o -> Management.APIKey o <> "").
Proof.
  unfold main_start. destruct (LoadConfig files Getenv configPath) as [cfg|e]; [|done].
  destruct (negb (bool_decide _)); [done|]. set (token := or_string tokenFlag _).
  destruct (negb (is_empty (mg_Listen _)) && _ && _); [done|]. destruct (postgres_LoadFromNode _ _ _ _) as [local|e]; [|done].
  unfold rbind. destruct (init_app _ _ _ _ _) as [[[[app0 poller0] pg] ingest]|e] eqn:Ei; [|done].
  destruct (Validate Getenv cfg) as [e|] eqn:Ev; [done|]. destruct (init_otel ingest) as [otel|e]; [|done].
  destruct (audit_beside before after app0 poller0) as [app poller] eqn:Eb.
  destruct (init_certs cfg) as [certs|e] eqn:Ec; [|done]. destruct (init_dns cfg) as [dns|e] eqn:Ed; [|done].
  destruct (init_guard cfg) as [guard|e] eqn:Eg; [|done]. destruct (init_ssh _ _ _) as [ssh|e] eqn:Es; [|done].
  destruct (init_retry guard cfg) as [retry|e]; [|done]. intros [= <-]. cbn.
  pose proof (Validate_deployable _ _ Ev) as Hdep. destruct (init_app_spec _ _ _ _ _ _ _ _ _ Ei) as [Hpoll Hcur].
  destruct (audit_beside_spec _ _ _ _ _ _ Hcur Eb) as [Hsame Haud]. destruct (init_ssh_spec _ _ _ _ Es) as (Hs1 & Hs2 & Hs3). split_and!; try done.
  - intros Hu. apply Haud. rewrite Hpoll, negb_true_iff. intros Hne%is_empty_false. by destruct Hu as [?|?].
  - unfold init_guard in Eg. destruct (NewGuard _); [by injection Eg as -> | done].
  - exact (init_certs_spec _ _ Hdep Ec).
  - unfold init_dns in Ed. destruct (IsEnabled _); [destruct (DnsServer.New _); [|done]|]; injection Ed as <-; [done|]. split; [done | by intros []].
  - rewrite Hsame, Hpoll, negb_true_iff. split; [by intros ?%is_empty_false | intros Hne; by apply is_empty_false].
  - intros o. unfold mgmtOpts. destruct (is_empty (mg_Listen _)) eqn:El; [done|]. intros [= <-]. apply is_empty_false in El.
    pose proof (dp_key _ _ Hdep El). by destruct (negb _).
Qed.

(** ** The default exporter and the environment *)

(** The ingest token of the control plane goes where the environment says.
    With a collector configured by OTEL_EXPORTER_OTLP_ENDPOINT and no headers
    of its own, the exporter of managed mode has no endpoint but still the
    header with the token: every export carries it to that collector. *)
Theorem ingest_token_leaves token :
  token <> "" -> Otel.endpointFromEnv Getenv = true -> Otel.headersFromEnv Getenv = false ->
  Otel.exporterOptions Getenv (otelConfig token) = [Otel.WithHeaders {["Authorization" := "Bearer " +:+ token]}].
Proof.
  intros Ht He Hh. unfold Otel.exporterOptions, otelConfig. apply is_empty_false in Ht. rewrite Ht, He, Hh. cbn. by rewrite map_size_singleton.
Qed.
End main.

(** ** Stopping *)

(** The services in the order [main] shuts them down. *)
Inductive service := OtelProvider | DnsService | ProxyService | MetricsService | ManagementService | PostgresService | SshService.
Definition shutdown_order (otel dns mgmt ssh : bool) : list service :=
  (if otel then [OtelProvider] else []) ++ (if dns then [DnsService] else []) ++ [ProxyService; MetricsService]
  ++ (if mgmt then [ManagementService] else []) ++ [PostgresService] ++ (if ssh then [SshService] else []).

(** The requests in flight finish while the proxy shuts down; each is audited
    by the log and, while its provider is up, by the exporter. *)
Record stopping := mkStopping { st_inflight : list PipelineResult; st_exporting : bool; st_logged : list PipelineResult; st_exported : list PipelineResult }.
Definition shut_down (s : stopping) (x : service) : stopping :=
  match x with
  | OtelProvider => mkStopping (st_inflight s) false (st_logged s) (st_exported s)
  | ProxyService => mkStopping [] (st_exporting s) (st_logged s ++ st_inflight s) (st_exported s ++ if st_exporting s then st_inflight s else [])
  | _ => s
  end.

(** The requests that finish during the shutdown are in the log and not in
    the export: the provider is shut down before the proxy. *)
Theorem shutdown_loses_exports dns mgmt ssh rs :
  let s := foldl shut_down (mkStopping rs true [] []) (shutdown_order true dns mgmt ssh) in
  st_inflight s = [] /\ st_logged s = rs /\ st_exported s = [].
Proof. by destruct dns, mgmt, ssh. Qed.

(** ** A concrete start *)

Section examples.
Local Existing Instances ascii_tables literal_regexp text_yaml default_range.
Local Existing Instance DnsServer.plain_dns.
Definition no_ssh_config (n : @Ssh.Node Ssh.example_ssh) : option (Ssh.sshConfig (H0 := Ssh.example_ssh)) := None.
Definition example_start (flag : string) (before : list (poll_event (C := unit))) : result exit_reason (Running (C := unit) (HX := CertExamples.demo_x509) (HL := CertExamples.demo_lru _) (SL := Ssh.example_ssh)) :=
  main_start (HX := CertExamples.demo_x509) (HL := CertExamples.demo_lru _) (SL := Ssh.example_ssh) example_registry no_mcp no_gateway no_postgres no_source no_template example_env (fun _ => "invalid") (fun _ => "null")
    no_files (fun _ => None) (fun _ => "node") no_ssh_config tt (fun _ => true) 0 "" flag false (Err (Transport "down")) before [].
Lemma example_starts : forallb (fun r => match r with Ok _ => true | Err _ => false end)
  [example_start "" []; example_start "tok" [PollReads (mkPipeline [refusing] example_limits); PollStores]] = true.
Proof. vm_compute. reflexivity. Qed.

(** A standalone start, and a managed one whose poller has brought a pipeline
    before the audit function is set. *)
Lemma main_runs_validated_witness :
  Forall (fun r => match r with Ok r => current_audited (r_app r) = true /\ Validate example_env (r_cfg r) = None | Err _ => False end)
    [example_start "" []; example_start "tok" [PollReads (mkPipeline [refusing] example_limits); PollStores]].
Proof.
  pose proof example_starts as Hs. cbn in Hs. apply andb_true_iff in Hs as [Hs1 Hs2]. apply andb_true_iff in Hs2 as [Hs2 _].
  assert (forall flag before r, under_way before = false -> example_start flag before = Ok r -> current_audited (r_app r) = true /\ Validate example_env (r_cfg r) = None) as Hrun.
  { intros flag before r Hu E.
    destruct (main_runs_validated (HX := CertExamples.demo_x509) (HL := CertExamples.demo_lru _) (SL := Ssh.example_ssh) example_registry no_mcp no_gateway no_postgres no_source no_template example_env
                (fun _ => "invalid") (fun _ => "null") no_files (fun _ => None) (fun _ => "node") no_ssh_config tt (fun _ => true) 0 "" flag false (Err (Transport "down")) before [] r E) as (_ & Hv & Ha & _).
    split; [apply Ha; right; exact Hu | exact Hv]. }
  apply list.Forall_cons. split; [|apply list.Forall_singleton].
  - destruct (example_start "" []) as [r|e] eqn:E; [|discriminate Hs1]. by apply (Hrun "" [] r).
  - destruct (example_start "tok" _) as [r|e] eqn:E; [|discriminate Hs2]. by apply (Hrun "tok" [PollReads (mkPipeline [refusing] example_limits); PollStores] r).
Defined.

Definition collector_env (v : string) : string := if str_eqb v "OTEL_EXPORTER_OTLP_ENDPOINT" then "https://collector.example" else "".
Lemma ingest_token_leaves_witness :
  Otel.exporterOptions collector_env (otelConfig "tok") = [Otel.WithHeaders {["Authorization" := "Bearer tok"]}].
Proof. apply (ingest_token_leaves collector_env "tok"); [discriminate | reflexivity | reflexivity]. Defined.
End examples.
End Main.
