(* ===== verification/Serving.v ===== *)
(** * The command and the servers it runs (src/cmd/iron-proxy, src/internal/proxy)

    The command line, [New] and [ListenAndServe] of the proxy with the channel
    its listeners and [main] report on, what is served inside a tunnel, and
    the relay of a passed-through connection. *)
From stdpp Require Import base gmap strings list option relations.
From Stdlib Require Import ZArith Lia Ascii.
From S2P Require Import Prelude GoUtf8 GoStrings GoNet Body GoHttp GoUrl GoJson GoTime GoRegexp HostMatch Transform AuditLog DnsGuard PrivateConn.
From S2P Require Import ScrubPairs Secrets McpPolicy McpGateway RetryHandler ProxyHttp Proxy ProxySafety ProxyTunnel PgServer CertCache Config DnsServer ControlPlane Managed Management Dialing Lifecycle.
Local Open Scope string_scope.
Local Open Scope list_scope.
Local Open Scope Z_scope.

(** ** The command line *)

Module Command.

(** Package [flag]: a set of flags with their defaults, and what parsing ends
    with.  An error exits with status 2, a request for help with 0. *)
Inductive flag_value := FString (v : string) | FBool (v : bool) | FInt (v : Z).
Inductive flag_error := HelpRequested | BadSyntax (arg : string) | UnknownFlag (name : string) | NeedsArgument (name : string) | BadValue (name value : string).
(** [strconv.ParseInt] with base 0: a prefix chooses the base, and underscores
    may separate digits. *)
Inductive last_seen := SeenNothing | SeenDigit | SeenUnderscore | SeenOther.
Fixpoint underscores_ok (hex : bool) (seen : last_seen) (s : string) : bool :=
  match s with
  | EmptyString => match seen with SeenUnderscore => false | _ => true end
  | String c s' =>
    if bool_decide (is_Some (digit_of c)) || hex && bool_decide (is_Some (hex_digit_of c)) then underscores_ok hex SeenDigit s'
    else if bool_decide (c = "_"%char) then match seen with SeenDigit => underscores_ok hex SeenUnderscore s' | _ => false end
    else match seen with SeenUnderscore => false | _ => underscores_ok hex SeenOther s' end
  end.
(** The base and the digits; a leading zero counts as a base prefix. *)
Definition split_base (s : string) : Z * string :=
  let has p := (2 <? String.length s)%nat && existsb (str_eqb (stake 2 s)) p in
  if has ["0b"; "0B"] then (2, sdrop 2 s) else if has ["0o"; "0O"] then (8, sdrop 2 s) else if has ["0x"; "0X"] then (16, sdrop 2 s)
  else if HasPrefix s "0" then (8, sdrop 1 s) else (10, s).
Fixpoint digits_in_base (base : Z) (s : string) (acc : Z) : option Z :=
  match s with
  | EmptyString => Some acc
  | String c s' =>
    if bool_decide (c = "_"%char) then digits_in_base base s' acc
    else match hex_digit_of c with
         | Some d => if d <? base then digits_in_base base s' (acc * base + d) else None
         | None => None
         end
  end.
Definition ParseInt0 (s : string) : option Z :=
  let neg := HasPrefix s "-" in
  let u := if neg || HasPrefix s "+" then sdrop 1 s else s in
  if is_empty u then None
  else
    let '(base, digits) := split_base u in
    if string_in "_" u && negb (underscores_ok (base =? 16) (if base =? 10 then SeenNothing else SeenDigit) digits) then None
    else match digits_in_base base digits 0 with
         | None => None
         | Some n => if neg then Z.opp <$> bounded (max_int64 + 1) (Some n) else bounded max_int64 (Some n)
         end.

Definition set_value (name value : string) (f : gmap string flag_value) : result flag_error (gmap string flag_value) :=
  match f !! name with
  | Some (FString _) => Ok (<[name := FString value]> f)
  | Some (FBool _) => match Config.ParseBool value with Some b => Ok (<[name := FBool b]> f) | None => Err (BadValue name value) end
  | Some (FInt _) => match ParseInt0 value with Some n => Ok (<[name := FInt n]> f) | None => Err (BadValue name value) end
  | None => if str_eqb name "help" || str_eqb name "h" then Err HelpRequested else Err (UnknownFlag name)
  end.
(** The name and the value after the first [=], which is not the first byte. *)
Definition split_flag (s : string) : string * option string :=
  match s with
  | EmptyString => ("", None)
  | String c s' => match IndexByte s' "=" with
                   | Some i => (String c (stake i s'), Some (sdrop (S i) s'))
                   | None => (s, None)
                   end
  end.
(** [flag.FlagSet.Parse]: the flags and the arguments left. *)
Fixpoint parse_flags (args : list string) (f : gmap string flag_value) : result flag_error (gmap string flag_value * list string) :=
  match args with
  | [] => Ok (f, [])
  | s :: rest =>
    if (String.length s <? 2)%nat || negb (HasPrefix s "-") then Ok (f, args)
    else if str_eqb s "--" then Ok (f, rest)
    else
      let name := if HasPrefix s "--" then sdrop 2 s else sdrop 1 s in
      if is_empty name || HasPrefix name "-" || HasPrefix name "=" then Err (BadSyntax s)
      else
        let '(name, value) := split_flag name in
        match value, f !! name, rest with
        | Some v, _, _ => let* f := set_value name v f in parse_flags rest f
        | None, None, _ => match set_value name "" f with Err e => Err e | Ok f => parse_flags rest f end
        | None, Some (FBool _), _ => parse_flags rest (<[name := FBool true]> f)
        | None, Some _, v :: rest' => let* f := set_value name v f in parse_flags rest' f
        | None, Some _, [] => Err (NeedsArgument name)
        end
  end.

Definition string_flag (f : gmap string flag_value) (name : string) : string := match f !! name with Some (FString v) => v | _ => "" end.
Definition bool_flag (f : gmap string flag_value) (name : string) : bool := match f !! name with Some (FBool v) => v | _ => false end.
Definition int_flag (f : gmap string flag_value) (name : string) : Z := match f !! name with Some (FInt v) => v | _ => 0 end.

(** The flags of the proxy and of [generate-ca]. *)
Definition proxy_flags : gmap string flag_value := list_to_map [("config", FString ""); ("ssh", FBool false); ("token", FString "")].
Definition ca_flags : gmap string flag_value :=
  list_to_map [("outdir", FString "."); ("name", FString "iron-proxy CA"); ("expiry-hours", FInt 8760); ("alg", FString "rsa4096")].

(** What the command is told to do. *)
Inductive command :=
  | GenerateCA (outdir name : string) (expiryHours : Z) (alg : string)
  | PrintVersion
  | RunProxy (configPath tokenFlag : string) (requireSSH : bool)
  | Usage (e : flag_error).
Definition main_command (args : list string) : command :=
  match args with
  | a :: rest =>
    if str_eqb a "generate-ca" then
      match parse_flags rest ca_flags with
      | Ok (f, _) => GenerateCA (string_flag f "outdir") (string_flag f "name") (int_flag f "expiry-hours") (string_flag f "alg")
      | Err e => Usage e
      end
    else if str_eqb a "version" || str_eqb a "--version" || str_eqb a "-v" then PrintVersion
    else match parse_flags args proxy_flags with
         | Ok (f, _) => RunProxy (string_flag f "config") (string_flag f "token") (bool_flag f "ssh")
         | Err e => Usage e
         end
  | [] => RunProxy "" "" false
  end.
Definition exit_status (e : flag_error) : Z := match e with HelpRequested => 0 | _ => 2 end.

Example run_config : main_command ["--config=proxy.yaml"; "-ssh"; "-token"; "tok"] = RunProxy "proxy.yaml" "tok" true.
Proof. vm_compute. reflexivity. Qed.
Example run_ca : main_command ["generate-ca"; "-outdir"; "/etc"; "--expiry-hours=24"] = GenerateCA "/etc" "iron-proxy CA" 24 "rsa4096".
Proof. vm_compute. reflexivity. Qed.
Example parse_ints : map ParseInt0 ["8760"; "0x10"; "010"; "1_000"; "-0b11"; "0"; "1__0"; "0x_f"; "09"; ""]
  = [Some 8760; Some 16; Some 8; Some 1000; Some (-3); Some 0; None; Some 15; None; None].
Proof. vm_compute. reflexivity. Qed.
Example run_bad : map main_command [["-config"]; ["-x"]; ["---ssh"]; ["-ssh=maybe"]; ["-h"]]
  = [Usage (NeedsArgument "config"); Usage (UnknownFlag "x"); Usage (BadSyntax "---ssh"); Usage (BadValue "ssh" "maybe"); Usage HelpRequested].
Proof. vm_compute. reflexivity. Qed.

(** The values given on the command line are the ones used, whatever they
    are. *)
Theorem flags_read config token :
  main_command ["--config=" +:+ config; "-token"; token; "-ssh"] = RunProxy config token true.
Proof.
  unfold main_command. change (str_eqb ("--config=" +:+ config) ?x) with (str_eqb (String "-" (String "-" (String "c" ("onfig=" +:+ config)))) x).
  assert (parse_flags ["--config=" +:+ config; "-token"; token; "-ssh"] proxy_flags =
          Ok (<["ssh" := FBool true]> (<["token" := FString token]> (<["config" := FString config]> proxy_flags)), [])) as ->; [|done].
  cbn [parse_flags]. reflexivity.
Qed.
End Command.

(** ** Errors on a channel *)

(** Goroutines that each send one error when they stop, on a buffered channel
    from which one error is received. *)
Module Errc.
Inductive goroutine := Runs | Sending (e : string) | Gone.
Record chan := mkChan { ch_cap : nat; ch_buf : list string; ch_senders : list goroutine; ch_received : option string }.

Inductive step : chan -> chan -> Prop :=
  | stops cap buf gs r i e : gs !! i = Some Runs -> step (mkChan cap buf gs r) (mkChan cap buf (<[i := Sending e]> gs) r)
  | stops_quietly cap buf gs r i : gs !! i = Some Runs -> step (mkChan cap buf gs r) (mkChan cap buf (<[i := Gone]> gs) r)
  | sends cap buf gs r i e : gs !! i = Some (Sending e) -> (length buf < cap)%nat -> step (mkChan cap buf gs r) (mkChan cap (buf ++ [e]) (<[i := Gone]> gs) r)
  | receives cap e buf gs : step (mkChan cap (e :: buf) gs None) (mkChan cap buf gs (Some e)).

Definition started (cap n : nat) : chan := mkChan cap [] (replicate n Runs) None.
Definition is_gone (g : goroutine) : bool := match g with Gone => true | _ => false end.
Fixpoint gone (gs : list goroutine) : nat := match gs with [] => 0 | g :: gs' => (if is_gone g then 1 else 0) + gone gs' end.

Lemma gone_insert gs i g g' : gs !! i = Some g -> is_gone g = false ->
  gone (<[i := g']> gs) = ((if is_gone g' then 1 else 0) + gone gs)%nat.
Proof.
  revert i. induction gs as [|x gs IH]; intros [|i] Hg Hn; cbn in *; [done..| |].
  - injection Hg as ->. by rewrite Hn.
  - change (((if is_gone x then 1 else 0) + gone (<[i := g']> gs))%nat = ((if is_gone g' then 1 else 0) + ((if is_gone x then 1 else 0) + gone gs))%nat).
    rewrite (IH i Hg Hn). lia.
Qed.
Lemma gone_le gs : (gone gs <= length gs)%nat.
Proof. induction gs as [|x gs IH]; cbn; [done|]. destruct (is_gone x); lia. Qed.
Lemma gone_bound gs i g : gs !! i = Some g -> is_gone g = false -> (gone gs < length gs)%nat.
Proof.
  revert i. induction gs as [|x gs IH]; intros [|i] Hg Hn; cbn in *; [done..| |].
  - injection Hg as ->. rewrite Hn. pose proof (gone_le gs). lia.
  - specialize (IH i Hg Hn). destruct (is_gone x); lia.
Qed.

Definition received (c : chan) : nat := match ch_received c with Some _ => 1 | None => 0 end.
(** What is buffered or received was sent by a goroutine that is gone. *)
Definition inv (n cap : nat) (c : chan) : Prop :=
  ch_cap c = cap /\ length (ch_senders c) = n /\ (length (ch_buf c) + received c <= gone (ch_senders c))%nat.
Lemma errc_step n cap c c' : inv n cap c -> step c c' -> inv n cap c'.
Proof.
  intros (Hc & Hl & Hg). destruct 1 as [cap' buf gs r i e Hi | cap' buf gs r i Hi | cap' buf gs r i e Hi Hf | cap' e buf gs]; unfold inv, received in *; cbn in *.
  - rewrite length_insert, (gone_insert _ _ _ _ Hi eq_refl). split_and!; [done | done | cbn; lia].
  - rewrite length_insert, (gone_insert _ _ _ _ Hi eq_refl). split_and!; [done | done | cbn; lia].
  - rewrite length_insert, length_app, (gone_insert _ _ _ _ Hi eq_refl). split_and!; [done | done | cbn; lia].
  - split_and!; [done | done | lia].
Qed.
Lemma errc_reach n cap c : rtc step (started cap n) c -> inv n cap c.
Proof.
  assert (inv n cap (started cap n)) as Hi.
  { split_and!; [done | apply length_replicate|]. cbn. lia. }
  intros Hr. by eapply (rtc_invariant step), Hi; [eauto using errc_step|].
Qed.

(** A goroutine that has stopped can send, when the channel has room for all
    of them, or for all but one and an error was received. *)
Lemma send_enabled n cap c i e : rtc step (started cap n) c -> ch_senders c !! i = Some (Sending e) ->
  (n <= cap + received c)%nat -> (length (ch_buf c) < ch_cap c)%nat.
Proof.
  intros (-> & Hl & Hg)%errc_reach Hi Hn. pose proof (gone_bound _ _ _ Hi eq_refl). unfold received in *. destruct (ch_received c); lia.
Qed.
End Errc.

(** ** The relay of a passed-through connection (sni_passthrough.go) *)

Module Relay.
(** [proxyBidi]: what each side has yet to give and what it was given, the
    context, the two connections, and the two copies. *)
Record side := mkSide { sd_unread : list Z; sd_written : list Z; sd_open : bool }.
Record relay := mkRelay { r_a : side; r_b : side; r_canceled : bool; r_ab_done : bool; r_ba_done : bool; r_returned : bool }.
Definition start (a b : list Z) : relay := mkRelay (mkSide a [] true) (mkSide b [] true) false false false false.

(** One chunk from one side to the other. *)
Definition copied (n : nat) (src dst : side) : side * side :=
  (mkSide (drop n (sd_unread src)) (sd_written src) (sd_open src), mkSide (sd_unread dst) (sd_written dst ++ take n (sd_unread src)) (sd_open dst)).
Definition closed (s : side) : side := mkSide (sd_unread s) (sd_written s) false.

Inductive step : relay -> relay -> Prop :=
  | copy_ab n a b c ba : (0 < n <= length (sd_unread a))%nat -> sd_open a = true -> sd_open b = true ->
      step (mkRelay a b c false ba false) (mkRelay (copied n a b).1 (copied n a b).2 c false ba false)
  | copy_ba n a b c ab : (0 < n <= length (sd_unread b))%nat -> sd_open a = true -> sd_open b = true ->
      step (mkRelay a b c ab false false) (mkRelay (copied n b a).2 (copied n b a).1 c ab false false)
  (* end of file, an error, or a connection that was closed *)
  | end_ab a b c ba : step (mkRelay a b c false ba false) (mkRelay a b true true ba false)
  | end_ba a b c ab : step (mkRelay a b c ab false false) (mkRelay a b true ab true false)
  | shutdown a b ab ba : step (mkRelay a b false ab ba false) (mkRelay a b true ab ba false)
  | watcher_closes a b ab ba r : step (mkRelay a b true ab ba r) (mkRelay (closed a) (closed b) true ab ba r)
  | returns a b c : step (mkRelay a b c true true false) (mkRelay a b true true true true).

(** What was written to one side and what the other has yet to give is what
    the other gives; a copy that ended has cancelled the context. *)
Definition inv (a b : list Z) (r : relay) : Prop :=
  sd_written (r_b r) ++ sd_unread (r_a r) = a /\ sd_written (r_a r) ++ sd_unread (r_b r) = b /\
  (r_ab_done r = true \/ r_ba_done r = true -> r_canceled r = true) /\ (r_returned r = true -> r_ab_done r = true /\ r_ba_done r = true).
Lemma relay_step a b r r' : inv a b r -> step r r' -> inv a b r'.
Proof.
  intros (Ha & Hb & Hc & Hr). destruct 1; unfold inv in *; cbn in *; rewrite <- ?app_assoc, ?take_drop; naive_solver.
Qed.
Lemma relay_reach a b r : rtc step (start a b) r -> inv a b r.
Proof.
  assert (inv a b (start a b)) as Hi by (split_and!; cbn; naive_solver).
  intros Hr. by eapply (rtc_invariant step), Hi; [eauto using relay_step|].
Qed.

(** A passed-through connection is relayed as it is.  Each side is given a
    prefix of what the other sends, in order; once either direction ends or
    the proxy shuts down, the relay can always return, with both connections
    closed. *)
Theorem relay_passes_through a b r : rtc step (start a b) r ->
  (exists rest, a = sd_written (r_b r) ++ rest) /\ (exists rest, b = sd_written (r_a r) ++ rest) /\
  (r_ab_done r = true \/ r_ba_done r = true \/ r_canceled r = true ->
   exists r', rtc step r r' /\ r_returned r' = true /\ sd_open (r_a r') = false /\ sd_open (r_b r') = false /\
     sd_written (r_a r') = sd_written (r_a r) /\ sd_written (r_b r') = sd_written (r_b r)).
Proof.
  intros Hr. destruct (relay_reach _ _ _ Hr) as (Ha & Hb & Hc & Hret). split_and!; [by eexists | by eexists|]. intros Hend.
  assert (r_canceled r = true) as Hcan by naive_solver. destruct r as [sa sb c ab ba ret]. cbn in *. subst c.
  exists (mkRelay (closed sa) (closed sb) true true true true). split; [|done]. destruct ret.
  { destruct (Hret eq_refl) as [-> ->]. eapply rtc_l; [apply watcher_closes | apply rtc_refl]. }
  eapply rtc_l; [apply watcher_closes|]. transitivity (mkRelay (closed sa) (closed sb) true true ba false).
  { destruct ab; [apply rtc_refl|]. eapply rtc_l; [apply end_ab | apply rtc_refl]. }
  transitivity (mkRelay (closed sa) (closed sb) true true true false).
  { destruct ba; [apply rtc_refl|]. eapply rtc_l; [apply end_ba | apply rtc_refl]. }
  eapply rtc_l; [apply returns | apply rtc_refl].
Qed.
(** Once the watcher has closed the connections nothing more is copied, and
    at most three steps are left besides repeated closes. *)
Definition steps_left (r : relay) : nat :=
  ((if r_ab_done r then 0 else 1) + (if r_ba_done r then 0 else 1) + (if r_returned r then 0 else 1) + (if r_canceled r then 0 else 1))%nat.
Theorem closed_relay_ends r r' : sd_open (r_a r) = false -> step r r' -> r' = r \/ sd_open (r_b r) = true \/ (steps_left r' < steps_left r)%nat.
Proof.
  intros Ho Hst. destruct Hst as [n a b c ba Hn Hoa Hob|n a b c ab Hn Hoa Hob|a b c ba|a b c ab|a b ab ba|a b ab ba r|a b c]; cbn in *; try congruence; unfold steps_left; cbn.
  - right. right. destruct c; lia.
  - right. right. destruct c; lia.
  - right. right. lia.
  - destruct a as [ua wa oa], b as [ub wb ob]. cbn in Ho. subst oa. destruct ob; [by right; left | by left].
  - right. right. destruct c; lia.
Qed.
Lemma relay_passes_through_witness : exists r',
  rtc step (mkRelay (mkSide [] [7] true) (mkSide [] [1; 2] true) true true false false) r' /\ r_returned r' = true.
Proof.
  destruct (relay_passes_through [1; 2] [7] (mkRelay (mkSide [] [7] true) (mkSide [] [1; 2] true) true true false false)) as (_ & _ & He).
  { eapply rtc_l; [apply (copy_ab 2); cbn; (lia || done)|]. eapply rtc_l; [apply (copy_ba 1); cbn; (lia || done)|]. eapply rtc_l; [apply end_ab | apply rtc_refl]. }
  destruct (He (or_introl eq_refl)) as (r' & Hr & Hret & _). by exists r'.
Defined.
End Relay.

(** ** The proxy server (proxy.go, tunnel.go) *)

Module ProxyServer.
Import Dialing Proxy Tunnel.

Section server.
Context `{HN : Net} `{UnicodeTables} `{Regexp} `{MapRange} {Cache : Type}.

(** What the server is built from.  [o_Ready] looks at the poller when it is
    asked. *)
Record Options := mkOptions {
  o_HTTPAddr : string; o_HTTPSAddr : string; o_TunnelAddr : string; o_TLSMode : string; o_CertCache : option Cache;
  o_Pipeline : Holder (option requestScrubs); o_Resolver : Resolver; o_Guard : option Guard; o_MCPPolicy : option Policy;
  o_MCPGateway : option Gateway.t; o_ResponseRetryHandler : option Retry.Handler; o_UpstreamResponseHeaderTimeout : Z;
  o_UpstreamProxy : option (URL -> result string (option URL)); o_Ready : option (ControlPlane.Poller -> bool) }.
Record Server := mkServer {
  sv_httpAddr : string; sv_httpsAddr : string; sv_tlsMode : string; sv_tunnelAddr : string; sv_certCache : option Cache;
  sv_pipeline : Holder (option requestScrubs); sv_transport : Transport; sv_resolver : Resolver; sv_guard : option Guard; sv_mcpPolicy : option Policy;
  sv_mcpGateway : option Gateway.t; sv_responseRetryHandler : option Retry.Handler; sv_sniUpstreamPort : string; sv_ready : option (ControlPlane.Poller -> bool) }.

Definition New (o : Options) : Server :=
  let mode := if is_empty (o_TLSMode o) then Config.TLSModeMITM else o_TLSMode o in
  let guard := match o_Guard o with Some g => Some g | None => match NewGuard [] with Ok g => Some g | Err _ => None end end in
  mkServer (o_HTTPAddr o) (o_HTTPSAddr o) mode (o_TunnelAddr o) (o_CertCache o) (o_Pipeline o)
    (buildTransport (o_Resolver o) guard (o_UpstreamResponseHeaderTimeout o) (o_UpstreamProxy o)) (o_Resolver o) guard (o_MCPPolicy o) (o_MCPGateway o)
    (o_ResponseRetryHandler o) "" (o_Ready o).

Definition isReady (p : Server) (poller : ControlPlane.Poller) : bool := match sv_ready p with None => true | Some f => f poller end.
Definition sniOnly (p : Server) : bool := str_eqb (sv_tlsMode p) Config.TLSModeSNIOnly.

(** What a request sees of the server, while it has a pipeline. *)
Definition snapshot (p : Server) : option ProxyConfig :=
  (fun ptr => mkProxyConfig (ptr_pipeline ptr) (sv_mcpPolicy p) (sv_mcpGateway p) (sv_responseRetryHandler p)) <$> current (sv_pipeline p).
Definition handleDirectHTTP (w : World) (px : ProxyConfig) (i : Incoming) : Handled := handleHTTP w px i None.

(** *** The listeners *)

Inductive listener := HTTPListener | HTTPSListener | TunnelListener.
Definition listeners (p : Server) : list listener := [HTTPListener; HTTPSListener] ++ if is_empty (sv_tunnelAddr p) then [] else [TunnelListener].
(** What a listener's goroutine sends: its bind failed, or its accept loop
    came back with an error or with nil. *)
Inductive stopped := BindFails (e : string) | Served (e : option string).
Definition nil_verb (e : option string) : string := match e with Some e => e | None => "%!w(<nil>)" end.
Definition serveHTTPSMITM (s : stopped) : string :=
  match s with BindFails e => "https listen: " +:+ e | Served e => "https: " +:+ nil_verb e end.
Definition serveHTTPSSNI (s : stopped) : option string :=
  match s with BindFails e => Some ("https listen: " +:+ e) | Served _ => None end.
Definition listener_error (p : Server) (l : listener) (s : stopped) : option string :=
  match l with
  | HTTPListener => Some (match s with BindFails e => "http listen: " +:+ e | Served e => "http: " +:+ nil_verb e end)
  | HTTPSListener => if sniOnly p then serveHTTPSSNI s else Some (serveHTTPSMITM s)
  | TunnelListener => Some ("tunnel: " +:+ match s with BindFails e => "tunnel listen: " +:+ e | Served e => nil_verb e end)
  end.
(** [ListenAndServe] at the start, with its channel. *)
Definition ListenAndServe (p : Server) : Errc.chan :=
  Errc.started (if is_empty (sv_tunnelAddr p) then 2 else 3) (length (listeners p)).

(** *** Inside a tunnel *)

(** What is done with the connection in a tunnel: an error, a pass-through,
    or requests that were handled, each in its own world and by the
    configuration the proxy has when it comes. *)
Inductive tunnel_service := TunnelError (e : string) | TunnelPassed (conn : bufr) | TunnelServed (handled : list Handled).
Definition serveOneHTTPConn (info : TunnelInfo) (requests : list (World * ProxyConfig * Incoming)) : list Handled :=
  map (fun '(w, px, i) => handleHTTP w px i (Some info)) requests.
(** [handshake] is [crypto/tls] with the certificates of the cache, and the
    requests it then carries. *)
Definition serveTunnelTLS (p : Server) (handshake : bufr -> result string (list (World * ProxyConfig * Incoming)))
    (conn : bufr) (target : string) (info : TunnelInfo) : tunnel_service :=
  if sniOnly p then TunnelPassed conn
  else match handshake conn with
       | Err e => TunnelError ("TLS handshake for " +:+ target +:+ ": " +:+ e)
       | Ok requests => TunnelServed (serveOneHTTPConn info requests)
       end.
Definition serveTunnelHTTP (read : bufr -> list (World * ProxyConfig * Incoming)) (conn : bufr) (info : TunnelInfo) : tunnel_service :=
  TunnelServed (serveOneHTTPConn info (read conn)).
Definition serve_end (p : Server) (handshake : bufr -> result string (list (World * ProxyConfig * Incoming))) (read : bufr -> list (World * ProxyConfig * Incoming))
    (e : tunnel_end) (target : string) (info : TunnelInfo) : tunnel_service :=
  match e with
  | TunnelClosed => TunnelError "peek client protocol"
  | TunnelUnsupported first => TunnelError "unsupported protocol"
  | TunnelTLS conn => serveTunnelTLS p handshake conn target info
  | TunnelHTTP conn => serveTunnelHTTP read conn info
  end.

(** *** The proxy of main *)

(** [config.UpstreamProxy.ProxyFunc]; [httpproxy] is the library's function
    for the merged settings. *)
Definition ProxyFunc (httpproxy : Config.UpstreamProxy -> URL -> result string (option URL)) (env u : Config.UpstreamProxy)
    : URL -> result string (option URL) := fun url => httpproxy (Config.proxyConfig env u) url.
Definition proxy_options (httpproxy : Config.UpstreamProxy -> URL -> result string (option URL)) (env : Config.UpstreamProxy) `{Config.Yaml}
    (cfg : Config.t) (certs : option Cache) (a : Managed.App (C := option requestScrubs)) (guard : Guard) (retry : option Retry.Handler) (managed : bool) : Options :=
  mkOptions (Config.HTTPListen (Config.c_Proxy cfg)) (Config.HTTPSListen (Config.c_Proxy cfg)) (Config.TunnelListen (Config.c_Proxy cfg)) (Config.TLSMode (Config.c_TLS cfg))
    certs (Managed.holder a) (upstream_resolver (Config.UpstreamResolver (Config.c_DNS cfg))) (Some guard) (Managed.mcpHolder a) (Managed.gatewayHolder a) retry
    (Config.UpstreamResponseHeaderTimeout (Config.c_Proxy cfg)) (Some (ProxyFunc httpproxy env (Config.Upstream_Proxy (Config.c_Proxy cfg))))
    (if managed then Some (fun p => ControlPlane.SyncedOnce (ControlPlane.status p)) else None).
End server.

(** ** Properties *)

Section properties.
Context `{HL : NetLaws} `{UnicodeTables} `{Regexp} `{MapRange} {Cache : Type}.

(** Without a guard nothing is denied, as with the empty one. *)
Lemma New_guard_denies (o : Options (Cache := Cache)) a : IsDenied (sv_guard (New o)) a = IsDenied (o_Guard o) a.
Proof. unfold New. cbn. by destruct (o_Guard o). Qed.

(** C23: Requests travel only on connections the deny list or the pipeline
    admits.  Take the proxy [main] builds from its configuration, and any
    sequence of sends, reloads, closes and dials.  A request that was sent to
    a denied address was on a connection of its own, which no other request
    ever uses, and in the step in which it was sent every transform of the
    holder's pipeline that has a private-address policy consented to the
    address; on the shared transport only an endpoint that means
    the local system escapes the deny list.  Where no upstream proxy applies,
    a request on the shared transport travels to an address of the host in
    its own URL. *)
Theorem requests_travel_admitted `{Config.Yaml} httpproxy env cfg certs a guard retry managed initial st i w :
  let p := New (proxy_options (Cache := Cache) httpproxy env cfg certs a guard retry managed) in
  rtc (step (sv_guard p) (sv_transport p)) (net_start initial) st -> ns_sent st !! i = Some w ->
  (IsDenied (Some guard) (wr_peer w) = true ->
     if wr_direct w then admitted_when_sent (sv_guard p) (sv_transport p) initial st i w else local_endpoint (wr_ip w) = true) /\
  (wr_direct w = true -> forall j w', ns_sent st !! j = Some w' -> wr_conn w' = wr_conn w -> j = i) /\
  (wr_direct w = false -> (forall u, ProxyFunc httpproxy env (Config.Upstream_Proxy (Config.c_Proxy cfg)) u = Ok None) ->
     dialed (tr_Dialer (sv_transport p)) (canonicalAddr (ReqURL (rq (wr_req w)))) (wr_ip w) (wr_port w)).
Proof. intros p Hr Hi. exact (travel_admitted _ _ _ _ initial st i w Hr Hi). Qed.

(** *** Channels *)

(** The goroutines of [main] that report on its channel. *)
Inductive reporter := PollerReports | SshReports | DnsReports | ProxyReports | MetricsReports | ManagementReports | PostgresReports.
Definition main_reporters (poller ssh dns mgmt pg : bool) : list reporter :=
  (if poller then [PollerReports] else []) ++ (if ssh then [SshReports] else []) ++ (if dns then [DnsReports] else []) ++ [ProxyReports; MetricsReports]
  ++ (if mgmt then [ManagementReports] else []) ++ (if pg then [PostgresReports] else []).
Definition main_errc (poller ssh dns mgmt pg : bool) : Errc.chan := Errc.started 6 (length (main_reporters poller ssh dns mgmt pg)).

(** C39: No server is stuck on the way out.  In [ListenAndServe] a listener
    that stops can always report its error, so no goroutine is left behind
    when the first error is returned; and a server that [main] runs can report
    unless all seven run, the six others have reported and [main] has
    received none of it, being on its way out after a signal. *)
Theorem error_channels_suffice (p : Server (Cache := Cache)) c poller ssh dns mgmt pg c' i e :
  (rtc Errc.step (ListenAndServe p) c -> Errc.ch_senders c !! i = Some (Errc.Sending e) -> (length (Errc.ch_buf c) < Errc.ch_cap c)%nat) /\
  (rtc Errc.step (main_errc poller ssh dns mgmt pg) c' -> Errc.ch_senders c' !! i = Some (Errc.Sending e) ->
   (length (Errc.ch_buf c') < Errc.ch_cap c')%nat \/ (poller && ssh && dns && mgmt && pg = true /\ Errc.ch_received c' = None)).
Proof.
  split.
  - intros Hr Hi. eapply (Errc.send_enabled _ _ c i e Hr Hi). unfold listeners. destruct (is_empty _); cbn; lia.
  - intros Hr Hi. unfold main_errc in Hr.
    destruct (Errc.ch_received c') as [x|] eqn:Ex; [left; apply (Errc.send_enabled _ _ c' i e Hr Hi); unfold Errc.received; rewrite Ex; by destruct poller, ssh, dns, mgmt, pg; cbn; lia|].
    destruct (poller && ssh && dns && mgmt && pg) eqn:E; [by right|]. left. apply (Errc.send_enabled _ _ c' i e Hr Hi). unfold Errc.received. rewrite Ex.
    destruct poller, ssh, dns, mgmt, pg; cbn in *; (lia || discriminate E).
Qed.

(** *** Tunnels *)

(** Peeking at a connection loses nothing of it. *)
Lemma Peek1_content b x b' : Peek1 b = Some (x, b') -> content b' = content b.
Proof.
  unfold Peek1, filled. destruct b as [[|y buf] src]; cbn [b_buf b_src].
  - pose proof (fill_content src) as Hf. destruct (fill src) as [b1|]; [|done]. destruct Hf as [Hc _]. intros (z & _ & [= _ <-])%fmap_Some. by rewrite Hc.
  - by intros (z & _ & [= _ <-])%fmap_Some.
Qed.
Lemma serveTunnel_content br conn : serveTunnelWithReader br = TunnelTLS conn \/ serveTunnelWithReader br = TunnelHTTP conn -> content conn = content br.
Proof.
  unfold serveTunnelWithReader. destruct (Peek1 br) as [[first br']|] eqn:Ep; [|naive_solver]. apply Peek1_content in Ep.
  destruct (first =? 22); [naive_solver|]. destruct (isHTTPMethodByte first); naive_solver.
Qed.

(** C24: What goes through a tunnel is judged twice.  When a request leaves
    from inside a CONNECT tunnel, the tunnel itself was admitted: the proxy
    was ready and every transform let the CONNECT for its target continue;
    the request came in the bytes the client sent into the tunnel, all of
    them; and the request was then admitted in its own right, with its host,
    path, TLS name and readiness checked and every transform letting it
    continue, knowing the tunnel's target and traces; the configuration may
    have been reloaded since the CONNECT, and between the requests. *)
Theorem tunnel_judged_twice (p : Server (Cache := Cache)) px handshake read ready elapsed duration remote host header rw e target info handled h o :
  handleTunnelCONNECT ready elapsed duration (px_pipeline px) (sniOnly p) remote host header rw = inr (e, target, info) ->
  serve_end p handshake read e target info = TunnelServed handled -> h ∈ handled -> o ∈ hd_sent h ->
  ready = true /\ target = connect_host host /\ Target info = target /\
  Forall trace_continues (TunnelTransforms info) /\ map tr_Name (TunnelTransforms info) = map Name (transforms (px_pipeline px)) /\
  (exists conn, content conn = content rw /\
     exists w px' i, (w, px', i) ∈ (match e with TunnelTLS _ => match handshake conn with Ok l => l | Err _ => [] end | _ => read conn end) /\
       h = handleHTTP w px' i (Some info) /\ incoming_ok w i /\ pr_outcome (judged w px' i (Some info)) = Ok None).
Proof.
  unfold handleTunnelCONNECT. destruct (tunnelTransformCheck _ _ _ _ _ _ _ _) as [[info'|resp] audit] eqn:Hc; cbn [fst]; [|by destruct resp].
  intros [= <- <- <-] Hs Hh Ho. apply tunnelTransformCheck_Ok in Hc as (Hr & Ht & Hall & Hm & _). split_and!; [done..|].
  assert (forall l, TunnelServed handled = TunnelServed (serveOneHTTPConn info' l) -> exists w px' i, (w, px', i) ∈ l /\
            h = handleHTTP w px' i (Some info') /\ incoming_ok w i /\ pr_outcome (judged w px' i (Some info')) = Ok None) as Hserved.
  { intros l [= ->]. unfold serveOneHTTPConn in Hh. apply list_elem_of_fmap in Hh as ([[w px'] i] & -> & Hin). exists w, px', i. split_and!; [done | done | |].
    all: destruct (handleHTTP_sent w px' i (Some info')) as (Hok & Hj & _); [intros Heq; rewrite Heq in Ho; by apply elem_of_nil in Ho | done]. }
  unfold serve_end, serveTunnelTLS, serveTunnelHTTP in Hs. destruct (serveTunnelWithReader rw) as [|first|conn|conn] eqn:Et; [done | done | |]; exists conn;
    (split; [apply serveTunnel_content; eauto|]).
  - destruct (sniOnly p); [done|]. destruct (handshake conn) as [l|]; [|done]. apply Hserved. by rewrite Hs.
  - apply Hserved. by rewrite Hs.
Qed.
End properties.

(** ** Concrete servers *)

Section examples.
Local Existing Instances ascii_tables literal_regexp default_range Config.text_yaml demo_net demo_net_laws.
Definition no_proxy (u : Config.UpstreamProxy) (url : URL) : result string (option URL) := Ok None.
Definition no_env : Config.UpstreamProxy := Config.mkUpstreamProxy "" "" "".
Definition demo_app : Managed.App (C := option requestScrubs) := Managed.mkApp (NewPipelineHolder (Some demo_pipeline)) 1 ∅ None None PgServer.PgServing.NewManager.
Definition demo_server : Server (Cache := unit) := New (proxy_options no_proxy no_env Config.zero None demo_app demo_guard None false).

Lemma demo_server_sends : rtc (step (sv_guard demo_server) (sv_transport demo_server)) (net_start (Some demo_pipeline)) demo_sent.
Proof.
  eapply rtc_l; [|apply rtc_refl].
  eapply (send_dialed _ _ _ [] ∅ [] demo_request (mkMethod None "https" "api.test:443") 0 [Some (Addr4 0x5DB8D822)] (Some (Addr4 0x5DB8D822)) 443 7 true).
  - exists 0, demo_pipeline. by split.
  - reflexivity.
  - vm_compute. reflexivity.
  - apply lookup_empty.
Qed.
Lemma demo_private_step : rtc (step (sv_guard demo_server) (sv_transport demo_server)) (net_start (Some demo_private_pipeline)) demo_private_sent.
Proof.
  apply (rtc_l _ _ (mkNetState demo_private_dial.2 [] {[3%nat := (Some (Addr4 0x7F000001), 443)]} [demo_private_wire])); [|apply rtc_once, reloads].
  apply (send_direct _ _ _ [] ∅ [] demo_private_request (fun _ => ptr_pipeline demo_private_pipeline) 0 3 (Some (Addr4 0x7F000001)) 443).
  - exists 0, demo_private_pipeline. by split.
  - apply lookup_empty.
  - assert (demo_private_dial.1 = Some (Some (Addr4 0x7F000001), 443)) as <- by (vm_compute; reflexivity).
    change (canonicalAddr _) with "private.test:443". exact (surjective_pairing demo_private_dial).
Qed.
(** A request to a public address, and one to a denied address that the
    pipeline of that moment offered; a reload has withdrawn it since. *)
Lemma requests_travel_admitted_witness :
  dialed (tr_Dialer (sv_transport demo_server)) (canonicalAddr (ReqURL (rq demo_request))) (Some (Addr4 0x5DB8D822)) 443 /\
  IsDenied (Some demo_guard) (wr_peer demo_private_wire) = true /\
  admitted_when_sent (sv_guard demo_server) (sv_transport demo_server) (Some demo_private_pipeline) demo_private_sent 0 demo_private_wire.
Proof.
  assert (IsDenied (Some demo_guard) (wr_peer demo_private_wire) = true) as Hd by (vm_compute; reflexivity).
  split; [|split; [exact Hd|]].
  - exact (proj2 (proj2 (requests_travel_admitted (Cache := unit) no_proxy no_env Config.zero None demo_app demo_guard None false
      (Some demo_pipeline) demo_sent 0 demo_wire demo_server_sends eq_refl)) eq_refl (fun _ => eq_refl)).
  - exact (proj1 (requests_travel_admitted (Cache := unit) no_proxy no_env Config.zero None demo_app demo_guard None false
      (Some demo_private_pipeline) demo_private_sent 0 demo_private_wire demo_private_step eq_refl) Hd).
Defined.

(** A listener that cannot bind, on a server without a tunnel. *)
Lemma error_channels_suffice_witness :
  let c := Errc.mkChan 2 [] [Errc.Sending "http listen: in use"; Errc.Runs] None in
  rtc Errc.step (ListenAndServe demo_server) c /\ (length (Errc.ch_buf c) < Errc.ch_cap c)%nat.
Proof.
  cbv zeta. assert (rtc Errc.step (ListenAndServe demo_server) (Errc.mkChan 2 [] [Errc.Sending "http listen: in use"; Errc.Runs] None)) as Hr.
  { eapply rtc_l; [|apply rtc_refl]. exact (Errc.stops 2 [] [Errc.Runs; Errc.Runs] None 0 "http listen: in use" eq_refl). }
  split; [exact Hr|].
  exact (proj1 (error_channels_suffice demo_server (Errc.mkChan 2 [] [Errc.Sending "http listen: in use"; Errc.Runs] None) false false false false false
    (Errc.started 6 2) 0 "http listen: in use") Hr eq_refl).
Defined.

(** A plain request in a CONNECT tunnel. *)
Definition demo_tunnel : bufr := NewReader [bytes_of_string "POST /v1/items"].
Definition demo_read (_ : bufr) : list (World * ProxyConfig * Incoming) := [(example_world example_net, example_px None, example_incoming)].
Definition demo_handshake (_ : bufr) : result string (list (World * ProxyConfig * Incoming)) := Err "not TLS".
Definition demo_connect : ClientResponse + (tunnel_end * string * TunnelInfo) :=
  handleTunnelCONNECT true (fun _ => 0) 0 (px_pipeline (example_px None)) (sniOnly demo_server) "10.0.0.9:4000" "api.test:443" ∅ demo_tunnel.
Lemma tunnel_judged_twice_witness : exists info handled h o,
  serve_end demo_server demo_handshake demo_read (TunnelHTTP (mkBufr (bytes_of_string "POST /v1/items") [])) "api.test:443" info = TunnelServed handled /\
  h ∈ handled /\ o ∈ hd_sent h /\ Target info = "api.test:443".
Proof.
  assert (demo_connect = inr (TunnelHTTP (mkBufr (bytes_of_string "POST /v1/items") []), "api.test:443", mkTunnel "api.test:443" [])) as Hc by (vm_compute; reflexivity).
  set (h := handleHTTP (example_world example_net) (example_px None) example_incoming (Some (mkTunnel "api.test:443" []))).
  assert (length (hd_sent h) = 1%nat) as Hl by (vm_compute; reflexivity). destruct (hd_sent h) as [|o l] eqn:Eo; [discriminate Hl|].
  assert (o ∈ hd_sent h) as Ho by (rewrite Eo; left).
  exists (mkTunnel "api.test:443" []), [h], h, o. split; [reflexivity|]. split; [left|]. split; [exact Ho|].
  exact (proj1 (proj2 (proj2 (tunnel_judged_twice demo_server (example_px None) demo_handshake demo_read true (fun _ => 0) 0 "10.0.0.9:4000" "api.test:443" ∅ demo_tunnel
    _ _ _ [h] h o Hc eq_refl (list_elem_of_here h []) Ho)))).
Defined.
End examples.
End ProxyServer.
